(* ===== verification/_CoqProject ===== *)
-Q . S2P
Prelude.v
RustStr.v
Float64.v
FloatFmt.v
Toml.v
Schema.v
Fields.v
Fs.v
SmtpProto.v
Net.v
External.v
Config.v
CertStore.v
Wire.v
RelayQueue.v
RelayDelivery.v
QueueAdmin.v
RelayTasks.v
Balancer.v
Acl.v
WafRules.v
WafBuiltin.v
WafMatcher.v
WafEngine.v
RateLimit.v
Antispam.v
AntispamPre.v
AntispamPost.v
SmtpProxy.v
AntispamBuild.v
RelayPolicy.v
RelaySender.v
RelayReceiver.v
Relay.v
Ja3.v
Proto.v
Health.v
Listener.v
AcceptLoops.v
LineProxy.v
Acme.v
HttpProxy.v
Connections.v
Server.v
WebAuth.v
Captcha.v
Admin.v
Cli.v
CliSecurity.v
CliMail.v
WebApi.v
WebMail.v
AdminSpec.v
AdminProps.v
WebCerts.v
WebServe.v
Logging.v
QueueViews.v
CertViews.v
WebPages.v
Setup.v
