(* ===== verification/Prelude.v ===== *)
(** * ServerWall: a verification library

    ServerWall is a reverse proxy and load balancer with a web application firewall, a mail
    filter, an outbound mail relay, a command line tool and a web interface.  This library
    models the program as executable functions and proves what makes its parts correct.  The
    definitions keep the names of the source; where a name exists twice the model's is prefixed
    (a command [list] of [frontend.rs] is [cli_frontend_list]).

    ** The program and its model

    - Base.  [Prelude] (this file: results, wrap-around and saturating integers, lists,
      reachability), [RustStr] (Rust strings as UTF-8 bytes), [Float64] (binary64), [FloatFmt]
      (floating-point numbers as text), [Net] (addresses), [Fs] (files, each call able to fail by a script of faults), [External] (crates
      that several parts call, one class each), [Wire] (conversations by lines).
    - Configuration, [serverwall-core/src/config].  [Toml] (documents and derived serialisation),
      [Schema] (every structure of [schema.rs]), [Fields] (assignments to fields), [Config]
      ([loader.rs], [writer.rs], [editor.rs], [signal.rs], [proxy/src/reload.rs]).  An operation of
      the editor is a function [change] on configurations; [edit] loads, changes, validates and
      writes.
    - Certificates, [serverwall-core/src/tls].  [CertStore] ([cert_store.rs], [context.rs],
      [ocsp.rs], [self_signed.rs]), [Ja3] ([ja3.rs]), [Acme] ([acme.rs]).
    - Proxy, [serverwall-proxy/src] and [serverwall-core/src].  [Balancer] ([types.rs],
      [balancer/]), [Acl] ([acl/], [pipeline.rs]), [Health] ([health/]), [Listener] (the
      dispatch of connections), [AcceptLoops] (binding, the accept loops and their channel) and
      part of [Ja3] ([listener/]), [Proto] ([proto/]), [LineProxy] (IMAP, Stratum and TCP proxies),
      [HttpProxy] ([http_proxy.rs], [logging/apache.rs]), [Connections] (the handlers of a
      connection), [Server] ([server.rs]: the listeners of a configuration, serving, reloads, the
      shutdown), [Setup] ([main.rs]: the first run).
    - Firewall, [serverwall-waf/src].  [WafRules], [WafBuiltin] (every built-in rule),
      [WafMatcher], [WafEngine], [RateLimit].
    - Mail filter, [serverwall-antispam/src] and [proxy/smtp_proxy.rs].  [SmtpProto] (the command
      parser), [Antispam] (scores, lists, the pipeline over two traits of checks), [AntispamPre]
      and [AntispamPost] (the twenty checks), [AntispamBuild] (the filter of a configuration),
      [SmtpProxy] (a session from the banner to the backend).
    - Relay, [serverwall-relay/src].  [RelayQueue] (spool and scheduler), [RelayDelivery] (one
      attempt and the scan), [QueueAdmin] (the commands on the queue), [RelayTasks] (the
      concurrent deliveries of a pass, call by call), [RelayPolicy],
      [RelaySender], [RelayReceiver], [Relay] (the relay a configuration describes).
    - Administration, [serverwall-cli/src] and [serverwall-webui/src].  [Admin] (a monad of
      programs with a concrete and an abstract execution), [Cli], [CliSecurity], [CliMail] (the
      commands), [WebApi], [WebMail], [WebCerts] (the handlers), [QueueViews] and [CertViews]
      (the queue and the certificates as both programs show them), [WebAuth] and [Captcha] (the
      layers, sessions, the login page), [WebPages] (pages and files), [WebServe] (the process),
      [Logging] (log lines, the log stream, statistics), [AdminSpec] and [AdminProps] (theorems on
      commands and requests).

    ** How state and failure are modelled

    Bytes and machine integers are [Z], kept at their width where the code can leave it.  A
    panic is an outer [None].  [Result] is [result].  State that tasks share is held once:
    the backends and limiters of a configuration in [Server], the policy and the spool of the
    relay in [RelayReceiver], the configuration in memory in [Admin] and [WebServe].  What runs
    concurrently is a transition relation or a step function over events: listeners
    ([listener_step]), accept tasks ([accept_step]), connection counts, relay sessions
    ([sys_step]), the tasks of a delivery pass ([pass_step]), the spool and its writers, the server ([server_step]) and the web interface ([serve_step]); the theorems hold for every
    order of the events.  Files are a map from paths; every call on them may fail, a write also
    half way.  Clocks, random bytes and the answers of the network are arguments.

    ** What the theorems show

    - Admission.  In every reachable state of the server a connection is served exactly when the
      access rules in force admit it ([served_iff_admitted]); a request reaches a backend only
      through all gates ([forwarded_request_screened]); a message only after both phases of the
      filter ([only_screened_forwarded]); the relay queues only what its rules allow
      ([relay_admits_only_allowed]).  The firewall decides by the rules that match, and matching
      in batches is matching one by one ([inspect_decision], [batch_matching_equiv]).
    - No message is lost.  An acknowledged message is in the spool ([acknowledged_is_queued]); an
      attempt refines its specification ([deliver_message_refines]); failing calls lose no message
      that is to be retried ([no_message_lost]), and the retries end ([retries_terminate]);
      the spool stays consistent under any failures ([relay_invariant]); [relay_end_to_end] and
      [pass_any_schedule] compose the parts: the latter shows that the deliveries of a pass end
      under every interleaving of their calls as they would one after the other.
    - Configuration.  The editor refines an abstract store ([editor_refines]), writing is atomic
      ([config_write_atomic]), reading undoes it ([config_roundtrip]), what loads is well formed
      ([loaded_config_well_formed]), and after a reload the frontends of the new configuration
      run, up to the first that cannot be built ([reload_outcome]).
    - Administration.  Every command but three compound ones, and every request but those on key
      files, makes its change or none and says which ([command_transaction],
      [request_transaction]); only requests with credentials reach a handler ([api_requires_credentials]); nothing the web interface works with changes but by
      its administrators, a reload or another program ([changes_authorised],
      [accept_loop_invariant]); certificates are written where they belong
      ([certificate_writes_confined]) and shown as they were uploaded ([imported_chain_shown]); the
      records printed for DKIM and SPF are the configured ones ([generated_record_served],
      [spf_record_roundtrip]); the answers show every setting ([views_complete]), the pages of the
      queue every message ([queue_pages_complete]), the log page every line
      ([tail_streams_lines]); the first run leaves an administrator who can log in
      ([init_creates_administrator]).
    - Connections and certificates.  Counters are exact ([connection_counting],
      [listener_limit]), an accepted connection is dispatched once or still waits for it
      ([accepted_accounted]), a free place is used ([listener_serves]), selection follows the health
      checks ([selection_follows_health]), bursts are bounded ([burst_exact]), the certificate
      served covers the name asked for ([served_certificate_covers]), orders end
      ([order_correct]), the ClientHello is read back ([client_hello_parsed]), sessions return
      ([session_returns]), the SMTP client follows the protocol ([conversation_correct]).

    Other theorems show behaviour that is not intended; the findings of the manifest name them
    ([drop_in_edit_breaks_config], [shutdown_deadlock], [retried_message_sent_twice],
    [deleted_message_orphaned], [upload_replaces_key] and others).

    ** Fuel

    Loops that are not structural take fuel, and each has a lemma that the fuel is enough: the
    drains take ten looks per second of the timeout and two more ([drain_polls_ends]); the polls
    of an ACME order end by their deadlines ([order_correct]); loops over text take its length
    ([emit_lines], [read_headers], [pem_blocks_fuel]); the ClientHello parser its number of bytes ([ja3_total]);
    the command loop of a session the bytes the client sends ([session_returns]).  The
    eighteen places [shortest] tries are enough for every finite number: the digits it gives lie
    between the halves of the gaps to the neighbouring numbers ([shortest_inside]).

    ** Parameters

    Third-party crates are classes: regular expressions, [ipnetwork], GeoIP, [hickory] DNS, [mail-auth],
    MIME and HTML parsing, [rustls] and [openssl], [instant-acme], [serde_json], the text of TOML,
    [jsonwebtoken], [argon2], MD5, UUIDs, [hyper] and the router of [axum].  A class ending in
    [Spec] states the documented behaviour a theorem relies on; every class has an instance on
    which the witnesses are evaluated.

    ** Not modelled

    - Sockets, TLS and HTTP as protocols, setting up [tracing]: calls of libraries whose results
      are arguments here.
    - The parsing of command line arguments and of request bodies ([clap], the extractors of
      [axum]): generated code; actions and requests arrive as values.
    - The rendering of dates and the decoding of certificates: [chrono] and OpenSSL, parameters
      of the views.
    - HTML templates, style sheet, browser script, packaging.
    - Connections of the server are served in one step each; the interleaving of selections and
      releases is that of [Balancer], that of accepts and handlers that of [Listener] and
      [AcceptLoops]. *)

From Stdlib Require Export ZArith Lia Bool.
From stdpp Require Export base numbers strings option gmap list_numbers list.
#[global] Set Default Goal Selector "!".
#[export] Set Warnings "-clear-no-such-hyp".

(** Scope of the notations below. *)
Declare Scope rust_scope.
Delimit Scope rust_scope with rust.

(** ** Rust's [Result] *)

Inductive result (T E : Type) : Type :=
| Ok (t : T)
| Err (e : E).
Arguments Ok {T E} t.
Arguments Err {T E} e.

(** The [?] operator of a function that returns a [Result]. *)
Notation "'let?' x ':=' e 'in' k" :=
  (match e with Ok x => k | Err err => Err err end)
  (at level 10, x pattern, k at level 200) : rust_scope.
Open Scope rust_scope.

Definition is_ok {T E} (r : result T E) : bool :=
  match r with Ok _ => true | Err _ => false end.

#[export] Instance result_eq_dec {T E} `{EqDecision T, EqDecision E} :
  EqDecision (result T E).
Proof. solve_decision. Defined.

Definition unwrap_or {A} (d : A) (o : option A) : A :=
  match o with Some x => x | None => d end.

(** ** Machine integers: a [w]-bit value is a [Z], its width written out *)

Definition umax (w : Z) : Z := (2 ^ w - 1)%Z.
Definition in_u (w z : Z) : Prop := (0 <= z <= umax w)%Z.
Definition saturating_add (w a b : Z) : Z := Z.min (a + b) (umax w).
Definition wrapping_add (w a b : Z) : Z := ((a + b) mod 2 ^ w)%Z.
Definition wrapping_sub (w a b : Z) : Z := ((a - b) mod 2 ^ w)%Z.

Lemma saturating_add_range w a b :
  (0 <= w)%Z -> in_u w a -> in_u w b -> in_u w (saturating_add w a b).
Proof. unfold in_u, saturating_add, umax. lia. Qed.

Lemma saturating_add_mono w a b : in_u w a -> (0 <= b)%Z -> (a <= saturating_add w a b)%Z.
Proof. unfold in_u, saturating_add, umax. lia. Qed.

(** A shifted value and one below the shift do not overlap. *)
Lemma lor_shiftl a n b : (0 <= n -> 0 <= b < 2 ^ n -> Z.lor (Z.shiftl a n) b = a * 2 ^ n + b)%Z.
Proof.
  intros Hn Hb. rewrite <- Z.shiftl_mul_pow2 by done.
  assert (Hl : Z.land (Z.shiftl a n) b = 0%Z).
  { apply Z.bits_inj'. intros i Hi. rewrite Z.land_spec, Z.bits_0.
    destruct (Z.lt_ge_cases i n); [by rewrite Z.shiftl_spec_low|].
    destruct (decide (b = 0%Z)) as [->|]; [by rewrite Z.bits_0, andb_false_r|].
    rewrite (Z.bits_above_log2 b i), andb_false_r; [done|lia|].
    apply Z.lt_le_trans with n; [|done]. by apply Z.log2_lt_pow2; lia. }
  pose proof (Z.add_lor_land (Z.shiftl a n) b). lia.
Qed.

(** Saturating additions of a list of non-negative scores saturate their sum. *)
Lemma saturating_fold w (l : list Z) a :
  in_u w a -> Forall (fun x => (0 <= x)%Z) l ->
  fold_left (saturating_add w) l a = Z.min (fold_left Z.add l a) (umax w).
Proof.
  intros Ha Hl. revert a Ha. induction Hl as [|x l Hx Hl IH]; intros a Ha; simpl.
  { unfold in_u in Ha. lia. }
  rewrite IH; [|unfold in_u, saturating_add in *; lia].
  assert (Hm : forall (l : list Z) a b, Forall (fun x => (0 <= x)%Z) l -> (a <= b)%Z ->
            (a <= fold_left Z.add l a)%Z /\
            fold_left Z.add l b = (fold_left Z.add l a + (b - a))%Z).
  { clear. intros l; induction l as [|y l IH]; intros a b H Hab; simpl; [lia|].
    inversion H; subst.
    destruct (IH (a + y)%Z (b + y)%Z ltac:(done) ltac:(lia)); lia. }
  unfold saturating_add. destruct (decide (a + x <= umax w)%Z).
  - by rewrite (Z.min_l (a + x)) by lia.
  - rewrite (Z.min_r (a + x)) by lia.
    destruct (Hm l (umax w) (a + x)%Z Hl ltac:(lia)). lia.
Qed.

(** ** Tactics *)

(** Split every [if] and [match] on a boolean test of the goal, remembering it. *)
Ltac case_if :=
  match goal with
  | |- context [if ?b then _ else _] =>
      lazymatch type of b with
      | bool => let E := fresh "Hif" in destruct b eqn:E
      | _ => case_decide
      end
  end.

Ltac case_if_in H :=
  match type of H with
  | context [if ?b then _ else _] =>
      lazymatch type of b with
      | bool => let E := fresh "Hif" in destruct b eqn:E
      end
  end.

Ltac bool_to_prop :=
  repeat match goal with
  | H : (_ && _) = true |- _ => apply andb_true_iff in H as [? ?]
  | H : (_ || _) = false |- _ => apply orb_false_iff in H as [? ?]
  | H : negb _ = true |- _ => apply negb_true_iff in H
  | H : negb _ = false |- _ => apply negb_false_iff in H
  | H : bool_decide _ = true |- _ => apply bool_decide_eq_true in H
  | H : bool_decide _ = false |- _ => apply bool_decide_eq_false in H
  end.

Create HintDb serverwall.
Create Rewrite HintDb serverwall.

(** ** Lists *)

(** Boolean [any] and [all] of Rust iterators are [existsb] and [forallb]. *)
Lemma existsb_elem_of {A} (p : A -> bool) l :
  existsb p l = true <-> exists x, x ∈ l /\ p x = true.
Proof.
  rewrite existsb_exists. setoid_rewrite <- list_elem_of_In. reflexivity.
Qed.

Lemma existsb_false {A} (p : A -> bool) l :
  existsb p l = false <-> forall x, x ∈ l -> p x = false.
Proof.
  split.
  - intros H x Hx. destruct (p x) eqn:E; [|done].
    exfalso. assert (existsb p l = true) by (apply existsb_elem_of; eauto). congruence.
  - intros H. apply not_true_is_false. intros (x & Hx & E)%existsb_elem_of.
    rewrite H in E; done.
Qed.

Definition is_nil {A} (l : list A) : bool := match l with [] => true | _ => false end.

Lemma is_nil_true {A} (l : list A) : is_nil l = true <-> l = [].
Proof. destruct l; done. Qed.

Lemma is_nil_false {A} (l : list A) : is_nil l = false <-> l <> [].
Proof. destruct l; simpl; naive_solver. Qed.

(** [Iterator::filter_map]. *)
Fixpoint filter_map {A B} (f : A -> option B) (l : list A) : list B :=
  match l with
  | [] => []
  | x :: l => match f x with Some y => y :: filter_map f l | None => filter_map f l end
  end.

Lemma filter_map_perm {A B} (f : A -> option B) l l' : l ≡ₚ l' -> filter_map f l ≡ₚ filter_map f l'.
Proof.
  induction 1 as [|x l l' _ IH|x y l|l1 l2 l3 _ IH1 _ IH2]; cbn; [done| | |by rewrite IH1].
  - destruct (f x); by rewrite IH.
  - destruct (f x), (f y); try done. constructor.
Qed.

Lemma filter_map_app {A B} (f : A -> option B) l l' : filter_map f (l ++ l') = filter_map f l ++ filter_map f l'.
Proof. induction l as [|x l IH]; cbn; [done|]. rewrite IH. by destruct (f x). Qed.

Lemma Permutation_filter_bool {A} (f : A -> bool) l l' : l ≡ₚ l' -> List.filter f l ≡ₚ List.filter f l'.
Proof.
  induction 1 as [|x l l' _ IH|x y l|l1 l2 l3 _ IH1 _ IH2]; cbn; [done| | |by rewrite IH1].
  - destruct (f x); by rewrite IH.
  - destruct (f x), (f y); try done. constructor.
Qed.

Lemma elem_of_filter_map {A B} (f : A -> option B) l y :
  y ∈ filter_map f l <-> exists x, x ∈ l /\ f x = Some y.
Proof.
  induction l as [|x l IH]; simpl.
  { split; [intros []%elem_of_nil|intros (?&[]%elem_of_nil&_)]. }
  destruct (f x) as [z|] eqn:E.
  - rewrite elem_of_cons, IH. split.
    + intros [->|(x'&?&?)]; eauto using list_elem_of_here, list_elem_of_further.
    + intros (x'&[->|?]%elem_of_cons&?); [left; congruence|right; eauto].
  - rewrite IH. split.
    + intros (x'&?&?); eauto using list_elem_of_further.
    + intros (x'&[->|?]%elem_of_cons&?); [congruence|eauto].
Qed.

(** ** Transition sequences *)

Section Reachability.
Context {S : Type} (step : S -> S -> Prop).

Inductive steps (s1 : S) : S -> Prop :=
| steps_refl : steps s1 s1
| steps_step s2 s3 : steps s1 s2 -> step s2 s3 -> steps s1 s3.

Lemma steps_one s1 s2 : step s1 s2 -> steps s1 s2.
Proof. intros. eapply steps_step; [constructor|done]. Qed.

Lemma steps_trans s1 s2 s3 : steps s1 s2 -> steps s2 s3 -> steps s1 s3.
Proof. intros H1 H2. induction H2; [done|]. by eapply steps_step. Qed.

(** A predicate that holds initially and that every step keeps is invariant. *)
Lemma steps_invariant (I : S -> Prop) s1 s2 :
  (forall a b, I a -> step a b -> I b) -> I s1 -> steps s1 s2 -> I s2.
Proof. intros Hstep H1 H. induction H; eauto. Qed.
End Reachability.
#[export] Hint Constructors steps : serverwall.
