(* ===== verification/RustStr.v ===== *)
(** * Rust's [str], [String] and byte slices

    A [str] is its UTF-8 byte sequence and a [Vec<u8>] is a byte sequence, so both
    are [bytes], lists of [Z] in [0, 255].  [len], slicing, searching and
    comparison are then the byte operations Rust performs.  The functions below
    are the part of [core::str] and [alloc::string] the program calls; the name of
    each is the Rust name and the receiver comes first. *)

From S2P Require Import Prelude.
Open Scope Z_scope.

Abbreviation bytes := (list Z).

(** A string literal of the source; Rocq literals are UTF-8 too. *)
Definition bs (s : string) : bytes :=
  (fun a => Z.of_N (Ascii.N_of_ascii a)) <$> String.list_ascii_of_string s.
Arguments bs s%_string_scope.

Definition CR : Z := 13.
Definition LF : Z := 10.
Definition DOT : Z := 46.
Definition CRLF : bytes := [13; 10].

(** ** Prefixes, suffixes, searching *)

Fixpoint strip_prefix (s p : bytes) {struct p} : option bytes :=
  match p, s with
  | [], _ => Some s
  | x :: p, y :: s => if x =? y then strip_prefix s p else None
  | _ :: _, [] => None
  end.

Definition starts_with (s p : bytes) : bool :=
  match strip_prefix s p with Some _ => true | None => false end.

Definition strip_suffix (s p : bytes) : option bytes :=
  match strip_prefix (rev s) (rev p) with Some r => Some (rev r) | None => None end.

Definition ends_with (s p : bytes) : bool := starts_with (rev s) (rev p).

(** Byte offset of the first occurrence of [p]. *)
Fixpoint find (s p : bytes) : option nat :=
  if starts_with s p then Some 0%nat
  else match s with [] => None | _ :: s => S <$> find s p end.

Definition contains (s p : bytes) : bool :=
  match find s p with Some _ => true | None => false end.

(** [str::replace]: non-overlapping occurrences, left to right.  [p] is never
    empty in the program.  The fuel is the length of the string. *)
Fixpoint replace_fuel (fuel : nat) (s p r : bytes) : bytes :=
  match fuel with
  | O => s
  | S fuel =>
      match s with
      | [] => []
      | x :: s' =>
          match strip_prefix s p with
          | Some rest => r ++ replace_fuel fuel rest p r
          | None => x :: replace_fuel fuel s' p r
          end
      end
  end.
Definition replace (s p r : bytes) : bytes := replace_fuel (length s) s p r.

(** [s[n..]], which panics ([None]) past the end or inside a character. *)
Definition is_char_boundary (s : bytes) (n : nat) : bool :=
  match s !! n with
  | Some b => negb ((128 <=? b) && (b <=? 191))
  | None => Nat.eqb n (length s)
  end.
Definition slice_from (s : bytes) (n : nat) : option bytes :=
  if is_char_boundary s n then Some (drop n s) else None.

(** ** Splitting on an ASCII character *)

Fixpoint split_once (s : bytes) (c : Z) : option (bytes * bytes) :=
  match s with
  | [] => None
  | x :: s =>
      if x =? c then Some ([], s)
      else match split_once s c with Some (a, b) => Some (x :: a, b) | None => None end
  end.

Definition rsplit_once (s : bytes) (c : Z) : option (bytes * bytes) :=
  match split_once (rev s) c with
  | Some (a, b) => Some (rev b, rev a)
  | None => None
  end.

(** [s.rsplit(c).next()]: what follows the last [c], the whole string without one. *)
Definition rsplit_next (s : bytes) (c : Z) : bytes :=
  match rsplit_once s c with Some (_, d) => d | None => s end.

(** [Path::extension] of a file name. *)
Definition path_extension (p : bytes) : option bytes :=
  match rsplit_once p DOT with
  | Some (stem, ext) => if is_nil stem then None else Some ext
  | None => None
  end.

Fixpoint split (s : bytes) (c : Z) : list bytes :=
  match s with
  | [] => [[]]
  | x :: s =>
      if x =? c then [] :: split s c
      else match split s c with h :: t => (x :: h) :: t | [] => [[x]] end
  end.

Fixpoint splitn (n : nat) (s : bytes) (c : Z) : list bytes :=
  match n with
  | O => []
  | S O => [s]
  | S n => match split_once s c with Some (a, b) => a :: splitn n b c | None => [s] end
  end.

(** [slice::join] and [Vec<String>::join]. *)
Fixpoint join (sep : bytes) (l : list bytes) : bytes :=
  match l with
  | [] => []
  | [x] => x
  | x :: l => x ++ sep ++ join sep l
  end.

(** Pieces that end with ["\n"], the last one possibly not; an empty input has
    none.  This is [str::split_inclusive('\n')] and also the sequence of results
    of [AsyncBufReadExt::read_line] (and [read_until]) on a stream. *)
Fixpoint split_inclusive_lf (s : bytes) : list bytes :=
  match s with
  | [] => []
  | x :: s =>
      if x =? LF then [x] :: split_inclusive_lf s
      else match split_inclusive_lf s with h :: t => (x :: h) :: t | [] => [[x]] end
  end.

Definition lines (s : bytes) : list bytes :=
  (fun l => match strip_suffix l [LF] with
            | Some l => match strip_suffix l [CR] with Some l => l | None => l end
            | None => l
            end) <$> split_inclusive_lf s.

(** ** White space *)

Definition ascii_ws (b : Z) : bool := ((9 <=? b) && (b <=? 13)) || (b =? 32).

(** Third byte of the White_Space characters U+2000-200A, U+2028, U+2029, U+202F. *)
Definition e280_ws (b : Z) : bool :=
  ((128 <=? b) && (b <=? 138)) || (b =? 168) || (b =? 169) || (b =? 175).

(** The two- and three-byte White_Space characters. *)
Definition ws2 (b c : Z) : bool := (b =? 194) && ((c =? 133) || (c =? 160)).
Definition ws3 (b c d : Z) : bool :=
  ((b =? 225) && (c =? 154) && (d =? 128))
  || ((b =? 226) && (c =? 128) && e280_ws d)
  || ((b =? 226) && (c =? 129) && (d =? 159))
  || ((b =? 227) && (c =? 128) && (d =? 128)).

(** Drop leading white space, its multi-byte characters recognised by the two tests. *)
Fixpoint trim_by (w2 : Z -> Z -> bool) (w3 : Z -> Z -> Z -> bool) (s : bytes) : bytes :=
  match s with
  | b :: s1 =>
      if ascii_ws b then trim_by w2 w3 s1
      else match s1 with
      | c :: s2 =>
          if w2 b c then trim_by w2 w3 s2
          else match s2 with
          | d :: s3 => if w3 b c d then trim_by w2 w3 s3 else s
          | [] => s
          end
      | [] => s
      end
  | [] => []
  end.

Definition trim_start : bytes -> bytes := trim_by ws2 ws3.
(** The same characters, read backwards. *)
Definition trim_start_rev : bytes -> bytes :=
  trim_by (fun b c => ws2 c b) (fun b c d => ws3 d c b).

Definition trim_end (s : bytes) : bytes := rev (trim_start_rev (rev s)).
Definition trim (s : bytes) : bytes := trim_end (trim_start s).

(** [trim_end_matches] and [trim_matches] with a predicate on ASCII characters. *)
Fixpoint drop_while (p : Z -> bool) (s : bytes) : bytes :=
  match s with
  | x :: s' => if p x then drop_while p s' else s
  | [] => []
  end.
Definition trim_end_matches (p : Z -> bool) (s : bytes) : bytes := rev (drop_while p (rev s)).
Definition trim_matches (p : Z -> bool) (s : bytes) : bytes :=
  trim_end_matches p (drop_while p s).

(** ** UTF-8 *)

Definition cont (b : Z) : bool := (128 <=? b) && (b <=? 191).

(** Second byte allowed after the first byte of a three- or four-byte character. *)
Definition second3 (b0 b1 : Z) : bool :=
  if b0 =? 224 then (160 <=? b1) && (b1 <=? 191)
  else if b0 =? 237 then (128 <=? b1) && (b1 <=? 159)
  else cont b1.
Definition second4 (b0 b1 : Z) : bool :=
  if b0 =? 240 then (144 <=? b1) && (b1 <=? 191)
  else if b0 =? 244 then (128 <=? b1) && (b1 <=? 143)
  else cont b1.

(** [String::from_utf8(..).is_ok()], the check [read_line] also makes. *)
Fixpoint utf8_valid (s : bytes) : bool :=
  match s with
  | [] => true
  | b0 :: s1 =>
      if b0 <? 128 then utf8_valid s1
      else match s1 with
      | [] => false
      | b1 :: s2 =>
          if (194 <=? b0) && (b0 <=? 223) then cont b1 && utf8_valid s2
          else match s2 with
          | [] => false
          | b2 :: s3 =>
              if (224 <=? b0) && (b0 <=? 239)
              then second3 b0 b1 && cont b2 && utf8_valid s3
              else match s3 with
              | [] => false
              | b3 :: s4 =>
                  if (240 <=? b0) && (b0 <=? 244)
                  then second4 b0 b1 && cont b2 && cont b3 && utf8_valid s4
                  else false
              end
          end
      end
  end.

(** U+FFFD. *)
Definition replacement : bytes := [239; 191; 189].

(** [String::from_utf8_lossy]: each maximal ill-formed prefix becomes U+FFFD. *)
Fixpoint from_utf8_lossy (s : bytes) : bytes :=
  match s with
  | [] => []
  | b0 :: s1 =>
      if b0 <? 128 then b0 :: from_utf8_lossy s1
      else if (194 <=? b0) && (b0 <=? 223) then
        match s1 with
        | b1 :: s2 => if cont b1 then b0 :: b1 :: from_utf8_lossy s2
                      else replacement ++ from_utf8_lossy s1
        | [] => replacement
        end
      else if (224 <=? b0) && (b0 <=? 239) then
        match s1 with
        | b1 :: s2 =>
            if second3 b0 b1 then
              match s2 with
              | b2 :: s3 => if cont b2 then b0 :: b1 :: b2 :: from_utf8_lossy s3
                            else replacement ++ from_utf8_lossy s2
              | [] => replacement
              end
            else replacement ++ from_utf8_lossy s1
        | [] => replacement
        end
      else if (240 <=? b0) && (b0 <=? 244) then
        match s1 with
        | b1 :: s2 =>
            if second4 b0 b1 then
              match s2 with
              | b2 :: s3 =>
                  if cont b2 then
                    match s3 with
                    | b3 :: s4 => if cont b3 then b0 :: b1 :: b2 :: b3 :: from_utf8_lossy s4
                                  else replacement ++ from_utf8_lossy s3
                    | [] => replacement
                    end
                  else replacement ++ from_utf8_lossy s2
              | [] => replacement
              end
            else replacement ++ from_utf8_lossy s1
        | [] => replacement
        end
      else replacement ++ from_utf8_lossy s1
  end.

(** [str::chars], on the valid UTF-8 a [str] always holds. *)
Fixpoint chars (s : bytes) : list Z :=
  match s with
  | [] => []
  | b0 :: s1 =>
      if b0 <? 128 then b0 :: chars s1
      else match s1 with
      | [] => []
      | b1 :: s2 =>
          if b0 <? 224 then ((b0 - 192) * 64 + (b1 - 128)) :: chars s2
          else match s2 with
          | [] => []
          | b2 :: s3 =>
              if b0 <? 240
              then ((b0 - 224) * 4096 + (b1 - 128) * 64 + (b2 - 128)) :: chars s3
              else match s3 with
              | [] => []
              | b3 :: s4 =>
                  ((b0 - 240) * 262144 + (b1 - 128) * 4096 + (b2 - 128) * 64 + (b3 - 128))
                    :: chars s4
              end
          end
      end
  end.

(** [char::encode_utf8]. *)
Definition encode_char (c : Z) : bytes :=
  if c <? 128 then [c]
  else if c <? 2048 then [192 + c / 64; 128 + c mod 64]
  else if c <? 65536 then [224 + c / 4096; 128 + (c / 64) mod 64; 128 + c mod 64]
  else [240 + c / 262144; 128 + (c / 4096) mod 64; 128 + (c / 64) mod 64; 128 + c mod 64].

Definition encode (cs : list Z) : bytes := flat_map encode_char cs.

(** ** Case mapping

    ASCII is written out.  The mapping of other characters is Unicode data that
    the standard library embeds; it is the parameter of this class: the upper-case
    expansion of a character, and the lower-case expansion of a character between
    the characters before and after it (the final-sigma rule looks at both). *)
Class Unicode := {
  uni_upper : Z -> list Z;
  uni_lower : list Z -> Z -> list Z -> list Z;
}.

(** An instance for evaluation: no case outside ASCII. *)
#[export] Instance caseless : Unicode | 100 :=
  {| uni_upper c := [c]; uni_lower _ c _ := [c] |}.

Definition ascii_lower (b : Z) : Z := if (65 <=? b) && (b <=? 90) then b + 32 else b.
Definition ascii_upper (b : Z) : Z := if (97 <=? b) && (b <=? 122) then b - 32 else b.

Section Case.
Context `{Unicode}.

Definition upper_char (c : Z) : list Z :=
  if c <? 128 then [ascii_upper c] else uni_upper c.

Definition to_uppercase (s : bytes) : bytes := encode (flat_map upper_char (chars s)).

Fixpoint lower_chars (before cs : list Z) : list Z :=
  match cs with
  | [] => []
  | c :: after =>
      (if c <? 128 then [ascii_lower c] else uni_lower before c after)
      ++ lower_chars (before ++ [c]) after
  end.

Definition to_lowercase (s : bytes) : bytes := encode (lower_chars [] (chars s)).
End Case.

(** [eq_ignore_ascii_case]. *)
Definition eq_ignore_ascii_case (a b : bytes) : bool :=
  bool_decide (ascii_lower <$> a = ascii_lower <$> b).

(** ** Integers in decimal *)

Definition digit_val (radix b : Z) : option Z :=
  let v := if (48 <=? b) && (b <=? 57) then b - 48
           else if (97 <=? b) && (b <=? 122) then b - 87
           else if (65 <=? b) && (b <=? 90) then b - 55
           else radix in
  if v <? radix then Some v else None.

Fixpoint digits_val (radix : Z) (s : bytes) (acc : Z) : option Z :=
  match s with
  | [] => Some acc
  | b :: s => match digit_val radix b with
              | Some d => digits_val radix s (acc * radix + d)
              | None => None
              end
  end.

(** [u<w>::from_str_radix]: an optional [+], then at least one digit, in range. *)
Definition parse_uint (w radix : Z) (s : bytes) : option Z :=
  let ds := match s with 43 :: ((_ :: _) as s') => s' | _ => s end in
  match ds with
  | [] => None
  | _ => match digits_val radix ds 0 with
         | Some v => if v <=? umax w then Some v else None
         | None => None
         end
  end.

(** [i<w>::from_str]: an optional sign, then at least one digit, in range. *)
Definition parse_int (w : Z) (s : bytes) : option Z :=
  match s with
  | [] => None
  | 45 :: ((_ :: _) as ds) =>
      match digits_val 10 ds 0 with
      | Some v => if v <=? 2 ^ (w - 1) then Some (- v) else None
      | None => None
      end
  | _ =>
      let ds := match s with 43 :: ((_ :: _) as s') => s' | _ => s end in
      match digits_val 10 ds 0 with
      | Some v => if v <? 2 ^ (w - 1) then Some v else None
      | None => None
      end
  end.

(** [Display] of a non-negative integer; the fuel bounds the number of digits. *)
Fixpoint show_fuel (fuel : nat) (z : Z) (acc : bytes) : bytes :=
  match fuel with
  | O => acc
  | S fuel => let acc := 48 + z mod 10 :: acc in
              if z <? 10 then acc else show_fuel fuel (z / 10) acc
  end.
Definition show (z : Z) : bytes := show_fuel (S (Z.to_nat (Z.log2 z))) z [].

(** [{:0nX}]: at least [n] upper-case hexadecimal digits. *)
Fixpoint show_hex (n : nat) (z : Z) (acc : bytes) : bytes :=
  match n with
  | O => acc
  | S n => let d := z mod 16 in
           show_hex n (z / 16) ((if d <? 10 then 48 + d else 55 + d) :: acc)
  end.

(** [char::is_whitespace], the Unicode property White_Space. *)
Definition char_is_whitespace (c : Z) : bool :=
  ((9 <=? c) && (c <=? 13)) || (c =? 32) || (c =? 133) || (c =? 160) || (c =? 5760) ||
  ((8192 <=? c) && (c <=? 8202)) || (c =? 8232) || (c =? 8233) || (c =? 8239) || (c =? 8287) ||
  (c =? 12288).

(** [str::split] on a non-empty string pattern; each split consumes input, so the
    length is fuel enough. *)
Fixpoint split_str_fuel (fuel : nat) (s p : bytes) : list bytes :=
  match fuel, find s p with
  | S fuel, Some i => take i s :: split_str_fuel fuel (drop (i + length p) s) p
  | _, _ => [s]
  end.
Definition split_str (s p : bytes) : list bytes := split_str_fuel (length s) s p.

(** [str::split_whitespace]: the maximal runs of characters that are not white space. *)
Fixpoint words (cs cur : list Z) : list (list Z) :=
  match cs with
  | [] => if is_nil cur then [] else [rev cur]
  | c :: cs => if char_is_whitespace c
               then (if is_nil cur then words cs [] else rev cur :: words cs [])
               else words cs (c :: cur)
  end.
Definition split_whitespace (s : bytes) : list bytes := encode <$> words (chars s) [].

(** The lexicographic order of strings, [Vec::sort] by insertion, [Vec::dedup]. *)
Fixpoint bytes_le (a b : bytes) : bool :=
  match a, b with
  | [], _ => true
  | _, [] => false
  | x :: a, y :: b => (x <? y) || ((x =? y) && bytes_le a b)
  end.
Fixpoint insert_sorted (x : bytes) (l : list bytes) : list bytes :=
  match l with
  | [] => [x]
  | y :: l' => if bytes_le x y then x :: l else y :: insert_sorted x l'
  end.
Definition sort_strings (l : list bytes) : list bytes := foldr insert_sorted [] l.
Fixpoint dedup (l : list bytes) : list bytes :=
  match l with
  | x :: (y :: _) as l' => if bool_decide (x = y) then dedup l' else x :: dedup l'
  | _ => l
  end.

(** [trim_end_matches("\r\n")], then of line feeds. *)
Fixpoint drop_crlf_rev (s : bytes) : bytes :=
  match s with 10 :: 13 :: s => drop_crlf_rev s | _ => s end.
Definition trim_line_end (s : bytes) : bytes :=
  trim_end_matches (fun c => c =? LF) (rev (drop_crlf_rev (rev s))).

#[global] Arguments trim : simpl never.
#[global] Arguments to_uppercase : simpl never.
#[global] Arguments to_lowercase : simpl never.
#[global] Arguments show : simpl never.

(** ** Lemmas *)

Lemma strip_prefix_Some s p r : strip_prefix s p = Some r <-> s = p ++ r.
Proof.
  revert s. induction p as [|x p IH]; intros s; simpl; [split; congruence|].
  destruct s as [|y s]; [split; congruence|].
  destruct (Z.eqb_spec x y); [subst; rewrite IH|]; split; congruence.
Qed.

Lemma strip_prefix_app p r : strip_prefix (p ++ r) p = Some r.
Proof. by apply strip_prefix_Some. Qed.

Lemma starts_with_true s p : starts_with s p = true <-> exists r, s = p ++ r.
Proof.
  unfold starts_with. destruct (strip_prefix s p) as [r|] eqn:E.
  - apply strip_prefix_Some in E. naive_solver.
  - split; [done|]. intros (r & ->). by rewrite strip_prefix_app in E.
Qed.

Lemma starts_with_app p r : starts_with (p ++ r) p = true.
Proof. apply starts_with_true. eauto. Qed.

Lemma starts_with_cons_ne x s y p : x <> y -> starts_with (x :: s) (y :: p) = false.
Proof. intros Hne. unfold starts_with. simpl. by rewrite (proj2 (Z.eqb_neq y x)) by congruence. Qed.

Lemma starts_with_cons x s p : starts_with (x :: s) (x :: p) = starts_with s p.
Proof. unfold starts_with. simpl. by rewrite Z.eqb_refl. Qed.

Lemma ends_with_snoc s x y : ends_with (s ++ [x]) [y] = (y =? x).
Proof.
  unfold ends_with, starts_with. rewrite rev_app_distr. simpl.
  by destruct (y =? x).
Qed.

Lemma split_inclusive_lf_concat s : concat (split_inclusive_lf s) = s.
Proof.
  induction s as [|x s IH]; simpl; [done|].
  destruct (x =? LF) eqn:E; simpl.
  - by rewrite IH.
  - destruct (split_inclusive_lf s); simpl in *; by subst.
Qed.

(** A line followed by anything is read first. *)
Lemma split_inclusive_lf_line l rest :
  Forall (fun b => b <> LF) l ->
  split_inclusive_lf (l ++ LF :: rest) = (l ++ [LF]) :: split_inclusive_lf rest.
Proof.
  induction 1 as [|x l Hx Hl IH]; simpl; [done|].
  rewrite (proj2 (Z.eqb_neq x LF)) by done. by rewrite IH.
Qed.

(** *** ASCII strings *)

Definition is_ascii (s : bytes) : Prop := Forall (fun b => 0 <= b < 128) s.

Lemma chars_ascii_app a s : is_ascii a -> chars (a ++ s) = a ++ chars s.
Proof.
  induction 1 as [|x a Hx Ha IH]; simpl; [done|].
  rewrite (proj2 (Z.ltb_lt x 128)) by lia. by rewrite IH.
Qed.

Lemma encode_app a b : encode (a ++ b) = encode a ++ encode b.
Proof. unfold encode. by rewrite flat_map_app. Qed.

Lemma encode_ascii a : is_ascii a -> encode a = a.
Proof.
  induction 1 as [|x a Hx Ha IH]; [done|].
  change (encode (x :: a)) with (encode_char x ++ encode a). rewrite IH.
  unfold encode_char. by rewrite (proj2 (Z.ltb_lt x 128)) by lia.
Qed.

Lemma ascii_upper_range b : 0 <= b < 128 -> 0 <= ascii_upper b < 128.
Proof. unfold ascii_upper. intros. case_if; bool_to_prop; lia. Qed.

Lemma ascii_lower_range b : 0 <= b < 128 -> 0 <= ascii_lower b < 128.
Proof. unfold ascii_lower. intros. case_if; bool_to_prop; lia. Qed.

Lemma is_ascii_app a b : is_ascii (a ++ b) <-> is_ascii a /\ is_ascii b.
Proof. unfold is_ascii. apply Forall_app. Qed.

Lemma is_ascii_upper a : is_ascii a -> is_ascii (ascii_upper <$> a).
Proof. unfold is_ascii. intros. apply Forall_fmap. eapply Forall_impl; [done|]. apply ascii_upper_range. Qed.

Lemma is_ascii_lower a : is_ascii a -> is_ascii (ascii_lower <$> a).
Proof. unfold is_ascii. intros. apply Forall_fmap. eapply Forall_impl; [done|]. apply ascii_lower_range. Qed.

Section CaseLemmas.
Context `{Unicode}.

Lemma flat_map_upper_ascii a :
  is_ascii a -> flat_map upper_char a = ascii_upper <$> a.
Proof.
  induction 1 as [|x a Hx Ha IH]; [done|].
  change (flat_map upper_char (x :: a)) with (upper_char x ++ flat_map upper_char a).
  rewrite IH. unfold upper_char. by rewrite (proj2 (Z.ltb_lt x 128)) by lia.
Qed.

(** An ASCII prefix is mapped byte by byte, whatever follows it. *)
Lemma to_uppercase_ascii_app a s :
  is_ascii a -> to_uppercase (a ++ s) = (ascii_upper <$> a) ++ to_uppercase s.
Proof.
  intros Ha. unfold to_uppercase.
  rewrite chars_ascii_app, flat_map_app, encode_app by done.
  rewrite flat_map_upper_ascii by done.
  by rewrite encode_ascii by by apply is_ascii_upper.
Qed.

Lemma to_uppercase_ascii a : is_ascii a -> to_uppercase a = ascii_upper <$> a.
Proof.
  intros Ha. rewrite <- (app_nil_r a) at 1. rewrite to_uppercase_ascii_app by done.
  apply app_nil_r.
Qed.

Lemma lower_chars_ascii a before :
  is_ascii a -> lower_chars before a = ascii_lower <$> a.
Proof.
  intros Ha. revert before. induction Ha as [|x a Hx Ha IH]; intros before; simpl; [done|].
  rewrite (proj2 (Z.ltb_lt x 128)) by lia. by rewrite IH.
Qed.

Lemma to_lowercase_ascii a : is_ascii a -> to_lowercase a = ascii_lower <$> a.
Proof.
  intros Ha. unfold to_lowercase.
  rewrite <- (app_nil_r a) at 1. rewrite chars_ascii_app by done. simpl.
  rewrite app_nil_r, lower_chars_ascii by done.
  by apply encode_ascii, is_ascii_lower.
Qed.
End CaseLemmas.

(** *** White space *)

Lemma trim_by_ws w2 w3 x s : ascii_ws x = true -> trim_by w2 w3 (x :: s) = trim_by w2 w3 s.
Proof. intros Hws. simpl. by rewrite Hws. Qed.

Lemma trim_by_ne w2 w3 x s :
  ascii_ws x = false -> (forall c, w2 x c = false) -> (forall c d, w3 x c d = false) ->
  trim_by w2 w3 (x :: s) = x :: s.
Proof.
  intros Hws H2 H3. simpl. rewrite Hws.
  destruct s as [|c s]; [done|]. rewrite H2. destruct s as [|d s]; [done|]. by rewrite H3.
Qed.

Ltac ascii_neq :=
  repeat match goal with
  | |- context [?x =? ?n] => rewrite (proj2 (Z.eqb_neq x n)) by lia
  | |- context [?n <=? ?x] => rewrite (proj2 (Z.leb_gt n x)) by lia
  end; rewrite ?andb_false_r; try done.

Lemma trim_start_ne x s :
  ascii_ws x = false -> 0 <= x < 128 -> trim_start (x :: s) = x :: s.
Proof.
  intros Hws Hx. apply trim_by_ne; [done| |]; intros; unfold ws2, ws3, e280_ws; ascii_neq.
Qed.

Lemma trim_start_rev_ws x s : ascii_ws x = true -> trim_start_rev (x :: s) = trim_start_rev s.
Proof. apply trim_by_ws. Qed.

Lemma trim_start_rev_ne x s :
  ascii_ws x = false -> 0 <= x < 128 -> trim_start_rev (x :: s) = x :: s.
Proof.
  intros Hws Hx. apply trim_by_ne; [done| |]; intros; unfold ws2, ws3, e280_ws; ascii_neq.
Qed.

(** A line between two ASCII characters that are not white space is trimmed to
    itself, with the line end of the wire removed. *)
Lemma trim_line x m y :
  ascii_ws x = false -> 0 <= x < 128 -> ascii_ws y = false -> 0 <= y < 128 ->
  trim (x :: m ++ [y] ++ CRLF) = x :: m ++ [y].
Proof.
  intros Hx Hx' Hy Hy'. unfold trim. rewrite trim_start_ne by done.
  unfold trim_end.
  replace (rev (x :: m ++ [y] ++ CRLF)) with (LF :: CR :: y :: rev (x :: m)).
  2: { simpl. rewrite !rev_app_distr. simpl. by rewrite <- ?app_assoc. }
  rewrite !trim_start_rev_ws by done. rewrite trim_start_rev_ne by done.
  simpl. rewrite rev_app_distr, rev_involutive. done.
Qed.

Lemma trim_id x m y :
  ascii_ws x = false -> 0 <= x < 128 -> ascii_ws y = false -> 0 <= y < 128 ->
  trim (x :: m ++ [y]) = x :: m ++ [y].
Proof.
  intros Hx Hx' Hy Hy'. unfold trim. rewrite trim_start_ne by done.
  unfold trim_end.
  replace (rev (x :: m ++ [y])) with (y :: rev (x :: m)).
  2: { simpl. by rewrite !rev_app_distr. }
  rewrite trim_start_rev_ne by done.
  simpl. rewrite rev_app_distr, rev_involutive. done.
Qed.

Lemma trim_by_suffix w2 w3 s : exists p, s = p ++ trim_by w2 w3 s.
Proof.
  cut (forall n (s : bytes), (length s <= n)%nat -> exists p, s = p ++ trim_by w2 w3 s).
  { intros Hn. by eapply (Hn (length s)). }
  clear s. induction n as [|n IH]; intros s Hs.
  { destruct s; [by exists []|simpl in Hs; lia]. }
  assert (Hsub : forall a t, s = a ++ t -> (length a > 0)%nat -> exists p, s = p ++ trim_by w2 w3 t).
  { intros a t -> Ha. rewrite length_app in Hs.
    destruct (IH t ltac:(lia)) as [p Hp]. exists (a ++ p). rewrite <- app_assoc. by f_equal. }
  destruct s as [|b s1]; [by exists []|]. simpl.
  case_if; [apply (Hsub [b]); simpl; [done|lia]|].
  destruct s1 as [|c s2]; [by exists []|].
  case_if; [apply (Hsub [b; c]); simpl; [done|lia]|].
  destruct s2 as [|d s3]; [by exists []|].
  case_if; [apply (Hsub [b; c; d]); simpl; [done|lia]|by exists []].
Qed.

(** [trim] returns a contiguous part of its argument. *)
Lemma trim_infix s : exists p q, s = p ++ trim s ++ q.
Proof.
  destruct (trim_by_suffix ws2 ws3 s) as [p Hp].
  destruct (trim_by_suffix (fun b c => ws2 c b) (fun b c d => ws3 d c b) (rev (trim_start s))) as [q Hq].
  exists p, (rev q). rewrite Hp at 1. f_equal. unfold trim, trim_end, trim_start_rev.
  fold trim_start.
  rewrite <- rev_app_distr, <- Hq. by rewrite rev_involutive.
Qed.

Lemma is_ascii_trim s : is_ascii s -> is_ascii (trim s).
Proof.
  destruct (trim_infix s) as (p & q & Heq). intros Ha. rewrite Heq in Ha.
  by apply is_ascii_app in Ha as [_ [Ha _]%is_ascii_app].
Qed.

(** An ASCII string can be sliced anywhere inside it. *)
Lemma slice_from_ascii s n : is_ascii s -> (n <= length s)%nat -> slice_from s n = Some (drop n s).
Proof.
  intros Ha Hn. unfold slice_from, is_char_boundary.
  destruct (s !! n) as [b|] eqn:E.
  - eapply Forall_lookup_1 in E; [|done]. simpl in E.
    by rewrite (proj2 (Z.leb_gt 128 b)) by lia.
  - apply lookup_ge_None in E. by rewrite (proj2 (Nat.eqb_eq n (length s))) by lia.
Qed.

#[export] Hint Resolve strip_prefix_app starts_with_app : serverwall.

(** ** Bytes and small ranges *)

Definition is_byte (x : Z) : Prop := 0 <= x < 256.

(** Arithmetic with divisions by constants. *)
Ltac divmod := Z.div_mod_to_equations; lia.

(** A predicate on the first [n] numbers, by evaluation. *)
Lemma forall_below (n : Z) (P : Z -> bool) :
  forallb P (seqZ 0 n) = true -> forall x, 0 <= x < n -> P x = true.
Proof.
  intros Hall x Hx. rewrite forallb_forall in Hall. apply Hall.
  apply list_elem_of_In, elem_of_seqZ. lia.
Qed.

(** ** Splitting at a separator *)

Lemma split_once_Some s c a b :
  split_once s c = Some (a, b) -> s = a ++ c :: b /\ c ∉ a.
Proof.
  revert a b. induction s as [|x s IH]; intros a b; simpl; [done|].
  destruct (x =? c) eqn:E.
  - intros [= <- <-]. apply Z.eqb_eq in E as ->. split; [done|apply not_elem_of_nil].
  - destruct (split_once s c) as [[a' b']|]; [|done]. intros [= <- <-].
    destruct (IH _ _ eq_refl) as [-> Hn]. split; [done|].
    apply Z.eqb_neq in E. rewrite not_elem_of_cons. done.
Qed.

Lemma split_once_None s c : split_once s c = None <-> c ∉ s.
Proof.
  induction s as [|x s IH]; simpl; [split; [intros _; apply not_elem_of_nil|done]|].
  rewrite not_elem_of_cons. destruct (x =? c) eqn:E.
  - apply Z.eqb_eq in E. split; [done|]. by intros [? _].
  - apply Z.eqb_neq in E. rewrite <- IH.
    destruct (split_once s c) as [[]|]; (split; [done|by intros [_ ?]]).
Qed.

Lemma split_once_app a c b : c ∉ a -> split_once (a ++ c :: b) c = Some (a, b).
Proof.
  induction a as [|x a IH]; simpl; intros Hn; [by rewrite Z.eqb_refl|].
  apply not_elem_of_cons in Hn as [Hne Hn]. rewrite IH by done.
  by rewrite (proj2 (Z.eqb_neq x c)) by done.
Qed.

Lemma rsplit_once_Some s c a b :
  rsplit_once s c = Some (a, b) -> s = a ++ c :: b /\ c ∉ b.
Proof.
  unfold rsplit_once. destruct (split_once (rev s) c) as [[x y]|] eqn:E; [|done].
  intros [= <- <-]. apply split_once_Some in E as [E Hn].
  apply (f_equal (@rev Z)) in E. rewrite rev_involutive, rev_app_distr in E. simpl in E.
  rewrite <- app_assoc in E. split; [done|].
  by rewrite list_elem_of_In, <- in_rev, <- list_elem_of_In.
Qed.

Lemma rsplit_once_app a c b : c ∉ b -> rsplit_once (a ++ c :: b) c = Some (a, b).
Proof.
  intros Hn. unfold rsplit_once. rewrite rev_app_distr. simpl. rewrite <- app_assoc. simpl.
  rewrite split_once_app; [by rewrite !rev_involutive|].
  rewrite list_elem_of_In, <- in_rev, <- list_elem_of_In. done.
Qed.

(** *** UTF-8 and concatenation *)

Lemma list_length_ind {A} (P : list A -> Prop) :
  (forall l, (forall l', (length l' < length l)%nat -> P l') -> P l) -> forall l, P l.
Proof. intros Hs l. induction (well_founded_ltof _ (@length A) l) as [l _ IH]. apply Hs, IH. Qed.

Lemma utf8_valid_ascii s : is_ascii s -> utf8_valid s = true.
Proof. induction 1 as [|b s Hb _ IH]; [done|]. cbn [utf8_valid]. by rewrite (proj2 (Z.ltb_lt _ _)) by lia. Qed.

Lemma utf8_valid_app a b : utf8_valid a = true -> utf8_valid (a ++ b) = utf8_valid b.
Proof.
  induction a as [a IH] using list_length_ind. destruct a as [|b0 a]; [done|]. simpl.
  destruct (b0 <? 128) eqn:E0; [intros Ha; apply IH; [simpl; lia|done]|].
  destruct a as [|b1 a]; [done|]. simpl.
  destruct ((194 <=? b0) && (b0 <=? 223)).
  { destruct (cont b1); [simpl|done]. intros Ha. apply IH; [simpl; lia|done]. }
  destruct a as [|b2 a]; [done|]. simpl.
  destruct ((224 <=? b0) && (b0 <=? 239)).
  { destruct (second3 b0 b1 && cont b2); [simpl|done]. intros Ha. apply IH; [simpl; lia|done]. }
  destruct a as [|b3 a]; [done|]. simpl.
  destruct ((240 <=? b0) && (b0 <=? 244)); [|done].
  destruct (second4 b0 b1 && cont b2 && cont b3); [simpl|done]. intros Ha. apply IH; [simpl; lia|done].
Qed.

Lemma cont_ascii c : 0 <= c < 128 -> cont c = false.
Proof. intros Hc. unfold cont. by rewrite (proj2 (Z.leb_gt 128 c)) by lia. Qed.
Lemma second3_ascii b c : 0 <= c < 128 -> second3 b c = false.
Proof. intros Hc. unfold second3. repeat case_match; rewrite ?cont_ascii by done; lia. Qed.
Lemma second4_ascii b c : 0 <= c < 128 -> second4 b c = false.
Proof. intros Hc. unfold second4. repeat case_match; rewrite ?cont_ascii by done; lia. Qed.

(** Valid text can be cut before an ASCII character. *)
Lemma utf8_valid_cut a c b :
  0 <= c < 128 -> utf8_valid (a ++ c :: b) = true -> utf8_valid a = true /\ utf8_valid b = true.
Proof.
  intros Hc. induction a as [a IH] using list_length_ind.
  destruct a as [|b0 a]; simpl.
  { by rewrite (proj2 (Z.ltb_lt c 128)) by lia. }
  destruct (b0 <? 128); [intros Hv; apply IH in Hv; [done|simpl; lia]|].
  destruct a as [|b1 a]; simpl.
  { rewrite cont_ascii, second3_ascii, second4_ascii by done. simpl. by repeat case_match. }
  destruct ((194 <=? b0) && (b0 <=? 223)).
  { destruct (cont b1); [simpl|done]. intros Hv. apply IH in Hv; [done|simpl; lia]. }
  destruct a as [|b2 a]; simpl.
  { rewrite (cont_ascii c), !andb_false_r by done. by repeat case_match. }
  destruct ((224 <=? b0) && (b0 <=? 239)).
  { destruct (second3 b0 b1 && cont b2); [simpl|done]. intros Hv. apply IH in Hv; [done|simpl; lia]. }
  destruct a as [|b3 a]; simpl.
  { rewrite (cont_ascii c), !andb_false_r by done. by case_match. }
  destruct ((240 <=? b0) && (b0 <=? 244)); [|done].
  destruct (second4 b0 b1 && cont b2 && cont b3); [simpl|done]. intros Hv. apply IH in Hv; [done|simpl; lia].
Qed.


(** *** Splitting into lines *)

Lemma split_none s c : c ∉ s -> split s c = [s].
Proof.
  induction s as [|x s IH]; simpl; [done|]. rewrite not_elem_of_cons. intros [Hx Hs].
  rewrite (proj2 (Z.eqb_neq x c)) by done. by rewrite IH.
Qed.

Lemma split_app a c b : c ∉ a -> split (a ++ c :: b) c = a :: split b c.
Proof.
  induction a as [|x a IH]; simpl; [by rewrite Z.eqb_refl|]. rewrite not_elem_of_cons. intros [Hx Ha].
  rewrite (proj2 (Z.eqb_neq x c)) by done. by rewrite IH.
Qed.

Lemma split_no_sep s c : Forall (fun l => c ∉ l) (split s c).
Proof.
  induction s as [|x s IH]; simpl; [by repeat constructor; apply not_elem_of_nil|].
  destruct (x =? c) eqn:E; [constructor; [apply not_elem_of_nil|done]|]. apply Z.eqb_neq in E.
  destruct IH as [|h t Hh Ht]; (constructor; [|done]); apply not_elem_of_cons; split; try done.
  apply not_elem_of_nil.
Qed.

Lemma not_elem_of_Forall c (l : bytes) : c ∉ l -> Forall (fun b => b <> c) l.
Proof. intros Hc. apply Forall_forall. intros x Hx ->. done. Qed.

(** Lines written with CRLF are read back one by one. *)
Lemma split_inclusive_lf_crlf ls rest :
  Forall (fun l => LF ∉ l) ls ->
  split_inclusive_lf (concat ((fun l => l ++ CRLF) <$> ls) ++ rest) =
  ((fun l => l ++ CRLF) <$> ls) ++ split_inclusive_lf rest.
Proof.
  induction 1 as [|l ls Hl Hls IH]; [done|]. cbn [fmap list_fmap concat].
  replace (((l ++ CRLF) ++ concat ((fun l => l ++ CRLF) <$> ls)) ++ rest)
    with ((l ++ [CR]) ++ LF :: (concat ((fun l => l ++ CRLF) <$> ls) ++ rest)).
  - rewrite split_inclusive_lf_line, IH; [by rewrite <- app_assoc|].
    apply Forall_app. split; [by apply not_elem_of_Forall|by repeat constructor].
  - rewrite <- !app_assoc. done.
Qed.

(** *** Trimming again changes nothing *)

(** White space at the start, as [trim_by] sees it. *)
Definition starts_ws (w2 : Z -> Z -> bool) (w3 : Z -> Z -> Z -> bool) (s : bytes) : bool :=
  match s with
  | [] => false
  | b :: s1 => ascii_ws b ||
      match s1 with
      | [] => false
      | c :: s2 => w2 b c || match s2 with [] => false | d :: _ => w3 b c d end
      end
  end.

Lemma trim_by_fixed w2 w3 s : starts_ws w2 w3 s = false -> trim_by w2 w3 s = s.
Proof.
  destruct s as [|b [|c [|d s]]]; simpl; [done| | |]; rewrite ?orb_false_iff; intros Hs;
    destruct_and?; repeat case_match; simplify_eq/=; congruence.
Qed.

Lemma starts_ws_trim_by w2 w3 s : starts_ws w2 w3 (trim_by w2 w3 s) = false.
Proof.
  induction s as [s IH] using list_length_ind. destruct s as [|b s1]; [done|]. simpl.
  destruct (ascii_ws b) eqn:Eb; [apply IH; simpl; lia|].
  destruct s1 as [|c s2]; [simpl; by rewrite Eb|].
  destruct (w2 b c) eqn:E2; [apply IH; simpl; lia|].
  destruct s2 as [|d s3]; [simpl; by rewrite Eb, E2|].
  destruct (w3 b c d) eqn:E3; [apply IH; simpl; lia|]. simpl. by rewrite Eb, E2, E3.
Qed.

Lemma starts_ws_prefix w2 w3 s t : starts_ws w2 w3 (s ++ t) = false -> starts_ws w2 w3 s = false.
Proof.
  destruct s as [|b [|c [|d s]]]; simpl; [done| | |done].
  - by intros [-> _]%orb_false_iff.
  - intros [-> [-> _]%orb_false_iff]%orb_false_iff. done.
Qed.

Lemma trim_idem s : trim (trim s) = trim s.
Proof.
  assert (Hend : forall t, trim_end (trim_end t) = trim_end t).
  { intros t. unfold trim_end, trim_start_rev. rewrite rev_involutive. f_equal.
    apply trim_by_fixed, starts_ws_trim_by. }
  assert (Hstart : trim_start (trim s) = trim s); [|unfold trim at 1; rewrite Hstart; apply Hend].
  apply trim_by_fixed.
  destruct (trim_by_suffix (fun b c => ws2 c b) (fun b c d => ws3 d c b) (rev (trim_start s))) as [q Hq].
  apply (starts_ws_prefix _ _ _ (rev q)). unfold trim, trim_end, trim_start_rev.
  rewrite <- rev_app_distr, <- Hq, rev_involutive. apply starts_ws_trim_by.
Qed.

Lemma not_elem_of_trim c s : c ∉ s -> c ∉ trim s.
Proof.
  destruct (trim_infix s) as (p & q & Hs). intros Hc Ht. apply Hc. rewrite Hs, !elem_of_app. auto.
Qed.

(** ** Decimal numbers *)

Definition is_digit (b : Z) : Prop := 48 <= b <= 57.

Lemma digits_val_app radix a b acc :
  digits_val radix (a ++ b) acc = (v ← digits_val radix a acc; digits_val radix b v).
Proof. revert acc. induction a as [|x a IH]; intros acc; simpl; [done|]. destruct (digit_val radix x); simpl; auto. Qed.

Lemma show_fuel_digits fuel z acc :
  0 <= z < 2 ^ Z.of_nat fuel -> (0 < fuel)%nat ->
  exists ds, show_fuel fuel z acc = ds ++ acc /\ ds <> [] /\ Forall is_digit ds /\ digits_val 10 ds 0 = Some z.
Proof.
  revert z acc. induction fuel as [|fuel IH]; intros z acc Hz Hf; [lia|]. simpl.
  pose proof (Z.mod_pos_bound z 10 ltac:(lia)) as Hm. pose proof (Z.div_mod z 10 ltac:(lia)) as Hd.
  assert (Hdv : forall v, digits_val 10 [48 + z mod 10] v = Some (v * 10 + z mod 10)).
  { intros v. simpl. unfold digit_val. repeat case_match; bool_to_prop; try lia; simplify_eq; f_equal; lia. }
  destruct (Z.ltb_spec z 10) as [Hlt|Hge].
  - exists [48 + z mod 10]. split_and!; [done|done|by repeat constructor; lia|].
    rewrite Hdv. f_equal. rewrite Z.mod_small; lia.
  - assert (Hr : 0 <= z / 10 < 2 ^ Z.of_nat fuel).
    { split; [apply Z.div_pos; lia|]. apply Z.div_lt_upper_bound; [lia|].
      rewrite Nat2Z.inj_succ, Z.pow_succ_r in Hz by lia. lia. }
    destruct fuel as [|fuel]; [lia|].
    destruct (IH (z / 10) (48 + z mod 10 :: acc) Hr ltac:(lia)) as (ds & -> & Hne & Hds & Hv).
    exists (ds ++ [48 + z mod 10]). split_and!.
    + by rewrite <- app_assoc.
    + by destruct ds.
    + apply Forall_app. split; [done|]. by repeat constructor; lia.
    + rewrite digits_val_app, Hv. cbn [mbind option_bind]. rewrite Hdv. f_equal. lia.
Qed.

Lemma show_digits z :
  0 <= z -> show z <> [] /\ Forall is_digit (show z) /\ digits_val 10 (show z) 0 = Some z.
Proof.
  intros Hz. unfold show.
  destruct (show_fuel_digits (S (Z.to_nat (Z.log2 z))) z []) as (ds & -> & ?); [|lia|by rewrite app_nil_r].
  rewrite Nat2Z.inj_succ, Z2Nat.id by apply Z.log2_nonneg. split; [done|].
  destruct (decide (z = 0)) as [->|Hne]; [done|]. apply Z.log2_spec. lia.
Qed.

Lemma show_inj a b : 0 <= a -> 0 <= b -> show a = show b -> a = b.
Proof.
  intros Ha Hb Heq. destruct (show_digits a Ha) as (_ & _ & Hva), (show_digits b Hb) as (_ & _ & Hvb).
  rewrite Heq, Hvb in Hva. by injection Hva.
Qed.

(** Splitting undoes joining. *)
Lemma split_join c l : l <> [] -> Forall (fun x => c ∉ x) l -> split (join [c] l) c = l.
Proof.
  induction l as [|x l IH]; intros Hne Hl; [done|]. inv Hl. destruct l as [|y l]; [by apply split_none|].
  change (join [c] (x :: y :: l)) with (x ++ c :: join [c] (y :: l)). rewrite split_app by done. by rewrite IH.
Qed.

Lemma not_elem_of_join c sep l : c ∉ sep -> Forall (fun x => c ∉ x) l -> c ∉ join sep l.
Proof.
  intros Hs Hl. induction Hl as [|x l Hx Hl IH]; simpl; [apply not_elem_of_nil|].
  destruct l as [|y l]; [done|]. by rewrite !not_elem_of_app.
Qed.

Lemma show_not_elem c z : 0 <= z -> ~ is_digit c -> c ∉ show z.
Proof. intros Hz Hc Hin. destruct (show_digits z Hz) as (_ & Hd & _). by apply Hc, (proj1 (Forall_forall _ _) Hd). Qed.

Lemma fmap_show_inj l l' : Forall (Z.le 0) l -> Forall (Z.le 0) l' -> show <$> l = show <$> l' -> l = l'.
Proof.
  intros Hl. revert l'. induction Hl as [|x l Hx Hl IH]; intros [|y l'] Hl' E; [done|discriminate E|discriminate E|].
  rewrite !fmap_cons in E. injection E as E1 E2. inv Hl'. f_equal; [by apply show_inj|by apply IH].
Qed.

Lemma show_join_inj c l l' :
  ~ is_digit c -> Forall (Z.le 0) l -> Forall (Z.le 0) l' -> join [c] (show <$> l) = join [c] (show <$> l') -> l = l'.
Proof.
  intros Hc Hl Hl' Heq.
  assert (Hs : forall k, Forall (Z.le 0) k -> k <> [] -> split (join [c] (show <$> k)) c = show <$> k).
  { intros k Hk Hne. apply split_join; [by destruct k|]. apply Forall_fmap. eapply Forall_impl; [done|].
    intros z Hz. by apply show_not_elem. }
  assert (Hn : forall x k, Forall (Z.le 0) (x :: k) -> join [c] (show <$> x :: k) <> []).
  { intros x k Hk. inv Hk. destruct (show_digits x ltac:(done)) as (Hne & _). simpl.
    destruct (show x) as [|d s]; [done|]. by destruct k. }
  destruct l as [|x l], l' as [|y l']; [done|symmetry in Heq; by apply Hn in Heq|by apply Hn in Heq|].
  pose proof (Hs (x :: l) Hl ltac:(done)) as E. rewrite Heq, Hs in E by done.
  symmetry in E. by apply fmap_show_inj.
Qed.

Lemma parse_uint_show w z : 0 <= z <= umax w -> parse_uint w 10 (show z) = Some z.
Proof.
  intros Hz. destruct (show_digits z ltac:(lia)) as (Hne & Hd & Hv). unfold parse_uint.
  destruct (show z) as [|x s]; [done|]. inv Hd. unfold is_digit in *.
  assert (E : match x :: s with 43 :: (_ :: _) as s' => s' | _ => x :: s end = x :: s).
  { destruct (decide (x = 43)) as [->|]; [lia|]. repeat case_match; simplify_eq; done. }
  rewrite E, Hv. by rewrite (proj2 (Z.leb_le _ _)) by lia.
Qed.

Lemma strip_suffix_app s p : strip_suffix (s ++ p) p = Some s.
Proof. unfold strip_suffix. by rewrite rev_app_distr, strip_prefix_app, rev_involutive. Qed.

Lemma strip_suffix_last_ne s x p y : x <> y -> strip_suffix (s ++ [x]) (p ++ [y]) = None.
Proof.
  intros Hn. unfold strip_suffix. rewrite !rev_app_distr. simpl. by rewrite (proj2 (Z.eqb_neq y x)).
Qed.

Lemma from_utf8_lossy_ascii_app a s : is_ascii a -> from_utf8_lossy (a ++ s) = a ++ from_utf8_lossy s.
Proof.
  induction 1 as [|x a Hx Ha IH]; [done|]. cbn [app from_utf8_lossy].
  rewrite (proj2 (Z.ltb_lt x 128)) by lia. by rewrite IH.
Qed.

(** The first line of a text. *)
Lemma lines_crlf l rest : Forall (fun b => b <> LF) l -> lines (l ++ CRLF ++ rest) = l :: lines rest.
Proof.
  intros Hl. unfold lines. change (CRLF ++ rest) with ([CR] ++ LF :: rest). rewrite app_assoc.
  rewrite split_inclusive_lf_line by (apply Forall_app; split; [done|]; by repeat constructor).
  rewrite fmap_cons. f_equal. by rewrite !strip_suffix_app.
Qed.

Lemma words_token a cs cur :
  Forall (fun c => char_is_whitespace c = false) a -> words (a ++ cs) cur = words cs (rev a ++ cur).
Proof.
  intros Ha. revert cur. induction Ha as [|x a Hx Ha IH]; intros cur; [done|].
  simpl. rewrite Hx, IH. by rewrite <- app_assoc.
Qed.

Definition plain_token (t : bytes) : Prop :=
  t <> [] /\ is_ascii t /\ Forall (fun c => char_is_whitespace c = false) t.

Lemma split_whitespace_token t s : plain_token t -> split_whitespace (t ++ 32 :: s) = t :: split_whitespace s.
Proof.
  intros (Hne & Ha & Hw). unfold split_whitespace. rewrite chars_ascii_app by done.
  change (chars (32 :: s)) with (32 :: chars s). rewrite words_token by done. rewrite app_nil_r.
  assert (Hr : is_nil (rev t) = false) by (apply is_nil_false; intros E; apply Hne; by apply (f_equal (@rev Z)) in E; rewrite rev_involutive in E).
  simpl. rewrite Hr, rev_involutive. simpl. by rewrite encode_ascii.
Qed.

Lemma show_plain_token z : 0 <= z -> plain_token (show z).
Proof.
  intros Hz. destruct (show_digits z Hz) as (Hne & Hd & _). split; [done|]. split.
  - eapply Forall_impl; [exact Hd|]. unfold is_digit. intros; lia.
  - eapply Forall_impl; [exact Hd|]. unfold is_digit. intros x Hx. unfold char_is_whitespace.
    repeat (apply orb_false_iff; split); try apply andb_false_iff; lia.
Qed.

(** Text without white space is not trimmed. *)
Lemma trim_plain s : is_ascii s -> Forall (fun b => ascii_ws b = false) s -> trim s = s.
Proof.
  intros Ha Hw. destruct s as [|x s]; [done|]. inv Ha. inv Hw.
  destruct s as [|y s _] using rev_ind.
  - unfold trim. rewrite trim_start_ne by done. unfold trim_end. simpl. by rewrite trim_start_rev_ne.
  - apply Forall_app in H2 as [_ Hy]. apply Forall_app in H4 as [_ Hy']. inv Hy. inv Hy'. by apply trim_id.
Qed.

Lemma starts_with_split s c p ps : split s c = p :: ps -> starts_with s p = true.
Proof.
  revert p ps. induction s as [|x s IH]; intros p ps; simpl; [by intros [= <- <-]|].
  destruct (x =? c); [by intros [= <- <-]|]. destruct (split s c) as [|h t]; intros [= <- <-]; rewrite starts_with_cons.
  - done.
  - by eapply IH.
Qed.

(** ** Sorting *)

Lemma bytes_le_total a b : bytes_le a b = true \/ bytes_le b a = true.
Proof.
  revert b. induction a as [|x a IH]; intros [|y b]; cbn; auto.
  destruct (Z.lt_trichotomy x y) as [Hl|[->|Hl]].
  - left. by rewrite (proj2 (Z.ltb_lt _ _)).
  - rewrite Z.ltb_irrefl, Z.eqb_refl. cbn. apply IH.
  - right. by rewrite (proj2 (Z.ltb_lt _ _)).
Qed.

Lemma bytes_le_antisym a b : bytes_le a b = true -> bytes_le b a = true -> a = b.
Proof.
  revert b. induction a as [|x a IH]; intros [|y b]; cbn; try done.
  rewrite !orb_true_iff, !andb_true_iff, !Z.ltb_lt, !Z.eqb_eq.
  intros [?|[E1 ?]] [?|[E2 ?]]; try lia. f_equal; auto.
Qed.

Lemma bytes_le_trans a b c : bytes_le a b = true -> bytes_le b c = true -> bytes_le a c = true.
Proof.
  revert b c. induction a as [|x a IH]; intros [|y b] [|z c]; cbn; try done.
  rewrite !orb_true_iff, !andb_true_iff, !Z.ltb_lt, !Z.eqb_eq.
  intros [?|[E1 ?]] [?|[E2 ?]]; [left; lia..|right]. split; [lia|by eapply IH].
Qed.

Lemma insert_sorted_comm x y l : insert_sorted x (insert_sorted y l) = insert_sorted y (insert_sorted x l).
Proof.
  assert (Hxy : bytes_le x y = true -> bytes_le y x = true -> x = y) by apply bytes_le_antisym.
  induction l as [|z l IH]; cbn.
  - destruct (bytes_le x y) eqn:E1, (bytes_le y x) eqn:E2; try done.
    + by rewrite Hxy.
    + destruct (bytes_le_total x y); congruence.
  - destruct (bytes_le y z) eqn:Ey, (bytes_le x z) eqn:Ex; cbn; rewrite ?Ey, ?Ex; try done.
    + destruct (bytes_le x y) eqn:E1, (bytes_le y x) eqn:E2; try done.
      * by rewrite Hxy.
      * destruct (bytes_le_total x y); congruence.
    + destruct (bytes_le x y) eqn:E1; [|done]. by rewrite (bytes_le_trans x y z) in Ex.
    + destruct (bytes_le y x) eqn:E1; [|done]. by rewrite (bytes_le_trans y x z) in Ey.
    + by rewrite IH.
Qed.

(** Sorting forgets the order. *)
Lemma sort_strings_perm l l' : l ≡ₚ l' -> sort_strings l = sort_strings l'.
Proof.
  unfold sort_strings. induction 1 as [|x l l' _ IH|x y l|l1 l2 l3 _ IH1 _ IH2]; cbn; [done|by rewrite IH| |congruence].
  apply insert_sorted_comm.
Qed.

Lemma elem_of_insert_sorted x y l : x ∈ insert_sorted y l <-> x = y \/ x ∈ l.
Proof.
  induction l as [|z l IH]; cbn; [set_solver|]. destruct (bytes_le y z); [by rewrite elem_of_cons|]. set_solver.
Qed.

Lemma elem_of_sort_strings x l : x ∈ sort_strings l <-> x ∈ l.
Proof. induction l as [|y l IH]; [done|]. cbn. rewrite elem_of_insert_sorted, elem_of_cons. naive_solver. Qed.

Lemma drop_crlf_rev_id s : LF ∉ s -> drop_crlf_rev s = s.
Proof. destruct s as [|x s]; [done|]. rewrite not_elem_of_cons. intros [Hx _]. simpl. repeat case_match; done. Qed.

Lemma trim_line_end_crlf l : LF ∉ l -> trim_line_end (l ++ CRLF) = l.
Proof.
  intros Hl. unfold trim_line_end. rewrite rev_app_distr. simpl.
  assert (Hr : LF ∉ rev l) by by rewrite list_elem_of_In, <- in_rev, <- list_elem_of_In.
  rewrite drop_crlf_rev_id, rev_involutive by done. unfold trim_end_matches.
  destruct (rev l) as [|x r] eqn:E; [by rewrite <- (rev_involutive l), E|]. simpl.
  apply not_elem_of_cons in Hr as [Hx _]. rewrite (proj2 (Z.eqb_neq x LF)) by done.
  by rewrite <- E, rev_involutive.
Qed.
