(* ===== verification/Float64.v ===== *)
(** * IEEE 754 binary64 arithmetic

    Rust's [f64] on the Standard Library's executable specification of floats:
    53 bits of precision, maximal exponent 1024, rounding to nearest even. *)

From Stdlib Require Import SpecFloat.
From S2P Require Import Prelude RustStr.
Open Scope Z_scope.

Definition f64 : Type := spec_float.

Definition f_add : f64 -> f64 -> f64 := SFadd 53 1024.
Definition f_sub : f64 -> f64 -> f64 := SFsub 53 1024.
Definition f_mul : f64 -> f64 -> f64 := SFmul 53 1024.
Definition f_div : f64 -> f64 -> f64 := SFdiv 53 1024.

(** [z as f64]. *)
Definition f_of_Z (z : Z) : f64 := binary_normalize 53 1024 z 0 false.

(** A decimal literal [num / 10^k]; exact numerator and denominator give the
    correctly rounded literal. *)
Definition f_lit (num den : Z) : f64 := f_div (f_of_Z num) (f_of_Z den).

Definition f_lt (a b : f64) : bool := SFltb a b.
Definition f_le (a b : f64) : bool := SFleb a b.
Definition f_eq (a b : f64) : bool := SFeqb a b.
Definition f_gt (a b : f64) : bool := f_lt b a.
Definition f_ge (a b : f64) : bool := f_le b a.

Definition f_is_nan (a : f64) : bool := match a with S754_nan => true | _ => false end.

(** [f64::min] and [f64::max]: the other operand of a NaN. *)
Definition f_min (a b : f64) : f64 :=
  if f_is_nan a then b else if f_is_nan b then a else if f_lt b a then b else a.
Definition f_max (a b : f64) : f64 :=
  if f_is_nan a then b else if f_is_nan b then a else if f_lt a b then b else a.

(** [Duration::as_secs_f64] of a number of nanoseconds. *)
Definition as_secs_f64 (ns : Z) : f64 :=
  f_add (f_of_Z (ns / 1000000000)) (f_div (f_of_Z (ns mod 1000000000)) (f_of_Z 1000000000)).

Definition f0 : f64 := S754_zero false.
Definition f1 : f64 := f_of_Z 1.

(** ** Order *)

Lemma f_le_refl a : f_is_nan a = false -> f_le a a = true.
Proof.
  destruct a as [s|s| |s m e]; intros Hn; try done; try (by destruct s).
  unfold f_le, SFleb, SFcompare. destruct s; rewrite ?Z.compare_refl, ?Pos.compare_refl;
    unfold Pos.compare in *; rewrite ?Pos.compare_cont_refl; done.
Qed.

Lemma f_lt_le a b : f_lt a b = true -> f_le a b = true.
Proof. unfold f_lt, f_le, SFltb, SFleb. by destruct (SFcompare a b) as [[]|]. Qed.

Lemma SFcompare_swap a b : SFcompare b a = CompOpp <$> SFcompare a b.
Proof.
  destruct a as [s1|s1| |s1 m1 e1], b as [s2|s2| |s2 m2 e2]; try done;
    try (by destruct s1); try (by destruct s2); try (by destruct s1, s2).
  unfold SFcompare. destruct s1, s2; try done.
  - rewrite (Z.compare_antisym e1 e2). destruct (e1 ?= e2); simpl; try done.
    do 2 f_equal. symmetry. apply (Pos.compare_cont_antisym _ _ Eq).
  - rewrite (Z.compare_antisym e1 e2). destruct (e1 ?= e2); simpl; try done.
    f_equal. symmetry. apply (Pos.compare_cont_antisym _ _ Eq).
Qed.

Lemma SFcompare_total a b :
  f_is_nan a = false -> f_is_nan b = false -> is_Some (SFcompare a b).
Proof.
  destruct a as [s1|s1| |s1 m1 e1], b as [s2|s2| |s2 m2 e2]; intros; try done;
    by eexists.
Qed.

(** On numbers, not smaller means at least. *)
Lemma f_not_lt a b :
  f_is_nan a = false -> f_is_nan b = false -> f_lt b a = false -> f_le a b = true.
Proof.
  intros Ha Hb. unfold f_lt, f_le, SFltb, SFleb. rewrite (SFcompare_swap a b).
  destruct (SFcompare_total a b Ha Hb) as [c ->]. by destruct c.
Qed.

Lemma f_min_le_r a b : f_is_nan b = false -> f_le (f_min a b) b = true.
Proof.
  intros Hb. unfold f_min. destruct (f_is_nan a) eqn:Ha; [by apply f_le_refl|]. rewrite Hb.
  destruct (f_lt b a) eqn:E; [by apply f_le_refl|]. by apply f_not_lt.
Qed.

Lemma f_min_not_nan a b : f_is_nan b = false -> f_is_nan (f_min a b) = false.
Proof.
  intros Hb. unfold f_min. destruct (f_is_nan a) eqn:Ha; [done|]. rewrite Hb. by destruct (f_lt b a).
Qed.
