(* ===== verification/FloatFmt.v ===== *)
(** * Floating-point numbers as text

    [Display] of an [f64] ([{}]): the shortest decimal digits in the interval of the numbers that
    round to it, the nearest ones among those, written without an exponent.  The digits are
    found as the standard library finds them, one more at a time until the digits so far, or
    those with the last one raised, lie in the interval.  With a number of places ([{:.3}]) the
    exact value is rounded. *)

From Stdlib Require Import SpecFloat.
From S2P Require Import Prelude RustStr Float64.
Open Scope Z_scope.

(** [a * 2^b] as a fraction, and [n * 10^q <= a * 2^b] on such numbers. *)
Definition pow2_num (a b : Z) : Z := a * 2 ^ Z.max b 0.
Definition pow2_den (b : Z) : Z := 2 ^ Z.max (- b) 0.
Definition pow10_num (n q : Z) : Z := n * 10 ^ Z.max q 0.
Definition pow10_den (q : Z) : Z := 10 ^ Z.max (- q) 0.
Definition dec_compare (n q a b : Z) : comparison :=
  pow10_num n q * pow2_den b ?= pow2_num a b * pow10_den q.

(** The numbers that round to [m * 2^e], in quarters of the last place: [4 m - minus] to
    [4 m + 2], with the bounds where [m] is even.  Below a power of two the gap is half as wide. *)
Definition gap_below (m e : Z) : Z := if (m =? 2 ^ 52) && (-1074 <? e) then 1 else 2.
Definition above_low (m e n q : Z) : bool :=
  match dec_compare n q (4 * m - gap_below m e) (e - 2) with
  | Gt => true | Eq => Z.even m | Lt => false
  end.
Definition below_high (m e n q : Z) : bool :=
  match dec_compare n q (4 * m + 2) (e - 2) with
  | Lt => true | Eq => Z.even m | Gt => false
  end.

(** The place of the first digit. *)
Definition first_place (m e : Z) : Z :=
  let est := (Z.log2 m + e) * 30103 / 100000 in
  match dec_compare 1 (est + 1) m e with
  | Gt => match dec_compare 1 est m e with Gt => est - 1 | _ => est end
  | _ => est + 1
  end.

(** The digits down to place [q], one place further at a time. *)
Fixpoint shortest_from (fuel : nat) (m e q : Z) : Z * Z :=
  let num := pow2_num m e * pow10_den q in
  let den := pow2_den e * pow10_num 1 q in
  let digits := num / den in
  let down := above_low m e digits q in
  let up := below_high m e (digits + 1) q in
  match fuel with
  | O => (digits, q)
  | S fuel =>
      if up && (negb down || (den <=? 2 * (num mod den))) then (digits + 1, q)
      else if down then (digits, q)
      else shortest_from fuel m e (q - 1)
  end.

(** Seventeen digits tell all numbers apart. *)
Definition shortest (m e : Z) : Z * Z := shortest_from 18 m e (first_place m e + 1).

Definition decimal (n q : Z) : bytes :=
  if 0 <=? q then show (n * 10 ^ q)
  else
    let unit := 10 ^ (- q) in
    let frac := trim_end_matches (Z.eqb 48) (drop 1 (show (unit + n mod unit))) in
    if is_nil frac then show (n / unit) else show (n / unit) ++ bs "." ++ frac.

Definition show_f64 (x : f64) : bytes :=
  let sign (s : bool) := if s then bs "-" else [] in
  match x with
  | S754_nan => bs "NaN"
  | S754_infinity s => sign s ++ bs "inf"
  | S754_zero s => sign s ++ bs "0"
  | S754_finite s m e =>
      let (n, q) := shortest (Zpos m) e in sign s ++ decimal n q
  end.

(** [format!("{:.k$}", x)]: the exact value rounded to [k] places, ties to even. *)
Definition scaled (k : nat) (m e : Z) : Z :=
  let n := pow2_num m e * 10 ^ Z.of_nat k in
  let d := pow2_den e in
  match 2 * (n mod d) ?= d with
  | Lt => n / d
  | Gt => n / d + 1
  | Eq => if Z.even (n / d) then n / d else n / d + 1
  end.

Definition places (k : nat) (n : Z) : bytes :=
  let unit := 10 ^ Z.of_nat k in
  show (n / unit) ++ (if (k =? 0)%nat then [] else bs "." ++ drop 1 (show (unit + n mod unit))).

Definition show_fixed (k : nat) (x : f64) : bytes :=
  let sign (s : bool) := if s then bs "-" else [] in
  match x with
  | S754_nan => bs "NaN"
  | S754_infinity s => sign s ++ bs "inf"
  | S754_zero s => sign s ++ places k 0
  | S754_finite s m e => sign s ++ places k (scaled k (Zpos m) e)
  end.

Example show_fixed_values :
  show_fixed 3 (f_lit 3 2) = bs "1.500" /\ show_fixed 3 (f_lit 1 16) = bs "0.062" /\ show_fixed 1 (f_lit 75 100) = bs "0.8" /\
  show_fixed 0 (f_lit 5 2) = bs "2" /\ show_fixed 3 f0 = bs "0.000".
Proof. vm_compute. done. Qed.

Example show_f64_values :
  show_f64 (f_lit 1 10) = bs "0.1" /\ show_f64 (f_add (f_lit 1 10) (f_lit 2 10)) = bs "0.30000000000000004" /\
  show_f64 (f_of_Z 50) = bs "50" /\ show_f64 (f_lit (-25) 10) = bs "-2.5" /\
  show_f64 (f_div f1 (f_of_Z 3)) = bs "0.3333333333333333" /\
  show_f64 (f_of_Z (2 ^ 53)) = bs "9007199254740992" /\ show_f64 (f_of_Z (10 ^ 23)) = bs "100000000000000000000000" /\
  show_f64 (f_div f1 (f_of_Z (2 ^ 44))) = bs "0.00000000000005684341886080802".
Proof. vm_compute. done. Qed.

(** ** The digits lie in the interval, and eighteen rounds find them *)

Section Interval.
Context (m e : Z) (Hm : 1 <= m < 2 ^ 53).

Lemma pow10_pos q : 0 < 10 ^ Z.max q 0.
Proof. apply Z.pow_pos_nonneg; lia. Qed.
Lemma pow2_pos b : 0 < 2 ^ Z.max b 0.
Proof. apply Z.pow_pos_nonneg; lia. Qed.

(** Powers for [e - 2] from those for [e], and for a place seventeen further down. *)
Lemma pow2_shift : 2 ^ Z.max e 0 * 2 ^ Z.max (- (e - 2)) 0 = 4 * (2 ^ Z.max (e - 2) 0 * 2 ^ Z.max (- e) 0).
Proof. change 4 with (2 ^ 2). rewrite <- !Z.pow_add_r by lia. f_equal. lia. Qed.

Lemma pow10_shift q :
  10 ^ Z.max (q + 17) 0 * 10 ^ Z.max (- q) 0 = 10 ^ 17 * (10 ^ Z.max q 0 * 10 ^ Z.max (- (q + 17)) 0).
Proof. rewrite <- !Z.pow_add_r by lia. f_equal. lia. Qed.

(** The digits of the quotient are at most the number, those with one more above it. *)
Lemma quotient_bounds q :
  let digits := pow2_num m e * pow10_den q / (pow2_den e * pow10_num 1 q) in
  dec_compare digits q (4 * m) (e - 2) <> Gt /\ dec_compare (digits + 1) q (4 * m) (e - 2) = Gt.
Proof.
  cbv zeta. unfold dec_compare, pow2_num, pow2_den, pow10_num, pow10_den. rewrite Z.mul_1_l.
  pose proof (pow10_pos q). pose proof (pow10_pos (- q)). pose proof (pow2_pos e). pose proof (pow2_pos (- e)).
  pose proof (pow2_pos (e - 2)). pose proof (pow2_pos (- (e - 2))). pose proof pow2_shift as Hs.
  set (P := 10 ^ Z.max q 0) in *. set (p := 10 ^ Z.max (- q) 0) in *. set (T := 2 ^ Z.max e 0) in *.
  set (t := 2 ^ Z.max (- e) 0) in *. set (T' := 2 ^ Z.max (e - 2) 0) in *. set (t' := 2 ^ Z.max (- (e - 2)) 0) in *.
  clearbody P p T t T' t'. assert (Hpos : 0 < t * P) by (apply Z.mul_pos_pos; lia).
  pose proof (Z.div_mod (m * T * p) (t * P) ltac:(lia)) as Hd. pose proof (Z.mod_pos_bound (m * T * p) (t * P) Hpos) as Hb.
  set (g := m * T * p / (t * P)) in *. assert (Hlow : t * P * g <= m * T * p) by lia.
  assert (Hhigh : m * T * p < t * P * (g + 1)) by lia.
  assert (Hscale : m * p * (T * t') = 4 * m * (p * T') * t) by (rewrite Hs; ring).
  split.
  - apply Z.compare_le_iff. apply (Zmult_le_reg_r _ _ t); [lia|].
    replace (g * P * t' * t) with (t * P * g * t') by ring. replace (4 * m * T' * p * t) with (m * T * p * t') by lia.
    apply Z.mul_le_mono_nonneg_r; lia.
  - apply Z.compare_gt_iff. apply (Zmult_lt_reg_r _ _ t); [lia|].
    replace ((g + 1) * P * t' * t) with (t * P * (g + 1) * t') by ring. replace (4 * m * T' * p * t) with (m * T * p * t') by lia.
    apply Z.mul_lt_mono_pos_r; lia.
Qed.

Definition inside (n q : Z) : Prop := above_low m e n q = true /\ below_high m e n q = true.

Lemma compare_low n q : dec_compare n q (4 * m) (e - 2) = Gt -> above_low m e n q = true.
Proof.
  unfold above_low. intros Hc. assert (dec_compare n q (4 * m - gap_below m e) (e - 2) = Gt) as ->; [|done].
  unfold dec_compare, pow2_num in *. apply Z.compare_gt_iff in Hc. apply Z.compare_gt_iff.
  pose proof (pow2_pos (e - 2)) as HT. pose proof (pow10_pos (- q)) as Hp. fold (pow10_den q) in Hp.
  assert (0 < gap_below m e) by (unfold gap_below; by case_match).
  replace ((4 * m - gap_below m e) * 2 ^ Z.max (e - 2) 0 * pow10_den q)
    with (4 * m * 2 ^ Z.max (e - 2) 0 * pow10_den q - gap_below m e * (2 ^ Z.max (e - 2) 0 * pow10_den q)) by ring.
  pose proof (Z.mul_pos_pos _ _ HT Hp) as HK. set (K := 2 ^ Z.max (e - 2) 0 * pow10_den q) in *. nia.
Qed.

Lemma compare_high n q : dec_compare n q (4 * m) (e - 2) <> Gt -> below_high m e n q = true.
Proof.
  unfold below_high. intros Hc. assert (dec_compare n q (4 * m + 2) (e - 2) = Lt) as ->; [|done].
  unfold dec_compare, pow2_num in *. apply (proj1 (Z.compare_le_iff _ _)) in Hc. apply Z.compare_lt_iff.
  pose proof (pow2_pos (e - 2)) as HT. pose proof (pow10_pos (- q)) as Hp. fold (pow10_den q) in Hp.
  replace ((4 * m + 2) * 2 ^ Z.max (e - 2) 0 * pow10_den q)
    with (4 * m * 2 ^ Z.max (e - 2) 0 * pow10_den q + 2 * (2 ^ Z.max (e - 2) 0 * pow10_den q)) by ring.
  pose proof (Z.mul_pos_pos _ _ HT Hp). lia.
Qed.

(** At a place below a quarter of the last binary place the quotient itself is inside. *)
Lemma quotient_close q :
  dec_compare 1 q 1 (e - 2) <> Gt ->
  above_low m e (pow2_num m e * pow10_den q / (pow2_den e * pow10_num 1 q)) q = true.
Proof.
  destruct (quotient_bounds q) as [_ Hg]. set (g := _ / _) in *. intros Hc. unfold above_low.
  assert (dec_compare g q (4 * m - gap_below m e) (e - 2) = Gt) as ->; [|done].
  unfold dec_compare, pow2_num, pow10_num in *. apply Z.compare_gt_iff in Hg. apply (proj1 (Z.compare_le_iff _ _)) in Hc. apply Z.compare_gt_iff.
  assert (1 <= gap_below m e) by (unfold gap_below; by case_match).
  pose proof (pow2_pos (e - 2)) as HT. pose proof (pow10_pos (- q)) as Hp. fold (pow10_den q) in Hp.
  replace ((4 * m - gap_below m e) * 2 ^ Z.max (e - 2) 0 * pow10_den q)
    with (4 * m * 2 ^ Z.max (e - 2) 0 * pow10_den q - gap_below m e * (2 ^ Z.max (e - 2) 0 * pow10_den q)) by ring.
  pose proof (Z.mul_pos_pos _ _ HT Hp) as HK. set (K := 2 ^ Z.max (e - 2) 0 * pow10_den q) in *. nia.
Qed.

Lemma shortest_from_inside fuel : forall q,
  dec_compare 1 (q - Z.of_nat fuel) 1 (e - 2) <> Gt -> inside (shortest_from fuel m e q).1 (shortest_from fuel m e q).2.
Proof.
  induction fuel as [|fuel IH]; intros q Hc; cbn [shortest_from];
    destruct (quotient_bounds q) as [Hle Hgt]; set (g := _ / _) in *.
  - rewrite Z.sub_0_r in Hc. split; [by apply quotient_close|by apply compare_high].
  - destruct (below_high m e (g + 1) q) eqn:Eu; cbn [andb].
    + destruct (above_low m e g q) eqn:Ed; cbn [negb orb].
      * case_match; cbn; split; auto using compare_low, compare_high.
      * split; [by apply compare_low|done].
    + destruct (above_low m e g q) eqn:Ed; [by split; [|apply compare_high]|].
      apply IH. by replace (q - 1 - Z.of_nat fuel) with (q - Z.of_nat (S fuel)) by lia.
Qed.

(** The first place is one of the number, so that the eighteenth is close. *)
Lemma place_close D : dec_compare 1 D m e <> Gt -> dec_compare 1 (D - 17) 1 (e - 2) <> Gt.
Proof.
  intros Hd. apply (proj1 (Z.compare_le_iff _ _)) in Hd. apply Z.compare_le_iff.
  unfold pow2_num, pow2_den, pow10_num, pow10_den in *. rewrite !Z.mul_1_l in *.
  pose proof pow2_shift as Hs. pose proof (pow10_shift (D - 17)) as H10. replace (D - 17 + 17) with D in H10 by lia.
  pose proof (pow10_pos D). pose proof (pow10_pos (- D)). pose proof (pow10_pos (D - 17)). pose proof (pow10_pos (- (D - 17))).
  pose proof (pow2_pos e). pose proof (pow2_pos (- e)). pose proof (pow2_pos (e - 2)). pose proof (pow2_pos (- (e - 2))).
  set (PD := 10 ^ Z.max D 0) in *. set (pD := 10 ^ Z.max (- D) 0) in *. set (P := 10 ^ Z.max (D - 17) 0) in *.
  set (p := 10 ^ Z.max (- (D - 17)) 0) in *. set (T := 2 ^ Z.max e 0) in *. set (t := 2 ^ Z.max (- e) 0) in *.
  set (T' := 2 ^ Z.max (e - 2) 0) in *. set (t' := 2 ^ Z.max (- (e - 2)) 0) in *.
  clearbody PD pD P p T t T' t'.
  assert (Hone : 10 ^ 17 * P * t <= m * T * p).
  { apply (Zmult_le_reg_r _ _ pD); [lia|]. replace (10 ^ 17 * P * t * pD) with (PD * p * t) by (rewrite H10; ring).
    replace (m * T * p * pD) with (m * T * pD * p) by ring. replace (PD * p * t) with (PD * t * p) by ring.
    apply Z.mul_le_mono_nonneg_r; [lia|exact Hd]. }
  assert (Htwo : 10 ^ 17 * P * t' <= 2 ^ 55 * (T' * p)).
  { apply (Zmult_le_reg_r _ _ t); [lia|]. replace (2 ^ 55 * (T' * p) * t) with (2 ^ 53 * p * (4 * (T' * t))) by ring.
    rewrite <- Hs. replace (2 ^ 53 * p * (T * t')) with (2 ^ 53 * T * p * t') by ring.
    replace (10 ^ 17 * P * t' * t) with (10 ^ 17 * P * t * t') by ring.
    apply Z.mul_le_mono_nonneg_r; [lia|]. etransitivity; [exact Hone|]. rewrite <- !Z.mul_assoc.
    apply Z.mul_le_mono_nonneg_r; [apply Z.mul_nonneg_nonneg|]; lia. }
  assert (HX : 10 ^ 17 * (P * t') <= 2 ^ 55 * (T' * p)) by lia.
  pose proof (Z.mul_pos_pos T' p ltac:(lia) ltac:(lia)) as HY. clear -HX HY.
  set (X := P * t') in *. set (Y := T' * p) in *. clearbody X Y. lia.
Qed.
End Interval.

(** The estimate of the first place is at most one too high, for all exponents. *)
Definition estimate (l : Z) : Z := l * 30103 / 100000.

Lemma estimate_low l : -1074 <= l <= 1023 -> dec_compare 1 (estimate l - 1) 1 l <> Gt.
Proof.
  intros Hl.
  assert (forallb (fun i => match dec_compare 1 (estimate (Z.of_nat i - 1074) - 1) 1 (Z.of_nat i - 1074) with Gt => false | _ => true end)
            (seq 0 2098) = true) as Hall by (vm_compute; reflexivity).
  rewrite forallb_forall in Hall. specialize (Hall (Z.to_nat (l + 1074))).
  rewrite Z2Nat.id in Hall by lia. replace (l + 1074 - 1074) with l in Hall by lia.
  intros E. rewrite E in Hall. discriminate Hall. apply in_seq. lia.
Qed.

(** A power of two below the number. *)
Lemma dec_compare_mono q m e l :
  1 <= m -> l = Z.log2 m + e -> dec_compare 1 q 1 l <> Gt -> dec_compare 1 q m e <> Gt.
Proof.
  intros Hm -> Hc. apply (proj1 (Z.compare_le_iff _ _)) in Hc. apply Z.compare_le_iff.
  unfold pow2_num, pow2_den, pow10_num in *. rewrite !Z.mul_1_l in *.
  pose proof (Z.log2_spec m ltac:(lia)) as [Hlog _]. pose proof (Z.log2_nonneg m).
  pose proof (pow10_pos q). pose proof (pow10_pos (- q)) as Hp. fold (pow10_den q) in Hp. pose proof (pow2_pos e). pose proof (pow2_pos (- e)).
  pose proof (pow2_pos (Z.log2 m + e)). pose proof (pow2_pos (- (Z.log2 m + e))).
  assert (Hs : 2 ^ Z.max (Z.log2 m + e) 0 * 2 ^ Z.max (- e) 0 = 2 ^ Z.log2 m * (2 ^ Z.max e 0 * 2 ^ Z.max (- (Z.log2 m + e)) 0))
    by (rewrite <- !Z.pow_add_r by lia; f_equal; lia).
  set (P := 10 ^ Z.max q 0) in *. set (T := 2 ^ Z.max e 0) in *. set (t := 2 ^ Z.max (- e) 0) in *.
  set (U := 2 ^ Z.max (Z.log2 m + e) 0) in *. set (u := 2 ^ Z.max (- (Z.log2 m + e)) 0) in *. set (B := 2 ^ Z.log2 m) in *.
  clearbody P T t U u B.
  apply (Zmult_le_reg_r _ _ u); [lia|]. replace (P * t * u) with (P * u * t) by ring.
  assert (P * u * t <= U * pow10_den q * t) by nia.
  replace (U * pow10_den q * t) with (B * (T * u) * pow10_den q) in * by (rewrite <- Hs; ring).
  assert (B * (T * u * pow10_den q) <= m * (T * u * pow10_den q)) by (apply Z.mul_le_mono_nonneg_r; nia). nia.
Qed.

Lemma first_place_low m e : 1 <= m < 2 ^ 53 -> -1074 <= e <= 971 -> dec_compare 1 (first_place m e) m e <> Gt.
Proof.
  intros Hm He. unfold first_place. fold (estimate (Z.log2 m + e)).
  destruct (dec_compare 1 (estimate _ + 1) m e) eqn:E1; [by rewrite E1|by rewrite E1|].
  destruct (dec_compare 1 (estimate _) m e) eqn:E2; [by rewrite E2|by rewrite E2|].
  eapply dec_compare_mono; [lia|done|]. apply estimate_low.
  pose proof (Z.log2_nonneg m). assert (Z.log2 m < 53) by (apply Z.log2_lt_pow2; lia). lia.
Qed.

(** The text of a number is in the interval of those that round to it. *)
Lemma shortest_inside m e :
  1 <= m < 2 ^ 53 -> -1074 <= e <= 971 -> inside m e (shortest m e).1 (shortest m e).2.
Proof.
  intros Hm He. unfold shortest. apply shortest_from_inside; [done|].
  replace (first_place m e + 1 - Z.of_nat 18) with (first_place m e - 17) by lia.
  apply (place_close m e Hm). by apply first_place_low.
Qed.
