(* ===== verification/Toml.v ===== *)
(** * Configuration documents: TOML values and derived serialisation

    The configuration of ServerWall is a tree of structures with derived
    [Serialize] and [Deserialize].  A structure is described here by its list of
    fields, with the [#[serde(...)]] attributes the source gives them; reading and
    writing follow from the description as they follow from the derive macro.
    A document is a [toml] value; its text is the business of the [toml] crate,
    a class at the end of the file.  Structures written as arrays, which the
    derived code reads by position, are refused here. *)

From Stdlib Require Import SpecFloat.
From S2P Require Import Prelude RustStr Float64.
Open Scope Z_scope.
#[local] Set Warnings "-register-all".

Inductive toml :=
| TString (s : bytes)
| TInteger (z : Z)
| TFloat (f : f64)
| TBoolean (b : bool)
| TDatetime (s : bytes)
| TArray (l : list toml)
| TTable (l : list (bytes * toml)).

Definition table : Type := list (bytes * toml).

Fixpoint assoc {A} (k : bytes) (t : list (bytes * A)) : option A :=
  match t with
  | [] => None
  | (k', v) :: t => if bool_decide (k = k') then Some v else assoc k t
  end.

(** The order of the keys of a table carries no meaning. *)
Inductive toml_eq : toml -> toml -> Prop :=
| eq_leaf v : toml_eq v v
| eq_array l l' : Forall2 toml_eq l l' -> toml_eq (TArray l) (TArray l')
| eq_table t t' :
    (forall k, option_Forall2 toml_eq (assoc k t) (assoc k t')) -> toml_eq (TTable t) (TTable t').

#[export] Instance toml_eq_equiv : Equiv toml := toml_eq.

Definition i64_max : Z := 2 ^ 63 - 1.

(** Values a document can hold: strings are UTF-8, integers are [i64], the keys of a
    table are distinct.  No structure of the configuration has a date. *)
Fixpoint toml_ok (v : toml) : bool :=
  match v with
  | TString s => utf8_valid s
  | TInteger z => (- 2 ^ 63 <=? z) && (z <=? i64_max)
  | TFloat _ | TBoolean _ => true
  | TDatetime _ => false
  | TArray l => forallb toml_ok l
  | TTable t => bool_decide (NoDup (t.*1)) && forallb (fun p => utf8_valid p.1 && toml_ok p.2) t
  end.

(** ** Codecs *)

(** How a type is written and read; [fits] holds of the values that can be written, and
    [settle] is what such a value reads back as. *)
Record codec (A : Type) := mkCodec {
  ser : A -> option toml;
  de : toml -> option A;
  fits : A -> bool;
  settle : A -> A;
}.
Arguments mkCodec {A}.
Arguments ser {A}.
Arguments de {A}.
Arguments fits {A}.
Arguments settle {A}.

Class Lawful {A} (c : codec A) : Prop := {
  ser_de a : fits c a = true -> exists v, ser c a = Some v /\ toml_ok v = true /\ de c v = Some (settle c a);
  #[global] de_proper :: Proper ((≡) ==> (=)) (de c);
}.

(** Values that read back as themselves. *)
Class Stable {A} (c : codec A) : Prop := settle_id a : settle c a = a.

Definition string_codec : codec bytes :=
  mkCodec (fun s => Some (TString s)) (fun v => match v with TString s => Some s | _ => None end) utf8_valid id.

Definition bool_codec : codec bool :=
  mkCodec (fun b => Some (TBoolean b)) (fun v => match v with TBoolean b => Some b | _ => None end) (fun _ => true) id.

(** The integers of a document are [i64]: what is larger is not written. *)
Definition uint (w : Z) : codec Z :=
  mkCodec (fun z => if z <=? i64_max then Some (TInteger z) else None)
    (fun v => match v with TInteger z => if (0 <=? z) && (z <=? umax w) then Some z else None | _ => None end)
    (fun z => (0 <=? z) && (z <=? umax w) && (z <=? i64_max)) id.

Definition int32 : codec Z :=
  mkCodec (fun z => Some (TInteger z))
    (fun v => match v with TInteger z => if (- 2 ^ 31 <=? z) && (z <? 2 ^ 31) then Some z else None | _ => None end)
    (fun z => (- 2 ^ 31 <=? z) && (z <? 2 ^ 31)) id.

Definition float_codec : codec f64 :=
  mkCodec (fun f => Some (TFloat f))
    (fun v => match v with TFloat f => Some f | TInteger z => Some (f_of_Z z) | _ => None end)
    (fun _ => true) id.

Definition vec {A} (c : codec A) : codec (list A) :=
  mkCodec (fun l => TArray <$> mapM (ser c) l)
    (fun v => match v with TArray l => mapM (de c) l | _ => None end)
    (forallb (fits c)) (fmap (settle c)).

(** Unit variants, by name. *)
Definition enum {A} (show_variant : A -> bytes) (all : list A) : codec A :=
  mkCodec (fun a => Some (TString (show_variant a)))
    (fun v => match v with
              | TString s => snd <$> list_find (fun a => show_variant a = s) all
              | _ => None
              end)
    (fun _ => true) id.

(** ** Structures *)

Inductive fields : Type -> Type :=
| FEnd : fields unit
| Req {A B} (name : bytes) (c : codec A) (r : fields B) : fields (A * B)
| Dfl {A B} (name : bytes) (c : codec A) (d : A) (r : fields B) : fields (A * B)
| Opt {A B} (name : bytes) (c : codec A) (d : option A) (r : fields B) : fields (option A * B).

(** The values of the fields. *)
Notation "⟨ x ; .. ; y ⟩" := (pair x .. (pair y tt) ..) (at level 0, x at level 200, y at level 200) : rust_scope.

Fixpoint names {T} (f : fields T) : list bytes :=
  match f with
  | FEnd => []
  | Req n _ r | Dfl n _ _ r | Opt n _ _ r => n :: names r
  end.

(** A field that is [None] is left out. *)
Fixpoint ser_fields {T} (f : fields T) : T -> option table :=
  match f in fields T return T -> option table with
  | FEnd => fun _ => Some []
  | Req n c r | Dfl n c _ r => fun x => v ← ser c x.1; t ← ser_fields r x.2; Some ((n, v) :: t)
  | Opt n c _ r => fun x =>
      t ← ser_fields r x.2;
      match x.1 with
      | None => Some t
      | Some a => v ← ser c a; Some ((n, v) :: t)
      end
  end.

Fixpoint de_fields {T} (f : fields T) (t : table) : option T :=
  match f in fields T return option T with
  | FEnd => Some tt
  | Req n c r => a ← assoc n t ≫= de c; b ← de_fields r t; Some (a, b)
  | Dfl n c d r =>
      a ← match assoc n t with Some v => de c v | None => Some d end;
      b ← de_fields r t; Some (a, b)
  | Opt n c d r =>
      a ← match assoc n t with Some v => Some <$> de c v | None => Some d end;
      b ← de_fields r t; Some (a, b)
  end.

Fixpoint fits_fields {T} (f : fields T) : T -> bool :=
  match f in fields T return T -> bool with
  | FEnd => fun _ => true
  | Req n c r | Dfl n c _ r => fun x => fits c x.1 && fits_fields r x.2
  | Opt n c _ r => fun x => match x.1 with Some a => fits c a | None => true end && fits_fields r x.2
  end.

(** A [None] reads back as the default of its field. *)
Fixpoint settle_fields {T} (f : fields T) : T -> T :=
  match f in fields T return T -> T with
  | FEnd => fun x => x
  | Req n c r | Dfl n c _ r => fun x => (settle c x.1, settle_fields r x.2)
  | Opt n c d r => fun x => (match x.1 with Some a => Some (settle c a) | None => d end, settle_fields r x.2)
  end.

Definition struct {R T} (f : fields T) (to : R -> T) (from : T -> R) : codec R :=
  mkCodec (fun r => TTable <$> ser_fields f (to r))
    (fun v => match v with TTable t => from <$> de_fields f t | _ => None end)
    (fun r => fits_fields f (to r)) (fun r => from (settle_fields f (to r))).

(** ** Laws of the codecs *)

(** A codec of leaves reads a table or an array as nothing. *)
Lemma leaf_proper {A} (d : toml -> option A) :
  (forall l, d (TArray l) = None) -> (forall t, d (TTable t) = None) -> Proper ((≡) ==> (=)) d.
Proof. intros Ha Ht v w E. inversion E; subst; [done|by rewrite !Ha|by rewrite !Ht]. Qed.

#[export] Instance string_lawful : Lawful string_codec.
Proof. split; [intros a Ha; by eexists|]. by apply leaf_proper. Qed.

#[export] Instance bool_lawful : Lawful bool_codec.
Proof. split; [intros a _; by eexists|]. by apply leaf_proper. Qed.

#[export] Instance uint_lawful w : Lawful (uint w).
Proof.
  split; [|by apply leaf_proper]. intros z [[Hz Hw]%andb_prop Hm]%andb_prop.
  exists (TInteger z). cbn [ser de uint toml_ok]. rewrite Hm, Hz, Hw.
  replace (- 2 ^ 63 <=? z) with true by lia. done.
Qed.

#[export] Instance int32_lawful : Lawful int32.
Proof.
  split; [|by apply leaf_proper]. intros z Hz. exists (TInteger z). cbn [ser de fits int32 toml_ok] in *.
  rewrite Hz. split_and!; [done| |done]. unfold i64_max. lia.
Qed.

#[export] Instance float_lawful : Lawful float_codec.
Proof. split; [intros a _; by eexists|]. by apply leaf_proper. Qed.

#[export] Instance vec_lawful {A} (c : codec A) `{Lawful A c} : Lawful (vec c).
Proof.
  split.
  - intros l. cbn [fits vec ser de]. induction l as [|a l IH]; intros Hl.
    { exists (TArray []). done. }
    cbn in Hl. apply andb_prop in Hl as [Ha Hl]. destruct (ser_de a Ha) as (v & Hv & Hov & Hdv).
    destruct (IH Hl) as (w & Hw & How & Hdw). apply fmap_Some in Hw as (vs & Hvs & ->). cbn in How.
    exists (TArray (v :: vs)). cbn. rewrite Hv. cbn. rewrite Hvs, Hov, How. cbn. split_and!; [done|done|].
    rewrite Hdv. cbn. by rewrite Hdw.
  - intros v w E. inversion E as [|l l' Hl|]; subst; [done| |done]. cbn [de vec].
    clear E. induction Hl as [|x y l l' Hxy Hl IH]; [done|]. cbn. by rewrite (de_proper x y Hxy), IH.
Qed.

Lemma enum_lawful {A} (sh : A -> bytes) (all : list A) :
  (forall a, utf8_valid (sh a) = true /\ snd <$> list_find (fun b => sh b = sh a) all = Some a) ->
  Lawful (enum sh all).
Proof.
  intros Hall. split; [|by apply leaf_proper]. intros a _. eexists. destruct (Hall a). by split_and!.
Qed.

(** ** Laws of structures *)

(** The table [t] holds the fields [f] of [x]: a table that agrees with it on the
    names of the fields reads as what [x] settles to. *)
Record holds {T} (f : fields T) (x : T) (t : table) : Prop := {
  holds_names k : is_Some (assoc k t) -> k ∈ names f;
  holds_ok : toml_ok (TTable t) = true;
  holds_de t' : (forall k, k ∈ names f -> assoc k t' = assoc k t) -> de_fields f t' = Some (settle_fields f x);
}.

Definition names_ok {T} (f : fields T) : Prop :=
  NoDup (names f) /\ Forall (fun n => utf8_valid n = true) (names f).

Class LawfulFields {T} (f : fields T) : Prop := {
  ser_de_fields x : fits_fields f x = true -> names_ok f ->
    exists t, ser_fields f x = Some t /\ holds f x t;
  de_fields_proper t t' :
    (forall k, option_Forall2 (≡) (assoc k t) (assoc k t')) -> de_fields f t = de_fields f t';
}.

#[export] Instance end_lawful : LawfulFields FEnd.
Proof.
  split; [|done]. intros [] _ _. exists []. split; [done|]. split; [|done|done]. by intros k [v Hv].
Qed.

Lemma assoc_head {A} k (v : A) t : assoc k ((k, v) :: t) = Some v.
Proof. cbn. by rewrite bool_decide_true. Qed.

Lemma assoc_tail {A} k k' (v : A) t : k <> k' -> assoc k ((k', v) :: t) = assoc k t.
Proof. intros Hne. cbn. by rewrite bool_decide_false. Qed.

Lemma assoc_keys {A} k (t : list (bytes * A)) : k ∈ t.*1 -> is_Some (assoc k t).
Proof.
  induction t as [|[k' v] t IH]; cbn; [by intros ?%elem_of_nil|].
  case_bool_decide as E; [done|]. intros [->|Hk]%elem_of_cons; [done|by apply IH].
Qed.

(** A head field that is written. *)
Lemma head_written {T} (r : fields T) (n : bytes) (v : toml) (x : T) (t : table) :
  n ∉ names r -> utf8_valid n = true -> toml_ok v = true -> holds r x t ->
  (forall k, is_Some (assoc k ((n, v) :: t)) -> k ∈ n :: names r) /\
  toml_ok (TTable ((n, v) :: t)) = true /\
  (forall t', (forall k, k ∈ n :: names r -> assoc k t' = assoc k ((n, v) :: t)) ->
     assoc n t' = Some v /\ de_fields r t' = Some (settle_fields r x)).
Proof.
  intros Hn Hu Hv [Hk Hok Hde]. split_and!.
  - intros k Hs. destruct (decide (k = n)) as [->|Hne]; [by left|right].
    apply Hk. by rewrite assoc_tail in Hs.
  - cbn [toml_ok forallb fst snd fmap list_fmap] in *. apply andb_prop in Hok as [Hnd ->]. rewrite Hu, Hv.
    rewrite andb_true_r. apply bool_decide_eq_true. apply bool_decide_eq_true in Hnd.
    constructor; [|done]. intros Hin. by apply Hn, Hk, assoc_keys.
  - intros t' Ht'. split; [rewrite Ht' by (by left); apply assoc_head|].
    apply Hde. intros k Hkr. rewrite Ht' by (by right). apply assoc_tail. by intros ->.
Qed.

Lemma names_ok_cons {T} (r : fields T) n :
  NoDup (n :: names r) /\ Forall (fun n => utf8_valid n = true) (n :: names r) ->
  (n ∉ names r) /\ utf8_valid n = true /\ names_ok r.
Proof. intros [[Hn Hnd]%NoDup_cons [Hu Hus]%Forall_cons]. by repeat split. Qed.

#[export] Instance req_lawful {A B} n (c : codec A) (r : fields B) `{Lawful A c} `{!LawfulFields r} :
  LawfulFields (Req n c r).
Proof.
  split.
  - intros [a b] [Ha Hb]%andb_prop (Hn & Hu & Hr)%names_ok_cons. destruct (ser_de a Ha) as (v & Hv & Hov & Hdv).
    destruct (ser_de_fields b Hb Hr) as (t & Ht & Hh). cbn in *.
    destruct (head_written r n v b t Hn Hu Hov Hh) as (Hk' & Hok & Hde'). exists ((n, v) :: t). rewrite Hv, Ht.
    split; [done|]. split; [done|done|]. intros t' Ht'. destruct (Hde' t' Ht') as [E1 E2].
    cbn [de_fields]. rewrite E1, E2. cbn. by rewrite Hdv.
  - intros t t' Htt. cbn [de_fields]. rewrite (de_fields_proper t t' Htt).
    destruct (Htt n) as [x y Hxy|]; [|done]. cbn. by rewrite (de_proper x y Hxy).
Qed.

#[export] Instance dfl_lawful {A B} n (c : codec A) d (r : fields B) `{Lawful A c} `{!LawfulFields r} :
  LawfulFields (Dfl n c d r).
Proof.
  split.
  - intros [a b] [Ha Hb]%andb_prop (Hn & Hu & Hr)%names_ok_cons. destruct (ser_de a Ha) as (v & Hv & Hov & Hdv).
    destruct (ser_de_fields b Hb Hr) as (t & Ht & Hh). cbn in *.
    destruct (head_written r n v b t Hn Hu Hov Hh) as (Hk' & Hok & Hde'). exists ((n, v) :: t). rewrite Hv, Ht.
    split; [done|]. split; [done|done|]. intros t' Ht'. destruct (Hde' t' Ht') as [E1 E2].
    cbn [de_fields]. rewrite E1, E2. by rewrite Hdv.
  - intros t t' Htt. cbn [de_fields]. rewrite (de_fields_proper t t' Htt).
    destruct (Htt n) as [x y Hxy|]; [|done]. by rewrite (de_proper x y Hxy).
Qed.

#[export] Instance opt_lawful {A B} n (c : codec A) d (r : fields B) `{Lawful A c} `{!LawfulFields r} :
  LawfulFields (Opt n c d r).
Proof.
  split.
  - intros [[a|] b] [Ha Hb]%andb_prop (Hn & Hu & Hr)%names_ok_cons;
      destruct (ser_de_fields b Hb Hr) as (t & Ht & Hh); cbn in *; rewrite Ht; cbn.
    + destruct (ser_de a Ha) as (v & Hv & Hov & Hdv).
      destruct (head_written r n v b t Hn Hu Hov Hh) as (Hk' & Hok & Hde'). exists ((n, v) :: t). rewrite Hv.
      split; [done|]. split; [done|done|]. intros t' Ht'. destruct (Hde' t' Ht') as [E1 E2].
      cbn [de_fields]. rewrite E1, E2. by rewrite Hdv.
    + destruct Hh as [Hk Hok Hde]. exists t. split; [done|].
      split; [intros k Hs; right; by apply Hk|done|].
      intros t' Ht'. cbn [de_fields]. rewrite (Ht' n) by (by left). destruct (assoc n t) eqn:E.
      { exfalso. apply Hn, Hk. by rewrite E. }
      cbn. rewrite Hde; [done|]. intros k Hkr. apply Ht'. by right.
  - intros t t' Htt. cbn [de_fields]. rewrite (de_fields_proper t t' Htt).
    destruct (Htt n) as [x y Hxy|]; [|done]. by rewrite (de_proper x y Hxy).
Qed.

Lemma struct_lawful {R T} (f : fields T) (to : R -> T) (from : T -> R) :
  LawfulFields f -> names_ok f -> Lawful (struct f to from).
Proof.
  intros Hf Hnd. split.
  - intros r Hr. destruct (ser_de_fields (to r) Hr Hnd) as (t & Ht & [_ Hok Hde]).
    exists (TTable t). cbn [ser de struct]. rewrite Ht. split_and!; [done|done|].
    by rewrite Hde by done.
  - intros v w E. inversion E as [| |t t' Htt]; subst; [done|done|]. cbn.
    by rewrite (de_fields_proper t t' Htt).
Qed.

(** ** Stability *)

#[export] Instance string_stable : Stable string_codec := fun _ => eq_refl.
#[export] Instance bool_stable : Stable bool_codec := fun _ => eq_refl.
#[export] Instance uint_stable w : Stable (uint w) := fun _ => eq_refl.
#[export] Instance int32_stable : Stable int32 := fun _ => eq_refl.
#[export] Instance float_stable : Stable float_codec := fun _ => eq_refl.
#[export] Instance enum_stable {A} sh (all : list A) : Stable (enum sh all) := fun _ => eq_refl.
#[export] Instance vec_stable {A} (c : codec A) `{Stable A c} : Stable (vec c).
Proof. intros l. cbn. induction l as [|x l IH]; cbn; [done|]. by rewrite IH, settle_id. Qed.

Class StableFields {T} (f : fields T) : Prop := settle_fields_id x : settle_fields f x = x.

#[export] Instance end_stable : StableFields FEnd := fun _ => eq_refl.
#[export] Instance req_stable {A B} n (c : codec A) (r : fields B) `{Stable A c} `{!StableFields r} :
  StableFields (Req n c r).
Proof. intros [a b]. cbn. by rewrite settle_id, settle_fields_id. Qed.
#[export] Instance dfl_stable {A B} n (c : codec A) d (r : fields B) `{Stable A c} `{!StableFields r} :
  StableFields (Dfl n c d r).
Proof. intros [a b]. cbn. by rewrite settle_id, settle_fields_id. Qed.
#[export] Instance opt_stable {A B} n (c : codec A) (r : fields B) `{Stable A c} `{!StableFields r} :
  StableFields (Opt n c None r).
Proof. intros [[a|] b]; cbn; by rewrite ?settle_id, settle_fields_id. Qed.

Lemma struct_stable {R T} (f : fields T) (to : R -> T) (from : T -> R) :
  StableFields f -> (forall r, from (to r) = r) -> Stable (struct f to from).
Proof. intros Hf Hft r. cbn. by rewrite settle_fields_id, Hft. Qed.

Lemma settle_struct {R T} (f : fields T) (to : R -> T) (from : T -> R) r :
  settle (struct f to from) r = from (settle_fields f (to r)).
Proof. done. Qed.

(** The obligations of a concrete structure. *)
Ltac solve_struct :=
  apply struct_lawful; [apply _|split; apply (bool_decide_unpack _); vm_compute; exact I].
Ltac solve_stable := apply struct_stable; [apply _|by intros []].
Ltac solve_enum := apply enum_lawful; by intros [].

(** ** The text of a document: the [toml] crate *)

Class TomlLib := {
  toml_from_str : bytes -> option toml;
  toml_to_string : toml -> bytes;
  (** what the crate says of a text it cannot read, or that does not fit the type *)
  toml_message : bytes -> bytes;
}.

(** A document is text, and reads back as itself, up to the order of keys. *)
Class TomlSpec `{TomlLib} := {
  to_string_utf8 v : utf8_valid (toml_to_string v) = true;
  from_to_string t : toml_ok (TTable t) = true ->
    exists v, toml_from_str (toml_to_string (TTable t)) = Some v /\ v ≡ TTable t;
}.

(** ** An instance, for the examples: documents as a list of codes *)

Section toml_ind.
Variable P : toml -> Prop.
Hypothesis Hstring : forall s, P (TString s).
Hypothesis Hinteger : forall z, P (TInteger z).
Hypothesis Hfloat : forall f, P (TFloat f).
Hypothesis Hboolean : forall b, P (TBoolean b).
Hypothesis Hdatetime : forall s, P (TDatetime s).
Hypothesis Harray : forall l, Forall P l -> P (TArray l).
Hypothesis Htable : forall t, Forall (fun p => P p.2) t -> P (TTable t).

Fixpoint toml_nested_ind (v : toml) : P v :=
  match v with
  | TString s => Hstring s
  | TInteger z => Hinteger z
  | TFloat f => Hfloat f
  | TBoolean b => Hboolean b
  | TDatetime s => Hdatetime s
  | TArray l => Harray l (list_ind (Forall P) (Forall_nil_2 P)
      (fun x _ IH => Forall_cons_2 P x _ (toml_nested_ind x) IH) l)
  | TTable t => Htable t (list_ind (Forall (fun p => P p.2)) (Forall_nil_2 _)
      (fun x _ IH => Forall_cons_2 (fun p => P p.2) x _ (toml_nested_ind x.2) IH) t)
  end.
End toml_ind.

Definition code_bool (b : bool) : Z := if b then 1 else 0.
Definition code_bytes (s : bytes) : bytes := Z.of_nat (length s) :: s.
Definition code_float (f : f64) : bytes :=
  match f with
  | S754_zero s => [0; code_bool s; 0; 0]
  | S754_infinity s => [1; code_bool s; 0; 0]
  | S754_nan => [2; 0; 0; 0]
  | S754_finite s m e => [3; code_bool s; Z.pos m; e]
  end.

Fixpoint code (v : toml) : bytes :=
  match v with
  | TString s => 0 :: code_bytes s
  | TInteger z => [1; z]
  | TFloat f => 2 :: code_float f
  | TBoolean b => [3; code_bool b]
  | TDatetime s => 4 :: code_bytes s
  | TArray l => 5 :: Z.of_nat (length l) :: flat_map code l
  | TTable t => 6 :: Z.of_nat (length t) :: flat_map (fun p => code_bytes p.1 ++ code p.2) t
  end.

Definition decode_bytes (s : bytes) : option (bytes * bytes) :=
  match s with
  | n :: s => Some (take (Z.to_nat n) s, drop (Z.to_nat n) s)
  | [] => None
  end.
Definition decode_float (s : bytes) : option (f64 * bytes) :=
  match s with
  | k :: b :: m :: e :: s =>
      let b := b =? 1 in
      Some ((if k =? 0 then S754_zero b else if k =? 1 then S754_infinity b
             else if k =? 2 then S754_nan else S754_finite b (Z.to_pos m) e), s)
  | _ => None
  end.

Fixpoint times {A} (d : bytes -> option (A * bytes)) (n : nat) (s : bytes) : option (list A * bytes) :=
  match n with
  | O => Some ([], s)
  | S n => '(x, s) ← d s; '(l, s) ← times d n s; Some (x :: l, s)
  end.

Fixpoint decode (fuel : nat) (s : bytes) : option (toml * bytes) :=
  match fuel, s with
  | S fuel, k :: s =>
      if k =? 0 then '(x, s) ← decode_bytes s; Some (TString x, s)
      else if k =? 1 then match s with z :: s => Some (TInteger z, s) | [] => None end
      else if k =? 2 then '(f, s) ← decode_float s; Some (TFloat f, s)
      else if k =? 3 then match s with b :: s => Some (TBoolean (b =? 1), s) | [] => None end
      else if k =? 4 then '(x, s) ← decode_bytes s; Some (TDatetime x, s)
      else match s with
           | n :: s =>
               if k =? 5 then '(l, s) ← times (decode fuel) (Z.to_nat n) s; Some (TArray l, s)
               else '(t, s) ← times (fun s => '(x, s) ← decode_bytes s; '(v, s) ← decode fuel s; Some ((x, v), s))
                                (Z.to_nat n) s; Some (TTable t, s)
           | [] => None
           end
  | _, _ => None
  end.

Lemma decode_code_bytes x s : decode_bytes (code_bytes x ++ s) = Some (x, s).
Proof. unfold decode_bytes, code_bytes. cbn. by rewrite Nat2Z.id, take_app_length, drop_app_length. Qed.

Lemma decode_code_float f s : decode_float (code_float f ++ s) = Some (f, s).
Proof. by destruct f as [[]|[]| |[] m e]. Qed.

Lemma times_code {A} (d : bytes -> option (A * bytes)) (c : A -> bytes) l s :
  Forall (fun x => forall s, d (c x ++ s) = Some (x, s)) l ->
  times d (length l) (flat_map c l ++ s) = Some (l, s).
Proof.
  induction 1 as [|x l Hx Hl IH]; [done|]. cbn. rewrite <- app_assoc, Hx. cbn. by rewrite IH.
Qed.

Lemma decode_code v fuel s : (length (code v) <= fuel)%nat -> decode fuel (code v ++ s) = Some (v, s).
Proof.
  revert fuel s. induction v as [x|z|f|b|x|l IH|t IH] using toml_nested_ind;
    intros [|fuel] s Hf; cbn [code length] in Hf; try lia; cbn [code app decode Z.eqb Pos.eqb].
  - by rewrite decode_code_bytes.
  - done.
  - by rewrite decode_code_float.
  - by destruct b.
  - by rewrite decode_code_bytes.
  - rewrite Nat2Z.id. rewrite times_code; [done|]. assert (Hl : (length (flat_map code l) <= fuel)%nat) by lia.
    clear Hf. induction IH as [|x l Hx Hxs IHl]; [constructor|]. cbn [flat_map fst snd] in Hl. rewrite length_app in Hl.
    constructor; [intros s'; apply Hx; lia|apply IHl; lia].
  - rewrite Nat2Z.id.
    rewrite (times_code _ (fun p : bytes * toml => code_bytes p.1 ++ code p.2)); [done|].
    assert (Hl : (length (flat_map (fun p : bytes * toml => code_bytes p.1 ++ code p.2) t) <= fuel)%nat) by lia.
    clear Hf. induction IH as [|[k x] t Hx Hxs IHl]; [constructor|]. cbn [flat_map fst snd] in Hl. rewrite !length_app in Hl.
    constructor; [|apply IHl; lia]. intros s'. rewrite <- app_assoc. cbn [fst snd].
    rewrite decode_code_bytes. cbn [fst snd] in Hx. cbn. rewrite Hx by lia. done.
Qed.

(** The codes in decimal, separated by spaces. *)
Definition zigzag (z : Z) : Z := if z <? 0 then -2 * z - 1 else 2 * z.
Definition unzigzag (z : Z) : Z := if Z.odd z then - ((z + 1) / 2) else z / 2.

Definition codes_text (l : list Z) : bytes := join [32] ((show ∘ zigzag) <$> l).
Definition text_codes (s : bytes) : option (list Z) :=
  if is_nil s then Some [] else mapM (fun d => unzigzag <$> digits_val 10 d 0) (split s 32).

Lemma unzigzag_zigzag z : unzigzag (zigzag z) = z.
Proof.
  unfold zigzag, unzigzag. destruct (Z.ltb_spec z 0).
  - replace (-2 * z - 1) with (2 * (- z - 1) + 1) by lia. rewrite Z.odd_add, Z.odd_mul. cbn [Z.odd xorb andb].
    replace (2 * (- z - 1) + 1 + 1) with ((- z) * 2) by lia. rewrite Z.div_mul by lia. lia.
  - rewrite Z.odd_mul. cbn [Z.odd andb]. rewrite Z.mul_comm, Z.div_mul by lia. done.
Qed.

Lemma zigzag_nonneg z : 0 <= zigzag z.
Proof. unfold zigzag. destruct (Z.ltb_spec z 0); lia. Qed.

Lemma text_codes_text l : text_codes (codes_text l) = Some l.
Proof.
  destruct l as [|x l]; [done|]. unfold text_codes, codes_text. set (ws := (show ∘ zigzag) <$> x :: l).
  assert (Hne : is_nil (join [32] ws) = false).
  { apply is_nil_false. subst ws. cbn. destruct (show_digits (zigzag x) (zigzag_nonneg x)) as (Hx & _).
    destruct (show (zigzag x)) eqn:E; [done|]. by destruct l. }
  rewrite Hne, split_join; [|done|].
  - subst ws. clear Hne. induction (x :: l) as [|y k IH]; [done|]. cbn.
    destruct (show_digits (zigzag y) (zigzag_nonneg y)) as (_ & _ & ->). cbn. rewrite unzigzag_zigzag.
    by rewrite IH.
  - subst ws. apply Forall_fmap, Forall_true. intros y. apply show_not_elem; [apply zigzag_nonneg|].
    unfold is_digit. lia.
Qed.

Lemma codes_text_ascii l : is_ascii (codes_text l).
Proof.
  unfold codes_text, is_ascii. induction l as [|x l IH]; [constructor|]. cbn.
  assert (Hx : Forall (fun b => 0 <= b < 128) (show (zigzag x))).
  { destruct (show_digits (zigzag x) (zigzag_nonneg x)) as (_ & Hd & _). eapply Forall_impl; [done|].
    unfold is_digit. lia. }
  destruct l as [|y l]; [done|]. apply Forall_app. split; [done|]. constructor; [lia|done].
Qed.

#[export] Instance coded_toml : TomlLib | 100 := {|
  toml_from_str s := l ← text_codes s; fst <$> decode (length l) l;
  toml_to_string v := codes_text (code v);
  toml_message _ := bs "invalid document";
|}.

#[export] Instance coded_toml_spec : TomlSpec.
Proof.
  split; [intros v; apply utf8_valid_ascii, codes_text_ascii|].
  intros t _. exists (TTable t). split; [|constructor].
  pose proof (decode_code (TTable t) (length (code (TTable t))) [] (le_n _)) as E.
  rewrite app_nil_r in E. cbn [toml_from_str toml_to_string coded_toml].
  rewrite text_codes_text. cbn [mbind option_bind]. by rewrite E.
Qed.
