(* ===== verification/Schema.v ===== *)
(** * The configuration: [serverwall-core/src/config/schema.rs]

    Every structure of the configuration with all its fields, its [Default] and,
    through the combinators of [Toml], its derived serialisation.  In a list of
    fields [Req] is a field without attribute, [Dfl] a field with
    [#[serde(default)]] or [#[serde(default = "...")]] and the value the attribute
    stands for, [Opt] an optional field.  Paths are strings. *)

From S2P Require Import Prelude RustStr Float64 Toml.
Open Scope Z_scope.

(** ** Enumerations, named by [rename_all] *)

Inductive ProtocolType := Https | Smtps | SmtpStarttls | Imaps | Tcp | Stratum.
#[export] Instance ProtocolType_eq_dec : EqDecision ProtocolType.
Proof. solve_decision. Defined.
Definition ProtocolType_name (x : ProtocolType) : bytes :=
  match x with
  | Https => bs "https"
  | Smtps => bs "smtps"
  | SmtpStarttls => bs "smtp-starttls"
  | Imaps => bs "imaps"
  | Tcp => bs "tcp"
  | Stratum => bs "stratum"
  end.
Definition ProtocolType_codec : codec ProtocolType :=
  enum ProtocolType_name [Https; Smtps; SmtpStarttls; Imaps; Tcp; Stratum].
#[export] Instance ProtocolType_lawful : Lawful ProtocolType_codec.
Proof. solve_enum. Qed.
#[export] Instance ProtocolType_stable : Stable ProtocolType_codec := fun _ => eq_refl.

Inductive BalanceMethod := BRoundRobin | BLeastConnections | BIpHash | StickySession.
#[export] Instance BalanceMethod_eq_dec : EqDecision BalanceMethod.
Proof. solve_decision. Defined.
Definition BalanceMethod_name (x : BalanceMethod) : bytes :=
  match x with
  | BRoundRobin => bs "round_robin"
  | BLeastConnections => bs "least_connections"
  | BIpHash => bs "ip_hash"
  | StickySession => bs "sticky_session"
  end.
Definition BalanceMethod_codec : codec BalanceMethod :=
  enum BalanceMethod_name [BRoundRobin; BLeastConnections; BIpHash; StickySession].
#[export] Instance BalanceMethod_lawful : Lawful BalanceMethod_codec.
Proof. solve_enum. Qed.
#[export] Instance BalanceMethod_stable : Stable BalanceMethod_codec := fun _ => eq_refl.

Inductive LogFormat := ApacheCombined | ApacheCustom | Postfix | Protocol | Json.
#[export] Instance LogFormat_eq_dec : EqDecision LogFormat.
Proof. solve_decision. Defined.
Definition LogFormat_name (x : LogFormat) : bytes :=
  match x with
  | ApacheCombined => bs "apache_combined"
  | ApacheCustom => bs "apache_custom"
  | Postfix => bs "postfix"
  | Protocol => bs "protocol"
  | Json => bs "json"
  end.
Definition LogFormat_codec : codec LogFormat :=
  enum LogFormat_name [ApacheCombined; ApacheCustom; Postfix; Protocol; Json].
#[export] Instance LogFormat_lawful : Lawful LogFormat_codec.
Proof. solve_enum. Qed.
#[export] Instance LogFormat_stable : Stable LogFormat_codec := fun _ => eq_refl.

Inductive AclDefaultAction := DefaultAllow | DefaultDeny.
#[export] Instance AclDefaultAction_eq_dec : EqDecision AclDefaultAction.
Proof. solve_decision. Defined.
Definition AclDefaultAction_name (x : AclDefaultAction) : bytes :=
  match x with
  | DefaultAllow => bs "allow"
  | DefaultDeny => bs "deny"
  end.
Definition AclDefaultAction_codec : codec AclDefaultAction :=
  enum AclDefaultAction_name [DefaultAllow; DefaultDeny].
#[export] Instance AclDefaultAction_lawful : Lawful AclDefaultAction_codec.
Proof. solve_enum. Qed.
#[export] Instance AclDefaultAction_stable : Stable AclDefaultAction_codec := fun _ => eq_refl.

Inductive ConfigWafMode := ModeBlocking | ModeDetectionOnly | ModeDisabled.
#[export] Instance ConfigWafMode_eq_dec : EqDecision ConfigWafMode.
Proof. solve_decision. Defined.
Definition ConfigWafMode_name (x : ConfigWafMode) : bytes :=
  match x with
  | ModeBlocking => bs "blocking"
  | ModeDetectionOnly => bs "detection_only"
  | ModeDisabled => bs "disabled"
  end.
Definition ConfigWafMode_codec : codec ConfigWafMode :=
  enum ConfigWafMode_name [ModeBlocking; ModeDetectionOnly; ModeDisabled].
#[export] Instance ConfigWafMode_lawful : Lawful ConfigWafMode_codec.
Proof. solve_enum. Qed.
#[export] Instance ConfigWafMode_stable : Stable ConfigWafMode_codec := fun _ => eq_refl.

Inductive HealthCheckType := CheckTcp | CheckHttp | CheckSmtp | CheckImap | CheckStratum.
#[export] Instance HealthCheckType_eq_dec : EqDecision HealthCheckType.
Proof. solve_decision. Defined.
Definition HealthCheckType_name (x : HealthCheckType) : bytes :=
  match x with
  | CheckTcp => bs "tcp"
  | CheckHttp => bs "http"
  | CheckSmtp => bs "smtp"
  | CheckImap => bs "imap"
  | CheckStratum => bs "stratum"
  end.
Definition HealthCheckType_codec : codec HealthCheckType :=
  enum HealthCheckType_name [CheckTcp; CheckHttp; CheckSmtp; CheckImap; CheckStratum].
#[export] Instance HealthCheckType_lawful : Lawful HealthCheckType_codec.
Proof. solve_enum. Qed.
#[export] Instance HealthCheckType_stable : Stable HealthCheckType_codec := fun _ => eq_refl.

(** ** Default value functions *)

Definition default_daemon_name : bytes := bs "serverwall".
Definition default_max_connections : Z := 65536.
Definition default_log_dir : bytes := bs "/opt/serverwall/var/log".
Definition default_cert_dir : bytes := bs "/opt/serverwall/etc/certs".
Definition default_log_level : bytes := bs "info".
Definition default_drain_timeout : Z := 30.
Definition default_webui_listen : bytes := bs "0.0.0.0:8443".
Definition default_webui_allow_list : list bytes := [bs "0.0.0.0/0"; bs "::/0"].
Definition default_webui_cert : option bytes := Some (bs "/opt/serverwall/etc/certs/webui.pem").
Definition default_webui_key : option bytes := Some (bs "/opt/serverwall/etc/certs/webui-key.pem").
Definition default_tokens_file : bytes := bs "/opt/serverwall/etc/api-tokens.toml".
Definition default_web_users_file : bytes := bs "/opt/serverwall/etc/web-users.toml".
Definition default_acme_directory : bytes := bs "https://acme-v02.api.letsencrypt.org/directory".
Definition default_acme_challenge : bytes := bs "http-01".
Definition default_acme_storage : bytes := bs "/opt/serverwall/etc/acme".
Definition default_acme_allowed_cidrs : list bytes := [bs "64.112.15.0/24"; bs "66.133.109.0/24"].
Definition default_renew_days : Z := 30.
Definition default_compress_min_size : Z := 1024.
Definition default_compress_types : list bytes :=
  [bs "text/html"; bs "text/css"; bs "text/javascript"; bs "text/plain"; bs "text/xml";
   bs "application/javascript"; bs "application/json"; bs "application/xml"; bs "image/svg+xml"].
Definition default_tls_min_version : bytes := bs "1.2".
Definition default_balance_method : BalanceMethod := BRoundRobin.
Definition default_session_cookie : bytes := bs "_s".
Definition default_log_format : LogFormat := ApacheCombined.
Definition default_acl_action : AclDefaultAction := DefaultAllow.
Definition default_true : bool := true.
Definition default_profile_type : bytes := bs "HTTP".
Definition default_weight : Z := 1.
Definition default_health_interval : bytes := bs "10s".
Definition default_health_timeout : bytes := bs "3s".
Definition default_health_type : HealthCheckType := CheckTcp.
Definition default_health_expect : Z := 200.
Definition default_health_method : bytes := bs "GET".
Definition default_waf_mode : ConfigWafMode := ModeBlocking.
Definition default_anomaly_threshold : Z := 5.
Definition default_paranoia_level : Z := 1.
Definition default_one : Z := 1.
Definition default_waf_rule_action : bytes := bs "block".
Definition default_rate_key : bytes := bs "client_ip".
Definition default_cookie_size : Z := 4096.
Definition default_possible_spam : Z := 40.
Definition default_definite_spam : Z := 80.
Definition default_check_duration : bytes := bs "10s".
Definition default_check_weight : f64 := f_lit 3 1.
Definition default_dnsbl_weight : f64 := f_lit 8 1.
Definition default_dnsbl_timeout : bytes := bs "5s".
Definition default_geoip_db_path : option bytes := Some (bs "/opt/serverwall/lib/geoip/dbip-country-lite.mmdb").
Definition default_residential_weight : f64 := f_lit 10 1.
Definition default_pbl_zone : bytes := bs "pbl.spamhaus.org".
Definition default_one_f64 : f64 := f_lit 1 1.
Definition default_half_f64 : f64 := f_lit 5 10.
Definition default_point_one : f64 := f_lit 1 10.
Definition default_point_three : f64 := f_lit 3 10.
Definition default_spf_weight : f64 := f_lit 6 1.
Definition default_rate_weight : f64 := f_lit 5 1.
Definition default_rate_max : Z := 100.
Definition default_rate_window : bytes := bs "1h".
Definition default_dmarc_weight : f64 := f_lit 7 1.
Definition default_content_weight : f64 := f_lit 5 1.
Definition default_url_weight : f64 := f_lit 5 1.
Definition default_attachment_weight : f64 := f_lit 6 1.
Definition default_av_weight : f64 := f_lit 10 1.
Definition default_av_error_action : bytes := bs "pass".
Definition default_av_timeout_action : bytes := bs "tempfail".
Definition default_clean_codes : list Z := [0].
Definition default_virus_codes : list Z := [1].
Definition default_error_codes : list Z := [2].
Definition default_scanner_timeout : bytes := bs "30s".
Definition default_spool_dir : bytes := bs "/opt/serverwall/var/spool".
Definition default_max_queue : Z := 10000.
Definition default_delivery_threads : Z := 4.
Definition default_max_message_size : Z := 26214400.
Definition default_max_recipients : Z := 100.
Definition default_domain_rate : Z := 500.
Definition default_dkim_algorithm : bytes := bs "rsa-sha256".
Definition default_dmarc_publish_policy : bytes := bs "none".
Definition default_relaxed_alignment : bytes := bs "r".
Definition default_hundred : Z := 100.
Definition default_spf_all : bytes := bs "-all".
Definition default_spf_qualifier : bytes := bs "+".
Definition default_max_age : bytes := bs "5d".
Definition default_max_attempts : Z := 25.
Definition default_retry_intervals : list bytes :=
  [bs "5m"; bs "10m"; bs "30m"; bs "1h"; bs "2h"; bs "4h"; bs "8h"; bs "12h"].
Definition default_dangerous_extensions : list bytes :=
  [bs "exe"; bs "scr"; bs "bat"; bs "cmd"; bs "ps1"; bs "vbs"; bs "js"; bs "msi"; bs "dll"; bs "hta"].

(** ** Structures, each after those it contains *)

Record GlobalConfig := mkGlobal {
  gc_daemon_name : bytes;
  gc_pid_file : option bytes;
  gc_worker_threads : Z;
  gc_max_connections : Z;
  gc_log_dir : bytes;
  gc_cert_dir : bytes;
  gc_config_dir : option bytes;
  gc_log_level : bytes;
  gc_graceful_drain_secs : Z;
}.
Definition GlobalConfig_default : GlobalConfig :=
  mkGlobal default_daemon_name None 0 default_max_connections default_log_dir default_cert_dir None
    default_log_level default_drain_timeout.
Definition GlobalConfig_fields :=
  Dfl (bs "daemon_name") string_codec default_daemon_name $
  Opt (bs "pid_file") string_codec None $
  Dfl (bs "worker_threads") (uint 64) 0 $
  Dfl (bs "max_connections") (uint 64) default_max_connections $
  Dfl (bs "log_dir") string_codec default_log_dir $
  Dfl (bs "cert_dir") string_codec default_cert_dir $
  Opt (bs "config_dir") string_codec None $
  Dfl (bs "log_level") string_codec default_log_level $
  Dfl (bs "graceful_drain_secs") (uint 64) default_drain_timeout $
  FEnd.
Definition GlobalConfig_codec : codec GlobalConfig := struct GlobalConfig_fields
  (fun x => ⟨ gc_daemon_name x; gc_pid_file x; gc_worker_threads x; gc_max_connections x; gc_log_dir x;
               gc_cert_dir x; gc_config_dir x; gc_log_level x; gc_graceful_drain_secs x ⟩)
  (fun '⟨ x0; x1; x2; x3; x4; x5; x6; x7; x8 ⟩ =>
     mkGlobal x0 x1 x2 x3 x4 x5 x6 x7 x8).
#[export] Instance GlobalConfig_lawful : Lawful GlobalConfig_codec.
Proof. solve_struct. Qed.
#[export] Instance GlobalConfig_stable : Stable GlobalConfig_codec.
Proof. solve_stable. Qed.

Record WebuiConfig := mkWebui {
  webui_enabled : bool;
  webui_listen : bytes;
  webui_tls_cert : option bytes;
  webui_tls_key : option bytes;
  tokens_file : bytes;
  web_users_file : bytes;
  allowed_origins : list bytes;
  webui_allow_list : list bytes;
}.
Definition WebuiConfig_default : WebuiConfig :=
  mkWebui true default_webui_listen default_webui_cert default_webui_key default_tokens_file
    default_web_users_file [] default_webui_allow_list.
Definition WebuiConfig_fields :=
  Dfl (bs "enabled") bool_codec default_true $
  Dfl (bs "listen") string_codec default_webui_listen $
  Opt (bs "tls_cert") string_codec default_webui_cert $
  Opt (bs "tls_key") string_codec default_webui_key $
  Dfl (bs "tokens_file") string_codec default_tokens_file $
  Dfl (bs "web_users_file") string_codec default_web_users_file $
  Dfl (bs "allowed_origins") (vec string_codec) [] $
  Dfl (bs "allow_list") (vec string_codec) default_webui_allow_list $
  FEnd.
Definition WebuiConfig_codec : codec WebuiConfig := struct WebuiConfig_fields
  (fun x => ⟨ webui_enabled x; webui_listen x; webui_tls_cert x; webui_tls_key x; tokens_file x;
               web_users_file x; allowed_origins x; webui_allow_list x ⟩)
  (fun '⟨ x0; x1; x2; x3; x4; x5; x6; x7 ⟩ =>
     mkWebui x0 x1 x2 x3 x4 x5 x6 x7).
#[export] Instance WebuiConfig_lawful : Lawful WebuiConfig_codec.
Proof. solve_struct. Qed.

Record AcmeConfig := mkAcme {
  acme_enabled : bool;
  acme_email : option bytes;
  acme_directory_url : bytes;
  acme_challenge_type : bytes;
  acme_storage_dir : bytes;
  acme_auto_renew : bool;
  acme_renew_before_days : Z;
  acme_challenge_allowed_cidrs : list bytes;
}.
Definition AcmeConfig_default : AcmeConfig :=
  mkAcme false None default_acme_directory default_acme_challenge default_acme_storage true
    default_renew_days default_acme_allowed_cidrs.
Definition AcmeConfig_fields :=
  Dfl (bs "enabled") bool_codec false $
  Opt (bs "email") string_codec None $
  Dfl (bs "directory_url") string_codec default_acme_directory $
  Dfl (bs "challenge_type") string_codec default_acme_challenge $
  Dfl (bs "storage_dir") string_codec default_acme_storage $
  Dfl (bs "auto_renew") bool_codec default_true $
  Dfl (bs "renew_before_days") (uint 32) default_renew_days $
  Dfl (bs "challenge_allowed_cidrs") (vec string_codec) default_acme_allowed_cidrs $
  FEnd.
Definition AcmeConfig_codec : codec AcmeConfig := struct AcmeConfig_fields
  (fun x => ⟨ acme_enabled x; acme_email x; acme_directory_url x; acme_challenge_type x; acme_storage_dir x;
               acme_auto_renew x; acme_renew_before_days x; acme_challenge_allowed_cidrs x ⟩)
  (fun '⟨ x0; x1; x2; x3; x4; x5; x6; x7 ⟩ =>
     mkAcme x0 x1 x2 x3 x4 x5 x6 x7).
#[export] Instance AcmeConfig_lawful : Lawful AcmeConfig_codec.
Proof. solve_struct. Qed.
#[export] Instance AcmeConfig_stable : Stable AcmeConfig_codec.
Proof. solve_stable. Qed.

Record CustomHeader := mkCustomHeader { ch_name : bytes; ch_value : bytes }.
Definition CustomHeader_fields :=
  Req (bs "name") string_codec $
  Req (bs "value") string_codec $
  FEnd.
Definition CustomHeader_codec : codec CustomHeader := struct CustomHeader_fields
  (fun x => ⟨ ch_name x; ch_value x ⟩)
  (fun '⟨ x0; x1 ⟩ =>
     mkCustomHeader x0 x1).
#[export] Instance CustomHeader_lawful : Lawful CustomHeader_codec.
Proof. solve_struct. Qed.
#[export] Instance CustomHeader_stable : Stable CustomHeader_codec.
Proof. solve_stable. Qed.

Record FrontendHeadersConfig := mkFrontendHeaders {
  x_forwarded_for : bool;
  x_real_ip : bool;
  x_forwarded_proto : bool;
  x_forwarded_host : bool;
  x_forwarded_port : bool;
  x_request_id : bool;
  custom : list CustomHeader;
}.
Definition FrontendHeadersConfig_default : FrontendHeadersConfig :=
  mkFrontendHeaders false false false false false false [].
Definition FrontendHeadersConfig_fields :=
  Dfl (bs "x_forwarded_for") bool_codec default_true $
  Dfl (bs "x_real_ip") bool_codec default_true $
  Dfl (bs "x_forwarded_proto") bool_codec default_true $
  Dfl (bs "x_forwarded_host") bool_codec false $
  Dfl (bs "x_forwarded_port") bool_codec false $
  Dfl (bs "x_request_id") bool_codec false $
  Dfl (bs "custom") (vec CustomHeader_codec) [] $
  FEnd.
Definition FrontendHeadersConfig_codec : codec FrontendHeadersConfig := struct FrontendHeadersConfig_fields
  (fun x => ⟨ x_forwarded_for x; x_real_ip x; x_forwarded_proto x; x_forwarded_host x; x_forwarded_port x;
               x_request_id x; custom x ⟩)
  (fun '⟨ x0; x1; x2; x3; x4; x5; x6 ⟩ =>
     mkFrontendHeaders x0 x1 x2 x3 x4 x5 x6).
#[export] Instance FrontendHeadersConfig_lawful : Lawful FrontendHeadersConfig_codec.
Proof. solve_struct. Qed.
#[export] Instance FrontendHeadersConfig_stable : Stable FrontendHeadersConfig_codec.
Proof. solve_stable. Qed.

Record SmtpHeadersConfig := mkSmtpHeaders { add_received : bool; sh_x_forwarded_for : bool }.
Definition SmtpHeadersConfig_default : SmtpHeadersConfig :=
  mkSmtpHeaders false false.
Definition SmtpHeadersConfig_fields :=
  Dfl (bs "add_received") bool_codec default_true $
  Dfl (bs "x_forwarded_for") bool_codec false $
  FEnd.
Definition SmtpHeadersConfig_codec : codec SmtpHeadersConfig := struct SmtpHeadersConfig_fields
  (fun x => ⟨ add_received x; sh_x_forwarded_for x ⟩)
  (fun '⟨ x0; x1 ⟩ =>
     mkSmtpHeaders x0 x1).
#[export] Instance SmtpHeadersConfig_lawful : Lawful SmtpHeadersConfig_codec.
Proof. solve_struct. Qed.
#[export] Instance SmtpHeadersConfig_stable : Stable SmtpHeadersConfig_codec.
Proof. solve_stable. Qed.

Record FrontendAclConfig := mkFrontendAcl {
  fa_allow_list : list bytes;
  fa_block_list : list bytes;
  fa_default_action : AclDefaultAction;
}.
Definition FrontendAclConfig_default : FrontendAclConfig :=
  mkFrontendAcl [] [] DefaultAllow.
Definition FrontendAclConfig_fields :=
  Dfl (bs "allow_list") (vec string_codec) [] $
  Dfl (bs "block_list") (vec string_codec) [] $
  Dfl (bs "default_action") AclDefaultAction_codec default_acl_action $
  FEnd.
Definition FrontendAclConfig_codec : codec FrontendAclConfig := struct FrontendAclConfig_fields
  (fun x => ⟨ fa_allow_list x; fa_block_list x; fa_default_action x ⟩)
  (fun '⟨ x0; x1; x2 ⟩ =>
     mkFrontendAcl x0 x1 x2).
#[export] Instance FrontendAclConfig_lawful : Lawful FrontendAclConfig_codec.
Proof. solve_struct. Qed.
#[export] Instance FrontendAclConfig_stable : Stable FrontendAclConfig_codec.
Proof. solve_stable. Qed.

Record FrontendConfig := mkFrontend {
  fr_name : bytes;
  fr_protocol : ProtocolType;
  fr_listen : list bytes;
  fr_backend_pool : bytes;
  fr_tls_cert : option bytes;
  fr_tls_chain : option bytes;
  fr_tls_key : option bytes;
  fr_tls_key_password : option bytes;
  fr_tls_pfx : option bytes;
  fr_tls_pfx_password : option bytes;
  fr_tls_min_version : bytes;
  fr_tls_ciphers : list bytes;
  fr_balancer : BalanceMethod;
  fr_waf_enabled : bool;
  fr_waf_ruleset : option bytes;
  fr_security_profile : option bytes;
  fr_log_file : option bytes;
  fr_log_format : LogFormat;
  fr_access_log : bool;
  fr_log_profile : option bytes;
  fr_headers : FrontendHeadersConfig;
  fr_smtp_headers : SmtpHeadersConfig;
  fr_acl : FrontendAclConfig;
  fr_max_connections : option Z;
  session_cookie : bytes;
}.
Definition FrontendConfig_fields :=
  Req (bs "name") string_codec $
  Req (bs "protocol") ProtocolType_codec $
  Req (bs "listen") (vec string_codec) $
  Req (bs "backend_pool") string_codec $
  Opt (bs "tls_cert") string_codec None $
  Opt (bs "tls_chain") string_codec None $
  Opt (bs "tls_key") string_codec None $
  Opt (bs "tls_key_password") string_codec None $
  Opt (bs "tls_pfx") string_codec None $
  Opt (bs "tls_pfx_password") string_codec None $
  Dfl (bs "tls_min_version") string_codec default_tls_min_version $
  Dfl (bs "tls_ciphers") (vec string_codec) [] $
  Dfl (bs "balancer") BalanceMethod_codec default_balance_method $
  Dfl (bs "waf_enabled") bool_codec false $
  Opt (bs "waf_ruleset") string_codec None $
  Opt (bs "security_profile") string_codec None $
  Opt (bs "log_file") string_codec None $
  Dfl (bs "log_format") LogFormat_codec default_log_format $
  Dfl (bs "access_log") bool_codec default_true $
  Opt (bs "log_profile") string_codec None $
  Dfl (bs "headers") FrontendHeadersConfig_codec FrontendHeadersConfig_default $
  Dfl (bs "smtp_headers") SmtpHeadersConfig_codec SmtpHeadersConfig_default $
  Dfl (bs "acl") FrontendAclConfig_codec FrontendAclConfig_default $
  Opt (bs "max_connections") (uint 64) None $
  Dfl (bs "session_cookie") string_codec default_session_cookie $
  FEnd.
Definition FrontendConfig_codec : codec FrontendConfig := struct FrontendConfig_fields
  (fun x => ⟨ fr_name x; fr_protocol x; fr_listen x; fr_backend_pool x; fr_tls_cert x; fr_tls_chain x;
               fr_tls_key x; fr_tls_key_password x; fr_tls_pfx x; fr_tls_pfx_password x;
               fr_tls_min_version x; fr_tls_ciphers x; fr_balancer x; fr_waf_enabled x; fr_waf_ruleset x;
               fr_security_profile x; fr_log_file x; fr_log_format x; fr_access_log x; fr_log_profile x;
               fr_headers x; fr_smtp_headers x; fr_acl x; fr_max_connections x; session_cookie x ⟩)
  (fun '⟨ x0; x1; x2; x3; x4; x5; x6; x7; x8; x9; x10; x11; x12; x13; x14; x15; x16; x17; x18; x19; x20;
           x21; x22; x23; x24 ⟩ =>
     mkFrontend x0 x1 x2 x3 x4 x5 x6 x7 x8 x9 x10 x11 x12 x13 x14 x15 x16 x17 x18 x19 x20 x21 x22 x23 x24).
#[export] Instance FrontendConfig_lawful : Lawful FrontendConfig_codec.
Proof. solve_struct. Qed.
#[export] Instance FrontendConfig_stable : Stable FrontendConfig_codec.
Proof. solve_stable. Qed.

Record BackendConfig := mkBackendConfig {
  bc_name : bytes;
  bc_address : bytes;
  bc_weight : Z;
  bc_tls : bool;
  bc_tls_verify : option bool;
  bc_tls_sni : option bytes;
  bc_max_connections : option Z;
  bc_enabled : bool;
}.
Definition BackendConfig_fields :=
  Req (bs "name") string_codec $
  Req (bs "address") string_codec $
  Dfl (bs "weight") (uint 32) default_weight $
  Dfl (bs "tls") bool_codec false $
  Opt (bs "tls_verify") bool_codec None $
  Opt (bs "tls_sni") string_codec None $
  Opt (bs "max_connections") (uint 64) None $
  Dfl (bs "enabled") bool_codec default_true $
  FEnd.
Definition BackendConfig_codec : codec BackendConfig := struct BackendConfig_fields
  (fun x => ⟨ bc_name x; bc_address x; bc_weight x; bc_tls x; bc_tls_verify x; bc_tls_sni x;
               bc_max_connections x; bc_enabled x ⟩)
  (fun '⟨ x0; x1; x2; x3; x4; x5; x6; x7 ⟩ =>
     mkBackendConfig x0 x1 x2 x3 x4 x5 x6 x7).
#[export] Instance BackendConfig_lawful : Lawful BackendConfig_codec.
Proof. solve_struct. Qed.
#[export] Instance BackendConfig_stable : Stable BackendConfig_codec.
Proof. solve_stable. Qed.

Record BackendPoolConfig := mkPoolConfig {
  pc_name : bytes;
  health_check_interval : bytes;
  health_check_timeout : bytes;
  health_check_type : HealthCheckType;
  health_check_path : option bytes;
  health_check_expect : Z;
  health_check_tls : bool;
  health_check_ignore_cert : bool;
  health_check_method : bytes;
  pc_backend : list BackendConfig;
}.
Definition BackendPoolConfig_fields :=
  Req (bs "name") string_codec $
  Dfl (bs "health_check_interval") string_codec default_health_interval $
  Dfl (bs "health_check_timeout") string_codec default_health_timeout $
  Dfl (bs "health_check_type") HealthCheckType_codec default_health_type $
  Opt (bs "health_check_path") string_codec None $
  Dfl (bs "health_check_expect") (uint 16) default_health_expect $
  Dfl (bs "health_check_tls") bool_codec false $
  Dfl (bs "health_check_ignore_cert") bool_codec false $
  Dfl (bs "health_check_method") string_codec default_health_method $
  Dfl (bs "backend") (vec BackendConfig_codec) [] $
  FEnd.
Definition BackendPoolConfig_codec : codec BackendPoolConfig := struct BackendPoolConfig_fields
  (fun x => ⟨ pc_name x; health_check_interval x; health_check_timeout x; health_check_type x;
               health_check_path x; health_check_expect x; health_check_tls x; health_check_ignore_cert x;
               health_check_method x; pc_backend x ⟩)
  (fun '⟨ x0; x1; x2; x3; x4; x5; x6; x7; x8; x9 ⟩ =>
     mkPoolConfig x0 x1 x2 x3 x4 x5 x6 x7 x8 x9).
#[export] Instance BackendPoolConfig_lawful : Lawful BackendPoolConfig_codec.
Proof. solve_struct. Qed.
#[export] Instance BackendPoolConfig_stable : Stable BackendPoolConfig_codec.
Proof. solve_stable. Qed.

Record WafExclusions := mkExclusions { ex_paths : list bytes; ex_ip_addresses : list bytes }.
Definition WafExclusions_default : WafExclusions :=
  mkExclusions [] [].
Definition WafExclusions_fields :=
  Dfl (bs "paths") (vec string_codec) [] $
  Dfl (bs "ip_addresses") (vec string_codec) [] $
  FEnd.
Definition WafExclusions_codec : codec WafExclusions := struct WafExclusions_fields
  (fun x => ⟨ ex_paths x; ex_ip_addresses x ⟩)
  (fun '⟨ x0; x1 ⟩ =>
     mkExclusions x0 x1).
#[export] Instance WafExclusions_lawful : Lawful WafExclusions_codec.
Proof. solve_struct. Qed.
#[export] Instance WafExclusions_stable : Stable WafExclusions_codec.
Proof. solve_stable. Qed.

Record WafCustomRule := mkCustomRule {
  cr_id : Z;
  cr_description : bytes;
  cr_phase : Z;
  cr_action : bytes;
  cr_match_field : bytes;
  cr_operator : bytes;
  cr_pattern : bytes;
}.
Definition WafCustomRule_fields :=
  Req (bs "id") (uint 64) $
  Req (bs "description") string_codec $
  Dfl (bs "phase") (uint 8) default_one $
  Dfl (bs "action") string_codec default_waf_rule_action $
  Req (bs "match_field") string_codec $
  Req (bs "operator") string_codec $
  Req (bs "pattern") string_codec $
  FEnd.
Definition WafCustomRule_codec : codec WafCustomRule := struct WafCustomRule_fields
  (fun x => ⟨ cr_id x; cr_description x; cr_phase x; cr_action x; cr_match_field x; cr_operator x;
               cr_pattern x ⟩)
  (fun '⟨ x0; x1; x2; x3; x4; x5; x6 ⟩ =>
     mkCustomRule x0 x1 x2 x3 x4 x5 x6).
#[export] Instance WafCustomRule_lawful : Lawful WafCustomRule_codec.
Proof. solve_struct. Qed.
#[export] Instance WafCustomRule_stable : Stable WafCustomRule_codec.
Proof. solve_stable. Qed.

Record WafRulesetConfig := mkRuleset {
  rs_name : bytes;
  rs_mode : ConfigWafMode;
  rs_anomaly_threshold : Z;
  rs_rules_dir : option bytes;
  rs_paranoia_level : Z;
  rs_exclusions : WafExclusions;
  rs_custom_rules : list WafCustomRule;
}.
Definition WafRulesetConfig_fields :=
  Req (bs "name") string_codec $
  Dfl (bs "mode") ConfigWafMode_codec default_waf_mode $
  Dfl (bs "anomaly_threshold") (uint 32) default_anomaly_threshold $
  Opt (bs "rules_dir") string_codec None $
  Dfl (bs "paranoia_level") (uint 8) default_paranoia_level $
  Dfl (bs "exclusions") WafExclusions_codec WafExclusions_default $
  Dfl (bs "custom_rules") (vec WafCustomRule_codec) [] $
  FEnd.
Definition WafRulesetConfig_codec : codec WafRulesetConfig := struct WafRulesetConfig_fields
  (fun x => ⟨ rs_name x; rs_mode x; rs_anomaly_threshold x; rs_rules_dir x; rs_paranoia_level x;
               rs_exclusions x; rs_custom_rules x ⟩)
  (fun '⟨ x0; x1; x2; x3; x4; x5; x6 ⟩ =>
     mkRuleset x0 x1 x2 x3 x4 x5 x6).
#[export] Instance WafRulesetConfig_lawful : Lawful WafRulesetConfig_codec.
Proof. solve_struct. Qed.
#[export] Instance WafRulesetConfig_stable : Stable WafRulesetConfig_codec.
Proof. solve_stable. Qed.

Record SecurityHeadersConfig := mkSecurityHeaders {
  add_x_content_type_options : bool;
  add_x_frame_options : option bytes;
  add_referrer_policy : option bytes;
  add_content_security_policy : option bytes;
  remove_server_header : bool;
  remove_x_powered_by : bool;
  compress_responses : bool;
  compress_min_size : Z;
  compress_types : list bytes;
}.
Definition SecurityHeadersConfig_default : SecurityHeadersConfig :=
  mkSecurityHeaders false None None None true true false default_compress_min_size default_compress_types.
Definition SecurityHeadersConfig_fields :=
  Dfl (bs "add_x_content_type_options") bool_codec false $
  Opt (bs "add_x_frame_options") string_codec None $
  Opt (bs "add_referrer_policy") string_codec None $
  Opt (bs "add_content_security_policy") string_codec None $
  Dfl (bs "remove_server_header") bool_codec default_true $
  Dfl (bs "remove_x_powered_by") bool_codec default_true $
  Dfl (bs "compress_responses") bool_codec false $
  Dfl (bs "compress_min_size") (uint 64) default_compress_min_size $
  Dfl (bs "compress_types") (vec string_codec) default_compress_types $
  FEnd.
Definition SecurityHeadersConfig_codec : codec SecurityHeadersConfig := struct SecurityHeadersConfig_fields
  (fun x => ⟨ add_x_content_type_options x; add_x_frame_options x; add_referrer_policy x;
               add_content_security_policy x; remove_server_header x; remove_x_powered_by x;
               compress_responses x; compress_min_size x; compress_types x ⟩)
  (fun '⟨ x0; x1; x2; x3; x4; x5; x6; x7; x8 ⟩ =>
     mkSecurityHeaders x0 x1 x2 x3 x4 x5 x6 x7 x8).
#[export] Instance SecurityHeadersConfig_lawful : Lawful SecurityHeadersConfig_codec.
Proof. solve_struct. Qed.
#[export] Instance SecurityHeadersConfig_stable : Stable SecurityHeadersConfig_codec.
Proof. solve_stable. Qed.

Record CookieSecurityConfig := mkCookieSecurity {
  enforce_secure_flag : bool;
  enforce_httponly_flag : bool;
  enforce_samesite : option bytes;
  max_cookie_size : Z;
}.
Definition CookieSecurityConfig_default : CookieSecurityConfig :=
  mkCookieSecurity false false None 0.
Definition CookieSecurityConfig_fields :=
  Dfl (bs "enforce_secure_flag") bool_codec false $
  Dfl (bs "enforce_httponly_flag") bool_codec false $
  Opt (bs "enforce_samesite") string_codec None $
  Dfl (bs "max_cookie_size") (uint 64) default_cookie_size $
  FEnd.
Definition CookieSecurityConfig_codec : codec CookieSecurityConfig := struct CookieSecurityConfig_fields
  (fun x => ⟨ enforce_secure_flag x; enforce_httponly_flag x; enforce_samesite x; max_cookie_size x ⟩)
  (fun '⟨ x0; x1; x2; x3 ⟩ =>
     mkCookieSecurity x0 x1 x2 x3).
#[export] Instance CookieSecurityConfig_lawful : Lawful CookieSecurityConfig_codec.
Proof. solve_struct. Qed.
#[export] Instance CookieSecurityConfig_stable : Stable CookieSecurityConfig_codec.
Proof. solve_stable. Qed.

Record BotDetectionConfig := mkBotDetection {
  bot_enabled : bool;
  ja3_fingerprint_block_list : list bytes;
  challenge_suspicious : bool;
  known_good_bots : list bytes;
  verify_good_bots : bool;
}.
Definition BotDetectionConfig_default : BotDetectionConfig :=
  mkBotDetection false [] false [] false.
Definition BotDetectionConfig_fields :=
  Dfl (bs "enabled") bool_codec false $
  Dfl (bs "ja3_fingerprint_block_list") (vec string_codec) [] $
  Dfl (bs "challenge_suspicious") bool_codec false $
  Dfl (bs "known_good_bots") (vec string_codec) [] $
  Dfl (bs "verify_good_bots") bool_codec false $
  FEnd.
Definition BotDetectionConfig_codec : codec BotDetectionConfig := struct BotDetectionConfig_fields
  (fun x => ⟨ bot_enabled x; ja3_fingerprint_block_list x; challenge_suspicious x; known_good_bots x;
               verify_good_bots x ⟩)
  (fun '⟨ x0; x1; x2; x3; x4 ⟩ =>
     mkBotDetection x0 x1 x2 x3 x4).
#[export] Instance BotDetectionConfig_lawful : Lawful BotDetectionConfig_codec.
Proof. solve_struct. Qed.
#[export] Instance BotDetectionConfig_stable : Stable BotDetectionConfig_codec.
Proof. solve_stable. Qed.

Record GeoConfig := mkGeoConfig {
  geo_enabled : bool;
  geo_database_path : option bytes;
  geo_block_countries : list bytes;
  geo_allow_countries : list bytes;
}.
Definition GeoConfig_default : GeoConfig :=
  mkGeoConfig false None [] [].
Definition GeoConfig_fields :=
  Dfl (bs "enabled") bool_codec false $
  Opt (bs "database_path") string_codec default_geoip_db_path $
  Dfl (bs "block_countries") (vec string_codec) [] $
  Dfl (bs "allow_countries") (vec string_codec) [] $
  FEnd.
Definition GeoConfig_codec : codec GeoConfig := struct GeoConfig_fields
  (fun x => ⟨ geo_enabled x; geo_database_path x; geo_block_countries x; geo_allow_countries x ⟩)
  (fun '⟨ x0; x1; x2; x3 ⟩ =>
     mkGeoConfig x0 x1 x2 x3).
#[export] Instance GeoConfig_lawful : Lawful GeoConfig_codec.
Proof. solve_struct. Qed.

Record ScannerConfig := mkScannerConfig {
  sn_name : bytes;
  sn_command : bytes;
  sn_clean_exit_codes : list Z;
  sn_virus_exit_codes : list Z;
  sn_error_exit_codes : list Z;
  sn_timeout : bytes;
  sn_virus_name_pattern : option bytes;
}.
Definition ScannerConfig_fields :=
  Req (bs "name") string_codec $
  Req (bs "command") string_codec $
  Dfl (bs "clean_exit_codes") (vec int32) default_clean_codes $
  Dfl (bs "virus_exit_codes") (vec int32) default_virus_codes $
  Dfl (bs "error_exit_codes") (vec int32) default_error_codes $
  Dfl (bs "timeout") string_codec default_scanner_timeout $
  Opt (bs "virus_name_pattern") string_codec None $
  FEnd.
Definition ScannerConfig_codec : codec ScannerConfig := struct ScannerConfig_fields
  (fun x => ⟨ sn_name x; sn_command x; sn_clean_exit_codes x; sn_virus_exit_codes x; sn_error_exit_codes x;
               sn_timeout x; sn_virus_name_pattern x ⟩)
  (fun '⟨ x0; x1; x2; x3; x4; x5; x6 ⟩ =>
     mkScannerConfig x0 x1 x2 x3 x4 x5 x6).
#[export] Instance ScannerConfig_lawful : Lawful ScannerConfig_codec.
Proof. solve_struct. Qed.
#[export] Instance ScannerConfig_stable : Stable ScannerConfig_codec.
Proof. solve_stable. Qed.

Record AntivirusConfig := mkAvConfig {
  av_enabled : bool;
  av_cfg_weight : f64;
  av_reject_on_virus : bool;
  av_scanners : list ScannerConfig;
  av_on_scanner_error : bytes;
  av_on_scanner_timeout : bytes;
}.
Definition AntivirusConfig_default : AntivirusConfig :=
  mkAvConfig false f0 false [] [] [].
Definition AntivirusConfig_fields :=
  Dfl (bs "enabled") bool_codec false $
  Dfl (bs "weight") float_codec default_av_weight $
  Dfl (bs "reject_on_virus") bool_codec default_true $
  Dfl (bs "scanners") (vec ScannerConfig_codec) [] $
  Dfl (bs "on_scanner_error") string_codec default_av_error_action $
  Dfl (bs "on_scanner_timeout") string_codec default_av_timeout_action $
  FEnd.
Definition AntivirusConfig_codec : codec AntivirusConfig := struct AntivirusConfig_fields
  (fun x => ⟨ av_enabled x; av_cfg_weight x; av_reject_on_virus x; av_scanners x; av_on_scanner_error x;
               av_on_scanner_timeout x ⟩)
  (fun '⟨ x0; x1; x2; x3; x4; x5 ⟩ =>
     mkAvConfig x0 x1 x2 x3 x4 x5).
#[export] Instance AntivirusConfig_lawful : Lawful AntivirusConfig_codec.
Proof. solve_struct. Qed.
#[export] Instance AntivirusConfig_stable : Stable AntivirusConfig_codec.
Proof. solve_stable. Qed.

Record SecurityProfileAntispam := mkProfileAntispam {
  sp_enabled : bool;
  sp_possible_spam_threshold : option Z;
  sp_definite_spam_threshold : option Z;
  sp_antivirus : AntivirusConfig;
}.
Definition SecurityProfileAntispam_fields :=
  Dfl (bs "enabled") bool_codec default_true $
  Opt (bs "possible_spam_threshold") (uint 8) None $
  Opt (bs "definite_spam_threshold") (uint 8) None $
  Dfl (bs "antivirus") AntivirusConfig_codec AntivirusConfig_default $
  FEnd.
Definition SecurityProfileAntispam_codec : codec SecurityProfileAntispam := struct SecurityProfileAntispam_fields
  (fun x => ⟨ sp_enabled x; sp_possible_spam_threshold x; sp_definite_spam_threshold x; sp_antivirus x ⟩)
  (fun '⟨ x0; x1; x2; x3 ⟩ =>
     mkProfileAntispam x0 x1 x2 x3).
#[export] Instance SecurityProfileAntispam_lawful : Lawful SecurityProfileAntispam_codec.
Proof. solve_struct. Qed.
#[export] Instance SecurityProfileAntispam_stable : Stable SecurityProfileAntispam_codec.
Proof. solve_stable. Qed.

Record SecurityProfile := mkSecProfile {
  sp_name : bytes;
  sp_description : bytes;
  sp_profile_type : bytes;
  sp_waf_enabled : bool;
  sp_waf_ruleset : option bytes;
  sp_headers : SecurityHeadersConfig;
  sp_cookies : CookieSecurityConfig;
  sp_bot_detection : BotDetectionConfig;
  sp_geo : GeoConfig;
  sp_antispam : option SecurityProfileAntispam;
  sp_min_version : bytes;
  sp_cipher_suites : list bytes;
  sp_hsts_max_age : option Z;
  sp_hsts_include_subdomains : bool;
  sp_ocsp_stapling : bool;
}.
Definition SecurityProfile_fields :=
  Req (bs "name") string_codec $
  Dfl (bs "description") string_codec [] $
  Dfl (bs "profile_type") string_codec default_profile_type $
  Dfl (bs "waf_enabled") bool_codec false $
  Opt (bs "waf_ruleset") string_codec None $
  Dfl (bs "headers") SecurityHeadersConfig_codec SecurityHeadersConfig_default $
  Dfl (bs "cookies") CookieSecurityConfig_codec CookieSecurityConfig_default $
  Dfl (bs "bot_detection") BotDetectionConfig_codec BotDetectionConfig_default $
  Dfl (bs "geo") GeoConfig_codec GeoConfig_default $
  Opt (bs "antispam") SecurityProfileAntispam_codec None $
  Dfl (bs "min_version") string_codec default_tls_min_version $
  Dfl (bs "cipher_suites") (vec string_codec) [] $
  Opt (bs "hsts_max_age") (uint 64) None $
  Dfl (bs "hsts_include_subdomains") bool_codec false $
  Dfl (bs "ocsp_stapling") bool_codec false $
  FEnd.
Definition SecurityProfile_codec : codec SecurityProfile := struct SecurityProfile_fields
  (fun x => ⟨ sp_name x; sp_description x; sp_profile_type x; sp_waf_enabled x; sp_waf_ruleset x;
               sp_headers x; sp_cookies x; sp_bot_detection x; sp_geo x; sp_antispam x; sp_min_version x;
               sp_cipher_suites x; sp_hsts_max_age x; sp_hsts_include_subdomains x; sp_ocsp_stapling x ⟩)
  (fun '⟨ x0; x1; x2; x3; x4; x5; x6; x7; x8; x9; x10; x11; x12; x13; x14 ⟩ =>
     mkSecProfile x0 x1 x2 x3 x4 x5 x6 x7 x8 x9 x10 x11 x12 x13 x14).
#[export] Instance SecurityProfile_lawful : Lawful SecurityProfile_codec.
Proof. solve_struct. Qed.

Record LogProfile := mkLogProfile {
  lp_name : bytes;
  lp_description : bytes;
  lp_format : LogFormat;
  lp_access_log : bool;
}.
Definition LogProfile_fields :=
  Req (bs "name") string_codec $
  Dfl (bs "description") string_codec [] $
  Dfl (bs "format") LogFormat_codec default_log_format $
  Dfl (bs "access_log") bool_codec default_true $
  FEnd.
Definition LogProfile_codec : codec LogProfile := struct LogProfile_fields
  (fun x => ⟨ lp_name x; lp_description x; lp_format x; lp_access_log x ⟩)
  (fun '⟨ x0; x1; x2; x3 ⟩ =>
     mkLogProfile x0 x1 x2 x3).
#[export] Instance LogProfile_lawful : Lawful LogProfile_codec.
Proof. solve_struct. Qed.
#[export] Instance LogProfile_stable : Stable LogProfile_codec.
Proof. solve_stable. Qed.

Record SecurityTlsConfig := mkSecurityTls {
  st_min_version : bytes;
  st_cipher_suites : list bytes;
  st_ocsp_stapling : bool;
  st_hsts_max_age : option Z;
  st_hsts_include_subdomains : bool;
  st_backend_tls_verify : bool;
  st_backend_ca_bundle : option bytes;
}.
Definition SecurityTlsConfig_default : SecurityTlsConfig :=
  mkSecurityTls [] [] false None false false None.
Definition SecurityTlsConfig_fields :=
  Dfl (bs "min_version") string_codec default_tls_min_version $
  Dfl (bs "cipher_suites") (vec string_codec) [] $
  Dfl (bs "ocsp_stapling") bool_codec false $
  Opt (bs "hsts_max_age") (uint 64) None $
  Dfl (bs "hsts_include_subdomains") bool_codec false $
  Dfl (bs "backend_tls_verify") bool_codec false $
  Opt (bs "backend_ca_bundle") string_codec None $
  FEnd.
Definition SecurityTlsConfig_codec : codec SecurityTlsConfig := struct SecurityTlsConfig_fields
  (fun x => ⟨ st_min_version x; st_cipher_suites x; st_ocsp_stapling x; st_hsts_max_age x;
               st_hsts_include_subdomains x; st_backend_tls_verify x; st_backend_ca_bundle x ⟩)
  (fun '⟨ x0; x1; x2; x3; x4; x5; x6 ⟩ =>
     mkSecurityTls x0 x1 x2 x3 x4 x5 x6).
#[export] Instance SecurityTlsConfig_lawful : Lawful SecurityTlsConfig_codec.
Proof. solve_struct. Qed.
#[export] Instance SecurityTlsConfig_stable : Stable SecurityTlsConfig_codec.
Proof. solve_stable. Qed.

Record IpAclConfig := mkIpAcl { ia_allow : list bytes; ia_block : list bytes }.
Definition IpAclConfig_default : IpAclConfig :=
  mkIpAcl [] [].
Definition IpAclConfig_fields :=
  Dfl (bs "allow") (vec string_codec) [] $
  Dfl (bs "block") (vec string_codec) [] $
  FEnd.
Definition IpAclConfig_codec : codec IpAclConfig := struct IpAclConfig_fields
  (fun x => ⟨ ia_allow x; ia_block x ⟩)
  (fun '⟨ x0; x1 ⟩ =>
     mkIpAcl x0 x1).
#[export] Instance IpAclConfig_lawful : Lawful IpAclConfig_codec.
Proof. solve_struct. Qed.
#[export] Instance IpAclConfig_stable : Stable IpAclConfig_codec.
Proof. solve_stable. Qed.

Record DomainAclConfig := mkDomainAcl { da_allow : list bytes; da_block : list bytes }.
Definition DomainAclConfig_default : DomainAclConfig :=
  mkDomainAcl [] [].
Definition DomainAclConfig_fields :=
  Dfl (bs "allow") (vec string_codec) [] $
  Dfl (bs "block") (vec string_codec) [] $
  FEnd.
Definition DomainAclConfig_codec : codec DomainAclConfig := struct DomainAclConfig_fields
  (fun x => ⟨ da_allow x; da_block x ⟩)
  (fun '⟨ x0; x1 ⟩ =>
     mkDomainAcl x0 x1).
#[export] Instance DomainAclConfig_lawful : Lawful DomainAclConfig_codec.
Proof. solve_struct. Qed.
#[export] Instance DomainAclConfig_stable : Stable DomainAclConfig_codec.
Proof. solve_stable. Qed.

Record PathPatternConfig := mkPathPattern { pp_action : bytes; pp_patterns : list bytes }.
Definition PathPatternConfig_fields :=
  Req (bs "action") string_codec $
  Req (bs "patterns") (vec string_codec) $
  FEnd.
Definition PathPatternConfig_codec : codec PathPatternConfig := struct PathPatternConfig_fields
  (fun x => ⟨ pp_action x; pp_patterns x ⟩)
  (fun '⟨ x0; x1 ⟩ =>
     mkPathPattern x0 x1).
#[export] Instance PathPatternConfig_lawful : Lawful PathPatternConfig_codec.
Proof. solve_struct. Qed.
#[export] Instance PathPatternConfig_stable : Stable PathPatternConfig_codec.
Proof. solve_stable. Qed.

Record SecurityAclConfig := mkSecurityAcl {
  sacl_default : AclDefaultAction;
  sacl_acl_bypass_waf : bool;
  sacl_ip : IpAclConfig;
  sacl_domain : DomainAclConfig;
  sacl_path_patterns : list PathPatternConfig;
}.
Definition SecurityAclConfig_default : SecurityAclConfig :=
  mkSecurityAcl DefaultAllow false IpAclConfig_default DomainAclConfig_default [].
Definition SecurityAclConfig_fields :=
  Dfl (bs "default") AclDefaultAction_codec default_acl_action $
  Dfl (bs "acl_bypass_waf") bool_codec false $
  Dfl (bs "ip") IpAclConfig_codec IpAclConfig_default $
  Dfl (bs "domain") DomainAclConfig_codec DomainAclConfig_default $
  Dfl (bs "path_patterns") (vec PathPatternConfig_codec) [] $
  FEnd.
Definition SecurityAclConfig_codec : codec SecurityAclConfig := struct SecurityAclConfig_fields
  (fun x => ⟨ sacl_default x; sacl_acl_bypass_waf x; sacl_ip x; sacl_domain x; sacl_path_patterns x ⟩)
  (fun '⟨ x0; x1; x2; x3; x4 ⟩ =>
     mkSecurityAcl x0 x1 x2 x3 x4).
#[export] Instance SecurityAclConfig_lawful : Lawful SecurityAclConfig_codec.
Proof. solve_struct. Qed.
#[export] Instance SecurityAclConfig_stable : Stable SecurityAclConfig_codec.
Proof. solve_stable. Qed.

Record RateLimitScope := mkRateScope { scope_type : bytes; scope_pattern : option bytes }.
Definition RateLimitScope_fields :=
  Req (bs "type") string_codec $
  Opt (bs "pattern") string_codec None $
  FEnd.
Definition RateLimitScope_codec : codec RateLimitScope := struct RateLimitScope_fields
  (fun x => ⟨ scope_type x; scope_pattern x ⟩)
  (fun '⟨ x0; x1 ⟩ =>
     mkRateScope x0 x1).
#[export] Instance RateLimitScope_lawful : Lawful RateLimitScope_codec.
Proof. solve_struct. Qed.
#[export] Instance RateLimitScope_stable : Stable RateLimitScope_codec.
Proof. solve_stable. Qed.

Record RateLimitConfig := mkRateLimit {
  rlc_name : bytes;
  rlc_key : bytes;
  rlc_requests : Z;
  rlc_window_secs : Z;
  rlc_burst : option Z;
  rlc_scope : option RateLimitScope;
}.
Definition RateLimitConfig_fields :=
  Req (bs "name") string_codec $
  Dfl (bs "key") string_codec default_rate_key $
  Req (bs "requests") (uint 64) $
  Req (bs "window_secs") (uint 64) $
  Opt (bs "burst") (uint 64) None $
  Opt (bs "scope") RateLimitScope_codec None $
  FEnd.
Definition RateLimitConfig_codec : codec RateLimitConfig := struct RateLimitConfig_fields
  (fun x => ⟨ rlc_name x; rlc_key x; rlc_requests x; rlc_window_secs x; rlc_burst x; rlc_scope x ⟩)
  (fun '⟨ x0; x1; x2; x3; x4; x5 ⟩ =>
     mkRateLimit x0 x1 x2 x3 x4 x5).
#[export] Instance RateLimitConfig_lawful : Lawful RateLimitConfig_codec.
Proof. solve_struct. Qed.
#[export] Instance RateLimitConfig_stable : Stable RateLimitConfig_codec.
Proof. solve_stable. Qed.

Record SecurityConfig := mkSecurity {
  sec_enabled : bool;
  sec_tls : SecurityTlsConfig;
  sec_acl : SecurityAclConfig;
  sec_rate_limit : list RateLimitConfig;
  sec_geo : GeoConfig;
  sec_bot_detection : BotDetectionConfig;
  sec_cookies : CookieSecurityConfig;
  sec_headers : SecurityHeadersConfig;
}.
Definition SecurityConfig_default : SecurityConfig :=
  mkSecurity false SecurityTlsConfig_default SecurityAclConfig_default [] GeoConfig_default
    BotDetectionConfig_default CookieSecurityConfig_default SecurityHeadersConfig_default.
Definition SecurityConfig_fields :=
  Dfl (bs "enabled") bool_codec default_true $
  Dfl (bs "tls") SecurityTlsConfig_codec SecurityTlsConfig_default $
  Dfl (bs "acl") SecurityAclConfig_codec SecurityAclConfig_default $
  Dfl (bs "rate_limit") (vec RateLimitConfig_codec) [] $
  Dfl (bs "geo") GeoConfig_codec GeoConfig_default $
  Dfl (bs "bot_detection") BotDetectionConfig_codec BotDetectionConfig_default $
  Dfl (bs "cookies") CookieSecurityConfig_codec CookieSecurityConfig_default $
  Dfl (bs "headers") SecurityHeadersConfig_codec SecurityHeadersConfig_default $
  FEnd.
Definition SecurityConfig_codec : codec SecurityConfig := struct SecurityConfig_fields
  (fun x => ⟨ sec_enabled x; sec_tls x; sec_acl x; sec_rate_limit x; sec_geo x; sec_bot_detection x;
               sec_cookies x; sec_headers x ⟩)
  (fun '⟨ x0; x1; x2; x3; x4; x5; x6; x7 ⟩ =>
     mkSecurity x0 x1 x2 x3 x4 x5 x6 x7).
#[export] Instance SecurityConfig_lawful : Lawful SecurityConfig_codec.
Proof. solve_struct. Qed.

Record AntispamListConfig := mkListConfig {
  li_ips : list bytes;
  li_sender_domains : list bytes;
  li_senders : list bytes;
  li_recipients : list bytes;
}.
Definition AntispamListConfig_default : AntispamListConfig :=
  mkListConfig [] [] [] [].
Definition AntispamListConfig_fields :=
  Dfl (bs "ips") (vec string_codec) [] $
  Dfl (bs "sender_domains") (vec string_codec) [] $
  Dfl (bs "senders") (vec string_codec) [] $
  Dfl (bs "recipients") (vec string_codec) [] $
  FEnd.
Definition AntispamListConfig_codec : codec AntispamListConfig := struct AntispamListConfig_fields
  (fun x => ⟨ li_ips x; li_sender_domains x; li_senders x; li_recipients x ⟩)
  (fun '⟨ x0; x1; x2; x3 ⟩ =>
     mkListConfig x0 x1 x2 x3).
#[export] Instance AntispamListConfig_lawful : Lawful AntispamListConfig_codec.
Proof. solve_struct. Qed.
#[export] Instance AntispamListConfig_stable : Stable AntispamListConfig_codec.
Proof. solve_stable. Qed.

Record DnsblListEntry := mkDnsblEntry {
  dl_zone : bytes;
  dl_weight_multiplier : f64;
  dl_reject_on_hit : bool;
}.
Definition DnsblListEntry_fields :=
  Req (bs "zone") string_codec $
  Dfl (bs "weight_multiplier") float_codec default_one_f64 $
  Dfl (bs "reject_on_hit") bool_codec false $
  FEnd.
Definition DnsblListEntry_codec : codec DnsblListEntry := struct DnsblListEntry_fields
  (fun x => ⟨ dl_zone x; dl_weight_multiplier x; dl_reject_on_hit x ⟩)
  (fun '⟨ x0; x1; x2 ⟩ =>
     mkDnsblEntry x0 x1 x2).
#[export] Instance DnsblListEntry_lawful : Lawful DnsblListEntry_codec.
Proof. solve_struct. Qed.
#[export] Instance DnsblListEntry_stable : Stable DnsblListEntry_codec.
Proof. solve_stable. Qed.

Record DnsblConfig := mkDnsblConfig {
  dn_enabled : bool;
  dn_weight : f64;
  dn_timeout : bytes;
  dn_lists : list DnsblListEntry;
}.

Definition default_dnsbl_lists : list DnsblListEntry :=
  [mkDnsblEntry (bs "zen.spamhaus.org") (f_lit 2 1) true;
   mkDnsblEntry (bs "bl.spamcop.net") (f_lit 1 1) false;
   mkDnsblEntry (bs "b.barracudacentral.org") (f_lit 1 1) false;
   mkDnsblEntry (bs "psbl.surriel.com") (f_lit 8 10) false;
   mkDnsblEntry (bs "dnsbl.sorbs.net") (f_lit 8 10) false].

Definition DnsblConfig_default : DnsblConfig :=
  mkDnsblConfig true default_dnsbl_weight default_dnsbl_timeout default_dnsbl_lists.
Definition DnsblConfig_fields :=
  Dfl (bs "enabled") bool_codec default_true $
  Dfl (bs "weight") float_codec default_dnsbl_weight $
  Dfl (bs "timeout") string_codec default_dnsbl_timeout $
  Dfl (bs "lists") (vec DnsblListEntry_codec) default_dnsbl_lists $
  FEnd.
Definition DnsblConfig_codec : codec DnsblConfig := struct DnsblConfig_fields
  (fun x => ⟨ dn_enabled x; dn_weight x; dn_timeout x; dn_lists x ⟩)
  (fun '⟨ x0; x1; x2; x3 ⟩ =>
     mkDnsblConfig x0 x1 x2 x3).
#[export] Instance DnsblConfig_lawful : Lawful DnsblConfig_codec.
Proof. solve_struct. Qed.
#[export] Instance DnsblConfig_stable : Stable DnsblConfig_codec.
Proof. solve_stable. Qed.

Record SpfSeverityConfig := mkSpfSeverityConfig {
  sv_fail : f64;
  sv_softfail : f64;
  sv_neutral : f64;
  sv_none : f64;
}.
Definition SpfSeverityConfig_default : SpfSeverityConfig :=
  mkSpfSeverityConfig (f_lit 1 1) (f_lit 5 10) (f_lit 1 10) (f_lit 3 10).
Definition SpfSeverityConfig_fields :=
  Dfl (bs "fail") float_codec default_one_f64 $
  Dfl (bs "softfail") float_codec default_half_f64 $
  Dfl (bs "neutral") float_codec default_point_one $
  Dfl (bs "none") float_codec default_point_three $
  FEnd.
Definition SpfSeverityConfig_codec : codec SpfSeverityConfig := struct SpfSeverityConfig_fields
  (fun x => ⟨ sv_fail x; sv_softfail x; sv_neutral x; sv_none x ⟩)
  (fun '⟨ x0; x1; x2; x3 ⟩ =>
     mkSpfSeverityConfig x0 x1 x2 x3).
#[export] Instance SpfSeverityConfig_lawful : Lawful SpfSeverityConfig_codec.
Proof. solve_struct. Qed.
#[export] Instance SpfSeverityConfig_stable : Stable SpfSeverityConfig_codec.
Proof. solve_stable. Qed.

Record SpfConfig := mkSpfConfig { sf_enabled : bool; sf_weight : f64; sf_severity : SpfSeverityConfig }.
Definition SpfConfig_default : SpfConfig :=
  mkSpfConfig true default_spf_weight SpfSeverityConfig_default.
Definition SpfConfig_fields :=
  Dfl (bs "enabled") bool_codec default_true $
  Dfl (bs "weight") float_codec default_spf_weight $
  Dfl (bs "severity") SpfSeverityConfig_codec SpfSeverityConfig_default $
  FEnd.
Definition SpfConfig_codec : codec SpfConfig := struct SpfConfig_fields
  (fun x => ⟨ sf_enabled x; sf_weight x; sf_severity x ⟩)
  (fun '⟨ x0; x1; x2 ⟩ =>
     mkSpfConfig x0 x1 x2).
#[export] Instance SpfConfig_lawful : Lawful SpfConfig_codec.
Proof. solve_struct. Qed.
#[export] Instance SpfConfig_stable : Stable SpfConfig_codec.
Proof. solve_stable. Qed.

Record CheckWeightConfig := mkWeight { cw_enabled : bool; cw_weight : f64 }.
Definition CheckWeightConfig_default : CheckWeightConfig :=
  mkWeight true default_check_weight.
Definition CheckWeightConfig_fields :=
  Dfl (bs "enabled") bool_codec default_true $
  Dfl (bs "weight") float_codec default_check_weight $
  FEnd.
Definition CheckWeightConfig_codec : codec CheckWeightConfig := struct CheckWeightConfig_fields
  (fun x => ⟨ cw_enabled x; cw_weight x ⟩)
  (fun '⟨ x0; x1 ⟩ =>
     mkWeight x0 x1).
#[export] Instance CheckWeightConfig_lawful : Lawful CheckWeightConfig_codec.
Proof. solve_struct. Qed.
#[export] Instance CheckWeightConfig_stable : Stable CheckWeightConfig_codec.
Proof. solve_stable. Qed.

Record ResidentialSenderConfig := mkResidentialConfig {
  rs_enabled : bool;
  rs_reject : bool;
  rs_weight : f64;
  rs_check_pbl : bool;
  rs_pbl_zone : bytes;
  rs_softfail_triggers : bool;
  rs_neutral_triggers : bool;
}.
Definition ResidentialSenderConfig_default : ResidentialSenderConfig :=
  mkResidentialConfig true true default_residential_weight true default_pbl_zone true false.
Definition ResidentialSenderConfig_fields :=
  Dfl (bs "enabled") bool_codec default_true $
  Dfl (bs "reject") bool_codec default_true $
  Dfl (bs "weight") float_codec default_residential_weight $
  Dfl (bs "check_pbl") bool_codec default_true $
  Dfl (bs "pbl_zone") string_codec default_pbl_zone $
  Dfl (bs "softfail_triggers") bool_codec default_true $
  Dfl (bs "neutral_triggers") bool_codec false $
  FEnd.
Definition ResidentialSenderConfig_codec : codec ResidentialSenderConfig := struct ResidentialSenderConfig_fields
  (fun x => ⟨ rs_enabled x; rs_reject x; rs_weight x; rs_check_pbl x; rs_pbl_zone x; rs_softfail_triggers x;
               rs_neutral_triggers x ⟩)
  (fun '⟨ x0; x1; x2; x3; x4; x5; x6 ⟩ =>
     mkResidentialConfig x0 x1 x2 x3 x4 x5 x6).
#[export] Instance ResidentialSenderConfig_lawful : Lawful ResidentialSenderConfig_codec.
Proof. solve_struct. Qed.
#[export] Instance ResidentialSenderConfig_stable : Stable ResidentialSenderConfig_codec.
Proof. solve_stable. Qed.

Record SmtpRateRule := mkRateRule { rr_max : Z; rr_window : bytes }.
Definition SmtpRateRule_default : SmtpRateRule :=
  mkRateRule default_rate_max default_rate_window.
Definition SmtpRateRule_fields :=
  Dfl (bs "max") (uint 64) default_rate_max $
  Dfl (bs "window") string_codec default_rate_window $
  FEnd.
Definition SmtpRateRule_codec : codec SmtpRateRule := struct SmtpRateRule_fields
  (fun x => ⟨ rr_max x; rr_window x ⟩)
  (fun '⟨ x0; x1 ⟩ =>
     mkRateRule x0 x1).
#[export] Instance SmtpRateRule_lawful : Lawful SmtpRateRule_codec.
Proof. solve_struct. Qed.
#[export] Instance SmtpRateRule_stable : Stable SmtpRateRule_codec.
Proof. solve_stable. Qed.

Record SmtpRateLimitConfig := mkSmtpRateConfig {
  rl_enabled : bool;
  rl_weight : f64;
  rl_per_ip : SmtpRateRule;
  rl_per_domain : SmtpRateRule;
  rl_per_sender : SmtpRateRule;
}.
Definition SmtpRateLimitConfig_default : SmtpRateLimitConfig :=
  mkSmtpRateConfig false f0 SmtpRateRule_default SmtpRateRule_default SmtpRateRule_default.
Definition SmtpRateLimitConfig_fields :=
  Dfl (bs "enabled") bool_codec default_true $
  Dfl (bs "weight") float_codec default_rate_weight $
  Dfl (bs "per_ip") SmtpRateRule_codec SmtpRateRule_default $
  Dfl (bs "per_domain") SmtpRateRule_codec SmtpRateRule_default $
  Dfl (bs "per_sender") SmtpRateRule_codec SmtpRateRule_default $
  FEnd.
Definition SmtpRateLimitConfig_codec : codec SmtpRateLimitConfig := struct SmtpRateLimitConfig_fields
  (fun x => ⟨ rl_enabled x; rl_weight x; rl_per_ip x; rl_per_domain x; rl_per_sender x ⟩)
  (fun '⟨ x0; x1; x2; x3; x4 ⟩ =>
     mkSmtpRateConfig x0 x1 x2 x3 x4).
#[export] Instance SmtpRateLimitConfig_lawful : Lawful SmtpRateLimitConfig_codec.
Proof. solve_struct. Qed.
#[export] Instance SmtpRateLimitConfig_stable : Stable SmtpRateLimitConfig_codec.
Proof. solve_stable. Qed.

Record DmarcConfig := mkDmarcConfig { dm_enabled : bool; dm_weight : f64; dm_honor_reject_policy : bool }.
Definition DmarcConfig_default : DmarcConfig :=
  mkDmarcConfig true default_dmarc_weight true.
Definition DmarcConfig_fields :=
  Dfl (bs "enabled") bool_codec default_true $
  Dfl (bs "weight") float_codec default_dmarc_weight $
  Dfl (bs "honor_reject_policy") bool_codec default_true $
  FEnd.
Definition DmarcConfig_codec : codec DmarcConfig := struct DmarcConfig_fields
  (fun x => ⟨ dm_enabled x; dm_weight x; dm_honor_reject_policy x ⟩)
  (fun '⟨ x0; x1; x2 ⟩ =>
     mkDmarcConfig x0 x1 x2).
#[export] Instance DmarcConfig_lawful : Lawful DmarcConfig_codec.
Proof. solve_struct. Qed.
#[export] Instance DmarcConfig_stable : Stable DmarcConfig_codec.
Proof. solve_stable. Qed.

Record ContentCheckConfig := mkContentConfig {
  ct_enabled : bool;
  ct_weight : f64;
  ct_rules_file : option bytes;
}.
Definition ContentCheckConfig_default : ContentCheckConfig :=
  mkContentConfig true default_content_weight None.
Definition ContentCheckConfig_fields :=
  Dfl (bs "enabled") bool_codec default_true $
  Dfl (bs "weight") float_codec default_content_weight $
  Opt (bs "rules_file") string_codec None $
  FEnd.
Definition ContentCheckConfig_codec : codec ContentCheckConfig := struct ContentCheckConfig_fields
  (fun x => ⟨ ct_enabled x; ct_weight x; ct_rules_file x ⟩)
  (fun '⟨ x0; x1; x2 ⟩ =>
     mkContentConfig x0 x1 x2).
#[export] Instance ContentCheckConfig_lawful : Lawful ContentCheckConfig_codec.
Proof. solve_struct. Qed.
#[export] Instance ContentCheckConfig_stable : Stable ContentCheckConfig_codec.
Proof. solve_stable. Qed.

Record UrlAnalysisConfig := mkUrlConfig { ua_enabled : bool; ua_weight : f64; ua_surbl_zones : list bytes }.
Definition UrlAnalysisConfig_default : UrlAnalysisConfig :=
  mkUrlConfig true default_url_weight [].
Definition UrlAnalysisConfig_fields :=
  Dfl (bs "enabled") bool_codec default_true $
  Dfl (bs "weight") float_codec default_url_weight $
  Dfl (bs "surbl_zones") (vec string_codec) [] $
  FEnd.
Definition UrlAnalysisConfig_codec : codec UrlAnalysisConfig := struct UrlAnalysisConfig_fields
  (fun x => ⟨ ua_enabled x; ua_weight x; ua_surbl_zones x ⟩)
  (fun '⟨ x0; x1; x2 ⟩ =>
     mkUrlConfig x0 x1 x2).
#[export] Instance UrlAnalysisConfig_lawful : Lawful UrlAnalysisConfig_codec.
Proof. solve_struct. Qed.
#[export] Instance UrlAnalysisConfig_stable : Stable UrlAnalysisConfig_codec.
Proof. solve_stable. Qed.

Record AttachmentConfig := mkAttachConfig {
  ac_enabled : bool;
  ac_weight : f64;
  ac_dangerous_extensions : list bytes;
}.
Definition AttachmentConfig_default : AttachmentConfig :=
  mkAttachConfig true default_attachment_weight default_dangerous_extensions.
Definition AttachmentConfig_fields :=
  Dfl (bs "enabled") bool_codec default_true $
  Dfl (bs "weight") float_codec default_attachment_weight $
  Dfl (bs "dangerous_extensions") (vec string_codec) default_dangerous_extensions $
  FEnd.
Definition AttachmentConfig_codec : codec AttachmentConfig := struct AttachmentConfig_fields
  (fun x => ⟨ ac_enabled x; ac_weight x; ac_dangerous_extensions x ⟩)
  (fun '⟨ x0; x1; x2 ⟩ =>
     mkAttachConfig x0 x1 x2).
#[export] Instance AttachmentConfig_lawful : Lawful AttachmentConfig_codec.
Proof. solve_struct. Qed.
#[export] Instance AttachmentConfig_stable : Stable AttachmentConfig_codec.
Proof. solve_stable. Qed.

Record DomainOverride := mkOverride {
  do_domain : bytes;
  do_possible_spam_threshold : option Z;
  do_definite_spam_threshold : option Z;
  do_disabled_checks : list bytes;
}.
Definition DomainOverride_fields :=
  Req (bs "domain") string_codec $
  Opt (bs "possible_spam_threshold") (uint 8) None $
  Opt (bs "definite_spam_threshold") (uint 8) None $
  Dfl (bs "disabled_checks") (vec string_codec) [] $
  FEnd.
Definition DomainOverride_codec : codec DomainOverride := struct DomainOverride_fields
  (fun x => ⟨ do_domain x; do_possible_spam_threshold x; do_definite_spam_threshold x; do_disabled_checks x ⟩)
  (fun '⟨ x0; x1; x2; x3 ⟩ =>
     mkOverride x0 x1 x2 x3).
#[export] Instance DomainOverride_lawful : Lawful DomainOverride_codec.
Proof. solve_struct. Qed.
#[export] Instance DomainOverride_stable : Stable DomainOverride_codec.
Proof. solve_stable. Qed.

Record AntispamConfig := mkAntispamConfig {
  fc_enabled : bool;
  possible_spam_threshold : Z;
  definite_spam_threshold : Z;
  max_check_duration : bytes;
  fc_allow : AntispamListConfig;
  fc_block : AntispamListConfig;
  fc_dnsbl : DnsblConfig;
  fc_spf : SpfConfig;
  fc_rdns : CheckWeightConfig;
  fc_residential_spf : ResidentialSenderConfig;
  fc_helo : CheckWeightConfig;
  fc_rate_limit : SmtpRateLimitConfig;
  fc_early_talker : CheckWeightConfig;
  fc_dkim : CheckWeightConfig;
  fc_dmarc : DmarcConfig;
  fc_content : ContentCheckConfig;
  fc_url_analysis : UrlAnalysisConfig;
  fc_attachment : AttachmentConfig;
  fc_html : CheckWeightConfig;
  fc_header_analysis : CheckWeightConfig;
  fc_charset : CheckWeightConfig;
  fc_bulk : CheckWeightConfig;
  fc_ratio : CheckWeightConfig;
  fc_antivirus : AntivirusConfig;
  domain_overrides : list DomainOverride;
}.
Definition AntispamConfig_default : AntispamConfig :=
  mkAntispamConfig false 0 0 [] AntispamListConfig_default AntispamListConfig_default DnsblConfig_default
    SpfConfig_default CheckWeightConfig_default ResidentialSenderConfig_default CheckWeightConfig_default
    SmtpRateLimitConfig_default CheckWeightConfig_default CheckWeightConfig_default DmarcConfig_default
    ContentCheckConfig_default UrlAnalysisConfig_default AttachmentConfig_default CheckWeightConfig_default
    CheckWeightConfig_default CheckWeightConfig_default CheckWeightConfig_default CheckWeightConfig_default
    AntivirusConfig_default [].
Definition AntispamConfig_fields :=
  Dfl (bs "enabled") bool_codec false $
  Dfl (bs "possible_spam_threshold") (uint 8) default_possible_spam $
  Dfl (bs "definite_spam_threshold") (uint 8) default_definite_spam $
  Dfl (bs "max_check_duration") string_codec default_check_duration $
  Dfl (bs "allow") AntispamListConfig_codec AntispamListConfig_default $
  Dfl (bs "block") AntispamListConfig_codec AntispamListConfig_default $
  Dfl (bs "dnsbl") DnsblConfig_codec DnsblConfig_default $
  Dfl (bs "spf") SpfConfig_codec SpfConfig_default $
  Dfl (bs "rdns") CheckWeightConfig_codec CheckWeightConfig_default $
  Dfl (bs "residential_spf") ResidentialSenderConfig_codec ResidentialSenderConfig_default $
  Dfl (bs "helo") CheckWeightConfig_codec CheckWeightConfig_default $
  Dfl (bs "rate_limit") SmtpRateLimitConfig_codec SmtpRateLimitConfig_default $
  Dfl (bs "early_talker") CheckWeightConfig_codec CheckWeightConfig_default $
  Dfl (bs "dkim") CheckWeightConfig_codec CheckWeightConfig_default $
  Dfl (bs "dmarc") DmarcConfig_codec DmarcConfig_default $
  Dfl (bs "content") ContentCheckConfig_codec ContentCheckConfig_default $
  Dfl (bs "url_analysis") UrlAnalysisConfig_codec UrlAnalysisConfig_default $
  Dfl (bs "attachment") AttachmentConfig_codec AttachmentConfig_default $
  Dfl (bs "html") CheckWeightConfig_codec CheckWeightConfig_default $
  Dfl (bs "header_analysis") CheckWeightConfig_codec CheckWeightConfig_default $
  Dfl (bs "charset") CheckWeightConfig_codec CheckWeightConfig_default $
  Dfl (bs "bulk") CheckWeightConfig_codec CheckWeightConfig_default $
  Dfl (bs "ratio") CheckWeightConfig_codec CheckWeightConfig_default $
  Dfl (bs "antivirus") AntivirusConfig_codec AntivirusConfig_default $
  Dfl (bs "domain_overrides") (vec DomainOverride_codec) [] $
  FEnd.
Definition AntispamConfig_codec : codec AntispamConfig := struct AntispamConfig_fields
  (fun x => ⟨ fc_enabled x; possible_spam_threshold x; definite_spam_threshold x; max_check_duration x;
               fc_allow x; fc_block x; fc_dnsbl x; fc_spf x; fc_rdns x; fc_residential_spf x; fc_helo x;
               fc_rate_limit x; fc_early_talker x; fc_dkim x; fc_dmarc x; fc_content x; fc_url_analysis x;
               fc_attachment x; fc_html x; fc_header_analysis x; fc_charset x; fc_bulk x; fc_ratio x;
               fc_antivirus x; domain_overrides x ⟩)
  (fun '⟨ x0; x1; x2; x3; x4; x5; x6; x7; x8; x9; x10; x11; x12; x13; x14; x15; x16; x17; x18; x19; x20;
           x21; x22; x23; x24 ⟩ =>
     mkAntispamConfig x0 x1 x2 x3 x4 x5 x6 x7 x8 x9 x10 x11 x12 x13 x14 x15 x16 x17 x18 x19 x20 x21 x22 x23
      x24).
#[export] Instance AntispamConfig_lawful : Lawful AntispamConfig_codec.
Proof. solve_struct. Qed.
#[export] Instance AntispamConfig_stable : Stable AntispamConfig_codec.
Proof. solve_stable. Qed.

Record TrustedHostsConfig := mkTrustedConfig { th_hosts : list bytes; th_require_tls : bool }.
Definition TrustedHostsConfig_default : TrustedHostsConfig :=
  mkTrustedConfig [] false.
Definition TrustedHostsConfig_fields :=
  Dfl (bs "hosts") (vec string_codec) [] $
  Dfl (bs "require_tls") bool_codec false $
  FEnd.
Definition TrustedHostsConfig_codec : codec TrustedHostsConfig := struct TrustedHostsConfig_fields
  (fun x => ⟨ th_hosts x; th_require_tls x ⟩)
  (fun '⟨ x0; x1 ⟩ =>
     mkTrustedConfig x0 x1).
#[export] Instance TrustedHostsConfig_lawful : Lawful TrustedHostsConfig_codec.
Proof. solve_struct. Qed.
#[export] Instance TrustedHostsConfig_stable : Stable TrustedHostsConfig_codec.
Proof. solve_stable. Qed.

Record RetryConfig := mkRetryConfig { rc_intervals : list bytes; rc_max_age : bytes; rc_max_attempts : Z }.
Definition RetryConfig_default : RetryConfig :=
  mkRetryConfig default_retry_intervals default_max_age default_max_attempts.
Definition RetryConfig_fields :=
  Dfl (bs "intervals") (vec string_codec) default_retry_intervals $
  Dfl (bs "max_age") string_codec default_max_age $
  Dfl (bs "max_attempts") (uint 32) default_max_attempts $
  FEnd.
Definition RetryConfig_codec : codec RetryConfig := struct RetryConfig_fields
  (fun x => ⟨ rc_intervals x; rc_max_age x; rc_max_attempts x ⟩)
  (fun '⟨ x0; x1; x2 ⟩ =>
     mkRetryConfig x0 x1 x2).
#[export] Instance RetryConfig_lawful : Lawful RetryConfig_codec.
Proof. solve_struct. Qed.
#[export] Instance RetryConfig_stable : Stable RetryConfig_codec.
Proof. solve_stable. Qed.

Record RelayTlsConfig := mkRelayTls {
  rt_opportunistic : bool;
  rt_verify_certificates : bool;
  rt_min_version : bytes;
}.
Definition RelayTlsConfig_default : RelayTlsConfig :=
  mkRelayTls false false [].
Definition RelayTlsConfig_fields :=
  Dfl (bs "opportunistic") bool_codec default_true $
  Dfl (bs "verify_certificates") bool_codec false $
  Dfl (bs "min_version") string_codec default_tls_min_version $
  FEnd.
Definition RelayTlsConfig_codec : codec RelayTlsConfig := struct RelayTlsConfig_fields
  (fun x => ⟨ rt_opportunistic x; rt_verify_certificates x; rt_min_version x ⟩)
  (fun '⟨ x0; x1; x2 ⟩ =>
     mkRelayTls x0 x1 x2).
#[export] Instance RelayTlsConfig_lawful : Lawful RelayTlsConfig_codec.
Proof. solve_struct. Qed.
#[export] Instance RelayTlsConfig_stable : Stable RelayTlsConfig_codec.
Proof. solve_stable. Qed.

Record DkimDomainConfig := mkDkimDomain {
  dd_domain : bytes;
  dd_selector : bytes;
  dd_key_file : bytes;
  dd_algorithm : bytes;
}.
Definition DkimDomainConfig_fields :=
  Req (bs "domain") string_codec $
  Req (bs "selector") string_codec $
  Req (bs "key_file") string_codec $
  Dfl (bs "algorithm") string_codec default_dkim_algorithm $
  FEnd.
Definition DkimDomainConfig_codec : codec DkimDomainConfig := struct DkimDomainConfig_fields
  (fun x => ⟨ dd_domain x; dd_selector x; dd_key_file x; dd_algorithm x ⟩)
  (fun '⟨ x0; x1; x2; x3 ⟩ =>
     mkDkimDomain x0 x1 x2 x3).
#[export] Instance DkimDomainConfig_lawful : Lawful DkimDomainConfig_codec.
Proof. solve_struct. Qed.
#[export] Instance DkimDomainConfig_stable : Stable DkimDomainConfig_codec.
Proof. solve_stable. Qed.

Record RelayDkimConfig := mkRelayDkim { rd_enabled : bool; rd_domains : list DkimDomainConfig }.
Definition RelayDkimConfig_default : RelayDkimConfig :=
  mkRelayDkim false [].
Definition RelayDkimConfig_fields :=
  Dfl (bs "enabled") bool_codec false $
  Dfl (bs "domains") (vec DkimDomainConfig_codec) [] $
  FEnd.
Definition RelayDkimConfig_codec : codec RelayDkimConfig := struct RelayDkimConfig_fields
  (fun x => ⟨ rd_enabled x; rd_domains x ⟩)
  (fun '⟨ x0; x1 ⟩ =>
     mkRelayDkim x0 x1).
#[export] Instance RelayDkimConfig_lawful : Lawful RelayDkimConfig_codec.
Proof. solve_struct. Qed.
#[export] Instance RelayDkimConfig_stable : Stable RelayDkimConfig_codec.
Proof. solve_stable. Qed.

Record DmarcPolicyDomain := mkDmarcDomain {
  dp_domain : bytes;
  dp_policy : bytes;
  dp_subdomain_policy : option bytes;
  dp_pct : Z;
  dp_rua : list bytes;
  dp_ruf : list bytes;
  dp_adkim : bytes;
  dp_aspf : bytes;
}.
Definition DmarcPolicyDomain_fields :=
  Req (bs "domain") string_codec $
  Dfl (bs "policy") string_codec default_dmarc_publish_policy $
  Opt (bs "subdomain_policy") string_codec None $
  Dfl (bs "pct") (uint 8) default_hundred $
  Dfl (bs "rua") (vec string_codec) [] $
  Dfl (bs "ruf") (vec string_codec) [] $
  Dfl (bs "adkim") string_codec default_relaxed_alignment $
  Dfl (bs "aspf") string_codec default_relaxed_alignment $
  FEnd.
Definition DmarcPolicyDomain_codec : codec DmarcPolicyDomain := struct DmarcPolicyDomain_fields
  (fun x => ⟨ dp_domain x; dp_policy x; dp_subdomain_policy x; dp_pct x; dp_rua x; dp_ruf x; dp_adkim x;
               dp_aspf x ⟩)
  (fun '⟨ x0; x1; x2; x3; x4; x5; x6; x7 ⟩ =>
     mkDmarcDomain x0 x1 x2 x3 x4 x5 x6 x7).
#[export] Instance DmarcPolicyDomain_lawful : Lawful DmarcPolicyDomain_codec.
Proof. solve_struct. Qed.
#[export] Instance DmarcPolicyDomain_stable : Stable DmarcPolicyDomain_codec.
Proof. solve_stable. Qed.

Record RelayDmarcPublishConfig := mkDmarcPublish { rdp_domains : list DmarcPolicyDomain }.
Definition RelayDmarcPublishConfig_default : RelayDmarcPublishConfig :=
  mkDmarcPublish [].
Definition RelayDmarcPublishConfig_fields :=
  Dfl (bs "domains") (vec DmarcPolicyDomain_codec) [] $
  FEnd.
Definition RelayDmarcPublishConfig_codec : codec RelayDmarcPublishConfig := struct RelayDmarcPublishConfig_fields
  (fun x => ⟨ rdp_domains x ⟩)
  (fun '⟨ x0 ⟩ =>
     mkDmarcPublish x0).
#[export] Instance RelayDmarcPublishConfig_lawful : Lawful RelayDmarcPublishConfig_codec.
Proof. solve_struct. Qed.
#[export] Instance RelayDmarcPublishConfig_stable : Stable RelayDmarcPublishConfig_codec.
Proof. solve_stable. Qed.

Record SpfMechanism := mkSpfMechanism { sm_qualifier : bytes; sm_mechanism : bytes; sm_value : option bytes }.
Definition SpfMechanism_fields :=
  Dfl (bs "qualifier") string_codec default_spf_qualifier $
  Req (bs "mechanism") string_codec $
  Opt (bs "value") string_codec None $
  FEnd.
Definition SpfMechanism_codec : codec SpfMechanism := struct SpfMechanism_fields
  (fun x => ⟨ sm_qualifier x; sm_mechanism x; sm_value x ⟩)
  (fun '⟨ x0; x1; x2 ⟩ =>
     mkSpfMechanism x0 x1 x2).
#[export] Instance SpfMechanism_lawful : Lawful SpfMechanism_codec.
Proof. solve_struct. Qed.
#[export] Instance SpfMechanism_stable : Stable SpfMechanism_codec.
Proof. solve_stable. Qed.

Record SpfDomainConfig := mkSpfDomain {
  sd_domain : bytes;
  sd_mechanisms : list SpfMechanism;
  sd_all : bytes;
}.
Definition SpfDomainConfig_fields :=
  Req (bs "domain") string_codec $
  Dfl (bs "mechanisms") (vec SpfMechanism_codec) [] $
  Dfl (bs "all") string_codec default_spf_all $
  FEnd.
Definition SpfDomainConfig_codec : codec SpfDomainConfig := struct SpfDomainConfig_fields
  (fun x => ⟨ sd_domain x; sd_mechanisms x; sd_all x ⟩)
  (fun '⟨ x0; x1; x2 ⟩ =>
     mkSpfDomain x0 x1 x2).
#[export] Instance SpfDomainConfig_lawful : Lawful SpfDomainConfig_codec.
Proof. solve_struct. Qed.
#[export] Instance SpfDomainConfig_stable : Stable SpfDomainConfig_codec.
Proof. solve_stable. Qed.

Record RelaySpfPublishConfig := mkSpfPublish { rsp_domains : list SpfDomainConfig }.
Definition RelaySpfPublishConfig_default : RelaySpfPublishConfig :=
  mkSpfPublish [].
Definition RelaySpfPublishConfig_fields :=
  Dfl (bs "domains") (vec SpfDomainConfig_codec) [] $
  FEnd.
Definition RelaySpfPublishConfig_codec : codec RelaySpfPublishConfig := struct RelaySpfPublishConfig_fields
  (fun x => ⟨ rsp_domains x ⟩)
  (fun '⟨ x0 ⟩ =>
     mkSpfPublish x0).
#[export] Instance RelaySpfPublishConfig_lawful : Lawful RelaySpfPublishConfig_codec.
Proof. solve_struct. Qed.
#[export] Instance RelaySpfPublishConfig_stable : Stable RelaySpfPublishConfig_codec.
Proof. solve_stable. Qed.

Record OutboundPolicyConfig := mkPolicyConfig {
  op_enabled : bool;
  op_max_message_size : Z;
  op_max_recipients_per_message : Z;
  op_allowed_sender_domains : list bytes;
  op_max_messages_per_domain_per_hour : Z;
  op_block_dangerous_attachments : bool;
  op_check_urls : bool;
}.
Definition OutboundPolicyConfig_default : OutboundPolicyConfig :=
  mkPolicyConfig false 0 0 [] 0 false false.
Definition OutboundPolicyConfig_fields :=
  Dfl (bs "enabled") bool_codec default_true $
  Dfl (bs "max_message_size") (uint 64) default_max_message_size $
  Dfl (bs "max_recipients_per_message") (uint 64) default_max_recipients $
  Dfl (bs "allowed_sender_domains") (vec string_codec) [] $
  Dfl (bs "max_messages_per_domain_per_hour") (uint 64) default_domain_rate $
  Dfl (bs "block_dangerous_attachments") bool_codec default_true $
  Dfl (bs "check_urls") bool_codec false $
  FEnd.
Definition OutboundPolicyConfig_codec : codec OutboundPolicyConfig := struct OutboundPolicyConfig_fields
  (fun x => ⟨ op_enabled x; op_max_message_size x; op_max_recipients_per_message x;
               op_allowed_sender_domains x; op_max_messages_per_domain_per_hour x;
               op_block_dangerous_attachments x; op_check_urls x ⟩)
  (fun '⟨ x0; x1; x2; x3; x4; x5; x6 ⟩ =>
     mkPolicyConfig x0 x1 x2 x3 x4 x5 x6).
#[export] Instance OutboundPolicyConfig_lawful : Lawful OutboundPolicyConfig_codec.
Proof. solve_struct. Qed.
#[export] Instance OutboundPolicyConfig_stable : Stable OutboundPolicyConfig_codec.
Proof. solve_stable. Qed.

Record BounceConfig := mkBounceConfig { bo_sender : option bytes; bo_include_original_headers : bool }.
Definition BounceConfig_default : BounceConfig :=
  mkBounceConfig None false.
Definition BounceConfig_fields :=
  Opt (bs "sender") string_codec None $
  Dfl (bs "include_original_headers") bool_codec default_true $
  FEnd.
Definition BounceConfig_codec : codec BounceConfig := struct BounceConfig_fields
  (fun x => ⟨ bo_sender x; bo_include_original_headers x ⟩)
  (fun '⟨ x0; x1 ⟩ =>
     mkBounceConfig x0 x1).
#[export] Instance BounceConfig_lawful : Lawful BounceConfig_codec.
Proof. solve_struct. Qed.
#[export] Instance BounceConfig_stable : Stable BounceConfig_codec.
Proof. solve_stable. Qed.

Record RelayConfig := mkRelayConfig {
  rel_enabled : bool;
  rel_listen : list bytes;
  rel_hostname : option bytes;
  rel_spool_dir : bytes;
  rel_max_queue_size : Z;
  rel_delivery_threads : Z;
  rel_trusted_hosts : TrustedHostsConfig;
  rel_retry : RetryConfig;
  rel_tls : RelayTlsConfig;
  rel_dkim : RelayDkimConfig;
  rel_dmarc_publish : RelayDmarcPublishConfig;
  rel_spf_publish : RelaySpfPublishConfig;
  rel_outbound_policy : OutboundPolicyConfig;
  rel_bounce : BounceConfig;
}.
Definition RelayConfig_default : RelayConfig :=
  mkRelayConfig false [] None [] 0 0 TrustedHostsConfig_default RetryConfig_default RelayTlsConfig_default
    RelayDkimConfig_default RelayDmarcPublishConfig_default RelaySpfPublishConfig_default
    OutboundPolicyConfig_default BounceConfig_default.
Definition RelayConfig_fields :=
  Dfl (bs "enabled") bool_codec false $
  Dfl (bs "listen") (vec string_codec) [] $
  Opt (bs "hostname") string_codec None $
  Dfl (bs "spool_dir") string_codec default_spool_dir $
  Dfl (bs "max_queue_size") (uint 64) default_max_queue $
  Dfl (bs "delivery_threads") (uint 64) default_delivery_threads $
  Dfl (bs "trusted_hosts") TrustedHostsConfig_codec TrustedHostsConfig_default $
  Dfl (bs "retry") RetryConfig_codec RetryConfig_default $
  Dfl (bs "tls") RelayTlsConfig_codec RelayTlsConfig_default $
  Dfl (bs "dkim") RelayDkimConfig_codec RelayDkimConfig_default $
  Dfl (bs "dmarc_publish") RelayDmarcPublishConfig_codec RelayDmarcPublishConfig_default $
  Dfl (bs "spf_publish") RelaySpfPublishConfig_codec RelaySpfPublishConfig_default $
  Dfl (bs "outbound_policy") OutboundPolicyConfig_codec OutboundPolicyConfig_default $
  Dfl (bs "bounce") BounceConfig_codec BounceConfig_default $
  FEnd.
Definition RelayConfig_codec : codec RelayConfig := struct RelayConfig_fields
  (fun x => ⟨ rel_enabled x; rel_listen x; rel_hostname x; rel_spool_dir x; rel_max_queue_size x;
               rel_delivery_threads x; rel_trusted_hosts x; rel_retry x; rel_tls x; rel_dkim x;
               rel_dmarc_publish x; rel_spf_publish x; rel_outbound_policy x; rel_bounce x ⟩)
  (fun '⟨ x0; x1; x2; x3; x4; x5; x6; x7; x8; x9; x10; x11; x12; x13 ⟩ =>
     mkRelayConfig x0 x1 x2 x3 x4 x5 x6 x7 x8 x9 x10 x11 x12 x13).
#[export] Instance RelayConfig_lawful : Lawful RelayConfig_codec.
Proof. solve_struct. Qed.
#[export] Instance RelayConfig_stable : Stable RelayConfig_codec.
Proof. solve_stable. Qed.

Record ServerWallConfig := mkServerWall {
  cfg_global : GlobalConfig;
  cfg_webui : WebuiConfig;
  cfg_acme : AcmeConfig;
  cfg_frontend : list FrontendConfig;
  cfg_backend_pool : list BackendPoolConfig;
  cfg_waf_ruleset : list WafRulesetConfig;
  cfg_security_profiles : list SecurityProfile;
  cfg_log_profiles : list LogProfile;
  cfg_security : SecurityConfig;
  cfg_antispam : AntispamConfig;
  cfg_relay : RelayConfig;
}.
Definition ServerWallConfig_default : ServerWallConfig :=
  mkServerWall GlobalConfig_default WebuiConfig_default AcmeConfig_default [] [] [] [] []
    SecurityConfig_default AntispamConfig_default RelayConfig_default.
Definition ServerWallConfig_fields :=
  Dfl (bs "global") GlobalConfig_codec GlobalConfig_default $
  Dfl (bs "webui") WebuiConfig_codec WebuiConfig_default $
  Dfl (bs "acme") AcmeConfig_codec AcmeConfig_default $
  Dfl (bs "frontend") (vec FrontendConfig_codec) [] $
  Dfl (bs "backend_pool") (vec BackendPoolConfig_codec) [] $
  Dfl (bs "waf_ruleset") (vec WafRulesetConfig_codec) [] $
  Dfl (bs "security_profiles") (vec SecurityProfile_codec) [] $
  Dfl (bs "log_profiles") (vec LogProfile_codec) [] $
  Dfl (bs "security") SecurityConfig_codec SecurityConfig_default $
  Dfl (bs "antispam") AntispamConfig_codec AntispamConfig_default $
  Dfl (bs "relay") RelayConfig_codec RelayConfig_default $
  FEnd.
Definition ServerWallConfig_codec : codec ServerWallConfig := struct ServerWallConfig_fields
  (fun x => ⟨ cfg_global x; cfg_webui x; cfg_acme x; cfg_frontend x; cfg_backend_pool x; cfg_waf_ruleset x;
               cfg_security_profiles x; cfg_log_profiles x; cfg_security x; cfg_antispam x; cfg_relay x ⟩)
  (fun '⟨ x0; x1; x2; x3; x4; x5; x6; x7; x8; x9; x10 ⟩ =>
     mkServerWall x0 x1 x2 x3 x4 x5 x6 x7 x8 x9 x10).
#[export] Instance ServerWallConfig_lawful : Lawful ServerWallConfig_codec.
Proof. solve_struct. Qed.

(** A frontend that sets the fields without default only. *)
Definition frontend_with (name : bytes) (p : ProtocolType) (listen : list bytes) (pool : bytes) : FrontendConfig :=
  mkFrontend name p listen pool None None None None None None default_tls_min_version [] default_balance_method
    false None None None default_log_format default_true None FrontendHeadersConfig_default
    SmtpHeadersConfig_default FrontendAclConfig_default None default_session_cookie.

(** ** Assignment to a field, as the function on its value *)

Definition upd_cfg_global (g : GlobalConfig -> GlobalConfig) (x : ServerWallConfig) : ServerWallConfig :=
  mkServerWall (g (cfg_global x)) (cfg_webui x) (cfg_acme x) (cfg_frontend x) (cfg_backend_pool x)
    (cfg_waf_ruleset x) (cfg_security_profiles x) (cfg_log_profiles x) (cfg_security x) (cfg_antispam x)
    (cfg_relay x).
Definition upd_cfg_webui (g : WebuiConfig -> WebuiConfig) (x : ServerWallConfig) : ServerWallConfig :=
  mkServerWall (cfg_global x) (g (cfg_webui x)) (cfg_acme x) (cfg_frontend x) (cfg_backend_pool x)
    (cfg_waf_ruleset x) (cfg_security_profiles x) (cfg_log_profiles x) (cfg_security x) (cfg_antispam x)
    (cfg_relay x).
Definition upd_cfg_acme (g : AcmeConfig -> AcmeConfig) (x : ServerWallConfig) : ServerWallConfig :=
  mkServerWall (cfg_global x) (cfg_webui x) (g (cfg_acme x)) (cfg_frontend x) (cfg_backend_pool x)
    (cfg_waf_ruleset x) (cfg_security_profiles x) (cfg_log_profiles x) (cfg_security x) (cfg_antispam x)
    (cfg_relay x).
Definition upd_cfg_frontend (g : list FrontendConfig -> list FrontendConfig) (x : ServerWallConfig) : ServerWallConfig :=
  mkServerWall (cfg_global x) (cfg_webui x) (cfg_acme x) (g (cfg_frontend x)) (cfg_backend_pool x)
    (cfg_waf_ruleset x) (cfg_security_profiles x) (cfg_log_profiles x) (cfg_security x) (cfg_antispam x)
    (cfg_relay x).
Definition upd_cfg_backend_pool (g : list BackendPoolConfig -> list BackendPoolConfig) (x : ServerWallConfig) : ServerWallConfig :=
  mkServerWall (cfg_global x) (cfg_webui x) (cfg_acme x) (cfg_frontend x) (g (cfg_backend_pool x))
    (cfg_waf_ruleset x) (cfg_security_profiles x) (cfg_log_profiles x) (cfg_security x) (cfg_antispam x)
    (cfg_relay x).
Definition upd_cfg_waf_ruleset (g : list WafRulesetConfig -> list WafRulesetConfig) (x : ServerWallConfig) : ServerWallConfig :=
  mkServerWall (cfg_global x) (cfg_webui x) (cfg_acme x) (cfg_frontend x) (cfg_backend_pool x)
    (g (cfg_waf_ruleset x)) (cfg_security_profiles x) (cfg_log_profiles x) (cfg_security x) (cfg_antispam x)
    (cfg_relay x).
Definition upd_cfg_security_profiles (g : list SecurityProfile -> list SecurityProfile) (x : ServerWallConfig) : ServerWallConfig :=
  mkServerWall (cfg_global x) (cfg_webui x) (cfg_acme x) (cfg_frontend x) (cfg_backend_pool x)
    (cfg_waf_ruleset x) (g (cfg_security_profiles x)) (cfg_log_profiles x) (cfg_security x) (cfg_antispam x)
    (cfg_relay x).
Definition upd_cfg_log_profiles (g : list LogProfile -> list LogProfile) (x : ServerWallConfig) : ServerWallConfig :=
  mkServerWall (cfg_global x) (cfg_webui x) (cfg_acme x) (cfg_frontend x) (cfg_backend_pool x)
    (cfg_waf_ruleset x) (cfg_security_profiles x) (g (cfg_log_profiles x)) (cfg_security x) (cfg_antispam x)
    (cfg_relay x).
Definition upd_cfg_security (g : SecurityConfig -> SecurityConfig) (x : ServerWallConfig) : ServerWallConfig :=
  mkServerWall (cfg_global x) (cfg_webui x) (cfg_acme x) (cfg_frontend x) (cfg_backend_pool x)
    (cfg_waf_ruleset x) (cfg_security_profiles x) (cfg_log_profiles x) (g (cfg_security x)) (cfg_antispam x)
    (cfg_relay x).
Definition upd_cfg_antispam (g : AntispamConfig -> AntispamConfig) (x : ServerWallConfig) : ServerWallConfig :=
  mkServerWall (cfg_global x) (cfg_webui x) (cfg_acme x) (cfg_frontend x) (cfg_backend_pool x)
    (cfg_waf_ruleset x) (cfg_security_profiles x) (cfg_log_profiles x) (cfg_security x) (g (cfg_antispam x))
    (cfg_relay x).
Definition upd_cfg_relay (g : RelayConfig -> RelayConfig) (x : ServerWallConfig) : ServerWallConfig :=
  mkServerWall (cfg_global x) (cfg_webui x) (cfg_acme x) (cfg_frontend x) (cfg_backend_pool x)
    (cfg_waf_ruleset x) (cfg_security_profiles x) (cfg_log_profiles x) (cfg_security x) (cfg_antispam x)
    (g (cfg_relay x)).

Definition upd_sec_tls (g : SecurityTlsConfig -> SecurityTlsConfig) (x : SecurityConfig) : SecurityConfig :=
  mkSecurity (sec_enabled x) (g (sec_tls x)) (sec_acl x) (sec_rate_limit x) (sec_geo x)
    (sec_bot_detection x) (sec_cookies x) (sec_headers x).
Definition upd_sec_acl (g : SecurityAclConfig -> SecurityAclConfig) (x : SecurityConfig) : SecurityConfig :=
  mkSecurity (sec_enabled x) (sec_tls x) (g (sec_acl x)) (sec_rate_limit x) (sec_geo x)
    (sec_bot_detection x) (sec_cookies x) (sec_headers x).
Definition upd_sec_rate_limit (g : list RateLimitConfig -> list RateLimitConfig) (x : SecurityConfig) : SecurityConfig :=
  mkSecurity (sec_enabled x) (sec_tls x) (sec_acl x) (g (sec_rate_limit x)) (sec_geo x)
    (sec_bot_detection x) (sec_cookies x) (sec_headers x).
Definition upd_sec_geo (g : GeoConfig -> GeoConfig) (x : SecurityConfig) : SecurityConfig :=
  mkSecurity (sec_enabled x) (sec_tls x) (sec_acl x) (sec_rate_limit x) (g (sec_geo x))
    (sec_bot_detection x) (sec_cookies x) (sec_headers x).
Definition upd_sec_bot_detection (g : BotDetectionConfig -> BotDetectionConfig) (x : SecurityConfig) : SecurityConfig :=
  mkSecurity (sec_enabled x) (sec_tls x) (sec_acl x) (sec_rate_limit x) (sec_geo x)
    (g (sec_bot_detection x)) (sec_cookies x) (sec_headers x).
Definition upd_sec_cookies (g : CookieSecurityConfig -> CookieSecurityConfig) (x : SecurityConfig) : SecurityConfig :=
  mkSecurity (sec_enabled x) (sec_tls x) (sec_acl x) (sec_rate_limit x) (sec_geo x) (sec_bot_detection x)
    (g (sec_cookies x)) (sec_headers x).
Definition upd_sec_headers (g : SecurityHeadersConfig -> SecurityHeadersConfig) (x : SecurityConfig) : SecurityConfig :=
  mkSecurity (sec_enabled x) (sec_tls x) (sec_acl x) (sec_rate_limit x) (sec_geo x) (sec_bot_detection x)
    (sec_cookies x) (g (sec_headers x)).

Definition upd_sacl_ip (g : IpAclConfig -> IpAclConfig) (x : SecurityAclConfig) : SecurityAclConfig :=
  mkSecurityAcl (sacl_default x) (sacl_acl_bypass_waf x) (g (sacl_ip x)) (sacl_domain x)
    (sacl_path_patterns x).

Definition upd_ia_allow (g : list bytes -> list bytes) (x : IpAclConfig) : IpAclConfig :=
  mkIpAcl (g (ia_allow x)) (ia_block x).
Definition upd_ia_block (g : list bytes -> list bytes) (x : IpAclConfig) : IpAclConfig :=
  mkIpAcl (ia_allow x) (g (ia_block x)).

Definition upd_fc_enabled (g : bool -> bool) (x : AntispamConfig) : AntispamConfig :=
  mkAntispamConfig (g (fc_enabled x)) (possible_spam_threshold x) (definite_spam_threshold x)
    (max_check_duration x) (fc_allow x) (fc_block x) (fc_dnsbl x) (fc_spf x) (fc_rdns x)
    (fc_residential_spf x) (fc_helo x) (fc_rate_limit x) (fc_early_talker x) (fc_dkim x) (fc_dmarc x)
    (fc_content x) (fc_url_analysis x) (fc_attachment x) (fc_html x) (fc_header_analysis x) (fc_charset x)
    (fc_bulk x) (fc_ratio x) (fc_antivirus x) (domain_overrides x).
Definition upd_possible_spam_threshold (g : Z -> Z) (x : AntispamConfig) : AntispamConfig :=
  mkAntispamConfig (fc_enabled x) (g (possible_spam_threshold x)) (definite_spam_threshold x)
    (max_check_duration x) (fc_allow x) (fc_block x) (fc_dnsbl x) (fc_spf x) (fc_rdns x)
    (fc_residential_spf x) (fc_helo x) (fc_rate_limit x) (fc_early_talker x) (fc_dkim x) (fc_dmarc x)
    (fc_content x) (fc_url_analysis x) (fc_attachment x) (fc_html x) (fc_header_analysis x) (fc_charset x)
    (fc_bulk x) (fc_ratio x) (fc_antivirus x) (domain_overrides x).
Definition upd_definite_spam_threshold (g : Z -> Z) (x : AntispamConfig) : AntispamConfig :=
  mkAntispamConfig (fc_enabled x) (possible_spam_threshold x) (g (definite_spam_threshold x))
    (max_check_duration x) (fc_allow x) (fc_block x) (fc_dnsbl x) (fc_spf x) (fc_rdns x)
    (fc_residential_spf x) (fc_helo x) (fc_rate_limit x) (fc_early_talker x) (fc_dkim x) (fc_dmarc x)
    (fc_content x) (fc_url_analysis x) (fc_attachment x) (fc_html x) (fc_header_analysis x) (fc_charset x)
    (fc_bulk x) (fc_ratio x) (fc_antivirus x) (domain_overrides x).
Definition upd_max_check_duration (g : bytes -> bytes) (x : AntispamConfig) : AntispamConfig :=
  mkAntispamConfig (fc_enabled x) (possible_spam_threshold x) (definite_spam_threshold x)
    (g (max_check_duration x)) (fc_allow x) (fc_block x) (fc_dnsbl x) (fc_spf x) (fc_rdns x)
    (fc_residential_spf x) (fc_helo x) (fc_rate_limit x) (fc_early_talker x) (fc_dkim x) (fc_dmarc x)
    (fc_content x) (fc_url_analysis x) (fc_attachment x) (fc_html x) (fc_header_analysis x) (fc_charset x)
    (fc_bulk x) (fc_ratio x) (fc_antivirus x) (domain_overrides x).
Definition upd_fc_allow (g : AntispamListConfig -> AntispamListConfig) (x : AntispamConfig) : AntispamConfig :=
  mkAntispamConfig (fc_enabled x) (possible_spam_threshold x) (definite_spam_threshold x)
    (max_check_duration x) (g (fc_allow x)) (fc_block x) (fc_dnsbl x) (fc_spf x) (fc_rdns x)
    (fc_residential_spf x) (fc_helo x) (fc_rate_limit x) (fc_early_talker x) (fc_dkim x) (fc_dmarc x)
    (fc_content x) (fc_url_analysis x) (fc_attachment x) (fc_html x) (fc_header_analysis x) (fc_charset x)
    (fc_bulk x) (fc_ratio x) (fc_antivirus x) (domain_overrides x).
Definition upd_fc_block (g : AntispamListConfig -> AntispamListConfig) (x : AntispamConfig) : AntispamConfig :=
  mkAntispamConfig (fc_enabled x) (possible_spam_threshold x) (definite_spam_threshold x)
    (max_check_duration x) (fc_allow x) (g (fc_block x)) (fc_dnsbl x) (fc_spf x) (fc_rdns x)
    (fc_residential_spf x) (fc_helo x) (fc_rate_limit x) (fc_early_talker x) (fc_dkim x) (fc_dmarc x)
    (fc_content x) (fc_url_analysis x) (fc_attachment x) (fc_html x) (fc_header_analysis x) (fc_charset x)
    (fc_bulk x) (fc_ratio x) (fc_antivirus x) (domain_overrides x).
Definition upd_fc_dnsbl (g : DnsblConfig -> DnsblConfig) (x : AntispamConfig) : AntispamConfig :=
  mkAntispamConfig (fc_enabled x) (possible_spam_threshold x) (definite_spam_threshold x)
    (max_check_duration x) (fc_allow x) (fc_block x) (g (fc_dnsbl x)) (fc_spf x) (fc_rdns x)
    (fc_residential_spf x) (fc_helo x) (fc_rate_limit x) (fc_early_talker x) (fc_dkim x) (fc_dmarc x)
    (fc_content x) (fc_url_analysis x) (fc_attachment x) (fc_html x) (fc_header_analysis x) (fc_charset x)
    (fc_bulk x) (fc_ratio x) (fc_antivirus x) (domain_overrides x).
Definition upd_fc_spf (g : SpfConfig -> SpfConfig) (x : AntispamConfig) : AntispamConfig :=
  mkAntispamConfig (fc_enabled x) (possible_spam_threshold x) (definite_spam_threshold x)
    (max_check_duration x) (fc_allow x) (fc_block x) (fc_dnsbl x) (g (fc_spf x)) (fc_rdns x)
    (fc_residential_spf x) (fc_helo x) (fc_rate_limit x) (fc_early_talker x) (fc_dkim x) (fc_dmarc x)
    (fc_content x) (fc_url_analysis x) (fc_attachment x) (fc_html x) (fc_header_analysis x) (fc_charset x)
    (fc_bulk x) (fc_ratio x) (fc_antivirus x) (domain_overrides x).
Definition upd_fc_rdns (g : CheckWeightConfig -> CheckWeightConfig) (x : AntispamConfig) : AntispamConfig :=
  mkAntispamConfig (fc_enabled x) (possible_spam_threshold x) (definite_spam_threshold x)
    (max_check_duration x) (fc_allow x) (fc_block x) (fc_dnsbl x) (fc_spf x) (g (fc_rdns x))
    (fc_residential_spf x) (fc_helo x) (fc_rate_limit x) (fc_early_talker x) (fc_dkim x) (fc_dmarc x)
    (fc_content x) (fc_url_analysis x) (fc_attachment x) (fc_html x) (fc_header_analysis x) (fc_charset x)
    (fc_bulk x) (fc_ratio x) (fc_antivirus x) (domain_overrides x).
Definition upd_fc_residential_spf (g : ResidentialSenderConfig -> ResidentialSenderConfig) (x : AntispamConfig) : AntispamConfig :=
  mkAntispamConfig (fc_enabled x) (possible_spam_threshold x) (definite_spam_threshold x)
    (max_check_duration x) (fc_allow x) (fc_block x) (fc_dnsbl x) (fc_spf x) (fc_rdns x)
    (g (fc_residential_spf x)) (fc_helo x) (fc_rate_limit x) (fc_early_talker x) (fc_dkim x) (fc_dmarc x)
    (fc_content x) (fc_url_analysis x) (fc_attachment x) (fc_html x) (fc_header_analysis x) (fc_charset x)
    (fc_bulk x) (fc_ratio x) (fc_antivirus x) (domain_overrides x).
Definition upd_fc_helo (g : CheckWeightConfig -> CheckWeightConfig) (x : AntispamConfig) : AntispamConfig :=
  mkAntispamConfig (fc_enabled x) (possible_spam_threshold x) (definite_spam_threshold x)
    (max_check_duration x) (fc_allow x) (fc_block x) (fc_dnsbl x) (fc_spf x) (fc_rdns x)
    (fc_residential_spf x) (g (fc_helo x)) (fc_rate_limit x) (fc_early_talker x) (fc_dkim x) (fc_dmarc x)
    (fc_content x) (fc_url_analysis x) (fc_attachment x) (fc_html x) (fc_header_analysis x) (fc_charset x)
    (fc_bulk x) (fc_ratio x) (fc_antivirus x) (domain_overrides x).
Definition upd_fc_rate_limit (g : SmtpRateLimitConfig -> SmtpRateLimitConfig) (x : AntispamConfig) : AntispamConfig :=
  mkAntispamConfig (fc_enabled x) (possible_spam_threshold x) (definite_spam_threshold x)
    (max_check_duration x) (fc_allow x) (fc_block x) (fc_dnsbl x) (fc_spf x) (fc_rdns x)
    (fc_residential_spf x) (fc_helo x) (g (fc_rate_limit x)) (fc_early_talker x) (fc_dkim x) (fc_dmarc x)
    (fc_content x) (fc_url_analysis x) (fc_attachment x) (fc_html x) (fc_header_analysis x) (fc_charset x)
    (fc_bulk x) (fc_ratio x) (fc_antivirus x) (domain_overrides x).
Definition upd_fc_early_talker (g : CheckWeightConfig -> CheckWeightConfig) (x : AntispamConfig) : AntispamConfig :=
  mkAntispamConfig (fc_enabled x) (possible_spam_threshold x) (definite_spam_threshold x)
    (max_check_duration x) (fc_allow x) (fc_block x) (fc_dnsbl x) (fc_spf x) (fc_rdns x)
    (fc_residential_spf x) (fc_helo x) (fc_rate_limit x) (g (fc_early_talker x)) (fc_dkim x) (fc_dmarc x)
    (fc_content x) (fc_url_analysis x) (fc_attachment x) (fc_html x) (fc_header_analysis x) (fc_charset x)
    (fc_bulk x) (fc_ratio x) (fc_antivirus x) (domain_overrides x).
Definition upd_fc_dkim (g : CheckWeightConfig -> CheckWeightConfig) (x : AntispamConfig) : AntispamConfig :=
  mkAntispamConfig (fc_enabled x) (possible_spam_threshold x) (definite_spam_threshold x)
    (max_check_duration x) (fc_allow x) (fc_block x) (fc_dnsbl x) (fc_spf x) (fc_rdns x)
    (fc_residential_spf x) (fc_helo x) (fc_rate_limit x) (fc_early_talker x) (g (fc_dkim x)) (fc_dmarc x)
    (fc_content x) (fc_url_analysis x) (fc_attachment x) (fc_html x) (fc_header_analysis x) (fc_charset x)
    (fc_bulk x) (fc_ratio x) (fc_antivirus x) (domain_overrides x).
Definition upd_fc_dmarc (g : DmarcConfig -> DmarcConfig) (x : AntispamConfig) : AntispamConfig :=
  mkAntispamConfig (fc_enabled x) (possible_spam_threshold x) (definite_spam_threshold x)
    (max_check_duration x) (fc_allow x) (fc_block x) (fc_dnsbl x) (fc_spf x) (fc_rdns x)
    (fc_residential_spf x) (fc_helo x) (fc_rate_limit x) (fc_early_talker x) (fc_dkim x) (g (fc_dmarc x))
    (fc_content x) (fc_url_analysis x) (fc_attachment x) (fc_html x) (fc_header_analysis x) (fc_charset x)
    (fc_bulk x) (fc_ratio x) (fc_antivirus x) (domain_overrides x).
Definition upd_fc_content (g : ContentCheckConfig -> ContentCheckConfig) (x : AntispamConfig) : AntispamConfig :=
  mkAntispamConfig (fc_enabled x) (possible_spam_threshold x) (definite_spam_threshold x)
    (max_check_duration x) (fc_allow x) (fc_block x) (fc_dnsbl x) (fc_spf x) (fc_rdns x)
    (fc_residential_spf x) (fc_helo x) (fc_rate_limit x) (fc_early_talker x) (fc_dkim x) (fc_dmarc x)
    (g (fc_content x)) (fc_url_analysis x) (fc_attachment x) (fc_html x) (fc_header_analysis x)
    (fc_charset x) (fc_bulk x) (fc_ratio x) (fc_antivirus x) (domain_overrides x).
Definition upd_fc_url_analysis (g : UrlAnalysisConfig -> UrlAnalysisConfig) (x : AntispamConfig) : AntispamConfig :=
  mkAntispamConfig (fc_enabled x) (possible_spam_threshold x) (definite_spam_threshold x)
    (max_check_duration x) (fc_allow x) (fc_block x) (fc_dnsbl x) (fc_spf x) (fc_rdns x)
    (fc_residential_spf x) (fc_helo x) (fc_rate_limit x) (fc_early_talker x) (fc_dkim x) (fc_dmarc x)
    (fc_content x) (g (fc_url_analysis x)) (fc_attachment x) (fc_html x) (fc_header_analysis x)
    (fc_charset x) (fc_bulk x) (fc_ratio x) (fc_antivirus x) (domain_overrides x).
Definition upd_fc_attachment (g : AttachmentConfig -> AttachmentConfig) (x : AntispamConfig) : AntispamConfig :=
  mkAntispamConfig (fc_enabled x) (possible_spam_threshold x) (definite_spam_threshold x)
    (max_check_duration x) (fc_allow x) (fc_block x) (fc_dnsbl x) (fc_spf x) (fc_rdns x)
    (fc_residential_spf x) (fc_helo x) (fc_rate_limit x) (fc_early_talker x) (fc_dkim x) (fc_dmarc x)
    (fc_content x) (fc_url_analysis x) (g (fc_attachment x)) (fc_html x) (fc_header_analysis x)
    (fc_charset x) (fc_bulk x) (fc_ratio x) (fc_antivirus x) (domain_overrides x).
Definition upd_fc_html (g : CheckWeightConfig -> CheckWeightConfig) (x : AntispamConfig) : AntispamConfig :=
  mkAntispamConfig (fc_enabled x) (possible_spam_threshold x) (definite_spam_threshold x)
    (max_check_duration x) (fc_allow x) (fc_block x) (fc_dnsbl x) (fc_spf x) (fc_rdns x)
    (fc_residential_spf x) (fc_helo x) (fc_rate_limit x) (fc_early_talker x) (fc_dkim x) (fc_dmarc x)
    (fc_content x) (fc_url_analysis x) (fc_attachment x) (g (fc_html x)) (fc_header_analysis x)
    (fc_charset x) (fc_bulk x) (fc_ratio x) (fc_antivirus x) (domain_overrides x).
Definition upd_fc_header_analysis (g : CheckWeightConfig -> CheckWeightConfig) (x : AntispamConfig) : AntispamConfig :=
  mkAntispamConfig (fc_enabled x) (possible_spam_threshold x) (definite_spam_threshold x)
    (max_check_duration x) (fc_allow x) (fc_block x) (fc_dnsbl x) (fc_spf x) (fc_rdns x)
    (fc_residential_spf x) (fc_helo x) (fc_rate_limit x) (fc_early_talker x) (fc_dkim x) (fc_dmarc x)
    (fc_content x) (fc_url_analysis x) (fc_attachment x) (fc_html x) (g (fc_header_analysis x))
    (fc_charset x) (fc_bulk x) (fc_ratio x) (fc_antivirus x) (domain_overrides x).
Definition upd_fc_charset (g : CheckWeightConfig -> CheckWeightConfig) (x : AntispamConfig) : AntispamConfig :=
  mkAntispamConfig (fc_enabled x) (possible_spam_threshold x) (definite_spam_threshold x)
    (max_check_duration x) (fc_allow x) (fc_block x) (fc_dnsbl x) (fc_spf x) (fc_rdns x)
    (fc_residential_spf x) (fc_helo x) (fc_rate_limit x) (fc_early_talker x) (fc_dkim x) (fc_dmarc x)
    (fc_content x) (fc_url_analysis x) (fc_attachment x) (fc_html x) (fc_header_analysis x)
    (g (fc_charset x)) (fc_bulk x) (fc_ratio x) (fc_antivirus x) (domain_overrides x).
Definition upd_fc_bulk (g : CheckWeightConfig -> CheckWeightConfig) (x : AntispamConfig) : AntispamConfig :=
  mkAntispamConfig (fc_enabled x) (possible_spam_threshold x) (definite_spam_threshold x)
    (max_check_duration x) (fc_allow x) (fc_block x) (fc_dnsbl x) (fc_spf x) (fc_rdns x)
    (fc_residential_spf x) (fc_helo x) (fc_rate_limit x) (fc_early_talker x) (fc_dkim x) (fc_dmarc x)
    (fc_content x) (fc_url_analysis x) (fc_attachment x) (fc_html x) (fc_header_analysis x) (fc_charset x)
    (g (fc_bulk x)) (fc_ratio x) (fc_antivirus x) (domain_overrides x).
Definition upd_fc_ratio (g : CheckWeightConfig -> CheckWeightConfig) (x : AntispamConfig) : AntispamConfig :=
  mkAntispamConfig (fc_enabled x) (possible_spam_threshold x) (definite_spam_threshold x)
    (max_check_duration x) (fc_allow x) (fc_block x) (fc_dnsbl x) (fc_spf x) (fc_rdns x)
    (fc_residential_spf x) (fc_helo x) (fc_rate_limit x) (fc_early_talker x) (fc_dkim x) (fc_dmarc x)
    (fc_content x) (fc_url_analysis x) (fc_attachment x) (fc_html x) (fc_header_analysis x) (fc_charset x)
    (fc_bulk x) (g (fc_ratio x)) (fc_antivirus x) (domain_overrides x).
Definition upd_fc_antivirus (g : AntivirusConfig -> AntivirusConfig) (x : AntispamConfig) : AntispamConfig :=
  mkAntispamConfig (fc_enabled x) (possible_spam_threshold x) (definite_spam_threshold x)
    (max_check_duration x) (fc_allow x) (fc_block x) (fc_dnsbl x) (fc_spf x) (fc_rdns x)
    (fc_residential_spf x) (fc_helo x) (fc_rate_limit x) (fc_early_talker x) (fc_dkim x) (fc_dmarc x)
    (fc_content x) (fc_url_analysis x) (fc_attachment x) (fc_html x) (fc_header_analysis x) (fc_charset x)
    (fc_bulk x) (fc_ratio x) (g (fc_antivirus x)) (domain_overrides x).
Definition upd_domain_overrides (g : list DomainOverride -> list DomainOverride) (x : AntispamConfig) : AntispamConfig :=
  mkAntispamConfig (fc_enabled x) (possible_spam_threshold x) (definite_spam_threshold x)
    (max_check_duration x) (fc_allow x) (fc_block x) (fc_dnsbl x) (fc_spf x) (fc_rdns x)
    (fc_residential_spf x) (fc_helo x) (fc_rate_limit x) (fc_early_talker x) (fc_dkim x) (fc_dmarc x)
    (fc_content x) (fc_url_analysis x) (fc_attachment x) (fc_html x) (fc_header_analysis x) (fc_charset x)
    (fc_bulk x) (fc_ratio x) (fc_antivirus x) (g (domain_overrides x)).

Definition upd_li_ips (g : list bytes -> list bytes) (x : AntispamListConfig) : AntispamListConfig :=
  mkListConfig (g (li_ips x)) (li_sender_domains x) (li_senders x) (li_recipients x).
Definition upd_li_sender_domains (g : list bytes -> list bytes) (x : AntispamListConfig) : AntispamListConfig :=
  mkListConfig (li_ips x) (g (li_sender_domains x)) (li_senders x) (li_recipients x).
Definition upd_li_senders (g : list bytes -> list bytes) (x : AntispamListConfig) : AntispamListConfig :=
  mkListConfig (li_ips x) (li_sender_domains x) (g (li_senders x)) (li_recipients x).
Definition upd_li_recipients (g : list bytes -> list bytes) (x : AntispamListConfig) : AntispamListConfig :=
  mkListConfig (li_ips x) (li_sender_domains x) (li_senders x) (g (li_recipients x)).

Definition upd_dn_enabled (g : bool -> bool) (x : DnsblConfig) : DnsblConfig :=
  mkDnsblConfig (g (dn_enabled x)) (dn_weight x) (dn_timeout x) (dn_lists x).
Definition upd_dn_weight (g : f64 -> f64) (x : DnsblConfig) : DnsblConfig :=
  mkDnsblConfig (dn_enabled x) (g (dn_weight x)) (dn_timeout x) (dn_lists x).
Definition upd_dn_lists (g : list DnsblListEntry -> list DnsblListEntry) (x : DnsblConfig) : DnsblConfig :=
  mkDnsblConfig (dn_enabled x) (dn_weight x) (dn_timeout x) (g (dn_lists x)).

Definition upd_sf_enabled (g : bool -> bool) (x : SpfConfig) : SpfConfig :=
  mkSpfConfig (g (sf_enabled x)) (sf_weight x) (sf_severity x).
Definition upd_sf_weight (g : f64 -> f64) (x : SpfConfig) : SpfConfig :=
  mkSpfConfig (sf_enabled x) (g (sf_weight x)) (sf_severity x).
Definition upd_sf_severity (g : SpfSeverityConfig -> SpfSeverityConfig) (x : SpfConfig) : SpfConfig :=
  mkSpfConfig (sf_enabled x) (sf_weight x) (g (sf_severity x)).

Definition upd_cw_enabled (g : bool -> bool) (x : CheckWeightConfig) : CheckWeightConfig :=
  mkWeight (g (cw_enabled x)) (cw_weight x).
Definition upd_cw_weight (g : f64 -> f64) (x : CheckWeightConfig) : CheckWeightConfig :=
  mkWeight (cw_enabled x) (g (cw_weight x)).

Definition upd_dm_enabled (g : bool -> bool) (x : DmarcConfig) : DmarcConfig :=
  mkDmarcConfig (g (dm_enabled x)) (dm_weight x) (dm_honor_reject_policy x).
Definition upd_dm_weight (g : f64 -> f64) (x : DmarcConfig) : DmarcConfig :=
  mkDmarcConfig (dm_enabled x) (g (dm_weight x)) (dm_honor_reject_policy x).

Definition upd_ct_enabled (g : bool -> bool) (x : ContentCheckConfig) : ContentCheckConfig :=
  mkContentConfig (g (ct_enabled x)) (ct_weight x) (ct_rules_file x).
Definition upd_ct_weight (g : f64 -> f64) (x : ContentCheckConfig) : ContentCheckConfig :=
  mkContentConfig (ct_enabled x) (g (ct_weight x)) (ct_rules_file x).

Definition upd_ua_enabled (g : bool -> bool) (x : UrlAnalysisConfig) : UrlAnalysisConfig :=
  mkUrlConfig (g (ua_enabled x)) (ua_weight x) (ua_surbl_zones x).
Definition upd_ua_weight (g : f64 -> f64) (x : UrlAnalysisConfig) : UrlAnalysisConfig :=
  mkUrlConfig (ua_enabled x) (g (ua_weight x)) (ua_surbl_zones x).
Definition upd_ua_surbl_zones (g : list bytes -> list bytes) (x : UrlAnalysisConfig) : UrlAnalysisConfig :=
  mkUrlConfig (ua_enabled x) (ua_weight x) (g (ua_surbl_zones x)).

Definition upd_ac_enabled (g : bool -> bool) (x : AttachmentConfig) : AttachmentConfig :=
  mkAttachConfig (g (ac_enabled x)) (ac_weight x) (ac_dangerous_extensions x).
Definition upd_ac_weight (g : f64 -> f64) (x : AttachmentConfig) : AttachmentConfig :=
  mkAttachConfig (ac_enabled x) (g (ac_weight x)) (ac_dangerous_extensions x).

Definition upd_av_enabled (g : bool -> bool) (x : AntivirusConfig) : AntivirusConfig :=
  mkAvConfig (g (av_enabled x)) (av_cfg_weight x) (av_reject_on_virus x) (av_scanners x)
    (av_on_scanner_error x) (av_on_scanner_timeout x).
Definition upd_av_cfg_weight (g : f64 -> f64) (x : AntivirusConfig) : AntivirusConfig :=
  mkAvConfig (av_enabled x) (g (av_cfg_weight x)) (av_reject_on_virus x) (av_scanners x)
    (av_on_scanner_error x) (av_on_scanner_timeout x).
Definition upd_av_reject_on_virus (g : bool -> bool) (x : AntivirusConfig) : AntivirusConfig :=
  mkAvConfig (av_enabled x) (av_cfg_weight x) (g (av_reject_on_virus x)) (av_scanners x)
    (av_on_scanner_error x) (av_on_scanner_timeout x).
Definition upd_av_scanners (g : list ScannerConfig -> list ScannerConfig) (x : AntivirusConfig) : AntivirusConfig :=
  mkAvConfig (av_enabled x) (av_cfg_weight x) (av_reject_on_virus x) (g (av_scanners x))
    (av_on_scanner_error x) (av_on_scanner_timeout x).
Definition upd_av_on_scanner_error (g : bytes -> bytes) (x : AntivirusConfig) : AntivirusConfig :=
  mkAvConfig (av_enabled x) (av_cfg_weight x) (av_reject_on_virus x) (av_scanners x)
    (g (av_on_scanner_error x)) (av_on_scanner_timeout x).
Definition upd_av_on_scanner_timeout (g : bytes -> bytes) (x : AntivirusConfig) : AntivirusConfig :=
  mkAvConfig (av_enabled x) (av_cfg_weight x) (av_reject_on_virus x) (av_scanners x)
    (av_on_scanner_error x) (g (av_on_scanner_timeout x)).

Definition upd_rs_enabled (g : bool -> bool) (x : ResidentialSenderConfig) : ResidentialSenderConfig :=
  mkResidentialConfig (g (rs_enabled x)) (rs_reject x) (rs_weight x) (rs_check_pbl x) (rs_pbl_zone x)
    (rs_softfail_triggers x) (rs_neutral_triggers x).
Definition upd_rs_reject (g : bool -> bool) (x : ResidentialSenderConfig) : ResidentialSenderConfig :=
  mkResidentialConfig (rs_enabled x) (g (rs_reject x)) (rs_weight x) (rs_check_pbl x) (rs_pbl_zone x)
    (rs_softfail_triggers x) (rs_neutral_triggers x).
Definition upd_rs_weight (g : f64 -> f64) (x : ResidentialSenderConfig) : ResidentialSenderConfig :=
  mkResidentialConfig (rs_enabled x) (rs_reject x) (g (rs_weight x)) (rs_check_pbl x) (rs_pbl_zone x)
    (rs_softfail_triggers x) (rs_neutral_triggers x).
Definition upd_rs_check_pbl (g : bool -> bool) (x : ResidentialSenderConfig) : ResidentialSenderConfig :=
  mkResidentialConfig (rs_enabled x) (rs_reject x) (rs_weight x) (g (rs_check_pbl x)) (rs_pbl_zone x)
    (rs_softfail_triggers x) (rs_neutral_triggers x).
Definition upd_rs_pbl_zone (g : bytes -> bytes) (x : ResidentialSenderConfig) : ResidentialSenderConfig :=
  mkResidentialConfig (rs_enabled x) (rs_reject x) (rs_weight x) (rs_check_pbl x) (g (rs_pbl_zone x))
    (rs_softfail_triggers x) (rs_neutral_triggers x).
Definition upd_rs_softfail_triggers (g : bool -> bool) (x : ResidentialSenderConfig) : ResidentialSenderConfig :=
  mkResidentialConfig (rs_enabled x) (rs_reject x) (rs_weight x) (rs_check_pbl x) (rs_pbl_zone x)
    (g (rs_softfail_triggers x)) (rs_neutral_triggers x).
Definition upd_rs_neutral_triggers (g : bool -> bool) (x : ResidentialSenderConfig) : ResidentialSenderConfig :=
  mkResidentialConfig (rs_enabled x) (rs_reject x) (rs_weight x) (rs_check_pbl x) (rs_pbl_zone x)
    (rs_softfail_triggers x) (g (rs_neutral_triggers x)).

Definition upd_sv_fail (g : f64 -> f64) (x : SpfSeverityConfig) : SpfSeverityConfig :=
  mkSpfSeverityConfig (g (sv_fail x)) (sv_softfail x) (sv_neutral x) (sv_none x).
Definition upd_sv_softfail (g : f64 -> f64) (x : SpfSeverityConfig) : SpfSeverityConfig :=
  mkSpfSeverityConfig (sv_fail x) (g (sv_softfail x)) (sv_neutral x) (sv_none x).
Definition upd_sv_neutral (g : f64 -> f64) (x : SpfSeverityConfig) : SpfSeverityConfig :=
  mkSpfSeverityConfig (sv_fail x) (sv_softfail x) (g (sv_neutral x)) (sv_none x).
Definition upd_sv_none (g : f64 -> f64) (x : SpfSeverityConfig) : SpfSeverityConfig :=
  mkSpfSeverityConfig (sv_fail x) (sv_softfail x) (sv_neutral x) (g (sv_none x)).

Definition upd_rel_trusted_hosts (g : TrustedHostsConfig -> TrustedHostsConfig) (x : RelayConfig) : RelayConfig :=
  mkRelayConfig (rel_enabled x) (rel_listen x) (rel_hostname x) (rel_spool_dir x) (rel_max_queue_size x)
    (rel_delivery_threads x) (g (rel_trusted_hosts x)) (rel_retry x) (rel_tls x) (rel_dkim x)
    (rel_dmarc_publish x) (rel_spf_publish x) (rel_outbound_policy x) (rel_bounce x).
Definition upd_rel_dkim (g : RelayDkimConfig -> RelayDkimConfig) (x : RelayConfig) : RelayConfig :=
  mkRelayConfig (rel_enabled x) (rel_listen x) (rel_hostname x) (rel_spool_dir x) (rel_max_queue_size x)
    (rel_delivery_threads x) (rel_trusted_hosts x) (rel_retry x) (rel_tls x) (g (rel_dkim x))
    (rel_dmarc_publish x) (rel_spf_publish x) (rel_outbound_policy x) (rel_bounce x).
Definition upd_rel_dmarc_publish (g : RelayDmarcPublishConfig -> RelayDmarcPublishConfig) (x : RelayConfig) : RelayConfig :=
  mkRelayConfig (rel_enabled x) (rel_listen x) (rel_hostname x) (rel_spool_dir x) (rel_max_queue_size x)
    (rel_delivery_threads x) (rel_trusted_hosts x) (rel_retry x) (rel_tls x) (rel_dkim x)
    (g (rel_dmarc_publish x)) (rel_spf_publish x) (rel_outbound_policy x) (rel_bounce x).
Definition upd_rel_spf_publish (g : RelaySpfPublishConfig -> RelaySpfPublishConfig) (x : RelayConfig) : RelayConfig :=
  mkRelayConfig (rel_enabled x) (rel_listen x) (rel_hostname x) (rel_spool_dir x) (rel_max_queue_size x)
    (rel_delivery_threads x) (rel_trusted_hosts x) (rel_retry x) (rel_tls x) (rel_dkim x)
    (rel_dmarc_publish x) (g (rel_spf_publish x)) (rel_outbound_policy x) (rel_bounce x).

Definition upd_th_hosts (g : list bytes -> list bytes) (x : TrustedHostsConfig) : TrustedHostsConfig :=
  mkTrustedConfig (g (th_hosts x)) (th_require_tls x).

Definition upd_rd_domains (g : list DkimDomainConfig -> list DkimDomainConfig) (x : RelayDkimConfig) : RelayDkimConfig :=
  mkRelayDkim (rd_enabled x) (g (rd_domains x)).

Definition upd_rdp_domains (g : list DmarcPolicyDomain -> list DmarcPolicyDomain) (x : RelayDmarcPublishConfig) : RelayDmarcPublishConfig :=
  mkDmarcPublish (g (rdp_domains x)).

Definition upd_rsp_domains (g : list SpfDomainConfig -> list SpfDomainConfig) (x : RelaySpfPublishConfig) : RelaySpfPublishConfig :=
  mkSpfPublish (g (rsp_domains x)).

Definition upd_pc_name (g : bytes -> bytes) (x : BackendPoolConfig) : BackendPoolConfig :=
  mkPoolConfig (g (pc_name x)) (health_check_interval x) (health_check_timeout x) (health_check_type x)
    (health_check_path x) (health_check_expect x) (health_check_tls x) (health_check_ignore_cert x)
    (health_check_method x) (pc_backend x).
Definition upd_pc_backend (g : list BackendConfig -> list BackendConfig) (x : BackendPoolConfig) : BackendPoolConfig :=
  mkPoolConfig (pc_name x) (health_check_interval x) (health_check_timeout x) (health_check_type x)
    (health_check_path x) (health_check_expect x) (health_check_tls x) (health_check_ignore_cert x)
    (health_check_method x) (g (pc_backend x)).

Definition upd_fr_name (g : bytes -> bytes) (x : FrontendConfig) : FrontendConfig :=
  mkFrontend (g (fr_name x)) (fr_protocol x) (fr_listen x) (fr_backend_pool x) (fr_tls_cert x)
    (fr_tls_chain x) (fr_tls_key x) (fr_tls_key_password x) (fr_tls_pfx x) (fr_tls_pfx_password x)
    (fr_tls_min_version x) (fr_tls_ciphers x) (fr_balancer x) (fr_waf_enabled x) (fr_waf_ruleset x)
    (fr_security_profile x) (fr_log_file x) (fr_log_format x) (fr_access_log x) (fr_log_profile x)
    (fr_headers x) (fr_smtp_headers x) (fr_acl x) (fr_max_connections x) (session_cookie x).

Definition upd_rs_name (g : bytes -> bytes) (x : WafRulesetConfig) : WafRulesetConfig :=
  mkRuleset (g (rs_name x)) (rs_mode x) (rs_anomaly_threshold x) (rs_rules_dir x) (rs_paranoia_level x)
    (rs_exclusions x) (rs_custom_rules x).

Definition upd_dp_domain (g : bytes -> bytes) (x : DmarcPolicyDomain) : DmarcPolicyDomain :=
  mkDmarcDomain (g (dp_domain x)) (dp_policy x) (dp_subdomain_policy x) (dp_pct x) (dp_rua x) (dp_ruf x)
    (dp_adkim x) (dp_aspf x).

Definition upd_sd_domain (g : bytes -> bytes) (x : SpfDomainConfig) : SpfDomainConfig :=
  mkSpfDomain (g (sd_domain x)) (sd_mechanisms x) (sd_all x).

Definition upd_do_domain (g : bytes -> bytes) (x : DomainOverride) : DomainOverride :=
  mkOverride (g (do_domain x)) (do_possible_spam_threshold x) (do_definite_spam_threshold x)
    (do_disabled_checks x).

Definition upd_webui_tls_cert (g : option bytes -> option bytes) (x : WebuiConfig) : WebuiConfig :=
  mkWebui (webui_enabled x) (webui_listen x) (g (webui_tls_cert x)) (webui_tls_key x) (tokens_file x)
    (web_users_file x) (allowed_origins x) (webui_allow_list x).
Definition upd_webui_tls_key (g : option bytes -> option bytes) (x : WebuiConfig) : WebuiConfig :=
  mkWebui (webui_enabled x) (webui_listen x) (webui_tls_cert x) (g (webui_tls_key x)) (tokens_file x)
    (web_users_file x) (allowed_origins x) (webui_allow_list x).
Definition upd_webui_allow_list (g : list bytes -> list bytes) (x : WebuiConfig) : WebuiConfig :=
  mkWebui (webui_enabled x) (webui_listen x) (webui_tls_cert x) (webui_tls_key x) (tokens_file x)
    (web_users_file x) (allowed_origins x) (g (webui_allow_list x)).

Definition upd_geo_database_path (g : option bytes -> option bytes) (x : GeoConfig) : GeoConfig :=
  mkGeoConfig (geo_enabled x) (g (geo_database_path x)) (geo_block_countries x) (geo_allow_countries x).

Definition upd_sp_geo (g : GeoConfig -> GeoConfig) (x : SecurityProfile) : SecurityProfile :=
  mkSecProfile (sp_name x) (sp_description x) (sp_profile_type x) (sp_waf_enabled x) (sp_waf_ruleset x)
    (sp_headers x) (sp_cookies x) (sp_bot_detection x) (g (sp_geo x)) (sp_antispam x) (sp_min_version x)
    (sp_cipher_suites x) (sp_hsts_max_age x) (sp_hsts_include_subdomains x) (sp_ocsp_stapling x).


(** ** What a configuration reads back as *)

(** A path that is cleared comes back as its default. *)
Definition settle_geo (g : GeoConfig) : GeoConfig :=
  upd_geo_database_path (fun p => match p with Some _ => p | None => default_geoip_db_path end) g.
Definition settle_webui (w : WebuiConfig) : WebuiConfig :=
  upd_webui_tls_cert (fun p => match p with Some _ => p | None => default_webui_cert end)
    (upd_webui_tls_key (fun p => match p with Some _ => p | None => default_webui_key end) w).
Definition settled (c : ServerWallConfig) : ServerWallConfig :=
  upd_cfg_webui settle_webui
    (upd_cfg_security (upd_sec_geo settle_geo) (upd_cfg_security_profiles (fmap (upd_sp_geo settle_geo)) c)).

Ltac solve_settle c := intros []; unfold c; rewrite settle_struct; cbn -[settle].

Lemma settle_GeoConfig g : settle GeoConfig_codec g = settle_geo g.
Proof. revert g. solve_settle GeoConfig_codec. rewrite !settle_id. by destruct geo_database_path0. Qed.

Lemma settle_WebuiConfig w : settle WebuiConfig_codec w = settle_webui w.
Proof. revert w. solve_settle WebuiConfig_codec. rewrite !settle_id. by destruct webui_tls_cert0, webui_tls_key0. Qed.

Lemma settle_SecurityConfig s : settle SecurityConfig_codec s = upd_sec_geo settle_geo s.
Proof. revert s. solve_settle SecurityConfig_codec. by rewrite settle_GeoConfig, !settle_id. Qed.

Lemma settle_SecurityProfile p : settle SecurityProfile_codec p = upd_sp_geo settle_geo p.
Proof.
  revert p. solve_settle SecurityProfile_codec. rewrite settle_GeoConfig, !settle_id.
  destruct sp_waf_ruleset0, sp_antispam0, sp_hsts_max_age0; by rewrite ?settle_id.
Qed.

Lemma settle_ServerWallConfig c : settle ServerWallConfig_codec c = settled c.
Proof.
  revert c. solve_settle ServerWallConfig_codec. rewrite settle_WebuiConfig, settle_SecurityConfig.
  assert (Hp : settle (vec SecurityProfile_codec) cfg_security_profiles0 = upd_sp_geo settle_geo <$> cfg_security_profiles0).
  { apply list_fmap_ext. intros i p _. apply settle_SecurityProfile. }
  by rewrite Hp, !settle_id.
Qed.
