(* ===== verification/Fields.v ===== *)
(** * Assignment to fields of the configuration, continued

    The fields the command line tool and the web interface assign to one by one, in the manner
    of the last part of [Schema.v]: the function on the value of the field. *)

From S2P Require Import Prelude RustStr Float64 Toml Schema.

(** [GlobalConfig] *)
Definition upd_gc_daemon_name (g : bytes -> bytes) (x : GlobalConfig) : GlobalConfig :=
  mkGlobal (g (gc_daemon_name x)) (gc_pid_file x) (gc_worker_threads x) (gc_max_connections x) (gc_log_dir x)
    (gc_cert_dir x) (gc_config_dir x) (gc_log_level x) (gc_graceful_drain_secs x).
Definition upd_gc_pid_file (g : option bytes -> option bytes) (x : GlobalConfig) : GlobalConfig :=
  mkGlobal (gc_daemon_name x) (g (gc_pid_file x)) (gc_worker_threads x) (gc_max_connections x) (gc_log_dir x)
    (gc_cert_dir x) (gc_config_dir x) (gc_log_level x) (gc_graceful_drain_secs x).
Definition upd_gc_worker_threads (g : Z -> Z) (x : GlobalConfig) : GlobalConfig :=
  mkGlobal (gc_daemon_name x) (gc_pid_file x) (g (gc_worker_threads x)) (gc_max_connections x) (gc_log_dir x)
    (gc_cert_dir x) (gc_config_dir x) (gc_log_level x) (gc_graceful_drain_secs x).
Definition upd_gc_max_connections (g : Z -> Z) (x : GlobalConfig) : GlobalConfig :=
  mkGlobal (gc_daemon_name x) (gc_pid_file x) (gc_worker_threads x) (g (gc_max_connections x)) (gc_log_dir x)
    (gc_cert_dir x) (gc_config_dir x) (gc_log_level x) (gc_graceful_drain_secs x).
Definition upd_gc_log_dir (g : bytes -> bytes) (x : GlobalConfig) : GlobalConfig :=
  mkGlobal (gc_daemon_name x) (gc_pid_file x) (gc_worker_threads x) (gc_max_connections x) (g (gc_log_dir x))
    (gc_cert_dir x) (gc_config_dir x) (gc_log_level x) (gc_graceful_drain_secs x).
Definition upd_gc_cert_dir (g : bytes -> bytes) (x : GlobalConfig) : GlobalConfig :=
  mkGlobal (gc_daemon_name x) (gc_pid_file x) (gc_worker_threads x) (gc_max_connections x) (gc_log_dir x) (g
    (gc_cert_dir x)) (gc_config_dir x) (gc_log_level x) (gc_graceful_drain_secs x).
Definition upd_gc_config_dir (g : option bytes -> option bytes) (x : GlobalConfig) : GlobalConfig :=
  mkGlobal (gc_daemon_name x) (gc_pid_file x) (gc_worker_threads x) (gc_max_connections x) (gc_log_dir x)
    (gc_cert_dir x) (g (gc_config_dir x)) (gc_log_level x) (gc_graceful_drain_secs x).
Definition upd_gc_log_level (g : bytes -> bytes) (x : GlobalConfig) : GlobalConfig :=
  mkGlobal (gc_daemon_name x) (gc_pid_file x) (gc_worker_threads x) (gc_max_connections x) (gc_log_dir x)
    (gc_cert_dir x) (gc_config_dir x) (g (gc_log_level x)) (gc_graceful_drain_secs x).
Definition upd_gc_graceful_drain_secs (g : Z -> Z) (x : GlobalConfig) : GlobalConfig :=
  mkGlobal (gc_daemon_name x) (gc_pid_file x) (gc_worker_threads x) (gc_max_connections x) (gc_log_dir x)
    (gc_cert_dir x) (gc_config_dir x) (gc_log_level x) (g (gc_graceful_drain_secs x)).

(** [AcmeConfig] *)
Definition upd_acme_enabled (g : bool -> bool) (x : AcmeConfig) : AcmeConfig :=
  mkAcme (g (acme_enabled x)) (acme_email x) (acme_directory_url x) (acme_challenge_type x) (acme_storage_dir x)
    (acme_auto_renew x) (acme_renew_before_days x) (acme_challenge_allowed_cidrs x).
Definition upd_acme_email (g : option bytes -> option bytes) (x : AcmeConfig) : AcmeConfig :=
  mkAcme (acme_enabled x) (g (acme_email x)) (acme_directory_url x) (acme_challenge_type x) (acme_storage_dir x)
    (acme_auto_renew x) (acme_renew_before_days x) (acme_challenge_allowed_cidrs x).
Definition upd_acme_directory_url (g : bytes -> bytes) (x : AcmeConfig) : AcmeConfig :=
  mkAcme (acme_enabled x) (acme_email x) (g (acme_directory_url x)) (acme_challenge_type x) (acme_storage_dir x)
    (acme_auto_renew x) (acme_renew_before_days x) (acme_challenge_allowed_cidrs x).
Definition upd_acme_challenge_type (g : bytes -> bytes) (x : AcmeConfig) : AcmeConfig :=
  mkAcme (acme_enabled x) (acme_email x) (acme_directory_url x) (g (acme_challenge_type x)) (acme_storage_dir x)
    (acme_auto_renew x) (acme_renew_before_days x) (acme_challenge_allowed_cidrs x).
Definition upd_acme_storage_dir (g : bytes -> bytes) (x : AcmeConfig) : AcmeConfig :=
  mkAcme (acme_enabled x) (acme_email x) (acme_directory_url x) (acme_challenge_type x) (g (acme_storage_dir x))
    (acme_auto_renew x) (acme_renew_before_days x) (acme_challenge_allowed_cidrs x).
Definition upd_acme_auto_renew (g : bool -> bool) (x : AcmeConfig) : AcmeConfig :=
  mkAcme (acme_enabled x) (acme_email x) (acme_directory_url x) (acme_challenge_type x) (acme_storage_dir x) (g
    (acme_auto_renew x)) (acme_renew_before_days x) (acme_challenge_allowed_cidrs x).
Definition upd_acme_renew_before_days (g : Z -> Z) (x : AcmeConfig) : AcmeConfig :=
  mkAcme (acme_enabled x) (acme_email x) (acme_directory_url x) (acme_challenge_type x) (acme_storage_dir x)
    (acme_auto_renew x) (g (acme_renew_before_days x)) (acme_challenge_allowed_cidrs x).
Definition upd_acme_challenge_allowed_cidrs (g : list bytes -> list bytes) (x : AcmeConfig) : AcmeConfig :=
  mkAcme (acme_enabled x) (acme_email x) (acme_directory_url x) (acme_challenge_type x) (acme_storage_dir x)
    (acme_auto_renew x) (acme_renew_before_days x) (g (acme_challenge_allowed_cidrs x)).

(** [FrontendConfig] *)
Definition upd_fr_protocol (g : ProtocolType -> ProtocolType) (x : FrontendConfig) : FrontendConfig :=
  mkFrontend (fr_name x) (g (fr_protocol x)) (fr_listen x) (fr_backend_pool x) (fr_tls_cert x) (fr_tls_chain x)
    (fr_tls_key x) (fr_tls_key_password x) (fr_tls_pfx x) (fr_tls_pfx_password x) (fr_tls_min_version x)
    (fr_tls_ciphers x) (fr_balancer x) (fr_waf_enabled x) (fr_waf_ruleset x) (fr_security_profile x)
    (fr_log_file x) (fr_log_format x) (fr_access_log x) (fr_log_profile x) (fr_headers x) (fr_smtp_headers x)
    (fr_acl x) (fr_max_connections x) (session_cookie x).
Definition upd_fr_listen (g : list bytes -> list bytes) (x : FrontendConfig) : FrontendConfig :=
  mkFrontend (fr_name x) (fr_protocol x) (g (fr_listen x)) (fr_backend_pool x) (fr_tls_cert x) (fr_tls_chain x)
    (fr_tls_key x) (fr_tls_key_password x) (fr_tls_pfx x) (fr_tls_pfx_password x) (fr_tls_min_version x)
    (fr_tls_ciphers x) (fr_balancer x) (fr_waf_enabled x) (fr_waf_ruleset x) (fr_security_profile x)
    (fr_log_file x) (fr_log_format x) (fr_access_log x) (fr_log_profile x) (fr_headers x) (fr_smtp_headers x)
    (fr_acl x) (fr_max_connections x) (session_cookie x).
Definition upd_fr_backend_pool (g : bytes -> bytes) (x : FrontendConfig) : FrontendConfig :=
  mkFrontend (fr_name x) (fr_protocol x) (fr_listen x) (g (fr_backend_pool x)) (fr_tls_cert x) (fr_tls_chain x)
    (fr_tls_key x) (fr_tls_key_password x) (fr_tls_pfx x) (fr_tls_pfx_password x) (fr_tls_min_version x)
    (fr_tls_ciphers x) (fr_balancer x) (fr_waf_enabled x) (fr_waf_ruleset x) (fr_security_profile x)
    (fr_log_file x) (fr_log_format x) (fr_access_log x) (fr_log_profile x) (fr_headers x) (fr_smtp_headers x)
    (fr_acl x) (fr_max_connections x) (session_cookie x).
Definition upd_fr_balancer (g : BalanceMethod -> BalanceMethod) (x : FrontendConfig) : FrontendConfig :=
  mkFrontend (fr_name x) (fr_protocol x) (fr_listen x) (fr_backend_pool x) (fr_tls_cert x) (fr_tls_chain x)
    (fr_tls_key x) (fr_tls_key_password x) (fr_tls_pfx x) (fr_tls_pfx_password x) (fr_tls_min_version x)
    (fr_tls_ciphers x) (g (fr_balancer x)) (fr_waf_enabled x) (fr_waf_ruleset x) (fr_security_profile x)
    (fr_log_file x) (fr_log_format x) (fr_access_log x) (fr_log_profile x) (fr_headers x) (fr_smtp_headers x)
    (fr_acl x) (fr_max_connections x) (session_cookie x).
Definition upd_fr_waf_enabled (g : bool -> bool) (x : FrontendConfig) : FrontendConfig :=
  mkFrontend (fr_name x) (fr_protocol x) (fr_listen x) (fr_backend_pool x) (fr_tls_cert x) (fr_tls_chain x)
    (fr_tls_key x) (fr_tls_key_password x) (fr_tls_pfx x) (fr_tls_pfx_password x) (fr_tls_min_version x)
    (fr_tls_ciphers x) (fr_balancer x) (g (fr_waf_enabled x)) (fr_waf_ruleset x) (fr_security_profile x)
    (fr_log_file x) (fr_log_format x) (fr_access_log x) (fr_log_profile x) (fr_headers x) (fr_smtp_headers x)
    (fr_acl x) (fr_max_connections x) (session_cookie x).
Definition upd_fr_max_connections (g : option Z -> option Z) (x : FrontendConfig) : FrontendConfig :=
  mkFrontend (fr_name x) (fr_protocol x) (fr_listen x) (fr_backend_pool x) (fr_tls_cert x) (fr_tls_chain x)
    (fr_tls_key x) (fr_tls_key_password x) (fr_tls_pfx x) (fr_tls_pfx_password x) (fr_tls_min_version x)
    (fr_tls_ciphers x) (fr_balancer x) (fr_waf_enabled x) (fr_waf_ruleset x) (fr_security_profile x)
    (fr_log_file x) (fr_log_format x) (fr_access_log x) (fr_log_profile x) (fr_headers x) (fr_smtp_headers x)
    (fr_acl x) (g (fr_max_connections x)) (session_cookie x).
Definition upd_fr_tls_cert (g : option bytes -> option bytes) (x : FrontendConfig) : FrontendConfig :=
  mkFrontend (fr_name x) (fr_protocol x) (fr_listen x) (fr_backend_pool x) (g (fr_tls_cert x)) (fr_tls_chain x)
    (fr_tls_key x) (fr_tls_key_password x) (fr_tls_pfx x) (fr_tls_pfx_password x) (fr_tls_min_version x)
    (fr_tls_ciphers x) (fr_balancer x) (fr_waf_enabled x) (fr_waf_ruleset x) (fr_security_profile x)
    (fr_log_file x) (fr_log_format x) (fr_access_log x) (fr_log_profile x) (fr_headers x) (fr_smtp_headers x)
    (fr_acl x) (fr_max_connections x) (session_cookie x).
Definition upd_fr_tls_key (g : option bytes -> option bytes) (x : FrontendConfig) : FrontendConfig :=
  mkFrontend (fr_name x) (fr_protocol x) (fr_listen x) (fr_backend_pool x) (fr_tls_cert x) (fr_tls_chain x) (g
    (fr_tls_key x)) (fr_tls_key_password x) (fr_tls_pfx x) (fr_tls_pfx_password x) (fr_tls_min_version x)
    (fr_tls_ciphers x) (fr_balancer x) (fr_waf_enabled x) (fr_waf_ruleset x) (fr_security_profile x)
    (fr_log_file x) (fr_log_format x) (fr_access_log x) (fr_log_profile x) (fr_headers x) (fr_smtp_headers x)
    (fr_acl x) (fr_max_connections x) (session_cookie x).
Definition upd_fr_tls_key_password (g : option bytes -> option bytes) (x : FrontendConfig) : FrontendConfig :=
  mkFrontend (fr_name x) (fr_protocol x) (fr_listen x) (fr_backend_pool x) (fr_tls_cert x) (fr_tls_chain x)
    (fr_tls_key x) (g (fr_tls_key_password x)) (fr_tls_pfx x) (fr_tls_pfx_password x) (fr_tls_min_version x)
    (fr_tls_ciphers x) (fr_balancer x) (fr_waf_enabled x) (fr_waf_ruleset x) (fr_security_profile x)
    (fr_log_file x) (fr_log_format x) (fr_access_log x) (fr_log_profile x) (fr_headers x) (fr_smtp_headers x)
    (fr_acl x) (fr_max_connections x) (session_cookie x).
Definition upd_fr_tls_pfx_password (g : option bytes -> option bytes) (x : FrontendConfig) : FrontendConfig :=
  mkFrontend (fr_name x) (fr_protocol x) (fr_listen x) (fr_backend_pool x) (fr_tls_cert x) (fr_tls_chain x)
    (fr_tls_key x) (fr_tls_key_password x) (fr_tls_pfx x) (g (fr_tls_pfx_password x)) (fr_tls_min_version x)
    (fr_tls_ciphers x) (fr_balancer x) (fr_waf_enabled x) (fr_waf_ruleset x) (fr_security_profile x)
    (fr_log_file x) (fr_log_format x) (fr_access_log x) (fr_log_profile x) (fr_headers x) (fr_smtp_headers x)
    (fr_acl x) (fr_max_connections x) (session_cookie x).
Definition upd_fr_tls_chain (g : option bytes -> option bytes) (x : FrontendConfig) : FrontendConfig :=
  mkFrontend (fr_name x) (fr_protocol x) (fr_listen x) (fr_backend_pool x) (fr_tls_cert x) (g (fr_tls_chain x))
    (fr_tls_key x) (fr_tls_key_password x) (fr_tls_pfx x) (fr_tls_pfx_password x) (fr_tls_min_version x)
    (fr_tls_ciphers x) (fr_balancer x) (fr_waf_enabled x) (fr_waf_ruleset x) (fr_security_profile x)
    (fr_log_file x) (fr_log_format x) (fr_access_log x) (fr_log_profile x) (fr_headers x) (fr_smtp_headers x)
    (fr_acl x) (fr_max_connections x) (session_cookie x).
Definition upd_fr_tls_pfx (g : option bytes -> option bytes) (x : FrontendConfig) : FrontendConfig :=
  mkFrontend (fr_name x) (fr_protocol x) (fr_listen x) (fr_backend_pool x) (fr_tls_cert x) (fr_tls_chain x)
    (fr_tls_key x) (fr_tls_key_password x) (g (fr_tls_pfx x)) (fr_tls_pfx_password x) (fr_tls_min_version x)
    (fr_tls_ciphers x) (fr_balancer x) (fr_waf_enabled x) (fr_waf_ruleset x) (fr_security_profile x)
    (fr_log_file x) (fr_log_format x) (fr_access_log x) (fr_log_profile x) (fr_headers x) (fr_smtp_headers x)
    (fr_acl x) (fr_max_connections x) (session_cookie x).
Definition upd_fr_waf_ruleset (g : option bytes -> option bytes) (x : FrontendConfig) : FrontendConfig :=
  mkFrontend (fr_name x) (fr_protocol x) (fr_listen x) (fr_backend_pool x) (fr_tls_cert x) (fr_tls_chain x)
    (fr_tls_key x) (fr_tls_key_password x) (fr_tls_pfx x) (fr_tls_pfx_password x) (fr_tls_min_version x)
    (fr_tls_ciphers x) (fr_balancer x) (fr_waf_enabled x) (g (fr_waf_ruleset x)) (fr_security_profile x)
    (fr_log_file x) (fr_log_format x) (fr_access_log x) (fr_log_profile x) (fr_headers x) (fr_smtp_headers x)
    (fr_acl x) (fr_max_connections x) (session_cookie x).
Definition upd_fr_security_profile (g : option bytes -> option bytes) (x : FrontendConfig) : FrontendConfig :=
  mkFrontend (fr_name x) (fr_protocol x) (fr_listen x) (fr_backend_pool x) (fr_tls_cert x) (fr_tls_chain x)
    (fr_tls_key x) (fr_tls_key_password x) (fr_tls_pfx x) (fr_tls_pfx_password x) (fr_tls_min_version x)
    (fr_tls_ciphers x) (fr_balancer x) (fr_waf_enabled x) (fr_waf_ruleset x) (g (fr_security_profile x))
    (fr_log_file x) (fr_log_format x) (fr_access_log x) (fr_log_profile x) (fr_headers x) (fr_smtp_headers x)
    (fr_acl x) (fr_max_connections x) (session_cookie x).
Definition upd_fr_log_profile (g : option bytes -> option bytes) (x : FrontendConfig) : FrontendConfig :=
  mkFrontend (fr_name x) (fr_protocol x) (fr_listen x) (fr_backend_pool x) (fr_tls_cert x) (fr_tls_chain x)
    (fr_tls_key x) (fr_tls_key_password x) (fr_tls_pfx x) (fr_tls_pfx_password x) (fr_tls_min_version x)
    (fr_tls_ciphers x) (fr_balancer x) (fr_waf_enabled x) (fr_waf_ruleset x) (fr_security_profile x)
    (fr_log_file x) (fr_log_format x) (fr_access_log x) (g (fr_log_profile x)) (fr_headers x) (fr_smtp_headers
    x) (fr_acl x) (fr_max_connections x) (session_cookie x).

(** [BackendPoolConfig] *)
Definition upd_health_check_interval (g : bytes -> bytes) (x : BackendPoolConfig) : BackendPoolConfig :=
  mkPoolConfig (pc_name x) (g (health_check_interval x)) (health_check_timeout x) (health_check_type x)
    (health_check_path x) (health_check_expect x) (health_check_tls x) (health_check_ignore_cert x)
    (health_check_method x) (pc_backend x).
Definition upd_health_check_timeout (g : bytes -> bytes) (x : BackendPoolConfig) : BackendPoolConfig :=
  mkPoolConfig (pc_name x) (health_check_interval x) (g (health_check_timeout x)) (health_check_type x)
    (health_check_path x) (health_check_expect x) (health_check_tls x) (health_check_ignore_cert x)
    (health_check_method x) (pc_backend x).
Definition upd_health_check_type (g : HealthCheckType -> HealthCheckType) (x : BackendPoolConfig) : BackendPoolConfig :=
  mkPoolConfig (pc_name x) (health_check_interval x) (health_check_timeout x) (g (health_check_type x))
    (health_check_path x) (health_check_expect x) (health_check_tls x) (health_check_ignore_cert x)
    (health_check_method x) (pc_backend x).
Definition upd_health_check_path (g : option bytes -> option bytes) (x : BackendPoolConfig) : BackendPoolConfig :=
  mkPoolConfig (pc_name x) (health_check_interval x) (health_check_timeout x) (health_check_type x) (g
    (health_check_path x)) (health_check_expect x) (health_check_tls x) (health_check_ignore_cert x)
    (health_check_method x) (pc_backend x).
Definition upd_health_check_expect (g : Z -> Z) (x : BackendPoolConfig) : BackendPoolConfig :=
  mkPoolConfig (pc_name x) (health_check_interval x) (health_check_timeout x) (health_check_type x)
    (health_check_path x) (g (health_check_expect x)) (health_check_tls x) (health_check_ignore_cert x)
    (health_check_method x) (pc_backend x).
Definition upd_health_check_tls (g : bool -> bool) (x : BackendPoolConfig) : BackendPoolConfig :=
  mkPoolConfig (pc_name x) (health_check_interval x) (health_check_timeout x) (health_check_type x)
    (health_check_path x) (health_check_expect x) (g (health_check_tls x)) (health_check_ignore_cert x)
    (health_check_method x) (pc_backend x).
Definition upd_health_check_ignore_cert (g : bool -> bool) (x : BackendPoolConfig) : BackendPoolConfig :=
  mkPoolConfig (pc_name x) (health_check_interval x) (health_check_timeout x) (health_check_type x)
    (health_check_path x) (health_check_expect x) (health_check_tls x) (g (health_check_ignore_cert x))
    (health_check_method x) (pc_backend x).
Definition upd_health_check_method (g : bytes -> bytes) (x : BackendPoolConfig) : BackendPoolConfig :=
  mkPoolConfig (pc_name x) (health_check_interval x) (health_check_timeout x) (health_check_type x)
    (health_check_path x) (health_check_expect x) (health_check_tls x) (health_check_ignore_cert x) (g
    (health_check_method x)) (pc_backend x).

(** [WafRulesetConfig] *)
Definition upd_rs_mode (g : ConfigWafMode -> ConfigWafMode) (x : WafRulesetConfig) : WafRulesetConfig :=
  mkRuleset (rs_name x) (g (rs_mode x)) (rs_anomaly_threshold x) (rs_rules_dir x) (rs_paranoia_level x)
    (rs_exclusions x) (rs_custom_rules x).
Definition upd_rs_anomaly_threshold (g : Z -> Z) (x : WafRulesetConfig) : WafRulesetConfig :=
  mkRuleset (rs_name x) (rs_mode x) (g (rs_anomaly_threshold x)) (rs_rules_dir x) (rs_paranoia_level x)
    (rs_exclusions x) (rs_custom_rules x).
Definition upd_rs_paranoia_level (g : Z -> Z) (x : WafRulesetConfig) : WafRulesetConfig :=
  mkRuleset (rs_name x) (rs_mode x) (rs_anomaly_threshold x) (rs_rules_dir x) (g (rs_paranoia_level x))
    (rs_exclusions x) (rs_custom_rules x).
Definition upd_rs_rules_dir (g : option bytes -> option bytes) (x : WafRulesetConfig) : WafRulesetConfig :=
  mkRuleset (rs_name x) (rs_mode x) (rs_anomaly_threshold x) (g (rs_rules_dir x)) (rs_paranoia_level x)
    (rs_exclusions x) (rs_custom_rules x).

(** [SecurityTlsConfig] *)
Definition upd_st_min_version (g : bytes -> bytes) (x : SecurityTlsConfig) : SecurityTlsConfig :=
  mkSecurityTls (g (st_min_version x)) (st_cipher_suites x) (st_ocsp_stapling x) (st_hsts_max_age x)
    (st_hsts_include_subdomains x) (st_backend_tls_verify x) (st_backend_ca_bundle x).
Definition upd_st_cipher_suites (g : list bytes -> list bytes) (x : SecurityTlsConfig) : SecurityTlsConfig :=
  mkSecurityTls (st_min_version x) (g (st_cipher_suites x)) (st_ocsp_stapling x) (st_hsts_max_age x)
    (st_hsts_include_subdomains x) (st_backend_tls_verify x) (st_backend_ca_bundle x).
Definition upd_st_ocsp_stapling (g : bool -> bool) (x : SecurityTlsConfig) : SecurityTlsConfig :=
  mkSecurityTls (st_min_version x) (st_cipher_suites x) (g (st_ocsp_stapling x)) (st_hsts_max_age x)
    (st_hsts_include_subdomains x) (st_backend_tls_verify x) (st_backend_ca_bundle x).
Definition upd_st_hsts_max_age (g : option Z -> option Z) (x : SecurityTlsConfig) : SecurityTlsConfig :=
  mkSecurityTls (st_min_version x) (st_cipher_suites x) (st_ocsp_stapling x) (g (st_hsts_max_age x))
    (st_hsts_include_subdomains x) (st_backend_tls_verify x) (st_backend_ca_bundle x).
Definition upd_st_hsts_include_subdomains (g : bool -> bool) (x : SecurityTlsConfig) : SecurityTlsConfig :=
  mkSecurityTls (st_min_version x) (st_cipher_suites x) (st_ocsp_stapling x) (st_hsts_max_age x) (g
    (st_hsts_include_subdomains x)) (st_backend_tls_verify x) (st_backend_ca_bundle x).
Definition upd_st_backend_tls_verify (g : bool -> bool) (x : SecurityTlsConfig) : SecurityTlsConfig :=
  mkSecurityTls (st_min_version x) (st_cipher_suites x) (st_ocsp_stapling x) (st_hsts_max_age x)
    (st_hsts_include_subdomains x) (g (st_backend_tls_verify x)) (st_backend_ca_bundle x).
Definition upd_st_backend_ca_bundle (g : option bytes -> option bytes) (x : SecurityTlsConfig) : SecurityTlsConfig :=
  mkSecurityTls (st_min_version x) (st_cipher_suites x) (st_ocsp_stapling x) (st_hsts_max_age x)
    (st_hsts_include_subdomains x) (st_backend_tls_verify x) (g (st_backend_ca_bundle x)).

(** [GeoConfig] *)
Definition upd_geo_enabled (g : bool -> bool) (x : GeoConfig) : GeoConfig :=
  mkGeoConfig (g (geo_enabled x)) (geo_database_path x) (geo_block_countries x) (geo_allow_countries x).
Definition upd_geo_block_countries (g : list bytes -> list bytes) (x : GeoConfig) : GeoConfig :=
  mkGeoConfig (geo_enabled x) (geo_database_path x) (g (geo_block_countries x)) (geo_allow_countries x).
Definition upd_geo_allow_countries (g : list bytes -> list bytes) (x : GeoConfig) : GeoConfig :=
  mkGeoConfig (geo_enabled x) (geo_database_path x) (geo_block_countries x) (g (geo_allow_countries x)).

(** [BotDetectionConfig] *)
Definition upd_bot_enabled (g : bool -> bool) (x : BotDetectionConfig) : BotDetectionConfig :=
  mkBotDetection (g (bot_enabled x)) (ja3_fingerprint_block_list x) (challenge_suspicious x) (known_good_bots x)
    (verify_good_bots x).
Definition upd_challenge_suspicious (g : bool -> bool) (x : BotDetectionConfig) : BotDetectionConfig :=
  mkBotDetection (bot_enabled x) (ja3_fingerprint_block_list x) (g (challenge_suspicious x)) (known_good_bots x)
    (verify_good_bots x).
Definition upd_verify_good_bots (g : bool -> bool) (x : BotDetectionConfig) : BotDetectionConfig :=
  mkBotDetection (bot_enabled x) (ja3_fingerprint_block_list x) (challenge_suspicious x) (known_good_bots x) (g
    (verify_good_bots x)).

(** [CookieSecurityConfig] *)
Definition upd_enforce_secure_flag (g : bool -> bool) (x : CookieSecurityConfig) : CookieSecurityConfig :=
  mkCookieSecurity (g (enforce_secure_flag x)) (enforce_httponly_flag x) (enforce_samesite x) (max_cookie_size
    x).
Definition upd_enforce_httponly_flag (g : bool -> bool) (x : CookieSecurityConfig) : CookieSecurityConfig :=
  mkCookieSecurity (enforce_secure_flag x) (g (enforce_httponly_flag x)) (enforce_samesite x) (max_cookie_size
    x).
Definition upd_enforce_samesite (g : option bytes -> option bytes) (x : CookieSecurityConfig) : CookieSecurityConfig :=
  mkCookieSecurity (enforce_secure_flag x) (enforce_httponly_flag x) (g (enforce_samesite x)) (max_cookie_size
    x).
Definition upd_max_cookie_size (g : Z -> Z) (x : CookieSecurityConfig) : CookieSecurityConfig :=
  mkCookieSecurity (enforce_secure_flag x) (enforce_httponly_flag x) (enforce_samesite x) (g (max_cookie_size
    x)).

(** [SecurityHeadersConfig] *)
Definition upd_add_x_content_type_options (g : bool -> bool) (x : SecurityHeadersConfig) : SecurityHeadersConfig :=
  mkSecurityHeaders (g (add_x_content_type_options x)) (add_x_frame_options x) (add_referrer_policy x)
    (add_content_security_policy x) (remove_server_header x) (remove_x_powered_by x) (compress_responses x)
    (compress_min_size x) (compress_types x).
Definition upd_add_x_frame_options (g : option bytes -> option bytes) (x : SecurityHeadersConfig) : SecurityHeadersConfig :=
  mkSecurityHeaders (add_x_content_type_options x) (g (add_x_frame_options x)) (add_referrer_policy x)
    (add_content_security_policy x) (remove_server_header x) (remove_x_powered_by x) (compress_responses x)
    (compress_min_size x) (compress_types x).
Definition upd_add_referrer_policy (g : option bytes -> option bytes) (x : SecurityHeadersConfig) : SecurityHeadersConfig :=
  mkSecurityHeaders (add_x_content_type_options x) (add_x_frame_options x) (g (add_referrer_policy x))
    (add_content_security_policy x) (remove_server_header x) (remove_x_powered_by x) (compress_responses x)
    (compress_min_size x) (compress_types x).
Definition upd_add_content_security_policy (g : option bytes -> option bytes) (x : SecurityHeadersConfig) : SecurityHeadersConfig :=
  mkSecurityHeaders (add_x_content_type_options x) (add_x_frame_options x) (add_referrer_policy x) (g
    (add_content_security_policy x)) (remove_server_header x) (remove_x_powered_by x) (compress_responses x)
    (compress_min_size x) (compress_types x).
Definition upd_remove_server_header (g : bool -> bool) (x : SecurityHeadersConfig) : SecurityHeadersConfig :=
  mkSecurityHeaders (add_x_content_type_options x) (add_x_frame_options x) (add_referrer_policy x)
    (add_content_security_policy x) (g (remove_server_header x)) (remove_x_powered_by x) (compress_responses x)
    (compress_min_size x) (compress_types x).
Definition upd_remove_x_powered_by (g : bool -> bool) (x : SecurityHeadersConfig) : SecurityHeadersConfig :=
  mkSecurityHeaders (add_x_content_type_options x) (add_x_frame_options x) (add_referrer_policy x)
    (add_content_security_policy x) (remove_server_header x) (g (remove_x_powered_by x)) (compress_responses x)
    (compress_min_size x) (compress_types x).
Definition upd_compress_responses (g : bool -> bool) (x : SecurityHeadersConfig) : SecurityHeadersConfig :=
  mkSecurityHeaders (add_x_content_type_options x) (add_x_frame_options x) (add_referrer_policy x)
    (add_content_security_policy x) (remove_server_header x) (remove_x_powered_by x) (g (compress_responses x))
    (compress_min_size x) (compress_types x).
Definition upd_compress_min_size (g : Z -> Z) (x : SecurityHeadersConfig) : SecurityHeadersConfig :=
  mkSecurityHeaders (add_x_content_type_options x) (add_x_frame_options x) (add_referrer_policy x)
    (add_content_security_policy x) (remove_server_header x) (remove_x_powered_by x) (compress_responses x) (g
    (compress_min_size x)) (compress_types x).
Definition upd_compress_types (g : list bytes -> list bytes) (x : SecurityHeadersConfig) : SecurityHeadersConfig :=
  mkSecurityHeaders (add_x_content_type_options x) (add_x_frame_options x) (add_referrer_policy x)
    (add_content_security_policy x) (remove_server_header x) (remove_x_powered_by x) (compress_responses x)
    (compress_min_size x) (g (compress_types x)).

(** [SecurityAclConfig] *)
Definition upd_sacl_default (g : AclDefaultAction -> AclDefaultAction) (x : SecurityAclConfig) : SecurityAclConfig :=
  mkSecurityAcl (g (sacl_default x)) (sacl_acl_bypass_waf x) (sacl_ip x) (sacl_domain x) (sacl_path_patterns x).
Definition upd_sacl_acl_bypass_waf (g : bool -> bool) (x : SecurityAclConfig) : SecurityAclConfig :=
  mkSecurityAcl (sacl_default x) (g (sacl_acl_bypass_waf x)) (sacl_ip x) (sacl_domain x) (sacl_path_patterns x).
Definition upd_sacl_domain (g : DomainAclConfig -> DomainAclConfig) (x : SecurityAclConfig) : SecurityAclConfig :=
  mkSecurityAcl (sacl_default x) (sacl_acl_bypass_waf x) (sacl_ip x) (g (sacl_domain x)) (sacl_path_patterns x).
Definition upd_sacl_path_patterns (g : list PathPatternConfig -> list PathPatternConfig) (x : SecurityAclConfig) : SecurityAclConfig :=
  mkSecurityAcl (sacl_default x) (sacl_acl_bypass_waf x) (sacl_ip x) (sacl_domain x) (g (sacl_path_patterns x)).

(** [DomainAclConfig] *)
Definition upd_da_allow (g : list bytes -> list bytes) (x : DomainAclConfig) : DomainAclConfig :=
  mkDomainAcl (g (da_allow x)) (da_block x).
Definition upd_da_block (g : list bytes -> list bytes) (x : DomainAclConfig) : DomainAclConfig :=
  mkDomainAcl (da_allow x) (g (da_block x)).

(** [LogProfile] *)
Definition upd_lp_name (g : bytes -> bytes) (x : LogProfile) : LogProfile :=
  mkLogProfile (g (lp_name x)) (lp_description x) (lp_format x) (lp_access_log x).
Definition upd_lp_description (g : bytes -> bytes) (x : LogProfile) : LogProfile :=
  mkLogProfile (lp_name x) (g (lp_description x)) (lp_format x) (lp_access_log x).
Definition upd_lp_format (g : LogFormat -> LogFormat) (x : LogProfile) : LogProfile :=
  mkLogProfile (lp_name x) (lp_description x) (g (lp_format x)) (lp_access_log x).
Definition upd_lp_access_log (g : bool -> bool) (x : LogProfile) : LogProfile :=
  mkLogProfile (lp_name x) (lp_description x) (lp_format x) (g (lp_access_log x)).

(** [WebuiConfig] *)
Definition upd_webui_enabled (g : bool -> bool) (x : WebuiConfig) : WebuiConfig :=
  mkWebui (g (webui_enabled x)) (webui_listen x) (webui_tls_cert x) (webui_tls_key x) (tokens_file x)
    (web_users_file x) (allowed_origins x) (webui_allow_list x).
Definition upd_webui_listen (g : bytes -> bytes) (x : WebuiConfig) : WebuiConfig :=
  mkWebui (webui_enabled x) (g (webui_listen x)) (webui_tls_cert x) (webui_tls_key x) (tokens_file x)
    (web_users_file x) (allowed_origins x) (webui_allow_list x).
Definition upd_tokens_file (g : bytes -> bytes) (x : WebuiConfig) : WebuiConfig :=
  mkWebui (webui_enabled x) (webui_listen x) (webui_tls_cert x) (webui_tls_key x) (g (tokens_file x))
    (web_users_file x) (allowed_origins x) (webui_allow_list x).
Definition upd_web_users_file (g : bytes -> bytes) (x : WebuiConfig) : WebuiConfig :=
  mkWebui (webui_enabled x) (webui_listen x) (webui_tls_cert x) (webui_tls_key x) (tokens_file x) (g
    (web_users_file x)) (allowed_origins x) (webui_allow_list x).
Definition upd_allowed_origins (g : list bytes -> list bytes) (x : WebuiConfig) : WebuiConfig :=
  mkWebui (webui_enabled x) (webui_listen x) (webui_tls_cert x) (webui_tls_key x) (tokens_file x)
    (web_users_file x) (g (allowed_origins x)) (webui_allow_list x).

(** [RelayConfig] *)
Definition upd_rel_enabled (g : bool -> bool) (x : RelayConfig) : RelayConfig :=
  mkRelayConfig (g (rel_enabled x)) (rel_listen x) (rel_hostname x) (rel_spool_dir x) (rel_max_queue_size x)
    (rel_delivery_threads x) (rel_trusted_hosts x) (rel_retry x) (rel_tls x) (rel_dkim x) (rel_dmarc_publish x)
    (rel_spf_publish x) (rel_outbound_policy x) (rel_bounce x).
Definition upd_rel_listen (g : list bytes -> list bytes) (x : RelayConfig) : RelayConfig :=
  mkRelayConfig (rel_enabled x) (g (rel_listen x)) (rel_hostname x) (rel_spool_dir x) (rel_max_queue_size x)
    (rel_delivery_threads x) (rel_trusted_hosts x) (rel_retry x) (rel_tls x) (rel_dkim x) (rel_dmarc_publish x)
    (rel_spf_publish x) (rel_outbound_policy x) (rel_bounce x).
Definition upd_rel_hostname (g : option bytes -> option bytes) (x : RelayConfig) : RelayConfig :=
  mkRelayConfig (rel_enabled x) (rel_listen x) (g (rel_hostname x)) (rel_spool_dir x) (rel_max_queue_size x)
    (rel_delivery_threads x) (rel_trusted_hosts x) (rel_retry x) (rel_tls x) (rel_dkim x) (rel_dmarc_publish x)
    (rel_spf_publish x) (rel_outbound_policy x) (rel_bounce x).
Definition upd_rel_spool_dir (g : bytes -> bytes) (x : RelayConfig) : RelayConfig :=
  mkRelayConfig (rel_enabled x) (rel_listen x) (rel_hostname x) (g (rel_spool_dir x)) (rel_max_queue_size x)
    (rel_delivery_threads x) (rel_trusted_hosts x) (rel_retry x) (rel_tls x) (rel_dkim x) (rel_dmarc_publish x)
    (rel_spf_publish x) (rel_outbound_policy x) (rel_bounce x).
Definition upd_rel_max_queue_size (g : Z -> Z) (x : RelayConfig) : RelayConfig :=
  mkRelayConfig (rel_enabled x) (rel_listen x) (rel_hostname x) (rel_spool_dir x) (g (rel_max_queue_size x))
    (rel_delivery_threads x) (rel_trusted_hosts x) (rel_retry x) (rel_tls x) (rel_dkim x) (rel_dmarc_publish x)
    (rel_spf_publish x) (rel_outbound_policy x) (rel_bounce x).
Definition upd_rel_delivery_threads (g : Z -> Z) (x : RelayConfig) : RelayConfig :=
  mkRelayConfig (rel_enabled x) (rel_listen x) (rel_hostname x) (rel_spool_dir x) (rel_max_queue_size x) (g
    (rel_delivery_threads x)) (rel_trusted_hosts x) (rel_retry x) (rel_tls x) (rel_dkim x) (rel_dmarc_publish x)
    (rel_spf_publish x) (rel_outbound_policy x) (rel_bounce x).
Definition upd_rel_retry (g : RetryConfig -> RetryConfig) (x : RelayConfig) : RelayConfig :=
  mkRelayConfig (rel_enabled x) (rel_listen x) (rel_hostname x) (rel_spool_dir x) (rel_max_queue_size x)
    (rel_delivery_threads x) (rel_trusted_hosts x) (g (rel_retry x)) (rel_tls x) (rel_dkim x) (rel_dmarc_publish
    x) (rel_spf_publish x) (rel_outbound_policy x) (rel_bounce x).
Definition upd_rel_tls (g : RelayTlsConfig -> RelayTlsConfig) (x : RelayConfig) : RelayConfig :=
  mkRelayConfig (rel_enabled x) (rel_listen x) (rel_hostname x) (rel_spool_dir x) (rel_max_queue_size x)
    (rel_delivery_threads x) (rel_trusted_hosts x) (rel_retry x) (g (rel_tls x)) (rel_dkim x) (rel_dmarc_publish
    x) (rel_spf_publish x) (rel_outbound_policy x) (rel_bounce x).
Definition upd_rel_outbound_policy (g : OutboundPolicyConfig -> OutboundPolicyConfig) (x : RelayConfig) : RelayConfig :=
  mkRelayConfig (rel_enabled x) (rel_listen x) (rel_hostname x) (rel_spool_dir x) (rel_max_queue_size x)
    (rel_delivery_threads x) (rel_trusted_hosts x) (rel_retry x) (rel_tls x) (rel_dkim x) (rel_dmarc_publish x)
    (rel_spf_publish x) (g (rel_outbound_policy x)) (rel_bounce x).
Definition upd_rel_bounce (g : BounceConfig -> BounceConfig) (x : RelayConfig) : RelayConfig :=
  mkRelayConfig (rel_enabled x) (rel_listen x) (rel_hostname x) (rel_spool_dir x) (rel_max_queue_size x)
    (rel_delivery_threads x) (rel_trusted_hosts x) (rel_retry x) (rel_tls x) (rel_dkim x) (rel_dmarc_publish x)
    (rel_spf_publish x) (rel_outbound_policy x) (g (rel_bounce x)).

(** [RetryConfig] *)
Definition upd_rc_intervals (g : list bytes -> list bytes) (x : RetryConfig) : RetryConfig :=
  mkRetryConfig (g (rc_intervals x)) (rc_max_age x) (rc_max_attempts x).
Definition upd_rc_max_age (g : bytes -> bytes) (x : RetryConfig) : RetryConfig :=
  mkRetryConfig (rc_intervals x) (g (rc_max_age x)) (rc_max_attempts x).
Definition upd_rc_max_attempts (g : Z -> Z) (x : RetryConfig) : RetryConfig :=
  mkRetryConfig (rc_intervals x) (rc_max_age x) (g (rc_max_attempts x)).

(** [RelayTlsConfig] *)
Definition upd_rt_opportunistic (g : bool -> bool) (x : RelayTlsConfig) : RelayTlsConfig :=
  mkRelayTls (g (rt_opportunistic x)) (rt_verify_certificates x) (rt_min_version x).
Definition upd_rt_verify_certificates (g : bool -> bool) (x : RelayTlsConfig) : RelayTlsConfig :=
  mkRelayTls (rt_opportunistic x) (g (rt_verify_certificates x)) (rt_min_version x).
Definition upd_rt_min_version (g : bytes -> bytes) (x : RelayTlsConfig) : RelayTlsConfig :=
  mkRelayTls (rt_opportunistic x) (rt_verify_certificates x) (g (rt_min_version x)).

(** [OutboundPolicyConfig] *)
Definition upd_op_enabled (g : bool -> bool) (x : OutboundPolicyConfig) : OutboundPolicyConfig :=
  mkPolicyConfig (g (op_enabled x)) (op_max_message_size x) (op_max_recipients_per_message x)
    (op_allowed_sender_domains x) (op_max_messages_per_domain_per_hour x) (op_block_dangerous_attachments x)
    (op_check_urls x).
Definition upd_op_max_message_size (g : Z -> Z) (x : OutboundPolicyConfig) : OutboundPolicyConfig :=
  mkPolicyConfig (op_enabled x) (g (op_max_message_size x)) (op_max_recipients_per_message x)
    (op_allowed_sender_domains x) (op_max_messages_per_domain_per_hour x) (op_block_dangerous_attachments x)
    (op_check_urls x).
Definition upd_op_max_recipients_per_message (g : Z -> Z) (x : OutboundPolicyConfig) : OutboundPolicyConfig :=
  mkPolicyConfig (op_enabled x) (op_max_message_size x) (g (op_max_recipients_per_message x))
    (op_allowed_sender_domains x) (op_max_messages_per_domain_per_hour x) (op_block_dangerous_attachments x)
    (op_check_urls x).
Definition upd_op_allowed_sender_domains (g : list bytes -> list bytes) (x : OutboundPolicyConfig) : OutboundPolicyConfig :=
  mkPolicyConfig (op_enabled x) (op_max_message_size x) (op_max_recipients_per_message x) (g
    (op_allowed_sender_domains x)) (op_max_messages_per_domain_per_hour x) (op_block_dangerous_attachments x)
    (op_check_urls x).
Definition upd_op_max_messages_per_domain_per_hour (g : Z -> Z) (x : OutboundPolicyConfig) : OutboundPolicyConfig :=
  mkPolicyConfig (op_enabled x) (op_max_message_size x) (op_max_recipients_per_message x)
    (op_allowed_sender_domains x) (g (op_max_messages_per_domain_per_hour x)) (op_block_dangerous_attachments x)
    (op_check_urls x).
Definition upd_op_block_dangerous_attachments (g : bool -> bool) (x : OutboundPolicyConfig) : OutboundPolicyConfig :=
  mkPolicyConfig (op_enabled x) (op_max_message_size x) (op_max_recipients_per_message x)
    (op_allowed_sender_domains x) (op_max_messages_per_domain_per_hour x) (g (op_block_dangerous_attachments x))
    (op_check_urls x).
Definition upd_op_check_urls (g : bool -> bool) (x : OutboundPolicyConfig) : OutboundPolicyConfig :=
  mkPolicyConfig (op_enabled x) (op_max_message_size x) (op_max_recipients_per_message x)
    (op_allowed_sender_domains x) (op_max_messages_per_domain_per_hour x) (op_block_dangerous_attachments x) (g
    (op_check_urls x)).

(** [BounceConfig] *)
Definition upd_bo_sender (g : option bytes -> option bytes) (x : BounceConfig) : BounceConfig :=
  mkBounceConfig (g (bo_sender x)) (bo_include_original_headers x).
Definition upd_bo_include_original_headers (g : bool -> bool) (x : BounceConfig) : BounceConfig :=
  mkBounceConfig (bo_sender x) (g (bo_include_original_headers x)).

(** [TrustedHostsConfig] *)
Definition upd_th_require_tls (g : bool -> bool) (x : TrustedHostsConfig) : TrustedHostsConfig :=
  mkTrustedConfig (th_hosts x) (g (th_require_tls x)).

(** [DmarcPolicyDomain] *)
Definition upd_dp_policy (g : bytes -> bytes) (x : DmarcPolicyDomain) : DmarcPolicyDomain :=
  mkDmarcDomain (dp_domain x) (g (dp_policy x)) (dp_subdomain_policy x) (dp_pct x) (dp_rua x) (dp_ruf x)
    (dp_adkim x) (dp_aspf x).
Definition upd_dp_subdomain_policy (g : option bytes -> option bytes) (x : DmarcPolicyDomain) : DmarcPolicyDomain :=
  mkDmarcDomain (dp_domain x) (dp_policy x) (g (dp_subdomain_policy x)) (dp_pct x) (dp_rua x) (dp_ruf x)
    (dp_adkim x) (dp_aspf x).
Definition upd_dp_pct (g : Z -> Z) (x : DmarcPolicyDomain) : DmarcPolicyDomain :=
  mkDmarcDomain (dp_domain x) (dp_policy x) (dp_subdomain_policy x) (g (dp_pct x)) (dp_rua x) (dp_ruf x)
    (dp_adkim x) (dp_aspf x).
Definition upd_dp_rua (g : list bytes -> list bytes) (x : DmarcPolicyDomain) : DmarcPolicyDomain :=
  mkDmarcDomain (dp_domain x) (dp_policy x) (dp_subdomain_policy x) (dp_pct x) (g (dp_rua x)) (dp_ruf x)
    (dp_adkim x) (dp_aspf x).
Definition upd_dp_ruf (g : list bytes -> list bytes) (x : DmarcPolicyDomain) : DmarcPolicyDomain :=
  mkDmarcDomain (dp_domain x) (dp_policy x) (dp_subdomain_policy x) (dp_pct x) (dp_rua x) (g (dp_ruf x))
    (dp_adkim x) (dp_aspf x).
Definition upd_dp_adkim (g : bytes -> bytes) (x : DmarcPolicyDomain) : DmarcPolicyDomain :=
  mkDmarcDomain (dp_domain x) (dp_policy x) (dp_subdomain_policy x) (dp_pct x) (dp_rua x) (dp_ruf x) (g
    (dp_adkim x)) (dp_aspf x).
Definition upd_dp_aspf (g : bytes -> bytes) (x : DmarcPolicyDomain) : DmarcPolicyDomain :=
  mkDmarcDomain (dp_domain x) (dp_policy x) (dp_subdomain_policy x) (dp_pct x) (dp_rua x) (dp_ruf x) (dp_adkim
    x) (g (dp_aspf x)).

(** [SpfDomainConfig] *)
Definition upd_sd_mechanisms (g : list SpfMechanism -> list SpfMechanism) (x : SpfDomainConfig) : SpfDomainConfig :=
  mkSpfDomain (sd_domain x) (g (sd_mechanisms x)) (sd_all x).
Definition upd_sd_all (g : bytes -> bytes) (x : SpfDomainConfig) : SpfDomainConfig :=
  mkSpfDomain (sd_domain x) (sd_mechanisms x) (g (sd_all x)).

(** [DomainOverride] *)
Definition upd_do_possible_spam_threshold (g : option Z -> option Z) (x : DomainOverride) : DomainOverride :=
  mkOverride (do_domain x) (g (do_possible_spam_threshold x)) (do_definite_spam_threshold x) (do_disabled_checks
    x).
Definition upd_do_definite_spam_threshold (g : option Z -> option Z) (x : DomainOverride) : DomainOverride :=
  mkOverride (do_domain x) (do_possible_spam_threshold x) (g (do_definite_spam_threshold x)) (do_disabled_checks
    x).
Definition upd_do_disabled_checks (g : list bytes -> list bytes) (x : DomainOverride) : DomainOverride :=
  mkOverride (do_domain x) (do_possible_spam_threshold x) (do_definite_spam_threshold x) (g (do_disabled_checks
    x)).

(** [SecurityProfile] *)
Definition upd_sp_name (g : bytes -> bytes) (x : SecurityProfile) : SecurityProfile :=
  mkSecProfile (g (sp_name x)) (sp_description x) (sp_profile_type x) (sp_waf_enabled x) (sp_waf_ruleset x)
    (sp_headers x) (sp_cookies x) (sp_bot_detection x) (sp_geo x) (sp_antispam x) (sp_min_version x)
    (sp_cipher_suites x) (sp_hsts_max_age x) (sp_hsts_include_subdomains x) (sp_ocsp_stapling x).

