(* ===== verification/Fs.v ===== *)
(** * Files: the calls of [std::fs] the program makes

    The files are a map from paths to contents.  Each call takes the head of
    [script]: it succeeds, or fails without effect, or (a write) fails after the
    first [n] bytes reached the file, as a full disk or a crash leaves it.  An
    exhausted script is a run of successes. *)

From S2P Require Import Prelude RustStr.
Open Scope Z_scope.

Inductive fault := FOk | FFail | FPartial (n : nat).

Record disk := mkDisk { files : gmap bytes bytes; script : list fault }.

Definition next_fault (d : disk) : fault * list fault :=
  match script d with [] => (FOk, []) | f :: s => (f, s) end.

(** A computation on the files that may fail with a message ([anyhow::Result]). *)
Definition io (A : Type) : Type := disk -> result A bytes * disk.

Definition io_ret {A} (x : A) : io A := fun d => (Ok x, d).
Definition io_err {A} (e : bytes) : io A := fun d => (Err e, d).
Definition io_bind {A B} (m : io A) (k : A -> io B) : io B := fun d =>
  match m d with
  | (Ok x, d) => k x d
  | (Err e, d) => (Err e, d)
  end.
Notation "'let!' x ':=' m 'in' k" := (io_bind m (fun x => k))
  (at level 10, x pattern, k at level 200) : rust_scope.

Definition fs_write (path data : bytes) : io unit := fun d =>
  let (f, s) := next_fault d in
  match f with
  | FOk => (Ok tt, mkDisk (<[path := data]> (files d)) s)
  | FFail => (Err (bs "write"), mkDisk (files d) s)
  | FPartial n => (Err (bs "write"), mkDisk (<[path := take n data]> (files d)) s)
  end.

Definition fs_read (path : bytes) : io bytes := fun d =>
  let (f, s) := next_fault d in
  match f with
  | FOk => match files d !! path with
           | Some data => (Ok data, mkDisk (files d) s)
           | None => (Err (bs "not found"), mkDisk (files d) s)
           end
  | _ => (Err (bs "read"), mkDisk (files d) s)
  end.

Definition fs_remove_file (path : bytes) : io unit := fun d =>
  let (f, s) := next_fault d in
  match f with
  | FOk => match files d !! path with
           | Some _ => (Ok tt, mkDisk (delete path (files d)) s)
           | None => (Err (bs "not found"), mkDisk (files d) s)
           end
  | _ => (Err (bs "remove"), mkDisk (files d) s)
  end.

Definition fs_exists (path : bytes) : io bool := fun d =>
  (Ok (match files d !! path with Some _ => true | None => false end), d).

(** [fs::rename]: replaces the target in one step. *)
Definition fs_rename (src dst : bytes) : io unit := fun d =>
  let (f, s) := next_fault d in
  match f, files d !! src with
  | FOk, Some data => (Ok tt, mkDisk (<[dst := data]> (delete src (files d))) s)
  | FOk, None => (Err (bs "not found"), mkDisk (files d) s)
  | _, _ => (Err (bs "rename"), mkDisk (files d) s)
  end.

(** [OpenOptions::create_new]: [Ok false] when the file exists. *)
Definition fs_create_new (path : bytes) : io bool := fun d =>
  let (f, s) := next_fault d in
  match f, files d !! path with
  | FOk, None => (Ok true, mkDisk (<[path := []]> (files d)) s)
  | FOk, Some _ => (Ok false, mkDisk (files d) s)
  | _, _ => (Err (bs "create"), mkDisk (files d) s)
  end.

(** [OpenOptions::create(true).append(true)]: the file is there afterwards. *)
Definition fs_open_append (path : bytes) : io unit := fun d =>
  let (f, s) := next_fault d in
  match f, files d !! path with
  | FOk, Some _ => (Ok tt, mkDisk (files d) s)
  | FOk, None => (Ok tt, mkDisk (<[path := []]> (files d)) s)
  | _, _ => (Err (bs "open"), mkDisk (files d) s)
  end.

(** A write to a file opened for appending. *)
Definition fs_append (path data : bytes) : io unit := fun d =>
  let (f, s) := next_fault d in
  let old := default [] (files d !! path) in
  match f with
  | FOk => (Ok tt, mkDisk (<[path := old ++ data]> (files d)) s)
  | FFail => (Err (bs "write"), mkDisk (files d) s)
  | FPartial n => (Err (bs "write"), mkDisk (<[path := old ++ take n data]> (files d)) s)
  end.

(** [fs::read_to_string]: the contents are UTF-8. *)
Definition fs_read_to_string (path : bytes) : io bytes :=
  let! data := fs_read path in
  if utf8_valid data then io_ret data else io_err (bs "stream did not contain valid UTF-8").

(** [Path::join] of a relative path, and [Path::parent]. *)
Definition path_join (dir name : bytes) : bytes :=
  if is_nil dir || ends_with dir (bs "/") then dir ++ name else dir ++ bs "/" ++ name.

Definition path_parent (p : bytes) : option bytes :=
  let p' := trim_end_matches (Z.eqb 47) p in
  if is_nil p' then None
  else match rsplit_once p' 47 with
       | Some (dir, _) => if is_nil dir then Some (bs "/") else Some (trim_end_matches (Z.eqb 47) dir)
       | None => Some []
       end.

(** The names of the files directly in a directory, in an order the system chooses. *)
Definition dir_names (dir : bytes) (fs : gmap bytes bytes) : list bytes :=
  filter_map (fun p => n ← strip_prefix p.1 (path_join dir []); if bool_decide (47 ∈ n) then None else Some n)
    (map_to_list fs).

Definition fs_read_dir (dir : bytes) : io (list bytes) := fun d =>
  let (f, s) := next_fault d in
  match f with
  | FOk => (Ok (dir_names dir (files d)), mkDisk (files d) s)
  | _ => (Err (bs "read_dir"), mkDisk (files d) s)
  end.

(** ** Effects of the calls on the files *)

Lemma fs_write_cases path data d :
  (fs_write path data d).1 = Ok tt /\ files (fs_write path data d).2 = <[path := data]> (files d)
  \/ exists e, (fs_write path data d).1 = Err e /\
      (files (fs_write path data d).2 = files d \/
       exists n, files (fs_write path data d).2 = <[path := take n data]> (files d)).
Proof.
  unfold fs_write. destruct (next_fault d) as [[| |n] s]; simpl; eauto 10.
Qed.

Lemma fs_write_other path data d p : p <> path -> files (fs_write path data d).2 !! p = files d !! p.
Proof. intros Hp. unfold fs_write. destruct (next_fault d) as [[]]; cbn; [|done|]; by rewrite lookup_insert_ne. Qed.

Lemma fs_read_files path d : files (fs_read path d).2 = files d.
Proof. unfold fs_read. destruct (next_fault d) as [[| |n] s]; simpl; [|done..]. by case_match. Qed.

Lemma fs_read_Ok path d data : (fs_read path d).1 = Ok data -> files d !! path = Some data.
Proof.
  unfold fs_read. destruct (next_fault d) as [[| |n] s]; simpl; [|done..].
  case_match; simpl; congruence.
Qed.

Lemma fs_remove_cases path d :
  files (fs_remove_file path d).2 = files d /\ (exists e, (fs_remove_file path d).1 = Err e)
  \/ files (fs_remove_file path d).2 = delete path (files d) /\ (fs_remove_file path d).1 = Ok tt.
Proof.
  unfold fs_remove_file. destruct (next_fault d) as [[| |n] s]; simpl; eauto.
  case_match; simpl; eauto.
Qed.

Lemma fs_write_files path data d d' : fs_write path data d = (Ok tt, d') -> files d' = <[path := data]> (files d).
Proof. unfold fs_write. destruct (next_fault d) as [[]]; intros [=]; by subst. Qed.

(** No call fails. *)
Definition calm (d : disk) : Prop := script d = [].

Lemma fs_write_calm path data d :
  calm d -> fs_write path data d = (Ok tt, mkDisk (<[path := data]> (files d)) []).
Proof. unfold calm, fs_write, next_fault. by intros ->. Qed.

Lemma fs_read_calm path data d :
  calm d -> files d !! path = Some data -> fs_read path d = (Ok data, d).
Proof. unfold calm, fs_read, next_fault. destruct d; simpl. intros -> ->. done. Qed.

Lemma fs_remove_calm path d :
  calm d -> is_Some (files d !! path) ->
  fs_remove_file path d = (Ok tt, mkDisk (delete path (files d)) []).
Proof. unfold calm, fs_remove_file, next_fault. by intros -> [x ->]. Qed.
