(* ===== verification/SmtpProto.v ===== *)
(** * SMTP commands and responses: [serverwall-core/src/proto/smtp.rs]

    The command parser shared by the SMTP proxy and the outbound relay, and the
    wire format of a response. *)

From S2P Require Import Prelude RustStr.
Open Scope Z_scope.

Inductive SmtpCommand :=
| Ehlo (domain : bytes)
| Helo (domain : bytes)
| MailFrom (addr : bytes)
| RcptTo (addr : bytes)
| Data
| Quit
| Rset
| Noop
| StartTls
| Auth (rest : bytes)
| Xclient (rest : bytes)
| Unknown (line : bytes).

#[export] Instance SmtpCommand_eq_dec : EqDecision SmtpCommand.
Proof. solve_decision. Defined.

Record SmtpResponse := mkSmtpResponse {
  code : Z;
  enhanced_code : option bytes;
  message : bytes;
}.

Definition SmtpResponse_new (code : Z) (message : bytes) : SmtpResponse :=
  mkSmtpResponse code None message.

Definition SmtpResponse_to_bytes (r : SmtpResponse) : bytes :=
  show (code r) ++ bs " " ++ message r ++ CRLF.

Section Parse.
Context `{Unicode}.

(** [None] is the panic of the slice expressions on [trimmed], which index it
    with the length of a prefix of [upper]. *)
Definition parse_command (line : bytes) : option SmtpCommand :=
  let trimmed := trim line in
  let upper := to_uppercase trimmed in
  match strip_prefix upper (bs "EHLO ") with
  | Some domain => Some (Ehlo (trim domain))
  | None =>
  match strip_prefix upper (bs "HELO ") with
  | Some domain => Some (Helo (trim domain))
  | None =>
  if starts_with upper (bs "MAIL FROM:") then
    match slice_from trimmed (length (bs "MAIL FROM:")) with
    | Some addr => Some (MailFrom (trim addr))
    | None => None
    end
  else if starts_with upper (bs "RCPT TO:") then
    match slice_from trimmed (length (bs "RCPT TO:")) with
    | Some addr => Some (RcptTo (trim addr))
    | None => None
    end
  else if bool_decide (upper = bs "DATA") then Some Data
  else if bool_decide (upper = bs "QUIT") then Some Quit
  else if bool_decide (upper = bs "RSET") then Some Rset
  else if bool_decide (upper = bs "NOOP") then Some Noop
  else if bool_decide (upper = bs "STARTTLS") then Some StartTls
  else match strip_prefix upper (bs "AUTH ") with
  | Some rest => Some (Auth (trim rest))
  | None =>
  match strip_prefix upper (bs "XCLIENT ") with
  | Some rest => Some (Xclient (trim rest))
  | None => Some (Unknown trimmed)
  end end end end.
End Parse.

(** The command lines the relay and the proxy write to other servers. *)
Inductive WireCommand :=
| WEhlo (host : bytes)
| WMailFrom (addr : bytes)
| WRcptTo (addr : bytes)
| WData
| WQuit.

Definition wire (c : WireCommand) : bytes :=
  match c with
  | WEhlo h => bs "EHLO " ++ h ++ CRLF
  | WMailFrom a => bs "MAIL FROM:<" ++ a ++ bs ">" ++ CRLF
  | WRcptTo a => bs "RCPT TO:<" ++ a ++ bs ">" ++ CRLF
  | WData => bs "DATA" ++ CRLF
  | WQuit => bs "QUIT" ++ CRLF
  end.

Section ParseLemmas.
Context `{Unicode}.

Ltac ascii := unfold is_ascii; repeat constructor; lia.

Lemma parse_mail_from a :
  parse_command (wire (WMailFrom a)) = Some (MailFrom (bs "<" ++ a ++ bs ">")).
Proof.
  unfold parse_command, wire.
  change (bs "MAIL FROM:<" ++ a ++ bs ">" ++ CRLF)
    with (77 :: (bs "AIL FROM:<" ++ a ++ bs ">" ++ CRLF)).
  rewrite (app_assoc (bs "AIL FROM:<") a). change (bs ">") with [62].
  rewrite trim_line by (done || lia).
  change (77 :: (bs "AIL FROM:<" ++ a) ++ [62]) with (bs "MAIL FROM:<" ++ (a ++ [62])).
  rewrite to_uppercase_ascii_app by ascii.
  simpl. unfold slice_from. simpl. by rewrite trim_id.
Qed.

Lemma parse_rcpt_to a :
  parse_command (wire (WRcptTo a)) = Some (RcptTo (bs "<" ++ a ++ bs ">")).
Proof.
  unfold parse_command, wire.
  change (bs "RCPT TO:<" ++ a ++ bs ">" ++ CRLF)
    with (82 :: (bs "CPT TO:<" ++ a ++ bs ">" ++ CRLF)).
  rewrite (app_assoc (bs "CPT TO:<") a). change (bs ">") with [62].
  rewrite trim_line by (done || lia).
  change (82 :: (bs "CPT TO:<" ++ a) ++ [62]) with (bs "RCPT TO:<" ++ (a ++ [62])).
  rewrite to_uppercase_ascii_app by ascii.
  simpl. unfold slice_from. simpl. by rewrite trim_id.
Qed.

Lemma parse_data : parse_command (wire WData) = Some Data.
Proof. reflexivity. Qed.

Lemma parse_quit : parse_command (wire WQuit) = Some Quit.
Proof. reflexivity. Qed.

Lemma starts_with_length s p : starts_with s p = true -> (length p <= length s)%nat.
Proof. intros [r ->]%starts_with_true. rewrite length_app. lia. Qed.

(** The parser never panics on an ASCII line. *)
Lemma parse_command_ascii_total line :
  is_ascii line -> exists c, parse_command line = Some c.
Proof.
  intros Ha%is_ascii_trim. unfold parse_command.
  rewrite to_uppercase_ascii by done.
  repeat match goal with
  | |- context [match strip_prefix ?a ?b with _ => _ end] => destruct (strip_prefix a b); [by eauto|]
  | |- context [if starts_with ?a ?b then _ else _] => destruct (starts_with a b) eqn:?
  | |- context [if bool_decide ?P then _ else _] => destruct (bool_decide P); [by eauto|]
  | Hs : starts_with _ _ = true |- _ =>
      apply starts_with_length in Hs; rewrite length_fmap in Hs;
      rewrite slice_from_ascii by done; by eauto
  end. by eauto.
Qed.
End ParseLemmas.
#[export] Hint Resolve parse_mail_from parse_rcpt_to parse_data parse_quit : serverwall.
