(* ===== verification/Net.v ===== *)
(** * IP and socket addresses of [std::net], with their textual form *)

From S2P Require Import Prelude RustStr.
Open Scope Z_scope.

(** An IPv4 address is a 32-bit value, an IPv6 address a 128-bit value. *)
Inductive IpAddr := V4 (a : Z) | V6 (a : Z).

#[export] Instance IpAddr_eq_dec : EqDecision IpAddr.
Proof. solve_decision. Defined.

Record SocketAddr := mkSocketAddr { sa_ip : IpAddr; sa_port : Z }.

#[export] Instance SocketAddr_eq_dec : EqDecision SocketAddr.
Proof. solve_decision. Defined.

Definition ipv4 (a b c d : Z) : IpAddr := V4 (((a * 256 + b) * 256 + c) * 256 + d).
Definition LOCALHOST : IpAddr := ipv4 127 0 0 1.

Definition octets (a : Z) : list Z :=
  [a / 16777216 mod 256; a / 65536 mod 256; a / 256 mod 256; a mod 256].

(** [Ipv4Addr::is_private] and the loopback tests. *)
Definition v4_is_private (a : Z) : bool :=
  match octets a with
  | [a; b; _; _] => (a =? 10) || ((a =? 172) && (16 <=? b) && (b <=? 31)) || ((a =? 192) && (b =? 168))
  | _ => false
  end.
Definition v4_is_loopback (a : Z) : bool := match octets a with 127 :: _ => true | _ => false end.
Definition v6_is_loopback (a : Z) : bool := a =? 1.

Definition show_ipv4 (a : Z) : bytes := join (bs ".") (show <$> octets a).

Definition segments (a : Z) : list Z :=
  (fun k => a / 2 ^ (16 * k) mod 65536) <$> [7; 6; 5; 4; 3; 2; 1; 0].

(** [{:x}] of a 16-bit value. *)
Definition show_hex16 (z : Z) : bytes :=
  match drop_while (fun c => c =? 48) (ascii_lower <$> show_hex 4 z []) with
  | [] => bs "0"
  | s => s
  end.

Definition show_segments (l : list Z) : bytes := join (bs ":") (show_hex16 <$> l).

(** First longest run of zero segments: (start, length). *)
Fixpoint longest_zeroes (l : list Z) (i : nat) (cur best : nat * nat) : nat * nat :=
  match l with
  | [] => best
  | x :: l =>
      if x =? 0 then
        let cur := (if Nat.eqb cur.2 0 then i else cur.1, S cur.2) in
        longest_zeroes l (S i) cur (if Nat.ltb best.2 cur.2 then cur else best)
      else longest_zeroes l (S i) (0%nat, 0%nat) best
  end.

Definition show_ipv6 (a : Z) : bytes :=
  if (a / 2 ^ 32 =? 65535) then bs "::ffff:" ++ show_ipv4 (a mod 2 ^ 32)
  else
    let segs := segments a in
    let '(start, len) := longest_zeroes segs 0 (0%nat, 0%nat) (0%nat, 0%nat) in
    if Nat.ltb 1 len
    then show_segments (take start segs) ++ bs "::" ++ show_segments (drop (start + len) segs)
    else show_segments segs.

(** [Display for IpAddr]. *)
Definition show_ip (ip : IpAddr) : bytes :=
  match ip with V4 a => show_ipv4 a | V6 a => show_ipv6 a end.

Example show_ip_v4 : show_ip (ipv4 10 0 200 7) = bs "10.0.200.7".
Proof. reflexivity. Qed.

Example show_ip_v6 : show_ip (V6 (0x20010db8000000000000000000000001)) = bs "2001:db8::1".
Proof. reflexivity. Qed.

Example show_ip_v6_loopback : show_ip (V6 1) = bs "::1".
Proof. reflexivity. Qed.

(** [Display for SocketAddr]. *)
Definition show_socket_addr (a : SocketAddr) : bytes :=
  match sa_ip a with
  | V4 _ => show_ip (sa_ip a) ++ bs ":" ++ show (sa_port a)
  | V6 _ => bs "[" ++ show_ip (sa_ip a) ++ bs "]:" ++ show (sa_port a)
  end.

(** ** Parsing ([FromStr for IpAddr])

    Each reader returns the value and the rest, or fails without consuming. *)

Definition to_digit (radix c : Z) : option Z := digit_val radix c.

Fixpoint read_digits (radix : Z) (s : bytes) (acc : Z) (n : nat) : Z * nat * bytes :=
  match s with
  | [] => (acc, n, [])
  | c :: s' => match to_digit radix c with
               | Some d => read_digits radix s' (acc * radix + d) (S n)
               | None => (acc, n, s)
               end
  end.

(** At most [max_digits] digits, at least one, a value of at most [max]. *)
Definition read_number (radix : Z) (max_digits : nat) (allow_zero_prefix : bool) (max : Z)
    (s : bytes) : option (Z * bytes) :=
  let '(v, n, rest) := read_digits radix s 0 0 in
  if Nat.eqb n 0 || Nat.ltb max_digits n then None
  else if negb allow_zero_prefix && bool_decide (head s = Some 48) && Nat.ltb 1 n then None
  else if max <? v then None
  else Some (v, rest).

Definition read_separator {A} (sep : Z) (index : nat) (inner : bytes -> option (A * bytes))
    (s : bytes) : option (A * bytes) :=
  match index with
  | O => inner s
  | S _ => match s with
           | c :: s => if c =? sep then inner s else None
           | [] => None
           end
  end.

Definition read_ipv4_addr (s : bytes) : option (Z * bytes) :=
  let octet i := read_separator DOT i (read_number 10 3 false 255) in
  match octet 0%nat s with
  | None => None
  | Some (a, s) =>
      match octet 1%nat s with
      | None => None
      | Some (b, s) =>
          match octet 2%nat s with
          | None => None
          | Some (c, s) =>
              match octet 3%nat s with
              | None => None
              | Some (d, s) => Some (((a * 256 + b) * 256 + c) * 256 + d, s)
              end
          end
      end
  end.

(** The groups read before failing (at most [todo] more, [i] read so far), and
    whether they end in an embedded IPv4 address. *)
Fixpoint read_groups (todo i : nat) (s : bytes) : list Z * bool * bytes :=
  match todo with
  | O => ([], false, s)
  | S todo' =>
      match (if Nat.ltb 1 todo then read_separator 58 i read_ipv4_addr s else None) with
      | Some (v4, s) => ([v4 / 65536; v4 mod 65536], true, s)
      | None =>
          match read_separator 58 i (read_number 16 4 true 65535) s with
          | Some (g, s) => let '(gs, v4, s) := read_groups todo' (S i) s in (g :: gs, v4, s)
          | None => ([], false, s)
          end
      end
  end.

Definition of_groups (gs : list Z) : Z := foldl (fun a g => a * 65536 + g) 0 gs.

Definition read_ipv6_addr (s : bytes) : option (Z * bytes) :=
  let '(head, head_ipv4, s) := read_groups 8 0 s in
  if Nat.eqb (length head) 8 then Some (of_groups head, s)
  else if head_ipv4 then None
  else match strip_prefix s (bs "::") with
       | None => None
       | Some s =>
           let '(tail, _, s) := read_groups (7 - length head) 0 s in
           Some (of_groups (head ++ replicate (8 - length head - length tail) 0 ++ tail), s)
       end.

Definition parse_ip (s : bytes) : option IpAddr :=
  match read_ipv4_addr s with
  | Some (v, []) => Some (V4 v)
  | Some _ => None
  | None => match read_ipv6_addr s with
            | Some (v, []) => Some (V6 v)
            | _ => None
            end
  end.

(** [SocketAddr::from_str]: a port is decimal digits; the scope of an IPv6 address is read
    and dropped. *)
Definition parse_port (s : bytes) : option Z :=
  if forallb (fun b => (48 <=? b) && (b <=? 57)) s then parse_uint 16 10 s else None.

Definition parse_scope (s : bytes) : option bytes :=
  match s with
  | 37 :: s =>
      '(scope, rest) ← split_once s 93;
      if forallb (fun b => (48 <=? b) && (b <=? 57)) scope
      then _ ← parse_uint 32 10 scope; Some (93 :: rest) else None
  | _ => Some s
  end.

Definition parse_socket_addr (s : bytes) : option SocketAddr :=
  match read_ipv4_addr s, s with
  | Some (v, 58 :: rest), _ => port ← parse_port rest; Some (mkSocketAddr (V4 v) port)
  | _, 91 :: s =>
      '(v, s) ← read_ipv6_addr s;
      s ← parse_scope s;
      match s with
      | 93 :: 58 :: rest => port ← parse_port rest; Some (mkSocketAddr (V6 v) port)
      | _ => None
      end
  | _, _ => None
  end.

Example parse_socket_addr_v4 : parse_socket_addr (bs "10.0.0.1:0080") = Some (mkSocketAddr (ipv4 10 0 0 1) 80).
Proof. reflexivity. Qed.

Example parse_socket_addr_v6 : parse_socket_addr (bs "[::1%2]:25") = Some (mkSocketAddr (V6 1) 25).
Proof. reflexivity. Qed.

Example parse_socket_addr_bad :
  parse_socket_addr <$> [bs "10.0.0.1"; bs "10.0.0.1:+1"; bs "10.0.0.1:"; bs "[::1]"; bs "host:80"; bs "10.0.0.1:65536"] =
  replicate 6 None.
Proof. reflexivity. Qed.

Example parse_ip_v4 : parse_ip (bs "192.0.2.7") = Some (ipv4 192 0 2 7).
Proof. reflexivity. Qed.

Example parse_ip_v4_leading_zero : parse_ip (bs "192.0.02.7") = None.
Proof. reflexivity. Qed.

Example parse_ip_v6 : parse_ip (bs "2001:db8::ffff:10.0.0.1") = Some (V6 0x20010db8000000000000ffff0a000001).
Proof. reflexivity. Qed.

Example parse_ip_v6_bad : parse_ip (bs "1:2:3") = None.
Proof. reflexivity. Qed.
