(* ===== verification/External.v ===== *)
(** * Libraries the program calls

    One class per third-party crate that several components use: its functions
    are parameters of the definitions that call them.  A class whose name ends in
    [Spec] states documented behaviour a theorem relies on.  Each class has an
    instance, of low priority, on which the examples are evaluated. *)

From S2P Require Import Prelude RustStr Net.
Open Scope Z_scope.

(** [regex]: a pattern compiles or not; whether it matches somewhere. *)
Class RegexLib := {
  Regex : Type;
  regex_new : bytes -> option Regex;
  is_match : Regex -> bytes -> bool;
}.

(** [Regex::find_iter(..).count()], and the first group of each of the successive
    matches of [Regex::captures_iter]. *)
Class RegexFind `{RegexLib} := {
  find_count : Regex -> bytes -> Z;
  captures_1 : Regex -> bytes -> list (option bytes);
}.

(** The pattern is a literal, matched as a substring. *)
#[export] Instance literal_regex : RegexLib | 100 := {|
  Regex := bytes; regex_new p := Some p; is_match p s := contains s p |}.

#[export] Instance literal_find : @RegexFind literal_regex | 100 := {|
  find_count p s := if contains s p then 1 else 0;
  captures_1 p s := if contains s p then [Some p] else [] |}.

(** [ip_network]: CIDR networks. *)
Class IpNetworkLib := {
  IpNetwork : Type;
  net_parse : bytes -> result IpNetwork bytes;
  net_contains : IpNetwork -> IpAddr -> bool;
}.

(** Networks that hold a single IPv4 address, written [a.b.c.d/32]. *)
#[export] Instance host_networks : IpNetworkLib | 100 := {|
  IpNetwork := bytes;
  net_parse s := if ends_with s (bs "/32") then Ok s else Err (bs "invalid");
  net_contains net ip := bool_decide (show_ip ip ++ bs "/32" = net);
|}.

(** [hickory_resolver]: the addresses of a name, and the names of an address,
    with the trailing dot [Name::to_string] prints; [Err] is any failed lookup. *)
Class Resolver := {
  resolve_ip : bytes -> result (list IpAddr) unit;
  reverse_lookup : IpAddr -> result (list bytes) unit;
}.

(** A resolver of a finite zone, for the examples. *)
Definition zone_resolver (names : list (bytes * IpAddr)) : Resolver := {|
  resolve_ip n :=
    let l := List.filter (fun p : bytes * IpAddr => bool_decide (p.1 = n)) names in
    if is_nil l then Err tt else Ok (l.*2);
  reverse_lookup ip :=
    let l := List.filter (fun p : bytes * IpAddr => bool_decide (p.2 = ip)) names in
    if is_nil l then Err tt else Ok ((fun p : bytes * IpAddr => p.1 ++ bs ".") <$> l) |}.

(** [mail_auth]: verification of SPF, DKIM, ARC and DMARC. *)
Inductive SpfResult := SpfPass | SpfFail | SpfSoftFail | SpfNeutral | SpfNone | SpfTempError | SpfPermError.
Inductive DkimResult := DkimPass | DkimFail | DkimNeutral | DkimNone | DkimPermError | DkimTempError.
Inductive DmarcResult := DmarcPass | DmarcFail | DmarcTempError | DmarcPermError | DmarcNone.
Inductive DmarcPolicy := PolicyNone | PolicyQuarantine | PolicyReject | PolicyUnspecified.

Class SpfLib := {
  (** client address, greeting name, domain, sender *)
  verify_spf_sender : IpAddr -> bytes -> bytes -> bytes -> SpfResult;
}.

Class MailAuth `{SpfLib} := {
  AuthenticatedMessage : Type;
  parse_authenticated : bytes -> option AuthenticatedMessage;
  verify_dkim : AuthenticatedMessage -> list DkimResult;
  verify_arc : AuthenticatedMessage -> DkimResult;
  (** the alignment of the DKIM results, and the policy of the domain *)
  verify_dmarc : AuthenticatedMessage -> list DkimResult -> bytes -> SpfResult ->
                 DmarcResult * DmarcPolicy;
}.

(** [mail_parser]: the attachments of a message. *)
Record Attachment := mkAttachment {
  attachment_name : option bytes;
  content_ctype : option bytes;
  contents : bytes;
}.
Class MailParser := { parse_mime : bytes -> option (list Attachment) }.

(** [lol_html]: the elements a rewriter visits, their tag and [style] attribute. *)
Record HtmlElement := mkElement { tag : bytes; style_attr : option bytes }.
Class LolHtml := { html_elements : bytes -> list HtmlElement }.
