(* ===== verification/Config.v ===== *)
(** * Loading, checking, writing and editing the configuration

    [serverwall-core/src/config/loader.rs], [writer.rs], [editor.rs], [signal.rs],
    [defaults.rs], [error.rs], and [serverwall-proxy/src/reload.rs], on the files of
    [Fs].  The editor is used by the command line tool and by the management
    interface. *)

From S2P Require Import Prelude RustStr Float64 Toml Schema Fs Net External.
Open Scope Z_scope.
#[global] Arguments de : simpl never.
#[global] Arguments ser : simpl never.
#[global] Arguments fits : simpl never.
#[global] Arguments settle : simpl never.

(** ** [error.rs] *)

Inductive ServerWallError :=
| Config (message : bytes)
| ConfigLoad (path : bytes)
| Tls (message : bytes)
| CertNotFound (domain : bytes)
| Acme (message : bytes)
| BackendNotFound (id : bytes)
| FrontendNotFound (id : bytes)
| PoolNotFound (id : bytes)
| NoHealthyBackends (pool : bytes)
| AccessDenied (ip : IpAddr)
| HealthCheckFailed (backend_id reason : bytes)
| ProtocolError (message : bytes)
| WafBlocked (rule_id reason : bytes)
| RateLimited (retry_after_secs : Z)
| SpamRejected (score threshold : Z)
| VirusDetected (virus_name scanner : bytes)
| RelayDenied (reason : bytes)
| Queue (message : bytes)
| DkimSign (message : bytes)
| DnsError (message : bytes)
| AuthFailed (message : bytes)
| Io (message : bytes)
| Other (message : bytes).

Definition show_error (e : ServerWallError) : bytes :=
  match e with
  | Config m => bs "configuration error: " ++ m
  | ConfigLoad p => bs "failed to load configuration file: " ++ p
  | Tls m => bs "TLS error: " ++ m
  | CertNotFound d => bs "certificate not found for domain: " ++ d
  | Acme m => bs "ACME error: " ++ m
  | BackendNotFound i => bs "backend not found: " ++ i
  | FrontendNotFound i => bs "frontend not found: " ++ i
  | PoolNotFound i => bs "pool not found: " ++ i
  | NoHealthyBackends p => bs "no healthy backends available in pool " ++ p
  | AccessDenied ip => bs "access denied for " ++ show_ip ip
  | HealthCheckFailed b r => bs "health check failed for backend " ++ b ++ bs ": " ++ r
  | ProtocolError m => bs "protocol error: " ++ m
  | WafBlocked i r => bs "WAF blocked request: " ++ r ++ bs " (rule: " ++ i ++ bs ")"
  | RateLimited s => bs "rate limited: retry after " ++ show s ++ bs "s"
  | SpamRejected s t => bs "spam rejected: score " ++ show s ++ bs "% exceeds threshold " ++ show t ++ bs "%"
  | VirusDetected v s => bs "virus detected: " ++ v ++ bs " (scanner: " ++ s ++ bs ")"
  | RelayDenied r => bs "relay denied: " ++ r
  | Queue m => bs "queue error: " ++ m
  | DkimSign m => bs "DKIM signing error: " ++ m
  | DnsError m => bs "DNS resolution error: " ++ m
  | AuthFailed m => bs "authentication failed: " ++ m
  | Io m => bs "I/O error: " ++ m
  | Other m => m
  end.

(** Computations on files that fail with these errors. *)
Definition cio (A : Type) : Type := disk -> result A ServerWallError * disk.
Definition cio_ret {A} (x : A) : cio A := fun d => (Ok x, d).
Definition cio_of {A} (r : result A ServerWallError) : cio A := fun d => (r, d).
Definition cio_bind {A B} (m : cio A) (k : A -> cio B) : cio B := fun d =>
  match m d with
  | (Ok x, d) => k x d
  | (Err e, d) => (Err e, d)
  end.
Notation "'let*' x ':=' m 'in' k" := (cio_bind m (fun x => k))
  (at level 10, x pattern, k at level 200) : rust_scope.

(** [map_err]. *)
Definition or_error {A} (e : bytes -> ServerWallError) (m : io A) : cio A := fun d =>
  match m d with
  | (Ok x, d) => (Ok x, d)
  | (Err s, d) => (Err (e s), d)
  end.

(** ** [loader.rs]: validation *)

Definition quote (s : bytes) : bytes := bs "'" ++ s ++ bs "'".

Definition requires_tls (f : FrontendConfig) : bool :=
  match fr_protocol f with
  | Https | Smtps | SmtpStarttls | Imaps => true
  | _ => false
  end.

Definition has_tls_config (f : FrontendConfig) : bool :=
  match fr_tls_cert f, fr_tls_pfx f with None, None => false | _, _ => true end.

(** The derived [Debug] of the protocol. *)
Definition debug_protocol (p : ProtocolType) : bytes :=
  match p with
  | Https => bs "Https" | Smtps => bs "Smtps" | SmtpStarttls => bs "SmtpStarttls"
  | Imaps => bs "Imaps" | Tcp => bs "Tcp" | Stratum => bs "Stratum"
  end.

Definition fail_if (b : bool) (message : bytes) : result unit ServerWallError :=
  if b then Err (Config message) else Ok tt.

(** [for x in l { f(x)? }]. *)
Fixpoint for_all {A E} (f : A -> result unit E) (l : list A) : result unit E :=
  match l with
  | [] => Ok tt
  | x :: l => let? _ := f x in for_all f l
  end.

Definition member (x : bytes) (l : list bytes) : bool := bool_decide (x ∈ l).

(** [HashSet::insert] of every name in turn; the first that was there is an error. *)
Fixpoint check_unique (what : bytes) (seen : list bytes) (l : list bytes) : result unit ServerWallError :=
  match l with
  | [] => Ok tt
  | x :: l =>
      if member x seen then Err (Config (bs "duplicate " ++ what ++ bs " name " ++ quote x))
      else check_unique what (x :: seen) l
  end.

Definition validate_frontend (pool_names : list bytes) (f : FrontendConfig) : result unit ServerWallError :=
  let? _ := fail_if (negb (member (fr_backend_pool f) pool_names))
    (bs "frontend " ++ quote (fr_name f) ++ bs " references unknown backend_pool " ++ quote (fr_backend_pool f)) in
  let? _ := fail_if (requires_tls f && negb (has_tls_config f))
    (bs "frontend " ++ quote (fr_name f) ++ bs " uses protocol " ++ debug_protocol (fr_protocol f) ++
     bs " but has no TLS certificate configured") in
  let? _ := fail_if (is_nil (fr_listen f))
    (bs "frontend " ++ quote (fr_name f) ++ bs " has no listen addresses") in
  fail_if (fr_waf_enabled f && negb (bool_decide (fr_protocol f = Https)))
    (bs "frontend " ++ quote (fr_name f) ++ bs " has waf_enabled=true but protocol is " ++
     debug_protocol (fr_protocol f) ++ bs " (WAF is HTTPS-only)").

Section Config.
Context `{TomlLib} `{IpNetworkLib}.

Definition validate_config (config : ServerWallConfig) : result unit ServerWallError :=
  let pool_names := pc_name <$> cfg_backend_pool config in
  let? _ := for_all (validate_frontend pool_names) (cfg_frontend config) in
  let? _ := for_all (fun p => fail_if (is_nil (pc_backend p))
    (bs "backend_pool " ++ quote (pc_name p) ++ bs " has no backends defined")) (cfg_backend_pool config) in
  let? _ := check_unique (bs "frontend") [] (fr_name <$> cfg_frontend config) in
  let? _ := check_unique (bs "backend_pool") [] (pc_name <$> cfg_backend_pool config) in
  let? _ := for_all (fun s => fail_if (negb (contains (sn_command s) (bs "{file}")))
    (bs "antivirus scanner " ++ quote (sn_name s) ++ bs " command must contain '{file}' placeholder"))
    (av_scanners (fc_antivirus (cfg_antispam config))) in
  for_all (fun h => fail_if (negb (is_ok (net_parse h)))
    (bs "relay trusted_host " ++ quote h ++ bs " is not a valid IP or CIDR"))
    (th_hosts (rel_trusted_hosts (cfg_relay config))).

(** ** [loader.rs]: loading *)

Definition load_config_from_str (content : bytes) : result ServerWallConfig ServerWallError :=
  match toml_from_str content ≫= de ServerWallConfig_codec with
  | Some config => Ok config
  | None => Err (Config (toml_message content))
  end.

(** The lists of a drop-in file are appended; nothing else of it is used. *)
Definition merge_config (base fragment : ServerWallConfig) : ServerWallConfig :=
  upd_cfg_frontend (fun l => l ++ cfg_frontend fragment)
    (upd_cfg_backend_pool (fun l => l ++ cfg_backend_pool fragment)
      (upd_cfg_waf_ruleset (fun l => l ++ cfg_waf_ruleset fragment)
        (upd_cfg_antispam (upd_domain_overrides (fun l => l ++ domain_overrides (cfg_antispam fragment)))
          (upd_cfg_relay (upd_rel_dkim (upd_rd_domains (fun l => l ++ rd_domains (rel_dkim (cfg_relay fragment)))))
            base)))).

Fixpoint load_fragments (dir : bytes) (entries : list bytes) (config : ServerWallConfig) : cio ServerWallConfig :=
  match entries with
  | [] => cio_ret config
  | name :: entries =>
      let path := path_join dir name in
      let* content := or_error (fun _ => ConfigLoad path) (fs_read_to_string path) in
      match toml_from_str content ≫= de ServerWallConfig_codec with
      | None => cio_of (Err (Config (path ++ bs ": " ++ toml_message content)))
      | Some fragment => load_fragments dir entries (merge_config config fragment)
      end
  end.

(** The drop-in files of a directory, in the order of their names. *)
Definition fragment_names (entries : list bytes) : list bytes :=
  sort_strings (List.filter (fun n => bool_decide (path_extension n = Some (bs "toml"))) entries).

(** [Path::is_dir]: a directory without files is as good as none. *)
Definition is_dir (dir : bytes) : cio bool := fun d => (Ok (negb (is_nil (dir_names dir (files d)))), d).

Definition load_drop_ins (config : ServerWallConfig) : cio ServerWallConfig :=
  match gc_config_dir (cfg_global config) with
  | None => cio_ret config
  | Some dir =>
      let* b := is_dir dir in
      if b then
        let* entries := or_error (fun _ => ConfigLoad dir) (fs_read_dir dir) in
        load_fragments dir (fragment_names entries) config
      else cio_ret config
  end.

Definition load_config (path : bytes) : cio ServerWallConfig :=
  let* content := or_error (fun _ => ConfigLoad path) (fs_read_to_string path) in
  let* config := cio_of (load_config_from_str content) in
  let* config := load_drop_ins config in
  let* _ := cio_of (validate_config config) in
  cio_ret config.

(** ** [writer.rs] *)

Definition lock_path (path : bytes) : bytes := path ++ bs ".lock".
Definition tmp_name (pid : Z) : bytes := bs ".serverwall_cfg_tmp_" ++ show pid ++ bs ".toml".

(** [pause] is what other processes do to the files while this one sleeps. *)
Variable pause : gmap bytes bytes -> gmap bytes bytes.

Definition sleep : cio unit := fun d => (Ok tt, mkDisk (pause (files d)) (script d)).

(** [for attempt in 0..5]: [n] attempts remain. *)
Fixpoint acquire_lock_loop (lock : bytes) (n : nat) : cio unit :=
  match n with
  | O => cio_of (Err (Config (bs "config file is locked by another process")))
  | S n =>
      let* created := or_error Io (fs_create_new lock) in
      if created then cio_ret tt
      else
        let* _ := (if bool_decide (n = O) then cio_ret tt else sleep) in
        acquire_lock_loop lock n
  end.

Definition acquire_lock (path : bytes) : cio unit := acquire_lock_loop (lock_path path) 5.

(** [Drop] of the guard: a failure to remove the file is ignored. *)
Definition unlock (path : bytes) (d : disk) : disk := snd (fs_remove_file (lock_path path) d).
Definition with_lock {A} (path : bytes) (m : cio A) : cio A := fun d =>
  match acquire_lock path d with
  | (Err e, d) => (Err e, d)
  | (Ok _, d) => let (r, d) := m d in (r, unlock path d)
  end.

(** [File::create] and [write_all]; [sync_all] may fail after them. *)
Definition create_synced (tmp data : bytes) : cio unit :=
  let* _ := or_error Io (fs_write tmp data) in
  fun d => let (f, s) := next_fault d in
    match f with
    | FOk => (Ok tt, mkDisk (files d) s)
    | _ => (Err (Io (bs "sync")), mkDisk (files d) s)
    end.

(** The rename; when it fails the temporary file is removed. *)
Definition rename_or_remove (tmp path : bytes) : cio unit := fun d =>
  match fs_rename tmp path d with
  | (Ok _, d) => (Ok tt, d)
  | (Err e, d) => (Err (Io e), snd (fs_remove_file tmp d))
  end.

(** [pid] is the process id.  What the serializer says of a value it refuses is left out
    of the message. *)
Definition write_config_atomic (pid : Z) (path : bytes) (config : ServerWallConfig) : cio unit :=
  match ser ServerWallConfig_codec config with
  | None => cio_of (Err (Config (bs "failed to serialize config")))
  | Some doc =>
      match path_parent path with
      | None => cio_of (Err (Config (bs "config path has no parent directory")))
      | Some parent =>
          with_lock path
            (let tmp := path_join parent (tmp_name pid) in
             let* _ := create_synced tmp (toml_to_string doc) in
             rename_or_remove tmp path)
      end
  end.

(** ** [defaults.rs], [signal.rs], [reload.rs] *)

Definition generate_default_config : bytes :=
  match ser ServerWallConfig_codec ServerWallConfig_default with
  | Some doc => toml_to_string doc
  | None => []
  end.

(** [kill] is the system call, on a process id: whether it succeeded.  The contents of a
    malformed file are left out of the message. *)
Definition send_reload_signal (kill : Z -> bool) (pid_file : bytes) : cio unit :=
  let* content := or_error (fun e => Config (bs "failed to read PID file " ++ pid_file ++ bs ": " ++ e))
                    (fs_read_to_string pid_file) in
  match parse_int 32 (trim content) with
  | None => cio_of (Err (Config (bs "invalid PID in " ++ pid_file)))
  | Some pid => if kill pid then cio_ret tt else cio_of (Err (Io (bs "kill")))
  end.

(** What a SIGHUP makes of the running configuration: one that does not load is
    reported, and the current one is kept. *)
Definition on_reload (path : bytes) (current : ServerWallConfig) (d : disk) : ServerWallConfig :=
  match load_config path d with
  | (Ok config, _) => config
  | (Err _, _) => current
  end.

(** ** [editor.rs] *)

(** Every operation of the editor loads the configuration, changes it, validates it
    and writes it. *)
Definition edit (pid : Z) (path : bytes) (change : ServerWallConfig -> result ServerWallConfig ServerWallError)
  : cio unit :=
  let* config := load_config path in
  let* config := cio_of (change config) in
  let* _ := cio_of (validate_config config) in
  write_config_atomic pid path config.
End Config.

(** *** Changes of a list *)

(** Append an element whose key no element has. *)
Definition add_new {A} (key : A -> bytes) (x : A) (exists_message : bytes) (l : list A)
  : result (list A) ServerWallError :=
  if existsb (fun y => bool_decide (key y = key x)) l then Err (Config exists_message) else Ok (l ++ [x]).

(** [retain]; it is an error when nothing was removed. *)
Definition remove_named {A} (key : A -> bytes) (name missing_message : bytes) (l : list A)
  : result (list A) ServerWallError :=
  let l' := List.filter (fun y => negb (bool_decide (key y = name))) l in
  if bool_decide (length l' = length l) then Err (Config missing_message) else Ok l'.

(** Assign to the first element with the key. *)
Definition replace_named {A} (key : A -> bytes) (name : bytes) (x : A) (missing_message : bytes) (l : list A)
  : result (list A) ServerWallError :=
  match list_find (fun y => key y = name) l with
  | None => Err (Config missing_message)
  | Some (i, _) => Ok (<[i := x]> l)
  end.

(** [if !l.contains(&x) { l.push(x) }], and [l.retain(|y| y != x)]. *)
Definition insert_string (x : bytes) (l : list bytes) : list bytes := if member x l then l else l ++ [x].
Definition remove_string (x : bytes) (l : list bytes) : list bytes :=
  List.filter (fun y => negb (bool_decide (y = x))) l.

(** A change of one list of the configuration, read with [get] and assigned with [upd]. *)
Definition on_list {A} (get : ServerWallConfig -> list A) (upd : (list A -> list A) -> ServerWallConfig -> ServerWallConfig)
    (f : list A -> result (list A) ServerWallError) (c : ServerWallConfig) : result ServerWallConfig ServerWallError :=
  let? l := f (get c) in Ok (upd (fun _ => l) c).

(** *** The changes, by the names of the operations *)

Definition change : Type := ServerWallConfig -> result ServerWallConfig ServerWallError.

Definition not_found (what name : bytes) : bytes := what ++ quote name ++ bs " not found".
Definition already (what name how : bytes) : bytes := what ++ quote name ++ how.

Definition add_frontend (frontend : FrontendConfig) : change :=
  on_list cfg_frontend upd_cfg_frontend
    (add_new fr_name frontend (already (bs "frontend ") (fr_name frontend) (bs " already exists"))).
Definition remove_frontend (name : bytes) : change :=
  on_list cfg_frontend upd_cfg_frontend (remove_named fr_name name (not_found (bs "frontend ") name)).
Definition update_frontend (name : bytes) (frontend : FrontendConfig) : change :=
  on_list cfg_frontend upd_cfg_frontend
    (replace_named fr_name name (upd_fr_name (fun _ => name) frontend) (not_found (bs "frontend ") name)).

Definition add_backend_pool (pool : BackendPoolConfig) : change :=
  on_list cfg_backend_pool upd_cfg_backend_pool
    (add_new pc_name pool (already (bs "backend pool ") (pc_name pool) (bs " already exists"))).
Definition remove_backend_pool (name : bytes) : change :=
  on_list cfg_backend_pool upd_cfg_backend_pool (remove_named pc_name name (not_found (bs "backend pool ") name)).
Definition update_backend_pool (pool_name : bytes) (pool : BackendPoolConfig) : change :=
  on_list cfg_backend_pool upd_cfg_backend_pool
    (replace_named pc_name pool_name (upd_pc_name (fun _ => pool_name) pool) (not_found (bs "backend pool ") pool_name)).

(** [iter_mut().find(..)] of the pool, and a change of its backends. *)
Definition in_pool (pool_name : bytes) (f : list BackendConfig -> result (list BackendConfig) ServerWallError)
    (pools : list BackendPoolConfig) : result (list BackendPoolConfig) ServerWallError :=
  match list_find (fun p => pc_name p = pool_name) pools with
  | None => Err (Config (not_found (bs "backend pool ") pool_name))
  | Some (i, p) => let? l := f (pc_backend p) in Ok (<[i := upd_pc_backend (fun _ => l) p]> pools)
  end.
Definition add_backend (pool_name : bytes) (backend : BackendConfig) : change :=
  on_list cfg_backend_pool upd_cfg_backend_pool (in_pool pool_name
    (add_new bc_name backend (bs "backend " ++ quote (bc_name backend) ++ bs " already exists in pool " ++ quote pool_name))).
Definition remove_backend (pool_name backend_name : bytes) : change :=
  on_list cfg_backend_pool upd_cfg_backend_pool (in_pool pool_name
    (remove_named bc_name backend_name (bs "backend " ++ quote backend_name ++ bs " not found in pool " ++ quote pool_name))).

Definition add_waf_ruleset (ruleset : WafRulesetConfig) : change :=
  on_list cfg_waf_ruleset upd_cfg_waf_ruleset
    (add_new rs_name ruleset (already (bs "WAF ruleset ") (rs_name ruleset) (bs " already exists"))).
Definition remove_waf_ruleset (name : bytes) : change :=
  on_list cfg_waf_ruleset upd_cfg_waf_ruleset (remove_named rs_name name (not_found (bs "WAF ruleset ") name)).
Definition update_waf_ruleset (name : bytes) (ruleset : WafRulesetConfig) : change :=
  on_list cfg_waf_ruleset upd_cfg_waf_ruleset
    (replace_named rs_name name (upd_rs_name (fun _ => name) ruleset) (not_found (bs "WAF ruleset ") name)).

(** Domains the relay signs for and publishes records of. *)
Definition dkim_domains (c : ServerWallConfig) := rd_domains (rel_dkim (cfg_relay c)).
Definition upd_dkim_domains g := upd_cfg_relay (upd_rel_dkim (upd_rd_domains g)).
Definition add_dkim_domain (domain : DkimDomainConfig) : change :=
  on_list dkim_domains upd_dkim_domains
    (add_new dd_domain domain (already (bs "DKIM domain ") (dd_domain domain) (bs " already configured"))).
Definition remove_dkim_domain (domain : bytes) : change :=
  on_list dkim_domains upd_dkim_domains (remove_named dd_domain domain (not_found (bs "DKIM domain ") domain)).

Definition dmarc_domains (c : ServerWallConfig) := rdp_domains (rel_dmarc_publish (cfg_relay c)).
Definition upd_dmarc_domains g := upd_cfg_relay (upd_rel_dmarc_publish (upd_rdp_domains g)).
Definition add_dmarc_policy_domain (domain : DmarcPolicyDomain) : change :=
  on_list dmarc_domains upd_dmarc_domains
    (add_new dp_domain domain (already (bs "DMARC policy for ") (dp_domain domain) (bs " already configured"))).
Definition update_dmarc_policy_domain (name : bytes) (domain : DmarcPolicyDomain) : change :=
  on_list dmarc_domains upd_dmarc_domains
    (replace_named dp_domain name (upd_dp_domain (fun _ => name) domain) (not_found (bs "DMARC policy for ") name)).
Definition remove_dmarc_policy_domain (domain : bytes) : change :=
  on_list dmarc_domains upd_dmarc_domains (remove_named dp_domain domain (not_found (bs "DMARC policy for ") domain)).

Definition spf_domains (c : ServerWallConfig) := rsp_domains (rel_spf_publish (cfg_relay c)).
Definition upd_spf_domains g := upd_cfg_relay (upd_rel_spf_publish (upd_rsp_domains g)).
Definition add_spf_domain (domain : SpfDomainConfig) : change :=
  on_list spf_domains upd_spf_domains
    (add_new sd_domain domain (already (bs "SPF record for ") (sd_domain domain) (bs " already configured"))).
Definition update_spf_domain (name : bytes) (domain : SpfDomainConfig) : change :=
  on_list spf_domains upd_spf_domains
    (replace_named sd_domain name (upd_sd_domain (fun _ => name) domain) (not_found (bs "SPF record for ") name)).
Definition remove_spf_domain (domain : bytes) : change :=
  on_list spf_domains upd_spf_domains (remove_named sd_domain domain (not_found (bs "SPF record for ") domain)).

Definition trusted_hosts (c : ServerWallConfig) := th_hosts (rel_trusted_hosts (cfg_relay c)).
Definition upd_trusted_hosts g := upd_cfg_relay (upd_rel_trusted_hosts (upd_th_hosts g)).
Definition add_trusted_host (host : bytes) : change :=
  on_list trusted_hosts upd_trusted_hosts
    (add_new id host (already (bs "trusted host ") host (bs " already exists"))).
Definition remove_trusted_host (host : bytes) : change :=
  on_list trusted_hosts upd_trusted_hosts (remove_named id host (not_found (bs "trusted host ") host)).
Definition set_relay_config (relay : RelayConfig) : change := fun c => Ok (upd_cfg_relay (fun _ => relay) c).

(** Access lists. *)
Definition upd_ip_acl (f : IpAclConfig -> IpAclConfig) : ServerWallConfig -> ServerWallConfig :=
  upd_cfg_security (upd_sec_acl (upd_sacl_ip f)).
Definition add_acl_allow (ip : bytes) : change := fun c => Ok (upd_ip_acl (upd_ia_allow (insert_string ip)) c).
Definition add_acl_block (ip : bytes) : change := fun c => Ok (upd_ip_acl (upd_ia_block (insert_string ip)) c).
Definition remove_acl_ip (ip : bytes) : change := fun c =>
  Ok (upd_ip_acl (fun a => upd_ia_block (remove_string ip) (upd_ia_allow (remove_string ip) a)) c).

(** Lists of the mail filter: addresses as they are, names in lower case. *)
Definition upd_allow (f : AntispamListConfig -> AntispamListConfig) : ServerWallConfig -> ServerWallConfig :=
  upd_cfg_antispam (upd_fc_allow f).
Definition upd_block (f : AntispamListConfig -> AntispamListConfig) : ServerWallConfig -> ServerWallConfig :=
  upd_cfg_antispam (upd_fc_block f).
Definition add_antispam_allow_ip (ip : bytes) : change := fun c => Ok (upd_allow (upd_li_ips (insert_string ip)) c).
Definition remove_antispam_allow_ip (ip : bytes) : change := fun c => Ok (upd_allow (upd_li_ips (remove_string ip)) c).
Definition add_antispam_block_ip (ip : bytes) : change := fun c => Ok (upd_block (upd_li_ips (insert_string ip)) c).
Definition remove_antispam_block_ip (ip : bytes) : change := fun c => Ok (upd_block (upd_li_ips (remove_string ip)) c).

Section Names.
Context `{Unicode}.

Definition add_antispam_allow_sender (s : bytes) : change := fun c =>
  Ok (upd_allow (upd_li_senders (insert_string (to_lowercase s))) c).
Definition remove_antispam_allow_sender (s : bytes) : change := fun c =>
  Ok (upd_allow (upd_li_senders (remove_string (to_lowercase s))) c).
Definition add_antispam_allow_domain (s : bytes) : change := fun c =>
  Ok (upd_allow (upd_li_sender_domains (insert_string (to_lowercase s))) c).
Definition remove_antispam_allow_domain (s : bytes) : change := fun c =>
  Ok (upd_allow (upd_li_sender_domains (remove_string (to_lowercase s))) c).
Definition add_antispam_allow_recipient (s : bytes) : change := fun c =>
  Ok (upd_allow (upd_li_recipients (insert_string (to_lowercase s))) c).
Definition remove_antispam_allow_recipient (s : bytes) : change := fun c =>
  Ok (upd_allow (upd_li_recipients (remove_string (to_lowercase s))) c).
Definition add_antispam_block_sender (s : bytes) : change := fun c =>
  Ok (upd_block (upd_li_senders (insert_string (to_lowercase s))) c).
Definition remove_antispam_block_sender (s : bytes) : change := fun c =>
  Ok (upd_block (upd_li_senders (remove_string (to_lowercase s))) c).
Definition add_antispam_block_domain (s : bytes) : change := fun c =>
  Ok (upd_block (upd_li_sender_domains (insert_string (to_lowercase s))) c).
Definition remove_antispam_block_domain (s : bytes) : change := fun c =>
  Ok (upd_block (upd_li_sender_domains (remove_string (to_lowercase s))) c).
Definition add_antispam_block_recipient (s : bytes) : change := fun c =>
  Ok (upd_block (upd_li_recipients (insert_string (to_lowercase s))) c).
Definition remove_antispam_block_recipient (s : bytes) : change := fun c =>
  Ok (upd_block (upd_li_recipients (remove_string (to_lowercase s))) c).
End Names.

(** Zones, scanners and overrides of the mail filter. *)
Definition dnsbl_lists (c : ServerWallConfig) := dn_lists (fc_dnsbl (cfg_antispam c)).
Definition upd_dnsbl_lists g := upd_cfg_antispam (upd_fc_dnsbl (upd_dn_lists g)).
Definition add_antispam_dnsbl_zone (zone : DnsblListEntry) : change :=
  on_list dnsbl_lists upd_dnsbl_lists
    (add_new dl_zone zone (already (bs "DNSBL zone ") (dl_zone zone) (bs " already configured"))).
Definition remove_antispam_dnsbl_zone (name : bytes) : change :=
  on_list dnsbl_lists upd_dnsbl_lists (remove_named dl_zone name (not_found (bs "DNSBL zone ") name)).

Definition surbl_zones (c : ServerWallConfig) := ua_surbl_zones (fc_url_analysis (cfg_antispam c)).
Definition upd_surbl_zones g := upd_cfg_antispam (upd_fc_url_analysis (upd_ua_surbl_zones g)).
Definition add_antispam_surbl_zone (zone : bytes) : change :=
  on_list surbl_zones upd_surbl_zones (add_new id zone (already (bs "SURBL zone ") zone (bs " already exists"))).
Definition remove_antispam_surbl_zone (zone : bytes) : change :=
  on_list surbl_zones upd_surbl_zones (remove_named id zone (not_found (bs "SURBL zone ") zone)).

Definition scanners (c : ServerWallConfig) := av_scanners (fc_antivirus (cfg_antispam c)).
Definition upd_scanners g := upd_cfg_antispam (upd_fc_antivirus (upd_av_scanners g)).
Definition add_antispam_scanner (scanner : ScannerConfig) : change :=
  on_list scanners upd_scanners
    (add_new sn_name scanner (already (bs "scanner ") (sn_name scanner) (bs " already exists"))).
Definition remove_antispam_scanner (name : bytes) : change :=
  on_list scanners upd_scanners (remove_named sn_name name (not_found (bs "scanner ") name)).

Definition overrides (c : ServerWallConfig) := domain_overrides (cfg_antispam c).
Definition upd_overrides g := upd_cfg_antispam (upd_domain_overrides g).
Definition add_antispam_domain_override (entry : DomainOverride) : change :=
  on_list overrides upd_overrides
    (add_new do_domain entry (already (bs "domain override for ") (do_domain entry) (bs " already exists"))).
Definition update_antispam_domain_override (domain : bytes) (entry : DomainOverride) : change :=
  on_list overrides upd_overrides
    (replace_named do_domain domain (upd_do_domain (fun _ => domain) entry) (not_found (bs "domain override for ") domain)).
Definition remove_antispam_domain_override (domain : bytes) : change :=
  on_list overrides upd_overrides (remove_named do_domain domain (not_found (bs "domain override for ") domain)).

Definition set_antispam_config (antispam : AntispamConfig) : change := fun c =>
  Ok (upd_cfg_antispam (fun _ => antispam) c).

(** Security settings. *)
Definition update_security_tls (tls : SecurityTlsConfig) : change := fun c =>
  Ok (upd_cfg_security (upd_sec_tls (fun _ => tls)) c).
Definition update_security_geo (geo : GeoConfig) : change := fun c =>
  Ok (upd_cfg_security (upd_sec_geo (fun _ => geo)) c).
Definition update_security_headers (headers : SecurityHeadersConfig) : change := fun c =>
  Ok (upd_cfg_security (upd_sec_headers (fun _ => headers)) c).
Definition update_security_bot (bot : BotDetectionConfig) : change := fun c =>
  Ok (upd_cfg_security (upd_sec_bot_detection (fun _ => bot)) c).
Definition update_security_cookies (cookies : CookieSecurityConfig) : change := fun c =>
  Ok (upd_cfg_security (upd_sec_cookies (fun _ => cookies)) c).
Definition update_security_acl (acl : SecurityAclConfig) : change := fun c =>
  Ok (upd_cfg_security (upd_sec_acl (fun _ => acl)) c).

Definition rate_limits (c : ServerWallConfig) := sec_rate_limit (cfg_security c).
Definition upd_rate_limits g := upd_cfg_security (upd_sec_rate_limit g).
Definition add_security_rate_limit (rule : RateLimitConfig) : change :=
  on_list rate_limits upd_rate_limits
    (add_new rlc_name rule (already (bs "rate limit rule ") (rlc_name rule) (bs " already exists"))).
Definition remove_security_rate_limit (name : bytes) : change :=
  on_list rate_limits upd_rate_limits (remove_named rlc_name name (not_found (bs "rate limit rule ") name)).

(** Profiles; an update keeps the name the new profile has. *)
Definition add_security_profile (profile : SecurityProfile) : change :=
  on_list cfg_security_profiles upd_cfg_security_profiles
    (add_new sp_name profile (already (bs "Security profile ") (sp_name profile) (bs " already exists"))).
Definition update_security_profile (name : bytes) (profile : SecurityProfile) : change :=
  on_list cfg_security_profiles upd_cfg_security_profiles
    (replace_named sp_name name profile (not_found (bs "Security profile ") name)).
Definition remove_security_profile (name : bytes) : change :=
  on_list cfg_security_profiles upd_cfg_security_profiles
    (remove_named sp_name name (not_found (bs "Security profile ") name)).
Definition add_log_profile (profile : LogProfile) : change :=
  on_list cfg_log_profiles upd_cfg_log_profiles
    (add_new lp_name profile (already (bs "Logging profile ") (lp_name profile) (bs " already exists"))).
Definition update_log_profile (name : bytes) (profile : LogProfile) : change :=
  on_list cfg_log_profiles upd_cfg_log_profiles
    (replace_named lp_name name profile (not_found (bs "Logging profile ") name)).
Definition remove_log_profile (name : bytes) : change :=
  on_list cfg_log_profiles upd_cfg_log_profiles (remove_named lp_name name (not_found (bs "Logging profile ") name)).

(** Whole sections. *)
Definition update_global_config (global : GlobalConfig) : change := fun c => Ok (upd_cfg_global (fun _ => global) c).
Definition update_acme_config (acme : AcmeConfig) : change := fun c => Ok (upd_cfg_acme (fun _ => acme) c).
Definition update_webui_allow_list (allow : list bytes) : change := fun c =>
  Ok (upd_cfg_webui (upd_webui_allow_list (fun _ => allow)) c).
Definition update_webui_config (webui : WebuiConfig) : change := fun c => Ok (upd_cfg_webui (fun _ => webui) c).

(** *** The partial update of the checks: absent fields are left alone *)

Record CheckFieldUpdate := mkCheckUpdate { cu_enabled : option bool; cu_weight : option f64 }.
Record ResidentialSpfFieldUpdate := mkResidentialUpdate {
  ru_enabled : option bool; ru_weight : option f64; ru_reject : option bool; ru_check_pbl : option bool;
  ru_pbl_zone : option bytes; ru_softfail_triggers : option bool; ru_neutral_triggers : option bool }.
Record AntivirusFieldUpdate := mkAntivirusUpdate {
  au_enabled : option bool; au_weight : option f64; au_reject_on_virus : option bool;
  au_on_scanner_error : option bytes; au_on_scanner_timeout : option bytes }.
Record SpfSeverityFieldUpdate := mkSeverityUpdate {
  su_fail : option f64; su_softfail : option f64; su_neutral : option f64; su_none : option f64 }.

Record AntispamChecksUpdate := mkChecksUpdate {
  u_enabled : option bool;
  u_possible_spam_threshold : option Z;
  u_definite_spam_threshold : option Z;
  u_max_check_duration : option bytes;
  u_dnsbl : option CheckFieldUpdate;
  u_spf : option CheckFieldUpdate;
  u_dkim : option CheckFieldUpdate;
  u_dmarc : option CheckFieldUpdate;
  u_rdns : option CheckFieldUpdate;
  u_helo : option CheckFieldUpdate;
  u_early_talker : option CheckFieldUpdate;
  u_content : option CheckFieldUpdate;
  u_url_analysis : option CheckFieldUpdate;
  u_attachment : option CheckFieldUpdate;
  u_html : option CheckFieldUpdate;
  u_header_analysis : option CheckFieldUpdate;
  u_charset : option CheckFieldUpdate;
  u_bulk : option CheckFieldUpdate;
  u_ratio : option CheckFieldUpdate;
  u_residential_spf : option ResidentialSpfFieldUpdate;
  u_antivirus : option AntivirusFieldUpdate;
  u_spf_severity : option SpfSeverityFieldUpdate;
}.

(** [if let Some(v) = o { field = v }], where [upd] assigns to the field. *)
Definition assign {A R} (o : option A) (upd : (A -> A) -> R -> R) (r : R) : R :=
  match o with Some v => upd (fun _ => v) r | None => r end.

(** The macro [apply_check], for a section [section] whose fields [enabled] and [weight]
    are assigned. *)
Definition apply_check {S} (section : (S -> S) -> AntispamConfig -> AntispamConfig)
    (enabled : (bool -> bool) -> S -> S) (weight : (f64 -> f64) -> S -> S) (o : option CheckFieldUpdate)
    (a : AntispamConfig) : AntispamConfig :=
  match o with
  | Some c => section (fun s => assign (cu_weight c) weight (assign (cu_enabled c) enabled s)) a
  | None => a
  end.

Definition apply_residential (c : ResidentialSpfFieldUpdate) (r : ResidentialSenderConfig) : ResidentialSenderConfig :=
  assign (ru_neutral_triggers c) upd_rs_neutral_triggers
    (assign (ru_softfail_triggers c) upd_rs_softfail_triggers
      (assign (ru_pbl_zone c) upd_rs_pbl_zone
        (assign (ru_check_pbl c) upd_rs_check_pbl
          (assign (ru_reject c) upd_rs_reject
            (assign (ru_weight c) upd_rs_weight (assign (ru_enabled c) upd_rs_enabled r)))))).

Definition apply_antivirus (c : AntivirusFieldUpdate) (a : AntivirusConfig) : AntivirusConfig :=
  assign (au_on_scanner_timeout c) upd_av_on_scanner_timeout
    (assign (au_on_scanner_error c) upd_av_on_scanner_error
      (assign (au_reject_on_virus c) upd_av_reject_on_virus
        (assign (au_weight c) upd_av_cfg_weight (assign (au_enabled c) upd_av_enabled a)))).

Definition apply_severity (c : SpfSeverityFieldUpdate) (s : SpfSeverityConfig) : SpfSeverityConfig :=
  assign (su_none c) upd_sv_none
    (assign (su_neutral c) upd_sv_neutral (assign (su_softfail c) upd_sv_softfail (assign (su_fail c) upd_sv_fail s))).

Definition apply_checks_update (u : AntispamChecksUpdate) (a : AntispamConfig) : AntispamConfig :=
  let weight_check section o := apply_check section upd_cw_enabled upd_cw_weight o in
  let a := assign (u_enabled u) upd_fc_enabled a in
  let a := assign (u_possible_spam_threshold u) upd_possible_spam_threshold a in
  let a := assign (u_definite_spam_threshold u) upd_definite_spam_threshold a in
  let a := assign (u_max_check_duration u) upd_max_check_duration a in
  let a := apply_check upd_fc_dnsbl upd_dn_enabled upd_dn_weight (u_dnsbl u) a in
  let a := apply_check upd_fc_spf upd_sf_enabled upd_sf_weight (u_spf u) a in
  let a := weight_check upd_fc_dkim (u_dkim u) a in
  let a := apply_check upd_fc_dmarc upd_dm_enabled upd_dm_weight (u_dmarc u) a in
  let a := weight_check upd_fc_rdns (u_rdns u) a in
  let a := weight_check upd_fc_helo (u_helo u) a in
  let a := weight_check upd_fc_early_talker (u_early_talker u) a in
  let a := apply_check upd_fc_content upd_ct_enabled upd_ct_weight (u_content u) a in
  let a := apply_check upd_fc_url_analysis upd_ua_enabled upd_ua_weight (u_url_analysis u) a in
  let a := apply_check upd_fc_attachment upd_ac_enabled upd_ac_weight (u_attachment u) a in
  let a := weight_check upd_fc_html (u_html u) a in
  let a := weight_check upd_fc_header_analysis (u_header_analysis u) a in
  let a := weight_check upd_fc_charset (u_charset u) a in
  let a := weight_check upd_fc_bulk (u_bulk u) a in
  let a := weight_check upd_fc_ratio (u_ratio u) a in
  let a := match u_residential_spf u with Some c => upd_fc_residential_spf (apply_residential c) a | None => a end in
  let a := match u_antivirus u with Some c => upd_fc_antivirus (apply_antivirus c) a | None => a end in
  match u_spf_severity u with Some c => upd_fc_spf (upd_sf_severity (apply_severity c)) a | None => a end.

Definition update_antispam_checks (u : AntispamChecksUpdate) : change := fun c =>
  Ok (upd_cfg_antispam (apply_checks_update u) c).

(** ** What validation means *)

(** A configuration the daemon accepts. *)
Record well_formed `{IpNetworkLib} (c : ServerWallConfig) : Prop := {
  wf_pool f : f ∈ cfg_frontend c -> exists p, p ∈ cfg_backend_pool c /\ pc_name p = fr_backend_pool f;
  wf_tls f : f ∈ cfg_frontend c -> requires_tls f = true -> is_Some (fr_tls_cert f) \/ is_Some (fr_tls_pfx f);
  wf_listen f : f ∈ cfg_frontend c -> fr_listen f <> [];
  wf_waf f : f ∈ cfg_frontend c -> fr_waf_enabled f = true -> fr_protocol f = Https;
  wf_backends p : p ∈ cfg_backend_pool c -> pc_backend p <> [];
  wf_frontend_names : NoDup (fr_name <$> cfg_frontend c);
  wf_pool_names : NoDup (pc_name <$> cfg_backend_pool c);
  wf_scanners s : s ∈ av_scanners (fc_antivirus (cfg_antispam c)) -> contains (sn_command s) (bs "{file}") = true;
  wf_hosts h : h ∈ th_hosts (rel_trusted_hosts (cfg_relay c)) -> is_ok (net_parse h) = true;
}.

Lemma fail_if_ok b m : fail_if b m = Ok tt <-> b = false.
Proof. by destruct b. Qed.

Lemma for_all_ok {A E} (f : A -> result unit E) l :
  for_all f l = Ok tt <-> forall x, x ∈ l -> f x = Ok tt.
Proof.
  induction l as [|x l IH]; cbn.
  - split; [|done]. intros _ x Hx. by apply elem_of_nil in Hx.
  - destruct (f x) as [[]|e] eqn:Ex.
    + rewrite IH. split; [intros Hl y [->|Hy]%elem_of_cons; auto|intros Hl y Hy; apply Hl; by right].
    + split; [done|]. intros Hl. rewrite (Hl x) in Ex by (by left). done.
Qed.

Lemma let_ok {E} (r : result unit E) (s : result unit E) :
  (let? _ := r in s) = Ok tt <-> r = Ok tt /\ s = Ok tt.
Proof. destruct r as [[]|]; naive_solver. Qed.

Lemma check_unique_ok what seen l :
  check_unique what seen l = Ok tt <-> NoDup l /\ forall x, x ∈ l -> x ∉ seen.
Proof.
  revert seen. induction l as [|x l IH]; intros seen; cbn.
  - split; [|done]. intros _. split; [constructor|]. intros y Hy. by apply elem_of_nil in Hy.
  - unfold member. case_bool_decide as Hx.
    + split; [done|]. intros [_ Hl]. by destruct (Hl x ltac:(by left)).
    + rewrite IH, NoDup_cons. setoid_rewrite not_elem_of_cons. setoid_rewrite elem_of_cons. naive_solver.
Qed.

Lemma has_tls_config_true f : has_tls_config f = true <-> is_Some (fr_tls_cert f) \/ is_Some (fr_tls_pfx f).
Proof.
  unfold has_tls_config. destruct (fr_tls_cert f), (fr_tls_pfx f); split; intros Hx; try done;
    (by left) || (by right) || (by destruct Hx as [[? ?]|[? ?]]).
Qed.

Lemma validate_frontend_ok pools f :
  validate_frontend pools f = Ok tt <->
  fr_backend_pool f ∈ pools /\ (requires_tls f = true -> is_Some (fr_tls_cert f) \/ is_Some (fr_tls_pfx f)) /\
  fr_listen f <> [] /\ (fr_waf_enabled f = true -> fr_protocol f = Https).
Proof.
  unfold validate_frontend. rewrite !let_ok, !fail_if_ok, !andb_false_iff, !negb_false_iff, is_nil_false,
    bool_decide_eq_true, has_tls_config_true. unfold member. rewrite bool_decide_eq_true.
  destruct (requires_tls f), (fr_waf_enabled f); naive_solver.
Qed.

(** Validation decides well-formedness. *)
Lemma validate_config_ok `{IpNetworkLib} c : validate_config c = Ok tt <-> well_formed c.
Proof.
  unfold validate_config. rewrite !let_ok, !for_all_ok, !check_unique_ok.
  setoid_rewrite fail_if_ok. setoid_rewrite validate_frontend_ok. setoid_rewrite is_nil_false.
  setoid_rewrite negb_false_iff. setoid_rewrite list_elem_of_fmap.
  split.
  - intros (Hf & Hp & [Hfn _] & [Hpn _] & Hs & Hh). constructor; try done.
    + intros f Hin. destruct (Hf f Hin) as ((p & Hpp & Hpi) & _). by exists p.
    + intros f Hin. by apply Hf.
    + intros f Hin. by apply Hf.
    + intros f Hin. by apply Hf.
  - intros [Hpool Htls Hlisten Hwaf Hback Hfn Hpn Hs Hh]. split_and!; try done.
    + intros f Hin. destruct (Hpool f Hin) as (p & Hp1 & Hp2). split_and!; eauto.
    + intros x _. apply not_elem_of_nil.
    + intros x _. apply not_elem_of_nil.
Qed.

(** ** Reading and writing the file *)

Definition tmp_path (pid : Z) (path : bytes) : bytes := path_join (default [] (path_parent path)) (tmp_name pid).

Lemma lock_path_ne path : lock_path path <> path.
Proof. intros E. apply (f_equal length) in E. unfold lock_path in E. rewrite length_app in E. cbn in E. lia. Qed.

Lemma tmp_path_ne_lock pid path : tmp_path pid path <> lock_path path.
Proof.
  unfold tmp_path, lock_path, tmp_name, path_join. intros E. apply (f_equal last) in E.
  destruct (_ || _); by rewrite !app_assoc, !last_app in E.
Qed.

#[export] Hint Resolve lock_path_ne tmp_path_ne_lock : serverwall.

Section Files.
Context `{TomlSpec} `{IpNetworkLib} (pause : gmap bytes bytes -> gmap bytes bytes).

(** The file [path] holds a document of [c], whatever the other files. *)
Definition holds_config (path : bytes) (c : ServerWallConfig) (fs : gmap bytes bytes) : Prop :=
  exists text, fs !! path = Some text /\ utf8_valid text = true /\ load_config_from_str text = Ok c.

Lemma read_to_string_quiet path fs text :
  fs !! path = Some text -> utf8_valid text = true ->
  fs_read_to_string path (mkDisk fs []) = (Ok text, mkDisk fs []).
Proof. intros Hp Hu. unfold fs_read_to_string, io_bind, fs_read. cbn. by rewrite Hp, Hu. Qed.

(** Loading, when nothing fails. *)
Lemma load_config_quiet path c fs :
  holds_config path c fs ->
  load_config path (mkDisk fs []) =
    match load_drop_ins c (mkDisk fs []) with
    | (Ok c', d) => match validate_config c' with Ok _ => (Ok c', d) | Err e => (Err e, d) end
    | (Err e, d) => (Err e, d)
    end.
Proof.
  intros (text & Hp & Hu & Hl). unfold load_config, cio_bind, or_error, cio_of.
  rewrite (read_to_string_quiet path fs text Hp Hu), Hl.
  destruct (load_drop_ins c (mkDisk fs [])) as [[c'|e] d]; [|done]. by destruct (validate_config c').
Qed.

(** A written document loads as what the configuration settles to. *)
Lemma written_loads c doc :
  fits ServerWallConfig_codec c = true -> ser ServerWallConfig_codec c = Some doc ->
  load_config_from_str (toml_to_string doc) = Ok (settled c) /\ utf8_valid (toml_to_string doc) = true.
Proof.
  intros Hf Hs. split; [|apply to_string_utf8].
  destruct (ser_de c Hf) as (v & Hv & Hok & Hde). rewrite Hs in Hv. injection Hv as <-.
  unfold load_config_from_str. assert (Ht : exists t, doc = TTable t).
  { cbn in Hs. apply fmap_Some in Hs as (t & _ & ->). by eexists. }
  destruct Ht as [t ->]. destruct (from_to_string t Hok) as (w & -> & Hw). cbn [mbind option_bind].
  rewrite (de_proper w (TTable t) Hw), Hde. by rewrite settle_ServerWallConfig.
Qed.

(** Validation does not look at what settles. *)
Lemma validate_settled c : validate_config (settled c) = validate_config c.
Proof. done. Qed.

Lemma ser_fits c : fits ServerWallConfig_codec c = true -> exists doc, ser ServerWallConfig_codec c = Some doc.
Proof. intros Hf. destruct (ser_de c Hf) as (v & Hv & _). by exists v. Qed.

(** Writing, when nothing fails and nobody holds the lock. *)
Lemma write_config_quiet pid path c doc fs :
  ser ServerWallConfig_codec c = Some doc -> is_Some (path_parent path) -> fs !! lock_path path = None ->
  tmp_path pid path <> path ->
  write_config_atomic pause pid path c (mkDisk fs []) =
    (Ok tt, mkDisk (<[path := toml_to_string doc]> (delete (tmp_path pid path) fs)) []).
Proof.
  intros Hs [parent Hp] Hl Ht. unfold write_config_atomic. rewrite Hs, Hp.
  assert (Etmp : path_join parent (tmp_name pid) = tmp_path pid path) by (unfold tmp_path; by rewrite Hp).
  cbv zeta. rewrite Etmp. generalize (tmp_path_ne_lock pid path) Ht. generalize (tmp_path pid path). clear Ht Etmp.
  intros tmp Hlk Ht.
  unfold with_lock, acquire_lock. cbn [acquire_lock_loop]. unfold cio_bind at 1, or_error at 1, fs_create_new. cbn.
  rewrite Hl. cbn. unfold create_synced, cio_bind, or_error, fs_write. cbn.
  unfold rename_or_remove, fs_rename. cbn. rewrite lookup_insert_eq. cbn. unfold unlock, fs_remove_file. cbn.
  rewrite lookup_insert_ne by (apply not_eq_sym, lock_path_ne).
  rewrite lookup_delete_ne, lookup_insert_ne, lookup_insert_eq by done. cbn. do 2 f_equal.
  rewrite delete_insert_ne by apply lock_path_ne. f_equal.
  rewrite delete_insert_eq, delete_delete. by rewrite delete_insert_id.
Qed.

(** ** The editor against its specification *)

(** A configuration that can be written, and that has no drop-in directory. *)
Definition representable (c : ServerWallConfig) : bool :=
  fits ServerWallConfig_codec c && match gc_config_dir (cfg_global c) with None => true | Some _ => false end.

(** The abstract state is the configuration a reader of the file sees; a change that fails,
    or whose result does not validate, leaves it. *)
Definition spec_edit (f : change) (c : ServerWallConfig) : result unit ServerWallError * ServerWallConfig :=
  match f c with
  | Err e => (Err e, c)
  | Ok c' => match validate_config c' with Ok _ => (Ok tt, settled c') | Err e => (Err e, c) end
  end.

Fixpoint spec_edits (fs : list change) (c : ServerWallConfig)
  : list (result unit ServerWallError) * ServerWallConfig :=
  match fs with
  | [] => ([], c)
  | f :: fs => let (r, c) := spec_edit f c in let (rs, c) := spec_edits fs c in (r :: rs, c)
  end.

(** The configurations the changes write. *)
Fixpoint spec_written (fs : list change) (c : ServerWallConfig) : list ServerWallConfig :=
  match fs with
  | [] => []
  | f :: fs =>
      match f c with Ok c' => if is_ok (validate_config c') then [c'] else [] | Err _ => [] end ++
      spec_written fs (snd (spec_edit f c))
  end.

Fixpoint run_edits (pid : Z) (path : bytes) (fs : list change) (d : disk)
  : list (result unit ServerWallError) * disk :=
  match fs with
  | [] => ([], d)
  | f :: fs => let (r, d) := edit pause pid path f d in let (rs, d) := run_edits pid path fs d in (r :: rs, d)
  end.

(** The file [path] stores [c], and can be written by the process [pid]. *)
Record stores (pid : Z) (path : bytes) (c : ServerWallConfig) (d : disk) : Prop := {
  st_holds : holds_config path c (files d);
  st_valid : validate_config c = Ok tt;
  st_no_dir : gc_config_dir (cfg_global c) = None;
  st_quiet : script d = [];
  st_unlocked : files d !! lock_path path = None;
  st_parent : is_Some (path_parent path);
  st_tmp : tmp_path pid path <> path;
}.

Lemma stores_load pid path c d : stores pid path c d -> load_config path d = (Ok c, d).
Proof.
  intros [Hh Hv Hn Hq _ _ _]. destruct d as [fs sc]. cbn in *. subst sc.
  rewrite (load_config_quiet path c fs Hh). unfold load_drop_ins. rewrite Hn. cbn. by rewrite Hv.
Qed.

Lemma write_stores pid path c d :
  fits ServerWallConfig_codec c = true -> gc_config_dir (cfg_global c) = None -> validate_config c = Ok tt ->
  script d = [] -> files d !! lock_path path = None -> is_Some (path_parent path) -> tmp_path pid path <> path ->
  exists d', write_config_atomic pause pid path c d = (Ok tt, d') /\ stores pid path (settled c) d' /\
    forall p, p <> path -> p <> tmp_path pid path -> files d' !! p = files d !! p.
Proof.
  intros Hf Hn Hv Hq Hl Hp Ht. destruct (ser_fits c Hf) as [doc Hdoc]. destruct d as [fs sc]. cbn in *. subst sc.
  rewrite (write_config_quiet pid path c doc fs Hdoc Hp Hl Ht). eexists. split_and!; [done| |].
  - destruct (written_loads c doc Hf Hdoc) as [Hload Hu]. constructor; cbn; try done.
    + exists (toml_to_string doc). by rewrite lookup_insert_eq.
    + rewrite lookup_insert_ne by (apply not_eq_sym, lock_path_ne).
      by rewrite lookup_delete_ne by apply tmp_path_ne_lock.
  - intros p Hp1 Hp2. cbn. by rewrite lookup_insert_ne, lookup_delete_ne by done.
Qed.

Lemma representable_spec c :
  representable c = true -> fits ServerWallConfig_codec c = true /\ gc_config_dir (cfg_global c) = None.
Proof. intros [Hf Hn]%andb_prop. split; [done|]. by destruct (gc_config_dir (cfg_global c)). Qed.

Lemma edit_refines pid path f c d :
  stores pid path c d -> forallb representable (spec_written [f] c) = true ->
  exists d', edit pause pid path f d = (fst (spec_edit f c), d') /\ stores pid path (snd (spec_edit f c)) d' /\
    forall p, p <> path -> p <> tmp_path pid path -> files d' !! p = files d !! p.
Proof.
  intros Hst. unfold edit, cio_bind, cio_of. rewrite (stores_load _ _ _ _ Hst). cbn. unfold spec_edit.
  destruct (f c) as [c'|e]; [|by exists d].
  destruct (validate_config c') as [[]|e] eqn:Ev; [|by exists d]. cbn.
  intros [[Hf Hn]%representable_spec _]%andb_prop. destruct Hst as [_ _ _ Hq Hl Hp Ht].
  by apply (write_stores pid path c' d).
Qed.

Lemma edits_refine pid path fs c d :
  stores pid path c d -> forallb representable (spec_written fs c) = true ->
  exists d', run_edits pid path fs d = (fst (spec_edits fs c), d') /\ stores pid path (snd (spec_edits fs c)) d'.
Proof.
  revert c d. induction fs as [|f fs IH]; intros c d Hst Hw; [by exists d|]. cbn in *.
  rewrite forallb_app in Hw. apply andb_prop in Hw as [Hf Hw].
  destruct (edit_refines pid path f c d Hst) as (d1 & He & Hst1 & _); [cbn; by rewrite app_nil_r|].
  destruct (spec_edit f c) as [r c1] eqn:Es. cbn in *. rewrite He.
  destruct (IH c1 d1 Hst1 Hw) as (d2 & -> & Hst2). exists d2. destruct (spec_edits fs c1). done.
Qed.

(** Two processes that both load before either writes. *)
Definition overlapping_edits (pid1 pid2 : Z) (path : bytes) (f1 f2 : change) : cio unit :=
  let* c1 := load_config path in
  let* c2 := load_config path in
  let* c1 := cio_of (f1 c1) in
  let* _ := cio_of (validate_config c1) in
  let* _ := write_config_atomic pause pid1 path c1 in
  let* c2 := cio_of (f2 c2) in
  let* _ := cio_of (validate_config c2) in
  write_config_atomic pause pid2 path c2.

(** *** Writing under failures *)

Lemma write_path tmp data d path :
  tmp <> path -> files (snd (fs_write tmp data d)) !! path = files d !! path.
Proof. intros Hne. unfold fs_write. destruct (next_fault d) as [[] s]; cbn; by rewrite ?lookup_insert_ne. Qed.

Lemma remove_path p d path : p <> path -> files (snd (fs_remove_file p d)) !! path = files d !! path.
Proof.
  intros Hne. unfold fs_remove_file. destruct (next_fault d) as [[] s]; cbn; try done.
  destruct (files d !! p); cbn; by rewrite ?lookup_delete_ne.
Qed.

Lemma create_new_path p d path :
  p <> path -> files (snd (fs_create_new p d)) !! path = files d !! path.
Proof.
  intros Hne. unfold fs_create_new. destruct (next_fault d) as [[] s], (files d !! p); cbn; by rewrite ?lookup_insert_ne.
Qed.

Lemma acquire_lock_path lock n d path :
  lock <> path -> (forall fs, pause fs !! path = fs !! path) ->
  files (snd (acquire_lock_loop pause lock n d)) !! path = files d !! path.
Proof.
  intros Hne Hpause. revert d. induction n as [|n IH]; intros d; [done|]. cbn [acquire_lock_loop].
  unfold cio_bind at 1, or_error. pose proof (create_new_path lock d path Hne) as Hc.
  destruct (fs_create_new lock d) as [[[]|e] d']; cbn in *; [done| |done].
  case_bool_decide; unfold cio_bind, sleep, cio_ret; rewrite IH; cbn; by rewrite ?Hpause.
Qed.

(** The temporary file is complete when it is renamed. *)
Lemma create_synced_spec tmp data d path r d' :
  tmp <> path -> create_synced tmp data d = (r, d') ->
  files d' !! path = files d !! path /\ (r = Ok tt -> files d' !! tmp = Some data).
Proof.
  intros Hne. unfold create_synced, cio_bind, or_error. pose proof (write_path tmp data d path Hne) as Hw.
  destruct (fs_write tmp data d) as [[[]|e] d1] eqn:E; cbn in Hw; [|by intros [= <- <-]].
  assert (Hd : files d1 !! tmp = Some data).
  { unfold fs_write in E. destruct (next_fault d) as [[] s]; try done. injection E as <-. cbn. by rewrite lookup_insert_eq. }
  destruct (next_fault d1) as [[] s]; intros [= <- <-]; cbn; split; done.
Qed.

Lemma rename_or_remove_spec tmp path data d r d' :
  tmp <> path -> files d !! tmp = Some data -> rename_or_remove tmp path d = (r, d') ->
  files d' !! path = match r with Ok _ => Some data | Err _ => files d !! path end.
Proof.
  intros Hne Hd. unfold rename_or_remove, fs_rename. destruct (next_fault d) as [[] s]; rewrite ?Hd;
    intros [= <- <-]; try (by rewrite remove_path by done). cbn. by rewrite lookup_insert_eq.
Qed.

Lemma write_config_spec pid path c d r d' :
  tmp_path pid path <> path -> (forall fs, pause fs !! path = fs !! path) ->
  write_config_atomic pause pid path c d = (r, d') ->
  match r with
  | Ok _ => exists doc, ser ServerWallConfig_codec c = Some doc /\ files d' !! path = Some (toml_to_string doc)
  | Err _ => files d' !! path = files d !! path
  end.
Proof.
  intros Ht Hpause. unfold write_config_atomic. destruct (ser ServerWallConfig_codec c) as [doc|]; [|by intros [= <- <-]].
  unfold tmp_path in Ht. destruct (path_parent path) as [parent|]; [|by intros [= <- <-]]. cbn [default] in Ht.
  cbv zeta. change (path_join (id parent) (tmp_name pid)) with (path_join parent (tmp_name pid)) in Ht.
  revert Ht. generalize (path_join parent (tmp_name pid)). intros tmp Ht.
  unfold with_lock, acquire_lock. pose proof (acquire_lock_path (lock_path path) 5 d path (lock_path_ne path) Hpause) as Ha.
  destruct (acquire_lock_loop pause (lock_path path) 5 d) as [[[]|e] d1]; cbn in Ha; [|by intros [= <- <-]].
  unfold cio_bind. destruct (create_synced tmp (toml_to_string doc) d1) as [r2 d2] eqn:Ec.
  destruct (create_synced_spec _ _ _ path _ _ Ht Ec) as [Hp2 Hd2].
  destruct r2 as [[]|e]; cbn.
  - destruct (rename_or_remove tmp path d2) as [r3 d3] eqn:Er. intros [= <- <-].
    pose proof (rename_or_remove_spec _ _ _ _ _ _ Ht (Hd2 eq_refl) Er) as Hp3.
    unfold unlock. rewrite !remove_path by apply lock_path_ne. destruct r3; [by exists doc|congruence].
  - intros [= <- <-]. unfold unlock. rewrite remove_path by apply lock_path_ne. congruence.
Qed.

(** *** Drop-in files *)

(** A path is not directly in a directory. *)
Definition outside (dir p : bytes) : Prop := strip_prefix p (path_join dir []) = None.

Definition dir_name (dir : bytes) (p : bytes * bytes) : option bytes :=
  n ← strip_prefix p.1 (path_join dir []); if bool_decide (47 ∈ n) then None else Some n.

Lemma dir_names_insert (dir p v : bytes) (fs : gmap bytes bytes) :
  outside dir p -> dir_names dir (<[p := v]> fs) ≡ₚ dir_names dir (delete p fs).
Proof.
  intros Ho. unfold dir_names. rewrite <- insert_delete_eq.
  rewrite (filter_map_perm _ _ _ (map_to_list_insert (delete p fs) p v (lookup_delete_eq _ _))).
  cbn. by rewrite Ho.
Qed.

Lemma dir_names_delete (dir p : bytes) (fs : gmap bytes bytes) :
  outside dir p -> dir_names dir (delete p fs) ≡ₚ dir_names dir fs.
Proof.
  intros Ho. destruct (fs !! p) as [v|] eqn:E; [|by rewrite delete_id].
  rewrite <- (dir_names_insert dir p v fs Ho). by rewrite insert_id.
Qed.

Lemma fragment_names_perm l l' : l ≡ₚ l' -> fragment_names l = fragment_names l'.
Proof. intros Hl. apply sort_strings_perm. by apply Permutation_filter_bool. Qed.

(** The fragments of a directory append the same frontends to any configuration. *)
Lemma load_fragments_frontends dir es fs b c d :
  load_fragments dir es b (mkDisk fs []) = (Ok c, d) ->
  exists extra, cfg_frontend c = cfg_frontend b ++ extra /\ cfg_global c = cfg_global b /\
    forall fs' b', (forall n, n ∈ es -> fs' !! path_join dir n = fs !! path_join dir n) ->
      exists c', load_fragments dir es b' (mkDisk fs' []) = (Ok c', mkDisk fs' []) /\
                 cfg_frontend c' = cfg_frontend b' ++ extra.
Proof.
  revert b. induction es as [|n es IH]; intros b; cbn.
  - intros [= <- <-]. exists []. rewrite app_nil_r. split_and!; [done..|]. intros fs' b' _.
    exists b'. by rewrite app_nil_r.
  - unfold cio_bind, cio_of, or_error, fs_read_to_string, io_bind, fs_read, io_ret, io_err. cbn.
    destruct (fs !! path_join dir n) as [text|] eqn:Et; [|done]. destruct (utf8_valid text) eqn:Eu; [|done]. cbn.
    destruct (toml_from_str text ≫= de ServerWallConfig_codec) as [fr|] eqn:Ef; [|done].
    intros Hl. destruct (IH _ Hl) as (extra & Hc & Hg & Hall). exists (cfg_frontend fr ++ extra).
    split_and!; [rewrite Hc; cbn; by rewrite <- app_assoc|done|]. intros fs' b' Hsame.
    rewrite (Hsame n) by (by left). rewrite Et. cbn. rewrite Eu. cbn. rewrite Ef.
    destruct (Hall fs' (merge_config b' fr)) as (c' & Hc' & Hfr); [intros m Hm; apply Hsame; by right|].
    exists c'. split; [done|]. rewrite Hfr. cbn. by rewrite <- app_assoc.
Qed.

Lemma path_join_app dir n : path_join dir n = path_join dir [] ++ n.
Proof. unfold path_join. destruct (_ || _); by rewrite ?app_nil_r, <- ?app_assoc. Qed.

(** What an edit leaves of a directory it is not in. *)
Lemma drop_ins_kept (dir path tmp text : bytes) (fs : gmap bytes bytes) :
  outside dir path -> outside dir tmp ->
  let fs' := <[path := text]> (delete tmp fs) in
  is_nil (dir_names dir fs') = is_nil (dir_names dir fs) /\
  fragment_names (dir_names dir fs') = fragment_names (dir_names dir fs) /\
  forall n, fs' !! path_join dir n = fs !! path_join dir n.
Proof.
  intros Hp Ht fs'. assert (Hperm : dir_names dir fs' ≡ₚ dir_names dir fs).
  { subst fs'. rewrite dir_names_insert, !dir_names_delete by done. done. }
  assert (Hin : forall p n, outside dir p -> path_join dir n <> p).
  { intros p n Ho <-. unfold outside in Ho. rewrite path_join_app, strip_prefix_app in Ho. done. }
  split_and!.
  - apply Permutation_length in Hperm. by destruct (dir_names dir fs), (dir_names dir fs').
  - by apply fragment_names_perm.
  - intros n. subst fs'. rewrite lookup_insert_ne by (apply not_eq_sym; by apply Hin).
    by rewrite lookup_delete_ne by (apply not_eq_sym; by apply Hin).
Qed.

(** A frontend of a drop-in file that is also in the main file is a duplicate. *)
Lemma duplicated_frontends c l extra :
  cfg_frontend c = (l ++ extra) ++ extra -> extra <> [] -> exists e, validate_config c = Err e.
Proof.
  intros Hc Hne. destruct (validate_config c) as [[]|e] eqn:E; [|by exists e]. exfalso.
  apply validate_config_ok in E. pose proof (wf_frontend_names _ E) as Hnd. rewrite Hc in Hnd.
  destruct extra as [|f extra]; [done|]. rewrite !fmap_app in Hnd.
  apply NoDup_app in Hnd as (_ & Hd & _). eapply Hd; [|by rewrite fmap_cons; left].
  apply elem_of_app. right. rewrite fmap_cons. by left.
Qed.
End Files.

(** ** Properties *)


Definition example_pool : BackendPoolConfig :=
  mkPoolConfig (bs "servers") default_health_interval default_health_timeout CheckTcp None 200 false false
    default_health_method [mkBackendConfig (bs "srv1") (bs "10.0.0.1:80") 1 false None None None true].

Definition example_config : ServerWallConfig :=
  upd_cfg_frontend (fun _ => [frontend_with (bs "web") Tcp [bs "0.0.0.0:8080"] (bs "servers")])
    (upd_cfg_backend_pool (fun _ => [example_pool]) ServerWallConfig_default).

Definition example_path : bytes := bs "/etc/serverwall/serverwall.toml".

Lemma example_stored :
  exists d, @stores coded_toml host_networks 7 example_path (settled example_config) d.
Proof.
  destruct (write_stores (H1 := host_networks) id 7 example_path example_config (mkDisk ∅ []))
    as (d & _ & Hst & _); [vm_compute; reflexivity..|by eexists|vm_compute; discriminate|by exists d].
Qed.


(** C17: what is written reads back: a configuration whose numbers and strings fit a document
    is written, and the document loads as the same configuration, except that the paths of
    the certificate and key of the management interface and of the country databases come
    back as their defaults when they were cleared. *)
Theorem config_roundtrip `{TomlSpec} c :
  fits ServerWallConfig_codec c = true ->
  exists doc, ser ServerWallConfig_codec c = Some doc /\
    load_config_from_str (toml_to_string doc) = Ok (settled c).
Proof.
  intros Hf. destruct (ser_fits c Hf) as [doc Hdoc]. exists doc. split; [done|]. by apply written_loads.
Qed.

(** The default configuration is not its own reading: it has no country database. *)
Lemma config_roundtrip_witness :
  exists doc, ser ServerWallConfig_codec ServerWallConfig_default = Some doc /\
    load_config_from_str (toml_to_string doc) = Ok (settled ServerWallConfig_default) /\
    geo_database_path (sec_geo (cfg_security ServerWallConfig_default)) = None /\
    geo_database_path (sec_geo (cfg_security (settled ServerWallConfig_default))) = default_geoip_db_path.
Proof.
  destruct (config_roundtrip ServerWallConfig_default) as (doc & Hs & Hl); [vm_compute; reflexivity|].
  exists doc. split_and!; [done..| |]; reflexivity.
Defined.

(** C18: a write is atomic: whichever of its system calls fail, and whatever other processes
    do to other files, the configuration file holds afterwards either what it held or the
    complete new document, the latter exactly when the write reports success. *)
Theorem config_write_atomic `{TomlLib} pause pid path c d r d' :
  tmp_path pid path <> path -> (forall fs, pause fs !! path = fs !! path) ->
  write_config_atomic pause pid path c d = (r, d') ->
  match r with
  | Ok _ => exists doc, ser ServerWallConfig_codec c = Some doc /\ files d' !! path = Some (toml_to_string doc)
  | Err _ => files d' !! path = files d !! path
  end.
Proof. apply write_config_spec. Qed.

(** A disk that fills up in the middle of the temporary file. *)
Lemma config_write_atomic_witness :
  match write_config_atomic id 7 example_path example_config
      (mkDisk {[example_path := bs "old"]} [FOk; FPartial 10]) with
  | (r, d') => is_ok r = false /\ files d' !! example_path = Some (bs "old")
  end.
Proof.
  destruct (write_config_atomic id 7 example_path example_config
      (mkDisk {[example_path := bs "old"]} [FOk; FPartial 10])) as [r d'] eqn:E.
  assert (Hr : is_ok r = false).
  { change r with (fst (r, d')). rewrite <- E. vm_compute. reflexivity. }
  split; [exact Hr|]. apply (config_write_atomic id 7 example_path) in E; [|vm_compute; discriminate|done].
  destruct r; [discriminate Hr|]. rewrite E. vm_compute. reflexivity.
Defined.

Lemma load_config_validated `{TomlLib} `{IpNetworkLib} path c d d' :
  load_config path d = (Ok c, d') -> validate_config c = Ok tt.
Proof.
  unfold load_config, cio_bind, cio_of. destruct (or_error _ _ d) as [[text|e] d1]; [|done].
  destruct (load_config_from_str text) as [b|e]; [|done].
  destruct (load_drop_ins b d1) as [[c'|e] d2]; [|done].
  destruct (validate_config c') as [[]|e] eqn:E; [|done]. by intros [= <- <-].
Qed.

(** C19: what loads is well formed: a configuration that is loaded, with its drop-in files, and
    whatever the disk does, has for every frontend a pool of its name, an address to listen
    on, a certificate where the protocol needs one and no firewall where it cannot work; its
    pools have backends, frontends and pools have distinct names, every scanner command has
    its placeholder and every trusted host parses. *)
Theorem loaded_config_well_formed `{TomlLib} `{IpNetworkLib} path c d d' :
  load_config path d = (Ok c, d') -> well_formed c.
Proof.
  intros Hl. by eapply validate_config_ok, load_config_validated.
Qed.

Lemma loaded_config_well_formed_witness :
  exists d, load_config example_path d = (Ok (settled example_config), d) /\ well_formed (settled example_config).
Proof.
  destruct example_stored as [d Hst]. pose proof (stores_load 7 _ _ _ Hst) as Hl. exists d. split; [exact Hl|].
  exact (loaded_config_well_formed _ _ _ _ Hl).
Defined.

(** C40: an edit of a configuration with drop-in files breaks it: the drop-in files are merged
    when the configuration is loaded, and the merged configuration is what is written, so
    that after any edit that keeps a frontend of a drop-in file the configuration no longer
    loads, neither for the daemon nor for another edit. *)
Theorem drop_in_edit_breaks_config `{TomlSpec} `{IpNetworkLib} (pause : gmap bytes bytes -> gmap bytes bytes)
    (pid : Z) (path dir : bytes) (f : change) (fs : gmap bytes bytes) (b c c' : ServerWallConfig) :
  holds_config path b fs -> gc_config_dir (cfg_global b) = Some dir ->
  load_config path (mkDisk fs []) = (Ok c, mkDisk fs []) -> cfg_frontend c <> cfg_frontend b ->
  f c = Ok c' -> cfg_frontend c' = cfg_frontend c -> cfg_global c' = cfg_global c ->
  validate_config c' = Ok tt -> fits ServerWallConfig_codec c' = true ->
  fs !! lock_path path = None -> is_Some (path_parent path) -> tmp_path pid path <> path ->
  outside dir path -> outside dir (tmp_path pid path) ->
  exists d' e, edit pause pid path f (mkDisk fs []) = (Ok tt, d') /\ load_config path d' = (Err e, d').
Proof.
  intros Hb Hdir Hl Hne Hf Hfr Hg Hv Hfit Hlock Hparent Ht Ho1 Ho2.
  unfold edit, cio_bind, cio_of. rewrite Hl, Hf, Hv. destruct (ser_fits c' Hfit) as [doc Hdoc].
  rewrite (write_config_quiet pause pid path c' doc fs Hdoc Hparent Hlock Ht).
  destruct (written_loads c' doc Hfit Hdoc) as [Hload Hu].
  set (fs' := <[path := toml_to_string doc]> (delete (tmp_path pid path) fs)).
  destruct (drop_ins_kept dir path (tmp_path pid path) (toml_to_string doc) fs Ho1 Ho2) as (Hnil & Hnames & Hsame).
  rewrite (load_config_quiet path b fs Hb) in Hl. unfold load_drop_ins in Hl. rewrite Hdir in Hl.
  unfold cio_bind, is_dir in Hl. cbn in Hl. destruct (is_nil (dir_names dir fs)) eqn:En; cbn in Hl.
  { destruct (validate_config b); congruence. }
  unfold or_error, fs_read_dir in Hl. cbn in Hl.
  destruct (load_fragments dir (fragment_names (dir_names dir fs)) b (mkDisk fs [])) as [[c1|e] d1] eqn:Efr; [|done].
  assert (c1 = c) as -> by (destruct (validate_config c1); congruence).
  destruct (load_fragments_frontends _ _ _ _ _ _ Efr) as (extra & Hc & Hgl & Hall).
  destruct (Hall fs' (settled c')) as (c2 & Hc2 & Hfr2); [intros n _; apply Hsame|].
  assert (Hh : holds_config path (settled c') fs').
  { exists (toml_to_string doc). subst fs'. by rewrite lookup_insert_eq. }
  destruct (duplicated_frontends c2 (cfg_frontend b) extra) as [e He].
  { rewrite Hfr2. cbn. congruence. }
  { intros ->. by rewrite app_nil_r in Hc. }
  exists (mkDisk fs' []), e. split; [done|]. rewrite (load_config_quiet _ _ _ Hh). unfold load_drop_ins.
  assert (Hd' : gc_config_dir (cfg_global (settled c')) = Some dir) by (cbn; congruence).
  rewrite Hd'. unfold cio_bind, is_dir. cbn. fold fs' in Hnil, Hnames. rewrite Hnil. cbn.
  unfold or_error, fs_read_dir. cbn. rewrite Hnames, Hc2. cbn. by rewrite He.
Qed.

(** The example configuration with a frontend in [conf.d/extra.toml]. *)
Definition dir_config : ServerWallConfig :=
  settled (upd_cfg_global (fun g => mkGlobal (gc_daemon_name g) None 0 100 [] [] (Some (bs "/etc/serverwall/conf.d")) [] 30)
    example_config).
Definition extra_config : ServerWallConfig :=
  upd_cfg_frontend (fun _ => [frontend_with (bs "more") Tcp [bs "0.0.0.0:8081"] (bs "servers")]) ServerWallConfig_default.
Definition document (c : ServerWallConfig) : bytes :=
  match ser ServerWallConfig_codec c with Some doc => toml_to_string doc | None => [] end.
Definition dir_files : gmap bytes bytes :=
  <[example_path := document dir_config]> {[bs "/etc/serverwall/conf.d/extra.toml" := document extra_config]}.

Lemma drop_in_edit_breaks_config_witness :
  is_ok (fst (load_config example_path (mkDisk dir_files []))) = true /\
  exists d' e, edit id 7 example_path (add_acl_block (bs "203.0.113.9")) (mkDisk dir_files []) = (Ok tt, d') /\
    load_config example_path d' = (Err e, d').
Proof.
  split; [vm_compute; reflexivity|].
  apply (drop_in_edit_breaks_config id 7 example_path (bs "/etc/serverwall/conf.d") _ dir_files dir_config
    (merge_config dir_config (settled extra_config))
    (upd_ip_acl (upd_ia_block (insert_string (bs "203.0.113.9"))) (merge_config dir_config (settled extra_config))));
    cycle 3; [vm_compute; discriminate|..]; cycle 6; [by eexists|vm_compute; discriminate|..]; cycle 2;
    [exists (document dir_config); split_and!; vm_compute; reflexivity|vm_compute; reflexivity..].
Defined.

(** The lock covers the write and not the reading before it: of two edits that both load
    before either writes, the first is lost. *)
Theorem overlapping_edit_lost `{TomlSpec} `{IpNetworkLib} pause pid1 pid2 path f1 f2 c c1 c2 d :
  stores pid1 path c d -> tmp_path pid2 path <> path ->
  f1 c = Ok c1 -> validate_config c1 = Ok tt -> representable c1 = true ->
  f2 c = Ok c2 -> validate_config c2 = Ok tt -> representable c2 = true ->
  exists d', overlapping_edits pause pid1 pid2 path f1 f2 d = (Ok tt, d') /\
    load_config path d' = (Ok (settled c2), d').
Proof.
  intros Hst Ht2 H1f H1v [H1r H1d]%representable_spec H2f H2v [H2r H2d]%representable_spec.
  unfold overlapping_edits, cio_bind, cio_of. rewrite !(stores_load _ _ _ _ Hst), H1f, H1v.
  destruct Hst as [_ _ _ Hq Hl Hp Ht].
  destruct (write_stores pause pid1 path c1 d H1r H1d H1v Hq Hl Hp Ht) as (d1 & -> & Hst1 & _).
  rewrite H2f, H2v. destruct Hst1 as [_ _ _ Hq1 Hl1 _ _].
  destruct (write_stores pause pid2 path c2 d1 H2r H2d H2v Hq1 Hl1 Hp Ht2) as (d2 & -> & Hst2 & _).
  exists d2. split; [done|]. exact (stores_load _ _ _ _ Hst2).
Qed.

Lemma overlapping_edit_lost_witness :
  exists d d', overlapping_edits id 7 8 example_path (add_acl_block (bs "203.0.113.9")) (add_acl_allow (bs "192.0.2.1")) d
      = (Ok tt, d') /\
    (exists c', load_config example_path d' = (Ok c', d') /\ ia_block (sacl_ip (sec_acl (cfg_security c'))) = []).
Proof.
  destruct example_stored as [d Hst].
  destruct (overlapping_edit_lost id 7 8 example_path (add_acl_block (bs "203.0.113.9")) (add_acl_allow (bs "192.0.2.1"))
    (settled example_config) _ _ d Hst ltac:(vm_compute; discriminate) eq_refl eq_refl eq_refl eq_refl eq_refl eq_refl)
    as (d' & Ho & Hl).
  exists d, d'. split; [exact Ho|]. eexists. split; [exact Hl|]. vm_compute. reflexivity.
Defined.

(** A section that is left out is not one that is empty: without its [headers] table a
    frontend passes no address of the client on, with an empty one it does; and the security
    settings, the outbound policy and the thresholds of the filter change in the same way. *)
Theorem absent_section_differs :
  exists without_headers with_headers,
    de FrontendConfig_codec (TTable [(bs "name", TString (bs "web")); (bs "protocol", TString (bs "tcp"));
       (bs "listen", TArray []); (bs "backend_pool", TString (bs "p"))]) = Some without_headers /\
    de FrontendConfig_codec (TTable [(bs "name", TString (bs "web")); (bs "protocol", TString (bs "tcp"));
       (bs "listen", TArray []); (bs "backend_pool", TString (bs "p")); (bs "headers", TTable [])]) = Some with_headers /\
    x_forwarded_for (fr_headers without_headers) = false /\ x_forwarded_for (fr_headers with_headers) = true /\
    de ServerWallConfig_codec (TTable []) = Some ServerWallConfig_default /\
    sec_enabled (cfg_security ServerWallConfig_default) = false /\
    sec_enabled <$> de SecurityConfig_codec (TTable []) = Some true /\
    possible_spam_threshold (cfg_antispam ServerWallConfig_default) = 0 /\
    possible_spam_threshold <$> de AntispamConfig_codec (TTable []) = Some 40 /\
    op_max_recipients_per_message (rel_outbound_policy (cfg_relay ServerWallConfig_default)) = 0 /\
    op_max_recipients_per_message <$> de OutboundPolicyConfig_codec (TTable []) = Some 100.
Proof. eexists _, _. split_and!; vm_compute; reflexivity. Qed.

(** A lock file that is left behind blocks every later write: it is never recognised as
    stale, and the fifth attempt gives up. *)
Theorem stale_lock_blocks_writes `{TomlLib} pause pid path c d :
  script d = [] -> is_Some (files d !! lock_path path) ->
  (forall fs, pause fs !! lock_path path = fs !! lock_path path) ->
  is_Some (ser ServerWallConfig_codec c) -> is_Some (path_parent path) ->
  fst (write_config_atomic pause pid path c d) = Err (Config (bs "config file is locked by another process")).
Proof.
  intros Hq Hl Hpause [doc Hdoc] [parent Hp]. unfold write_config_atomic. rewrite Hdoc, Hp. cbv zeta.
  unfold with_lock, acquire_lock.
  assert (Hloop : forall n d, script d = [] -> is_Some (files d !! lock_path path) ->
    fst (acquire_lock_loop pause (lock_path path) n d) = Err (Config (bs "config file is locked by another process"))).
  { clear d Hq Hl. induction n as [|n IH]; intros d Hq [x Hx]; [done|]. cbn [acquire_lock_loop].
    unfold cio_bind at 1, or_error, fs_create_new. unfold next_fault. rewrite Hq, Hx. cbn.
    case_bool_decide; unfold cio_bind, cio_ret, sleep; apply IH; cbn; rewrite ?Hpause; rewrite ?Hx; done. }
  specialize (Hloop 5%nat d Hq Hl). destruct (acquire_lock_loop pause (lock_path path) 5 d) as [[]]; cbn in *; congruence.
Qed.

Lemma stale_lock_blocks_writes_witness :
  fst (write_config_atomic id 7 example_path example_config (mkDisk {[lock_path example_path := []]} [])) =
    Err (Config (bs "config file is locked by another process")).
Proof.
  apply (stale_lock_blocks_writes id 7 example_path example_config); [reflexivity|by eexists|done|by eexists|by eexists].
Defined.
