(* ===== verification/CertStore.v ===== *)
(** * TLS certificates: [serverwall-core/src/tls]

    [cert_store.rs] (loading certificates from the files a frontend names, the
    store and its lookup by server name), [context.rs] (acceptors and connectors),
    [ocsp.rs] (stapling) and [self_signed.rs].

    [rustls], [rustls-pemfile], [openssl] and [reqwest] are the classes [TlsLib] and
    [OcspLib]; what the program relies on of them is [TlsSpec].  A certificate is
    its DER encoding. *)

From S2P Require Import Prelude RustStr Net Toml Schema Fs Config.
Open Scope Z_scope.

(** ** The libraries *)

Inductive PrivateKeyDer := Pkcs1 (der : bytes) | Pkcs8 (der : bytes) | Sec1 (der : bytes).

(** The items [rustls_pemfile::read_all] yields: a certificate, a key, another section. *)
Inductive PemItem := X509Certificate (der : bytes) | KeyItem (key : PrivateKeyDer) | OtherItem.

Class TlsLib := {
  read_all : bytes -> list (result PemItem bytes);
  SigningKey : Type;
  any_supported_type : PrivateKeyDer -> result SigningKey bytes;
  PKey : Type;
  private_key_from_pem_passphrase : bytes -> bytes -> result PKey bytes;
  private_key_to_der : PKey -> result bytes bytes;
  (** [Pkcs12::from_der], then [parse2]: the key, the certificate and the chain. *)
  Pkcs12 : Type;
  pkcs12_from_der : bytes -> result Pkcs12 bytes;
  parse2 : Pkcs12 -> bytes -> result (option PKey * option bytes * option (list bytes)) bytes;
  X509 : Type;
  x509_from_der : bytes -> result X509 bytes;
  (** The [dNSName] of each subject alternative name; the first common name, decoded. *)
  subject_alt_names : X509 -> option (list (option bytes));
  common_name : X509 -> option (result bytes bytes);
  x509_to_text : X509 -> result bytes bytes;
}.

(** [OcspCertId::from_cert] to [OcspRequest::to_der], and the POST of the request. *)
Class OcspLib `{TlsLib} := {
  ocsp_request : X509 -> X509 -> result bytes bytes;
  ocsp_post : bytes -> bytes -> result bytes bytes;
}.

(** What the documentation of these libraries says of private keys.  [private_key_to_der]
    gives the format specific to the key's type (PKCS#1 for RSA, SEC1 for elliptic curves),
    which is not PKCS#8, while a key labelled PKCS#8 is read as PKCS#8 only. *)
Class TlsSpec `{TlsLib} := {
  is_pkcs8 : bytes -> bool;
  rsa_or_ec : PKey -> bool;
  supported_pkcs8 der k : any_supported_type (Pkcs8 der) = Ok k -> is_pkcs8 der = true;
  key_specific_der pkey der : rsa_or_ec pkey = true -> private_key_to_der pkey = Ok der -> is_pkcs8 der = false;
}.

(** [a?] on errors of another type, with [map_err]. *)
Definition map_err {A E F} (f : E -> F) (r : result A E) : result A F :=
  match r with Ok x => Ok x | Err e => Err (f e) end.

Section Store.
Context `{TlsLib}.

(** ** [cert_store.rs]: certified keys *)

Record CertifiedKey := mkCertifiedKey { ck_cert : list bytes; ck_key : SigningKey; ck_ocsp : option bytes }.

Definition end_entity_cert (ck : CertifiedKey) : option bytes := head (ck_cert ck).

Definition build_certified_key (certs : list bytes) (key : PrivateKeyDer)
  : result CertifiedKey ServerWallError :=
  let? signing_key := map_err (fun e => Tls (bs "unsupported private key type: " ++ e))
                        (any_supported_type key) in
  let certified := mkCertifiedKey certs signing_key None in
  match end_entity_cert certified with
  | None => Err (Tls (bs "certificate chain is empty or malformed"))
  | Some _ => Ok certified
  end.

(** [rustls_pemfile::certs] collected: the certificates, or the first error. *)
Fixpoint pem_certs (items : list (result PemItem bytes)) : result (list bytes) bytes :=
  match items with
  | [] => Ok []
  | Err e :: _ => Err e
  | Ok (X509Certificate der) :: rest => let? l := pem_certs rest in Ok (der :: l)
  | Ok _ :: rest => pem_certs rest
  end.

Definition decrypt_openssl_pem_key (pem_bytes passphrase source_path : bytes)
  : result PrivateKeyDer ServerWallError :=
  let? pkey := map_err (fun e => Tls (bs "failed to decrypt encrypted PEM key from " ++ source_path ++ bs ": " ++ e))
                 (private_key_from_pem_passphrase pem_bytes passphrase) in
  let? der := map_err (fun e => Tls (bs "failed to export decrypted key to DER from " ++ source_path ++ bs ": " ++ e))
                (private_key_to_der pkey) in
  Ok (Pkcs8 der).

(** The loop of [read_private_key]: the first key, in whatever form; errors are skipped. *)
Fixpoint first_key (items : list (result PemItem bytes)) : option PrivateKeyDer :=
  match items with
  | [] => None
  | Ok (KeyItem key) :: _ => Some key
  | _ :: rest => first_key rest
  end.

Definition read_private_key (raw_bytes : bytes) (password : option bytes) (source_path : bytes)
  : result PrivateKeyDer ServerWallError :=
  match first_key (read_all raw_bytes) with
  | Some key => Ok key
  | None =>
      match password with
      | Some pw => decrypt_openssl_pem_key raw_bytes pw source_path
      | None => Err (Tls (bs "no private key found in " ++ source_path ++
                          bs " (if the key is encrypted, provide tls_key_password)"))
      end
  end.

Definition load_combined_pem (path : bytes) (key_password : option bytes) : cio CertifiedKey :=
  let* data := or_error (fun e => Tls (bs "cannot read combined PEM " ++ path ++ bs ": " ++ e)) (fs_read path) in
  cio_of (
    let? certs := map_err (fun e => Tls (bs "failed to parse certificates from " ++ path ++ bs ": " ++ e))
                    (pem_certs (read_all data)) in
    if is_nil certs then Err (Tls (bs "no certificates found in " ++ path))
    else
      let? key := read_private_key data key_password path in
      build_certified_key certs key).

(** The part of [load_separate_files] that reads the optional chain. *)
Definition load_chain (chain_path : option bytes) : cio (list bytes) :=
  match chain_path with
  | None => cio_ret []
  | Some cp =>
      let* chain_data := or_error (fun e => Tls (bs "cannot read chain file " ++ cp ++ bs ": " ++ e)) (fs_read cp) in
      cio_of (map_err (fun e => Tls (bs "failed to parse chain from " ++ cp ++ bs ": " ++ e))
                (pem_certs (read_all chain_data)))
  end.

Definition load_separate_files (cert_path : bytes) (chain_path : option bytes) (key_path : bytes)
    (key_password : option bytes) : cio CertifiedKey :=
  let* cert_data := or_error (fun e => Tls (bs "cannot read cert file " ++ cert_path ++ bs ": " ++ e))
                      (fs_read cert_path) in
  let* certs := cio_of (map_err (fun e => Tls (bs "failed to parse certs from " ++ cert_path ++ bs ": " ++ e))
                          (pem_certs (read_all cert_data))) in
  if is_nil certs then cio_of (Err (Tls (bs "no certificates found in " ++ cert_path)))
  else
    let* chain := load_chain chain_path in
    let* key_data := or_error (fun e => Tls (bs "cannot read key file " ++ key_path ++ bs ": " ++ e))
                       (fs_read key_path) in
    cio_of (
      let? key := read_private_key key_data key_password key_path in
      build_certified_key (certs ++ chain) key).

Definition load_pfx (path password : bytes) : cio CertifiedKey :=
  let* der := or_error (fun e => Tls (bs "cannot read PFX file " ++ path ++ bs ": " ++ e)) (fs_read path) in
  cio_of (
    let? pkcs12 := map_err (fun e => Tls (bs "invalid PKCS#12 data in " ++ path ++ bs ": " ++ e))
                     (pkcs12_from_der der) in
    let? parsed := map_err (fun e => Tls (bs "failed to parse PKCS#12 " ++ path ++ bs " (wrong password?): " ++ e))
                     (parse2 pkcs12 password) in
    match parsed with
    | (None, _, _) => Err (Tls (bs "PKCS#12 file " ++ path ++ bs " contains no private key"))
    | (Some pkey, cert, ca) =>
        let? key_der := map_err (fun e => Tls (bs "failed to convert PFX private key to DER: " ++ e))
                          (private_key_to_der pkey) in
        match cert with
        | None => Err (Tls (bs "PKCS#12 file " ++ path ++ bs " contains no certificate"))
        | Some leaf =>
            build_certified_key (leaf :: match ca with Some stack => stack | None => [] end) (Pkcs8 key_der)
        end
    end).

Definition load_from_frontend (config : FrontendConfig) : cio CertifiedKey :=
  match fr_tls_pfx config with
  | Some pfx_path =>
      load_pfx pfx_path (match fr_tls_pfx_password config with Some pw => pw | None => [] end)
  | None =>
      match fr_tls_cert config with
      | None => cio_of (Err (Tls (bs "no TLS certificate configured (set tls_cert or tls_pfx)")))
      | Some cert_path =>
          match fr_tls_key config with
          | Some key_path =>
              load_separate_files cert_path (fr_tls_chain config) key_path (fr_tls_key_password config)
          | None => load_combined_pem cert_path (fr_tls_key_password config)
          end
      end
  end.

(** [to_ascii_lowercase]. *)
Definition lower (s : bytes) : bytes := ascii_lower <$> s.

Definition extract_hostnames_from_certified_key (ck : CertifiedKey) : list bytes :=
  match end_entity_cert ck with
  | None => []
  | Some leaf =>
      match x509_from_der leaf with
      | Err _ => []
      | Ok x509 =>
          let sans := match subject_alt_names x509 with
                      | Some sans => filter_map (fun dns => dns ← dns; Some (lower dns)) sans
                      | None => []
                      end in
          let hostnames :=
            if is_nil sans then
              match common_name x509 with
              | Some (Ok cn) => if is_nil (lower cn) then [] else [lower cn]
              | _ => []
              end
            else sans in
          dedup (sort_strings hostnames)
      end
  end.

(** ** [cert_store.rs]: the store *)

Record CertStore := mkCertStore { cs_certs : gmap bytes CertifiedKey; cs_default_key : option CertifiedKey }.

Definition CertStore_new : CertStore := mkCertStore ∅ None.

Definition add (hostname : bytes) (ck : CertifiedKey) (s : CertStore) : CertStore :=
  mkCertStore (<[lower hostname := ck]> (cs_certs s)) (cs_default_key s).

Definition add_from_cert (ck : CertifiedKey) (s : CertStore) : CertStore :=
  foldl (fun s host => add host ck s) s (extract_hostnames_from_certified_key ck).

Definition set_default (ck : CertifiedKey) (s : CertStore) : CertStore := mkCertStore (cs_certs s) (Some ck).

(** The name is lower case; [find('.')] and the slice after it are [split_once]. *)
Definition resolve (s : CertStore) (server_name : bytes) : option CertifiedKey :=
  let name := lower server_name in
  match cs_certs s !! name with
  | Some ck => Some ck
  | None =>
      match (p ← split_once name DOT; cs_certs s !! (bs "*." ++ p.2)) with
      | Some ck => Some ck
      | None => cs_default_key s
      end
  end.

(** [ResolvesServerCert::resolve]: the server name of the ClientHello, when it has one. *)
Definition resolve_hello (s : CertStore) (server_name : option bytes) : option CertifiedKey :=
  match server_name with
  | Some sni => resolve s sni
  | None => cs_default_key s
  end.

Definition cert_store_len (s : CertStore) : nat := size (cs_certs s).
Definition cert_store_is_empty (s : CertStore) : bool := Nat.eqb (size (cs_certs s)) 0.

(** ** [context.rs] *)

Inductive TlsVersion := TLS12 | TLS13.

Record TlsAcceptor := mkAcceptor { ta_versions : list TlsVersion; ta_resolver : CertStore }.

Definition build_tls_acceptor (cert_store : CertStore) (min_version : bytes) : TlsAcceptor :=
  mkAcceptor (if bool_decide (min_version = bs "1.3") then [TLS13] else [TLS13; TLS12]) cert_store.

(** What a connector checks the server's certificate against. *)
Inductive TlsConnector := VerifyWith (roots : list bytes) | NoCertificateVerification.

(** [certs(..).flatten()]: the certificates, errors left out; [root_store.add] refuses
    some ([addable]). *)
Definition flatten_certs (items : list (result PemItem bytes)) : list bytes :=
  filter_map (fun item => match item with Ok (X509Certificate der) => Some der | _ => None end) items.

Definition build_tls_connector (addable : bytes -> bool) (native_certs : list bytes) (verify : bool)
    (ca_bundle : option bytes) : cio TlsConnector :=
  if verify then
    match ca_bundle with
    | Some bundle_path =>
        let* pem := or_error Io (fs_read bundle_path) in
        cio_ret (VerifyWith (List.filter addable (flatten_certs (read_all pem))))
    | None => cio_ret (VerifyWith (List.filter addable native_certs))
    end
  else cio_ret NoCertificateVerification.

(** ** [ocsp.rs] *)

Definition ocsp_line (line : bytes) : option bytes :=
  url ← strip_prefix (trim line) (bs "OCSP - URI:");
  if starts_with (trim url) (bs "http") then Some (trim url) else None.

Definition extract_ocsp_url (cert_der : bytes) : option bytes :=
  match x509_from_der cert_der with
  | Err _ => None
  | Ok x509 =>
      match x509_to_text x509 with
      | Err _ => None
      | Ok text => head (filter_map ocsp_line (lines (from_utf8_lossy text)))
      end
  end.

Definition fetch_ocsp_response `{!OcspLib} (leaf_der : bytes) (chain_ders : list bytes) (ocsp_url : bytes)
  : result bytes bytes :=
  let? leaf := x509_from_der leaf_der in
  match chain_ders with
  | [] => Err (bs "no issuer certificate in chain; cannot build OCSP request")
  | issuer_der :: _ =>
      let? issuer := x509_from_der issuer_der in
      let? req_der := ocsp_request leaf issuer in
      ocsp_post ocsp_url req_der
  end.

Definition staple_certified_key `{!OcspLib} (ck : CertifiedKey) : CertifiedKey :=
  match end_entity_cert ck with
  | None => ck
  | Some leaf =>
      match extract_ocsp_url leaf with
      | None => ck
      | Some ocsp_url =>
          match fetch_ocsp_response leaf (drop 1 (ck_cert ck)) ocsp_url with
          | Ok response => mkCertifiedKey (ck_cert ck) (ck_key ck) (Some response)
          | Err _ => ck
          end
      end
  end.
End Store.

(** ** [self_signed.rs] *)

(** The certificate [openssl] builds for a common name with its alternative names, and its
    key; [to_pem] and [private_key_to_pem_pkcs8]. *)
Class SelfSignedLib := {
  Issued : Type;
  issue : bytes -> list bytes -> list bytes -> result Issued bytes;
  cert_to_pem : Issued -> result bytes bytes;
  private_key_to_pem_pkcs8 : Issued -> result bytes bytes;
}.

(** The PEM files hold the certificate with the alternative names asked for and its key. *)
Class SelfSignedSpec `{TlsLib} `{SelfSignedLib} := {
  issued_pem cn dns ips c : issue cn dns ips = Ok c ->
    exists pem der x, cert_to_pem c = Ok pem /\ read_all pem = [Ok (X509Certificate der)] /\
      x509_from_der der = Ok x /\ subject_alt_names x = Some ((Some <$> dns) ++ ((fun _ => None) <$> ips));
  issued_key cn dns ips c : issue cn dns ips = Ok c ->
    exists pem der k, private_key_to_pem_pkcs8 c = Ok pem /\ read_all pem = [Ok (KeyItem (Pkcs8 der))] /\
      any_supported_type (Pkcs8 der) = Ok k;
}.

(** [set_permissions]: the files have no mode here, the call may fail. *)
Definition fs_set_permissions (path : bytes) : io unit := fun d =>
  let (f, s) := next_fault d in
  match f, files d !! path with
  | FOk, Some _ => (Ok tt, mkDisk (files d) s)
  | FOk, None => (Err (bs "not found"), mkDisk (files d) s)
  | _, _ => (Err (bs "chmod"), mkDisk (files d) s)
  end.

Definition io_of {A} (r : result A bytes) : io A := fun d => (r, d).

Definition generate_self_signed_cert `{SelfSignedLib} (cert_path key_path cn : bytes) (extra_ips : list IpAddr)
  : io unit :=
  let! cert := io_of (issue cn [cn; bs "localhost"] (bs "127.0.0.1" :: (show_ip <$> extra_ips))) in
  let! pem := io_of (cert_to_pem cert) in
  let! _ := fs_write cert_path pem in
  let! key := io_of (private_key_to_pem_pkcs8 cert) in
  let! _ := fs_write key_path key in
  fs_set_permissions key_path.

(** ** Which certificate a client is given *)

(** What the program does to a store. *)
Inductive store_op `{TlsLib} := AddFromCert (ck : CertifiedKey) | SetDefault (ck : CertifiedKey).

Definition apply_op `{TlsLib} (s : CertStore) (op : store_op) : CertStore :=
  match op with
  | AddFromCert ck => add_from_cert ck s
  | SetDefault ck => set_default ck s
  end.

Definition run_ops `{TlsLib} (ops : list store_op) : CertStore := foldl apply_op CertStore_new ops.

(** A name of a certificate stands for a host: itself, or one label in the place of the star. *)
Definition names_host (pattern host : bytes) : Prop :=
  pattern = host \/
  exists label rest, host = label ++ (DOT :: rest) /\ (DOT ∉ label) /\ pattern = bs "*." ++ rest.

(** The certificate is for the host. *)
Definition covers `{TlsLib} (ck : CertifiedKey) (host : bytes) : Prop :=
  exists pattern, pattern ∈ extract_hostnames_from_certified_key ck /\ names_host pattern (lower host).

Section StoreLemmas.
Context `{TlsLib}.

Lemma lower_lower s : lower (lower s) = lower s.
Proof.
  unfold lower. rewrite <- list_fmap_compose. apply list_fmap_ext. intros i b _. cbn. unfold ascii_lower.
  repeat case_match; bool_to_prop; lia.
Qed.

Lemma elem_of_dedup x l : x ∈ dedup l <-> x ∈ l.
Proof.
  induction l as [|y l IH]; [done|]. destruct l as [|z l]; [done|]. cbn [dedup].
  case_bool_decide; [subst|]; rewrite ?elem_of_cons, ?IH, ?elem_of_cons; naive_solver.
Qed.

Lemma hostnames_lower ck name : name ∈ extract_hostnames_from_certified_key ck -> lower name = name.
Proof.
  unfold extract_hostnames_from_certified_key.
  destruct (end_entity_cert ck) as [leaf|]; [|by intros ?%elem_of_nil].
  destruct (x509_from_der leaf) as [x|]; [|by intros ?%elem_of_nil]. cbn zeta.
  rewrite elem_of_dedup, elem_of_sort_strings.
  set (sans := match subject_alt_names x with Some _ => _ | None => _ end).
  destruct (is_nil sans).
  - destruct (common_name x) as [[cn|]|]; [destruct (is_nil (lower cn))| |];
      rewrite ?elem_of_nil, ?list_elem_of_singleton; try done.
    intros ->. apply lower_lower.
  - subst sans. destruct (subject_alt_names x) as [l|]; [|by intros ?%elem_of_nil].
    rewrite elem_of_filter_map. intros ([dns|] & _ & [= <-]). apply lower_lower.
Qed.

(** Registering [hosts] for [ck] overrides the entries of exactly these hosts. *)
Lemma add_all_lookup ck hosts s name :
  (forall h, h ∈ hosts -> lower h = h) ->
  cs_certs (foldl (fun s host => add host ck s) s hosts) !! name =
  if bool_decide (name ∈ hosts) then Some ck else cs_certs s !! name.
Proof.
  revert s. induction hosts as [|h hosts IH]; intros s Hl; [done|]. cbn [foldl].
  rewrite IH by (intros; apply Hl; by right). cbn [add cs_certs]. rewrite (Hl h) by left.
  destruct (decide (name = h)) as [->|Hne].
  - rewrite lookup_insert_eq, (bool_decide_true (h ∈ h :: hosts)) by left. by case_bool_decide.
  - rewrite lookup_insert_ne by done. case_bool_decide as H1; case_bool_decide as H2; try done.
    + exfalso. apply H2. by right.
    + apply elem_of_cons in H2. naive_solver.
Qed.

Lemma add_all_default ck hosts s :
  cs_default_key (foldl (fun s host => add host ck s) s hosts) = cs_default_key s.
Proof. revert s. induction hosts as [|h hosts IH]; intros s; [done|]. cbn [foldl]. by rewrite IH. Qed.

(** Each entry of the store, and its default key, is a certificate registered for it. *)
Lemma run_ops_entry ops name ck :
  cs_certs (run_ops ops) !! name = Some ck ->
  AddFromCert ck ∈ ops /\ name ∈ extract_hostnames_from_certified_key ck.
Proof.
  induction ops as [|op ops IH] using rev_ind; [done|]. unfold run_ops. rewrite foldl_snoc.
  fold (run_ops ops). rewrite elem_of_app, list_elem_of_singleton.
  destruct op as [ck'|ck']; cbn [apply_op]; [|intros E; naive_solver].
  unfold add_from_cert. rewrite add_all_lookup by apply hostnames_lower.
  case_bool_decide; naive_solver.
Qed.

Lemma run_ops_registered ops ck name :
  AddFromCert ck ∈ ops -> name ∈ extract_hostnames_from_certified_key ck ->
  exists ck', cs_certs (run_ops ops) !! name = Some ck'.
Proof.
  induction ops as [|op ops IH] using rev_ind; [by intros ?%elem_of_nil|].
  unfold run_ops. rewrite foldl_snoc. fold (run_ops ops). rewrite elem_of_app, list_elem_of_singleton.
  intros Hin Hn. destruct op as [ck'|ck']; cbn [apply_op]; [|naive_solver].
  unfold add_from_cert. rewrite add_all_lookup by apply hostnames_lower.
  case_bool_decide; naive_solver.
Qed.

(** The default key is the one set last. *)
Lemma run_ops_default ops :
  cs_default_key (run_ops ops) = last (filter_map (fun op => match op with SetDefault ck => Some ck | _ => None end) ops).
Proof.
  induction ops as [|op ops IH] using rev_ind; [done|]. unfold run_ops. rewrite foldl_snoc.
  fold (run_ops ops). rewrite filter_map_app. destruct op as [ck|ck]; cbn [apply_op filter_map].
  - unfold add_from_cert. rewrite add_all_default, IH. cbn. by rewrite app_nil_r.
  - cbn. by rewrite last_snoc.
Qed.

Lemma names_host_split pattern host :
  names_host pattern host <->
  pattern = host \/ exists p, split_once host DOT = Some p /\ pattern = bs "*." ++ p.2.
Proof.
  unfold names_host. split; (intros [->|Hw]; [by left|right]).
  - destruct Hw as (label & rest & -> & Hl & ->). exists (label, rest). by rewrite split_once_app.
  - destruct Hw as ([label rest] & (-> & Hl)%split_once_Some & ->). naive_solver.
Qed.

(** The two lookups of [resolve] look for every name that stands for the host. *)
Lemma resolve_lookup s sni :
  (exists pattern ck, names_host pattern (lower sni) /\ cs_certs s !! pattern = Some ck /\ resolve s sni = Some ck) \/
  (forall pattern, names_host pattern (lower sni) -> cs_certs s !! pattern = None) /\
    resolve s sni = cs_default_key s.
Proof.
  unfold resolve. destruct (cs_certs s !! lower sni) as [ck|] eqn:E1.
  { left. exists (lower sni), ck. rewrite names_host_split. naive_solver. }
  destruct (split_once (lower sni) DOT) as [p|] eqn:Es; cbn [mbind option_bind].
  - destruct (cs_certs s !! (bs "*." ++ p.2)) as [ck|] eqn:E2.
    + left. exists (bs "*." ++ p.2), ck. rewrite names_host_split. naive_solver.
    + right. split; [|done]. intros pattern. rewrite names_host_split. naive_solver.
  - right. split; [|done]. intros pattern. rewrite names_host_split. naive_solver.
Qed.

(** C24: a client that asks for a server name is given a registered certificate that is for
    this name (the name itself in any case, or the wildcard of its parent domain) whenever
    one of the registered certificates is; only a name no certificate is for gets the default
    certificate, the one set last.  A client without server name gets the default. *)
Theorem served_certificate_covers ops sni :
  (exists ck, resolve (run_ops ops) sni = Some ck /\ AddFromCert ck ∈ ops /\ covers ck sni) \/
  (forall ck, AddFromCert ck ∈ ops -> ~ covers ck sni) /\
    resolve (run_ops ops) sni = resolve_hello (run_ops ops) None /\
    resolve_hello (run_ops ops) None =
      last (filter_map (fun op => match op with SetDefault ck => Some ck | _ => None end) ops).
Proof.
  destruct (resolve_lookup (run_ops ops) sni) as [(pattern & ck & Hn & Hl & ->)|[Hn ->]].
  - left. exists ck. apply run_ops_entry in Hl as [Hin Hp]. repeat split; [done|]. by exists pattern.
  - right. split; [|by rewrite <- run_ops_default]. intros ck Hin (pattern & Hp & Hh).
    destruct (run_ops_registered ops ck pattern Hin Hp) as [ck' E]. by rewrite Hn in E.
Qed.
End StoreLemmas.

(** ** Loading and issuing *)

Section LoadLemmas.
Context `{TlsLib}.

Lemma pkcs8_label_refused `{!TlsSpec} certs pkey der :
  rsa_or_ec pkey = true -> private_key_to_der pkey = Ok der ->
  exists e, build_certified_key certs (Pkcs8 der) = Err e.
Proof.
  intros Hk Hd. unfold build_certified_key, map_err. destruct (any_supported_type (Pkcs8 der)) eqn:E; [|eauto].
  apply supported_pkcs8 in E. by rewrite (key_specific_der pkey der Hk Hd) in E.
Qed.

(** A frontend whose certificate is a PKCS#12 file with an RSA or elliptic curve key never
    loads: the key is exported in the format of its type and handed on as PKCS#8.  The same holds
    of an encrypted PEM key with its password. *)
Theorem exported_key_refused `{!TlsSpec} (f : FrontendConfig) (fs : gmap bytes bytes) (path data : bytes) (pkey : PKey) :
  fs !! path = Some data ->
  rsa_or_ec pkey = true ->
  (fr_tls_pfx f = Some path /\
     (exists p cert ca, pkcs12_from_der data = Ok p /\
        parse2 p (match fr_tls_pfx_password f with Some pw => pw | None => [] end) = Ok (Some pkey, cert, ca))) \/
  (fr_tls_pfx f = None /\ fr_tls_cert f = Some path /\ fr_tls_key f = None /\ first_key (read_all data) = None /\
     (exists pw, fr_tls_key_password f = Some pw /\ private_key_from_pem_passphrase data pw = Ok pkey)) ->
  exists e, load_from_frontend f (mkDisk fs []) = (Err e, mkDisk fs []).
Proof.
  intros Hf Hk Hcase. unfold load_from_frontend.
  destruct Hcase as [[-> (p & cert & ca & Hp & Hparse)]|(-> & -> & -> & Hfk & pw & -> & Hpw)].
  - unfold load_pfx, cio_bind, or_error. rewrite (fs_read_calm _ _ (mkDisk _ []) eq_refl Hf). unfold cio_of. rewrite Hp. cbn. rewrite Hparse. cbn.
    destruct (private_key_to_der pkey) as [der|] eqn:Ed; cbn; [|eauto]. destruct cert as [leaf|]; [|eauto].
    destruct (pkcs8_label_refused (leaf :: match ca with Some stack => stack | None => [] end) pkey der Hk Ed)
      as [e ->]. eauto.
  - unfold load_combined_pem, cio_bind, or_error. rewrite (fs_read_calm _ _ (mkDisk _ []) eq_refl Hf). unfold cio_of.
    destruct (pem_certs (read_all data)) as [certs|] eqn:Ec; cbn; [|eauto]. destruct (is_nil certs); [eauto|].
    unfold read_private_key, decrypt_openssl_pem_key. rewrite Hfk, Hpw. cbn.
    destruct (private_key_to_der pkey) as [der|] eqn:Ed; cbn; [|eauto].
    destruct (pkcs8_label_refused certs pkey der Hk Ed) as [e ->]. eauto.
Qed.

(** Stapling replaces nothing of the key but its OCSP response, which is the answer of the
    responder the certificate names to a request about the certificate and its issuer. *)
Theorem staple_keeps_certificate `{!OcspLib} (ck : CertifiedKey) :
  staple_certified_key ck = ck \/
  exists leaf issuer rest x y url req response,
    ck_cert ck = leaf :: issuer :: rest /\ x509_from_der leaf = Ok x /\ x509_from_der issuer = Ok y /\
    extract_ocsp_url leaf = Some url /\ starts_with url (bs "http") = true /\
    ocsp_request x y = Ok req /\ ocsp_post url req = Ok response /\
    staple_certified_key ck = mkCertifiedKey (ck_cert ck) (ck_key ck) (Some response).
Proof.
  unfold staple_certified_key, end_entity_cert. destruct (ck_cert ck) as [|leaf chain] eqn:Ec; [by left|]. cbn [head].
  destruct (extract_ocsp_url leaf) as [url|] eqn:Eu; [|by left]. cbn [drop].
  assert (starts_with url (bs "http") = true) as Hh.
  { revert Eu. unfold extract_ocsp_url. destruct (x509_from_der leaf); [|done].
    destruct (x509_to_text _); [|done]. intros Hin%head_Some_elem_of. apply elem_of_filter_map in Hin as (l & _ & Hl).
    unfold ocsp_line in Hl. destruct (strip_prefix _ _); [|done]. cbn in Hl. case_match; naive_solver. }
  unfold fetch_ocsp_response. destruct (x509_from_der leaf) as [x|] eqn:Ex; [|by left]. cbn.
  destruct chain as [|issuer rest]; [by left|]. rewrite drop_0.
  destruct (x509_from_der issuer) as [y|] eqn:Ey; [|by left]. cbn.
  destruct (ocsp_request x y) as [req|] eqn:Er; [|by left]. cbn.
  destruct (ocsp_post url req) as [response|] eqn:Ep; [|by left]. right.
  exists leaf, issuer, rest, x, y, url, req, response. done.
Qed.

Lemma san_covers ck leaf x names host :
  end_entity_cert ck = Some leaf -> x509_from_der leaf = Ok x -> subject_alt_names x = Some names ->
  Some host ∈ names -> covers ck host.
Proof.
  intros Hl Hx Hn Hin. exists (lower host). split; [|by left].
  unfold extract_hostnames_from_certified_key. rewrite Hl, Hx, Hn. cbn zeta.
  rewrite elem_of_dedup, elem_of_sort_strings.
  set (sans := filter_map _ names).
  assert (lower host ∈ sans) as Hs by (apply elem_of_filter_map; by exists (Some host)).
  destruct sans; [by apply elem_of_nil in Hs|done].
Qed.

Lemma set_permissions_files path d : files (fs_set_permissions path d).2 = files d.
Proof. unfold fs_set_permissions. destruct (next_fault d) as [[]]; by repeat case_match. Qed.

(** A frontend configured with the two files [generate_self_signed_cert] wrote loads them,
    whatever calls failed or not before, and its certificate is for the common name and for
    [localhost]. *)
Theorem self_signed_loads `{!SelfSignedLib} `{!SelfSignedSpec} (f : FrontendConfig) (cert_path key_path cn : bytes)
    (ips : list IpAddr) (d d' : disk) :
  cert_path <> key_path ->
  generate_self_signed_cert cert_path key_path cn ips d = (Ok tt, d') ->
  fr_tls_pfx f = None -> fr_tls_cert f = Some cert_path -> fr_tls_chain f = None -> fr_tls_key f = Some key_path ->
  exists ck, load_from_frontend f (mkDisk (files d') []) = (Ok ck, mkDisk (files d') []) /\
    covers ck cn /\ covers ck (bs "localhost").
Proof.
  intros Hne Hg Hpfx Hc Hch Hky. unfold generate_self_signed_cert, io_bind, io_of in Hg.
  destruct (issue _ _ _) as [c|] eqn:Ei; [|done].
  destruct (issued_pem _ _ _ _ Ei) as (pem & der & x & Hp & Hr & Hx & Hs).
  destruct (issued_key _ _ _ _ Ei) as (kpem & kder & k & Hkp & Hkr & Hk).
  rewrite Hp, Hkp in Hg.
  assert (files d' !! cert_path = Some pem /\ files d' !! key_path = Some kpem) as [Hfc Hfk].
  { destruct (fs_write cert_path pem d) as [[[]|] d1] eqn:E1; [|done]. apply fs_write_files in E1.
    destruct (fs_write key_path kpem d1) as [[[]|] d2] eqn:E2; [|done]. apply fs_write_files in E2.
    apply (f_equal (fun r => files r.2)) in Hg. rewrite set_permissions_files in Hg. cbn in Hg.
    rewrite <- Hg, E2, E1. by simplify_map_eq. }
  exists (mkCertifiedKey [der] k None).
  split; [|split; eapply (san_covers _ der x); [done..| |done|done|exact Hs|]; set_solver].
  unfold load_from_frontend. rewrite Hpfx, Hc, Hky, Hch.
  unfold load_separate_files, load_chain, cio_bind, or_error. rewrite (fs_read_calm _ _ (mkDisk _ []) eq_refl Hfc).
  unfold cio_of. rewrite Hr. cbn [pem_certs map_err is_nil app cio_ret]. rewrite (fs_read_calm _ _ (mkDisk _ []) eq_refl Hfk).
  unfold read_private_key. rewrite Hkr. cbn. unfold build_certified_key. by rewrite Hk.
Qed.
End LoadLemmas.

(** ** A toy library: the first byte of a PEM file says what it is *)

Definition toy_read_all (data : bytes) : list (result PemItem bytes) :=
  match data with
  | 67 :: der => [Ok (X509Certificate der)]
  | 75 :: der => [Ok (KeyItem (Pkcs8 der))]
  | _ => []
  end.

#[export] Instance toy_tls : TlsLib := {|
  read_all := toy_read_all;
  SigningKey := bytes;
  any_supported_type k := match k with Pkcs8 (80 :: d) => Ok d | _ => Err (bs "unsupported") end;
  PKey := bytes;
  private_key_from_pem_passphrase data _ := Ok data;
  private_key_to_der k := Ok (82 :: k);
  Pkcs12 := bytes;
  pkcs12_from_der := Ok;
  parse2 p _ := Ok (Some p, Some p, None);
  X509 := bytes;
  x509_from_der := Ok;
  subject_alt_names x := Some [Some x; Some (bs "localhost"); None];
  common_name x := Some (Ok x);
  x509_to_text x := Ok x;
|}.

#[export] Instance toy_tls_spec : TlsSpec.
Proof.
  refine (Build_TlsSpec toy_tls (fun d => bool_decide (head d = Some 80)) (fun _ => true) _ _).
  - intros der k E. cbn in E. destruct der as [|b der]; [done|].
    destruct (decide (b = 80)) as [->|Hb]; [done|]. exfalso.
    destruct b as [|b|b]; [done| |done]. repeat (destruct b as [b|b|]; try done).
  - intros pkey der _ [= <-]. done.
Defined.

#[export] Instance toy_issuer : SelfSignedLib := {|
  Issued := bytes;
  issue cn dns ips := if bool_decide (dns = [cn; bs "localhost"] /\ ips = [bs "127.0.0.1"]) then Ok cn else Err [];
  cert_to_pem c := Ok (67 :: c);
  private_key_to_pem_pkcs8 c := Ok (75 :: 80 :: c);
|}.

#[export] Instance toy_issuer_spec : SelfSignedSpec.
Proof.
  split; intros cn dns ips c; cbn; case_bool_decide as Hd; intros [= <-]; destruct Hd as [-> ->].
  - exists (67 :: cn), cn, cn. done.
  - exists (75 :: 80 :: cn), (80 :: cn), cn. done.
Qed.

(** A frontend with TLS settings. *)
Definition tls_frontend (name : bytes) (p : ProtocolType) (cert key pfx : option bytes) : FrontendConfig :=
  mkFrontend name p [bs "0.0.0.0:443"] (bs "pool") cert None key None pfx None default_tls_min_version []
    BRoundRobin true None None None ApacheCombined true None FrontendHeadersConfig_default SmtpHeadersConfig_default
    FrontendAclConfig_default None default_session_cookie.

Lemma exported_key_refused_witness :
  exists e, load_from_frontend (tls_frontend (bs "web") Https None None (Some (bs "a.pfx")))
              (mkDisk {[ bs "a.pfx" := bs "key" ]} []) = (Err e, mkDisk {[ bs "a.pfx" := bs "key" ]} []).
Proof.
  apply (@exported_key_refused toy_tls toy_tls_spec _ _ (bs "a.pfx") (bs "key") (bs "key")); [by simplify_map_eq|done|].
  left. split; [done|]. exists (bs "key"), (Some (bs "key")), None. split; reflexivity.
Defined.

Lemma self_signed_loads_witness :
  exists ck, load_from_frontend (tls_frontend (bs "ui") Https (Some (bs "c.pem")) (Some (bs "k.pem")) None)
      (mkDisk (files (generate_self_signed_cert (bs "c.pem") (bs "k.pem") (bs "wall.example") [] (mkDisk ∅ [])).2) []) =
      (Ok ck, mkDisk (files (generate_self_signed_cert (bs "c.pem") (bs "k.pem") (bs "wall.example") [] (mkDisk ∅ [])).2) []) /\
    covers ck (bs "wall.example") /\ covers ck (bs "localhost").
Proof.
  apply (self_signed_loads _ (bs "c.pem") (bs "k.pem") (bs "wall.example") [] (mkDisk ∅ []));
    [done|by vm_compute|reflexivity..].
Defined.
