(* ===== verification/Wire.v ===== *)
(** * Conversations with a peer

    The bytes written to a connection and the lines read from it, as a monad:
    used by the forwarding of the SMTP proxy and by the SMTP client of the
    relay.  A peer is the list of the lines it will send, [None] for a read that
    fails; after them it has closed its side.  Writes succeed. *)

From S2P Require Import Prelude RustStr.
Open Scope Z_scope.

(** The lines still to be read in; the bytes written, the result or the error that ended
    the conversation, and the lines left. *)
Definition conv (E A : Type) : Type :=
  list (option bytes) -> bytes * result A E * list (option bytes).

Definition conv_ret {E A} (a : A) : conv E A := fun c => ([], Ok a, c).
Definition conv_err {E A} (e : E) : conv E A := fun c => ([], Err e, c).
Definition conv_bind {E A B} (m : conv E A) (k : A -> conv E B) : conv E B := fun c =>
  match m c with
  | (w, Err e, c) => (w, Err e, c)
  | (w, Ok a, c) => let '(w', r, c) := k a c in (w ++ w', r, c)
  end.
Notation "'do' x <- m ; k" := (conv_bind m (fun x => k))
  (at level 10, x pattern, m at level 100, k at level 200) : rust_scope.

Definition send {E} (b : bytes) : conv E unit := fun c => (b, Ok tt, c).

(** [read_line]: an empty line at the end of the stream, [e] for a failing read. *)
Definition recv {E} (e : E) : conv E bytes := fun c =>
  match c with
  | [] => ([], Ok [], [])
  | Some l :: c => ([], Ok l, c)
  | None :: c => ([], Err e, c)
  end.

(** ** Conversations whose output does not depend on the peer *)

(** Reads that succeed. *)
Definition readable (c : list (option bytes)) : Prop := Forall is_Some c.

Lemma readable_nil : readable [].
Proof. constructor. Qed.
#[export] Hint Resolve readable_nil : core.

Definition writes {E A} (m : conv E A) (b : bytes) : Prop := forall c, readable c ->
  exists a c', m c = (b, Ok a, c') /\ readable c'.

Section Writes.
Context {E : Type}.

Lemma writes_bind {A B} (m : conv E A) (k : A -> conv E B) b b' :
  writes m b -> (forall a, writes (k a) b') -> writes (conv_bind m k) (b ++ b').
Proof.
  intros Hm Hk c Hc. destruct (Hm c Hc) as (a & c' & Em & Hc').
  destruct (Hk a c' Hc') as (a' & c'' & E' & Hc''). exists a', c''.
  unfold conv_bind. by rewrite Em, E'.
Qed.

Lemma writes_ret {A} (a : A) : writes (conv_ret (E:=E) a) [].
Proof. intros c Hc. by exists a, c. Qed.

Lemma writes_send b : writes (send (E:=E) b) b.
Proof. intros c Hc. by exists tt, c. Qed.

Lemma writes_recv (e : E) : writes (recv e) [].
Proof.
  intros c Hc. destruct Hc as [|[l|] c [x Hx] Hc]; [exists [], []; by split|by exists l, c|done].
Qed.
End Writes.

(** ** Conversations that write a known text, up to where they fail *)

Definition upto {E A} (m : conv E A) (b : bytes) : Prop := forall c,
  exists w r c', m c = (w, r, c') /\ exists rest, b = w ++ rest /\ (is_ok r = true -> rest = []).

Section Upto.
Context {E : Type}.

Lemma upto_bind {A B} (m : conv E A) (k : A -> conv E B) b b' :
  upto m b -> (forall a, upto (k a) b') -> upto (conv_bind m k) (b ++ b').
Proof.
  intros Hm Hk c. destruct (Hm c) as (w & r & c' & Em & rest & -> & Hr).
  unfold conv_bind. rewrite Em. destruct r as [a|e].
  - rewrite (Hr eq_refl), app_nil_r. destruct (Hk a c') as (w' & r & c'' & -> & rest' & -> & Hr').
    eexists _, _, _. split; [done|]. exists rest'. by rewrite app_assoc.
  - eexists _, _, _. split; [done|]. exists (rest ++ b'). by rewrite app_assoc.
Qed.

Lemma upto_bind_eq {A B} (m : conv E A) (k : A -> conv E B) b b' t :
  upto m b -> (forall a, upto (k a) b') -> t = b ++ b' -> upto (conv_bind m k) t.
Proof. intros Hm Hk ->. by apply upto_bind. Qed.

Lemma upto_ret {A} (a : A) : upto (conv_ret (E:=E) a) [].
Proof. intros c. eexists _, _, _. split; [done|]. by exists []. Qed.

Lemma upto_err {A} (e : E) b : upto (conv_err (A:=A) e) b.
Proof. intros c. eexists _, _, _. split; [done|]. by exists b. Qed.

Lemma upto_send b : upto (send (E:=E) b) b.
Proof. intros c. eexists _, _, _. split; [done|]. exists []. by rewrite app_nil_r. Qed.

Lemma conv_bind_Ok {A B} (m : conv E A) (k : A -> conv E B) c w b c' :
  conv_bind m k c = (w, Ok b, c') <->
  exists w1 a c1 w2, m c = (w1, Ok a, c1) /\ k a c1 = (w2, Ok b, c') /\ w = w1 ++ w2.
Proof.
  unfold conv_bind. destruct (m c) as [[w1 [a|e]] c1].
  - destruct (k a c1) as [[w2 r] c2] eqn:Ek. split.
    + intros ?; simplify_eq. eauto 10.
    + intros (? & ? & ? & ? & ? & Hk & ->). simplify_eq. rewrite Hk in Ek. by simplify_eq.
  - split; [done|]. intros (? & ? & ? & ? & ? & _). done.
Qed.
End Upto.
