(* ===== verification/RelayQueue.v ===== *)
(** * The outbound queue: [serverwall-relay/src/queue/]

    [message.rs]: the records of a queued message.  [scheduler.rs]: retry times.
    [spool.rs]: the spool directory, as a map from file names to contents with a
    script of the failures its system calls meet. *)

From S2P Require Import Prelude RustStr Schema Fs.
Open Scope Z_scope.

(** ** Data of [message.rs] *)

Inductive QueueStatus := Pending | Active | Deferred | Held.

#[export] Instance QueueStatus_eq_dec : EqDecision QueueStatus.
Proof. solve_decision. Defined.

Record Envelope := mkEnvelope { mail_from : bytes; rcpt_to : list bytes }.

(** Instants are nanoseconds since the epoch, durations are nanoseconds. *)
Record MessageMetadata := mkMetadata {
  created : Z;
  next_retry : Z;
  attempts : Z;
  last_error : option bytes;
  status : QueueStatus;
  size : Z;
}.

Record QueuedMessage := mkQueued {
  qid : bytes;
  envelope : Envelope;
  metadata : MessageMetadata;
}.

#[export] Instance Envelope_eq_dec : EqDecision Envelope.
Proof. solve_decision. Defined.
#[export] Instance MessageMetadata_eq_dec : EqDecision MessageMetadata.
Proof. solve_decision. Defined.
#[export] Instance QueuedMessage_eq_dec : EqDecision QueuedMessage.
Proof. solve_decision. Defined.

Definition set_status (st : QueueStatus) (m : MessageMetadata) : MessageMetadata :=
  mkMetadata (created m) (next_retry m) (attempts m) (last_error m) st (size m).
Definition set_attempts (n : Z) (m : MessageMetadata) : MessageMetadata :=
  mkMetadata (created m) (next_retry m) n (last_error m) (status m) (size m).
Definition set_last_error (e : option bytes) (m : MessageMetadata) : MessageMetadata :=
  mkMetadata (created m) (next_retry m) (attempts m) e (status m) (size m).
Definition set_next_retry (t : Z) (m : MessageMetadata) : MessageMetadata :=
  mkMetadata (created m) t (attempts m) (last_error m) (status m) (size m).
Definition set_metadata (md : MessageMetadata) (q : QueuedMessage) : QueuedMessage :=
  mkQueued (qid q) (envelope q) md.

(** ** [scheduler.rs] *)

(** [chrono::TimeDelta::try_*]: a duration of that many units, [None] out of range. *)
Class Chrono := {
  try_seconds : Z -> option Z;
  try_minutes : Z -> option Z;
  try_hours : Z -> option Z;
  try_days : Z -> option Z;
}.

(** The documented range is that of an [i64] number of milliseconds. *)
Definition chrono_unit (unit_ns v : Z) : option Z :=
  if (Z.abs (v * unit_ns) <=? (2 ^ 63 - 1) * 1000000) then Some (v * unit_ns) else None.

Class ChronoSpec `{Chrono} := {
  try_seconds_spec v : try_seconds v = chrono_unit 1000000000 v;
  try_minutes_spec v : try_minutes v = chrono_unit 60000000000 v;
  try_hours_spec v : try_hours v = chrono_unit 3600000000000 v;
  try_days_spec v : try_days v = chrono_unit 86400000000000 v;
}.

#[export] Instance chrono_model : Chrono | 100 := {|
  try_seconds := chrono_unit 1000000000;
  try_minutes := chrono_unit 60000000000;
  try_hours := chrono_unit 3600000000000;
  try_days := chrono_unit 86400000000000;
|}.
#[export] Instance chrono_model_spec : @ChronoSpec chrono_model.
Proof. done. Qed.

Record RetryScheduler := mkScheduler {
  intervals : list Z;
  max_age : Z;
  max_attempts : Z;
}.

Definition ns_hours (n : Z) : Z := n * 3600000000000.
Definition ns_days (n : Z) : Z := n * 86400000000000.

Section Scheduler.
Context `{Chrono}.

(** The outer [None] is the panic of [split_at] inside a character. *)
Definition parse_duration (s : bytes) : option (option Z) :=
  let s := trim s in
  if is_nil s then Some None
  else
    let n := (length s - 1)%nat in
    if negb (is_char_boundary s n) then None
    else
      let num_str := take n s in
      let unit := drop n s in
      match parse_int 64 num_str with
      | None => Some None
      | Some value =>
          if bool_decide (unit = bs "s") then Some (try_seconds value)
          else if bool_decide (unit = bs "m") then Some (try_minutes value)
          else if bool_decide (unit = bs "h") then Some (try_hours value)
          else if bool_decide (unit = bs "d") then Some (try_days value)
          else Some None
      end.

(** [filter_map(parse_duration).collect()]; a panic ends the whole program. *)
Fixpoint parse_intervals (l : list bytes) : option (list Z) :=
  match l with
  | [] => Some []
  | s :: l =>
      match parse_duration s with
      | None => None
      | Some None => parse_intervals l
      | Some (Some d) => match parse_intervals l with Some ds => Some (d :: ds) | None => None end
      end
  end.

Definition RetryScheduler_new (config : RetryConfig) : option RetryScheduler :=
  match parse_intervals (rc_intervals config) with
  | None => None
  | Some ds =>
      match parse_duration (rc_max_age config) with
      | None => None
      | Some age => Some (mkScheduler ds (unwrap_or (ns_days 5) age) (rc_max_attempts config))
      end
  end.
End Scheduler.

(** The delay before the next attempt. *)
Definition retry_delay (sch : RetryScheduler) (attempt : Z) : Z :=
  match intervals sch !! Z.to_nat attempt with
  | Some d => d
  | None => unwrap_or (ns_hours 1) (last (intervals sch))
  end.

Definition next_retry_time (sch : RetryScheduler) (now attempt : Z) : option Z :=
  if max_attempts sch <=? attempt then None
  else Some (now + retry_delay sch attempt).

Definition is_expired (sch : RetryScheduler) (now created : Z) : bool :=
  max_age sch <? now - created.

(** ** [spool.rs] *)

(** [serde_json] on [QueuedMessage]. *)
Class Serde := {
  to_json : QueuedMessage -> option bytes;
  of_json : bytes -> option QueuedMessage;
}.

(** What the spool relies on: the serializer accepts these records, the parser
    inverts it, and a proper prefix of a document is not a document. *)
Class SerdeSpec `{Serde} := {
  to_json_total q : exists j, to_json q = Some j;
  of_to_json q j : to_json q = Some j -> of_json j = Some q;
  of_json_prefix q j n : to_json q = Some j -> (n < length j)%nat -> of_json (take n j) = None;
}.

(** [generate_queue_id]: the low 32 bits of the time in milliseconds and 16
    random bits, in hexadecimal. *)
Definition generate_queue_id (ts_millis rand : Z) : bytes :=
  show_hex 8 (ts_millis mod 2 ^ 32) [] ++ show_hex 4 (Z.land rand 65535) [].

Definition meta_path (queue_id : bytes) : bytes := queue_id ++ bs ".meta".
Definition msg_path (queue_id : bytes) : bytes := queue_id ++ bs ".msg".

(** What the clock and the random generator answer during one [enqueue]. *)
Record Tick := mkTick { t_now : Z; t_millis : Z; t_rand : Z }.

Section Spool.
Context `{Serde}.

Definition new_message (queue_id : bytes) (now : Z) (env : Envelope) (msg : bytes)
  : QueuedMessage :=
  mkQueued queue_id env (mkMetadata now now 0 None Pending (Z.of_nat (length msg))).

Definition enqueue (t : Tick) (env : Envelope) (msg : bytes) : io bytes :=
  let queue_id := generate_queue_id (t_millis t) (t_rand t) in
  let queued := new_message queue_id (t_now t) env msg in
  match to_json queued with
  | None => io_err (bs "failed to serialize queue metadata")
  | Some meta_json =>
      let! _ := fs_write (msg_path queue_id) msg in
      let! _ := fs_write (meta_path queue_id) meta_json in
      io_ret queue_id
  end.

Definition dequeue (queue_id : bytes) : io (QueuedMessage * bytes) :=
  let! meta_bytes := fs_read (meta_path queue_id) in
  match of_json meta_bytes with
  | None => io_err (bs "failed to parse metadata for " ++ queue_id)
  | Some queued =>
      let! msg_bytes := fs_read (msg_path queue_id) in
      io_ret (queued, msg_bytes)
  end.

Definition remove (queue_id : bytes) : io unit :=
  let! m := fs_exists (meta_path queue_id) in
  let! _ := (if m then fs_remove_file (meta_path queue_id) else io_ret tt) in
  let! b := fs_exists (msg_path queue_id) in
  let! _ := (if b then fs_remove_file (msg_path queue_id) else io_ret tt) in
  io_ret tt.

Definition update_metadata (queue_id : bytes) (md : MessageMetadata) : io unit :=
  let! meta_bytes := fs_read (meta_path queue_id) in
  match of_json meta_bytes with
  | None => io_err (bs "failed to parse metadata for " ++ queue_id)
  | Some queued =>
      match to_json (set_metadata md queued) with
      | None => io_err (bs "failed to serialize updated metadata")
      | Some updated_json => fs_write (meta_path queue_id) updated_json
      end
  end.

(** One directory entry of [list]: unreadable and corrupt files are skipped. *)
Definition list_entry (path : bytes) : io (option QueuedMessage) := fun d =>
  match fs_read path d with
  | (Ok data, d) => (Ok (of_json data), d)
  | (Err _, d) => (Ok None, d)
  end.

Fixpoint list_entries (paths : list bytes) : io (list QueuedMessage) :=
  match paths with
  | [] => io_ret []
  | p :: ps =>
      if bool_decide (path_extension p = Some (bs "meta")) then
        let! q := list_entry p in
        let! qs := list_entries ps in
        io_ret (match q with Some q => q :: qs | None => qs end)
      else list_entries ps
  end.

(** [list]: [read_dir] yields the entries in an order the system chooses; here
    that of the map. *)
Definition spool_list : io (list QueuedMessage) := fun d =>
  list_entries (fst <$> map_to_list (files d)) d.
End Spool.

(** ** File names *)

Lemma meta_path_inj a b : meta_path a = meta_path b -> a = b.
Proof. apply (inj (fun x => x ++ bs ".meta")). Qed.

Lemma msg_path_inj a b : msg_path a = msg_path b -> a = b.
Proof. apply (inj (fun x => x ++ bs ".msg")). Qed.

Lemma meta_ne_msg a b : meta_path a <> msg_path b.
Proof.
  intros Heq. apply (f_equal last) in Heq. unfold meta_path, msg_path in Heq.
  by rewrite !last_app in Heq.
Qed.

Lemma msg_ne_meta a b : msg_path a <> meta_path b.
Proof. intros Heq. by eapply meta_ne_msg. Qed.

#[export] Hint Resolve meta_ne_msg msg_ne_meta : serverwall.

(** ** Effects of the system calls on the files *)

Lemma io_bind_files {A B} (m : io A) (k : A -> io B) d :
  (exists x, (m d).1 = Ok x /\ io_bind m k d = k x (m d).2)
  \/ (exists e, (m d).1 = Err e /\ io_bind m k d = (Err e, (m d).2)).
Proof. unfold io_bind. destruct (m d) as [[x|e] d']; simpl; eauto. Qed.

(** Case analysis on whether the next call of the goal succeeds. *)
Ltac io_step x Hx :=
  match goal with |- context [io_bind ?m ?k ?d] =>
    destruct (io_bind_files m k d) as [(x & Hx & ->)|(x & Hx & ->)] end.

(** ** The spool invariant: committed metadata has its message *)

Section SpoolInvariant.
Context `{SerdeSpec}.

Definition spool_inv (d : disk) : Prop :=
  forall id j q, files d !! meta_path id = Some j -> of_json j = Some q ->
    qid q = id /\
    exists m, files d !! msg_path id = Some m /\ Z.of_nat (length m) = size (metadata q).

(** The invariant reads only the files. *)
Lemma spool_inv_files d d' : files d' = files d -> spool_inv d -> spool_inv d'.
Proof. unfold spool_inv. intros ->. done. Qed.

(** Writing a message file whose metadata is absent. *)
Lemma spool_inv_msg d d' id m :
  spool_inv d -> files d !! meta_path id = None ->
  files d' = <[msg_path id := m]> (files d) -> spool_inv d'.
Proof.
  intros Hinv Hnone Hf id' j q. rewrite Hf.
  rewrite lookup_insert_ne by apply msg_ne_meta. intros Hj Hq.
  destruct (decide (id' = id)) as [->|Hne]; [congruence|].
  rewrite lookup_insert_ne by (intros ?%msg_path_inj; congruence).
  by eapply Hinv.
Qed.

(** Writing metadata, entirely or in part, next to its message file. *)
Lemma spool_inv_meta d d' id q j n m :
  spool_inv d -> to_json q = Some j -> qid q = id ->
  files d !! msg_path id = Some m -> Z.of_nat (length m) = size (metadata q) ->
  files d' = <[meta_path id := take n j]> (files d) -> spool_inv d'.
Proof.
  intros Hinv Hj Hid Hm Hsz Hf id' j' q'. rewrite Hf.
  destruct (decide (id' = id)) as [->|Hne].
  - rewrite lookup_insert_eq. intros [= <-] Hq'.
    rewrite lookup_insert_ne by apply meta_ne_msg.
    destruct (decide (n < length j)%nat).
    { rewrite (of_json_prefix q) in Hq' by done. done. }
    rewrite take_ge in Hq' by lia. rewrite (of_to_json q) in Hq' by done. naive_solver.
  - rewrite !lookup_insert_ne;
      [|apply meta_ne_msg|intros ?%meta_path_inj; congruence].
    apply Hinv.
Qed.

Lemma enqueue_inv t env msg d :
  spool_inv d ->
  files d !! meta_path (generate_queue_id (t_millis t) (t_rand t)) = None ->
  spool_inv (enqueue t env msg d).2.
Proof.
  intros Hinv Hfresh. unfold enqueue.
  set (id := generate_queue_id _ _) in *.
  destruct (to_json_total (new_message id (t_now t) env msg)) as [j Hj]. rewrite Hj.
  io_step x Hx.
  2: { destruct (fs_write_cases (msg_path id) msg d) as [[Hok _]|(e' & _ & [Hf|[n Hf]])];
       [congruence|by eapply spool_inv_files|by eapply spool_inv_msg]. }
  destruct (fs_write_cases (msg_path id) msg d) as [[_ Hf]|(? & ? & _)]; [|congruence].
  set (d1 := (fs_write (msg_path id) msg d).2) in *. clearbody d1.
  assert (Hinv1 : spool_inv d1) by by eapply spool_inv_msg.
  assert (Hm1 : files d1 !! msg_path id = Some msg) by (rewrite Hf; apply lookup_insert_eq).
  assert (Hw : spool_inv (fs_write (meta_path id) j d1).2).
  { destruct (fs_write_cases (meta_path id) j d1) as [[_ Hf2]|(e & _ & [Hf2|[n Hf2]])].
    - eapply (spool_inv_meta _ _ id _ j (length j)); eauto. by rewrite take_ge by lia.
    - by eapply spool_inv_files.
    - by eapply (spool_inv_meta _ _ id _ j n). }
  by io_step y Hy.
Qed.

Lemma dequeue_files id d : files (dequeue id d).2 = files d.
Proof.
  unfold dequeue, io_bind.
  destruct (fs_read (meta_path id) d) as [[j|e] d1] eqn:E;
    pose proof (fs_read_files (meta_path id) d) as Hf; rewrite E in Hf; simpl in *; [|done].
  destruct (of_json j); [|done].
  destruct (fs_read (msg_path id) d1) as [[m|e] d2] eqn:E2;
    pose proof (fs_read_files (msg_path id) d1) as Hf2; rewrite E2 in Hf2; simpl in *; congruence.
Qed.

Lemma dequeue_Ok id d q m d' :
  dequeue id d = (Ok (q, m), d') ->
  files d' = files d /\
  (exists j, files d !! meta_path id = Some j /\ of_json j = Some q) /\
  files d !! msg_path id = Some m.
Proof.
  intros Hd. pose proof (dequeue_files id d) as Hf. rewrite Hd in Hf. split; [done|].
  unfold dequeue, io_bind in Hd.
  destruct (fs_read (meta_path id) d) as [[j|e] d1] eqn:E; [|done].
  pose proof (fs_read_files (meta_path id) d) as Hf1.
  pose proof (fs_read_Ok (meta_path id) d j) as Hr. rewrite E in Hf1, Hr. simpl in *.
  destruct (of_json j) as [q'|] eqn:Ej; [|done].
  destruct (fs_read (msg_path id) d1) as [[m'|e] d2] eqn:E2; [|done].
  pose proof (fs_read_Ok (msg_path id) d1 m') as Hr2. rewrite E2, Hf1 in Hr2. simpl in *.
  injection Hd as -> -> ->. naive_solver.
Qed.

Lemma update_metadata_inv id md d :
  (forall q j, files d !! meta_path id = Some j -> of_json j = Some q ->
     size md = size (metadata q)) ->
  spool_inv d -> spool_inv (update_metadata id md d).2.
Proof.
  intros Hsz Hinv. unfold update_metadata, io_bind.
  pose proof (fs_read_files (meta_path id) d) as Hf.
  pose proof (fs_read_Ok (meta_path id) d) as Hr.
  destruct (fs_read (meta_path id) d) as [[j|e] d1]; simpl in *;
    [|by eapply spool_inv_files].
  assert (Hinv1 : spool_inv d1) by by eapply spool_inv_files.
  destruct (of_json j) as [q|] eqn:Ej; [|done].
  specialize (Hr _ eq_refl). destruct (Hinv _ _ _ Hr Ej) as (Hid & m & Hm & Hlen).
  destruct (to_json_total (set_metadata md q)) as [j' Hj']. rewrite Hj'.
  rewrite <- Hf in Hm. rewrite <- (Hsz _ _ Hr Ej) in Hlen.
  destruct (fs_write_cases (meta_path id) j' d1) as [[_ Hf2]|(e & _ & [Hf2|[n Hf2]])].
  - eapply (spool_inv_meta _ _ id _ j' (length j')); eauto. by rewrite take_ge by lia.
  - by eapply spool_inv_files.
  - by eapply (spool_inv_meta _ _ id _ j' n).
Qed.

Lemma remove_inv id d : spool_inv d -> spool_inv (remove id d).2.
Proof.
  intros Hinv. unfold remove. unfold io_bind at 1. simpl.
  assert (Hrm_meta : forall d', files d' = delete (meta_path id) (files d) -> spool_inv d').
  { intros d' Hf id' j q. rewrite Hf. intros [? Hj]%lookup_delete_Some Hq.
    rewrite lookup_delete_ne by apply meta_ne_msg. by eapply Hinv. }
  assert (Hrest : forall d1, spool_inv d1 -> files d1 !! meta_path id = None ->
    spool_inv ((let! b := fs_exists (msg_path id) in
                let! _ := (if b then fs_remove_file (msg_path id) else io_ret tt) in
                io_ret tt) d1).2).
  { intros d1 Hinv1 Hnone. unfold io_bind at 1. simpl.
    destruct (files d1 !! msg_path id); [|done].
    assert (Hw : spool_inv (fs_remove_file (msg_path id) d1).2).
    { destruct (fs_remove_cases (msg_path id) d1) as [[Hf _]|[Hf _]];
        [by eapply spool_inv_files|].
      intros id' j q. rewrite Hf. rewrite lookup_delete_ne by apply msg_ne_meta.
      intros Hj Hq. rewrite lookup_delete_ne;
        [by eapply Hinv1|intros ->%msg_path_inj; congruence]. }
    by io_step y Hy. }
  destruct (files d !! meta_path id) as [j|] eqn:Ej.
  2: { unfold io_bind at 1. simpl. by apply Hrest. }
  io_step y Hy.
  - destruct (fs_remove_cases (meta_path id) d) as [[_ [? ?]]|[Hf _]]; [congruence|].
    apply Hrest; [by apply Hrm_meta|]. rewrite Hf. apply lookup_delete_eq.
  - destruct (fs_remove_cases (meta_path id) d) as [[Hf _]|[_ ?]]; [|congruence].
    by eapply spool_inv_files.
Qed.
End SpoolInvariant.

(** ** The spool without failures, as a store of messages *)

Section Store.
Context `{SerdeSpec}.

(** The message a queue id stands for. *)
Definition spool_get (d : disk) (id : bytes) : option (QueuedMessage * bytes) :=
  match files d !! meta_path id with
  | Some j => match of_json j, files d !! msg_path id with
              | Some q, Some m => Some (q, m)
              | _, _ => None
              end
  | None => None
  end.

Lemma spool_get_Some d id q m :
  spool_get d id = Some (q, m) <->
  (exists j, files d !! meta_path id = Some j /\ of_json j = Some q)
  /\ files d !! msg_path id = Some m.
Proof.
  unfold spool_get. split.
  - destruct (files d !! meta_path id) as [j|]; [|done].
    destruct (of_json j) as [q'|] eqn:E, (files d !! msg_path id) as [m'|]; try done.
    intros [= -> ->]. eauto.
  - by intros [(j & -> & ->) ->].
Qed.

(** Operations on one queue id leave the others alone. *)
Lemma spool_get_other d d' id id' :
  id' <> id ->
  (forall p, p <> meta_path id -> p <> msg_path id -> files d' !! p = files d !! p) ->
  spool_get d' id' = spool_get d id'.
Proof.
  intros Hne Hf. unfold spool_get.
  rewrite (Hf (meta_path id')), (Hf (msg_path id')); [done|..];
    first [apply meta_ne_msg | apply msg_ne_meta
          | intros ?%meta_path_inj; congruence | intros ?%msg_path_inj; congruence].
Qed.

Lemma enqueue_calm t env msg d :
  calm d ->
  let id := generate_queue_id (t_millis t) (t_rand t) in
  exists d', enqueue t env msg d = (Ok id, d') /\ calm d' /\
    spool_get d' id = Some (new_message id (t_now t) env msg, msg) /\
    (forall id', id' <> id -> spool_get d' id' = spool_get d id').
Proof.
  intros Hc id. unfold enqueue. fold id.
  destruct (to_json_total (new_message id (t_now t) env msg)) as [j Hj]. rewrite Hj.
  unfold io_bind. rewrite fs_write_calm by done. rewrite fs_write_calm by done.
  eexists. split; [done|]. split; [done|]. split.
  - apply spool_get_Some. simpl. split.
    + exists j. rewrite lookup_insert_eq. split; [done|]. by apply of_to_json.
    + rewrite lookup_insert_ne by apply meta_ne_msg. apply lookup_insert_eq.
  - intros id' Hne. eapply spool_get_other; [done|]. intros p Hp1 Hp2. simpl.
    by rewrite !lookup_insert_ne by done.
Qed.

Lemma dequeue_calm d id q m :
  calm d -> spool_get d id = Some (q, m) -> dequeue id d = (Ok (q, m), d).
Proof.
  intros Hc [(j & Hj & Hq) Hm]%spool_get_Some. unfold dequeue, io_bind.
  rewrite (fs_read_calm _ j) by done. rewrite Hq. by rewrite (fs_read_calm _ m) by done.
Qed.

Lemma update_metadata_calm d id q m md :
  calm d -> spool_get d id = Some (q, m) ->
  exists d', update_metadata id md d = (Ok tt, d') /\ calm d' /\
    spool_get d' id = Some (set_metadata md q, m) /\
    (forall id', id' <> id -> spool_get d' id' = spool_get d id').
Proof.
  intros Hc [(j & Hj & Hq) Hm]%spool_get_Some. unfold update_metadata, io_bind.
  rewrite (fs_read_calm _ j) by done. rewrite Hq.
  destruct (to_json_total (set_metadata md q)) as [j' Hj']. rewrite Hj'.
  rewrite fs_write_calm by done.
  eexists. split; [done|]. split; [done|]. split.
  - apply spool_get_Some. simpl. split.
    + exists j'. rewrite lookup_insert_eq. split; [done|]. by apply of_to_json.
    + by rewrite lookup_insert_ne by apply meta_ne_msg.
  - intros id' Hne. eapply spool_get_other; [done|]. intros p Hp1 Hp2. simpl.
    by rewrite !lookup_insert_ne by done.
Qed.

Lemma remove_calm d id q m :
  calm d -> spool_get d id = Some (q, m) ->
  exists d', remove id d = (Ok tt, d') /\ calm d' /\
    spool_get d' id = None /\
    (forall id', id' <> id -> spool_get d' id' = spool_get d id').
Proof.
  intros Hc [(j & Hj & Hq) Hm]%spool_get_Some.
  unfold remove, io_bind, fs_exists. rewrite Hj. simpl.
  rewrite fs_remove_calm by (done || by eexists). simpl.
  rewrite lookup_delete_ne by apply meta_ne_msg. rewrite Hm. simpl.
  rewrite fs_remove_calm; [|done|eexists; simpl; rewrite lookup_delete_ne by apply meta_ne_msg; done].
  eexists. split; [done|]. split; [done|]. split.
  - unfold spool_get. simpl. rewrite lookup_delete_ne by apply msg_ne_meta.
    by rewrite lookup_delete_eq.
  - intros id' Hne. eapply spool_get_other; [done|]. intros p Hp1 Hp2. simpl.
    by rewrite !lookup_delete_ne by done.
Qed.
End Store.

(** ** The store the spool refines

    A disk represents a finite assignment of messages to queue ids; each spool
    operation is one update of it. *)

Definition store : Type := bytes -> option (QueuedMessage * bytes).

Definition upd (id : bytes) (v : option (QueuedMessage * bytes)) (s : store) : store :=
  fun id' => if bool_decide (id' = id) then v else s id'.

Lemma upd_same id v s : upd id v s id = v.
Proof. unfold upd. by rewrite bool_decide_true. Qed.

Lemma upd_other id v s id' : id' <> id -> upd id v s id' = s id'.
Proof. intros. unfold upd. by rewrite bool_decide_false. Qed.

#[export] Hint Rewrite upd_same : serverwall.
#[export] Hint Rewrite upd_other using done : serverwall.

Section Refinement.
Context `{SerdeSpec}.

Definition represents (d : disk) (s : store) : Prop :=
  calm d /\ forall id, spool_get d id = s id.

Lemma represents_upd d d' s id v :
  represents d s -> calm d' -> spool_get d' id = v ->
  (forall id', id' <> id -> spool_get d' id' = spool_get d id') ->
  represents d' (upd id v s).
Proof.
  intros [_ Hs] Hc Hv Ho. split; [done|]. intros id'.
  destruct (decide (id' = id)) as [->|Hne]; autorewrite with serverwall; [done|].
  by rewrite Ho, Hs.
Qed.

Lemma represents_ext d s s' : (forall id, s id = s' id) -> represents d s -> represents d s'.
Proof. intros He [Hc Hs]. split; [done|]. intros id. by rewrite <- He. Qed.

Lemma enqueue_refines t env msg d s :
  represents d s ->
  let id := generate_queue_id (t_millis t) (t_rand t) in
  exists d', enqueue t env msg d = (Ok id, d') /\
    represents d' (upd id (Some (new_message id (t_now t) env msg, msg)) s).
Proof.
  intros Hr id. pose proof Hr as [Hc Hs].
  destruct (enqueue_calm t env msg d Hc) as (d' & ? & ? & ? & ?).
  eauto using represents_upd.
Qed.

Lemma dequeue_refines d s id q m :
  represents d s -> s id = Some (q, m) -> dequeue id d = (Ok (q, m), d).
Proof. intros [Hc Hs] Hq. apply dequeue_calm; [done|]. by rewrite Hs. Qed.

Lemma update_metadata_refines d s id q m md :
  represents d s -> s id = Some (q, m) ->
  exists d', update_metadata id md d = (Ok tt, d') /\
    represents d' (upd id (Some (set_metadata md q, m)) s).
Proof.
  intros Hr Hq. pose proof Hr as [Hc Hs]. rewrite <- Hs in Hq.
  destruct (update_metadata_calm d id q m md Hc Hq) as (d' & ? & ? & ? & ?).
  eauto using represents_upd.
Qed.

Lemma remove_refines d s id q m :
  represents d s -> s id = Some (q, m) ->
  exists d', remove id d = (Ok tt, d') /\ represents d' (upd id None s).
Proof.
  intros Hr Hq. pose proof Hr as [Hc Hs]. rewrite <- Hs in Hq.
  destruct (remove_calm d id q m Hc Hq) as (d' & ? & ? & ? & ?).
  eauto using represents_upd.
Qed.
End Refinement.

(** ** A serializer that satisfies [SerdeSpec]

    Records are numbered by [stdpp]'s [Countable], the number is written in bits
    and closed by an end mark. *)

#[export] Instance QueueStatus_countable : Countable QueueStatus.
Proof.
  refine (inj_countable'
    (fun s => match s with Pending => 0 | Active => 1 | Deferred => 2 | Held => 3 end)
    (fun n => if n =? 0 then Pending else if n =? 1 then Active
              else if n =? 2 then Deferred else Held) _).
  by intros [].
Defined.

#[export] Instance QueuedMessage_countable : Countable QueuedMessage.
Proof.
  refine (inj_countable'
    (fun q => let e := envelope q in let m := metadata q in
       (qid q, mail_from e, rcpt_to e, created m, next_retry m, attempts m,
        last_error m, status m, size m))
    (fun '(i, f, r, c, n, a, l, s, z) => mkQueued i (mkEnvelope f r) (mkMetadata c n a l s z)) _).
  by intros [i [f r] [c n a l s z]].
Defined.

Fixpoint bits_of (p : positive) : bytes :=
  match p with xH => [2] | xO p => 0 :: bits_of p | xI p => 1 :: bits_of p end.

Fixpoint of_bits (s : bytes) : option positive :=
  match s with
  | [] => None
  | c :: s =>
      if c =? 2 then (if is_nil s then Some xH else None)
      else match of_bits s with
           | Some p => Some (if c =? 0 then xO p else xI p)
           | None => None
           end
  end.

#[export] Instance serde_model : Serde | 100 := {|
  to_json q := Some (bits_of (countable.encode q));
  of_json j := match of_bits j with Some p => countable.decode p | None => None end;
|}.

Lemma bits_of_length p : (0 < length (bits_of p))%nat.
Proof. destruct p; simpl; lia. Qed.

Lemma of_bits_of p : of_bits (bits_of p) = Some p.
Proof. induction p as [p IH|p IH|]; simpl; [by rewrite IH..|done]. Qed.

Lemma of_bits_prefix p n : (n < length (bits_of p))%nat -> of_bits (take n (bits_of p)) = None.
Proof.
  revert n. induction p as [p IH|p IH|]; intros [|n] Hn; simpl in *; try done; try lia;
    by rewrite IH by lia.
Qed.

#[export] Instance serde_model_spec : @SerdeSpec serde_model.
Proof.
  split; simpl.
  - eauto.
  - intros q j [= <-]. rewrite of_bits_of. apply decode_encode.
  - intros q j n [= <-] Hn. by rewrite of_bits_prefix.
Qed.

(** ** Properties *)

(** What is enqueued is what is dequeued: on a spool whose calls succeed,
    [enqueue] returns an id under which [dequeue] finds the envelope, fresh
    metadata (pending, due at once, no attempts, the size of the message) and the
    very bytes, and every other id still stands for the message it stood for. *)
Theorem enqueue_dequeue_roundtrip `{SerdeSpec} t env msg d :
  calm d ->
  exists id d', enqueue t env msg d = (Ok id, d') /\
    dequeue id d' = (Ok (mkQueued id env
      (mkMetadata (t_now t) (t_now t) 0 None Pending (Z.of_nat (length msg))), msg), d') /\
    forall id' q m, id' <> id -> dequeue id' d = (Ok (q, m), d) -> dequeue id' d' = (Ok (q, m), d').
Proof.
  intros Hc. destruct (enqueue_calm t env msg d Hc) as (d' & He & Hc' & Hg & Ho).
  eexists _, d'. split; [done|]. split; [by apply dequeue_calm|].
  intros id' q m Hne (_ & ? & ?)%dequeue_Ok. apply dequeue_calm; [done|].
  rewrite Ho by done. by apply spool_get_Some.
Qed.

Lemma enqueue_dequeue_roundtrip_witness :
  exists id d', enqueue (mkTick 7 7 7) (mkEnvelope (bs "a@b") [bs "c@d"]) (bs "hi") (mkDisk ∅ [])
                = (Ok id, d') /\
    dequeue id d' = (Ok (mkQueued id (mkEnvelope (bs "a@b") [bs "c@d"])
      (mkMetadata 7 7 0 None Pending 2), bs "hi"), d') /\
    forall id' q m, id' <> id ->
      dequeue id' (mkDisk ∅ []) = (Ok (q, m), mkDisk ∅ []) -> dequeue id' d' = (Ok (q, m), d').
Proof.
  apply (enqueue_dequeue_roundtrip (mkTick 7 7 7) (mkEnvelope (bs "a@b") [bs "c@d"]) (bs "hi")
           (mkDisk ∅ [])).
  reflexivity.
Defined.

(** A torn metadata write loses a message: [update_metadata] rewrites the file
    in place, so that when the write stops after part of the document the message
    is no longer in the queue, although its envelope and bytes were intact before. *)
Theorem torn_update_loses_message `{SerdeSpec} id md q m d n rest j' :
  spool_get d id = Some (q, m) -> script d = FOk :: FPartial n :: rest ->
  to_json (set_metadata md q) = Some j' -> (n < length j')%nat ->
  spool_get (update_metadata id md d).2 id = None.
Proof.
  intros [(j & Hj & Hq) Hm]%spool_get_Some Hs Hj' Hn.
  unfold update_metadata, io_bind, fs_read, next_fault. rewrite Hs, Hj. simpl.
  rewrite Hq, Hj'. unfold fs_write, next_fault, spool_get. simpl.
  rewrite lookup_insert_eq. by rewrite (of_json_prefix (set_metadata md q)).
Qed.

(** A spool with one message, about to meet a torn write. *)
Definition torn_disk : disk :=
  mkDisk (files (enqueue (mkTick 7 7 7) (mkEnvelope [] []) [] (mkDisk ∅ [])).2) [FOk; FPartial 0].
Definition torn_id : bytes := generate_queue_id 7 7.
Definition torn_message : QueuedMessage := new_message torn_id 7 (mkEnvelope [] []) [].

Lemma torn_disk_get : spool_get torn_disk torn_id = Some (torn_message, []).
Proof.
  destruct (enqueue_calm (mkTick 7 7 7) (mkEnvelope [] []) [] (mkDisk ∅ []) eq_refl)
    as (d' & He & _ & Hg & _).
  unfold spool_get, torn_disk in *. by rewrite He.
Qed.

Lemma torn_update_loses_message_witness :
  spool_get (update_metadata torn_id (set_status Active (metadata torn_message)) torn_disk).2
    torn_id = None.
Proof.
  apply (torn_update_loses_message torn_id (set_status Active (metadata torn_message)) torn_message
           [] torn_disk 0 []
           (bits_of (countable.encode
              (set_metadata (set_status Active (metadata torn_message)) torn_message)))).
  - exact torn_disk_get.
  - reflexivity.
  - reflexivity.
  - apply bits_of_length.
Defined.
