(* ===== verification/RelayDelivery.v ===== *)
(** * Delivery of queued messages: [serverwall-relay/src/delivery/], [bounce.rs]

    [MxResolver::resolve] on the answers of the DNS resolver, the bounce
    generator, [deliver_message] with its loops and its error paths, and the scan
    of the queue.  The SMTP conversation itself is in [RelaySender]. *)

From stdpp Require Import sorting.
From S2P Require Import Prelude RustStr Net Fs RelayQueue.
Open Scope Z_scope.

(** ** [mx_resolver.rs] *)

Record MxHost := mkMxHost { hostname : bytes; priority : Z; addresses : list IpAddr }.

(** The answers of the [hickory_resolver] lookups. *)
Class Dns := {
  mx_lookup : bytes -> result (list (Z * bytes)) bytes;
  lookup_ip : bytes -> result (list IpAddr) bytes;
}.

(** [sort_by_key], a stable sort, by insertion. *)
Fixpoint insert_by_prio (h : Z * bytes) (l : list (Z * bytes)) : list (Z * bytes) :=
  match l with
  | [] => [h]
  | x :: l => if h.1 <=? x.1 then h :: x :: l else x :: insert_by_prio h l
  end.
Fixpoint sort_by_prio (l : list (Z * bytes)) : list (Z * bytes) :=
  match l with [] => [] | h :: l => insert_by_prio h (sort_by_prio l) end.

Section Resolver.
Context `{Dns}.

Definition resolve_host (host : bytes) : result (list IpAddr) bytes :=
  match lookup_ip host with
  | Ok l => Ok l
  | Err _ => Err (bs "failed to resolve " ++ host)
  end.

Definition fallback_a_record (domain : bytes) : result (list MxHost) bytes :=
  let? addrs := resolve_host domain in
  if is_nil addrs then Err (bs "no MX or A/AAAA records found for " ++ domain)
  else Ok [mkMxHost domain 0 addrs].

Definition resolve (domain : bytes) : result (list MxHost) bytes :=
  match mx_lookup domain with
  | Ok mx =>
      let hosts := sort_by_prio
        ((fun h => (h.1, trim_end_matches (fun c => c =? DOT) h.2)) <$> mx) in
      let result := filter_map (fun h =>
        let addrs := match resolve_host h.2 with Ok l => l | Err _ => [] end in
        if is_nil addrs then None else Some (mkMxHost h.2 h.1 addrs)) hosts in
      if is_nil result then fallback_a_record domain else Ok result
  | Err _ => fallback_a_record domain
  end.
End Resolver.

(** ** [bounce.rs] *)

Record BounceGenerator := mkBounce {
  bounce_sender : bytes;
  include_original_headers : bool;
}.

Definition BounceGenerator_new (sender : option bytes) (inc : bool) : BounceGenerator :=
  mkBounce (unwrap_or [] sender) inc.

(** The clock reading, its RFC 2822 rendering and the random identifier that one
    [generate] draws. *)
Record BounceTick := mkBounceTick { b_now : Z; b_date : bytes; b_uuid : bytes }.

Definition extract_headers (message : bytes) : bytes :=
  let msg := from_utf8_lossy message in
  match find msg (CRLF ++ CRLF) with
  | Some pos => take pos msg
  | None => match find msg [LF; LF] with
            | Some pos => take pos msg
            | None => msg
            end
  end.

(** The senders a bounce is never generated for. *)
Definition null_sender (from : bytes) : bool :=
  is_nil from || eq_ignore_ascii_case from (bs "MAILER-DAEMON") || bool_decide (from = bs "<>").

Definition bounce_body (bg : BounceGenerator) (t : BounceTick) (env : Envelope)
    (error original_headers : bytes) : bytes :=
  let message_id := bs "<bounce-" ++ show (b_now t / 1000000000) ++ bs "-" ++ b_uuid t
                    ++ bs "@localhost>" in
  let recipients_report := join CRLF ((fun rcpt =>
    bs "Final-Recipient: rfc822;" ++ rcpt ++ CRLF ++
    bs "Action: failed" ++ CRLF ++
    bs "Status: 5.0.0" ++ CRLF ++
    bs "Diagnostic-Code: smtp; " ++ error ++ CRLF) <$> rcpt_to env) in
  let boundary := bs "=_bounce_" ++ show (b_now t / 1000000) in
  bs "From: MAILER-DAEMON <" ++ bounce_sender bg ++ bs ">" ++ CRLF ++
  bs "To: <" ++ mail_from env ++ bs ">" ++ CRLF ++
  bs "Date: " ++ b_date t ++ CRLF ++
  bs "Message-ID: " ++ message_id ++ CRLF ++
  bs "Subject: Delivery Status Notification (Failure)" ++ CRLF ++
  bs "MIME-Version: 1.0" ++ CRLF ++
  bs "Content-Type: multipart/report; report-type=delivery-status;" ++ CRLF ++
  bs "    boundary=" ++ [34] ++ boundary ++ [34] ++ CRLF ++
  CRLF ++
  bs "--" ++ boundary ++ CRLF ++
  bs "Content-Type: text/plain; charset=utf-8" ++ CRLF ++
  CRLF ++
  bs "This is an automatically generated Delivery Status Notification." ++ CRLF ++
  CRLF ++
  bs "Delivery to the following recipients failed:" ++ CRLF ++
  CRLF ++
  join (bs ", ") (rcpt_to env) ++ CRLF ++
  CRLF ++
  bs "Error: " ++ error ++ CRLF ++
  CRLF ++
  bs "--" ++ boundary ++ CRLF ++
  bs "Content-Type: message/delivery-status" ++ CRLF ++
  CRLF ++
  bs "Reporting-MTA: dns; localhost" ++ CRLF ++
  bs "Arrival-Date: " ++ b_date t ++ CRLF ++
  CRLF ++
  recipients_report ++ CRLF ++
  bs "--" ++ boundary ++ CRLF ++
  bs "Content-Type: text/rfc822-headers" ++ CRLF ++
  CRLF ++
  original_headers ++ CRLF ++
  bs "--" ++ boundary ++ bs "--" ++ CRLF.

Definition generate (bg : BounceGenerator) (t : BounceTick) (env : Envelope)
    (error msg : bytes) : option (Envelope * bytes) :=
  if null_sender (mail_from env) then None
  else
    let original_headers := if include_original_headers bg then extract_headers msg else [] in
    Some (mkEnvelope (bounce_sender bg) [mail_from env],
          bounce_body bg t env error original_headers).

(** ** [delivery/mod.rs] *)

Inductive DeliveryResult :=
| Success (response : bytes)
| TempFail (error : bytes)
| PermFail (error : bytes).

(** What one delivery attempt meets outside the spool: the resolver, the answer
    of the [n]-th [SmtpSender::send] of the attempt, the clock, the identifiers
    drawn for a bounce. *)
Record Attempt := mkAttempt {
  at_dns : Dns;
  at_send : nat -> SocketAddr -> bytes -> bytes -> list bytes -> bytes -> DeliveryResult;
  at_now : Z;
  at_bounce : BounceTick;
  at_tick : Tick;
}.

Section Deliver.
Context `{Serde} (sch : RetryScheduler) (bg : BounceGenerator).

(** [if let Some(..) = bounce_gen.generate(..) { let _ = spool.enqueue(..) }]. *)
Definition bounce (a : Attempt) (env : Envelope) (error msg : bytes) : io unit := fun d =>
  match generate bg (at_bounce a) env error msg with
  | Some (benv, bmsg) => (Ok tt, (enqueue (at_tick a) benv bmsg d).2)
  | None => (Ok tt, d)
  end.

Definition handle_temp_fail (a : Attempt) (queue_id error : bytes) (queued : QueuedMessage)
  : io unit :=
  if is_expired sch (at_now a) (created (metadata queued)) then
    let! _ := bounce a (envelope queued) error [] in
    remove queue_id
  else
    match next_retry_time sch (at_now a) (attempts (metadata queued)) with
    | Some next =>
        update_metadata queue_id
          (set_last_error (Some error)
            (set_status Deferred (set_next_retry next (metadata queued))))
    | None =>
        let! _ := bounce a (envelope queued) error [] in
        remove queue_id
    end.

(** The loops over the hosts and the addresses of each, flattened. *)
Fixpoint try_hosts (a : Attempt) (queue_id msg : bytes) (k : nat)
    (targets : list (bytes * IpAddr)) (queued : QueuedMessage) : io unit :=
  match targets with
  | [] =>
      handle_temp_fail a queue_id (unwrap_or [] (last_error (metadata queued))) queued
  | (host, addr) :: rest =>
      match at_send a k (mkSocketAddr addr 25) host (mail_from (envelope queued))
              (rcpt_to (envelope queued)) msg with
      | Success _ => remove queue_id
      | PermFail err =>
          let! _ := bounce a (envelope queued) err msg in
          remove queue_id
      | TempFail err =>
          try_hosts a queue_id msg (S k) rest
            (set_metadata (set_last_error (Some err) (metadata queued)) queued)
      end
  end.

Definition recipient_domain (env : Envelope) : bytes :=
  match rcpt_to env with
  | r :: _ => rsplit_next r 64
  | [] => bs "localhost"
  end.

(** [queued] once marked active; [attempts] is a [u32]. *)
Definition mark_active (queued : QueuedMessage) : QueuedMessage :=
  set_metadata
    (set_attempts (wrapping_add 32 (attempts (metadata queued)) 1)
      (set_status Active (metadata queued))) queued.

Definition mx_targets (hosts : list MxHost) : list (bytes * IpAddr) :=
  flat_map (fun h => pair (hostname h) <$> addresses h) hosts.

Definition deliver_message (a : Attempt) (queue_id : bytes) : io unit :=
  let! (queued0, msg) := dequeue queue_id in
  let queued := mark_active queued0 in
  let! _ := update_metadata queue_id (metadata queued) in
  match @resolve (at_dns a) (recipient_domain (envelope queued)) with
  | Err e => handle_temp_fail a queue_id e queued
  | Ok hosts => try_hosts a queue_id msg 0 (mx_targets hosts) queued
  end.

(** The messages one scan of the queue hands to [deliver_message]. *)
Definition is_due (now : Z) (q : QueuedMessage) : bool :=
  match status (metadata q) with
  | Pending | Deferred => negb (now <? next_retry (metadata q))
  | Active | Held => false
  end.

(** [process_queue]: the tasks it spawns, run one after the other (their interleaving
    is in [RelayTasks]); a task's error is logged and the scan goes on. *)
Fixpoint deliver_all (a : bytes -> Attempt) (ids : list bytes) : io unit :=
  match ids with
  | [] => io_ret tt
  | id :: ids => fun d => deliver_all a ids (deliver_message (a id) id d).2
  end.

Definition process_queue (a : bytes -> Attempt) (now : Z) : io unit :=
  let! messages := spool_list in
  deliver_all a (qid <$> base.filter (fun q => is_due now q = true) messages).
End Deliver.

(** ** What one attempt does to the message, as a specification

    The answers of the targets are looked at as a list: the first one that is not
    a temporary failure decides, and without one the message is rescheduled, or
    given up once it is too old or out of attempts. *)

Inductive Outcome :=
| Delivered
| Bounced (error original : bytes)
| Rescheduled (md : MessageMetadata).

Definition answers (a : Attempt) (env : Envelope) (msg : bytes) (k : nat)
    (targets : list (bytes * IpAddr)) : list DeliveryResult :=
  imap (fun i t => at_send a (k + i) (mkSocketAddr t.2 25) t.1 (mail_from env) (rcpt_to env) msg)
    targets.

Definition decisive (r : DeliveryResult) : bool :=
  match r with TempFail _ => false | _ => true end.

Definition error_of (r : DeliveryResult) : option bytes :=
  match r with TempFail e | PermFail e => Some e | Success _ => None end.

Definition abandoned (sch : RetryScheduler) (now : Z) (md : MessageMetadata) : bool :=
  is_expired sch now (created md) || (max_attempts sch <=? attempts md).

Definition temp_outcome (sch : RetryScheduler) (now : Z) (error : bytes)
    (md : MessageMetadata) : Outcome :=
  if abandoned sch now md then Bounced error []
  else Rescheduled (mkMetadata (created md) (now + retry_delay sch (attempts md))
                      (attempts md) (Some error) Deferred (size md)).

Definition targets_outcome (sch : RetryScheduler) (now : Z) (msg : bytes)
    (l : list DeliveryResult) (md : MessageMetadata) : Outcome :=
  match base.filter (fun r => decisive r = true) l with
  | Success _ :: _ => Delivered
  | PermFail e :: _ => Bounced e msg
  | _ => temp_outcome sch now
           (match last l with
            | Some r => unwrap_or [] (error_of r)
            | None => unwrap_or [] (last_error md)
            end) md
  end.

Definition attempt_outcome (sch : RetryScheduler) (a : Attempt) (q : QueuedMessage)
    (msg : bytes) : Outcome :=
  let md := metadata (mark_active q) in
  match @resolve (at_dns a) (recipient_domain (envelope q)) with
  | Err e => temp_outcome sch (at_now a) e md
  | Ok hosts =>
      targets_outcome sch (at_now a) msg (answers a (envelope q) msg 0 (mx_targets hosts)) md
  end.

(** The queue id a bounce of this attempt is given. *)
Definition bounce_id (a : Attempt) : bytes :=
  generate_queue_id (t_millis (at_tick a)) (t_rand (at_tick a)).

Definition bounce_store (bg : BounceGenerator) (a : Attempt) (env : Envelope)
    (error original : bytes) (s : store) : store :=
  match generate bg (at_bounce a) env error original with
  | Some (benv, bmsg) =>
      upd (bounce_id a)
        (Some (new_message (bounce_id a) (t_now (at_tick a)) benv bmsg, bmsg)) s
  | None => s
  end.

Definition apply_outcome (bg : BounceGenerator) (a : Attempt) (id : bytes)
    (q : QueuedMessage) (msg : bytes) (o : Outcome) (s : store) : store :=
  match o with
  | Delivered => upd id None s
  | Bounced error original => upd id None (bounce_store bg a (envelope q) error original s)
  | Rescheduled md => upd id (Some (set_metadata md q, msg)) s
  end.

Section DeliverSpec.
Context `{SerdeSpec} (sch : RetryScheduler) (bg : BounceGenerator).

Lemma bounce_refines a env error original d s :
  represents d s ->
  exists d', bounce bg a env error original d = (Ok tt, d') /\
    represents d' (bounce_store bg a env error original s).
Proof.
  intros Hr. unfold bounce, bounce_store.
  destruct (generate _ _ _ _ _) as [[benv bmsg]|]; [|eauto].
  destruct (enqueue_refines (at_tick a) benv bmsg d s Hr) as (d' & -> & ?). eauto.
Qed.

Lemma bounce_store_other a env error original s id :
  bounce_id a <> id -> bounce_store bg a env error original s id = s id.
Proof.
  intros Hne. unfold bounce_store. destruct (generate _ _ _ _ _) as [[??]|]; [|done].
  by apply upd_other.
Qed.

(** A bounce, then the removal of the message. *)
Lemma bounce_remove_refines a id env error original d s q m :
  represents d s -> s id = Some (q, m) -> bounce_id a <> id ->
  exists d', (let! _ := bounce bg a env error original in remove id) d = (Ok tt, d') /\
    represents d' (upd id None (bounce_store bg a env error original s)).
Proof.
  intros Hr Hq Hne.
  destruct (bounce_refines a env error original d s Hr) as (d1 & Hb & Hr1).
  unfold io_bind. rewrite Hb. eapply remove_refines; [done|].
  by rewrite bounce_store_other.
Qed.

Lemma handle_temp_fail_refines a id error q q0 m d s :
  represents d s -> s id = Some (q0, m) -> bounce_id a <> id ->
  qid q0 = qid q -> envelope q0 = envelope q ->
  exists d', handle_temp_fail sch bg a id error q d = (Ok tt, d') /\
    represents d' (apply_outcome bg a id q m
                     (temp_outcome sch (at_now a) error (metadata q)) s).
Proof.
  intros Hr Hq Hne Hid Henv. unfold handle_temp_fail, temp_outcome, abandoned, next_retry_time.
  destruct (is_expired _ _ _); simpl; [by eapply bounce_remove_refines|].
  destruct (_ <=? _) eqn:E; simpl; [by eapply bounce_remove_refines|].
  unfold set_metadata at 1. rewrite <- Hid, <- Henv.
  by eapply update_metadata_refines.
Qed.

Lemma answers_cons a env msg k host addr rest :
  answers a env msg k ((host, addr) :: rest) =
  at_send a k (mkSocketAddr addr 25) host (mail_from env) (rcpt_to env) msg
    :: answers a env msg (S k) rest.
Proof.
  unfold answers. simpl. rewrite Nat.add_0_r. f_equal.
  apply imap_ext. intros i x _. simpl. by rewrite Nat.add_succ_r.
Qed.

(** A temporary failure only leaves its error behind. *)
Lemma targets_outcome_temp now msg e l md :
  targets_outcome sch now msg (TempFail e :: l) md =
  targets_outcome sch now msg l (set_last_error (Some e) md).
Proof.
  unfold targets_outcome. rewrite filter_cons_False by done.
  rewrite last_cons. by destruct (base.filter _ l) as [|[]], (last l).
Qed.

Lemma apply_outcome_ext a id q q' m o s :
  qid q = qid q' -> envelope q = envelope q' ->
  apply_outcome bg a id q m o s = apply_outcome bg a id q' m o s.
Proof. destruct q, q'; simpl. by intros -> ->. Qed.

Lemma try_hosts_refines a id m targets : forall k q q0 d s,
  represents d s -> s id = Some (q0, m) -> bounce_id a <> id ->
  qid q0 = qid q -> envelope q0 = envelope q ->
  exists d', try_hosts sch bg a id m k targets q d = (Ok tt, d') /\
    represents d' (apply_outcome bg a id q m
      (targets_outcome sch (at_now a) m (answers a (envelope q) m k targets) (metadata q)) s).
Proof.
  induction targets as [|[host addr] rest IH]; intros k q q0 d s Hr Hq Hne Hid Henv;
    [by eapply handle_temp_fail_refines|].
  rewrite answers_cons. simpl try_hosts.
  destruct (at_send _ _ _ _ _ _ _) as [resp|err|err].
  - by eapply remove_refines.
  - rewrite targets_outcome_temp.
    rewrite (apply_outcome_ext _ _ q (set_metadata (set_last_error (Some err) (metadata q)) q))
      by done.
    by eapply (IH (S k) (set_metadata (set_last_error (Some err) (metadata q)) q)).
  - by eapply bounce_remove_refines.
Qed.

(** Two updates of one id are the second. *)
Lemma upd_shadow id v w s id' : upd id w (upd id v s) id' = upd id w s id'.
Proof. unfold upd. by case_bool_decide. Qed.

Lemma apply_outcome_shadow a id q m o v s id' :
  bounce_id a <> id ->
  apply_outcome bg a id q m o (upd id v s) id' = apply_outcome bg a id q m o s id'.
Proof.
  intros Hne. destruct o as [|err orig|md]; simpl; [apply upd_shadow| |apply upd_shadow].
  unfold bounce_store. destruct (generate _ _ _ _ _) as [[benv bmsg]|]; [|apply upd_shadow].
  unfold upd. repeat case_bool_decide; congruence.
Qed.

Lemma represents_marked a id q m o v d s :
  bounce_id a <> id ->
  represents d (apply_outcome bg a id (mark_active q) m o (upd id v s)) ->
  represents d (apply_outcome bg a id q m o s).
Proof.
  intros Hne. rewrite (apply_outcome_ext a id (mark_active q) q) by done.
  apply represents_ext. intros id'. by apply apply_outcome_shadow.
Qed.

Lemma deliver_message_outcome a id q m d s :
  represents d s -> s id = Some (q, m) -> bounce_id a <> id ->
  exists d', deliver_message sch bg a id d = (Ok tt, d') /\
    represents d' (apply_outcome bg a id q m (attempt_outcome sch a q m) s).
Proof.
  intros Hr Hq Hne. unfold deliver_message, attempt_outcome, io_bind.
  rewrite (dequeue_refines d s id q m) by done.
  destruct (update_metadata_refines d s id q m (metadata (mark_active q)) Hr Hq)
    as (d1 & -> & Hr1).
  change (envelope (mark_active q)) with (envelope q).
  pose proof (upd_same id (Some (set_metadata (metadata (mark_active q)) q, m)) s) as Hq1.
  destruct (resolve _) as [hosts|e].
  - destruct (try_hosts_refines a id m (mx_targets hosts) 0 (mark_active q) _ _ _ Hr1 Hq1)
      as (d2 & -> & ?); try done. eauto using represents_marked.
  - destruct (handle_temp_fail_refines a id e (mark_active q) _ _ _ _ Hr1 Hq1)
      as (d2 & -> & ?); try done. eauto using represents_marked.
Qed.
End DeliverSpec.

(** ** Retries end *)

(** Successive attempts at one message; an error ends the task, not the loop. *)
Fixpoint deliver_rounds `{Serde} (sch : RetryScheduler) (bg : BounceGenerator) (id : bytes)
    (rounds : list Attempt) (d : disk) : disk :=
  match rounds with
  | [] => d
  | a :: rounds => deliver_rounds sch bg id rounds (deliver_message sch bg a id d).2
  end.

Section Retries.
Context `{SerdeSpec} (sch : RetryScheduler) (bg : BounceGenerator).
Context (Hmax : in_u 32 (max_attempts sch)).

(** An attempt either settles the message or is counted. *)
Lemma attempt_outcome_cases a q m :
  in_u 32 (attempts (metadata q) + 1) ->
  match attempt_outcome sch a q m with
  | Rescheduled md =>
      attempts md = attempts (metadata q) + 1 /\ attempts md < max_attempts sch /\
      status md = Deferred /\ created md = created (metadata q) /\ size md = size (metadata q)
  | _ => True
  end.
Proof.
  intros Hin. assert (Ha : attempts (metadata (mark_active q)) = attempts (metadata q) + 1).
  { simpl. unfold wrapping_add. apply Z.mod_small. unfold in_u, umax in *. lia. }
  assert (Ht : forall e, match temp_outcome sch (at_now a) e (metadata (mark_active q)) with
    | Rescheduled md => attempts md = attempts (metadata q) + 1 /\ attempts md < max_attempts sch
       /\ status md = Deferred /\ created md = created (metadata q) /\ size md = size (metadata q)
    | _ => True end).
  { intros e. unfold temp_outcome, abandoned.
    destruct (is_expired _ _ _); [done|]. cbn [orb].
    destruct (_ <=? _) eqn:E; [done|]. cbn [attempts created status size].
    rewrite Ha in *. apply Z.leb_gt in E. done. }
  unfold attempt_outcome, targets_outcome.
  destruct (resolve _) as [hosts|e]; [|apply Ht].
  destruct (base.filter _ _) as [|[] ?]; try done; apply Ht.
Qed.

Lemma deliver_rounds_end id m : forall rounds q d s,
  represents d s -> s id = Some (q, m) ->
  Forall (fun a => bounce_id a <> id) rounds ->
  0 <= attempts (metadata q) ->
  rounds <> [] -> max_attempts sch <= attempts (metadata q) + Z.of_nat (length rounds) ->
  attempts (metadata q) < 2 ^ 32 - 1 ->
  exists n d' s', (1 <= n <= length rounds)%nat /\
    d' = deliver_rounds sch bg id (take n rounds) d /\ represents d' s' /\ s' id = None.
Proof.
  induction rounds as [|a rounds IH]; intros q d s Hr Hq Hb Ha Hne Hlen Hlt; [done|].
  apply Forall_cons in Hb as [Hba Hb].
  destruct (deliver_message_outcome sch bg a id q m d s Hr Hq Hba) as (d1 & Hd & Hr1).
  pose proof (attempt_outcome_cases a q m) as Hc. unfold in_u, umax in Hc, Hmax.
  specialize (Hc ltac:(lia)).
  destruct (attempt_outcome sch a q m) as [|e o|md].
  1, 2: exists 1%nat; eexists _, _; split; [simpl; lia|]; split; [done|];
    simpl; rewrite Hd; split; [done|apply upd_same].
  destruct Hc as (Hmd & Hmd2 & _). simpl in Hlen.
  destruct (decide (rounds = [])) as [->|Hne2]; [simpl in Hlen; lia|].
  destruct (IH (set_metadata md q) d1 _ Hr1 (upd_same _ _ _)) as (n & d' & s' & ? & ? & ? & ?);
    simpl; try done; try lia.
  exists (S n), d', s'. simpl. rewrite Hd. split; [lia|done].
Qed.
End Retries.

(** ** Delivery under failing system calls *)

Section Faults.
Context `{SerdeSpec} (sch : RetryScheduler) (bg : BounceGenerator).

(** [update_metadata] changes nothing but the metadata file. *)
Lemma update_metadata_frame id md d p :
  p <> meta_path id -> files (update_metadata id md d).2 !! p = files d !! p.
Proof.
  intros Hp. unfold update_metadata, io_bind.
  pose proof (fs_read_files (meta_path id) d) as Hf.
  destruct (fs_read (meta_path id) d) as [[j|e] d1]; simpl in *; [|by rewrite Hf].
  destruct (of_json j) as [q|]; [|simpl; by rewrite Hf].
  destruct (to_json _) as [j'|]; [|simpl; by rewrite Hf].
  rewrite <- Hf.
  destruct (fs_write_cases (meta_path id) j' d1) as [[_ ->]|(e & _ & [->|[n ->]])];
    by rewrite ?lookup_insert_ne by done.
Qed.

(** When it succeeds, the file holds the new metadata. *)
Lemma update_metadata_Ok id md d d' :
  update_metadata id md d = (Ok tt, d') ->
  exists j q j', files d !! meta_path id = Some j /\ of_json j = Some q /\
    files d' !! meta_path id = Some j' /\ of_json j' = Some (set_metadata md q).
Proof.
  unfold update_metadata, io_bind. pose proof (fs_read_Ok (meta_path id) d) as Hr.
  destruct (fs_read (meta_path id) d) as [[j|e] d1]; [|done].
  destruct (of_json j) as [q|] eqn:Ej; [|done].
  destruct (to_json _) as [j'|] eqn:Ej'; [|done]. intros Hw.
  destruct (fs_write_cases (meta_path id) j' d1) as [[_ Hf]|(e & He & _)];
    rewrite Hw in *; [|done].
  exists j, q, j'. split_and!; [by apply Hr|done| |by apply of_to_json].
  simpl in Hf. rewrite Hf. apply lookup_insert_eq.
Qed.

Definition fresh (d : disk) (id : bytes) : Prop := files d !! meta_path id = None.

(** The stored size of [id], when there is one, is [n]. *)
Definition sized (d : disk) (id : bytes) (n : Z) : Prop :=
  forall q j, files d !! meta_path id = Some j -> of_json j = Some q -> n = size (metadata q).

Lemma bounce_inv a env error original d :
  spool_inv d -> fresh d (bounce_id a) -> spool_inv (bounce bg a env error original d).2.
Proof.
  intros. unfold bounce. destruct (generate _ _ _ _ _) as [[??]|]; [|done].
  by apply enqueue_inv.
Qed.

Lemma bounce_remove_inv a id env error original d :
  spool_inv d -> fresh d (bounce_id a) ->
  spool_inv ((let! _ := bounce bg a env error original in remove id) d).2.
Proof.
  intros Hi Hf. pose proof (bounce_inv a env error original d Hi Hf) as Hb.
  io_step x Hx; [by apply remove_inv|done].
Qed.

Lemma handle_temp_fail_inv a id error q d :
  spool_inv d -> fresh d (bounce_id a) -> sized d id (size (metadata q)) ->
  spool_inv (handle_temp_fail sch bg a id error q d).2.
Proof.
  intros. unfold handle_temp_fail.
  destruct (is_expired _ _ _); [by apply bounce_remove_inv|].
  destruct (next_retry_time _ _ _); [|by apply bounce_remove_inv].
  by apply update_metadata_inv.
Qed.

Lemma try_hosts_inv a id m targets : forall k q d,
  spool_inv d -> fresh d (bounce_id a) -> sized d id (size (metadata q)) ->
  spool_inv (try_hosts sch bg a id m k targets q d).2.
Proof.
  induction targets as [|[host addr] rest IH]; intros k q d Hi Hf Hs; simpl;
    [by apply handle_temp_fail_inv|].
  destruct (at_send _ _ _ _ _ _ _);
    [by apply remove_inv|by apply IH|by apply bounce_remove_inv].
Qed.

Lemma deliver_message_inv a id d :
  spool_inv d -> fresh d (bounce_id a) -> spool_inv (deliver_message sch bg a id d).2.
Proof.
  intros Hi Hf. unfold deliver_message.
  io_step r Hd; [|eapply spool_inv_files; [apply dequeue_files|done]].
  destruct r as [q m].
  destruct (dequeue id d) as [r d1] eqn:E. simpl in Hd |- *. subst r.
  apply dequeue_Ok in E as (Hf1 & (j & Hj & Hq) & Hm).
  assert (Hs1 : sized d1 id (size (metadata (mark_active q)))).
  { intros q' j'. rewrite Hf1. simpl. congruence. }
  assert (Hi1 : spool_inv d1) by by eapply spool_inv_files.
  pose proof (update_metadata_inv id (metadata (mark_active q)) d1 Hs1 Hi1) as Hi2.
  pose proof (update_metadata_frame id (metadata (mark_active q)) d1
    (meta_path (bounce_id a))) as Hfr.
  io_step u Hu; [|done]. destruct u.
  destruct (update_metadata id _ d1) as [r d2] eqn:E2. simpl in *. subst r.
  assert (Hf2 : fresh d2 (bounce_id a)).
  { unfold fresh in *. rewrite Hfr, Hf1; [done|]. intros Heq. rewrite Heq in Hf. congruence. }
  apply update_metadata_Ok in E2 as (j1 & q1 & j2 & _ & _ & Hj2 & Hq2).
  assert (Hs2 : sized d2 id (size (metadata (mark_active q)))).
  { intros q' j' Hj' Hq'. rewrite Hj2 in Hj'. injection Hj' as <-.
    rewrite Hq2 in Hq'. by injection Hq' as <-. }
  destruct (resolve _); [by apply try_hosts_inv|by apply handle_temp_fail_inv].
Qed.

(** *** Calls that fail without effect lose no message *)

Definition no_partial (d : disk) : Prop :=
  Forall (fun f => forall n, f <> FPartial n) (script d).

(** [id] still has its envelope and its bytes. *)
Definition keeps (id : bytes) (env : Envelope) (m : bytes) (d : disk) : Prop :=
  exists q, spool_get d id = Some (q, m) /\ qid q = id /\ envelope q = env.

Lemma keeps_files id env m d d' : files d' = files d -> keeps id env m d -> keeps id env m d'.
Proof. unfold keeps, spool_get. by intros ->. Qed.

Lemma no_partial_next d :
  no_partial d -> (forall n, (next_fault d).1 <> FPartial n) /\
    Forall (fun f => forall n, f <> FPartial n) (next_fault d).2.
Proof.
  unfold no_partial, next_fault. destruct (script d) as [|f l]; simpl; [done|].
  by intros [? ?]%Forall_cons.
Qed.

Lemma no_partial_read path d : no_partial d -> no_partial (fs_read path d).2.
Proof.
  intros [_ Hn]%no_partial_next. unfold fs_read. destruct (next_fault d) as [[] l]; try done.
  by case_match.
Qed.

Lemma no_partial_write path data d :
  no_partial d -> no_partial (fs_write path data d).2 /\
    (files (fs_write path data d).2 = files d \/
     files (fs_write path data d).2 = <[path := data]> (files d)).
Proof.
  intros [Hp Hn]%no_partial_next. unfold fs_write.
  destruct (next_fault d) as [[| |n] l]; simpl in *; eauto. by destruct (Hp n).
Qed.

Lemma update_metadata_keeps id md env m d :
  no_partial d -> keeps id env m d ->
  no_partial (update_metadata id md d).2 /\ keeps id env m (update_metadata id md d).2.
Proof.
  intros Hn Hk. pose proof Hk as (q & Hg & Hid & Henv).
  apply spool_get_Some in Hg as [(j & Hj & Hq) Hm].
  unfold update_metadata. pose proof (no_partial_read (meta_path id) d Hn) as Hn1.
  pose proof (fs_read_files (meta_path id) d) as Hf.
  io_step r Hr.
  2: { split; [done|]. by eapply keeps_files. }
  pose proof (fs_read_Ok _ _ _ Hr) as Hr'. assert (r = j) as -> by congruence. rewrite Hq.
  destruct (to_json_total (set_metadata md q)) as [j' Hj']. rewrite Hj'.
  destruct (no_partial_write (meta_path id) j' _ Hn1) as [Hn2 [Hf2|Hf2]]; (split; [done|]).
  - eapply keeps_files; [|done]. congruence.
  - exists (set_metadata md q). rewrite spool_get_Some, Hf2, Hf.
    rewrite (lookup_insert_ne _ _ (msg_path id)) by apply meta_ne_msg.
    split; [|done]. split; [|done]. exists j'. rewrite lookup_insert_eq.
    split; [done|by apply of_to_json].
Qed.

Lemma handle_temp_fail_keeps a id error env m q d :
  no_partial d -> keeps id env m d -> abandoned sch (at_now a) (metadata q) = false ->
  keeps id env m (handle_temp_fail sch bg a id error q d).2.
Proof.
  intros Hn Hk. unfold abandoned, handle_temp_fail, next_retry_time.
  intros [-> ->]%orb_false_iff. by apply update_metadata_keeps.
Qed.

Lemma temp_outcome_rescheduled now e md md' :
  temp_outcome sch now e md = Rescheduled md' -> abandoned sch now md = false.
Proof. unfold temp_outcome. by destruct (abandoned _ _ _). Qed.

Lemma try_hosts_keeps a id env m targets md' : forall k q d,
  no_partial d -> keeps id env m d ->
  targets_outcome sch (at_now a) m (answers a (envelope q) m k targets) (metadata q)
    = Rescheduled md' ->
  keeps id env m (try_hosts sch bg a id m k targets q d).2.
Proof.
  induction targets as [|[host addr] rest IH]; intros k q d Hn Hk.
  - intros Ho%temp_outcome_rescheduled. by apply handle_temp_fail_keeps.
  - rewrite answers_cons. simpl try_hosts.
    destruct (at_send _ _ _ _ _ _ _) as [r|e|e]; [done| |done].
    rewrite targets_outcome_temp.
    by apply (IH (S k) (set_metadata (set_last_error (Some e) (metadata q)) q)).
Qed.

Lemma deliver_message_keeps a id q m md' d :
  no_partial d -> spool_get d id = Some (q, m) -> qid q = id ->
  attempt_outcome sch a q m = Rescheduled md' ->
  keeps id (envelope q) m (deliver_message sch bg a id d).2.
Proof.
  intros Hn Hg Hid Ho. assert (Hk : keeps id (envelope q) m d) by by exists q.
  assert (Hkd : keeps id (envelope q) m (dequeue id d).2)
    by (eapply keeps_files; [apply dequeue_files|done]).
  assert (Hnd : no_partial (dequeue id d).2).
  { unfold dequeue. pose proof (no_partial_read (meta_path id) d Hn) as Hn1.
    io_step j Hj; [|done]. destruct (of_json j); [|done].
    pose proof (no_partial_read (msg_path id) _ Hn1). by io_step x Hx. }
  unfold deliver_message. io_step r Hr; [|done]. destruct r as [q1 m1].
  destruct (dequeue id d) as [? d1] eqn:E. simpl in *. subst.
  apply dequeue_Ok in E as (_ & Hq1 & Hm1).
  assert (Some (q1, m1) = Some (q, m)) as [= -> ->]
    by (rewrite <- Hg; symmetry; by apply spool_get_Some).
  destruct (update_metadata_keeps (qid q) (metadata (mark_active q)) _ _ _ Hnd Hkd).
  io_step u Hu; [|done].
  change (envelope (mark_active q)) with (envelope q).
  unfold attempt_outcome in Ho. destruct (resolve _) as [hosts|e].
  - by eapply try_hosts_keeps.
  - apply handle_temp_fail_keeps; [done..|by eapply temp_outcome_rescheduled].
Qed.
End Faults.

(** ** MX order *)

Lemma insert_by_prio_perm h l : insert_by_prio h l ≡ₚ h :: l.
Proof.
  induction l as [|x l IH]; simpl; [done|]. destruct (_ <=? _); [done|].
  rewrite IH. constructor.
Qed.

Lemma sort_by_prio_perm l : sort_by_prio l ≡ₚ l.
Proof. induction l as [|h l IH]; simpl; [done|]. by rewrite insert_by_prio_perm, IH. Qed.

Definition prio_le (h1 h2 : Z * bytes) : Prop := h1.1 <= h2.1.

Lemma insert_by_prio_sorted h l :
  StronglySorted prio_le l -> StronglySorted prio_le (insert_by_prio h l).
Proof.
  induction l as [|x l IH]; simpl; intros Hs; [repeat constructor|].
  apply StronglySorted_inv in Hs as [Hs Hx].
  destruct (h.1 <=? x.1) eqn:E.
  - apply Z.leb_le in E. constructor; [by constructor|]. constructor; [done|].
    eapply Forall_impl; [done|]. unfold prio_le. intros y Hy. simpl in *. lia.
  - apply Z.leb_gt in E. constructor; [by apply IH|].
    rewrite insert_by_prio_perm. constructor; [unfold prio_le; lia|done].
Qed.

Lemma sort_by_prio_sorted l : StronglySorted prio_le (sort_by_prio l).
Proof. induction l as [|h l IH]; simpl; [constructor|]. by apply insert_by_prio_sorted. Qed.

Definition by_priority (h1 h2 : MxHost) : Prop := priority h1 <= priority h2.

Lemma filter_map_sorted (f : Z * bytes -> option MxHost) l :
  (forall h x, f h = Some x -> priority x = h.1) ->
  StronglySorted prio_le l -> StronglySorted by_priority (filter_map f l).
Proof.
  intros Hf. induction 1 as [|h l Hs IH Hh]; simpl; [constructor|].
  destruct (f h) as [x|] eqn:E; [|done]. constructor; [done|].
  apply Forall_forall. intros y (h' & Hin & Hy)%elem_of_filter_map.
  rewrite Forall_forall in Hh. specialize (Hh _ Hin).
  unfold by_priority. rewrite (Hf _ _ E), (Hf _ _ Hy). done.
Qed.

Lemma fallback_hosts `{Dns} domain hosts :
  fallback_a_record domain = Ok hosts ->
  hosts <> [] /\ StronglySorted by_priority hosts /\ Forall (fun h => addresses h <> []) hosts.
Proof.
  unfold fallback_a_record. destruct (resolve_host domain) as [ips|e]; simpl; [|done].
  destruct (is_nil ips) eqn:E; [done|]. apply is_nil_false in E. intros [= <-].
  split_and!; [done|repeat constructor|by repeat constructor].
Qed.

Lemma attempt_outcome_next sch a q m md :
  attempt_outcome sch a q m = Rescheduled md ->
  next_retry md = at_now a + retry_delay sch (attempts md).
Proof.
  assert (Ht : forall e md0, temp_outcome sch (at_now a) e md0 = Rescheduled md ->
    next_retry md = at_now a + retry_delay sch (attempts md)).
  { intros e md0. unfold temp_outcome. destruct (abandoned _ _ _); [done|]. by intros [= <-]. }
  unfold attempt_outcome, targets_outcome. destruct (resolve _); [|apply Ht].
  destruct (base.filter _ _) as [|[] ?]; try done; apply Ht.
Qed.

Section Fixture.
(** A one-host world whose server answers every transaction with [r]. *)
Definition fixture_dns : Dns := {|
  mx_lookup d := Ok [(20, bs "mx2.example.org."); (10, bs "mx1.example.org.")];
  lookup_ip h := Ok [ipv4 192 0 2 1];
|}.
Definition fixture_attempt (r : DeliveryResult) : Attempt :=
  mkAttempt fixture_dns (fun _ _ _ _ _ _ => r) 1000 (mkBounceTick 1000 [] [])
    (mkTick 1000 1 1).
Definition fixture_scheduler : RetryScheduler := mkScheduler [5; 10; 20] 100000 2.
Definition fixture_env : Envelope := mkEnvelope (bs "a@b") [bs "c@d"].
Definition fixture_tick : Tick := mkTick 0 0 0.
Definition fixture_id : bytes := generate_queue_id 0 0.
Definition fixture_disk : disk := (enqueue fixture_tick fixture_env (bs "x") (mkDisk ∅ [])).2.
Definition fixture_message : QueuedMessage := new_message fixture_id 0 fixture_env (bs "x").
Definition fixture_store : store :=
  upd fixture_id (Some (fixture_message, bs "x")) (fun _ => None).

Lemma first_message_represents t env msg :
  represents (enqueue t env msg (mkDisk ∅ [])).2
    (let id := generate_queue_id (t_millis t) (t_rand t) in
     upd id (Some (new_message id (t_now t) env msg, msg)) (fun _ => None)).
Proof.
  assert (Hempty : represents (mkDisk ∅ []) (fun _ => None)).
  { split; [done|]. intros id. unfold spool_get. simpl. by rewrite lookup_empty. }
  by destruct (enqueue_refines t env msg _ _ Hempty) as (d' & -> & Hr).
Qed.

Lemma fixture_disk_represents : represents fixture_disk fixture_store.
Proof. apply first_message_represents. Qed.

Lemma fixture_bounce_id r : bounce_id (fixture_attempt r) <> fixture_id.
Proof. vm_compute. discriminate. Qed.

Lemma fixture_disk_get : spool_get fixture_disk fixture_id = Some (fixture_message, bs "x").
Proof. destruct fixture_disk_represents as [_ ->]. apply upd_same. Qed.
End Fixture.

(** ** Properties *)

(** C7: on a spool whose calls succeed, one delivery attempt is exactly the store
    transition [apply_outcome] of the outcome the targets' answers determine: the
    first answer that is not a temporary failure decides (removal, or bounce and
    removal), otherwise the message is rescheduled with one more attempt, or
    bounced once expired or out of attempts; no other message changes. *)
Theorem deliver_message_refines `{SerdeSpec} sch bg a id q m d s :
  represents d s -> s id = Some (q, m) -> bounce_id a <> id ->
  exists d', deliver_message sch bg a id d = (Ok tt, d') /\
    represents d' (apply_outcome bg a id q m (attempt_outcome sch a q m) s).
Proof. apply deliver_message_outcome. Qed.

Lemma deliver_message_refines_witness :
  exists d', deliver_message fixture_scheduler (BounceGenerator_new None true)
               (fixture_attempt (TempFail (bs "4"))) fixture_id fixture_disk = (Ok tt, d') /\
    represents d' (apply_outcome (BounceGenerator_new None true)
      (fixture_attempt (TempFail (bs "4"))) fixture_id fixture_message (bs "x")
      (Rescheduled (mkMetadata 0 1010 1 (Some (bs "4")) Deferred 1)) fixture_store).
Proof.
  apply (deliver_message_refines fixture_scheduler (BounceGenerator_new None true)
           (fixture_attempt (TempFail (bs "4"))) fixture_id fixture_message (bs "x")).
  - exact fixture_disk_represents.
  - apply upd_same.
  - apply fixture_bounce_id.
Defined.



(** C14: no message is lost to failing system calls: as long as failing calls have
    no effect (no torn writes), an attempt whose outcome is to reschedule leaves
    the message in the spool with its envelope and its bytes, whichever of its
    reads and writes fail. *)
Theorem no_message_lost `{SerdeSpec} sch bg a id q m md' d :
  no_partial d -> spool_get d id = Some (q, m) -> qid q = id ->
  attempt_outcome sch a q m = Rescheduled md' ->
  keeps id (envelope q) m (deliver_message sch bg a id d).2.
Proof. apply deliver_message_keeps. Qed.

Lemma no_message_lost_witness :
  keeps fixture_id fixture_env (bs "x")
    (deliver_message fixture_scheduler (BounceGenerator_new None true)
       (fixture_attempt (TempFail (bs "4"))) fixture_id
       (mkDisk (files fixture_disk) [FOk; FOk; FOk; FFail; FFail])).2.
Proof.
  apply (no_message_lost fixture_scheduler (BounceGenerator_new None true)
           (fixture_attempt (TempFail (bs "4"))) fixture_id fixture_message (bs "x")
           (mkMetadata 0 1010 1 (Some (bs "4")) Deferred 1)).
  - unfold no_partial. simpl. repeat (apply Forall_cons; split; [discriminate|]). constructor.
  - exact fixture_disk_get.
  - reflexivity.
  - reflexivity.
Defined.

(** Bounces end: with the default null bounce sender, an attempt at a message
    that is itself a bounce puts no message into the spool, whatever its outcome. *)
Theorem bounce_never_bounces `{SerdeSpec} sch inc a id q m d s env0 error0 msg0 t0 b0 :
  generate (BounceGenerator_new None inc) t0 env0 error0 msg0 = Some (envelope q, b0) ->
  represents d s -> s id = Some (q, m) -> bounce_id a <> id ->
  exists d' s', deliver_message sch (BounceGenerator_new None inc) a id d = (Ok tt, d') /\
    represents d' s' /\ forall id', id' <> id -> s' id' = s id'.
Proof.
  intros Hg Hr Hq Hb.
  destruct (deliver_message_outcome sch (BounceGenerator_new None inc) a id q m d s Hr Hq Hb)
    as (d' & Hd & Hr').
  eexists d', _. split; [done|]. split; [done|]. intros id' Hne.
  assert (Hnull : mail_from (envelope q) = []).
  { unfold generate in Hg. destruct (null_sender _); [done|]. by injection Hg as <- _. }
  destruct (attempt_outcome _ _ _ _) as [|e o|md]; simpl; rewrite upd_other by done; try done.
  unfold bounce_store, generate, null_sender. by rewrite Hnull.
Qed.

Lemma bounce_never_bounces_witness :
  exists d' s', deliver_message fixture_scheduler (BounceGenerator_new None false)
      (fixture_attempt (PermFail (bs "5"))) fixture_id
      (enqueue fixture_tick (mkEnvelope [] [bs "a@b"]) (bs "x") (mkDisk ∅ [])).2 = (Ok tt, d') /\
    represents d' s' /\
    forall id', id' <> fixture_id ->
      s' id' = upd fixture_id (Some (new_message fixture_id 0 (mkEnvelope [] [bs "a@b"]) (bs "x"),
                                     bs "x")) (fun _ => None) id'.
Proof.
  apply (bounce_never_bounces fixture_scheduler false (fixture_attempt (PermFail (bs "5")))
           fixture_id (new_message fixture_id 0 (mkEnvelope [] [bs "a@b"]) (bs "x")) (bs "x")
           _ _ fixture_env (bs "e") [] (mkBounceTick 0 [] [])
           (bounce_body (BounceGenerator_new None false) (mkBounceTick 0 [] []) fixture_env
              (bs "e") [])).
  - reflexivity.
  - apply first_message_represents.
  - apply upd_same.
  - apply fixture_bounce_id.
Defined.

(** Retry times: an attempt that reschedules counts one attempt and sets the
    next one [intervals[n]] later, where [n >= 1] is the number of attempts made so
    far (the last interval, or an hour without intervals, beyond the list); the
    first configured interval is never used. *)
Theorem retry_schedule sch a q m md :
  in_u 32 (attempts (metadata q) + 1) -> 0 <= attempts (metadata q) ->
  attempt_outcome sch a q m = Rescheduled md ->
  attempts md = attempts (metadata q) + 1 /\ attempts md < max_attempts sch /\
  next_retry md = at_now a + retry_delay sch (attempts md) /\ 1 <= attempts md.
Proof.
  intros Hin Ha Ho. pose proof (attempt_outcome_cases sch a q m Hin) as Hc.
  rewrite Ho in Hc. destruct Hc as (Hn & Hlt & _). split_and!; [done..| |lia].
  apply attempt_outcome_next in Ho. done.
Qed.

Lemma retry_schedule_witness :
  1 = attempts (metadata fixture_message) + 1 /\ 1 < 2 /\
  1010 = 1000 + retry_delay fixture_scheduler 1 /\ 1 <= 1.
Proof.
  apply (retry_schedule fixture_scheduler (fixture_attempt (TempFail (bs "4"))) fixture_message
           (bs "x") (mkMetadata 0 1010 1 (Some (bs "4")) Deferred 1)).
  - vm_compute. split; discriminate.
  - vm_compute. discriminate.
  - reflexivity.
Defined.

(** Mail exchangers are tried in preference order: [resolve] answers with a
    non-empty list, sorted by priority, of hosts that all have an address, and no
    exchanger of the DNS answer that has an address is left out. *)
Theorem mx_priority_order `{Dns} domain hosts :
  resolve domain = Ok hosts ->
  hosts <> [] /\ StronglySorted by_priority hosts /\ Forall (fun h => addresses h <> []) hosts /\
  forall mx p name ips, mx_lookup domain = Ok mx -> (p, name) ∈ mx ->
    lookup_ip (trim_end_matches (fun c => c =? DOT) name) = Ok ips -> ips <> [] ->
    mkMxHost (trim_end_matches (fun c => c =? DOT) name) p ips ∈ hosts.
Proof.
  unfold resolve. destruct (mx_lookup domain) as [mx|e] eqn:Emx.
  2: { intros Hf%fallback_hosts. destruct Hf as (? & ? & ?). split_and!; try done. }
  set (l := filter_map _ _). assert (Hl : forall p name ips, (p, name) ∈ mx ->
    lookup_ip (trim_end_matches (fun c => c =? DOT) name) = Ok ips -> ips <> [] ->
    mkMxHost (trim_end_matches (fun c => c =? DOT) name) p ips ∈ l).
  { intros p name ips Hin Hip Hne. apply elem_of_filter_map.
    exists (p, trim_end_matches (fun c => c =? DOT) name). split.
    - rewrite sort_by_prio_perm. apply list_elem_of_fmap. by exists (p, name).
    - simpl. unfold resolve_host. rewrite Hip. by destruct ips. }
  destruct (is_nil l) eqn:El.
  - apply is_nil_true in El. rewrite El in Hl. intros Hf%fallback_hosts.
    destruct Hf as (? & ? & ?). split_and!; try done. intros mx' p name ips [= <-] ???.
    exfalso. by eapply not_elem_of_nil, Hl.
  - apply is_nil_false in El. intros [= <-]. split_and!; [done| | |].
    + apply filter_map_sorted; [|apply sort_by_prio_sorted].
      intros h x. by destruct (is_nil _); intros [= <-].
    + apply Forall_forall. intros x (h & _ & Hx)%elem_of_filter_map.
      destruct (is_nil _) eqn:E; [done|]. apply is_nil_false in E. by injection Hx as <-.
    + intros mx' p name ips [= <-]. apply Hl.
Qed.

Lemma mx_priority_order_witness :
  let hosts := [mkMxHost (bs "mx1.example.org") 10 [ipv4 192 0 2 1];
                mkMxHost (bs "mx2.example.org") 20 [ipv4 192 0 2 1]] in
  hosts <> [] /\ StronglySorted by_priority hosts /\ Forall (fun h => addresses h <> []) hosts /\
  forall mx p name ips, @mx_lookup fixture_dns (bs "example.org") = Ok mx -> (p, name) ∈ mx ->
    @lookup_ip fixture_dns (trim_end_matches (fun c => c =? DOT) name) = Ok ips -> ips <> [] ->
    mkMxHost (trim_end_matches (fun c => c =? DOT) name) p ips ∈ hosts.
Proof. apply (@mx_priority_order fixture_dns (bs "example.org")). reflexivity. Defined.
