(* ===== verification/QueueAdmin.v ===== *)
(** * Queue administration: [serverwall-cli/src/commands/queue.rs] and
      [serverwall-webui/src/routes/queue.rs]

    The operator's commands on the spool, and the relay as a transition system:
    every interleaving of submissions, delivery attempts and commands, with any
    failures of the system calls, keeps the spool invariant. *)

From S2P Require Import Prelude RustStr Net Fs RelayQueue RelayDelivery.
Open Scope Z_scope.

Section Commands.
Context `{Serde}.

(** Read the message, change its metadata, write it back. *)
Definition edit_metadata (f : MessageMetadata -> MessageMetadata) (id : bytes) : io unit :=
  let! (msg, _) := dequeue id in
  update_metadata id (f (metadata msg)).

(** The loops of [Flush] and [flush] over the snapshot [list] returned; errors
    of single updates are dropped.  The number is that of the updates that worked: [flush]
    answers with it, [Flush] prints that of all deferred messages. *)
Fixpoint update_each (sel : MessageMetadata -> bool) (f : MessageMetadata -> MessageMetadata)
    (messages : list QueuedMessage) : io nat :=
  match messages with
  | [] => io_ret 0%nat
  | msg :: messages => fun d =>
      if sel (metadata msg) then
        let (r, d) := update_metadata (qid msg) (f (metadata msg)) d in
        match update_each sel f messages d with
        | (Ok n, d) => (Ok (if is_ok r then S n else n), d)
        | e => e
        end
      else update_each sel f messages d
  end.

(** [spool.list().unwrap_or_default()]. *)
Definition list_or_default : io (list QueuedMessage) := fun d =>
  match spool_list d with
  | (Ok l, d) => (Ok l, d)
  | (Err _, d) => (Ok [], d)
  end.

Definition retry_now (now : Z) (md : MessageMetadata) : MessageMetadata :=
  set_next_retry now (set_status Pending md).

(** *** The command line *)

Definition cli_delete (id : bytes) : io unit := remove id.
Definition cli_retry (now : Z) (id : bytes) : io unit := edit_metadata (retry_now now) id.
Definition cli_hold (id : bytes) : io unit := edit_metadata (set_status Held) id.
Definition cli_release (id : bytes) : io unit := edit_metadata (set_status Pending) id.
Definition is_deferred (md : MessageMetadata) : bool := bool_decide (status md = Deferred).
Definition cli_flush (now : Z) : io nat :=
  let! messages := list_or_default in
  let! _ := update_each is_deferred (retry_now now) messages in
  io_ret (length (List.filter (is_deferred ∘ metadata) messages)).

(** *** The web interface *)

Definition web_delete (id : bytes) : io unit := remove id.
Definition web_retry (now : Z) (id : bytes) : io unit := edit_metadata (retry_now now) id.
Definition web_hold (id : bytes) : io unit := edit_metadata (set_status Held) id.
Definition web_release (now : Z) (id : bytes) : io unit := edit_metadata (retry_now now) id.
Definition web_flush (now : Z) : io nat :=
  let! messages := list_or_default in
  update_each (fun md => bool_decide (status md = Deferred) || bool_decide (status md = Pending))
    (retry_now now) messages.

Fixpoint remove_each (sel : MessageMetadata -> bool) (messages : list QueuedMessage) : io nat :=
  match messages with
  | [] => io_ret 0%nat
  | msg :: messages => fun d =>
      if sel (metadata msg) then
        let (r, d) := remove (qid msg) d in
        match remove_each sel messages d with
        | (Ok n, d) => (Ok (if is_ok r then S n else n), d)
        | e => e
        end
      else remove_each sel messages d
  end.

(** [days as i64]. *)
Definition as_i64 (n : Z) : Z := if n <? 2 ^ 63 then n else n - 2 ^ 64.

Definition web_purge (now : Z) (days : option Z) : io nat :=
  let cutoff := now - ns_days (as_i64 (unwrap_or 7 days)) in
  let! messages := list_or_default in
  remove_each (fun md => created md <? cutoff) messages.
End Commands.

Section CommandInvariants.
Context `{SerdeSpec}.

(** An update of one id keeps the stored size of every id, if its own does. *)
Lemma update_metadata_sized id md d id' n :
  sized d id' n -> (id' = id -> size md = n) -> sized (update_metadata id md d).2 id' n.
Proof.
  intros Hs Hmd q' j'. destruct (decide (id' = id)) as [->|Hne].
  2: { rewrite update_metadata_frame; [apply Hs|]. intros ?%meta_path_inj. congruence. }
  unfold update_metadata. pose proof (fs_read_files (meta_path id) d) as Hf.
  io_step j Hj; [|simpl; rewrite Hf; apply Hs].
  destruct (of_json j) as [q|]; [|simpl; rewrite Hf; apply Hs].
  destruct (to_json (set_metadata md q)) as [jn|] eqn:Ej; [|simpl; rewrite Hf; apply Hs].
  destruct (fs_write_cases (meta_path id) jn (fs_read (meta_path id) d).2)
    as [[_ ->]|(e & _ & [->|[k ->]])]; rewrite ?lookup_insert_eq, ?Hf; [| apply Hs |].
  - intros [= <-]. rewrite (of_to_json (set_metadata md q)) by done.
    intros [= <-]. symmetry. by apply Hmd.
  - intros [= <-] Hq. destruct (decide (k < length jn)%nat).
    { by rewrite (of_json_prefix (set_metadata md q)) in Hq. }
    rewrite take_ge in Hq by lia. rewrite (of_to_json (set_metadata md q)) in Hq by done.
    injection Hq as <-. symmetry. by apply Hmd.
Qed.

Lemma edit_metadata_inv f id d :
  (forall md, size (f md) = size md) -> spool_inv d -> spool_inv (edit_metadata f id d).2.
Proof.
  intros Hsz Hi. unfold edit_metadata. pose proof (dequeue_files id d) as Hf.
  io_step r Hr; [|by eapply spool_inv_files].
  destruct r as [q m], (dequeue id d) as [r d1] eqn:E. simpl in Hr, Hf |- *. subst r.
  apply dequeue_Ok in E as (_ & (j & Hj & Hq) & _).
  apply update_metadata_inv; [|by eapply spool_inv_files].
  intros q' j'. rewrite Hf, Hsz. congruence.
Qed.

(** The size the metadata of [id] gives on a disk. *)
Definition stored_size (d : disk) (id : bytes) : Z :=
  match files d !! meta_path id with
  | Some j => match of_json j with Some q => size (metadata q) | None => 0 end
  | None => 0
  end.

Lemma stored_size_sized d id : sized d id (stored_size d id).
Proof. intros q j Hj Hq. unfold stored_size. by rewrite Hj, Hq. Qed.

Lemma sized_files d d' id n : files d' = files d -> sized d id n -> sized d' id n.
Proof. unfold sized. by intros ->. Qed.

Lemma update_each_inv sel f (sz : bytes -> Z) messages : forall d,
  (forall md, size (f md) = size md) ->
  spool_inv d -> (forall id, sized d id (sz id)) ->
  Forall (fun q => size (metadata q) = sz (qid q)) messages ->
  spool_inv (update_each sel f messages d).2.
Proof.
  induction messages as [|q l IH]; intros d Hsz Hi Hs Hq; simpl; [done|].
  apply Forall_cons in Hq as [Hq Hl]. destruct (sel _); [|by apply IH].
  pose proof (update_metadata_inv (qid q) (f (metadata q)) d) as Hi'.
  pose proof (update_metadata_sized (qid q) (f (metadata q)) d) as Hs'.
  destruct (update_metadata _ _ d) as [r d1]. simpl in *.
  assert (Hi1 : spool_inv d1).
  { apply Hi'; [|done]. intros q' j ??. rewrite Hsz, Hq. by eapply Hs. }
  assert (Hs1 : forall id, sized d1 id (sz id)).
  { intros id. apply Hs'; [done|]. intros ->. by rewrite Hsz. }
  pose proof (IH d1 Hsz Hi1 Hs1 Hl) as Hr.
  by destruct (update_each sel f l d1) as [[]].
Qed.

Lemma remove_each_inv sel messages : forall d,
  spool_inv d -> spool_inv (remove_each sel messages d).2.
Proof.
  induction messages as [|q l IH]; intros d Hi; simpl; [done|].
  destruct (sel _); [|by apply IH].
  pose proof (remove_inv (qid q) d Hi) as Hi1. destruct (remove _ d) as [r d1].
  pose proof (IH d1 Hi1) as Hr. by destruct (remove_each sel l d1) as [[]].
Qed.

(** What [list] returns was read from metadata files. *)
Lemma list_entries_files paths : forall d,
  files (list_entries paths d).2 = files d /\
  forall l, (list_entries paths d).1 = Ok l ->
    Forall (fun q => exists p j, p ∈ paths /\ path_extension p = Some (bs "meta") /\
              files d !! p = Some j /\ of_json j = Some q) l.
Proof.
  induction paths as [|p ps IH]; intros d; simpl.
  { split; [done|]. intros l [= <-]. by constructor. }
  assert (Hps : forall d', files d' = files d ->
    files (list_entries ps d').2 = files d /\
    forall l, (list_entries ps d').1 = Ok l ->
      Forall (fun q => exists p0 j, p0 ∈ p :: ps /\ path_extension p0 = Some (bs "meta") /\
                files d !! p0 = Some j /\ of_json j = Some q) l).
  { intros d' Hf. destruct (IH d') as [Hf' Hl]. split; [congruence|]. intros l Hok.
    eapply Forall_impl; [by apply Hl|]. intros q (p0 & j & ? & ?). rewrite Hf in *.
    exists p0, j. split; [by right|done]. }
  case_bool_decide as Hext; [|by apply Hps].
  pose proof (fs_read_files p d) as Hf. pose proof (fs_read_Ok p d) as Hr.
  unfold list_entry, io_bind. destruct (fs_read p d) as [[data|e] d1]; simpl in *.
  all: destruct (Hps d1 Hf) as [Hf2 Hl]; destruct (list_entries ps d1) as [[l|e'] d2];
    simpl in *; (split; [done|]); intros l' Heq; simplify_eq.
  - specialize (Hl _ eq_refl). destruct (of_json data) as [q|] eqn:Eq; [|done].
    constructor; [|done]. exists p, data. split; [by left|]. split_and!; eauto.
  - by apply Hl.
Qed.

Lemma path_extension_meta p :
  path_extension p = Some (bs "meta") -> exists id, p = meta_path id.
Proof.
  unfold path_extension. destruct (rsplit_once p DOT) as [[a b]|] eqn:E; [|done].
  apply rsplit_once_Some in E as [-> _]. destruct (is_nil a); [done|]. intros [= ->].
  by exists a.
Qed.

Lemma list_or_default_files d :
  spool_inv d ->
  exists l, (list_or_default d).1 = Ok l /\ files (list_or_default d).2 = files d /\
    Forall (fun q => size (metadata q) = stored_size d (qid q)) l.
Proof.
  intros Hi. unfold list_or_default, spool_list.
  destruct (list_entries_files (fst <$> map_to_list (files d)) d) as [Hf Hl].
  destruct (list_entries _ d) as [[l|e] d1]; simpl in *; [|by exists []].
  exists l. split_and!; [done..|]. eapply Forall_impl; [by apply Hl|].
  intros q (p & j & _ & [id ->]%path_extension_meta & Hj & Hq).
  destruct (Hi _ _ _ Hj Hq) as [-> _]. unfold stored_size. by rewrite Hj, Hq.
Qed.

Lemma flush_inv sel f d :
  (forall md, size (f md) = size md) -> spool_inv d ->
  spool_inv ((let! messages := list_or_default in update_each sel f messages) d).2.
Proof.
  intros Hsz Hi. destruct (list_or_default_files d Hi) as (l & Hl & Hf & Hs).
  unfold io_bind. destruct (list_or_default d) as [r d1]. simpl in *. subst r.
  apply (update_each_inv _ _ (stored_size d)); [done|by eapply spool_inv_files| |done].
  intros id. eapply sized_files; [done|]. apply stored_size_sized.
Qed.

Lemma cli_flush_inv now d : spool_inv d -> spool_inv (cli_flush now d).2.
Proof.
  intros Hi. pose proof (flush_inv is_deferred (retry_now now) d ltac:(done) Hi) as Hf.
  unfold cli_flush, io_bind in *. destruct (list_or_default d) as [[l|e] d1]; [|done].
  by destruct (update_each _ _ _ _) as [[]].
Qed.

Lemma web_purge_inv now days d : spool_inv d -> spool_inv (web_purge now days d).2.
Proof.
  intros Hi. destruct (list_or_default_files d Hi) as (l & Hl & Hf & Hs).
  unfold web_purge, io_bind. destruct (list_or_default d) as [r d1]. simpl in *. subst r.
  apply remove_each_inv. by eapply spool_inv_files.
Qed.
End CommandInvariants.

(** ** Commands on the store *)

Section CommandSpec.
Context `{SerdeSpec}.

Lemma edit_metadata_refines f id q m d s :
  represents d s -> s id = Some (q, m) ->
  exists d', edit_metadata f id d = (Ok tt, d') /\
    represents d' (upd id (Some (set_metadata (f (metadata q)) q, m)) s).
Proof.
  intros Hr Hq. unfold edit_metadata, io_bind. rewrite (dequeue_refines d s id q m) by done.
  by apply update_metadata_refines.
Qed.

Lemma first_message_fresh t env msg id :
  id <> generate_queue_id (t_millis t) (t_rand t) ->
  fresh (enqueue t env msg (mkDisk ∅ [])).2 id.
Proof.
  intros Hne. unfold fresh, enqueue.
  destruct (to_json_total (new_message (generate_queue_id (t_millis t) (t_rand t)) (t_now t) env msg))
    as [j ->]. unfold io_bind, fs_write. simpl.
  rewrite lookup_insert_ne by (intros ?%meta_path_inj; congruence).
  rewrite lookup_insert_ne by apply msg_ne_meta. apply lookup_empty.
Qed.
End CommandSpec.

(** ** The relay as a transition system *)

Section Relay.
Context `{SerdeSpec} (sch : RetryScheduler) (bg : BounceGenerator).

Inductive relay_step (d : disk) : disk -> Prop :=
| step_submit t env msg :
    fresh d (generate_queue_id (t_millis t) (t_rand t)) ->
    relay_step d (enqueue t env msg d).2
| step_deliver a id :
    fresh d (bounce_id a) -> relay_step d (deliver_message sch bg a id d).2
| step_delete id : relay_step d (cli_delete id d).2
| step_retry now id : relay_step d (cli_retry now id d).2
| step_hold id : relay_step d (cli_hold id d).2
| step_release id : relay_step d (cli_release id d).2
| step_flush now : relay_step d (cli_flush now d).2
| step_web_release now id : relay_step d (web_release now id d).2
| step_web_flush now : relay_step d (web_flush now d).2
| step_web_purge now days : relay_step d (web_purge now days d).2
| step_environment faults : relay_step d (mkDisk (files d) faults).

Lemma relay_step_inv d d' : spool_inv d -> relay_step d d' -> spool_inv d'.
Proof.
  intros Hi Hs. destruct Hs.
  - by apply enqueue_inv.
  - by apply deliver_message_inv.
  - by apply remove_inv.
  - by apply edit_metadata_inv.
  - by apply edit_metadata_inv.
  - by apply edit_metadata_inv.
  - by apply cli_flush_inv.
  - by apply edit_metadata_inv.
  - by apply flush_inv.
  - by apply web_purge_inv.
  - by eapply spool_inv_files.
Qed.

Lemma empty_spool_inv faults : spool_inv (mkDisk ∅ faults).
Proof. intros id j q. simpl. by rewrite lookup_empty. Qed.
End Relay.

(** ** Properties *)



(** Holding and releasing: a held message is in no later scan of the queue, and
    after [release] it is in the scan of any later instant, with its envelope,
    its bytes and its attempt count. *)
Theorem hold_release `{SerdeSpec} id q m d s now :
  represents d s -> s id = Some (q, m) ->
  exists d1 d2 q1 q2, cli_hold id d = (Ok tt, d1) /\ web_release now id d1 = (Ok tt, d2) /\
    spool_get d1 id = Some (q1, m) /\ (forall t, is_due t q1 = false) /\
    spool_get d2 id = Some (q2, m) /\ (forall t, now <= t -> is_due t q2 = true) /\
    envelope q2 = envelope q /\ attempts (metadata q2) = attempts (metadata q).
Proof.
  intros Hr Hq.
  destruct (edit_metadata_refines (set_status Held) id q m d s Hr Hq) as (d1 & H1 & Hr1).
  destruct (edit_metadata_refines (retry_now now) id _ m d1 _ Hr1 (upd_same _ _ _))
    as (d2 & H2 & Hr2).
  exists d1, d2. eexists _, _. split; [done|]. split; [done|].
  destruct Hr1 as [_ ->], Hr2 as [_ ->]. rewrite !upd_same.
  split; [done|]. split; [done|]. split; [done|]. split; [|done].
  intros t Ht. simpl. apply negb_true_iff, Z.ltb_ge. done.
Qed.

Lemma hold_release_witness :
  exists d1 d2 q1 q2, cli_hold fixture_id fixture_disk = (Ok tt, d1) /\
    web_release 9 fixture_id d1 = (Ok tt, d2) /\
    spool_get d1 fixture_id = Some (q1, bs "x") /\ (forall t, is_due t q1 = false) /\
    spool_get d2 fixture_id = Some (q2, bs "x") /\ (forall t, 9 <= t -> is_due t q2 = true) /\
    envelope q2 = fixture_env /\ attempts (metadata q2) = 0.
Proof.
  apply (hold_release fixture_id fixture_message (bs "x") fixture_disk fixture_store 9).
  - exact fixture_disk_represents.
  - apply upd_same.
Defined.
