(* ===== verification/RelayTasks.v ===== *)
(** * Concurrent deliveries: the tasks of [DeliveryManager::process_queue]

    [RelayDelivery] runs the deliveries of one scan one after the other.  The code
    spawns a task per due message, at most [delivery_threads] of them at a time, and
    the tasks interleave at every call to the file system and at every SMTP
    conversation.  Here [deliver_message] is a sequence of such calls, the tasks of a
    pass are a transition system over one spool, and every schedule is shown to end
    with the files of the sequential pass.  Two results show what the tasks do when
    the queue is administered while they wait. *)

From stdpp Require Import sorting.
From S2P Require Import Prelude RustStr Net Fs RelayQueue RelayDelivery QueueAdmin.
Open Scope Z_scope.

(** ** Programs as sequences of calls *)

(** [FsCall] is one call to the file system, [FsSend] one [SmtpSender::send] to a
    server (the conversation touches no file). *)
Inductive fsprog (A : Type) : Type :=
| FsDone (r : result A bytes)
| FsCall {B : Type} (op : io B) (k : result B bytes -> fsprog A)
| FsSend (server : SocketAddr) (k : fsprog A).
Arguments FsDone {A} r.
Arguments FsCall {A B} op k.
Arguments FsSend {A} server k.

(** [?] on the result of the first part. *)
Fixpoint fp_bind {A B} (p : fsprog A) (f : A -> fsprog B) : fsprog B :=
  match p with
  | FsDone (Ok x) => f x
  | FsDone (Err e) => FsDone (Err e)
  | FsCall op k => FsCall op (fun r => fp_bind (k r) f)
  | FsSend server k => FsSend server (fp_bind k f)
  end.

(** [let _ = ...]: the result is dropped. *)
Fixpoint fp_ignore {A} (p : fsprog A) : fsprog unit :=
  match p with
  | FsDone _ => FsDone (Ok tt)
  | FsCall op k => FsCall op (fun r => fp_ignore (k r))
  | FsSend server k => FsSend server (fp_ignore k)
  end.

Definition fp_call {A} (op : io A) : fsprog A := FsCall op FsDone.
Definition fp_ret {A} (x : A) : fsprog A := FsDone (Ok x).
Definition fp_err {A} (e : bytes) : fsprog A := FsDone (Err e).

Notation "'let+' x ':=' p 'in' k" := (fp_bind p (fun x => k))
  (at level 10, x pattern, k at level 200) : rust_scope.

(** Without interruption: the effect, and the servers spoken to. *)
Fixpoint interp {A} (p : fsprog A) : io A :=
  match p with
  | FsDone r => fun d => (r, d)
  | FsCall op k => fun d => let (r, d) := op d in interp (k r) d
  | FsSend _ k => interp k
  end.

Fixpoint sends {A} (p : fsprog A) (d : disk) : list SocketAddr :=
  match p with
  | FsDone _ => []
  | FsCall op k => let (r, d) := op d in sends (k r) d
  | FsSend server k => server :: sends k d
  end.

(** ** The operations of the spool and the delivery, call by call *)

Section Programs.
Context `{Serde} (sch : RetryScheduler) (bg : BounceGenerator).

Definition enqueue_prog (t : Tick) (env : Envelope) (msg : bytes) : fsprog bytes :=
  let queue_id := generate_queue_id (t_millis t) (t_rand t) in
  match to_json (new_message queue_id (t_now t) env msg) with
  | None => fp_err (bs "failed to serialize queue metadata")
  | Some meta_json =>
      let+ _ := fp_call (fs_write (msg_path queue_id) msg) in
      let+ _ := fp_call (fs_write (meta_path queue_id) meta_json) in
      fp_ret queue_id
  end.

Definition dequeue_prog (queue_id : bytes) : fsprog (QueuedMessage * bytes) :=
  let+ meta_bytes := fp_call (fs_read (meta_path queue_id)) in
  match of_json meta_bytes with
  | None => fp_err (bs "failed to parse metadata for " ++ queue_id)
  | Some queued =>
      let+ msg_bytes := fp_call (fs_read (msg_path queue_id)) in
      fp_ret (queued, msg_bytes)
  end.

Definition remove_if_exists (path : bytes) : fsprog unit :=
  let+ e := fp_call (fs_exists path) in
  if e then fp_call (fs_remove_file path) else fp_ret tt.

Definition remove_prog (queue_id : bytes) : fsprog unit :=
  let+ _ := remove_if_exists (meta_path queue_id) in
  remove_if_exists (msg_path queue_id).

Definition update_metadata_prog (queue_id : bytes) (md : MessageMetadata) : fsprog unit :=
  let+ meta_bytes := fp_call (fs_read (meta_path queue_id)) in
  match of_json meta_bytes with
  | None => fp_err (bs "failed to parse metadata for " ++ queue_id)
  | Some queued =>
      match to_json (set_metadata md queued) with
      | None => fp_err (bs "failed to serialize updated metadata")
      | Some updated_json => fp_call (fs_write (meta_path queue_id) updated_json)
      end
  end.

Definition bounce_prog (a : Attempt) (env : Envelope) (error msg : bytes) : fsprog unit :=
  match generate bg (at_bounce a) env error msg with
  | Some (benv, bmsg) => fp_ignore (enqueue_prog (at_tick a) benv bmsg)
  | None => fp_ret tt
  end.

Definition handle_temp_fail_prog (a : Attempt) (queue_id error : bytes) (queued : QueuedMessage)
  : fsprog unit :=
  if is_expired sch (at_now a) (created (metadata queued)) then
    let+ _ := bounce_prog a (envelope queued) error [] in
    remove_prog queue_id
  else
    match next_retry_time sch (at_now a) (attempts (metadata queued)) with
    | Some next =>
        update_metadata_prog queue_id
          (set_last_error (Some error)
            (set_status Deferred (set_next_retry next (metadata queued))))
    | None =>
        let+ _ := bounce_prog a (envelope queued) error [] in
        remove_prog queue_id
    end.

Fixpoint try_hosts_prog (a : Attempt) (queue_id msg : bytes) (k : nat)
    (targets : list (bytes * IpAddr)) (queued : QueuedMessage) : fsprog unit :=
  match targets with
  | [] =>
      handle_temp_fail_prog a queue_id (unwrap_or [] (last_error (metadata queued))) queued
  | (host, addr) :: rest =>
      FsSend (mkSocketAddr addr 25)
        match at_send a k (mkSocketAddr addr 25) host (mail_from (envelope queued))
                (rcpt_to (envelope queued)) msg with
        | Success _ => remove_prog queue_id
        | PermFail err =>
            let+ _ := bounce_prog a (envelope queued) err msg in
            remove_prog queue_id
        | TempFail err =>
            try_hosts_prog a queue_id msg (S k) rest
              (set_metadata (set_last_error (Some err) (metadata queued)) queued)
        end
  end.

Definition deliver_prog (a : Attempt) (queue_id : bytes) : fsprog unit :=
  let+ (queued0, msg) := dequeue_prog queue_id in
  let queued := mark_active queued0 in
  let+ _ := update_metadata_prog queue_id (metadata queued) in
  match @resolve (at_dns a) (recipient_domain (envelope queued)) with
  | Err e => handle_temp_fail_prog a queue_id e queued
  | Ok hosts => try_hosts_prog a queue_id msg 0 (mx_targets hosts) queued
  end.
End Programs.

(** ** The tasks of a pass *)

(** [Waiting]: the loop of [process_queue] has not got a permit for it yet. *)
Inductive TaskState :=
| Waiting (p : fsprog unit)
| Running (p : fsprog unit)
| Over.

Record Pass := mkPass {
  pa_tasks : list TaskState;
  pa_permits : nat;
  pa_disk : disk;
  pa_sent : list (nat * SocketAddr);
}.

Definition is_waiting (t : TaskState) : bool :=
  match t with Waiting _ => true | _ => false end.
Definition is_running (t : TaskState) : bool :=
  match t with Running _ => true | _ => false end.

Definition pass_start (permits : nat) (ps : list (fsprog unit)) (d : disk) : Pass :=
  mkPass (Waiting <$> ps) permits d [].

(** The loop takes the messages in order, and a permit for each; a task gives its
    permit back at its end, whatever the result. *)
Inductive pass_step : Pass -> Pass -> Prop :=
| pass_spawn ts i p n d l :
    ts !! i = Some (Waiting p) ->
    (forall j, (j < i)%nat -> is_waiting <$> ts !! j = Some false) ->
    pass_step (mkPass ts (S n) d l) (mkPass (<[i := Running p]> ts) n d l)
| pass_call ts i n d l B (op : io B) k r d' :
    ts !! i = Some (Running (FsCall op k)) -> op d = (r, d') ->
    pass_step (mkPass ts n d l) (mkPass (<[i := Running (k r)]> ts) n d' l)
| pass_send ts i n d l server k :
    ts !! i = Some (Running (FsSend server k)) ->
    pass_step (mkPass ts n d l) (mkPass (<[i := Running k]> ts) n d (l ++ [(i, server)]))
| pass_end ts i n d l r :
    ts !! i = Some (Running (FsDone r)) ->
    pass_step (mkPass ts n d l) (mkPass (<[i := Over]> ts) (S n) d l).

(** What the [i]-th task has been sent to, in order. *)
Definition sent_by (i : nat) (l : list (nat * SocketAddr)) : list SocketAddr :=
  snd <$> base.filter (fun e => e.1 = i) l.

(** ** A task alone does what the delivery does *)

Lemma interp_bind {A B} (p : fsprog A) (f : A -> fsprog B) d :
  interp (fp_bind p f) d = io_bind (interp p) (fun x => interp (f x)) d.
Proof.
  revert d. induction p as [[]|B' op k IH|sa k IH]; intros d; [done..| |apply IH].
  unfold io_bind. simpl. destruct (op d). apply IH.
Qed.

Lemma interp_ignore {A} (p : fsprog A) d : interp (fp_ignore p) d = (Ok tt, (interp p d).2).
Proof.
  revert d. induction p as [[]|B' op k IH|sa k IH]; intros d; [done..| |apply IH].
  simpl. destruct (op d). apply IH.
Qed.

Lemma interp_call {A} (op : io A) d : interp (fp_call op) d = op d.
Proof. simpl. by destruct (op d). Qed.

(** The parts agree, so their sequence does. *)
Lemma io_bind_ext {A B} (m m' : io A) (f f' : A -> io B) d :
  m d = m' d -> (forall x d, f x d = f' x d) -> io_bind m f d = io_bind m' f' d.
Proof. unfold io_bind. intros -> Hf. destruct (m' d) as [[] d']; [apply Hf|done]. Qed.

(** Sequences of calls are compared part by part. *)
Ltac by_parts :=
  repeat first
    [ rewrite interp_bind; apply io_bind_ext; [|intros; repeat case_match]
    | rewrite interp_call | progress simplify_eq | done ].

Section Alone.
Context `{Serde} (sch : RetryScheduler) (bg : BounceGenerator).

Lemma interp_enqueue t env msg d : interp (enqueue_prog t env msg) d = enqueue t env msg d.
Proof. unfold enqueue_prog, enqueue. destruct (to_json _); [|done]. by_parts. Qed.

Lemma interp_dequeue id d : interp (dequeue_prog id) d = dequeue id d.
Proof. unfold dequeue_prog, dequeue. by_parts. Qed.

Lemma interp_update_metadata id md d :
  interp (update_metadata_prog id md) d = update_metadata id md d.
Proof. unfold update_metadata_prog, update_metadata. by_parts. Qed.

Lemma interp_remove_if_exists path d :
  interp (remove_if_exists path) d =
  (let! e := fs_exists path in if e then fs_remove_file path else io_ret tt) d.
Proof. unfold remove_if_exists. by_parts. Qed.

Lemma interp_remove id d : interp (remove_prog id) d = remove id d.
Proof.
  unfold remove_prog. rewrite interp_bind. unfold remove, io_bind at 1.
  rewrite interp_remove_if_exists. unfold io_bind, fs_exists.
  destruct (if match files d !! meta_path id with Some _ => true | None => false end then _ else _)
    as [[[]|e] d']; [|done].
  rewrite interp_remove_if_exists. unfold io_bind, fs_exists. case_match.
  - by destruct (fs_remove_file _ _) as [[[]|e] d''].
  - done.
Qed.

Lemma interp_bounce a env error msg d :
  interp (bounce_prog bg a env error msg) d = bounce bg a env error msg d.
Proof.
  unfold bounce_prog, bounce. destruct (generate _ _ _ _ _) as [[]|]; [|done].
  by rewrite interp_ignore, interp_enqueue.
Qed.

Lemma interp_bounce_remove a id env error msg d :
  interp (let+ _ := bounce_prog bg a env error msg in remove_prog id) d =
  (let! _ := bounce bg a env error msg in remove id) d.
Proof.
  rewrite interp_bind. apply io_bind_ext; [apply interp_bounce|]. intros _. apply interp_remove.
Qed.

Lemma interp_temp_fail a id error q d :
  interp (handle_temp_fail_prog sch bg a id error q) d = handle_temp_fail sch bg a id error q d.
Proof.
  unfold handle_temp_fail_prog, handle_temp_fail.
  repeat case_match; auto using interp_bounce_remove, interp_update_metadata.
Qed.

Lemma interp_try_hosts a id msg targets : forall k q d,
  interp (try_hosts_prog sch bg a id msg k targets q) d = try_hosts sch bg a id msg k targets q d.
Proof.
  induction targets as [|[host addr] rest IH]; intros k q d; [apply interp_temp_fail|].
  simpl. case_match; auto using interp_remove, interp_bounce_remove.
Qed.

Lemma interp_deliver a id d : interp (deliver_prog sch bg a id) d = deliver_message sch bg a id d.
Proof.
  unfold deliver_prog, deliver_message. rewrite interp_bind.
  apply io_bind_ext; [apply interp_dequeue|]. intros [q0 msg] d0. rewrite interp_bind.
  apply io_bind_ext; [apply interp_update_metadata|]. intros _ d1.
  destruct (resolve _); [apply interp_try_hosts|apply interp_temp_fail].
Qed.
End Alone.

(** ** Footprints *)

Definition agree (F : gset bytes) (d1 d2 : disk) : Prop :=
  forall p, p ∈ F -> files d1 !! p = files d2 !! p.

(** On a spool that does not fail, [op] reads and writes only the files of [F]. *)
Record local {B : Type} (F : gset bytes) (op : io B) : Prop := {
  local_calm d : calm d -> calm (op d).2;
  local_frame d p : calm d -> p ∉ F -> files (op d).2 !! p = files d !! p;
  local_same d1 d2 : calm d1 -> calm d2 -> agree F d1 d2 ->
    (op d1).1 = (op d2).1 /\ agree F (op d1).2 (op d2).2;
}.

Fixpoint within {A : Type} (F : gset bytes) (p : fsprog A) : Prop :=
  match p with
  | FsDone _ => True
  | FsCall op k => local F op /\ forall r, within F (k r)
  | FsSend _ k => within F k
  end.

Lemma within_bind {A B : Type} F (p : fsprog A) (f : A -> fsprog B) :
  within F p -> (forall x, within F (f x)) -> within F (fp_bind p f).
Proof.
  intros Hp Hf. induction p as [[]|B' op k IH|sa k IH]; simpl in *; auto.
  destruct Hp. split; auto.
Qed.

Lemma within_ignore {A : Type} F (p : fsprog A) : within F p -> within F (fp_ignore p).
Proof. induction p; simpl; firstorder. Qed.

Lemma within_call {A : Type} F (op : io A) : local F op -> within F (fp_call op).
Proof. done. Qed.

Lemma local_read F p : p ∈ F -> local F (fs_read p).
Proof.
  intros Hp. split; unfold calm, fs_read, next_fault.
  - intros d Hc. rewrite Hc. by case_match.
  - intros d q Hc _. rewrite Hc. by case_match.
  - intros d1 d2 Hc1 Hc2 Ha. rewrite Hc1, Hc2, (Ha p Hp). by case_match.
Qed.

Lemma local_exists F p : p ∈ F -> local F (fs_exists p).
Proof. intros Hp. split; unfold fs_exists; [done..|]. intros d1 d2 _ _ Ha. by rewrite (Ha p Hp). Qed.

Lemma agree_insert F d1 d2 p data :
  agree F d1 d2 -> agree F (mkDisk (<[p := data]> (files d1)) []) (mkDisk (<[p := data]> (files d2)) []).
Proof.
  intros Ha q Hq. simpl. destruct (decide (q = p)) as [->|Hn]; [by rewrite !lookup_insert_eq|].
  rewrite !lookup_insert_ne by done. by apply Ha.
Qed.

Lemma local_write F p data : p ∈ F -> local F (fs_write p data).
Proof.
  intros Hp. split.
  - intros d Hc. by rewrite fs_write_calm.
  - intros d q Hc Hq. rewrite fs_write_calm by done. simpl. rewrite lookup_insert_ne by set_solver. done.
  - intros d1 d2 Hc1 Hc2 Ha. rewrite !fs_write_calm by done. split; [done|]. by apply agree_insert.
Qed.

Lemma local_remove F p : p ∈ F -> local F (fs_remove_file p).
Proof.
  intros Hp. split; unfold calm, fs_remove_file, next_fault.
  - intros d Hc. rewrite Hc. by case_match.
  - intros d q Hc Hq. rewrite Hc. case_match; simpl; [|done]. by rewrite lookup_delete_ne by set_solver.
  - intros d1 d2 Hc1 Hc2 Ha. rewrite Hc1, Hc2, (Ha p Hp). case_match; simpl; [|done].
    split; [done|]. intros q Hq. simpl.
    destruct (decide (q = p)) as [->|Hn]; [by rewrite !lookup_delete_eq|].
    rewrite !lookup_delete_ne by done. by apply Ha.
Qed.

Create HintDb footprint.
#[export] Hint Resolve within_bind within_ignore within_call
  local_read local_exists local_write local_remove : footprint.

(** The whole program is as local as its calls. *)
Lemma interp_local {A : Type} F (p : fsprog A) : within F p -> local F (interp p).
Proof.
  induction p as [r|B op k IH|sa k IH]; simpl.
  - by split.
  - intros [Ho Hk]. split; simpl.
    + intros d Hc. pose proof (local_calm _ _ Ho d Hc). destruct (op d). by apply IH.
    + intros d q Hc Hq. pose proof (local_calm _ _ Ho d Hc). rewrite <- (local_frame _ _ Ho d q) by done.
      destruct (op d). by apply IH.
    + intros d1 d2 H1 H2 Ha. destruct (local_same _ _ Ho d1 d2 H1 H2 Ha) as [Hr Ha'].
      pose proof (local_calm _ _ Ho d1 H1). pose proof (local_calm _ _ Ho d2 H2).
      destruct (op d1) as [r d1'], (op d2) as [r' d2']; simpl in *. subst r'. by apply IH.
  - auto.
Qed.

Lemma sends_local {A : Type} F (p : fsprog A) d1 d2 :
  within F p -> calm d1 -> calm d2 -> agree F d1 d2 -> sends p d1 = sends p d2.
Proof.
  revert d1 d2. induction p as [r|B op k IH|sa k IH]; simpl; intros d1 d2; [done| |].
  - intros [Ho Hk] H1 H2 Ha. destruct (local_same _ _ Ho d1 d2 H1 H2 Ha) as [Hr Ha'].
    pose proof (local_calm _ _ Ho d1 H1). pose proof (local_calm _ _ Ho d2 H2).
    destruct (op d1) as [r d1'], (op d2) as [r' d2']; simpl in *. subst r'. by apply IH.
  - intros Hk H1 H2 Ha. f_equal. by apply IH.
Qed.

(** The files of a delivery: those of the message and those of its bounce. *)
Definition footprint (a : Attempt) (id : bytes) : gset bytes :=
  {[meta_path id; msg_path id; meta_path (bounce_id a); msg_path (bounce_id a)]}.

Section Footprint.
Context `{Serde} (sch : RetryScheduler) (bg : BounceGenerator).

Lemma own_paths a id :
  meta_path id ∈ footprint a id /\ msg_path id ∈ footprint a id /\
  meta_path (bounce_id a) ∈ footprint a id /\ msg_path (bounce_id a) ∈ footprint a id.
Proof. unfold footprint. set_solver. Qed.

Lemma remove_if_exists_within F p : p ∈ F -> within F (remove_if_exists p).
Proof. intros. unfold remove_if_exists. apply within_bind; [auto with footprint|]. by intros []; auto with footprint. Qed.

Lemma remove_within a id : within (footprint a id) (remove_prog id).
Proof.
  destruct (own_paths a id) as (?&?&_).
  unfold remove_prog. apply within_bind; intros; by apply remove_if_exists_within.
Qed.

Lemma update_within a id md : within (footprint a id) (update_metadata_prog id md).
Proof.
  destruct (own_paths a id) as (?&?&_). unfold update_metadata_prog.
  apply within_bind; [auto with footprint|]. intros x. repeat case_match; [|done..]. auto with footprint.
Qed.

Lemma bounce_within a id env error msg : within (footprint a id) (bounce_prog bg a env error msg).
Proof.
  destruct (own_paths a id) as (_&_&?&?). unfold bounce_prog, enqueue_prog.
  repeat case_match; [|done..]. apply within_ignore.
  repeat (apply within_bind; [auto with footprint|intros _]). done.
Qed.

Lemma bounce_remove_within a id env error msg :
  within (footprint a id) (let+ _ := bounce_prog bg a env error msg in remove_prog id).
Proof. apply within_bind; auto using bounce_within, remove_within. Qed.

Lemma temp_fail_within a id error q : within (footprint a id) (handle_temp_fail_prog sch bg a id error q).
Proof. unfold handle_temp_fail_prog. repeat case_match; auto using bounce_remove_within, update_within. Qed.

Lemma try_hosts_within a id msg targets : forall k q,
  within (footprint a id) (try_hosts_prog sch bg a id msg k targets q).
Proof.
  induction targets as [|[host addr] rest IH]; intros k q; [apply temp_fail_within|].
  simpl. case_match; auto using remove_within, bounce_remove_within.
Qed.

Lemma deliver_within a id : within (footprint a id) (deliver_prog sch bg a id).
Proof.
  destruct (own_paths a id) as (?&?&_). unfold deliver_prog, dequeue_prog.
  apply within_bind.
  - apply within_bind; [auto with footprint|]. intros x. case_match; [|done].
    apply within_bind; [auto with footprint|done].
  - intros [q0 msg]. apply within_bind; [apply update_within|]. intros _.
    destruct (resolve _); [apply try_hosts_within|apply temp_fail_within].
Qed.

(** Deliveries of different messages with different bounces have no file in common. *)
Lemma footprint_owner a id p :
  p ∈ footprint a id -> exists x, (x = id \/ x = bounce_id a) /\ (p = meta_path x \/ p = msg_path x).
Proof.
  unfold footprint. intros Hp. repeat (apply elem_of_union in Hp as [Hp|Hp]);
    apply elem_of_singleton in Hp as ->; eauto.
Qed.

Lemma footprint_disjoint a b id id' :
  id <> id' -> id <> bounce_id b -> bounce_id a <> id' -> bounce_id a <> bounce_id b ->
  footprint a id ## footprint b id'.
Proof.
  intros ???? p (x & Hx & Hpx)%footprint_owner (y & Hy & Hpy)%footprint_owner.
  assert (x = y) as -> by
    (destruct Hpx as [->| ->], Hpy as [E|E];
     [by apply meta_path_inj|by apply meta_ne_msg in E|by symmetry in E; apply meta_ne_msg in E|by apply msg_path_inj]).
  destruct Hx, Hy; congruence.
Qed.
End Footprint.

(** ** Every schedule ends as the sequential pass *)

Definition rest_effect (t : TaskState) (d : disk) : disk :=
  match t with Waiting p | Running p => (interp p d).2 | Over => d end.
Definition rest_sends (t : TaskState) (d : disk) : list SocketAddr :=
  match t with Waiting p | Running p => sends p d | Over => [] end.
Definition rest_within (F : gset bytes) (t : TaskState) : Prop :=
  match t with Waiting p | Running p => within F p | Over => True end.

Definition running (ts : list TaskState) : nat :=
  length (base.filter (fun t => is_running t = true) ts).

Lemma running_insert ts i t t' :
  ts !! i = Some t -> (running (<[i := t']> ts) + Nat.b2n (is_running t) = running ts + Nat.b2n (is_running t'))%nat.
Proof.
  intros Ht. apply list_elem_of_split_length in Ht as (l1 & l2 & -> & ->).
  rewrite insert_app_r_alt, Nat.sub_diag by lia. cbn [insert list_insert]. unfold running.
  change (t' :: l2) with ([t'] ++ l2). change (t :: l2) with ([t] ++ l2).
  assert (Hone : forall u, length (base.filter (fun t => is_running t = true) [u]) = Nat.b2n (is_running u))
    by (by intros []).
  rewrite !filter_app, !length_app, !Hone. lia.
Qed.

Lemma running_waiting ps : running (Waiting <$> ps) = 0%nat.
Proof. by induction ps. Qed.

Lemma sent_by_app i l j server :
  sent_by i (l ++ [(j, server)]) = sent_by i l ++ (if decide (j = i) then [server] else []).
Proof.
  unfold sent_by. rewrite filter_app, fmap_app. f_equal.
  destruct (decide (j = i)); [by rewrite filter_cons_True|by rewrite filter_cons_False].
Qed.

Section Schedules.
(** The programs with their footprints, the permits and the spool at the start. *)
Context (L : list (gset bytes * fsprog unit)) (n : nat) (d0 : disk).
Hypothesis L_within : forall i x, L !! i = Some x -> within x.1 x.2.
Hypothesis L_disjoint : forall i j x y, L !! i = Some x -> L !! j = Some y -> i <> j -> x.1 ## y.1.

(** What is left of the task ends in what the program does alone. *)
Record task_ok (i : nat) (x : gset bytes * fsprog unit) (t : TaskState) (s : Pass) : Prop := {
  to_within : rest_within x.1 t;
  to_effect : agree x.1 (rest_effect t (pa_disk s)) (interp x.2 d0).2;
  to_sends : sent_by i (pa_sent s) ++ rest_sends t (pa_disk s) = sends x.2 d0;
}.

Record pass_inv (s : Pass) : Prop := {
  pi_calm : calm (pa_disk s);
  pi_length : length (pa_tasks s) = length L;
  pi_permits : (pa_permits s + running (pa_tasks s) = n)%nat;
  pi_frame p : (forall i x, L !! i = Some x -> p ∉ x.1) -> files (pa_disk s) !! p = files d0 !! p;
  pi_task i x t : L !! i = Some x -> pa_tasks s !! i = Some t -> task_ok i x t s;
}.

Lemma pass_inv_start : calm d0 -> pass_inv (pass_start n (snd <$> L) d0).
Proof.
  intros Hc. split; cbn [pass_start pa_disk pa_tasks pa_permits pa_sent]; [done|by rewrite !length_fmap| |done|].
  - rewrite running_waiting. lia.
  - intros i x t Hx Ht. rewrite !list_lookup_fmap, Hx in Ht. injection Ht as <-.
    split; cbn; [by eapply L_within|done|done].
Qed.

(** Another task does not notice a call outside its footprint. *)
Lemma other_task_ok i x t s s' :
  task_ok i x t s -> calm (pa_disk s) -> calm (pa_disk s') -> agree x.1 (pa_disk s') (pa_disk s) ->
  sent_by i (pa_sent s') = sent_by i (pa_sent s) -> task_ok i x t s'.
Proof.
  intros [Hw He Hs] Hc Hc' Ha Hl. split; [done| |].
  - intros p Hp. rewrite <- (He p Hp). destruct t as [q|q|]; cbn; [| |by apply Ha];
      by apply (local_same _ _ (interp_local _ _ Hw) _ _ Hc' Hc Ha).
  - rewrite Hl, <- Hs. f_equal. destruct t as [q|q|]; cbn; [| |done]; by apply (sends_local x.1).
Qed.

(** A step of task [i] with what the step has to show. *)
Lemma pass_inv_update s s' i t' :
  pass_inv s -> pa_tasks s' = <[i := t']> (pa_tasks s) -> calm (pa_disk s') ->
  (pa_permits s' + running (pa_tasks s') = n)%nat ->
  (forall x, L !! i = Some x -> task_ok i x t' s' /\ forall p, p ∉ x.1 -> files (pa_disk s') !! p = files (pa_disk s) !! p) ->
  is_Some (pa_tasks s !! i) ->
  (forall j, j <> i -> sent_by j (pa_sent s') = sent_by j (pa_sent s)) -> pass_inv s'.
Proof.
  intros [Hc Hl Hp Hf Ht] Hts Hc' Hp' Hi [t0 Ht0] Hs.
  assert (exists y, L !! i = Some y) as [y Hy].
  { apply lookup_lt_is_Some_2. rewrite <- Hl. by eapply lookup_lt_Some. }
  destruct (Hi y Hy) as [Hok Hframe]. split; [done|by rewrite Hts, length_insert|done| |].
  - intros p Hout. rewrite Hframe by eauto. by apply Hf.
  - intros j x t Hx Hj. rewrite Hts in Hj. destruct (decide (j = i)) as [->|Hne].
    + rewrite list_lookup_insert_eq in Hj by (by eapply lookup_lt_Some). by simplify_eq.
    + rewrite list_lookup_insert_ne in Hj by done. eapply other_task_ok; eauto.
      intros p Hin. apply Hframe. pose proof (L_disjoint i j y x Hy Hx ltac:(done)). set_solver.
Qed.

Lemma pass_inv_step s s' : pass_inv s -> pass_step s s' -> pass_inv s'.
Proof.
  intros Hi Hs. pose proof Hi as [Hc Hl Hp Hf Ht].
  destruct Hs as [ts i p k d l Hw _|ts i k d l B op c r d' Hr Ho|ts i k d l sa c Hr|ts i k d l r Hr];
    cbn [pa_disk pa_tasks pa_permits pa_sent] in *.
  - eapply (pass_inv_update _ _ i (Running p) Hi); cbn [pa_disk pa_tasks pa_permits pa_sent]; eauto.
    + pose proof (running_insert _ _ _ (Running p) Hw) as E. cbn [is_running Nat.b2n] in E. lia.
    + intros x Hx. split; [|done]. destruct (Ht i x _ Hx Hw). by split.
  - assert (Hloc : forall x, L !! i = Some x -> local x.1 op).
    { intros x Hx. destruct (Ht i x _ Hx Hr) as [[]]. done. }
    assert (Hx0 : exists x, L !! i = Some x).
    { apply lookup_lt_is_Some_2. rewrite <- Hl. by eapply lookup_lt_Some. }
    eapply (pass_inv_update _ _ i (Running (c r)) Hi); cbn [pa_disk pa_tasks pa_permits pa_sent]; eauto.
    + destruct Hx0 as [x Hx]. pose proof (local_calm _ _ (Hloc x Hx) d Hc) as E. by rewrite Ho in E.
    + pose proof (running_insert _ _ _ (Running (c r)) Hr) as E. cbn [is_running Nat.b2n] in E. lia.
    + intros x Hx. destruct (Ht i x _ Hx Hr) as [[_ Hwk] He Hse]. cbn in *. rewrite Ho in He, Hse.
      split; [by split; [apply Hwk|..]|]. intros p Hout.
      pose proof (local_frame _ _ (Hloc x Hx) d p Hc Hout) as E. by rewrite Ho in E.
  - eapply (pass_inv_update _ _ i (Running c) Hi); cbn [pa_disk pa_tasks pa_permits pa_sent]; eauto.
    + pose proof (running_insert _ _ _ (Running c) Hr) as E. cbn [is_running Nat.b2n] in E. lia.
    + intros x Hx. destruct (Ht i x _ Hx Hr) as [Hwk He Hse]. cbn in *. split; [|done]. split; cbn [pa_disk pa_sent rest_sends]; [done..|].
      rewrite sent_by_app, decide_True, <- app_assoc by done. done.
    + intros j Hne. rewrite sent_by_app, decide_False by done. by rewrite app_nil_r.
  - eapply (pass_inv_update _ _ i Over Hi); cbn [pa_disk pa_tasks pa_permits pa_sent]; eauto.
    + pose proof (running_insert _ _ _ Over Hr) as E. cbn [is_running Nat.b2n] in E. lia.
    + intros x Hx. split; [|done]. destruct (Ht i x _ Hx Hr). by split.
Qed.
End Schedules.

(** *** The sequential pass *)

(** Every program has had its effect, nothing else has changed. *)
Definition all_done (L : list (gset bytes * fsprog unit)) (d0 d : disk) : Prop :=
  (forall p, (forall i x, L !! i = Some x -> p ∉ x.1) -> files d !! p = files d0 !! p) /\
  forall i x, L !! i = Some x -> agree x.1 d (interp x.2 d0).2.

Lemma all_done_unique L d0 d1 d2 : all_done L d0 d1 -> all_done L d0 d2 -> files d1 = files d2.
Proof.
  intros [Hf1 Ha1] [Hf2 Ha2]. apply map_eq. intros p.
  destruct (decide (Exists (fun x => p ∈ x.1) L)) as [(x & [i Hi]%list_elem_of_lookup & Hp)%Exists_exists|Hn].
  - by rewrite (Ha1 i x Hi p Hp), (Ha2 i x Hi p Hp).
  - assert (forall i x, L !! i = Some x -> p ∉ x.1) as Ho.
    { intros i x Hi Hp. apply Hn, Exists_exists. exists x. split; [|done]. by eapply list_elem_of_lookup_2. }
    by rewrite Hf1, Hf2.
Qed.

Fixpoint run_all (ps : list (fsprog unit)) (d : disk) : disk :=
  match ps with
  | [] => d
  | p :: ps => run_all ps (interp p d).2
  end.

Lemma run_all_done (L : list (gset bytes * fsprog unit)) d0 :
  (forall i x, L !! i = Some x -> within x.1 x.2) ->
  (forall i j x y, L !! i = Some x -> L !! j = Some y -> i <> j -> x.1 ## y.1) ->
  calm d0 -> all_done L d0 (run_all (snd <$> L) d0).
Proof.
  revert d0. induction L as [|[F p] L IH]; intros d0 Hw Hd Hc; [by split|].
  pose proof (interp_local _ _ (Hw 0%nat _ eq_refl)) as Hl. cbn in Hl.
  destruct (IH (interp p d0).2) as [Hf Ha]; [intros i x Hi; by apply (Hw (S i))| |by apply (local_calm _ _ Hl)|].
  { intros i j x y Hi Hj Hne. apply (Hd (S i) (S j)); [done..|lia]. }
  split.
  - intros q Hq. cbn. rewrite Hf by (intros i x Hi; by apply (Hq (S i))).
    by apply (local_frame _ _ Hl), (Hq 0%nat (F, p)).
  - intros [|i] x Hx q Hq; cbn in Hx |- *.
    + injection Hx as <-. apply Hf. intros i y Hi Hin.
      by apply (Hd 0%nat (S i) _ _ eq_refl Hi ltac:(lia) q).
    + rewrite (Ha i x Hx q Hq). apply (local_same _ _ (interp_local _ _ (Hw (S i) x Hx))); [..|done];
        [by apply (local_calm _ _ Hl)|done|].
      intros q' Hq'. apply (local_frame _ _ Hl); [done|]. intros Hin.
      by apply (Hd (S i) 0%nat _ _ Hx eq_refl ltac:(lia) q').
Qed.

Lemma deliver_all_run `{Serde} sch bg a ids d :
  (deliver_all sch bg a ids d).2 = run_all ((fun id => deliver_prog sch bg (a id) id) <$> ids) d.
Proof.
  revert d. induction ids as [|id ids IH]; intros d; [done|].
  rewrite fmap_cons. cbn [deliver_all run_all]. by rewrite interp_deliver, IH.
Qed.

(** *** Every schedule ends *)

Inductive task_step : TaskState -> TaskState -> Prop :=
| task_spawn p : task_step (Waiting p) (Running p)
| task_call B (op : io B) k r : task_step (Running (FsCall op k)) (Running (k r))
| task_send server k : task_step (Running (FsSend server k)) (Running k)
| task_end r : task_step (Running (FsDone r)) Over.

Lemma task_step_inv t t' : task_step t t' ->
  match t with
  | Waiting p => t' = Running p
  | Running (FsDone _) => t' = Over
  | Running (FsCall op k) => exists r, t' = Running (k r)
  | Running (FsSend _ k) => t' = Running k
  | Over => False
  end.
Proof. destruct 1; eauto. Qed.

Lemma task_acc t : Acc (fun y x => task_step x y) t.
Proof.
  assert (Ho : Acc (fun y x => task_step x y) Over) by (constructor; by intros y ?%task_step_inv).
  assert (Hr : forall p, Acc (fun y x => task_step x y) (Running p)).
  { induction p as [r|B op k IH|sa k IH]; constructor; intros y Hy%task_step_inv; [by subst| |by subst].
    by destruct Hy as [r ->]. }
  destruct t as [p|p|]; [|done..]. constructor. by intros y ->%task_step_inv.
Qed.

Definition tasks_step (ts ts' : list TaskState) : Prop :=
  exists i t t', ts !! i = Some t /\ task_step t t' /\ ts' = <[i := t']> ts.

Lemma tasks_acc ts : Acc (fun y x => tasks_step x y) ts.
Proof.
  induction ts as [|t ts IH]; [constructor; intros y (i & ? & ? & [=] & _)|].
  revert ts IH. induction (task_acc t) as [t _ IHt]. intros ts Hts.
  induction Hts as [ts Hts IHts]. constructor. intros y ([|i] & u & u' & Hu & Hs & ->); cbn in *.
  - injection Hu as ->. apply IHt; [done|]. by constructor.
  - apply IHts. exists i, u, u'. done.
Qed.

Lemma pass_acc s : Acc (fun y x => pass_step x y) s.
Proof.
  remember (pa_tasks s) as ts eqn:E. revert s E. induction (tasks_acc ts) as [ts _ IH]. intros s ->.
  constructor. intros s' Hs. eapply IH; [|done].
  destruct Hs as [ts i p| | |]; cbn; do 3 eexists; (split; [done|]); (split; [constructor|done]).
Qed.

(** Where nothing can happen any more all tasks have ended, if there is a permit at all. *)
Lemma pass_progress L n d0 s :
  pass_inv L n d0 s -> (0 < n)%nat -> (forall s', ~ pass_step s s') -> Forall (fun t => t = Over) (pa_tasks s).
Proof.
  intros [_ _ Hp _ _] Hn Hstuck. destruct s as [ts k d l]; cbn [pa_tasks pa_permits] in *.
  assert (Hnr : forall i p, ts !! i <> Some (Running p)).
  { intros i [r|B op c|sa c] Hi; [by eapply Hstuck, pass_end| |by eapply Hstuck, pass_send].
    destruct (op d) as [r d'] eqn:E. by eapply Hstuck, pass_call. }
  assert (running ts = 0%nat) as Hr.
  { clear -Hnr. induction ts as [|t ts IH]; [done|]. unfold running. rewrite filter_cons_False;
      [apply IH; intros i; apply (Hnr (S i))|]. intros Ht. destruct t as [|p|]; try done. by apply (Hnr 0%nat p). }
  destruct k as [|k]; [lia|]. apply Forall_lookup. intros i t Hi.
  revert t Hi. induction i as [i IH] using lt_wf_ind. intros t Hi.
  destruct t as [p|p|]; [|by apply Hnr in Hi|done]. exfalso. eapply Hstuck, pass_spawn; [done|].
  intros j Hj. assert (j < length ts)%nat as [u Hu]%lookup_lt_is_Some_2
    by (apply lookup_lt_Some in Hi; lia).
  rewrite Hu. by rewrite (IH j Hj u Hu).
Qed.

(** All tasks have ended: the effects are there, and so are the servers spoken to. *)
Lemma pass_over L n d0 s :
  pass_inv L n d0 s -> Forall (fun t => t = Over) (pa_tasks s) ->
  all_done L d0 (pa_disk s) /\ forall i x, L !! i = Some x -> sent_by i (pa_sent s) = sends x.2 d0.
Proof.
  intros [_ Hl _ Hf Ht] Hover.
  assert (Hok : forall i x, L !! i = Some x -> task_ok d0 i x Over s).
  { intros i x Hx. assert (i < length (pa_tasks s))%nat as [t Hi]%lookup_lt_is_Some_2
      by (rewrite Hl; by eapply lookup_lt_Some).
    rewrite <- (proj1 (Forall_lookup _ _) Hover i t Hi). by apply Ht. }
  split; [split; [done|]|]; intros i x Hx; destruct (Hok i x Hx) as [_ He Hs]; [done|].
  cbn in Hs. by rewrite app_nil_r in Hs.
Qed.

Lemma footprints_disjoint (a : bytes -> Attempt) ids i j id id' :
  NoDup (ids ++ (bounce_id ∘ a <$> ids)) -> ids !! i = Some id -> ids !! j = Some id' -> i <> j ->
  footprint (a id) id ## footprint (a id') id'.
Proof.
  intros (Hn & Hx & Hb)%NoDup_app Hi Hj Hne.
  assert (Hm : forall k y, ids !! k = Some y -> (bounce_id ∘ a <$> ids) !! k = Some (bounce_id (a y)))
    by (intros k y Hk; by rewrite list_lookup_fmap, Hk).
  assert (Hdiff : forall k l y z, ids !! k = Some y -> ids !! l = Some z -> y <> bounce_id (a z)).
  { intros k l y z Hk Hl E. apply (Hx y); [by eapply list_elem_of_lookup_2|].
    rewrite E. eapply list_elem_of_lookup_2, Hm, Hl. }
  apply footprint_disjoint; [|by apply (Hdiff i j)|intros E; by apply (Hdiff j i id' id Hj Hi)|].
  - intros ->. apply Hne. by eapply (NoDup_lookup ids).
  - intros E. apply Hne. eapply (NoDup_lookup (bounce_id ∘ a <$> ids)); [done|by apply Hm|].
    rewrite E. by apply Hm.
Qed.

(** With at least one permit, different messages and fresh ids for their bounces,
    the deliveries of a pass end under every schedule of their calls, never more of
    them run than there are permits, and where all have ended the spool is that of
    the deliveries run one after the other and every message has been offered to the
    servers, in the order, it is offered to alone. *)
Lemma any_schedule `{Serde} sch bg (a : bytes -> Attempt) ids n d s :
  calm d -> NoDup (ids ++ (bounce_id ∘ a <$> ids)) -> (0 < n)%nat ->
  steps pass_step (pass_start n ((fun id => deliver_prog sch bg (a id) id) <$> ids) d) s ->
  calm (pa_disk s) /\ Acc (fun s2 s1 => pass_step s1 s2) s /\
  (running (pa_tasks s) <= n)%nat /\
  ((forall s', ~ pass_step s s') ->
    Forall (fun t => t = Over) (pa_tasks s) /\
    files (pa_disk s) = files (deliver_all sch bg a ids d).2 /\
    forall i id, ids !! i = Some id ->
      sent_by i (pa_sent s) = sends (deliver_prog sch bg (a id) id) d).
Proof.
  intros Hc Hnd Hn Hs.
  set (L := (fun id => (footprint (a id) id, deliver_prog sch bg (a id) id)) <$> ids).
  assert (Hw : forall i x, L !! i = Some x -> within x.1 x.2).
  { intros i x Hx. apply list_lookup_fmap_Some in Hx as (id & -> & _). apply deliver_within. }
  assert (Hd : forall i j x y, L !! i = Some x -> L !! j = Some y -> i <> j -> x.1 ## y.1).
  { intros i j x y Hx Hy Hne. apply list_lookup_fmap_Some in Hx as (id & -> & Hi), Hy as (id' & -> & Hj).
    by eapply footprints_disjoint. }
  assert (EL : (fun id => deliver_prog sch bg (a id) id) <$> ids = snd <$> L)
    by (subst L; by rewrite <- list_fmap_compose).
  rewrite EL in Hs.
  assert (Hi : pass_inv L n d s).
  { eapply (steps_invariant pass_step); [|by apply pass_inv_start|exact Hs]. intros. by eapply pass_inv_step. }
  split; [by destruct Hi|]. split; [apply pass_acc|]. split; [pose proof (pi_permits _ _ _ _ Hi); lia|]. intros Hstuck.
  pose proof (pass_progress _ _ _ _ Hi Hn Hstuck) as Hover. split; [done|].
  pose proof (pass_over _ _ _ _ Hi Hover) as [Hdone Hsent]. split.
  - eapply all_done_unique; [done|]. rewrite deliver_all_run, EL. by apply run_all_done.
  - intros i id Hid. apply (Hsent i (footprint (a id) id, deliver_prog sch bg (a id) id)).
    subst L. by rewrite list_lookup_fmap, Hid.
Qed.

(** ** Runs of one task *)

(** A task runs to the end of its first part. *)
Lemma run_part {A} (p : fsprog A) (f : A -> fsprog unit) x d' : forall ts i n d l,
  ts !! i = Some (Running (fp_bind p f)) -> interp p d = (Ok x, d') ->
  steps pass_step (mkPass ts n d l)
    (mkPass (<[i := Running (f x)]> ts) n d' (l ++ (pair i <$> sends p d))).
Proof.
  induction p as [r|B op k IH|sa k IH]; intros ts i n d l Hi Hx.
  - cbn in Hx. injection Hx as -> ->. cbn [sends fmap list_fmap] in *. rewrite app_nil_r, list_insert_id by done.
    constructor.
  - cbn in Hx |- *. destruct (op d) as [r d1] eqn:Eo.
    eapply steps_trans; [apply steps_one; by eapply pass_call|].
    rewrite <- (list_insert_insert_eq ts i (Running (f x)) (Running (fp_bind (k r) f))). apply IH; [|done].
    apply list_lookup_insert_eq. by eapply lookup_lt_Some.
  - cbn [interp sends] in Hx |- *. eapply steps_trans; [apply steps_one; by eapply pass_send|].
    rewrite <- (list_insert_insert_eq ts i (Running (f x)) (Running (fp_bind k f))).
    change (pair i <$> sa :: sends k d) with ([(i, sa)] ++ (pair i <$> sends k d)). rewrite app_assoc.
    apply IH; [|done]. apply list_lookup_insert_eq. by eapply lookup_lt_Some.
Qed.

Lemma run_end (p : fsprog unit) ts n d l i x :
  ts !! i = Some (Running p) -> interp p d = x ->
  steps pass_step (mkPass ts n d l)
    (mkPass (<[i := Over]> ts) (S n) x.2 (l ++ (pair i <$> sends p d))).
Proof.
  revert ts d l. induction p as [r|B op k IH|sa k IH]; intros ts d l Hi Hx; cbn [interp sends] in Hx |- *.
  - subst x. rewrite fmap_nil, app_nil_r. apply steps_one. by eapply pass_end.
  - destruct (op d) as [r d1] eqn:Eo. eapply steps_trans; [apply steps_one; by eapply pass_call|].
    rewrite <- (list_insert_insert_eq ts i Over (Running (k r))). apply IH; [|done].
    apply list_lookup_insert_eq. by eapply lookup_lt_Some.
  - eapply steps_trans; [apply steps_one; by eapply pass_send|].
    rewrite <- (list_insert_insert_eq ts i Over (Running k)).
    change (pair i <$> sa :: sends k d) with ([(i, sa)] ++ (pair i <$> sends k d)). rewrite app_assoc.
    apply IH; [|done]. apply list_lookup_insert_eq. by eapply lookup_lt_Some.
Qed.

(** ** The queue is administered while tasks run *)

(** The first server [x] tries takes the message. *)
Definition accepts (x : Attempt) (q : QueuedMessage) (m : bytes) (ip : IpAddr) : Prop :=
  exists hosts host rest resp,
    @resolve (at_dns x) (recipient_domain (envelope q)) = Ok hosts /\
    mx_targets hosts = (host, ip) :: rest /\
    at_send x 0 (mkSocketAddr ip 25) host (mail_from (envelope q)) (rcpt_to (envelope q)) m = Success resp.

Section Races.
Context `{SerdeSpec} (sch : RetryScheduler) (bg : BounceGenerator).

Lemma sends_dequeue id d : sends (dequeue_prog id) d = [].
Proof.
  unfold dequeue_prog. cbn. destruct (fs_read _ d) as [[j|] d1]; [|done]. cbn.
  destruct (of_json j); [|done]. cbn. by destruct (fs_read _ d1) as [[|] ?].
Qed.

Lemma sends_update id md d : sends (update_metadata_prog id md) d = [].
Proof.
  unfold update_metadata_prog. cbn. destruct (fs_read _ d) as [[j|] d1]; [|done]. cbn.
  destruct (of_json j) as [q|]; [|done]. destruct (to_json _); [|done]. cbn. by destruct (fs_write _ _ d1).
Qed.

Lemma sends_remove_if_exists p d : sends (remove_if_exists p) d = [].
Proof. unfold remove_if_exists. cbn. destruct (files d !! p); [|done]. cbn. by destruct (fs_remove_file p d). Qed.

Lemma sends_remove id d : sends (remove_prog id) d = [].
Proof.
  unfold remove_prog, remove_if_exists. cbn.
  destruct (files d !! meta_path id); cbn; [destruct (fs_remove_file _ d) as [[] d1]|]; [|done|];
    by apply sends_remove_if_exists.
Qed.

(** A delivery runs to the moment it speaks to the server that takes the message. *)
Lemma run_to_send a id q m ip d s ts i n l :
  represents d s -> s id = Some (q, m) -> accepts a q m ip ->
  ts !! i = Some (Running (deliver_prog sch bg a id)) ->
  exists d', steps pass_step (mkPass ts n d l)
      (mkPass (<[i := Running (FsSend (mkSocketAddr ip 25) (remove_prog id))]> ts) n d' l) /\
    represents d' (upd id (Some (mark_active q, m)) s).
Proof.
  intros Hr Hq (hosts & host & rest & resp & Hres & Ht & Hs) Hi.
  destruct (update_metadata_refines d s id q m (metadata (mark_active q)) Hr Hq) as (d' & Hu & Hr').
  exists d'. split; [|done].
  assert (Hlen : (i < length ts)%nat) by (by eapply lookup_lt_Some).
  pose proof (run_part _ _ (q, m) d _ _ n d l Hi) as H1. rewrite interp_dequeue, sends_dequeue in H1.
  specialize (H1 (dequeue_refines d s id q m Hr Hq)). rewrite fmap_nil, app_nil_r in H1.
  eapply steps_trans; [exact H1|]. clear H1. cbv beta iota zeta.
  change (envelope (mark_active q)) with (envelope q). rewrite Hres, Ht. cbn [try_hosts_prog].
  change (envelope (mark_active q)) with (envelope q). rewrite Hs.
  pose proof (run_part (update_metadata_prog id (metadata (mark_active q)))
    (fun _ => FsSend (mkSocketAddr ip 25) (remove_prog id)) tt d' _ i n d l
    (list_lookup_insert_eq ts i _ Hlen)) as H2.
  rewrite interp_update_metadata, sends_update in H2. specialize (H2 Hu).
  by rewrite fmap_nil, app_nil_r, list_insert_insert_eq in H2.
Qed.

(** From there it takes the message off the queue. *)
Lemma run_after_send id ip d ts i n l :
  ts !! i = Some (Running (FsSend (mkSocketAddr ip 25) (remove_prog id))) ->
  steps pass_step (mkPass ts n d l)
    (mkPass (<[i := Over]> ts) (S n) (remove id d).2 (l ++ [(i, mkSocketAddr ip 25)])).
Proof.
  intros Hi. pose proof (run_end _ ts n d l i _ Hi eq_refl) as Hs. cbn [interp sends] in Hs.
  by rewrite interp_remove, sends_remove in Hs.
Qed.

(** An attempt that ends in a retry ends in one update of the metadata. *)
Lemma temp_fail_rescheduled a id error q md d :
  temp_outcome sch (at_now a) error (metadata q) = Rescheduled md ->
  handle_temp_fail sch bg a id error q d = update_metadata id md d.
Proof.
  unfold temp_outcome, handle_temp_fail, abandoned, next_retry_time.
  destruct (is_expired _ _ _); [done|]. simpl. destruct (_ <=? _); [done|]. by intros [= <-].
Qed.

Lemma try_hosts_rescheduled a id m targets md : forall k q d,
  targets_outcome sch (at_now a) m (answers a (envelope q) m k targets) (metadata q) = Rescheduled md ->
  try_hosts sch bg a id m k targets q d = update_metadata id md d.
Proof.
  induction targets as [|[host addr] rest IH]; intros k q d; [apply temp_fail_rescheduled|].
  rewrite answers_cons. simpl try_hosts. destruct (at_send _ _ _ _ _ _ _); [by intros [=]| |by intros [=]].
  rewrite targets_outcome_temp. apply (IH (S k) (set_metadata _ q)).
Qed.

(** Metadata whose message is gone. *)
Definition orphaned (d : disk) (id : bytes) (q : QueuedMessage) : Prop :=
  calm d /\ files d !! msg_path id = None /\ exists j, files d !! meta_path id = Some j /\ of_json j = Some q.

Lemma orphaned_write d id q j :
  calm d -> files d !! msg_path id = None -> of_json j = Some q ->
  orphaned (mkDisk (<[meta_path id := j]> (files d)) []) id q.
Proof.
  intros Hc Hm Hj. split; [done|]. cbn. split; [by rewrite lookup_insert_ne by apply meta_ne_msg|].
  exists j. by rewrite lookup_insert_eq.
Qed.

Lemma orphaned_update d id q md :
  orphaned d id q -> exists d', update_metadata id md d = (Ok tt, d') /\ orphaned d' id (set_metadata md q).
Proof.
  intros (Hc & Hm & j & Hj & Hq). unfold update_metadata, io_bind. rewrite (fs_read_calm _ j) by done.
  rewrite Hq. destruct (to_json_total (set_metadata md q)) as [j' Hj']. rewrite Hj', fs_write_calm by done.
  eexists. split; [done|]. apply orphaned_write; [done..|]. by apply of_to_json.
Qed.

(** No later attempt changes anything: the message file is not found. *)
Lemma orphaned_stays d id q a : orphaned d id q -> exists e, deliver_message sch bg a id d = (Err e, d).
Proof.
  intros (Hc & Hm & j & Hj & Hq). unfold deliver_message, dequeue, io_bind.
  rewrite (fs_read_calm _ j) by done. rewrite Hq. unfold fs_read, next_fault. rewrite Hc, Hm.
  eexists. unfold calm in Hc. by destruct d as [f sc]; cbn in Hc |- *; subst sc.
Qed.

Lemma removed_calm d s id q m :
  represents d s -> s id = Some (q, m) ->
  exists d', remove id d = (Ok tt, d') /\ calm d' /\ files d' !! msg_path id = None.
Proof.
  intros [Hc Hs] Hq. rewrite <- Hs in Hq. unfold spool_get in Hq.
  unfold remove, fs_exists, io_bind, io_ret.
  destruct (files d !! meta_path id) as [j|] eqn:Ej; [|done]. destruct (of_json j); [|done].
  destruct (files d !! msg_path id) as [m'|] eqn:Em; [|done].
  rewrite fs_remove_calm by done. cbn. rewrite lookup_delete_ne by apply meta_ne_msg. rewrite Em.
  rewrite fs_remove_calm; [|done|cbn; rewrite lookup_delete_ne by apply meta_ne_msg; by eauto].
  eexists. split; [done|]. split; [done|]. cbn. apply lookup_delete_eq.
Qed.
(** What a delivery does once the message is marked active. *)
Definition after_marking (a : Attempt) (id : bytes) (q : QueuedMessage) (m : bytes) : fsprog unit :=
  match @resolve (at_dns a) (recipient_domain (envelope q)) with
  | Err e => handle_temp_fail_prog sch bg a id e q
  | Ok hosts => try_hosts_prog sch bg a id m 0 (mx_targets hosts) q
  end.

Lemma after_marking_rescheduled a id q m md d :
  attempt_outcome sch a q m = Rescheduled md ->
  interp (after_marking a id (mark_active q) m) d = update_metadata id md d.
Proof.
  unfold attempt_outcome, after_marking. change (envelope (mark_active q)) with (envelope q).
  destruct (resolve _); intros Ho.
  - rewrite interp_try_hosts. by apply try_hosts_rescheduled.
  - rewrite interp_temp_fail. by apply temp_fail_rescheduled.
Qed.

Lemma rescheduled_deferred a q m md : attempt_outcome sch a q m = Rescheduled md -> status md = Deferred.
Proof.
  assert (Ht : forall e md0, temp_outcome sch (at_now a) e md0 = Rescheduled md -> status md = Deferred).
  { intros e md0. unfold temp_outcome. destruct (abandoned _ _ _); [done|]. by intros [= <-]. }
  unfold attempt_outcome, targets_outcome. destruct (resolve _); [|apply Ht].
  destruct (base.filter _ _) as [|[] ?]; try done; apply Ht.
Qed.

(** A delivery runs to the moment it writes the mark, with the old metadata read. *)
Lemma run_to_mark a id q m d s ts i n l :
  represents d s -> s id = Some (q, m) -> ts !! i = Some (Running (deliver_prog sch bg a id)) ->
  exists j, of_json j = Some (mark_active q) /\
    steps pass_step (mkPass ts n d l)
      (mkPass (<[i := Running (let+ _ := fp_call (fs_write (meta_path id) j) in
                               after_marking a id (mark_active q) m)]> ts) n d l).
Proof.
  intros Hr Hq Hi. assert (Hlen : (i < length ts)%nat) by (by eapply lookup_lt_Some).
  destruct (to_json_total (mark_active q)) as [j Hj]. exists j. split; [by apply of_to_json|].
  pose proof (run_part _ _ (q, m) d _ _ n d l Hi) as H1. rewrite interp_dequeue, sends_dequeue in H1.
  specialize (H1 (dequeue_refines d s id q m Hr Hq)). rewrite fmap_nil, app_nil_r in H1.
  eapply steps_trans; [exact H1|]. clear H1. cbv beta iota zeta.
  destruct Hr as [Hc Hs]. rewrite <- Hs in Hq. unfold spool_get in Hq.
  destruct (files d !! meta_path id) as [j0|] eqn:Ej; [|done]. destruct (of_json j0) as [q0|] eqn:Eq; [|done].
  destruct (files d !! msg_path id); [|done]. injection Hq as -> ->.
  eapply steps_trans; [apply steps_one; eapply (pass_call _ i); [by apply list_lookup_insert_eq|by apply fs_read_calm]|].
  rewrite list_insert_insert_eq. cbn [fp_bind]. rewrite Eq.
  change (set_metadata (metadata (mark_active q)) q) with (mark_active q). rewrite Hj. constructor.
Qed.
End Races.

(** ** Properties *)

(** A message is held while its task waits for a permit: [process_queue] has looked at the
    status before, [deliver_message] does not, and the held message is sent and
    taken off the queue. *)
Theorem held_message_sent `{SerdeSpec} sch bg a id q m ip d s :
  represents d s -> s id = Some (q, m) -> accepts a q m ip ->
  exists d1 q1 d2,
    web_hold id d = (Ok tt, d1) /\ spool_get d1 id = Some (q1, m) /\ status (metadata q1) = Held /\
    steps pass_step (mkPass [Waiting (deliver_prog sch bg a id)] 1 d1 [])
      (mkPass [Over] 1 d2 [(0%nat, mkSocketAddr ip 25)]) /\
    spool_get d2 id = None.
Proof.
  intros Hr Hq Ha.
  destruct (edit_metadata_refines (set_status Held) id q m d s Hr Hq) as (d1 & H1 & Hr1).
  destruct (run_to_send sch bg a id (set_metadata (set_status Held (metadata q)) q) m ip d1 _
              [Running (deliver_prog sch bg a id)] 0 0 [] Hr1 (upd_same _ _ _) Ha eq_refl) as (d2 & Hs & Hr2).
  destruct (remove_refines d2 _ id _ _ Hr2 (upd_same _ _ _)) as (d3 & Hrem & [_ Hr3]).
  exists d1. eexists. exists d3. split; [exact H1|]. destruct Hr1 as [_ Hg].
  split; [rewrite Hg; apply upd_same|]. split; [done|]. split; [|rewrite Hr3; apply upd_same].
  eapply steps_trans; [apply steps_one, (pass_spawn _ 0); [done|lia]|].
  eapply steps_trans; [exact Hs|].
  pose proof (run_after_send id ip d2
    [Running (FsSend (mkSocketAddr ip 25) (remove_prog id))] 0 0 [] eq_refl) as He.
  rewrite Hrem in He. exact He.
Qed.

(** The server of the fixture takes the message. *)
Lemma fixture_accepts :
  accepts (fixture_attempt (Success (bs "250"))) fixture_message (bs "x") (ipv4 192 0 2 1).
Proof. repeat eexists; reflexivity. Qed.

Lemma held_message_sent_witness :
  exists d1 q1 d2,
    web_hold fixture_id fixture_disk = (Ok tt, d1) /\ spool_get d1 fixture_id = Some (q1, bs "x") /\
    status (metadata q1) = Held /\
    steps pass_step
      (mkPass [Waiting (deliver_prog fixture_scheduler (BounceGenerator_new None true)
                          (fixture_attempt (Success (bs "250"))) fixture_id)] 1 d1 [])
      (mkPass [Over] 1 d2 [(0%nat, mkSocketAddr (ipv4 192 0 2 1) 25)]) /\
    spool_get d2 fixture_id = None.
Proof.
  apply (held_message_sent fixture_scheduler (BounceGenerator_new None true)
           (fixture_attempt (Success (bs "250"))) fixture_id fixture_message (bs "x") (ipv4 192 0 2 1)
           fixture_disk fixture_store fixture_disk_represents (upd_same _ _ _) fixture_accepts).
Defined.

(** A message whose delivery is in progress is put back by [retry]: it is pending and due
    again, the next scan starts a second delivery, and the message is sent twice. *)
Theorem retried_message_sent_twice `{SerdeSpec} sch bg a b id q m ip ip' d s now :
  represents d s -> s id = Some (q, m) -> accepts a q m ip -> accepts b q m ip' ->
  exists p d1 d2 q2 d3,
    steps pass_step (pass_start 2 [deliver_prog sch bg a id] d) (mkPass [Running p] 1 d1 []) /\
    web_retry now id d1 = (Ok tt, d2) /\ spool_get d2 id = Some (q2, m) /\ is_due now q2 = true /\
    steps pass_step (mkPass [Running p; Waiting (deliver_prog sch bg b id)] 1 d2 [])
      (mkPass [Over; Over] 2 d3 [(0%nat, mkSocketAddr ip 25); (1%nat, mkSocketAddr ip' 25)]).
Proof.
  intros Hr Hq Ha Hb.
  destruct (run_to_send sch bg a id q m ip d s [Running (deliver_prog sch bg a id)] 0 1 [] Hr Hq Ha eq_refl)
    as (d1 & H1 & Hr1).
  destruct (edit_metadata_refines (retry_now now) id _ m d1 _ Hr1 (upd_same _ _ _)) as (d2 & H2 & Hr2).
  destruct (run_to_send sch bg b id (set_metadata (retry_now now (metadata (mark_active q))) (mark_active q)) m ip' d2 _
    [Running (FsSend (mkSocketAddr ip 25) (remove_prog id)); Running (deliver_prog sch bg b id)] 1 0 []
    Hr2 (upd_same _ _ _) Hb eq_refl) as (d3 & H3 & _).
  pose proof (run_after_send id ip d3 [Running (FsSend (mkSocketAddr ip 25) (remove_prog id));
    Running (FsSend (mkSocketAddr ip' 25) (remove_prog id))] 0 0 [] eq_refl) as H4.
  pose proof (run_after_send id ip' (remove id d3).2 [Over;
    Running (FsSend (mkSocketAddr ip' 25) (remove_prog id))] 1 1 [(0%nat, mkSocketAddr ip 25)] eq_refl) as H5.
  eexists _, d1, d2, _, _. split.
  { eapply steps_trans; [apply steps_one, (pass_spawn _ 0); [done|lia]|exact H1]. }
  split; [exact H2|]. destruct Hr2 as [_ Hg]. split; [rewrite Hg; apply upd_same|].
  split; [cbn; by rewrite Z.ltb_irrefl|].
  eapply steps_trans; [apply steps_one, (pass_spawn _ 1); [done|by intros [|[]] ?; [|lia..]]|].
  eapply steps_trans; [exact H3|]. eapply steps_trans; [exact H4|exact H5].
Qed.

Lemma retried_message_sent_twice_witness :
  exists p d1 d2 q2 d3,
    let prog := deliver_prog fixture_scheduler (BounceGenerator_new None true)
                  (fixture_attempt (Success (bs "250"))) fixture_id in
    steps pass_step (pass_start 2 [prog] fixture_disk) (mkPass [Running p] 1 d1 []) /\
    web_retry 9 fixture_id d1 = (Ok tt, d2) /\ spool_get d2 fixture_id = Some (q2, bs "x") /\ is_due 9 q2 = true /\
    steps pass_step (mkPass [Running p; Waiting prog] 1 d2 [])
      (mkPass [Over; Over] 2 d3 [(0%nat, mkSocketAddr (ipv4 192 0 2 1) 25); (1%nat, mkSocketAddr (ipv4 192 0 2 1) 25)]).
Proof.
  apply (retried_message_sent_twice fixture_scheduler (BounceGenerator_new None true)
           (fixture_attempt (Success (bs "250"))) (fixture_attempt (Success (bs "250"))) fixture_id
           fixture_message (bs "x") (ipv4 192 0 2 1) (ipv4 192 0 2 1) fixture_disk fixture_store 9
           fixture_disk_represents (upd_same _ _ _) fixture_accepts fixture_accepts).
Defined.

(** A message is deleted between the reading and the writing of its metadata by a
    delivery that fails temporarily: its metadata stays behind, due again for ever,
    without the message, and no attempt ever gets beyond reading it. *)
Theorem deleted_message_orphaned `{SerdeSpec} sch bg a id q m md d s :
  represents d s -> s id = Some (q, m) -> attempt_outcome sch a q m = Rescheduled md ->
  exists d' q' l,
    steps pass_step (mkPass [Running (deliver_prog sch bg a id); Running (remove_prog id)] 0 d [])
      (mkPass [Over; Over] 2 d' l) /\
    orphaned d' id q' /\ (forall t, next_retry md <= t -> is_due t q' = true) /\
    forall b, exists e, deliver_message sch bg b id d' = (Err e, d').
Proof.
  intros Hr Hq Ho.
  destruct (run_to_mark sch bg a id q m d s
    [Running (deliver_prog sch bg a id); Running (remove_prog id)] 0 0 [] Hr Hq eq_refl) as (j & Hj & H1).
  destruct (removed_calm d s id q m Hr Hq) as (d1 & H2 & Hc1 & Hm1).
  pose proof (orphaned_write d1 id (mark_active q) j Hc1 Hm1 Hj) as Horph.
  destruct (orphaned_update _ id _ md Horph) as (d3 & H3 & Horph').
  eexists d3, _, _. split; [|split; [exact Horph'|split]].
  - eapply steps_trans; [exact H1|]. eapply steps_trans.
    { eapply (run_end _ _ 0 d [] 1 (Ok tt, d1)); [done|]. by rewrite interp_remove. }
    eapply steps_trans; [apply steps_one; eapply (pass_call _ 0); [done|exact (fs_write_calm _ j d1 Hc1)]|].
    pose proof (run_end (after_marking sch bg a id (mark_active q) m) [Running (after_marking sch bg a id (mark_active q) m); Over]
      1 (mkDisk (<[meta_path id := j]> (files d1)) []) ([] ++ (pair 1%nat <$> sends (remove_prog id) d)) 0 _ eq_refl
      (after_marking_rescheduled sch bg a id q m md _ Ho)) as H4.
    rewrite H3 in H4. exact H4.
  - intros t Ht. unfold is_due. cbn [set_metadata metadata]. rewrite (rescheduled_deferred _ _ _ _ _ Ho). by apply negb_true_iff, Z.ltb_ge.
  - intros b. by eapply orphaned_stays.
Qed.

Lemma deleted_message_orphaned_witness :
  exists d' q' l,
    steps pass_step (mkPass [Running (deliver_prog fixture_scheduler (BounceGenerator_new None true)
                                        (fixture_attempt (TempFail (bs "4"))) fixture_id);
                             Running (remove_prog fixture_id)] 0 fixture_disk [])
      (mkPass [Over; Over] 2 d' l) /\
    orphaned d' fixture_id q' /\ (forall t, 1010 <= t -> is_due t q' = true) /\
    forall b, exists e, deliver_message fixture_scheduler (BounceGenerator_new None true) b fixture_id d' = (Err e, d').
Proof.
  apply (deleted_message_orphaned fixture_scheduler (BounceGenerator_new None true)
           (fixture_attempt (TempFail (bs "4"))) fixture_id fixture_message (bs "x")
           (mkMetadata 0 1010 1 (Some (bs "4")) Deferred 1) fixture_disk fixture_store
           fixture_disk_represents (upd_same _ _ _)).
  reflexivity.
Defined.
