(* ===== verification/Balancer.v ===== *)
(** * Backends and load balancers: [serverwall-core/src/types.rs],
      [serverwall-core/src/balancer/]

    A pool is a list of backends; a balancer answers with a position in the pool,
    as the code answers with a reference to one of its elements. *)

From stdpp Require Import sorting.
From S2P Require Import Prelude RustStr Net.
Open Scope Z_scope.

(** ** [types.rs] *)

(** The atomic fields hold their current values; counters are 64-bit. *)
Record Backend := mkBackend {
  b_id : bytes;
  b_tag : bytes;
  b_address : SocketAddr;
  b_weight : Z;
  b_tls : bool;
  b_tls_verify : bool;
  b_tls_sni : option bytes;
  b_max_connections : option Z;
  b_enabled : bool;
  b_active_connections : Z;
  b_total_connections : Z;
  b_healthy : bool;
}.

Definition hex_lower2 (b : Z) : bytes := ascii_lower <$> show_hex 2 b [].

(** [uuid::Uuid::new_v5] in the OID name space: the 16 bytes of the identifier. *)
Class UuidV5 := { new_v5_oid : bytes -> list Z }.

Definition Backend_new `{UuidV5} (id : bytes) (address : SocketAddr) (weight : Z) (tls : bool)
  : Backend :=
  let tag_input := id ++ bs "@" ++ show_socket_addr address in
  let tag := flat_map hex_lower2 (take 3 (new_v5_oid tag_input)) in
  mkBackend id tag address weight tls false None None true 0 0 true.

Definition is_available (b : Backend) : bool :=
  b_enabled b && b_healthy b &&
  match b_max_connections b with
  | Some max => b_active_connections b <? max
  | None => true
  end.

Definition active_count (b : Backend) : Z := b_active_connections b.

Definition set_connections (active total : Z) (b : Backend) : Backend :=
  mkBackend (b_id b) (b_tag b) (b_address b) (b_weight b) (b_tls b) (b_tls_verify b) (b_tls_sni b)
    (b_max_connections b) (b_enabled b) active total (b_healthy b).
Definition set_enabled (v : bool) (b : Backend) : Backend :=
  mkBackend (b_id b) (b_tag b) (b_address b) (b_weight b) (b_tls b) (b_tls_verify b) (b_tls_sni b)
    (b_max_connections b) v (b_active_connections b) (b_total_connections b) (b_healthy b).
Definition set_healthy (v : bool) (b : Backend) : Backend :=
  mkBackend (b_id b) (b_tag b) (b_address b) (b_weight b) (b_tls b) (b_tls_verify b) (b_tls_sni b)
    (b_max_connections b) (b_enabled b) (b_active_connections b) (b_total_connections b) v.

(** [ConnectionGuard::new] and its [drop], on the counters of the backend. *)
Definition guard_new (b : Backend) : Backend :=
  set_connections (wrapping_add 64 (b_active_connections b) 1)
    (wrapping_add 64 (b_total_connections b) 1) b.
Definition guard_drop (b : Backend) : Backend :=
  set_connections (wrapping_sub 64 (b_active_connections b) 1) (b_total_connections b) b.

(** ** [balancer/mod.rs]: the trait *)

Class LoadBalancer (S : Type) := {
  lb_select : S -> list Backend -> option IpAddr -> option nat * S;
}.

(** What the trait promises its clients: it answers only with available backends,
    and always answers when there is one. *)
Class LoadBalancerSpec (S : Type) `{LoadBalancer S} := {
  lb_sound s pool ip i s' :
    lb_select s pool ip = (Some i, s') ->
    exists b, pool !! i = Some b /\ is_available b = true;
  lb_complete s pool ip b :
    b ∈ pool -> is_available b = true -> exists i s', lb_select s pool ip = (Some i, s');
}.

(** The positions of the available backends. *)
Definition available (pool : list Backend) : list nat :=
  filter_map (fun ib => if is_available ib.2 then Some ib.1 else None)
    (imap (fun i b => (i, b)) pool).

(** ** [round_robin.rs] *)

Record RoundRobin := mkRoundRobin { counter : Z }.
Definition RoundRobin_new : RoundRobin := mkRoundRobin 0.

Definition rr_select (s : RoundRobin) (pool : list Backend) (_ : option IpAddr)
  : option nat * RoundRobin :=
  let avail := available pool in
  if is_nil avail then (None, s)
  else
    let idx := Z.to_nat (counter s mod Z.of_nat (length avail)) in
    (avail !! idx, mkRoundRobin (wrapping_add 64 (counter s) 1)).

#[export] Instance RoundRobin_balancer : LoadBalancer RoundRobin := {| lb_select := rr_select |}.

(** ** [least_conn.rs] *)

Inductive LeastConnections := mkLeastConnections.

(** [Iterator::min_by_key]: the first of the minimal elements. *)
Fixpoint min_by_active (l : list (nat * Backend)) : option (nat * Backend) :=
  match l with
  | [] => None
  | x :: l =>
      match min_by_active l with
      | Some y => if active_count x.2 <=? active_count y.2 then Some x else Some y
      | None => Some x
      end
  end.

Definition lc_select (s : LeastConnections) (pool : list Backend) (_ : option IpAddr)
  : option nat * LeastConnections :=
  (fst <$> min_by_active
     (base.filter (fun ib => is_available ib.2 = true) (imap (fun i b => (i, b)) pool)), s).

#[export] Instance LeastConnections_balancer : LoadBalancer LeastConnections :=
  {| lb_select := lc_select |}.

(** ** [ip_hash.rs] *)

Inductive IpHash := mkIpHash.

(** The [u64] the standard library's [DefaultHasher] gives an address; its
    documentation leaves the algorithm unspecified. *)
Class DefaultHasher := { hash_ip : IpAddr -> Z }.

Definition ih_select `{DefaultHasher} (s : IpHash) (pool : list Backend) (client_ip : option IpAddr)
  : option nat * IpHash :=
  let avail := available pool in
  if is_nil avail then (None, s)
  else
    let ip := unwrap_or LOCALHOST client_ip in
    let idx := Z.to_nat ((hash_ip ip mod 2 ^ 64) mod Z.of_nat (length avail)) in
    (avail !! idx, s).

#[export] Instance IpHash_balancer `{DefaultHasher} : LoadBalancer IpHash :=
  {| lb_select := ih_select |}.

(** ** The positions of the available backends *)

Lemma elem_of_imap_pair {A} (l : list A) i x : (i, x) ∈ imap (fun i b => (i, b)) l <-> l !! i = Some x.
Proof.
  rewrite elem_of_lookup_imap. split.
  - by intros (j & y & [= -> ->] & ?).
  - intros ?. by exists i, x.
Qed.

Lemma elem_of_available pool i :
  i ∈ available pool <-> exists b, pool !! i = Some b /\ is_available b = true.
Proof.
  unfold available. rewrite elem_of_filter_map. split.
  - intros ([j b] & Hin & Hf). simpl in Hf. destruct (is_available b) eqn:E; [|done].
    injection Hf as ->. apply elem_of_imap_pair in Hin. eauto.
  - intros (b & Hb & Ha). exists (i, b). rewrite elem_of_imap_pair. simpl. by rewrite Ha.
Qed.

Lemma available_nil pool b : b ∈ pool -> is_available b = true -> available pool <> [].
Proof.
  intros [i Hi]%list_elem_of_lookup_1 Ha Hnil.
  assert (i ∈ available pool) as Hin by (apply elem_of_available; eauto).
  rewrite Hnil in Hin. by apply not_elem_of_nil in Hin.
Qed.

(** An index computed modulo the length is in range. *)
Lemma lookup_mod {A} (l : list A) z : l <> [] -> exists x, l !! Z.to_nat (z mod Z.of_nat (length l)) = Some x.
Proof.
  intros Hne. apply lookup_lt_is_Some.
  assert (0 < Z.of_nat (length l)) by (destruct l; [done|simpl; lia]).
  pose proof (Z.mod_pos_bound z (Z.of_nat (length l))). lia.
Qed.

Lemma available_mod_complete pool b z :
  b ∈ pool -> is_available b = true ->
  is_nil (available pool) = false /\
  exists i, available pool !! Z.to_nat (z mod Z.of_nat (length (available pool))) = Some i.
Proof.
  intros Hin Ha. pose proof (available_nil pool b Hin Ha) as Hne.
  split; [by apply is_nil_false|by apply lookup_mod].
Qed.

Lemma available_lookup pool k i :
  available pool !! k = Some i -> exists b, pool !! i = Some b /\ is_available b = true.
Proof. intros ?%list_elem_of_lookup_2. by apply elem_of_available. Qed.

#[export] Instance RoundRobin_spec : LoadBalancerSpec RoundRobin.
Proof.
  split; simpl; unfold rr_select.
  - intros s pool ip i s'. destruct (is_nil _); [done|]. intros [= Hi _].
    by eapply available_lookup.
  - intros s pool ip b Hin Ha.
    destruct (available_mod_complete pool b (counter s) Hin Ha) as [-> [i ->]]. eauto.
Qed.

#[export] Instance IpHash_spec `{DefaultHasher} : LoadBalancerSpec IpHash.
Proof.
  split; simpl; unfold ih_select.
  - intros s pool ip i s'. destruct (is_nil _); [done|]. intros [= Hi].
    by eapply available_lookup.
  - intros s pool ip b Hin Ha.
    destruct (available_mod_complete pool b (hash_ip (unwrap_or LOCALHOST ip) mod 2 ^ 64) Hin Ha)
      as [-> [i ->]]. eauto.
Qed.

Lemma min_by_active_spec l x :
  min_by_active l = Some x ->
  exists l1 l2, l = l1 ++ x :: l2 /\
    Forall (fun y => active_count x.2 < active_count y.2) l1 /\
    Forall (fun y => active_count x.2 <= active_count y.2) l2.
Proof.
  revert x. induction l as [|y l IH]; intros x; simpl; [done|].
  destruct (min_by_active l) as [z|] eqn:E.
  - destruct (IH _ eq_refl) as (l1 & l2 & -> & H1 & H2).
    destruct (_ <=? _) eqn:Hle; intros [= <-].
    + apply Z.leb_le in Hle. exists [], (l1 ++ z :: l2). split; [done|]. split; [constructor|].
      apply Forall_app. split; [|constructor; [done|]].
      all: eapply Forall_impl; [done|]; intros w Hw; simpl in Hw; lia.
    + apply Z.leb_gt in Hle. exists (y :: l1), l2. split; [done|]. split; [|done].
      constructor; [lia|done].
  - intros [= <-]. exists [], l. split; [done|]. split; [constructor|].
    destruct l as [|w l]; [constructor|]. exfalso. simpl in E.
    destruct (min_by_active l); [|done]. by destruct (_ <=? _).
Qed.

Lemma min_by_active_Some l x : x ∈ l -> is_Some (min_by_active l).
Proof.
  destruct l as [|y l]; [by intros ?%elem_of_nil|]. intros _. simpl.
  destruct (min_by_active l); [destruct (_ <=? _)|]; eauto.
Qed.

Lemma lc_select_Some s pool ip i s' :
  lc_select s pool ip = (Some i, s') ->
  exists b, min_by_active
     (base.filter (fun ib => is_available ib.2 = true) (imap (fun i b => (i, b)) pool))
    = Some (i, b) /\ pool !! i = Some b /\ is_available b = true.
Proof.
  unfold lc_select. intros [= Hm]. apply fmap_Some in Hm as ([j b] & Hm & ->).
  exists b. split; [done|]. apply min_by_active_spec in Hm as (l1 & l2 & Heq & _).
  assert ((j, b) ∈ base.filter (fun ib => is_available ib.2 = true)
    (imap (fun i b => (i, b)) pool)) as Hin by (rewrite Heq; set_solver).
  apply list_elem_of_filter in Hin as [Ha Hin]. by apply elem_of_imap_pair in Hin.
Qed.

#[export] Instance LeastConnections_spec : LoadBalancerSpec LeastConnections.
Proof.
  split; simpl.
  - intros s pool ip i s' (b & _ & Hb)%lc_select_Some. by exists b.
  - intros s pool ip b [i Hi]%list_elem_of_lookup_1 Ha. unfold lc_select.
    destruct (min_by_active_Some (base.filter (fun ib => is_available ib.2 = true)
      (imap (fun i b => (i, b)) pool)) (i, b)) as [x ->]; [|simpl; eauto].
    apply list_elem_of_filter. by rewrite elem_of_imap_pair.
Qed.

(** ** Fairness of the round robin *)

(** How often [x] occurs in [l]. *)
Definition occurrences {A} `{EqDecision A} (x : A) (l : list A) : nat :=
  length (base.filter (fun y => y = x) l).

Lemma occurrences_app {A} `{EqDecision A} (x : A) l1 l2 :
  occurrences x (l1 ++ l2) = (occurrences x l1 + occurrences x l2)%nat.
Proof. unfold occurrences. by rewrite filter_app, length_app. Qed.

Lemma occurrences_perm {A} `{EqDecision A} (x : A) l1 l2 :
  l1 ≡ₚ l2 -> occurrences x l1 = occurrences x l2.
Proof. unfold occurrences. by intros ->. Qed.

Lemma occurrences_nodup {A} `{EqDecision A} (x : A) l :
  NoDup l -> x ∈ l -> occurrences x l = 1%nat.
Proof.
  intros Hnd (l1 & l2 & ->)%list_elem_of_split.
  apply NoDup_app in Hnd as (_ & H1 & [H2 _]%NoDup_cons).
  assert (Hz : forall l, x ∉ l -> occurrences x l = 0%nat).
  { intros l Hl. unfold occurrences. induction l as [|y l IH]; [done|].
    apply not_elem_of_cons in Hl as [Hne Hl]. rewrite filter_cons_False by done. by apply IH. }
  rewrite occurrences_app. unfold occurrences at 2. rewrite filter_cons_True by done. simpl.
  change (length (base.filter (fun y => y = x) l2)) with (occurrences x l2).
  rewrite !Hz; [done|done|]. intros Hin. apply (H1 x Hin). left.
Qed.

Lemma available_nodup pool : NoDup (available pool).
Proof.
  assert (Hi : NoDup (fst <$> imap (fun i b => (i, b)) pool)).
  { rewrite fmap_imap. apply NoDup_alt. intros i j x. rewrite !list_lookup_imap.
    destruct (pool !! i), (pool !! j); simpl; congruence. }
  unfold available. revert Hi. generalize (imap (fun i b => (i, b)) pool).
  induction l as [|[i b] l IH]; simpl; [constructor|].
  intros [Hn Hnd]%NoDup_cons. destruct (is_available b); [|by apply IH].
  constructor; [|by apply IH]. intros ([j c] & Hin & Hf)%elem_of_filter_map. simpl in Hf.
  destruct (is_available c); [|done]. injection Hf as ->.
  apply Hn, list_elem_of_fmap. by exists (i, c).
Qed.

(** [n] consecutive numbers have each residue once. *)
Lemma seq_mod_perm c n : (fun j => j mod n)%nat <$> seq c n ≡ₚ seq 0 n.
Proof.
  destruct n as [|n]; [done|]. set (m := S n).
  apply submseteq_length_Permutation; [|by rewrite length_fmap, !length_seq].
  apply NoDup_submseteq.
  - apply NoDup_fmap_2_strong; [|apply NoDup_seq].
    intros x y Hx%elem_of_seq Hy%elem_of_seq Heq.
    pose proof (Nat.div_mod_eq x m). pose proof (Nat.div_mod_eq y m).
    assert ((x / m = y / m)%nat \/ (x / m < y / m)%nat \/ (y / m < x / m)%nat) as [?|[?|?]] by lia;
      [lia|nia|nia].
  - intros x (j & -> & Hj)%list_elem_of_fmap. apply elem_of_seq.
    pose proof (Nat.mod_upper_bound j m). lia.
Qed.

(** The answers of consecutive selections, on the pools they are made from. *)
Fixpoint rr_run (s : RoundRobin) (pools : list (list Backend)) : list (option nat) :=
  match pools with
  | [] => []
  | pool :: pools => let '(r, s) := rr_select s pool None in r :: rr_run s pools
  end.

Lemma rr_run_picks av pools : forall c,
  av <> [] -> Forall (fun p => available p = av) pools ->
  Z.of_nat (c + length pools) <= 2 ^ 64 ->
  rr_run (mkRoundRobin (Z.of_nat c)) pools =
  (fun j => av !! (j mod length av)%nat) <$> seq c (length pools).
Proof.
  induction pools as [|pool pools IH]; intros c Hne Hav Hc; [done|].
  apply Forall_cons in Hav as [Hp Hav]. simpl length in *. simpl. unfold rr_select. rewrite Hp.
  rewrite (proj2 (is_nil_false av) Hne). simpl. f_equal.
  - f_equal. rewrite <- Nat2Z.inj_mod. apply Nat2Z.id.
  - destruct pools as [|p2 pools]; [done|].
    rewrite <- IH; [|done|done|lia]. do 2 f_equal.
    unfold wrapping_add. simpl length in Hc. rewrite Z.mod_small; lia.
Qed.

Lemma lookup_seq_all {A} (l : list A) : (fun j => l !! j) <$> seq 0 (length l) = Some <$> l.
Proof.
  apply list_eq. intros i. rewrite !list_lookup_fmap.
  destruct (decide (i < length l)%nat) as [Hi|Hi].
  - rewrite lookup_seq_lt by done. simpl. by destruct (lookup_lt_is_Some_2 l i Hi) as [x ->].
  - rewrite lookup_seq_ge by lia. by rewrite (lookup_ge_None_2 l i) by lia.
Qed.

Lemma fair_picks (av : list nat) k c i :
  NoDup av -> i ∈ av ->
  occurrences (Some i) ((fun j => av !! (j mod length av)%nat) <$> seq c (k * length av)) = k.
Proof.
  intros Hnd Hi. revert c. induction k as [|k IH]; intros c; [done|].
  simpl. rewrite seq_app, fmap_app, occurrences_app, IH.
  assert (Hblock : (fun j => av !! (j mod length av)%nat) <$> seq c (length av) ≡ₚ Some <$> av).
  { rewrite <- lookup_seq_all, <- (seq_mod_perm c), <- list_fmap_compose. done. }
  rewrite (occurrences_perm _ _ _ Hblock), occurrences_nodup; [lia| |].
  - by apply NoDup_fmap_2; [apply _|].
  - apply list_elem_of_fmap. by exists i.
Qed.

(** ** Connection counting under concurrency

    A connection first selects a backend (which reads the counters), then creates
    its guard (which counts it), and drops the guard when it ends; between the
    first two steps other connections may run.  [pending] holds the positions
    selected but not yet counted, [guards] those of the live guards. *)

Record PoolState (S : Type) := mkPool {
  p_balancer : S;
  p_backends : list Backend;
  p_pending : list nat;
  p_guards : list nat;
  p_ended : list nat;
}.
Arguments mkPool {S}.
Arguments p_balancer {S}.
Arguments p_backends {S}.
Arguments p_pending {S}.
Arguments p_guards {S}.
Arguments p_ended {S}.

Section PoolSteps.
Context {S : Type} `{LoadBalancerSpec S} (threads : nat).

(** [threads] bounds the selections in flight; the live guards fit the memory. *)
Inductive pool_step (p : PoolState S) : PoolState S -> Prop :=
| pool_select ip i s' :
    lb_select (p_balancer p) (p_backends p) ip = (Some i, s') ->
    (length (p_pending p) < threads)%nat ->
    pool_step p (mkPool s' (p_backends p) (i :: p_pending p) (p_guards p) (p_ended p))
| pool_select_none ip s' :
    lb_select (p_balancer p) (p_backends p) ip = (None, s') ->
    pool_step p (mkPool s' (p_backends p) (p_pending p) (p_guards p) (p_ended p))
| pool_count i pre post :
    p_pending p = pre ++ i :: post ->
    Z.of_nat (length (p_guards p)) < 2 ^ 64 - 1 ->
    pool_step p (mkPool (p_balancer p) (alter guard_new i (p_backends p)) (pre ++ post)
                   (i :: p_guards p) (p_ended p))
| pool_drop i pre post :
    p_guards p = pre ++ i :: post ->
    pool_step p (mkPool (p_balancer p) (alter guard_drop i (p_backends p)) (p_pending p)
                   (pre ++ post) (i :: p_ended p))
| pool_health i v :
    pool_step p (mkPool (p_balancer p) (alter (set_healthy v) i (p_backends p)) (p_pending p)
                   (p_guards p) (p_ended p))
| pool_enable i v :
    pool_step p (mkPool (p_balancer p) (alter (set_enabled v) i (p_backends p)) (p_pending p)
                   (p_guards p) (p_ended p)).

(** The counters are those of the guards, and the limit is exceeded by at most the
    other selections in flight. *)
Definition backend_inv (p : PoolState S) (i : nat) (b : Backend) : Prop :=
  b_active_connections b = Z.of_nat (occurrences i (p_guards p)) /\
  b_total_connections b =
    Z.of_nat (occurrences i (p_guards p) + occurrences i (p_ended p)) mod 2 ^ 64 /\
  forall max, b_max_connections b = Some max ->
    Z.of_nat (occurrences i (p_guards p) + occurrences i (p_pending p))
      <= Z.max 0 (max + Z.of_nat threads - 1).

Definition pool_inv (p : PoolState S) : Prop :=
  Z.of_nat (length (p_guards p)) <= 2 ^ 64 - 1 /\
  forall i b, p_backends p !! i = Some b -> backend_inv p i b.

Lemma alter_inv f i j (l : list Backend) b :
  alter f i l !! j = Some b ->
  exists b0, l !! j = Some b0 /\ b = (if decide (i = j) then f b0 else b0).
Proof.
  rewrite list_lookup_alter. destruct (decide (i = j)) as [->|Hne].
  - intros (b0 & -> & ?)%fmap_Some. eauto.
  - eauto.
Qed.

Lemma pool_inv_flag (f : Backend -> Backend) i p :
  (forall b, b_active_connections (f b) = b_active_connections b /\
     b_total_connections (f b) = b_total_connections b /\
     b_max_connections (f b) = b_max_connections b) ->
  pool_inv p ->
  pool_inv (mkPool (p_balancer p) (alter f i (p_backends p)) (p_pending p) (p_guards p) (p_ended p)).
Proof.
  intros Hf [Hg Hi]. split; [done|]. intros j b (b0 & Hb & ->)%alter_inv.
  specialize (Hi _ _ Hb). destruct (decide (i = j)); [|done].
  unfold backend_inv. simpl. by destruct (Hf b0) as (-> & -> & ->).
Qed.

Lemma occurrences_cons (i j : nat) l :
  occurrences i (j :: l) = ((if decide (j = i) then 1 else 0) + occurrences i l)%nat.
Proof. unfold occurrences. rewrite filter_cons. by destruct (decide _). Qed.

Lemma occurrences_mid (i j : nat) pre post :
  occurrences i (pre ++ j :: post) =
  ((if decide (j = i) then 1 else 0) + occurrences i (pre ++ post))%nat.
Proof. rewrite !occurrences_app, occurrences_cons. lia. Qed.

Lemma occurrences_le (i : nat) l : (occurrences i l <= length l)%nat.
Proof. unfold occurrences. apply length_filter. Qed.

Lemma pool_select_inv p ip i s' :
  lb_select (p_balancer p) (p_backends p) ip = (Some i, s') ->
  (length (p_pending p) < threads)%nat -> pool_inv p ->
  pool_inv (mkPool s' (p_backends p) (i :: p_pending p) (p_guards p) (p_ended p)).
Proof.
  intros Hsel Hlen [Hg Hi]. split; [done|]. intros j b Hb. simpl in Hb.
  destruct (Hi _ _ Hb) as (Ha & Ht & Hm). split; [done|]. split; [done|].
  intros max Hmax. simpl. rewrite occurrences_cons.
  destruct (decide (i = j)) as [->|]; [|by apply Hm].
  destruct (lb_sound _ _ _ _ _ Hsel) as (b' & Hb' & Hav). simplify_eq.
  unfold is_available in Hav. rewrite Hmax in Hav. apply andb_true_iff in Hav as [_ Hlt].
  apply Z.ltb_lt in Hlt. rewrite Ha in Hlt.
  pose proof (occurrences_le j (p_pending p)). lia.
Qed.

Lemma pool_count_inv p i pre post :
  p_pending p = pre ++ i :: post -> Z.of_nat (length (p_guards p)) < 2 ^ 64 - 1 -> pool_inv p ->
  pool_inv (mkPool (p_balancer p) (alter guard_new i (p_backends p)) (pre ++ post)
              (i :: p_guards p) (p_ended p)).
Proof.
  intros Hpend Hmem [Hg Hi]. split; [simpl; lia|]. intros j b (b0 & Hb & ->)%alter_inv.
  destruct (Hi _ _ Hb) as (Ha & Ht & Hm). rewrite Hpend, occurrences_mid in Hm.
  pose proof (occurrences_le j (p_guards p)).
  unfold backend_inv. simpl. rewrite occurrences_cons.
  destruct (decide (i = j)) as [->|]; simpl in *;
    [|split_and!; [done..|intros max Hmax; specialize (Hm max Hmax); lia]].
  rewrite Ha, Ht. unfold wrapping_add.
  split; [rewrite Z.mod_small; lia|]. split; [|intros max Hmax; specialize (Hm max Hmax); lia].
  rewrite Zplus_mod_idemp_l. f_equal. lia.
Qed.

Lemma pool_drop_inv p i pre post :
  p_guards p = pre ++ i :: post -> pool_inv p ->
  pool_inv (mkPool (p_balancer p) (alter guard_drop i (p_backends p)) (p_pending p)
              (pre ++ post) (i :: p_ended p)).
Proof.
  intros Hgu [Hg Hi]. rewrite Hgu, length_app in Hg. simpl in Hg.
  split; [simpl; rewrite length_app; lia|]. intros j b (b0 & Hb & ->)%alter_inv.
  destruct (Hi _ _ Hb) as (Ha & Ht & Hm). rewrite Hgu, occurrences_mid in Ha, Ht, Hm.
  pose proof (occurrences_le j (pre ++ post)) as Hle. rewrite length_app in Hle.
  unfold backend_inv. simpl. rewrite occurrences_cons.
  destruct (decide (i = j)) as [->|]; simpl in *;
    [|split_and!; [done..|intros max Hmax; specialize (Hm max Hmax); lia]].
  rewrite Ha, Ht. unfold wrapping_sub.
  split; [rewrite Z.mod_small; lia|]. split; [f_equal; lia|].
  intros max Hmax; specialize (Hm max Hmax); lia.
Qed.

Lemma pool_step_inv p p' : pool_inv p -> pool_step p p' -> pool_inv p'.
Proof.
  intros Hp Hs. destruct Hs.
  - by eapply pool_select_inv.
  - exact Hp.
  - by apply pool_count_inv.
  - by apply pool_drop_inv.
  - by apply pool_inv_flag.
  - by apply pool_inv_flag.
Qed.

End PoolSteps.

(** ** Properties *)

(** A pool before its first connection. *)
Definition idle (b : Backend) : Prop := b_active_connections b = 0 /\ b_total_connections b = 0.

Lemma idle_pool_inv {S} threads (s : S) pool :
  Forall idle pool -> pool_inv threads (mkPool s pool [] [] []).
Proof.
  intros Hidle. split; [simpl; lia|]. intros i b Hb. rewrite Forall_lookup in Hidle.
  destruct (Hidle _ _ Hb) as [Ha Ht]. unfold backend_inv. rewrite Ha, Ht. simpl.
  split_and!; [done..|]. intros max _. apply Z.le_max_l.
Qed.


(** A backend with a connection limit. *)
Definition limited (max : Z) : Backend :=
  mkBackend (bs "b") (bs "abcdef") (mkSocketAddr LOCALHOST 80) 1 false false None (Some max)
    true 0 0 true.

(** Two selections that both happen before either is counted. *)
Lemma raced_pool_reachable :
  steps (pool_step 2) (mkPool RoundRobin_new [limited 1] [] [] [])
    (mkPool (mkRoundRobin 2) [set_connections 2 2 (limited 1)] [] [0%nat; 0%nat] []).
Proof.
  assert (Hm : forall n, (n < 2)%nat -> Z.of_nat n < 2 ^ 64 - 1) by lia.
  pose (p0 := mkPool RoundRobin_new [limited 1] [] [] []).
  pose (p1 := mkPool (mkRoundRobin 1) [limited 1] [0%nat] [] []).
  pose (p2 := mkPool (mkRoundRobin 2) [limited 1] [0%nat; 0%nat] [] []).
  pose (p3 := mkPool (mkRoundRobin 2) [guard_new (limited 1)] [0%nat] [0%nat] []).
  apply (steps_step _ p0 p3); [apply (steps_step _ p0 p2); [apply (steps_step _ p0 p1);
    [apply (steps_step _ p0 p0); [apply steps_refl|]|]|]|].
  - exact (pool_select 2 p0 None 0 (mkRoundRobin 1) eq_refl ltac:(simpl; lia)).
  - exact (pool_select 2 p1 None 0 (mkRoundRobin 2) eq_refl ltac:(simpl; lia)).
  - exact (pool_count 2 p2 0 [] [0%nat] eq_refl (Hm 0%nat ltac:(lia))).
  - exact (pool_count 2 p3 0 [] [] eq_refl (Hm 1%nat ltac:(lia))).
Qed.


(** The connection limit is checked and counted in two steps: two concurrent
    selections reach two live connections on a backend limited to one. *)
Theorem max_connections_exceeded :
  exists p, steps (pool_step 2) (mkPool RoundRobin_new [limited 1] [] [] []) p /\
    exists b, p_backends p !! 0%nat = Some b /\ b_max_connections b = Some 1 /\
      b_active_connections b = 2.
Proof. eexists. split; [exact raced_pool_reachable|]. eexists. done. Qed.

(** The round robin is fair: over [k * n] consecutive selections from pools with
    the same [n] available backends, each of them is selected exactly [k] times,
    as long as the counter does not wrap around meanwhile. *)
Theorem round_robin_fair av k c pools i :
  Forall (fun p => available p = av) pools -> length pools = (k * length av)%nat ->
  Z.of_nat (c + length pools) <= 2 ^ 64 -> i ∈ av ->
  occurrences (Some i) (rr_run (mkRoundRobin (Z.of_nat c)) pools) = k.
Proof.
  intros Hav Hlen Hc Hi. destruct (decide (pools = [])) as [->|Hne].
  { destruct k; [done|]. destruct av; [by apply elem_of_nil in Hi|]. done. }
  assert (NoDup av) as Hnd.
  { destruct pools; [done|]. apply Forall_cons in Hav as [<- _]. apply available_nodup. }
  rewrite (rr_run_picks av); [|by intros ->; apply elem_of_nil in Hi|done|done].
  rewrite Hlen. by apply fair_picks.
Qed.

Lemma round_robin_fair_witness :
  occurrences (Some 1%nat)
    (rr_run (mkRoundRobin 5) (replicate 4 [limited 0; limited 3; limited 4])) = 2%nat.
Proof.
  apply (round_robin_fair [1%nat; 2%nat] 2 5 (replicate 4 [limited 0; limited 3; limited 4]) 1).
  - repeat (apply Forall_cons; split; [reflexivity|]). apply Forall_nil. exact I.
  - reflexivity.
  - vm_compute. discriminate.
  - apply list_elem_of_here.
Defined.

(** Filtering keeps the positions in order. *)
Lemma filter_pairs_order pool l1 l2 i j b b' :
  base.filter (fun ib => is_available ib.2 = true) (imap (fun i b => (i, b)) pool)
    = l1 ++ (i, b) :: l2 ->
  (j, b') ∈ l2 -> (i < j)%nat.
Proof.
  assert (Hs : StronglySorted (fun x y : nat * Backend => (x.1 < y.1)%nat)
                 (imap (fun i b => (i, b)) pool)).
  { assert (Hg : forall k, StronglySorted (fun x y : nat * Backend => (x.1 < y.1)%nat)
      (imap (fun i b => ((k + i)%nat, b)) pool)).
    { induction pool as [|c pool IH]; intros k; [constructor|]. rewrite imap_cons. constructor.
      - erewrite imap_ext; [apply (IH (S k))|]. intros x y _. simpl. f_equal. lia.
      - apply Forall_forall. intros [x y] Hin. apply elem_of_lookup_imap in Hin
          as (z & w & [= -> ->] & _). simpl. lia. }
    apply (Hg 0%nat). }
  intros Heq Hin.
  assert (Hf : StronglySorted (fun x y : nat * Backend => (x.1 < y.1)%nat) (l1 ++ (i, b) :: l2)).
  { rewrite <- Heq. clear Heq. induction Hs as [|x l Hl IH Hx]; [constructor|].
    rewrite filter_cons. destruct (decide _); [|done]. constructor; [done|].
    apply Forall_forall. intros y [_ Hy]%list_elem_of_filter. rewrite Forall_forall in Hx. by apply Hx. }
  apply StronglySorted_app in Hf as (_ & _ & Hf). apply StronglySorted_inv in Hf as [_ Hf].
  rewrite Forall_forall in Hf. exact (Hf _ Hin).
Qed.

(** Least-connections answers with an available backend with the fewest active
    connections among the available ones, and the first such in the pool. *)
Theorem least_connections_minimal s pool ip i s' :
  lc_select s pool ip = (Some i, s') ->
  exists b, pool !! i = Some b /\ is_available b = true /\
    forall j b', pool !! j = Some b' -> is_available b' = true ->
      active_count b <= active_count b' /\ ((j < i)%nat -> active_count b < active_count b').
Proof.
  intros (b & Hm & Hb & Ha)%lc_select_Some. exists b. split_and!; [done..|].
  intros j b' Hb' Ha'. apply min_by_active_spec in Hm as (l1 & l2 & Heq & H1 & H2).
  assert (Hin : (j, b') ∈ l1 ++ (i, b) :: l2).
  { rewrite <- Heq. apply list_elem_of_filter. by rewrite elem_of_imap_pair. }
  rewrite Forall_forall in H1, H2.
  apply elem_of_app in Hin as [Hin|[[= -> ->]|Hin]%elem_of_cons].
  - specialize (H1 _ Hin). simpl in H1. lia.
  - lia.
  - specialize (H2 _ Hin). simpl in H2. split; [done|]. intros Hlt.
    pose proof (filter_pairs_order pool l1 l2 i j b b' Heq Hin). lia.
Qed.

Lemma least_connections_minimal_witness :
  exists b, [set_connections 2 2 (limited 5); limited 5; limited 0] !! 1%nat = Some b /\
    is_available b = true /\
    forall j b', [set_connections 2 2 (limited 5); limited 5; limited 0] !! j = Some b' ->
      is_available b' = true ->
      active_count b <= active_count b' /\ ((j < 1)%nat -> active_count b < active_count b').
Proof.
  apply (least_connections_minimal mkLeastConnections
           [set_connections 2 2 (limited 5); limited 5; limited 0] None 1 mkLeastConnections).
  reflexivity.
Defined.
