(* ===== verification/Acl.v ===== *)
(** * Access control and backend selection: [serverwall-core/src/acl/],
      [serverwall-proxy/src/pipeline.rs] *)

From S2P Require Import Prelude RustStr Schema Net External Fs Config Balancer.
Open Scope Z_scope.

(** ** Libraries the code calls *)

(** [maxminddb]: opening a database, and the ISO code of the country of an address
    in it ([None] for a failed lookup or an absent field). *)
Class GeoLib := {
  GeoReader : Type;
  open_readfile : bytes -> result GeoReader bytes;
  lookup_iso_code : GeoReader -> IpAddr -> option bytes;
}.

Inductive AclDecision := Allow | Deny.

#[export] Instance AclDecision_eq_dec : EqDecision AclDecision.
Proof. solve_decision. Defined.

(** ** [matcher.rs], [allow_list.rs], [block_list.rs] *)

Section Lists.
Context `{IpNetworkLib}.

Record IpMatcher := mkIpMatcher { networks : list IpNetwork }.

Fixpoint parse_networks (cidrs : list bytes) : result (list IpNetwork) bytes :=
  match cidrs with
  | [] => Ok []
  | cidr :: cidrs =>
      let? net := net_parse cidr in
      let? nets := parse_networks cidrs in
      Ok (net :: nets)
  end.

Definition IpMatcher_new (cidrs : list bytes) : result IpMatcher bytes :=
  let? nets := parse_networks cidrs in Ok (mkIpMatcher nets).

Definition matches (m : IpMatcher) (ip : IpAddr) : bool :=
  existsb (fun net => net_contains net ip) (networks m).

Record AllowList := mkAllowList { al_matcher : IpMatcher }.
Definition AllowList_new (cidrs : list bytes) : result AllowList bytes :=
  let? m := IpMatcher_new cidrs in Ok (mkAllowList m).
Definition AllowList_contains (l : AllowList) (ip : IpAddr) : bool := matches (al_matcher l) ip.

Record BlockList := mkBlockList { bl_matcher : IpMatcher }.
Definition BlockList_new (cidrs : list bytes) : result BlockList bytes :=
  let? m := IpMatcher_new cidrs in Ok (mkBlockList m).
Definition BlockList_contains (l : BlockList) (ip : IpAddr) : bool := matches (bl_matcher l) ip.

(** ** [mod.rs]: [AccessControlEngine] *)

Record AccessControlEngine := mkEngine {
  block_list : option BlockList;
  allow_list : option AllowList;
  default_action : AclDefaultAction;
}.

Definition AccessControlEngine_from_config (config : FrontendAclConfig)
  : result AccessControlEngine bytes :=
  let? block :=
    (if is_nil (fa_block_list config) then Ok None
     else let? l := BlockList_new (fa_block_list config) in Ok (Some l)) in
  let? allow :=
    (if is_nil (fa_allow_list config) then Ok None
     else let? l := AllowList_new (fa_allow_list config) in Ok (Some l)) in
  Ok (mkEngine block allow (fa_default_action config)).

Definition evaluate (e : AccessControlEngine) (ip : IpAddr) : AclDecision :=
  if (match block_list e with Some bl => BlockList_contains bl ip | None => false end) then Deny
  else
    match allow_list e with
    | Some al => if AllowList_contains al ip then Allow else Deny
    | None =>
        match default_action e with
        | DefaultAllow => Allow
        | DefaultDeny => Deny
        end
    end.

Definition is_allowed (e : AccessControlEngine) (ip : IpAddr) : bool :=
  bool_decide (evaluate e ip = Allow).

Definition from_global_ip (ip_acl : IpAclConfig) : result AccessControlEngine bytes :=
  let? block :=
    (if is_nil (ia_block ip_acl) then Ok None
     else let? l := BlockList_new (ia_block ip_acl) in Ok (Some l)) in
  let? allow :=
    (if is_nil (ia_allow ip_acl) then Ok None
     else let? l := AllowList_new (ia_allow ip_acl) in Ok (Some l)) in
  Ok (mkEngine block allow DefaultAllow).
End Lists.

(** ** [mod.rs]: [PathAcl] *)

Section Paths.
Context `{RegexLib} `{Unicode}.

Record PathAcl := mkPathAcl { rules : list (list Regex * bool) }.

Definition PathAcl_from_config (patterns : list PathPatternConfig) : PathAcl :=
  mkPathAcl (filter_map (fun entry =>
    let block := bool_decide (to_lowercase (pp_action entry) = bs "block") in
    let compiled := filter_map regex_new (pp_patterns entry) in
    if is_nil compiled then None else Some (compiled, block)) patterns).

Fixpoint check_rules (rs : list (list Regex * bool)) (path : bytes) : option AclDecision :=
  match rs with
  | [] => None
  | (patterns, block) :: rs =>
      if existsb (fun re => is_match re path) patterns
      then Some (if block then Deny else Allow)
      else check_rules rs path
  end.

Definition path_check (p : PathAcl) (path : bytes) : option AclDecision :=
  check_rules (rules p) path.
End Paths.

(** ** [geo.rs] *)

Section Geo.
Context `{GeoLib} `{Unicode}.

(** The two hash sets, as duplicate-free membership only. *)
Record GeoEngine := mkGeo {
  reader : GeoReader;
  block_countries : list bytes;
  allow_countries : list bytes;
}.

Definition geo_load (db_path : bytes) (block allow : list bytes) : result GeoEngine bytes :=
  let? r := open_readfile db_path in
  Ok (mkGeo r (to_uppercase <$> block) (to_uppercase <$> allow)).

Definition GeoEngine_from_config (config : GeoConfig) : option GeoEngine :=
  if negb (geo_enabled config) then None
  else match geo_database_path config with
       | None => None
       | Some db_path =>
           match geo_load db_path (geo_block_countries config) (geo_allow_countries config) with
           | Ok engine => Some engine
           | Err _ => None
           end
       end.

Definition lookup_country (g : GeoEngine) (ip : IpAddr) : option bytes :=
  to_uppercase <$> lookup_iso_code (reader g) ip.

Definition geo_check (g : GeoEngine) (ip : IpAddr) : AclDecision :=
  let country_code := lookup_country g ip in
  if negb (is_nil (allow_countries g)) then
    match country_code with
    | Some cc => if bool_decide (cc ∈ allow_countries g) then Allow else Deny
    | None => Deny
    end
  else if negb (is_nil (block_countries g)) then
    match country_code with
    | Some cc => if bool_decide (cc ∈ block_countries g) then Deny else Allow
    | None => Allow
    end
  else Allow.
End Geo.

(** ** [pipeline.rs] *)

Section Pipeline.
Context `{IpNetworkLib} `{GeoLib} `{Unicode} {S : Type} `{LoadBalancer S}.

Record RequestPipeline := mkPipeline {
  pl_acl : AccessControlEngine;
  pl_global_ip_acl : option AccessControlEngine;
  pl_geo : option GeoEngine;
  pl_balancer : S;
  pl_backends : list Backend;
  pl_backend_tls_verify : bool;
  pl_backend_ca_bundle : option bytes;
}.

Definition check_acl (p : RequestPipeline) (client_ip : IpAddr) : result unit ServerWallError :=
  let? _ := (match pl_global_ip_acl p with
             | Some global => match evaluate global client_ip with
                              | Deny => Err (AccessDenied client_ip)
                              | Allow => Ok tt
                              end
             | None => Ok tt
             end) in
  let? _ := (match evaluate (pl_acl p) client_ip with
             | Deny => Err (AccessDenied client_ip)
             | Allow => Ok tt
             end) in
  match pl_geo p with
  | Some geo => if bool_decide (geo_check geo client_ip = Deny)
                then Err (AccessDenied client_ip) else Ok tt
  | None => Ok tt
  end.

(** What selecting and releasing backends changes. *)
Definition with_balance (s : S) (backends : list Backend) (p : RequestPipeline) : RequestPipeline :=
  mkPipeline (pl_acl p) (pl_global_ip_acl p) (pl_geo p) s backends (pl_backend_tls_verify p) (pl_backend_ca_bundle p).

(** The selected position; the guard is counted on the backend of the new pipeline. *)
Definition select_backend (p : RequestPipeline) (client_ip : IpAddr)
  : result nat ServerWallError * RequestPipeline :=
  match lb_select (pl_balancer p) (pl_backends p) (Some client_ip) with
  | (None, s) =>
      (Err (NoHealthyBackends (bs "unknown")),
       with_balance s (pl_backends p) p)
  | (Some i, s) =>
      (Ok i, with_balance s (alter guard_new i (pl_backends p)) p)
  end.

Definition with_backends (pl : RequestPipeline) (l : list Backend) : RequestPipeline :=
  with_balance (pl_balancer pl) l pl.

(** The guard of a selected backend is dropped. *)
Definition release (i : nat) (pl : RequestPipeline) : RequestPipeline :=
  with_backends pl (alter guard_drop i (pl_backends pl)).

Definition is_globally_allowed (p : RequestPipeline) (ip : IpAddr) : bool :=
  match pl_global_ip_acl p with
  | Some global => bool_decide (evaluate global ip = Allow)
  | None => false
  end.

Definition find_backend_by_tag (p : RequestPipeline) (tag : bytes) : option nat :=
  fst <$> list_find (fun b => b_tag b = tag /\ b_enabled b = true /\ b_healthy b = true)
    (pl_backends p).
End Pipeline.
Arguments RequestPipeline {_ _} S.

(** ** Lemmas *)

Section AclLemmas.
Context `{IpNetworkLib}.

(** Some listed network contains [ip]. *)
Definition listed (cidrs : list bytes) (ip : IpAddr) : Prop :=
  exists cidr net, cidr ∈ cidrs /\ net_parse cidr = Ok net /\ net_contains net ip = true.

Lemma parse_networks_Ok cidrs nets :
  parse_networks cidrs = Ok nets -> Forall2 (fun c n => net_parse c = Ok n) cidrs nets.
Proof.
  revert nets. induction cidrs as [|c cidrs IH]; intros nets; simpl; [intros [= <-]; constructor|].
  destruct (net_parse c) as [n|e] eqn:E; simpl; [|done].
  destruct (parse_networks cidrs) as [ns|e]; simpl; [|done]. intros [= <-].
  constructor; [done|]. by apply IH.
Qed.

Lemma matches_listed cidrs m ip :
  IpMatcher_new cidrs = Ok m -> matches m ip = true <-> listed cidrs ip.
Proof.
  unfold IpMatcher_new. destruct (parse_networks cidrs) as [nets|e] eqn:E; simpl; [|done].
  intros [= <-]. apply parse_networks_Ok in E. unfold matches, listed. simpl.
  rewrite existsb_elem_of. split.
  - intros (n & [i Hi]%list_elem_of_lookup_1 & Hn).
    destruct (Forall2_lookup_r _ _ _ _ _ E Hi) as (c & Hc & Hp).
    exists c, n. eauto using list_elem_of_lookup_2.
  - intros (c & n & [i Hi]%list_elem_of_lookup_1 & Hp & Hn).
    destruct (Forall2_lookup_l _ _ _ _ _ E Hi) as (n' & Hn' & Hp').
    exists n'. split; [by eapply list_elem_of_lookup_2|]. congruence.
Qed.

Lemma evaluate_spec block allow dflt e ip :
  (let? b := (if is_nil block then Ok None else let? l := BlockList_new block in Ok (Some l)) in
   let? a := (if is_nil allow then Ok None else let? l := AllowList_new allow in Ok (Some l)) in
   Ok (mkEngine b a dflt)) = Ok e ->
  evaluate e ip = Allow <->
  ~ listed block ip /\ (if is_nil allow then dflt = DefaultAllow else listed allow ip).
Proof.
  assert (Hnil : ~ listed [] ip) by (intros (c & ? & ?%elem_of_nil & _); done).
  unfold BlockList_new, AllowList_new, evaluate.
  assert (Hb : forall bl, IpMatcher_new block = Ok bl ->
    BlockList_contains (mkBlockList bl) ip = true <-> listed block ip)
    by (intros; by apply matches_listed).
  assert (Ha : forall al, IpMatcher_new allow = Ok al ->
    AllowList_contains (mkAllowList al) ip = true <-> listed allow ip)
    by (intros; by apply matches_listed).
  destruct (is_nil block) eqn:Eb; [apply is_nil_true in Eb as ->|];
    destruct (is_nil allow) eqn:Ea; simpl.
  - intros [= <-]. simpl. destruct dflt; naive_solver.
  - destruct (IpMatcher_new allow) as [al|]; simpl; [|done]. intros [= <-]. simpl.
    specialize (Ha _ eq_refl). destruct (AllowList_contains _ _); naive_solver.
  - destruct (IpMatcher_new block) as [bl|]; simpl; [|done]. intros [= <-]. simpl.
    specialize (Hb _ eq_refl). destruct (BlockList_contains _ _), dflt; naive_solver.
  - destruct (IpMatcher_new block) as [bl|]; simpl; [|done].
    destruct (IpMatcher_new allow) as [al|]; simpl; [|done]. intros [= <-]. simpl.
    specialize (Hb _ eq_refl). specialize (Ha _ eq_refl).
    destruct (BlockList_contains _ _), (AllowList_contains _ _); naive_solver.
Qed.

(** Without an allow list, the global list lets everything else through. *)
Lemma default_allow_cases (P Q : Prop) (l : list bytes) ip :
  (P <-> Q /\ (if is_nil l then DefaultAllow = DefaultAllow else listed l ip)) ->
  P <-> Q /\ (l = [] \/ listed l ip).
Proof.
  intros ->. destruct l; simpl; [naive_solver|]. split; intros [? Hl]; (split; [done|]).
  - by right.
  - by destruct Hl.
Qed.
End AclLemmas.

Lemma geo_check_spec `{GeoLib} `{Unicode} geo ip :
  geo_check geo ip = Allow <->
  (if is_nil (allow_countries geo)
   then forall cc, lookup_country geo ip = Some cc -> cc ∉ block_countries geo
   else exists cc, lookup_country geo ip = Some cc /\ cc ∈ allow_countries geo).
Proof.
  unfold geo_check. destruct (is_nil (allow_countries geo)); simpl.
  - destruct (is_nil (block_countries geo)) eqn:E; simpl.
    + apply is_nil_true in E as ->. split; [|done]. intros _ cc _. apply not_elem_of_nil.
    + destruct (lookup_country geo ip) as [cc|]; [|naive_solver].
      case_bool_decide; naive_solver.
  - destruct (lookup_country geo ip) as [cc|]; [|naive_solver].
    case_bool_decide; naive_solver.
Qed.

(** A country database that knows one network. *)
#[export] Instance one_country : GeoLib | 100 := {|
  GeoReader := unit;
  open_readfile _ := Ok tt;
  lookup_iso_code _ ip := if bool_decide (ip = LOCALHOST) then Some (bs "ch") else None;
|}.

(** ** Properties *)

(** What a configuration says of a client: no block list (global or of the frontend) has a
    network that contains it, each non-empty allow list has one, the frontend's default is
    to allow when it has no allow list, and its country is in the allowed ones or, when
    those are not configured, not among the blocked ones. *)
Definition admits `{IpNetworkLib} `{GeoLib} `{Unicode} (gcfg : option IpAclConfig) (fcfg : FrontendAclConfig)
    (geo : option GeoEngine) (ip : IpAddr) : Prop :=
  match gcfg with
  | Some gcfg => ~ listed (ia_block gcfg) ip /\ (ia_allow gcfg = [] \/ listed (ia_allow gcfg) ip)
  | None => True
  end /\
  (~ listed (fa_block_list fcfg) ip /\
   (if is_nil (fa_allow_list fcfg) then fa_default_action fcfg = DefaultAllow
    else listed (fa_allow_list fcfg) ip)) /\
  match geo with
  | Some geo =>
      if is_nil (allow_countries geo)
      then forall cc, lookup_country geo ip = Some cc -> cc ∉ block_countries geo
      else exists cc, lookup_country geo ip = Some cc /\ cc ∈ allow_countries geo
  | None => True
  end.

(** The pipeline's engines are built from these settings. *)
Definition built_from `{IpNetworkLib} `{GeoLib} {S} (gcfg : option IpAclConfig) (fcfg : FrontendAclConfig)
    (p : RequestPipeline S) : Prop :=
  match gcfg, pl_global_ip_acl p with
  | Some gcfg, Some g => from_global_ip gcfg = Ok g
  | None, None => True
  | _, _ => False
  end /\
  AccessControlEngine_from_config fcfg = Ok (pl_acl p).

Lemma check_acl_admits {S} `{IpNetworkLib} `{GeoLib} `{Unicode} gcfg fcfg (p : RequestPipeline S) ip :
  built_from gcfg fcfg p ->
  check_acl p ip = Ok tt /\ admits gcfg fcfg (pl_geo p) ip \/
  check_acl p ip = Err (AccessDenied ip) /\ ~ admits gcfg fcfg (pl_geo p) ip.
Proof.
  intros [Hg Hf]. unfold check_acl, admits.
  assert (match pl_global_ip_acl p with Some g => evaluate g ip = Allow | None => True end <->
    match gcfg with
    | Some gcfg => ~ listed (ia_block gcfg) ip /\ (ia_allow gcfg = [] \/ listed (ia_allow gcfg) ip)
    | None => True
    end) as Eg.
  { destruct gcfg as [gcfg|], (pl_global_ip_acl p) as [g|]; try done.
    pose proof (evaluate_spec (ia_block gcfg) (ia_allow gcfg) DefaultAllow g ip Hg) as Eg.
    by apply default_allow_cases in Eg. }
  pose proof (evaluate_spec (fa_block_list fcfg) (fa_allow_list fcfg) (fa_default_action fcfg) (pl_acl p) ip Hf) as Ef.
  destruct (pl_global_ip_acl p) as [g|].
  1: destruct (evaluate g ip) eqn:Hge; simpl; [|right; split; [done|]; intros [Hp _]; by apply Eg in Hp].
  all: cbn; destruct (evaluate (pl_acl p) ip) eqn:Hfe; cbn; [|right; split; [done|]; intros (_ & Hp & _); by apply Ef in Hp].
  all: destruct (pl_geo p) as [geo|]; [|left; split; [done|]; split; [by apply Eg|]; split; [by apply Ef|done]].
  all: pose proof (geo_check_spec geo ip) as Eo; case_bool_decide as Hd; [right|left]; (split; [done|]).
  1, 3: intros (_ & _ & Hp); apply Eo in Hp; congruence.
  all: destruct (geo_check geo ip); [|done]; split; [by apply Eg|]; split; [by apply Ef|by apply Eo].
Qed.

(** End to end, a client is admitted exactly when the configuration says so; otherwise
    the error names the address. *)
Theorem pipeline_admission {S} `{IpNetworkLib} `{GeoLib} `{Unicode} gcfg fcfg (p : RequestPipeline S) ip :
  built_from gcfg fcfg p ->
  check_acl p ip = Ok tt /\ admits gcfg fcfg (pl_geo p) ip \/
  check_acl p ip = Err (AccessDenied ip) /\ ~ admits gcfg fcfg (pl_geo p) ip.
Proof. apply check_acl_admits. Qed.

(** A global block list of one host, nothing configured at the frontend. *)
Definition block_one : IpAclConfig := mkIpAcl [] [bs "10.0.0.1/32"].
Definition block_one_engine : AccessControlEngine :=
  mkEngine (Some (mkBlockList (mkIpMatcher [bs "10.0.0.1/32"]))) None DefaultAllow.
Definition open_engine : AccessControlEngine := mkEngine None None DefaultAllow.

Definition example_pipeline : RequestPipeline LeastConnections :=
  mkPipeline open_engine (Some block_one_engine) (Some (mkGeo (H:=one_country) tt [] [])) mkLeastConnections []
    false None.

Lemma pipeline_admission_witness :
  check_acl example_pipeline (ipv4 10 0 0 1) = Ok tt /\
    admits (Some block_one) (mkFrontendAcl [] [] DefaultAllow) (pl_geo example_pipeline) (ipv4 10 0 0 1) \/
  check_acl example_pipeline (ipv4 10 0 0 1) = Err (AccessDenied (ipv4 10 0 0 1)) /\
    ~ admits (Some block_one) (mkFrontendAcl [] [] DefaultAllow) (pl_geo example_pipeline) (ipv4 10 0 0 1).
Proof.
  apply (pipeline_admission (Some block_one) (mkFrontendAcl [] [] DefaultAllow) example_pipeline (ipv4 10 0 0 1)).
  split; reflexivity.
Defined.

(** The web application firewall bypass: with a global block list and no global
    allow list, every address that is not blocked counts as globally allowed,
    although none is on an allow list. *)
Theorem globally_allowed_without_allow_list {S} `{IpNetworkLib} `{GeoLib} gcfg g f geo
    (s : S) pool verify bundle ip :
  from_global_ip gcfg = Ok g -> ia_allow gcfg = [] ->
  is_globally_allowed (mkPipeline f (Some g) geo s pool verify bundle) ip = true <-> ~ listed (ia_block gcfg) ip.
Proof.
  intros Hg Hn. unfold is_globally_allowed. simpl. rewrite bool_decide_eq_true.
  rewrite (evaluate_spec (ia_block gcfg) (ia_allow gcfg) DefaultAllow g ip Hg), Hn. naive_solver.
Qed.

Lemma globally_allowed_without_allow_list_witness :
  is_globally_allowed (mkPipeline open_engine (Some block_one_engine)
    (@None (@GeoEngine one_country)) mkLeastConnections [] false None) (ipv4 192 0 2 9) = true <->
  ~ listed [bs "10.0.0.1/32"] (ipv4 192 0 2 9).
Proof.
  apply (globally_allowed_without_allow_list block_one block_one_engine open_engine
           (@None (@GeoEngine one_country)) mkLeastConnections [] false None (ipv4 192 0 2 9)).
  - reflexivity.
  - reflexivity.
Defined.

(** Backend selection: against any balancer that meets the trait's contract,
    [select_backend] fails only when no backend is available, and otherwise returns
    an available backend and counts exactly one connection on exactly that one. *)
Theorem select_backend_counts {S} `{IpNetworkLib} `{GeoLib} `{LoadBalancerSpec S}
    (p : RequestPipeline S) ip :
  match select_backend p ip with
  | (Err e, p') => e = NoHealthyBackends (bs "unknown") /\ pl_backends p' = pl_backends p /\
      Forall (fun b => is_available b = false) (pl_backends p)
  | (Ok i, p') => exists b, pl_backends p !! i = Some b /\ is_available b = true /\
      pl_backends p' !! i = Some (guard_new b) /\
      forall j, j <> i -> pl_backends p' !! j = pl_backends p !! j
  end.
Proof.
  unfold select_backend. destruct (lb_select _ _ _) as [[i|] s'] eqn:E; simpl.
  - destruct (lb_sound _ _ _ _ _ E) as (b & Hb & Ha). exists b. split_and!; [done..| |].
    + by rewrite list_lookup_alter_eq, Hb.
    + intros j Hne. by rewrite list_lookup_alter_ne.
  - split_and!; [done..|]. apply Forall_forall. intros b Hin.
    destruct (is_available b) eqn:Ha; [|done].
    destruct (lb_complete (pl_balancer p) _ (Some ip) b Hin Ha) as (i & s'' & E'). congruence.
Qed.

Lemma select_backend_counts_witness :
  let p := @mkPipeline host_networks one_country _ open_engine None None mkLeastConnections
             [limited 1] false None in
  match select_backend p (ipv4 192 0 2 9) with
  | (Err e, p') => e = NoHealthyBackends (bs "unknown") /\ pl_backends p' = pl_backends p /\
      Forall (fun b => is_available b = false) (pl_backends p)
  | (Ok i, p') => exists b, pl_backends p !! i = Some b /\ is_available b = true /\
      pl_backends p' !! i = Some (guard_new b) /\
      forall j, j <> i -> pl_backends p' !! j = pl_backends p !! j
  end.
Proof.
  intros p. exact (select_backend_counts p (ipv4 192 0 2 9)).
Defined.
