(* ===== verification/WafRules.v ===== *)
(** * Rules of the web application firewall: [serverwall-waf/src/rules/rule_set.rs],
      [rules/parser.rs], [anomaly.rs], [response.rs] *)

From S2P Require Import Prelude RustStr Schema Net External Acl.
Open Scope Z_scope.

(** ** [rule_set.rs] *)

Inductive RuleTarget :=
| RequestUri | Path | QueryString | RequestHeaders | HeaderValue (name : bytes)
| RequestBody | Cookies | UserAgent | RemoteAddr.

Inductive RuleOperator :=
| OpRegex | OpContains | OpEquals | OpStartsWith | OpEndsWith
| OpGreaterThan | OpLessThan | OpDetectSqli | OpDetectXss.

Inductive Transformation :=
| Lowercase | UrlDecode | HtmlEntityDecode | Base64Decode | RemoveWhitespace
| NormalizePath | NoTransformation.

Inductive Severity := Critical | Error | Warning | Notice.

#[export] Instance RuleTarget_eq_dec : EqDecision RuleTarget.
Proof. solve_decision. Defined.

(** The discriminants, [severity as u8]. *)
Definition severity_u8 (s : Severity) : Z :=
  match s with Critical => 1 | Error => 2 | Warning => 3 | Notice => 4 end.

Definition default_score (s : Severity) : Z :=
  match s with Critical => 5 | Error => 4 | Warning => 3 | Notice => 2 end.

Record WafRule := mkRule {
  r_id : Z;
  r_description : bytes;
  r_targets : list RuleTarget;
  r_operator : RuleOperator;
  r_pattern : bytes;
  r_transformations : list Transformation;
  r_severity : Z;
  r_score : Z;
  r_paranoia_level : Z;
}.

Definition WafRule_regex (id : Z) (description : bytes) (targets : list RuleTarget)
    (pattern : bytes) (severity score paranoia_level : Z) : WafRule :=
  mkRule id description targets OpRegex pattern [Lowercase; UrlDecode] severity score paranoia_level.

(** [regex::RegexSet] and [regex::escape]. *)
Class RegexSetLib `{RegexLib} := {
  RegexSet : Type;
  set_new : list bytes -> option RegexSet;
  set_matches : RegexSet -> bytes -> list nat;
  regex_escape : bytes -> bytes;
}.

(** The documented behaviour: a set compiles only from patterns that compile, and
    reports, in increasing order, the positions of the patterns that match. *)
Class RegexSetSpec `{RegexSetLib} := {
  set_new_spec patterns s :
    set_new patterns = Some s ->
    exists res, Forall2 (fun p re => regex_new p = Some re) patterns res /\
      forall input, set_matches s input =
        filter_map (fun ire => if is_match ire.2 input then Some ire.1 else None)
          (imap (fun i re => (i, re)) res);
}.

Section Groups.
Context `{RegexSetLib}.

Record CompiledRuleGroup := mkGroup {
  g_regex_set : RegexSet;
  g_rules : list WafRule;
  g_targets : list RuleTarget;
}.

Definition compile (rules : list WafRule) : option CompiledRuleGroup :=
  match rules with
  | [] => None
  | r0 :: _ =>
      let targets := r_targets r0 in
      match set_new (r_pattern <$> rules) with
      | Some regex_set => Some (mkGroup regex_set rules targets)
      | None =>
          let valid_rules := base.filter (fun r => is_Some (regex_new (r_pattern r))) rules in
          if is_nil valid_rules then None
          else match set_new (r_pattern <$> valid_rules) with
               | Some regex_set => Some (mkGroup regex_set valid_rules targets)
               | None => None
               end
      end
  end.

Definition group_matches (g : CompiledRuleGroup) (input : bytes) : list nat :=
  set_matches (g_regex_set g) input.
End Groups.

(** ** [anomaly.rs] *)

Record AnomalyScorer := mkScorer {
  threshold : Z;
  current_score : Z;
  matched_rule_ids : list bytes;
}.

Definition AnomalyScorer_new (threshold : Z) : AnomalyScorer := mkScorer threshold 0 [].

Definition add_match (s : AnomalyScorer) (rule_id : bytes) (score : Z) : AnomalyScorer :=
  mkScorer (threshold s) (saturating_add 32 (current_score s) score)
    (matched_rule_ids s ++ [rule_id]).

Definition add_score (s : AnomalyScorer) (score : Z) : AnomalyScorer :=
  mkScorer (threshold s) (saturating_add 32 (current_score s) score) (matched_rule_ids s).

Definition is_anomalous (s : AnomalyScorer) : bool := threshold s <=? current_score s.

Definition reset (s : AnomalyScorer) : AnomalyScorer := mkScorer (threshold s) 0 [].

(** ** [response.rs] *)

Inductive WafDecision := WafAllow | WafBlock | WafLog | WafRedirect (url : bytes) | WafChallenge.

Definition status_code (d : WafDecision) : Z :=
  match d with
  | WafAllow => 200 | WafBlock => 403 | WafLog => 200 | WafRedirect _ => 302 | WafChallenge => 429
  end.

Definition is_blocked (d : WafDecision) : bool :=
  match d with WafBlock => true | _ => false end.

(** ** [parser.rs] *)

Section Parser.
Context `{RegexSetLib} `{Unicode}.

Definition one_of (s : bytes) (l : list bytes) : bool := bool_decide (s ∈ l).

Definition parse_target (match_field : bytes) : option RuleTarget :=
  let f := to_lowercase match_field in
  if one_of f [bs "uri"; bs "request_uri"] then Some RequestUri
  else if one_of f [bs "path"] then Some Path
  else if one_of f [bs "query"; bs "query_string"; bs "args"] then Some QueryString
  else if one_of f [bs "body"; bs "request_body"] then Some RequestBody
  else if one_of f [bs "headers"; bs "request_headers"] then Some RequestHeaders
  else if one_of f [bs "user_agent"; bs "ua"] then Some UserAgent
  else if one_of f [bs "cookie"; bs "cookies"] then Some Cookies
  else if one_of f [bs "remote_addr"; bs "ip"] then Some RemoteAddr
  else None.

Definition operator_to_pattern (operator pattern : bytes) : bytes :=
  let o := to_lowercase operator in
  if one_of o [bs "regex"; bs "rx"] then pattern
  else if one_of o [bs "contains"; bs "contains_word"] then regex_escape pattern
  else if one_of o [bs "equals"; bs "eq"; bs "streq"] then bs "^" ++ regex_escape pattern ++ bs "$"
  else if one_of o [bs "starts_with"; bs "beginswith"] then bs "^" ++ regex_escape pattern
  else if one_of o [bs "ends_with"; bs "endswith"] then regex_escape pattern ++ bs "$"
  else pattern.

Definition convert_custom_rule (custom : WafCustomRule) : option WafRule :=
  match parse_target (cr_match_field custom) with
  | None => None
  | Some target =>
      Some (mkRule (cr_id custom mod 2 ^ 32) (cr_description custom) [target] OpRegex
              (operator_to_pattern (cr_operator custom) (cr_pattern custom)) [Lowercase]
              (severity_u8 Error) 5 1)
  end.

(** One file of the rules directory: its name and what [toml] makes of it. *)
Record RulesFile := mkRulesFile { rf_name : bytes; rf_rules : option (list WafCustomRule) }.

(** [None]: the directory cannot be read. *)
Definition load_from_dir (dir : option (list RulesFile)) : list WafRule :=
  match dir with
  | None => []
  | Some entries =>
      flat_map (fun f =>
        if bool_decide (path_extension (rf_name f) = Some (bs "toml")) then
          match rf_rules f with
          | Some custom_rules => filter_map convert_custom_rule custom_rules
          | None => []
          end
        else []) entries
  end.

(** [read_dir] is what the file system answers for a rules directory. *)
Definition parser_from_ruleset_config (read_dir : bytes -> option (list RulesFile))
    (config : WafRulesetConfig) : list WafRule :=
  filter_map convert_custom_rule (rs_custom_rules config) ++
  match rs_rules_dir config with Some dir => load_from_dir (read_dir dir) | None => [] end.
End Parser.
