(* ===== verification/WafBuiltin.v ===== *)
(** * The built-in rules: [serverwall-waf/src/inspection/]

    The rules of the five detectors, in the order of the sources. *)

From S2P Require Import Prelude RustStr WafRules.
Open Scope Z_scope.

(** ** [sql_injection.rs] *)

Definition sql_injection_rules : list WafRule :=
  let targets := [QueryString; RequestBody; RequestUri; Cookies] in
  [
    WafRule_regex 941100 (bs "SQL Injection: UNION-based attack") targets
      (bs "(?i)(?:union\s+(?:all\s+)?select)")
      1 5 1;
    WafRule_regex 941110 (bs "SQL Injection: tautology (OR 1=1, OR true)") targets
      (bs "(?i)(?:'\s*(?:or|and)\s+['\d][\d\s]*=\s*['\d])")
      1 5 1;
    WafRule_regex 941120 (bs "SQL Injection: comment-based bypass (--)") targets
      (bs "(?i)(?:'\s*;\s*--\s*|'\s*--\s*)")
      2 4 1;
    WafRule_regex 941130 (bs "SQL Injection: DROP/ALTER/TRUNCATE statements") targets
      (bs "(?i)(?:;\s*(?:drop|alter|truncate|create|insert|update|delete)\s+(?:table|database|schema|index))")
      1 5 1;
    WafRule_regex 941140 (bs "SQL Injection: EXEC/EXECUTE xp_cmdshell") targets
      (bs "(?i)(?:(?:exec|execute)\s+(?:xp_|sp_)|xp_cmdshell)")
      1 5 1;
    WafRule_regex 941200 (bs "SQL Injection: SLEEP/BENCHMARK/WAITFOR timing attacks") targets
      (bs "(?i)(?:sleep\s*\(\s*\d|benchmark\s*\(\s*\d|waitfor\s+delay\s+')")
      2 4 2;
    WafRule_regex 941210 (bs "SQL Injection: stacked queries") targets
      (bs "(?i)(?:;\s*(?:select|insert|update|delete|drop|alter|create)\s)")
      2 4 2;
    WafRule_regex 941220 (bs "SQL Injection: INFORMATION_SCHEMA/system tables") targets
      (bs "(?i)(?:information_schema|mysql\.user|sysobjects|syscolumns|pg_catalog)")
      2 4 2;
    WafRule_regex 941230 (bs "SQL Injection: LOAD_FILE/INTO OUTFILE") targets
      (bs "(?i)(?:load_file\s*\(|into\s+(?:out|dump)file)")
      1 5 2;
    WafRule_regex 941240 (bs "SQL Injection: hex-encoded values") targets
      (bs "(?i)(?:0x[0-9a-f]{8,}|char\s*\(\s*\d+(?:\s*,\s*\d+)+\s*\))")
      3 3 2;
    WafRule_regex 941300 (bs "SQL Injection: common SQL keywords in suspicious context") targets
      (bs "(?i)(?:'\s*(?:having|group\s+by|order\s+by|limit)\s)")
      3 3 3;
    WafRule_regex 941310 (bs "SQL Injection: SQL function calls") targets
      (bs "(?i)(?:(?:concat|substr|substring|ascii|hex|unhex|conv|cast)\s*\()")
      4 2 3;
    WafRule_regex 941320 (bs "SQL Injection: single-quote probing") targets
      (bs "(?:(?:^|[^\w])'\s*(?:$|[^\w']))")
      4 2 4
  ].

(** ** [xss.rs] *)

Definition xss_rules : list WafRule :=
  let targets := [QueryString; RequestBody; RequestUri; Cookies] in
  [
    WafRule_regex 942100 (bs "XSS: <script> tag injection") targets
      (bs "(?i)<\s*script[^>]*>")
      1 5 1;
    WafRule_regex 942110 (bs "XSS: javascript: protocol handler") targets
      (bs "(?i)javascript\s*:")
      1 5 1;
    WafRule_regex 942120 (bs "XSS: on-event handler attributes") targets
      (bs "(?i)\bon(?:error|load|click|mouse(?:over|out|down|up)|focus|blur|change|submit|key(?:down|up|press)|unload)\s*=")
      1 5 1;
    WafRule_regex 942130 (bs "XSS: <iframe>/<object>/<embed> injection") targets
      (bs "(?i)<\s*(?:iframe|object|embed|applet|form|base)\b")
      1 5 1;
    WafRule_regex 942140 (bs "XSS: data: URI with script content") targets
      (bs "(?i)data\s*:\s*(?:text/html|application/xhtml)")
      2 4 1;
    WafRule_regex 942200 (bs "XSS: SVG onload/animate attack") targets
      (bs "(?i)<\s*svg[^>]*\bon(?:load|error)\s*=")
      2 4 2;
    WafRule_regex 942210 (bs "XSS: HTML entity encoding bypass") targets
      (bs "(?i)(?:&#(?:x0*(?:6[1-9a-f]|7[0-9a])|0*(?:9[7-9]|1[01][0-9]|12[0-2]))\s*;?)")
      3 3 2;
    WafRule_regex 942220 (bs "XSS: expression() CSS function") targets
      (bs "(?i)(?:expression|behavior)\s*\(")
      2 4 2;
    WafRule_regex 942230 (bs "XSS: vbscript: protocol handler") targets
      (bs "(?i)vbscript\s*:")
      1 5 2;
    WafRule_regex 942240 (bs "XSS: <img> tag with event handler") targets
      (bs "(?i)<\s*img[^>]+\bon(?:error|load)\s*=")
      2 4 2;
    WafRule_regex 942300 (bs "XSS: alert/confirm/prompt/eval function calls") targets
      (bs "(?i)(?:alert|confirm|prompt|eval)\s*\(")
      3 3 3;
    WafRule_regex 942310 (bs "XSS: document.cookie/document.write access") targets
      (bs "(?i)document\s*\.\s*(?:cookie|write|location|domain)")
      3 3 3;
    WafRule_regex 942320 (bs "XSS: innerHTML/outerHTML DOM manipulation") targets
      (bs "(?i)\.(?:innerHTML|outerHTML|insertAdjacentHTML|write|writeln)\s*[=(]")
      3 3 3
  ].

(** ** [path_traversal.rs] *)

Definition path_traversal_rules : list WafRule :=
  let targets := [RequestUri; Path; QueryString; RequestBody] in
  [
    WafRule_regex 943100 (bs "Path Traversal: ../ sequences") targets
      (bs "(?:\.\./|\.\.\\)")
      1 5 1;
    WafRule_regex 943110 (bs "Path Traversal: /etc/passwd or /etc/shadow access") targets
      (bs "(?i)/etc/(?:passwd|shadow|hosts|group|resolv\.conf|issue)")
      1 5 1;
    WafRule_regex 943120 (bs "Path Traversal: Windows drive letter access") targets
      (bs "(?i)(?:(?:^|[^a-z])[a-z]:\\|\\\\[a-z0-9])")
      2 4 1;
    WafRule_regex 943130 (bs "Path Traversal: null byte injection") targets
      (bs "(?:%00|\\x00|\\0)")
      1 5 1;
    WafRule_regex 943140 (bs "Path Traversal: /proc/self or /dev/ access") targets
      (bs "(?:/proc/(?:self|version|cpuinfo|meminfo)|/dev/(?:null|zero|random|urandom|tcp|udp))")
      1 5 1;
    WafRule_regex 943200 (bs "Path Traversal: URL-encoded ../ sequences") targets
      (bs "(?:%2e%2e[/\\]|\.%2e[/\\]|%2e\.[/\\]|%252e%252e)")
      2 4 2;
    WafRule_regex 943210 (bs "Path Traversal: Windows system file access") targets
      (bs "(?i)(?:windows[\\/]system32|windows[\\/]win\.ini|boot\.ini|web\.config)")
      2 4 2;
    WafRule_regex 943220 (bs "Path Traversal: UTF-8 encoded traversal") targets
      (bs "(?:%c0%ae|%c1%9c|%c0%af)")
      1 5 2;
    WafRule_regex 943230 (bs "Path Traversal: sensitive config file access") targets
      (bs "(?i)(?:\.htaccess|\.htpasswd|\.env|\.git/|\.svn/|wp-config\.php|config\.yml|database\.yml)")
      2 4 2;
    WafRule_regex 943300 (bs "Path Traversal: backslash-encoded sequences") targets
      (bs "(?:\\\\\.\\\\\.)")
      3 3 3
  ].

(** ** [command_injection.rs] *)

Definition command_injection_rules : list WafRule :=
  let targets := [QueryString; RequestBody; RequestUri; Cookies] in
  [
    WafRule_regex 944100 (bs "Command Injection: shell command chaining (;, &&, ||)") targets
      (bs "(?:;\s*(?:cat|ls|id|whoami|uname|pwd|wget|curl|nc|ncat|bash|sh|python|perl|ruby|php)\b)")
      1 5 1;
    WafRule_regex 944110 (bs "Command Injection: backtick command substitution") targets
      (bs "`[^`]*(?:cat|ls|id|whoami|uname|pwd|wget|curl|nc|bash|sh)[^`]*`")
      1 5 1;
    WafRule_regex 944120 (bs "Command Injection: $() command substitution") targets
      (bs "\$\([^)]*(?:cat|ls|id|whoami|uname|pwd|wget|curl|nc|bash|sh)[^)]*\)")
      1 5 1;
    WafRule_regex 944130 (bs "Command Injection: pipe to shell commands") targets
      (bs "(?:\|\s*(?:cat|ls|id|whoami|uname|bash|sh|python|perl|nc|ncat|wget|curl)\b)")
      1 5 1;
    WafRule_regex 944140 (bs "Command Injection: /bin/ or /usr/bin/ direct execution") targets
      (bs "(?:/(?:usr/)?(?:s?bin|local/bin)/(?:cat|ls|id|whoami|uname|bash|sh|python|perl|nc|wget|curl|chmod|chown))")
      1 5 1;
    WafRule_regex 944200 (bs "Command Injection: && or || chaining with any command") targets
      (bs "(?:(?:&&|\|\|)\s*\w+\b)")
      3 3 2;
    WafRule_regex 944210 (bs "Command Injection: redirection operators") targets
      (bs "(?:>\s*/(?:etc|tmp|var|dev)|>>\s*\S+|<\s*/(?:etc|proc|dev))")
      2 4 2;
    WafRule_regex 944220 (bs "Command Injection: environment variable injection") targets
      (bs "(?:\$\{(?:IFS|PATH|SHELL|HOME|USER|HOSTNAME)\})")
      2 4 2;
    WafRule_regex 944230 (bs "Command Injection: Powershell command patterns") targets
      (bs "(?i)(?:powershell|invoke-(?:expression|webrequest|command)|new-object\s+system)")
      1 5 2;
    WafRule_regex 944300 (bs "Command Injection: semicolon followed by any word") targets
      (bs "(?:;\s*\w+)")
      4 2 3;
    WafRule_regex 944310 (bs "Command Injection: line feeds used as command separators") targets
      (bs "(?:%0[ad]|\\n|\\r)")
      4 2 3
  ].

(** ** [protocol_attack.rs] *)

Definition protocol_attack_rules : list WafRule :=
  let uri_targets := [RequestUri; Path; QueryString] in
  let header_targets := [RequestHeaders] in
  let all_targets := [RequestUri; QueryString; RequestHeaders; RequestBody] in
  [
    WafRule_regex 945100 (bs "Protocol Attack: HTTP request smuggling (CL + TE)") header_targets
      (bs "(?i)(?:transfer-encoding\s*:\s*chunked.*content-length|content-length.*transfer-encoding\s*:\s*chunked)")
      1 5 1;
    WafRule_regex 945110 (bs "Protocol Attack: CRLF injection in headers") all_targets
      (bs "(?:%0[da]|\\r|\\n)(?:%0[da]|\\r|\\n|[\w-]+\s*:)")
      1 5 1;
    WafRule_regex 945120 (bs "Protocol Attack: HTTP response splitting") uri_targets
      (bs "(?i)(?:%0[da](?:%0[da])?(?:set-cookie|content-type|location|http/))")
      1 5 1;
    WafRule_regex 945130 (bs "Protocol Attack: HTTP header injection via newlines") all_targets
      (bs "(?:\r\n|\n)[\w-]+\s*:")
      1 5 1;
    WafRule_regex 945140 (bs "Protocol Attack: invalid HTTP method") [RequestUri]
      (bs "(?i)(?:^(?:connect|trace|track|debug)\s)")
      2 4 1;
    WafRule_regex 945200 (bs "Protocol Attack: Transfer-Encoding obfuscation") header_targets
      (bs "(?i)(?:transfer-encoding\s*:\s*(?:chunked\s*,|,\s*chunked|identity|compress|deflate|gzip)\s*,)")
      2 4 2;
    WafRule_regex 945210 (bs "Protocol Attack: HTTP/0.9 request attempt") [RequestUri]
      (bs "(?:^GET\s+/[^\s]*\s*$)")
      3 3 2;
    WafRule_regex 945220 (bs "Protocol Attack: absolute URI in request line") uri_targets
      (bs "(?i)(?:^(?:get|post|put|delete|patch)\s+https?://)")
      4 2 2;
    WafRule_regex 945300 (bs "Protocol Attack: X-Forwarded-For header spoofing") header_targets
      (bs "(?i)(?:x-forwarded-for\s*:\s*(?:127\.0\.0\.1|::1|0\.0\.0\.0|10\.\d|172\.(?:1[6-9]|2\d|3[01])\.|192\.168\.))")
      4 2 3;
    WafRule_regex 945310 (bs "Protocol Attack: Host header injection") header_targets
      (bs "(?i)(?:host\s*:\s*(?:localhost|127\.0\.0\.1|::1|0\.0\.0\.0)(?::\d+)?)")
      4 2 3
  ].

(** ** [mod.rs] *)

Definition all_builtin_rules : list WafRule :=
  sql_injection_rules ++ xss_rules ++ path_traversal_rules ++ command_injection_rules ++
  protocol_attack_rules.
