(* ===== verification/WafMatcher.v ===== *)
(** * Request contexts and transformations: [serverwall-waf/src/request.rs],
      [serverwall-waf/src/rules/matcher.rs] *)

From S2P Require Import Prelude RustStr Net External WafRules.
Open Scope Z_scope.

(** ** Hash maps from strings to strings

    As the list of their entries, keys distinct, in the order the map is iterated. *)

Definition hmap : Type := list (bytes * bytes).

Fixpoint hm_get (m : hmap) (k : bytes) : option bytes :=
  match m with
  | [] => None
  | (k', v) :: m => if bool_decide (k' = k) then Some v else hm_get m k
  end.

Fixpoint hm_insert (m : hmap) (k v : bytes) : hmap :=
  match m with
  | [] => [(k, v)]
  | (k', v') :: m => if bool_decide (k' = k) then (k', v) :: m else (k', v') :: hm_insert m k v
  end.

(** [collect]: later entries replace earlier ones with the same key. *)
Definition hm_collect (l : list (bytes * bytes)) : hmap :=
  foldl (fun m kv => hm_insert m kv.1 kv.2) [] l.

(** ** [request.rs] *)

Record HttpRequestContext := mkCtx {
  method : bytes;
  uri : bytes;
  path : bytes;
  query_string : bytes;
  headers : hmap;
  cookies : hmap;
  body : bytes;
  remote_addr : IpAddr;
  protocol : bytes;
  ja3_fingerprint : option bytes;
}.

Definition parse_cookie_pair (pair : bytes) : option (bytes * bytes) :=
  match splitn 2 (trim pair) 61 with
  | [] => None
  | k :: rest =>
      let key := trim k in
      let value := trim (unwrap_or [] (head rest)) in
      if is_nil key then None else Some (key, value)
  end.

Definition parse_cookies (cookie_header : bytes) : hmap :=
  hm_collect (filter_map parse_cookie_pair (split cookie_header 59)).

Section Request.
Context `{Unicode}.

Definition from_parts (mth u : bytes) (hs : hmap) (bd : bytes) (client_ip : IpAddr)
    (ja3 : option bytes) : HttpRequestContext :=
  let '(p, qs) := match find u [63] with
                  | Some idx => (take idx u, drop (S idx) u)
                  | None => (u, [])
                  end in
  let cks := match (match hm_get hs (bs "cookie") with
                    | Some c => Some c
                    | None => hm_get hs (bs "Cookie")
                    end) with
             | Some c => parse_cookies c
             | None => []
             end in
  let proto := match hm_get hs (bs "x-forwarded-proto") with Some v => v | None => bs "http" end in
  mkCtx (to_uppercase mth) u p qs hs cks bd client_ip proto ja3.

Definition user_agent (ctx : HttpRequestContext) : option bytes :=
  match hm_get (headers ctx) (bs "user-agent") with
  | Some v => Some v
  | None => hm_get (headers ctx) (bs "User-Agent")
  end.

Definition body_str (ctx : HttpRequestContext) : bytes := from_utf8_lossy (body ctx).
Definition body_size (ctx : HttpRequestContext) : Z := Z.of_nat (length (body ctx)).
Definition header_count (ctx : HttpRequestContext) : Z := Z.of_nat (length (headers ctx)).

(** ** [matcher.rs]: targets *)

Definition extract_targets (ctx : HttpRequestContext) (target : RuleTarget) : list bytes :=
  match target with
  | RequestUri => [uri ctx]
  | Path => [path ctx]
  | QueryString => if is_nil (query_string ctx) then [] else [query_string ctx]
  | RequestHeaders => snd <$> headers ctx
  | HeaderValue name =>
      let lower := to_lowercase name in
      snd <$> base.filter (fun kv => to_lowercase kv.1 = lower) (headers ctx)
  | RequestBody =>
      let b := from_utf8_lossy (body ctx) in if is_nil b then [] else [b]
  | Cookies => snd <$> cookies ctx
  | UserAgent => match user_agent ctx with Some s => [s] | None => [] end
  | RemoteAddr => [show_ip (remote_addr ctx)]
  end.
End Request.

(** ** [matcher.rs]: transformations *)

(** Percent decoding, on the characters of the string.  A decoded byte becomes the
    character with that code. *)
Fixpoint url_decode_chars (cs : list Z) : list Z :=
  match cs with
  | [] => []
  | c :: cs1 =>
      if c =? 37 then
        match cs1 with
        | [] => [37]
        | [h1] => [37; h1]
        | h1 :: h2 :: cs2 =>
            let hex := encode [h1; h2] in
            match (if Nat.eqb (length hex) 2 then parse_uint 8 16 hex else None) with
            | Some byte => byte :: url_decode_chars cs2
            | None => 37 :: h1 :: h2 :: url_decode_chars cs2
            end
        end
      else if c =? 43 then 32 :: url_decode_chars cs1
      else c :: url_decode_chars cs1
  end.

Definition url_decode (input : bytes) : bytes := encode (url_decode_chars (chars input)).

Definition html_entity_decode (input : bytes) : bytes :=
  foldl (fun s er => replace s er.1 er.2) input
    [(bs "&amp;", bs "&"); (bs "&lt;", bs "<"); (bs "&gt;", bs ">"); (bs "&quot;", [34]);
     (bs "&#39;", bs "'"); (bs "&apos;", bs "'"); (bs "&#x27;", bs "'"); (bs "&#x2f;", bs "/");
     (bs "&#x2F;", bs "/"); (bs "&#34;", [34]); (bs "&#60;", bs "<"); (bs "&#62;", bs ">")].

(** The loop collapsing slashes; each turn removes at least one byte, so that the
    length of the string is enough fuel. *)
Fixpoint collapse_slashes (fuel : nat) (s : bytes) : bytes :=
  match fuel with
  | O => s
  | S fuel => if contains s (bs "//") then collapse_slashes fuel (replace s (bs "//") (bs "/")) else s
  end.

Definition normalize_path (input : bytes) : bytes :=
  let result := replace input [92] (bs "/") in
  let result := collapse_slashes (length result) result in
  replace result (bs "/./") (bs "/").

Definition base64_table : bytes :=
  bs "ABCDEFGHIJKLMNOPQRSTUVWXYZabcdefghijklmnopqrstuvwxyz0123456789+/".

Fixpoint position (l : bytes) (c : Z) : option nat :=
  match l with
  | [] => None
  | x :: l => if x =? c then Some 0%nat else S <$> position l c
  end.

Definition b64_val (c : Z) : option Z := Z.of_nat <$> position base64_table c.

(** Shifts of a [u8] drop the bits that leave it. *)
Definition shl8 (x n : Z) : Z := Z.land (Z.shiftl x n) 255.

(** One chunk of at most four bytes. *)
Definition decode_chunk (chunk : bytes) : option bytes :=
  let len := length (base.filter (fun b => b <> 61) chunk) in
  if Nat.ltb len 2 then None
  else
    match b64_val (default 0 (chunk !! 0%nat)), b64_val (default 0 (chunk !! 1%nat)) with
    | Some a, Some b =>
        let o1 := Z.lor (shl8 a 2) (Z.shiftr b 4) in
        if Nat.ltb 2 len then
          match b64_val (default 0 (chunk !! 2%nat)) with
          | None => None
          | Some c =>
              let o2 := Z.lor (shl8 b 4) (Z.shiftr c 2) in
              if Nat.ltb 3 len then
                match b64_val (default 0 (chunk !! 3%nat)) with
                | None => None
                | Some d => Some [o1; o2; Z.lor (shl8 c 6) d]
                end
              else Some [o1; o2]
          end
        else Some [o1]
    | _, _ => None
    end.

Fixpoint simple_base64_decode (input : bytes) : option bytes :=
  match input with
  | a :: b :: c :: d :: ((_ :: _) as rest) =>
      match decode_chunk [a; b; c; d] with
      | None => None
      | Some out => match simple_base64_decode rest with
                    | Some outs => Some (out ++ outs)
                    | None => None
                    end
      end
  | [] => Some []
  | chunk => decode_chunk chunk
  end.

Definition is_ascii_alphanumeric (c : Z) : bool :=
  ((48 <=? c) && (c <=? 57)) || ((65 <=? c) && (c <=? 90)) || ((97 <=? c) && (c <=? 122)).

Definition decode_base64 (input : bytes) : option bytes :=
  let trimmed := trim input in
  if is_nil trimmed ||
     negb (forallb (fun c => is_ascii_alphanumeric c || (c =? 43) || (c =? 47) || (c =? 61)) trimmed)
  then None
  else
    match simple_base64_decode trimmed with
    | Some bytes => if utf8_valid bytes then Some bytes else None
    | None => None
    end.

Section Transform.
Context `{Unicode}.

Definition apply_one (result : bytes) (t : Transformation) : bytes :=
  match t with
  | Lowercase => to_lowercase result
  | UrlDecode => url_decode result
  | HtmlEntityDecode => html_entity_decode result
  | Base64Decode => unwrap_or result (decode_base64 result)
  | RemoveWhitespace => encode (base.filter (fun c => char_is_whitespace c = false) (chars result))
  | NormalizePath => normalize_path result
  | NoTransformation => result
  end.

Definition apply_transformations (input : bytes) (ts : list Transformation) : bytes :=
  foldl apply_one input ts.
End Transform.

(** ** Base64 *)

Definition b64_char (i : Z) : Z := default 0 (base64_table !! Z.to_nat i).

(** RFC 4648 encoding. *)
Fixpoint base64_encode (l : bytes) : bytes :=
  match l with
  | [] => []
  | [x] => [b64_char (x / 4); b64_char (x mod 4 * 16); 61; 61]
  | [x; y] => [b64_char (x / 4); b64_char (x mod 4 * 16 + y / 16); b64_char (y mod 16 * 4); 61]
  | x :: y :: z :: l =>
      b64_char (x / 4) :: b64_char (x mod 4 * 16 + y / 16) ::
      b64_char (y mod 16 * 4 + z / 64) :: b64_char (z mod 64) :: base64_encode l
  end.

Lemma b64_val_char i : 0 <= i < 64 -> b64_val (b64_char i) = Some i /\ b64_char i <> 61.
Proof.
  intros Hi.
  assert (H : forallb (fun i => bool_decide (b64_val (b64_char i) = Some i) &&
    negb (b64_char i =? 61)) (seqZ 0 64) = true) by (vm_compute; reflexivity).
  apply (forall_below 64) with (x := i) in H; [|done].
  apply andb_true_iff in H as [H1%bool_decide_eq_true H2%negb_true_iff].
  apply Z.eqb_neq in H2. done.
Qed.

(** The three bytes of a chunk, without bit operations. *)
Lemma chunk_bits a b : 0 <= a < 64 -> 0 <= b < 64 ->
  Z.lor (shl8 a 2) (Z.shiftr b 4) = a * 4 + b / 16 /\
  Z.lor (shl8 a 4) (Z.shiftr b 2) = a mod 16 * 16 + b / 4 /\
  Z.lor (shl8 a 6) b = a mod 4 * 64 + b.
Proof.
  intros Ha Hb.
  assert (H : forallb (fun a => forallb (fun b =>
    (Z.lor (shl8 a 2) (Z.shiftr b 4) =? a * 4 + b / 16) &&
    (Z.lor (shl8 a 4) (Z.shiftr b 2) =? a mod 16 * 16 + b / 4) &&
    (Z.lor (shl8 a 6) b =? a mod 4 * 64 + b)) (seqZ 0 64)) (seqZ 0 64) = true)
    by (vm_compute; reflexivity).
  apply (forall_below 64) with (x := a) in H; [|done].
  apply (forall_below 64) with (x := b) in H; [|done].
  apply andb_true_iff in H as [[H1 H2]%andb_true_iff H3]. rewrite !Z.eqb_eq in *. done.
Qed.

(** A chunk of four characters of the alphabet. *)
Lemma decode_chunk_full a b c d :
  0 <= a < 64 -> 0 <= b < 64 -> 0 <= c < 64 -> 0 <= d < 64 ->
  decode_chunk [b64_char a; b64_char b; b64_char c; b64_char d] =
  Some [a * 4 + b / 16; b mod 16 * 16 + c / 4; c mod 4 * 64 + d].
Proof.
  intros Ha Hb Hc Hd.
  destruct (b64_val_char a Ha) as [Va Na], (b64_val_char b Hb) as [Vb Nb],
    (b64_val_char c Hc) as [Vc Nc], (b64_val_char d Hd) as [Vd Nd].
  unfold decode_chunk. rewrite !filter_cons_True by done. simpl.
  rewrite Va, Vb, Vc, Vd.
  destruct (chunk_bits a b Ha Hb) as (-> & _), (chunk_bits b c Hb Hc) as (_ & -> & _),
    (chunk_bits c d Hc Hd) as (_ & _ & ->). done.
Qed.

Lemma decode_chunk_three a b c :
  0 <= a < 64 -> 0 <= b < 64 -> 0 <= c < 64 ->
  decode_chunk [b64_char a; b64_char b; b64_char c; 61] =
  Some [a * 4 + b / 16; b mod 16 * 16 + c / 4].
Proof.
  intros Ha Hb Hc.
  destruct (b64_val_char a Ha) as [Va Na], (b64_val_char b Hb) as [Vb Nb],
    (b64_val_char c Hc) as [Vc Nc].
  unfold decode_chunk. rewrite !filter_cons_True by done. rewrite filter_cons_False by (intros ?; done).
  simpl. rewrite Va, Vb, Vc.
  destruct (chunk_bits a b Ha Hb) as (-> & _), (chunk_bits b c Hb Hc) as (_ & -> & _). done.
Qed.

Lemma decode_chunk_two a b :
  0 <= a < 64 -> 0 <= b < 64 ->
  decode_chunk [b64_char a; b64_char b; 61; 61] = Some [a * 4 + b / 16].
Proof.
  intros Ha Hb.
  destruct (b64_val_char a Ha) as [Va Na], (b64_val_char b Hb) as [Vb Nb].
  unfold decode_chunk. rewrite !filter_cons_True by done. rewrite !filter_cons_False by (intros ?; done).
  simpl. rewrite Va, Vb. by destruct (chunk_bits a b Ha Hb) as (-> & _).
Qed.

Lemma simple_base64_decode_chunk a b c d rest :
  rest <> [] ->
  simple_base64_decode (a :: b :: c :: d :: rest) =
  match decode_chunk [a; b; c; d] with
  | None => None
  | Some out => match simple_base64_decode rest with
                | Some outs => Some (out ++ outs)
                | None => None
                end
  end.
Proof. by destruct rest. Qed.

Lemma base64_roundtrip l : Forall is_byte l -> simple_base64_decode (base64_encode l) = Some l.
Proof.
  unfold is_byte. revert l. fix IH 1. intros [|x [|y [|z l]]] Hl; [done|..].
  - apply Forall_cons in Hl as [Hx _]. simpl.
    rewrite decode_chunk_two by divmod. do 2 f_equal. divmod.
  - apply Forall_cons in Hl as [Hx [Hy _]%Forall_cons]. simpl.
    rewrite decode_chunk_three by divmod. do 2 f_equal; [divmod|]. f_equal. divmod.
  - apply Forall_cons in Hl as [Hx [Hy [Hz Hl]%Forall_cons]%Forall_cons]. cbn [base64_encode].
    assert (Hc : decode_chunk [b64_char (x / 4); b64_char (x mod 4 * 16 + y / 16);
      b64_char (y mod 16 * 4 + z / 64); b64_char (z mod 64)] = Some [x; y; z]).
    { rewrite decode_chunk_full by divmod. do 2 f_equal; [divmod|]. f_equal; [divmod|].
      f_equal. divmod. }
    pose proof (IH l Hl) as IHl. destruct (base64_encode l) as [|e es] eqn:El.
    + simpl. rewrite Hc. simpl in IHl. by injection IHl as <-.
    + rewrite simple_base64_decode_chunk by done. by rewrite Hc, IHl.
Qed.

(** ** Percent decoding *)

(** Every byte written as [%XX]. *)
Definition percent_encode (s : bytes) : bytes := flat_map (fun b => 37 :: show_hex 2 b []) s.

Lemma hex_roundtrip b : 0 <= b < 128 ->
  exists h1 h2, show_hex 2 b [] = [h1; h2] /\ h1 < 128 /\ h2 < 128 /\ 0 <= h1 /\ 0 <= h2 /\
    parse_uint 8 16 [h1; h2] = Some b.
Proof.
  intros Hb.
  assert (H : forallb (fun b => match show_hex 2 b [] with
    | [h1; h2] => (h1 <? 128) && (h2 <? 128) && (0 <=? h1) && (0 <=? h2) &&
        bool_decide (parse_uint 8 16 [h1; h2] = Some b)
    | _ => false end) (seqZ 0 128) = true) by (vm_compute; reflexivity).
  apply (forall_below 128) with (x := b) in H; [|done].
  destruct (show_hex 2 b []) as [|h1 [|h2 [|]]]; try done.
  bool_to_prop. exists h1, h2. split; [done|]. split_and!; [lia..|done].
Qed.

Lemma url_decode_percent cs c :
  0 <= c < 128 -> url_decode_chars (37 :: show_hex 2 c [] ++ cs) = c :: url_decode_chars cs.
Proof.
  intros Hc. destruct (hex_roundtrip c Hc) as (h1 & h2 & -> & ? & ? & ? & ? & Hp).
  cbn [app url_decode_chars]. rewrite Z.eqb_refl.
  rewrite encode_ascii by (repeat constructor; lia). simpl length. cbn [Nat.eqb]. by rewrite Hp.
Qed.

Lemma percent_encode_ascii s : is_ascii s -> is_ascii (percent_encode s).
Proof.
  induction 1 as [|c s Hc Hs IH]; [constructor|].
  destruct (hex_roundtrip c Hc) as (h1 & h2 & Hh & ?).
  change (percent_encode (c :: s)) with ((37 :: show_hex 2 c []) ++ percent_encode s).
  rewrite Hh. repeat constructor; try lia. done.
Qed.

(** *** The loop over double slashes *)

Lemma replace_fuel_length fuel s p r :
  (length r <= length p)%nat -> (length (replace_fuel fuel s p r) <= length s)%nat.
Proof.
  intros Hr. revert s. induction fuel as [|fuel IH]; intros s; [done|].
  destruct s as [|x s]; [done|]. cbn [replace_fuel].
  destruct (strip_prefix (x :: s) p) as [rest|] eqn:E.
  - apply strip_prefix_Some in E. rewrite E, !length_app. pose proof (IH rest). lia.
  - simpl. pose proof (IH s). lia.
Qed.

Lemma replace_shrinks s p r :
  (length r < length p)%nat -> contains s p = true -> (length (replace s p r) < length s)%nat.
Proof.
  intros Hr. unfold replace, contains. generalize (le_n (length s)).
  generalize (length s) at 2 3. intros fuel. revert s.
  induction fuel as [|fuel IH]; intros s Hf.
  { destruct s; [|simpl in Hf; lia]. unfold find. destruct p; [simpl in Hr; lia|done]. }
  destruct s as [|x s]; [destruct p; [simpl in Hr; lia|done]|].
  cbn [replace_fuel]. destruct (strip_prefix (x :: s) p) as [rest|] eqn:E.
  - intros _. apply strip_prefix_Some in E. rewrite E, !length_app.
    pose proof (replace_fuel_length fuel rest p r ltac:(lia)). lia.
  - intros Hc. simpl. enough (length (replace_fuel fuel s p r) < length s)%nat by lia.
    simpl in Hf. apply IH; [lia|]. revert Hc. cbn [find]. unfold starts_with. rewrite E.
    by destruct (find s p).
Qed.

Lemma collapse_slashes_done fuel s :
  (length s <= fuel)%nat -> contains (collapse_slashes fuel s) (bs "//") = false.
Proof.
  revert s. induction fuel as [|fuel IH]; intros s Hf; simpl.
  - by destruct s; [|simpl in Hf; lia].
  - destruct (contains s (bs "//")) eqn:E; [|done]. apply IH.
    pose proof (replace_shrinks s (bs "//") (bs "/") ltac:(simpl; lia) E). lia.
Qed.

(** ** Properties *)

(** The hand-written Base64 decoder inverts RFC 4648 encoding: decoding the
    encoding of any bytes, with its padding, gives the bytes back. *)
Theorem base64_decode_encode l :
  Forall is_byte l -> simple_base64_decode (base64_encode l) = Some l.
Proof. apply base64_roundtrip. Qed.

Lemma base64_decode_encode_witness :
  simple_base64_decode (base64_encode [255; 0; 128; 7]) = Some [255; 0; 128; 7].
Proof.
  apply (base64_decode_encode [255; 0; 128; 7]).
  repeat (apply Forall_cons; split; [split; [discriminate|reflexivity]|]). apply Forall_nil. exact I.
Defined.

(** Percent decoding sees through full encoding: for any ASCII text,
    [url_decode] of the text with every byte written [%XX] is the text, so no ASCII
    payload hides from the rules by being percent-encoded once. *)
Theorem url_decode_percent_encode s : is_ascii s -> url_decode (percent_encode s) = s.
Proof.
  intros Hs. unfold url_decode. rewrite <- (app_nil_r (percent_encode s)).
  rewrite chars_ascii_app by by apply percent_encode_ascii. simpl. rewrite app_nil_r.
  assert (url_decode_chars (percent_encode s) = s) as ->; [|by apply encode_ascii].
  induction Hs as [|c s Hc Hs IH]; [done|].
  change (percent_encode (c :: s)) with (37 :: show_hex 2 c [] ++ percent_encode s).
  by rewrite url_decode_percent, IH.
Qed.

Lemma url_decode_percent_encode_witness :
  url_decode (percent_encode (bs "<script>")) = bs "<script>".
Proof.
  apply (url_decode_percent_encode (bs "<script>")). unfold is_ascii.
  repeat (apply Forall_cons; split; [split; [discriminate|reflexivity]|]). apply Forall_nil. exact I.
Defined.

(** A stray percent sign hides the escape after it: after [%%] the decoder has
    consumed the second percent sign and one hexadecimal digit, so that the escape
    [%XY] is left encoded, whatever follows. *)
Theorem url_decode_double_percent x y cs :
  url_decode_chars (37 :: 37 :: x :: y :: cs) = 37 :: 37 :: x :: url_decode_chars (y :: cs).
Proof.
  cbn [url_decode_chars]. rewrite !Z.eqb_refl.
  assert ((if Nat.eqb (length (encode [37; x])) 2 then parse_uint 8 16 (encode [37; x]) else None)
    = None) as ->; [|done].
  change (encode [37; x]) with (37 :: encode [x]). destruct (Nat.eqb _ _); [|done].
  unfold parse_uint. destruct (encode [x]); done.
Qed.

(** The loop of [normalize_path] that collapses slashes ends, within as many
    turns as the string has bytes, in a string without double slashes. *)
Theorem normalize_path_slashes s :
  contains (collapse_slashes (length s) s) (bs "//") = false.
Proof. by apply collapse_slashes_done. Qed.
