(* ===== verification/WafEngine.v ===== *)
(** * The firewall engine: [serverwall-waf/src/engine.rs]

    Construction from the configuration, inspection of a request, and what decides
    its verdict. *)

From S2P Require Import Prelude RustStr Schema Net External Acl WafRules WafBuiltin WafMatcher.
Open Scope Z_scope.

(** ** Data *)

Inductive WafMode := Blocking | DetectionOnly | Disabled.

#[export] Instance WafMode_eq_dec : EqDecision WafMode.
Proof. solve_decision. Defined.

Record RequestLimits := mkLimits {
  max_body_size : Z;
  max_header_count : Z;
  max_header_value_len : Z;
  max_uri_length : Z;
}.

Definition default_limits : RequestLimits := mkLimits (10 * 1024 * 1024) 100 8192 8192.

Record WafVerdict := mkVerdict {
  decision : WafDecision;
  matched_rules : list bytes;
  anomaly_score : Z;
}.

(** The mode of the configuration as one of the engine. *)
Definition waf_mode_convert (m : ConfigWafMode) : WafMode :=
  match m with
  | ModeBlocking => Blocking
  | ModeDetectionOnly => DetectionOnly
  | ModeDisabled => Disabled
  end.

Section Engine.
Context `{RegexSetLib} `{Unicode}.

Record WafEngine := mkWafEngine {
  mode : WafMode;
  anomaly_threshold : Z;
  paranoia_level : Z;
  rule_groups : list CompiledRuleGroup;
  limits : RequestLimits;
  excluded_paths : list bytes;
  excluded_ips : list bytes;
}.

(** ** Construction *)

Definition option_to_list {A} (o : option A) : list A :=
  match o with Some x => [x] | None => [] end.

Definition active_rules (level : Z) : list WafRule :=
  base.filter (fun r => r_paranoia_level r <= level) all_builtin_rules.

Definition with_config (m : WafMode) (thr level : Z) (lim : RequestLimits) : WafEngine :=
  mkWafEngine m thr level (option_to_list (compile (active_rules level))) lim [] [].

Definition WafEngine_new (m : WafMode) : WafEngine := with_config m 5 1 default_limits.

(** [by_target.entry(key).or_default().push(rule)]; the key is the printed form of
    the first target. *)
Fixpoint push_group (by_target : list (option RuleTarget * list WafRule)) (r : WafRule)
  : list (option RuleTarget * list WafRule) :=
  let key := head (r_targets r) in
  match by_target with
  | [] => [(key, [r])]
  | (k, rs) :: rest =>
      if bool_decide (k = key) then (k, rs ++ [r]) :: rest else (k, rs) :: push_group rest r
  end.

Definition group_rules (rules : list WafRule) : list (option RuleTarget * list WafRule) :=
  foldl push_group [] rules.

Definition add_custom_rules (e : WafEngine) (rules : list WafRule) : WafEngine :=
  mkWafEngine (mode e) (anomaly_threshold e) (paranoia_level e)
    (rule_groups e ++ filter_map (fun kg => compile kg.2) (group_rules rules))
    (limits e) (excluded_paths e) (excluded_ips e).

Definition engine_from_ruleset_config (read_dir : bytes -> option (list RulesFile))
    (config : WafRulesetConfig) : WafEngine :=
  let engine := with_config (waf_mode_convert (rs_mode config)) (rs_anomaly_threshold config)
                  (rs_paranoia_level config) default_limits in
  let custom_rules := parser_from_ruleset_config read_dir config in
  let engine := if is_nil custom_rules then engine else add_custom_rules engine custom_rules in
  mkWafEngine (mode engine) (anomaly_threshold engine) (paranoia_level engine)
    (rule_groups engine) (limits engine) (ex_paths (rs_exclusions config))
    (ex_ip_addresses (rs_exclusions config)).

(** ** Inspection *)

Definition check_body_size (lim : RequestLimits) (ctx : HttpRequestContext) (s : AnomalyScorer) :=
  if (0 <? max_body_size lim) && (max_body_size lim <? body_size ctx)
  then add_match s (bs "LIMIT:body_size") 5 else s.

Definition check_header_count (lim : RequestLimits) (ctx : HttpRequestContext) (s : AnomalyScorer) :=
  if max_header_count lim <? header_count ctx then add_match s (bs "LIMIT:header_count") 5 else s.

Definition check_uri_length (lim : RequestLimits) (ctx : HttpRequestContext) (s : AnomalyScorer) :=
  if max_uri_length lim <? Z.of_nat (length (uri ctx))
  then add_match s (bs "LIMIT:uri_length") 5 else s.

Definition check_header_values (lim : RequestLimits) (ctx : HttpRequestContext) (s : AnomalyScorer) :=
  foldl (fun s nv =>
    if max_header_value_len lim <? Z.of_nat (length nv.2)
    then add_match s (bs "LIMIT:header_value_len:" ++ nv.1) 5 else s) s (headers ctx).

Definition check_limits (e : WafEngine) (ctx : HttpRequestContext) (s : AnomalyScorer)
  : option WafVerdict * AnomalyScorer :=
  let lim := limits e in
  let s := check_body_size lim ctx s in
  let s := check_header_count lim ctx s in
  let s := check_uri_length lim ctx s in
  let s := check_header_values lim ctx s in
  if is_anomalous s && bool_decide (mode e = Blocking)
  then (Some (mkVerdict WafBlock (matched_rule_ids s) (current_score s)), s)
  else (None, s).

Definition rule_label (r : WafRule) : bytes := show (r_id r) ++ bs ":" ++ r_description r.

Definition score_value (g : CompiledRuleGroup) (ts : list Transformation) (s : AnomalyScorer)
    (value : bytes) : AnomalyScorer :=
  foldl (fun s idx =>
    match g_rules g !! idx with
    | Some rule => add_match s (rule_label rule) (r_score rule)
    | None => s
    end) s (group_matches g (apply_transformations value ts)).

Definition evaluate_group (ctx : HttpRequestContext) (s : AnomalyScorer) (g : CompiledRuleGroup)
  : AnomalyScorer :=
  let target_values := flat_map (extract_targets ctx) (g_targets g) in
  match g_rules g with
  | [] => s
  | first_rule :: _ => foldl (score_value g (r_transformations first_rule)) s target_values
  end.

Definition evaluate_rules (e : WafEngine) (ctx : HttpRequestContext) (s : AnomalyScorer)
  : AnomalyScorer :=
  foldl (evaluate_group ctx) s (rule_groups e).

Definition render_verdict (e : WafEngine) (s : AnomalyScorer) : WafVerdict :=
  if is_anomalous s then
    mkVerdict (match mode e with
               | Blocking => WafBlock
               | DetectionOnly => WafLog
               | Disabled => WafAllow
               end) (matched_rule_ids s) (current_score s)
  else mkVerdict WafAllow (matched_rule_ids s) (current_score s).

Definition excluded (e : WafEngine) (ctx : HttpRequestContext) : bool :=
  existsb (fun ip => bool_decide (ip = show_ip (remote_addr ctx))) (excluded_ips e) ||
  existsb (fun p => starts_with (path ctx) p) (excluded_paths e).

Definition inspect (e : WafEngine) (ctx : HttpRequestContext) : WafVerdict :=
  if bool_decide (mode e = Disabled) then mkVerdict WafAllow [] 0
  else if existsb (fun ip => bool_decide (ip = show_ip (remote_addr ctx))) (excluded_ips e)
  then mkVerdict WafAllow [] 0
  else if existsb (fun p => starts_with (path ctx) p) (excluded_paths e)
  then mkVerdict WafAllow [] 0
  else
    match check_limits e ctx (AnomalyScorer_new (anomaly_threshold e)) with
    | (Some verdict, _) => verdict
    | (None, s) => render_verdict e (evaluate_rules e ctx s)
    end.
End Engine.

(** ** What a request scores *)

(** Recorded identifiers with their scores. *)
Definition hit : Type := bytes * Z.

Definition total (l : list hit) : Z := foldr (fun h a => h.2 + a) 0 l.

Lemma total_app l1 l2 : total (l1 ++ l2) = total l1 + total l2.
Proof. induction l1 as [|h l1 IH]; simpl; [done|]. rewrite IH. lia. Qed.

Definition add_hits (s : AnomalyScorer) (l : list hit) : AnomalyScorer :=
  foldl (fun s h => add_match s h.1 h.2) s l.

Lemma add_hits_app s l1 l2 : add_hits s (l1 ++ l2) = add_hits (add_hits s l1) l2.
Proof. apply foldl_app. Qed.

Definition scores_ok (l : list hit) : Prop := Forall (fun h => 0 <= h.2) l.

Lemma total_nonneg l : scores_ok l -> 0 <= total l.
Proof. induction 1; simpl; lia. Qed.

Lemma add_hits_spec l : forall s, in_u 32 (current_score s) -> scores_ok l ->
  threshold (add_hits s l) = threshold s /\
  matched_rule_ids (add_hits s l) = matched_rule_ids s ++ (fst <$> l) /\
  current_score (add_hits s l) = Z.min (current_score s + total l) (umax 32).
Proof.
  induction l as [|h l IH]; intros s Hs Hl; simpl.
  { unfold in_u in Hs. rewrite app_nil_r. split_and!; [done..|lia]. }
  apply Forall_cons in Hl as [Hh Hl]. pose proof (total_nonneg l Hl).
  destruct (IH (add_match s h.1 h.2)) as (-> & -> & ->); [|done|].
  { unfold in_u, saturating_add in *. simpl. unfold saturating_add. lia. }
  simpl. rewrite <- app_assoc. split_and!; [done..|]. unfold saturating_add, in_u in *. lia.
Qed.

Definition limit_hits (lim : RequestLimits) (ctx : HttpRequestContext) : list hit :=
  (if (0 <? max_body_size lim) && (max_body_size lim <? body_size ctx)
   then [(bs "LIMIT:body_size", 5)] else []) ++
  (if max_header_count lim <? header_count ctx then [(bs "LIMIT:header_count", 5)] else []) ++
  (if max_uri_length lim <? Z.of_nat (length (uri ctx)) then [(bs "LIMIT:uri_length", 5)] else []) ++
  filter_map (fun nv => if max_header_value_len lim <? Z.of_nat (length nv.2)
                        then Some (bs "LIMIT:header_value_len:" ++ nv.1, 5) else None) (headers ctx).

Lemma limit_hits_ok lim ctx : scores_ok (limit_hits lim ctx).
Proof.
  unfold limit_hits, scores_ok. rewrite !Forall_app. split_and!;
    [by destruct (_ && _); repeat constructor|by destruct (_ <? _); repeat constructor..|].
  apply Forall_forall. intros h (nv & _ & Hh)%elem_of_filter_map.
  destruct (_ <? _); [|done]. by injection Hh as <-.
Qed.

Section Hits.
Context `{RegexSetLib} `{Unicode}.

Definition value_hits (g : CompiledRuleGroup) (v : bytes) : list hit :=
  filter_map (fun idx => (fun r => (rule_label r, r_score r)) <$> (g_rules g !! idx))
    (group_matches g v).

Definition group_hits (ctx : HttpRequestContext) (g : CompiledRuleGroup) : list hit :=
  match g_rules g with
  | [] => []
  | r0 :: _ =>
      flat_map (fun v => value_hits g (apply_transformations v (r_transformations r0)))
        (flat_map (extract_targets ctx) (g_targets g))
  end.

Definition rule_hits (e : WafEngine) (ctx : HttpRequestContext) : list hit :=
  flat_map (group_hits ctx) (rule_groups e).

Lemma score_value_hits g ts s v :
  score_value g ts s v = add_hits s (value_hits g (apply_transformations v ts)).
Proof.
  unfold score_value, value_hits. generalize (group_matches g (apply_transformations v ts)).
  intros l. revert s. induction l as [|i l IH]; intros s; simpl; [done|].
  rewrite IH. by destruct (g_rules g !! i).
Qed.

Lemma evaluate_group_hits ctx s g : evaluate_group ctx s g = add_hits s (group_hits ctx g).
Proof.
  unfold evaluate_group, group_hits. destruct (g_rules g) as [|r0 rs] eqn:Eg; [done|].
  generalize (flat_map (extract_targets ctx) (g_targets g)). intros l. revert s.
  induction l as [|v l IH]; intros s; simpl; [done|].
  by rewrite IH, score_value_hits, add_hits_app.
Qed.

Lemma evaluate_rules_hits e ctx s : evaluate_rules e ctx s = add_hits s (rule_hits e ctx).
Proof.
  unfold evaluate_rules, rule_hits. generalize (rule_groups e). intros l. revert s.
  induction l as [|g l IH]; intros s; simpl; [done|].
  by rewrite IH, evaluate_group_hits, add_hits_app.
Qed.

Lemma check_limits_hits e ctx s :
  check_limits e ctx s =
  let s' := add_hits s (limit_hits (limits e) ctx) in
  if is_anomalous s' && bool_decide (mode e = Blocking)
  then (Some (mkVerdict WafBlock (matched_rule_ids s') (current_score s')), s') else (None, s').
Proof.
  unfold check_limits, limit_hits. rewrite !add_hits_app.
  assert (Hv : forall lim s, check_header_values lim ctx s =
    add_hits s (filter_map (fun nv => if max_header_value_len lim <? Z.of_nat (length nv.2)
      then Some (bs "LIMIT:header_value_len:" ++ nv.1, 5) else None) (headers ctx))).
  { intros lim. unfold check_header_values. generalize (headers ctx) as l.
    induction l as [|nv l IH]; intros s0; simpl; [done|]. rewrite IH. by destruct (_ <? _). }
  rewrite Hv. unfold check_body_size, check_header_count, check_uri_length. cbv zeta.
  by destruct ((0 <? max_body_size (limits e)) && (max_body_size (limits e) <? body_size ctx)),
    (max_header_count (limits e) <? _), (max_uri_length (limits e) <? _).
Qed.

(** The scores of an engine's rules are machine words. *)
Definition engine_ok (e : WafEngine) : Prop :=
  in_u 32 (anomaly_threshold e) /\
  Forall (fun g => Forall (fun r => 0 <= r_score r) (g_rules g)) (rule_groups e).

Lemma rule_hits_ok e ctx : engine_ok e -> scores_ok (rule_hits e ctx).
Proof.
  intros [_ He]. unfold scores_ok. apply Forall_forall.
  intros h Hin. unfold rule_hits in Hin. apply list_elem_of_In, in_flat_map in Hin as (g & Hg & Hin).
  rewrite Forall_forall in He. specialize (He g (proj2 (list_elem_of_In _ _) Hg)).
  unfold group_hits in Hin. destruct (g_rules g) as [|r0 rs] eqn:Er; [done|].
  apply in_flat_map in Hin as (v & _ & Hin).
  apply list_elem_of_In, elem_of_filter_map in Hin as (i & _ & Hi).
  apply fmap_Some in Hi as (r & Hr & ->). simpl. rewrite Er in Hr.
  rewrite Forall_forall in He. apply He. by eapply list_elem_of_lookup_2.
Qed.

(** The score of a request, and the verdict it has without any short cut. *)
Definition request_score (e : WafEngine) (ctx : HttpRequestContext) : Z :=
  Z.min (total (limit_hits (limits e) ctx) + total (rule_hits e ctx)) (umax 32).

Definition reference_decision (e : WafEngine) (ctx : HttpRequestContext) : WafDecision :=
  if bool_decide (mode e = Disabled) || excluded e ctx then WafAllow
  else if anomaly_threshold e <=? request_score e ctx then
    match mode e with Blocking => WafBlock | _ => WafLog end
  else WafAllow.
End Hits.

(** ** Batch matching *)

Section Batch.
Context `{RegexSetSpec} `{Unicode}.

(** The rule's own pattern matches the value. *)
Definition rule_matches (v : bytes) (r : WafRule) : bool :=
  match regex_new (r_pattern r) with Some re => is_match re v | None => false end.

Definition hit_of (r : WafRule) : hit := (rule_label r, r_score r).

(** A group is compiled when its set comes from the patterns of its rules. *)
Definition group_ok (g : CompiledRuleGroup) : Prop :=
  set_new (r_pattern <$> g_rules g) = Some (g_regex_set g).

Lemma compile_ok rules g : compile rules = Some g -> group_ok g.
Proof.
  unfold compile, group_ok. destruct rules as [|r0 rules]; [done|].
  destruct (set_new (r_pattern <$> r0 :: rules)) as [s|] eqn:E; [by intros [= <-]|].
  destruct (is_nil _); [done|]. destruct (set_new (r_pattern <$> base.filter _ _)) eqn:E2; [|done].
  by intros [= <-].
Qed.

Lemma indexed_hits v (pre rules : list WafRule) res :
  Forall2 (fun p re => regex_new p = Some re) (r_pattern <$> rules) res ->
  filter_map (fun idx => hit_of <$> ((pre ++ rules) !! idx))
    (filter_map (fun ire => if is_match ire.2 v then Some ire.1 else None)
       (imap (fun i re => ((length pre + i)%nat, re)) res)) =
  hit_of <$> base.filter (fun r => rule_matches v r = true) rules.
Proof.
  revert pre res. induction rules as [|r rules IH]; intros pre res Hres.
  { apply Forall2_nil_inv_l in Hres as ->. done. }
  simpl in Hres. apply Forall2_cons_inv_l in Hres as (re & res' & Hre & Hres & ->).
  rewrite imap_cons. cbn [filter_map fst snd].
  assert (Hrest : filter_map (fun idx => hit_of <$> ((pre ++ r :: rules) !! idx))
    (filter_map (fun ire => if is_match ire.2 v then Some ire.1 else None)
       (imap ((fun i re => ((length pre + i)%nat, re)) ∘ S) res')) =
    hit_of <$> base.filter (fun r => rule_matches v r = true) rules).
  { rewrite <- (IH (pre ++ [r]) res' Hres), <- app_assoc. simpl. do 2 f_equal.
    apply imap_ext. intros i x _. simpl. rewrite length_app. simpl. f_equal. lia. }
  assert (Hm : is_match re v = rule_matches v r) by (unfold rule_matches; by rewrite Hre).
  rewrite Hm. destruct (rule_matches v r) eqn:Er.
  - cbn [filter_map]. rewrite Nat.add_0_r, (list_lookup_middle pre rules r) by done.
    rewrite filter_cons_True by done. simpl. by rewrite Hrest.
  - rewrite filter_cons_False by congruence. done.
Qed.

Lemma value_hits_filter g v :
  group_ok g ->
  value_hits g v = hit_of <$> base.filter (fun r => rule_matches v r = true) (g_rules g).
Proof.
  intros Hg. destruct (set_new_spec _ _ Hg) as (res & Hres & Hm).
  unfold value_hits, group_matches. rewrite Hm.
  apply (indexed_hits v [] (g_rules g) res Hres).
Qed.

Lemma total_filter_sublist v l1 l2 :
  sublist l1 l2 -> Forall (fun r => 0 <= r_score r) l2 ->
  total (hit_of <$> base.filter (fun r => rule_matches v r = true) l1) <=
  total (hit_of <$> base.filter (fun r => rule_matches v r = true) l2).
Proof.
  assert (Hc : forall r l, total (hit_of <$> base.filter (fun r => rule_matches v r = true) (r :: l)) =
    (if rule_matches v r then r_score r else 0) +
    total (hit_of <$> base.filter (fun r => rule_matches v r = true) l)).
  { intros r l. rewrite filter_cons. by destruct (rule_matches v r). }
  induction 1 as [|r l1 l2 Hs IH|r l1 l2 Hs IH]; intros Hl; [done|..];
    apply Forall_cons in Hl as [Hr Hl]; specialize (IH Hl); rewrite !Hc; [lia|].
  destruct (rule_matches v r); lia.
Qed.
End Batch.

(** ** The built-in rules *)

Definition sqli_targets : list RuleTarget := [QueryString; RequestBody; RequestUri; Cookies].

Lemma builtin_head :
  exists r rs, all_builtin_rules = r :: rs /\ r_targets r = sqli_targets /\
    r_transformations r = [Lowercase; UrlDecode] /\ r_paranoia_level r = 1 /\
    Forall (fun r => 1 <= r_paranoia_level r /\ 0 <= r_score r) (r :: rs).
Proof.
  eexists _, _. split; [reflexivity|]. split_and!; [done..|].
  repeat (apply Forall_cons; split; [split; done|]). by apply Forall_nil.
Qed.

Lemma active_rules_cases level :
  level < 1 /\ active_rules level = [] \/
  1 <= level /\ exists r rs, active_rules level = r :: rs /\ r_targets r = sqli_targets /\
    r_transformations r = [Lowercase; UrlDecode].
Proof.
  destruct builtin_head as (r & rs & Heq & Ht & Htr & Hp & Hall). unfold active_rules. rewrite Heq.
  destruct (decide (1 <= level)).
  - right. split; [done|]. rewrite filter_cons_True by lia. eauto.
  - left. split; [lia|]. assert (Hn : forall x, x ∈ r :: rs -> ~ r_paranoia_level x <= level).
    { intros x Hx. rewrite Forall_forall in Hall. specialize (Hall x Hx). lia. }
    revert Hn. generalize (r :: rs). induction l as [|x l IH]; [done|]. intros Hn.
    rewrite filter_cons_False by (apply Hn; left). apply IH. intros y Hy. apply Hn. by right.
Qed.

Lemma active_rules_ok level : Forall (fun r => 0 <= r_score r) (active_rules level).
Proof.
  destruct builtin_head as (r & rs & Heq & _ & _ & _ & Hall). unfold active_rules. rewrite Heq.
  apply Forall_forall. intros x [_ Hx]%list_elem_of_filter.
  rewrite Forall_forall in Hall. by destruct (Hall x Hx).
Qed.

Lemma active_rules_sublist p1 p2 : p1 <= p2 -> sublist (active_rules p1) (active_rules p2).
Proof.
  intros Hp. unfold active_rules. generalize all_builtin_rules. induction l as [|r l IH]; [done|].
  rewrite !filter_cons. destruct (decide (r_paranoia_level r <= p1)).
  - rewrite decide_True by lia. by constructor.
  - destruct (decide _); [by constructor|done].
Qed.

Section Builtin.
Context `{RegexSetLib} `{Unicode}.

(** However the rules compile, the group looks at the targets of the first. *)
Lemma compiled_builtin level g :
  compile (active_rules level) = Some g -> g_targets g = sqli_targets.
Proof.
  destruct (active_rules_cases level) as [[_ ->]|(_ & r & rs & -> & Ht & _)]; [done|].
  unfold compile. destruct (set_new _); [by intros [= <-]|].
  destruct (is_nil _); [done|]. destruct (set_new _); [|done]. by intros [= <-].
Qed.
End Builtin.

Lemma total_flat_map_le {A} (f g : A -> list hit) l :
  (forall x, total (f x) <= total (g x)) -> total (flat_map f l) <= total (flat_map g l).
Proof.
  intros Hfg. induction l as [|x l IH]; simpl; [done|]. rewrite !total_app.
  specialize (Hfg x). lia.
Qed.

(** The values the built-in rules look at. *)
Definition builtin_values `{Unicode} (ctx : HttpRequestContext) : list bytes :=
  (fun v => apply_transformations v [Lowercase; UrlDecode]) <$>
    flat_map (extract_targets ctx) sqli_targets.

Lemma group_hits_first `{RegexSetLib} `{Unicode} ctx g r0 rs :
  g_rules g = r0 :: rs ->
  group_hits ctx g =
  flat_map (fun v => value_hits g (apply_transformations v (r_transformations r0)))
    (flat_map (extract_targets ctx) (g_targets g)).
Proof. unfold group_hits. by intros ->. Qed.

Lemma builtin_group `{RegexSetSpec} `{Unicode} level s ctx :
  set_new (r_pattern <$> active_rules level) = Some s ->
  flat_map (group_hits ctx) (option_to_list (compile (active_rules level))) =
  flat_map (fun v => hit_of <$> base.filter (fun r => rule_matches v r = true) (active_rules level))
    (builtin_values ctx).
Proof.
  destruct (active_rules_cases level) as [[_ ->]|(_ & r & rs & Heq & Ht & Htr)].
  { intros _. simpl. by induction (builtin_values ctx). }
  intros Hs.
  assert (Hg : compile (active_rules level) = Some (mkGroup s (active_rules level) sqli_targets)).
  { unfold compile. rewrite Heq in *. by rewrite Hs, Ht. }
  rewrite Hg. simpl. rewrite app_nil_r, (group_hits_first _ _ r rs), Htr by done. unfold builtin_values.
  cbn [g_targets]. induction (flat_map (extract_targets ctx) sqli_targets) as [|v l IH]; [done|].
  cbn [flat_map fmap list_fmap]. rewrite IH. f_equal. by apply value_hits_filter.
Qed.

(** The scorer after the limits, and after the rules. *)
Lemma scores_of_request `{RegexSetLib} `{Unicode} e ctx :
  engine_ok e ->
  let s1 := add_hits (AnomalyScorer_new (anomaly_threshold e)) (limit_hits (limits e) ctx) in
  let s2 := evaluate_rules e ctx s1 in
  threshold s1 = anomaly_threshold e /\ threshold s2 = anomaly_threshold e /\
  current_score s2 = request_score e ctx /\ current_score s1 <= current_score s2.
Proof.
  intros He. pose proof (rule_hits_ok e ctx He) as Hr. pose proof (limit_hits_ok (limits e) ctx) as Hl.
  pose proof (total_nonneg _ Hr). pose proof (total_nonneg _ Hl). cbv zeta.
  rewrite evaluate_rules_hits. set (s0 := AnomalyScorer_new _).
  assert (Hs0 : in_u 32 (current_score s0)) by (unfold in_u, umax; simpl; lia).
  destruct (add_hits_spec (limit_hits (limits e) ctx) s0 Hs0 Hl) as (T1 & _ & C1).
  assert (Hs1 : in_u 32 (current_score (add_hits s0 (limit_hits (limits e) ctx))))
    by (rewrite C1; unfold in_u, umax in *; simpl; lia).
  destruct (add_hits_spec (rule_hits e ctx) _ Hs1 Hr) as (T2 & _ & C2).
  rewrite T2, C2, T1, C1. unfold request_score, umax in *. simpl. split_and!; [done..|lia|lia].
Qed.

(** Patterns as literal text, for closed examples. *)
#[export] Instance literal_set : @RegexSetLib literal_regex | 100 := {|
  RegexSet := list bytes;
  set_new ps := Some ps;
  set_matches s input :=
    filter_map (fun ire => if contains input ire.2 then Some ire.1 else None)
      (imap (fun i re => (i, re)) s);
  regex_escape p := p;
|}.
#[export] Instance literal_set_spec : @RegexSetSpec literal_regex literal_set.
Proof.
  constructor. intros ps s [= <-]. exists ps. split; [|done].
  induction ps; by constructor.
Qed.

(** A request for [/] whose query holds [q]. *)
Definition example_ctx (q : bytes) (hs : hmap) : HttpRequestContext :=
  mkCtx (bs "GET") (bs "/?" ++ q) (bs "/") q hs [] [] (ipv4 192 0 2 1) (bs "http") None.

(** An engine with one literal rule. *)
Definition example_rule : WafRule :=
  WafRule_regex 1 (bs "x") [QueryString] (bs "attack") 1 5 1.
Definition example_group : CompiledRuleGroup :=
  @mkGroup literal_regex literal_set [bs "attack"] [example_rule] [QueryString].
Definition example_engine (m : WafMode) : WafEngine :=
  mkWafEngine m 5 1 (option_to_list (compile [example_rule])) default_limits [] [].

(** ** Properties *)

(** C20: the verdict is that of the total score: whether the early exit on request
    limits is taken or not, the decision is the one the saturated sum of all limit
    and rule scores determines against the threshold (block, or only log in
    detection mode); a disabled engine and an excluded request allow. *)
Theorem inspect_decision `{RegexSetLib} `{Unicode} e ctx :
  engine_ok e -> decision (inspect e ctx) = reference_decision e ctx.
Proof.
  intros He. destruct (scores_of_request e ctx He) as (T1 & T2 & C2 & Hle).
  unfold inspect, reference_decision, excluded. case_bool_decide as Hm; [done|]. simpl.
  destruct (existsb _ (excluded_ips e)); [done|]. destruct (existsb _ (excluded_paths e)); [done|].
  rewrite check_limits_hits. cbv zeta. simpl. set (s1 := add_hits _ _) in *.
  destruct (is_anomalous s1 && bool_decide (mode e = Blocking)) eqn:E.
  - apply andb_true_iff in E as [Ha Hb]. apply bool_decide_eq_true in Hb. unfold is_anomalous in Ha.
    apply Z.leb_le in Ha. rewrite Hb, (proj2 (Z.leb_le _ _)) by lia. done.
  - unfold render_verdict, is_anomalous. rewrite T2, C2.
    destruct (_ <=? _); [|done]. by destruct (mode e).
Qed.

Lemma inspect_decision_witness :
  decision (inspect (example_engine Blocking) (example_ctx (bs "q=%61ttack") [])) =
  reference_decision (example_engine Blocking) (example_ctx (bs "q=%61ttack") []).
Proof.
  apply (inspect_decision (example_engine Blocking) (example_ctx (bs "q=%61ttack") [])).
  split; [vm_compute; split; discriminate|].
  repeat (apply Forall_cons; split; [|]); try apply Forall_nil; try exact I; vm_compute; discriminate.
Defined.

(** C21: batch matching is sound and complete: on every transformed value, the rules
    a compiled group reports are exactly those of its rules whose own pattern
    matches, in order, as if each had been tested alone. *)
Theorem batch_matching_equiv `{RegexSetSpec} rules g v :
  compile rules = Some g ->
  value_hits g v = hit_of <$> base.filter (fun r => rule_matches v r = true) (g_rules g).
Proof. intros Hg. apply value_hits_filter. by eapply compile_ok. Qed.

Lemma batch_matching_equiv_witness :
  value_hits example_group (bs "an attack")
  = hit_of <$> base.filter (fun r => rule_matches (bs "an attack") r = true) [example_rule].
Proof.
  apply (batch_matching_equiv [example_rule] example_group (bs "an attack")).
  reflexivity.
Defined.

(** A higher paranoia level never scores a request lower: when the built-in
    rules of both levels compile, the total of the rule scores at the lower level
    is at most that at the higher one. *)
Theorem paranoia_monotone `{RegexSetSpec} `{Unicode} m thr p1 p2 lim ctx s1 s2 :
  p1 <= p2 ->
  set_new (r_pattern <$> active_rules p1) = Some s1 ->
  set_new (r_pattern <$> active_rules p2) = Some s2 ->
  total (rule_hits (with_config m thr p1 lim) ctx) <= total (rule_hits (with_config m thr p2 lim) ctx).
Proof.
  intros Hp Hs1 Hs2. unfold rule_hits, with_config. simpl.
  rewrite (builtin_group p1 s1 ctx Hs1), (builtin_group p2 s2 ctx Hs2). apply total_flat_map_le. intros v.
  apply total_filter_sublist; [by apply active_rules_sublist|apply active_rules_ok].
Qed.

Lemma paranoia_monotone_witness :
  total (rule_hits (with_config Blocking 5 1 default_limits) (example_ctx (bs "sleep(1") [])) <=
  total (rule_hits (with_config Blocking 5 2 default_limits) (example_ctx (bs "sleep(1") [])).
Proof.
  apply (paranoia_monotone Blocking 5 1 2 default_limits (example_ctx (bs "sleep(1") [])
           (r_pattern <$> active_rules 1) (r_pattern <$> active_rules 2)).
  - discriminate.
  - reflexivity.
  - reflexivity.
Defined.

(** Header rules never see headers: at every paranoia level from 1 up, there are
    active built-in rules whose target is the request headers (request smuggling
    among them), yet what the built-in rules of the engine report depends on the
    query, the body, the URI and the cookies only: requests that differ in their
    headers alone report the same rules. *)
Theorem header_rules_ignore_headers `{RegexSetLib} `{Unicode} m thr level lim ctx1 ctx2 :
  1 <= level ->
  uri ctx1 = uri ctx2 -> query_string ctx1 = query_string ctx2 -> body ctx1 = body ctx2 ->
  cookies ctx1 = cookies ctx2 ->
  (exists r, r ∈ active_rules level /\ r_id r = 945100 /\ r_targets r = [RequestHeaders]) /\
  rule_hits (with_config m thr level lim) ctx1 = rule_hits (with_config m thr level lim) ctx2.
Proof.
  intros Hlevel Hu Hq Hb Hc. split.
  - unfold active_rules. setoid_rewrite list_elem_of_filter.
    assert (Hin : exists r, r ∈ all_builtin_rules /\ r_id r = 945100 /\
      r_targets r = [RequestHeaders] /\ r_paranoia_level r = 1).
    { exists (default example_rule (all_builtin_rules !! 47%nat)).
      split; [apply (list_elem_of_lookup_2 _ 47)|]; done. }
    destruct Hin as (r & Hin & Hid & Ht & Hp). exists r. split_and!; [lia|done..].
  - unfold rule_hits, with_config. simpl.
    destruct (compile (active_rules level)) as [g|] eqn:E; [|done]. simpl. f_equal.
    unfold group_hits. rewrite (compiled_builtin level g E). destruct (g_rules g) as [|r rs]; [done|].
    f_equal. simpl. by rewrite Hu, Hq, Hb, Hc.
Qed.

Lemma header_rules_ignore_headers_witness :
  (exists r, r ∈ active_rules 1 /\ r_id r = 945100 /\ r_targets r = [RequestHeaders]) /\
  rule_hits (with_config Blocking 5 1 default_limits) (example_ctx [] [(bs "te", bs "chunked")]) =
  rule_hits (with_config Blocking 5 1 default_limits) (example_ctx [] []).
Proof.
  apply (header_rules_ignore_headers Blocking 5 1 default_limits
           (example_ctx [] [(bs "te", bs "chunked")]) (example_ctx [] [])).
  - discriminate.
  - reflexivity.
  - reflexivity.
  - reflexivity.
  - reflexivity.
Defined.
