(* ===== verification/RateLimit.v ===== *)
(** * Request rate limiting: [serverwall-waf/src/rate_limit/mod.rs]

    Token buckets, one per key.  Instants are nanoseconds of a monotonic clock. *)

From S2P Require Import Prelude RustStr Net Float64.
Open Scope Z_scope.

Inductive RateLimitKey := ClientIp | Header (name : bytes).

Definition RateLimitKey_from_str (s : bytes) : RateLimitKey :=
  if bool_decide (s = bs "client_ip") then ClientIp
  else match strip_prefix s (bs "header:") with
       | Some header => Header header
       | None => ClientIp
       end.

Record TokenBucket := mkBucket {
  tokens : f64;
  max_tokens : f64;
  refill_rate : f64;
  last_refill : Z;
}.

Definition TokenBucket_new (now : Z) (max rate : f64) : TokenBucket := mkBucket max max rate now.

Definition refill (now : Z) (b : TokenBucket) : TokenBucket :=
  let elapsed := as_secs_f64 (Z.max 0 (now - last_refill b)) in
  if f_gt elapsed f0 then
    mkBucket (f_min (f_add (tokens b) (f_mul elapsed (refill_rate b))) (max_tokens b))
      (max_tokens b) (refill_rate b) now
  else b.

Definition try_consume (now : Z) (b : TokenBucket) : bool * TokenBucket :=
  let b := refill now b in
  if f_ge (tokens b) f1
  then (true, mkBucket (f_sub (tokens b) f1) (max_tokens b) (refill_rate b) (last_refill b))
  else (false, b).

Record RateLimiter := mkLimiter {
  buckets : gmap bytes TokenBucket;
  max_requests : f64;
  limiter_refill_rate : f64;
}.

Definition with_limits (max_requests window_secs : Z) : RateLimiter :=
  let max := f_of_Z max_requests in
  let refill := if 0 <? window_secs then f_div max (f_of_Z window_secs) else max in
  mkLimiter ∅ max refill.

Definition RateLimiter_new : RateLimiter := with_limits 100 60.

Definition check_key (now : Z) (l : RateLimiter) (key : bytes) : bool * RateLimiter :=
  let entry := unwrap_or (TokenBucket_new now (max_requests l) (limiter_refill_rate l))
                 (buckets l !! key) in
  let '(ok, entry) := try_consume now entry in
  (ok, mkLimiter (<[key := entry]> (buckets l)) (max_requests l) (limiter_refill_rate l)).

Definition limiter_is_allowed (now : Z) (l : RateLimiter) (addr : IpAddr) : bool * RateLimiter :=
  check_key now l (show_ip addr).

Definition cleanup (now : Z) (l : RateLimiter) : RateLimiter :=
  mkLimiter (base.filter (fun kb => Z.max 0 (now - last_refill kb.2) / 1000000000 < 300) (buckets l))
    (max_requests l) (limiter_refill_rate l).

(** ** Bursts *)

(** The answers of [k] requests with one key at one instant. *)
Fixpoint burst (now : Z) (l : RateLimiter) (key : bytes) (k : nat) : list bool * RateLimiter :=
  match k with
  | O => ([], l)
  | S k => let '(ok, l) := check_key now l key in
           let '(oks, l) := burst now l key k in (ok :: oks, l)
  end.

(** Taking one token off a whole number of them is exact. *)
Lemma whole_tokens n :
  0 <= n < 10000 ->
  f_ge (f_of_Z n) f1 = (1 <=? n) /\ f_sub (f_of_Z (n + 1)) f1 = f_of_Z n.
Proof.
  intros Hn.
  assert (H : forallb (fun n => Bool.eqb (f_ge (f_of_Z n) f1) (1 <=? n) &&
    match f_sub (f_of_Z (n + 1)) f1, f_of_Z n with
    | SpecFloat.S754_zero s1, SpecFloat.S754_zero s2 => Bool.eqb s1 s2
    | SpecFloat.S754_finite s1 m1 e1, SpecFloat.S754_finite s2 m2 e2 =>
        Bool.eqb s1 s2 && (m1 =? m2)%positive && (e1 =? e2)
    | _, _ => false
    end) (seqZ 0 10000) = true) by (vm_compute; reflexivity).
  apply (forall_below 10000) with (x := n) in H; [|done].
  apply andb_true_iff in H as [H1%Bool.eqb_prop H2]. split; [done|].
  destruct (f_sub _ _), (f_of_Z n); try done.
  - by apply Bool.eqb_prop in H2 as ->.
  - apply andb_true_iff in H2 as [[H2%Bool.eqb_prop H3%Pos.eqb_eq]%andb_true_iff H4%Z.eqb_eq].
    by subst.
Qed.

Lemma refill_now now b : last_refill b = now -> refill now b = b.
Proof. intros <-. unfold refill. by rewrite Z.sub_diag. Qed.

(** Waiting never fills a bucket beyond its capacity. *)
Lemma refill_capped now b :
  f_is_nan (max_tokens b) = false -> f_le (tokens b) (max_tokens b) = true ->
  f_le (tokens (refill now b)) (max_tokens b) = true.
Proof. intros. unfold refill. destruct (f_gt _ _); [|done]. by apply f_min_le_r. Qed.

Lemma try_consume_whole now max rate n :
  0 <= n <= 10000 ->
  try_consume now (mkBucket (f_of_Z n) max rate now) =
  if 1 <=? n then (true, mkBucket (f_of_Z (n - 1)) max rate now)
  else (false, mkBucket (f_of_Z n) max rate now).
Proof.
  intros Hn. unfold try_consume. rewrite refill_now by done. simpl.
  destruct (decide (n = 0)) as [->|Hne]; [done|].
  destruct (whole_tokens (n - 1)) as [_ Hs]; [lia|]. rewrite Z.sub_add in Hs. rewrite Hs.
  assert (Hge : f_ge (f_of_Z n) f1 = true).
  { destruct (decide (n = 10000)) as [->|]; [vm_compute; done|].
    destruct (whole_tokens n) as [-> _]; [lia|]. apply Z.leb_le. lia. }
  rewrite Hge, (proj2 (Z.leb_le 1 n)) by lia. done.
Qed.

Lemma burst_from now key max rate n k : forall l,
  0 <= n <= 10000 -> buckets l !! key = Some (mkBucket (f_of_Z n) max rate now) ->
  (burst now l key k).1 =
  replicate (Nat.min k (Z.to_nat n)) true ++ replicate (k - Z.to_nat n) false.
Proof.
  revert n. induction k as [|k IH]; intros n l Hn Hl; [done|].
  cbn [burst]. unfold check_key. rewrite Hl. cbn [unwrap_or]. rewrite try_consume_whole by done.
  destruct (1 <=? n) eqn:E.
  - apply Z.leb_le in E. set (l' := mkLimiter _ _ _).
    specialize (IH (n - 1) l'). destruct (burst now l' key k) as [oks l'']. simpl in IH |- *.
    rewrite IH; [|lia|apply lookup_insert_eq].
    replace (Z.to_nat n) with (S (Z.to_nat (n - 1))) by lia. done.
  - apply Z.leb_gt in E. set (l' := mkLimiter _ _ _).
    specialize (IH n l'). destruct (burst now l' key k) as [oks l'']. simpl in IH |- *.
    rewrite IH; [|lia|apply lookup_insert_eq].
    replace (Z.to_nat n) with 0%nat by lia. rewrite Nat.min_0_r, Nat.sub_0_r. done.
Qed.

(** ** Properties *)

(** C32: a burst is limited exactly: with a limit of [max] requests (up to 10,000),
    of any number of requests with a new key at one instant the first [max] are
    allowed and all others refused, whatever the window. *)
Theorem burst_exact max window now key k :
  0 <= max <= 10000 ->
  (burst now (with_limits max window) key k).1 =
  replicate (Nat.min k (Z.to_nat max)) true ++ replicate (k - Z.to_nat max) false.
Proof.
  intros Hm. destruct k as [|k]; [done|]. set (l := with_limits max window).
  assert (Hfirst : burst now l key (S k) = burst now (mkLimiter
    {[key := mkBucket (f_of_Z max) (f_of_Z max) (limiter_refill_rate l) now]}
    (max_requests l) (limiter_refill_rate l)) key (S k)).
  { cbn [burst]. unfold check_key, l, with_limits. simpl. rewrite lookup_empty, lookup_singleton_eq.
    simpl. unfold TokenBucket_new. rewrite try_consume_whole by done.
    destruct (1 <=? max); by rewrite <- insert_empty, insert_insert_eq. }
  rewrite Hfirst. apply (burst_from _ _ (f_of_Z max) (limiter_refill_rate l)); [done|].
  apply lookup_singleton_eq.
Qed.

Lemma burst_exact_witness :
  (burst 5 (with_limits 2 60) (bs "10.0.0.1") 4).1 = [true; true; false; false].
Proof. apply (burst_exact 2 60 5 (bs "10.0.0.1") 4). split; discriminate. Defined.
