(* ===== verification/Antispam.v ===== *)
(** * Anti-spam scoring and the check pipeline

    [serverwall-antispam]: the score, its contributions and verdicts
    ([score.rs], [result.rs]), the allow and block lists ([lists/]), the counters
    of [storage/rate_db.rs], the orchestration of the checks ([pipeline.rs]) and
    the headers that report the outcome ([headers.rs]).  The checks themselves
    are in [AntispamPre] and [AntispamPost]; the pipeline is proved against the
    two traits only. *)

From S2P Require Import Prelude RustStr Schema Net Float64.
From Stdlib Require Import SpecFloat.
Open Scope Z_scope.

(** ** Scores ([score.rs]) *)

Record SpamScore := mkScore { raw : f64 }.

Definition SpamScore_new : SpamScore := mkScore f0.

Definition score_add (s : SpamScore) (weight severity : f64) : SpamScore :=
  mkScore (f_add (raw s) (f_mul weight severity)).

(** [f64::clamp] panics unless [min <= max], and keeps a NaN. *)
Definition f_clamp (x lo hi : f64) : option f64 :=
  if f_le lo hi then Some (if f_lt x lo then lo else if f_gt x hi then hi else x) else None.

Definition percentage (s : SpamScore) (max_score : f64) : option f64 :=
  if f_le max_score f0 then Some f0
  else clamped ← f_clamp (raw s) f0 max_score;
       Some (f_mul (f_div clamped max_score) (f_of_Z 100)).

Inductive SpamVerdict := Clean | Suspect | Spam.

#[export] Instance SpamVerdict_eq_dec : EqDecision SpamVerdict.
Proof. solve_decision. Defined.

Definition verdict (s : SpamScore) (max_score suspect_threshold spam_threshold : f64)
  : option SpamVerdict :=
  pct ← percentage s max_score;
  Some (if f_ge pct spam_threshold then Spam
        else if f_ge pct suspect_threshold then Suspect
        else Clean).

Inductive CheckCategory := Authentication | Reputation | Content | Header | RateLimiting | Behavioral.

Record ScoreContribution := mkContribution {
  check_name : bytes;
  category : CheckCategory;
  c_score : f64;
  c_description : bytes;
}.

(** ** Outcomes and reports ([result.rs]) *)

Inductive CheckOutcome :=
| Pass
| Hit (severity : f64) (detail : bytes)
| Reject (reason : bytes)
| TempFail (reason : bytes)
| Skip (reason : bytes).

Inductive AuthResult :=
  AuthPass | AuthFail | AuthSoftFail | AuthNeutral | AuthNone | AuthTempError | AuthPermError.

Definition show_auth (a : AuthResult) : bytes :=
  match a with
  | AuthPass => bs "pass"
  | AuthFail => bs "fail"
  | AuthSoftFail => bs "softfail"
  | AuthNeutral => bs "neutral"
  | AuthNone => bs "none"
  | AuthTempError => bs "temperror"
  | AuthPermError => bs "permerror"
  end.

Record AuthenticationResults := mkAuth {
  a_spf : AuthResult;
  a_dkim : AuthResult;
  a_dmarc : AuthResult;
  a_arc : AuthResult;
}.

Definition default_auth : AuthenticationResults := mkAuth AuthNone AuthNone AuthNone AuthNone.

Record SpamReport := mkReport {
  rep_score : SpamScore;
  rep_verdict : SpamVerdict;
  rep_contributions : list ScoreContribution;
  rep_auth_results : AuthenticationResults;
}.

(** ** Allow and block lists ([lists/]) *)

Section Lists.
Context `{Unicode}.

Record AllowList := mkAllow {
  al_ips : list bytes;
  al_senders : list bytes;
  al_sender_domains : list bytes;
}.

Definition AllowList_from_config (ips senders sender_domains : list bytes) : AllowList :=
  mkAllow ips (to_lowercase <$> senders) (to_lowercase <$> sender_domains).

(** Membership in a [HashSet<String>]. *)
Definition set_has (l : list bytes) (x : bytes) : bool := bool_decide (x ∈ l).

(** The domain part of an address, in lower case. *)
Definition address_domain (sender : bytes) : option bytes :=
  (fun p : bytes * bytes => to_lowercase (trim_end_matches (Z.eqb 62) p.2)) <$>
    rsplit_once sender 64.

Definition allow_contains_ip (l : AllowList) (ip : IpAddr) : bool := set_has (al_ips l) (show_ip ip).
Definition allow_contains_sender (l : AllowList) (sender : bytes) : bool :=
  set_has (al_senders l) (to_lowercase sender).
Definition allow_contains_domain (l : AllowList) (sender : bytes) : bool :=
  match address_domain sender with
  | Some domain => set_has (al_sender_domains l) domain
  | None => false
  end.
Definition allow_matches (l : AllowList) (ip : IpAddr) (sender : bytes) : bool :=
  allow_contains_ip l ip || allow_contains_sender l sender || allow_contains_domain l sender.

Record BlockList := mkBlock {
  bl_ips : list bytes;
  bl_senders : list bytes;
  bl_sender_domains : list bytes;
  bl_recipients : list bytes;
}.

Definition BlockList_from_config (ips senders sender_domains recipients : list bytes) : BlockList :=
  mkBlock ips (to_lowercase <$> senders) (to_lowercase <$> sender_domains)
    (to_lowercase <$> recipients).

Definition block_contains_ip (l : BlockList) (ip : IpAddr) : bool := set_has (bl_ips l) (show_ip ip).
Definition block_contains_sender (l : BlockList) (sender : bytes) : bool :=
  set_has (bl_senders l) (to_lowercase sender).
Definition block_contains_domain (l : BlockList) (sender : bytes) : bool :=
  match address_domain sender with
  | Some domain => set_has (bl_sender_domains l) domain
  | None => false
  end.
Definition block_contains_recipient (l : BlockList) (addr : bytes) : bool :=
  set_has (bl_recipients l) (to_lowercase addr).
Definition block_matches (l : BlockList) (ip : IpAddr) (sender : bytes) : bool :=
  block_contains_ip l ip || block_contains_sender l sender || block_contains_domain l sender.
End Lists.

(** ** Counters ([storage/rate_db.rs])

    Instants and durations are nanoseconds; [Instant::duration_since] saturates
    at zero. *)

Definition duration_since (now t : Z) : Z := Z.max 0 (now - t).

Record RateDb := mkRateDb {
  db_counters : gmap (list Z) (list Z);
  db_window : Z;
}.

Definition RateDb_new : RateDb := mkRateDb ∅ (3600 * 1000000000).
Definition RateDb_with_window (window : Z) : RateDb := mkRateDb ∅ window.

Definition fresh (now window : Z) (ts : list Z) : list Z :=
  List.filter (fun t => duration_since now t <? window) ts.

Definition increment (now : Z) (d : RateDb) (key : bytes) : Z * RateDb :=
  let entry := fresh now (db_window d) (default [] (db_counters d !! key)) ++ [now] in
  (Z.of_nat (length entry), mkRateDb (<[key := entry]> (db_counters d)) (db_window d)).

Definition get_count (now : Z) (d : RateDb) (key : bytes) : Z :=
  match db_counters d !! key with
  | Some entry => Z.of_nat (length (fresh now (db_window d) entry))
  | None => 0
  end.

Definition record_connection (now : Z) (d : RateDb) (addr : IpAddr) : RateDb :=
  (increment now d (bs "conn:" ++ show_ip addr)).2.

(** ** The pipeline ([pipeline.rs]) *)

Record EnvelopeContext := mkEnvelope {
  client_ip : IpAddr;
  helo_domain : bytes;
  mail_from : bytes;
  rcpt_to : list bytes;
  early_talker : bool;
  connect_time : Z;
  banner_sent_time : Z;
  command_count : Z;
  pipelining_detected : bool;
  ja3_fingerprint : option bytes;
}.

Definition EnvelopeContext_new (now : Z) (ip : IpAddr) (helo from : bytes) (rcpts : list bytes)
  : EnvelopeContext :=
  mkEnvelope ip helo from rcpts false now now 0 false None.

Record MessageContext := mkMessage {
  envelope : EnvelopeContext;
  raw_message : bytes;
}.

Inductive PipelineDecision :=
| Continue
| Accept
| PipeReject (code : Z) (reason : bytes)
| PipeTempFail (reason : bytes).

(** The trait [PreDataCheck]: a check may update shared counters, the world [W]. *)
Record PreDataCheck (W : Type) := mkPre {
  pre_name : bytes;
  pre_check : EnvelopeContext -> W -> (CheckOutcome * option ScoreContribution) * W;
}.
Arguments mkPre {W}.
Arguments pre_name {W}.
Arguments pre_check {W}.

(** The trait [PostDataCheck]; [None] is a check that panics. *)
Record PostDataCheck := mkPost {
  post_name : bytes;
  post_check : MessageContext -> option (CheckOutcome * list ScoreContribution);
}.

(** The configuration that sets thresholds and overrides only. *)
Definition thresholds (possible definite : Z) (overrides : list DomainOverride) : AntispamConfig :=
  upd_possible_spam_threshold (fun _ => possible) (upd_definite_spam_threshold (fun _ => definite)
    (upd_domain_overrides (fun _ => overrides) AntispamConfig_default)).

Definition DEFAULT_MAX_SCORE : f64 := f_of_Z 50.

Section Pipeline.
Context `{Unicode} {W : Type}.

Record AntispamPipeline := mkPipe {
  p_config : AntispamConfig;
  pre_data_checks : list (PreDataCheck W);
  post_data_checks : list PostDataCheck;
}.

(** [AntispamPipeline::empty]: no checks, and the derived default of the configuration,
    whose thresholds are zero. *)
Definition AntispamPipeline_empty : AntispamPipeline := mkPipe AntispamConfig_default [] [].

Definition tally : Type := SpamScore * list ScoreContribution.

(** [score.add(1.0, c.score); contributions.push(c)]. *)
Definition count_contribution (t : tally) (c : ScoreContribution) : tally :=
  (score_add t.1 f1 (c_score c), t.2 ++ [c]).

Fixpoint run_pre_loop (checks : list (PreDataCheck W)) (ctx : EnvelopeContext) (w : W) (t : tally)
  : (PipelineDecision * tally) * W :=
  match checks with
  | [] => ((Continue, t), w)
  | check :: rest =>
      let '((outcome, contribution), w) := pre_check check ctx w in
      match outcome with
      | Reject reason => ((PipeReject 550 reason, t), w)
      | TempFail reason => ((PipeTempFail reason, t), w)
      | Hit _ _ | Pass | Skip _ =>
          run_pre_loop rest ctx w
            (match contribution with Some c => count_contribution t c | None => t end)
      end
  end.

Definition run_pre_data (p : AntispamPipeline) (ctx : EnvelopeContext) (w : W)
  : (PipelineDecision * tally) * W :=
  run_pre_loop (pre_data_checks p) ctx w (SpamScore_new, []).

Fixpoint aggregate (results : list (CheckOutcome * list ScoreContribution)) (t : tally)
  : result tally PipelineDecision :=
  match results with
  | [] => Ok t
  | (outcome, contribs) :: rest =>
      match outcome with
      | Reject reason => Err (PipeReject 550 reason)
      | TempFail reason => Err (PipeTempFail reason)
      | Hit _ _ | Pass | Skip _ => aggregate rest (fold_left count_contribution contribs t)
      end
  end.

Definition find_override (p : AntispamPipeline) (from : bytes) : option DomainOverride :=
  let sender_domain := to_lowercase (rsplit_next from 64) in
  List.find (fun o => bool_decide (to_lowercase (do_domain o) = sender_domain))
    (domain_overrides (p_config p)).

Definition suspect_threshold (p : AntispamPipeline) (from : bytes) : Z :=
  default (possible_spam_threshold (p_config p))
    (find_override p from ≫= do_possible_spam_threshold).
Definition spam_threshold (p : AntispamPipeline) (from : bytes) : Z :=
  default (definite_spam_threshold (p_config p))
    (find_override p from ≫= do_definite_spam_threshold).

(** The checks run concurrently and all finish; [None] is a panic, of a check or of
    [f64::clamp]. *)
Definition run_post_data (p : AntispamPipeline) (ctx : MessageContext) (pre_score : SpamScore)
    (pre_contributions : list ScoreContribution) (auth_results : AuthenticationResults)
  : option (result SpamReport PipelineDecision) :=
  results ← mapM (fun check => post_check check ctx) (post_data_checks p);
  match aggregate results (pre_score, pre_contributions) with
  | Err d => Some (Err d)
  | Ok (score, contributions) =>
      let from := mail_from (envelope ctx) in
      v ← verdict score DEFAULT_MAX_SCORE (f_of_Z (suspect_threshold p from))
            (f_of_Z (spam_threshold p from));
      Some (Ok (mkReport score v contributions auth_results))
  end.
End Pipeline.
Arguments AntispamPipeline W : clear implicits.
Arguments AntispamPipeline_empty {W}.

(** ** Headers ([headers.rs]) *)

(** [m * 2^e * 10], rounded to nearest, ties to even. *)
Definition tenths (m : positive) (e : Z) : Z :=
  let n := Z.pos m * 10 in
  if 0 <=? e then n * 2 ^ e
  else let d := 2 ^ (- e) in
       let q := n / d in
       match 2 * (n mod d) ?= d with
       | Lt => q
       | Gt => q + 1
       | Eq => if Z.even q then q else q + 1
       end.

(** [format!("{:.1}", x)]. *)
Definition show_f1 (x : f64) : bytes :=
  let sign (s : bool) := if s then bs "-" else [] in
  match x with
  | S754_nan => bs "NaN"
  | S754_infinity s => sign s ++ bs "inf"
  | S754_zero s => sign s ++ bs "0.0"
  | S754_finite s m e =>
      let t := tenths m e in sign s ++ show (t / 10) ++ bs "." ++ show (t mod 10)
  end.

Example show_f1_values :
  show_f1 (f_lit 25 100) = bs "0.2" /\ show_f1 (f_lit 75 100) = bs "0.8" /\
  show_f1 (f_lit (-1234) 100) = bs "-12.3" /\ show_f1 (f_of_Z 50) = bs "50.0".
Proof. vm_compute. done. Qed.

Definition flag (v : SpamVerdict) : bytes := match v with Spam => bs "YES" | _ => bs "NO" end.
Definition status_word (v : SpamVerdict) : bytes :=
  match v with Clean => bs "No" | Suspect => bs "Maybe" | Spam => bs "Yes" end.

Definition build_headers (report : SpamReport) (authserv_id : bytes) : list (bytes * bytes) :=
  let score := show_f1 (raw (rep_score report)) in
  let cs := rep_contributions report in
  let tests := (fun c => check_name c ++ bs "=" ++ show_f1 (c_score c)) <$> cs in
  let tests_str := if is_nil tests then bs "none" else join (bs ",") tests in
  let auth := rep_auth_results report in
  [(bs "X-Spam-Score", score);
   (bs "X-Spam-Flag", flag (rep_verdict report));
   (bs "X-Spam-Status",
    status_word (rep_verdict report) ++ bs ", score=" ++ score ++ bs " tests=[" ++ tests_str ++ bs "]")]
  ++ (if is_nil cs then []
      else [(bs "X-Spam-Report",
             join (CRLF ++ [9])
               ((fun c => bs "* " ++ show_f1 (c_score c) ++ bs " " ++ check_name c ++ bs " -- " ++
                          c_description c) <$> cs))])
  ++ [(bs "Authentication-Results",
       authserv_id ++ bs "; spf=" ++ show_auth (a_spf auth) ++ bs " ; dkim=" ++
       show_auth (a_dkim auth) ++ bs " ; dmarc=" ++ show_auth (a_dmarc auth) ++ bs " ; arc=" ++
       show_auth (a_arc auth))].

(** ** Lemmas *)

(** The decision a check's outcome forces, if any. *)
Definition decisive (o : CheckOutcome) : option PipelineDecision :=
  match o with
  | Reject reason => Some (PipeReject 550 reason)
  | TempFail reason => Some (PipeTempFail reason)
  | Hit _ _ | Pass | Skip _ => None
  end.

(** The score of a list of contributions. *)
Definition score_sum (s : SpamScore) (cs : list ScoreContribution) : SpamScore :=
  fold_left (fun s c => score_add s f1 (c_score c)) cs s.

Lemma count_contributions cs t :
  fold_left count_contribution cs t = (score_sum t.1 cs, t.2 ++ cs).
Proof.
  revert t. induction cs as [|c cs IH]; intros [s l]; simpl; [by rewrite app_nil_r|].
  rewrite IH. simpl. by rewrite <- app_assoc.
Qed.

Lemma score_sum_app s a b : score_sum s (a ++ b) = score_sum (score_sum s a) b.
Proof. apply fold_left_app. Qed.

Section PipelineLemmas.
Context `{Unicode} {W : Type}.
Implicit Types (p : AntispamPipeline W) (ctx : EnvelopeContext) (w : W).

(** A run of checks none of which decides, with what each contributed. *)
Inductive undecided ctx : list (PreDataCheck W) -> W -> list ScoreContribution -> W -> Prop :=
| undecided_nil w : undecided ctx [] w [] w
| undecided_cons c checks w o contribution w1 cs w2 :
    pre_check c ctx w = ((o, contribution), w1) -> decisive o = None ->
    undecided ctx checks w1 cs w2 ->
    undecided ctx (c :: checks) w (option_list contribution ++ cs) w2.

Lemma run_pre_loop_spec checks ctx w t d t' w' :
  run_pre_loop checks ctx w t = ((d, t'), w') ->
  exists before rest cs w1, checks = before ++ rest /\ undecided ctx before w cs w1 /\
    t' = (score_sum t.1 cs, t.2 ++ cs) /\
    ((rest = [] /\ d = Continue /\ w' = w1) \/
     (exists c rest' o k, rest = c :: rest' /\ pre_check c ctx w1 = ((o, k), w') /\
        decisive o = Some d)).
Proof.
  revert w t. induction checks as [|c checks IH]; intros w t; simpl.
  { intros [= <- <- <-]. exists [], [], [], w. destruct t.
    split_and!; [done|constructor|by rewrite app_nil_r|by left]. }
  destruct (pre_check c ctx w) as [[o k] w1] eqn:Ec.
  destruct (decisive o) as [d0|] eqn:Ed.
  { intros Hr. exists [], (c :: checks), [], w. destruct t.
    destruct o; simplify_eq/=;
      (split_and!; [done|constructor|by rewrite app_nil_r|right; by eauto 10]). }
  assert (Hgo : forall t1, run_pre_loop checks ctx w1 t1 = ((d, t'), w') ->
    t1 = fold_left count_contribution (option_list k) t -> exists before rest cs w1,
    c :: checks = before ++ rest /\ undecided ctx before w cs w1 /\
    t' = (score_sum t.1 cs, t.2 ++ cs) /\
    ((rest = [] /\ d = Continue /\ w' = w1) \/
     (exists c rest' o k, rest = c :: rest' /\ pre_check c ctx w1 = ((o, k), w') /\
        decisive o = Some d))).
  { intros t1 (before & rest & cs & w2 & -> & Hu & -> & Hd)%IH ->.
    exists (c :: before), rest, (option_list k ++ cs), w2.
    rewrite count_contributions, score_sum_app, app_assoc. eauto 10 using undecided. }
  destruct o; try done; intros Hr; apply (Hgo _ Hr); by destruct k.
Qed.

Lemma aggregate_spec results t :
  match aggregate results t with
  | Ok t' => Forall (fun r : CheckOutcome * list ScoreContribution => decisive r.1 = None) results /\
      t' = (score_sum t.1 (concat results.*2), t.2 ++ concat results.*2)
  | Err d => exists before o cs rest, results = before ++ (o, cs) :: rest /\ decisive o = Some d /\
      Forall (fun r : CheckOutcome * list ScoreContribution => decisive r.1 = None) before
  end.
Proof.
  revert t. induction results as [|[o cs] results IH]; intros t; simpl.
  { rewrite app_nil_r. destruct t. by split. }
  destruct (decisive o) as [d|] eqn:Ed.
  { assert (Ha : aggregate ((o, cs) :: results) t = Err d) by (destruct o; by simplify_eq/=).
    simpl in Ha. rewrite Ha. by exists [], o, cs, results. }
  specialize (IH (fold_left count_contribution cs t)). rewrite count_contributions in IH.
  assert (Ha : aggregate ((o, cs) :: results) t =
    aggregate results (score_sum t.1 cs, t.2 ++ cs)).
  { simpl. rewrite count_contributions. by destruct o. }
  simpl in Ha. rewrite Ha. destruct (aggregate results _) as [t'|d].
  - destruct IH as [Hf ->]. split; [by constructor|]. simpl.
    by rewrite score_sum_app, app_assoc.
  - destruct IH as (before & o' & cs' & rest & -> & Hd & Hf).
    exists ((o, cs) :: before), o', cs', rest. split_and!; [done..|by constructor].
Qed.

Lemma verdict_total s a b : is_Some (verdict s DEFAULT_MAX_SCORE a b).
Proof. unfold verdict, percentage, f_clamp. simpl. eauto. Qed.
End PipelineLemmas.

(** *** Counters *)

(** A counter after a sequence of increments, each an instant and a key. *)
Definition increments (d : RateDb) (evs : list (Z * bytes)) : RateDb :=
  fold_left (fun d e => (increment e.1 d e.2).2) evs d.

(** The instants of the increments of one key. *)
Definition times (key : bytes) (evs : list (Z * bytes)) : list Z :=
  (List.filter (fun e : Z * bytes => bool_decide (e.2 = key)) evs).*1.

(** Instants that do not decrease. *)
Fixpoint ordered (from : Z) (ts : list Z) : Prop :=
  match ts with [] => True | t :: ts => from <= t /\ ordered t ts end.

Lemma ordered_snoc from ts t :
  ordered from (ts ++ [t]) <-> ordered from ts /\ last ts <> None /\ default 0 (last ts) <= t \/
                               ts = [] /\ from <= t.
Proof.
  revert from. induction ts as [|x ts IH]; intros from; simpl; [naive_solver|].
  rewrite IH. destruct ts as [|y ts]; simpl; [naive_solver|].
  destruct (last (y :: ts)) eqn:E; [naive_solver|].
  apply last_None in E. done.
Qed.

Lemma fresh_fresh t now window ts : t <= now -> fresh now window (fresh t window ts) = fresh now window ts.
Proof.
  intros Ht. unfold fresh, duration_since. induction ts as [|x ts IH]; simpl; [done|].
  destruct (Z.max 0 (t - x) <? window) eqn:E1; simpl; rewrite IH; [done|].
  destruct (Z.max 0 (now - x) <? window) eqn:E2; [lia|done].
Qed.

Lemma fresh_app now window a b : fresh now window (a ++ b) = fresh now window a ++ fresh now window b.
Proof. apply List.filter_app. Qed.

Lemma times_snoc key evs t k :
  times key (evs ++ [(t, k)]) = times key evs ++ (if bool_decide (k = key) then [t] else []).
Proof.
  unfold times. rewrite List.filter_app, fmap_app. f_equal. simpl. by case_bool_decide.
Qed.

Lemma increments_snoc d evs t k :
  increments d (evs ++ [(t, k)]) = (increment t (increments d evs) k).2.
Proof. unfold increments. by rewrite fold_left_app. Qed.

Lemma increments_window d evs : db_window (increments d evs) = db_window d.
Proof. revert d. induction evs as [|e evs IH]; intros d; simpl; [done|]. by rewrite IH. Qed.

(** What a counter keeps is enough: forgotten instants never count again. *)
Lemma increments_fresh window key evs now :
  (exists from, ordered from (evs.*1 ++ [now])) ->
  fresh now window
    (default [] (db_counters (increments (RateDb_with_window window) evs) !! key)) =
  fresh now window (times key evs).
Proof.
  revert now. induction evs as [|[t k] evs IH] using rev_ind; intros now [from Ho].
  { simpl. by rewrite lookup_empty. }
  assert (Ht : (exists from, ordered from (evs.*1 ++ [t])) /\ t <= now).
  { rewrite fmap_app in Ho. change ([(t, k)].*1) with [t] in Ho. apply ordered_snoc in Ho as [(Ho & _ & Hn)|[Hn _]].
    - rewrite last_snoc in Hn. simpl in *. eauto.
    - by destruct (evs.*1). }
  destruct Ht as [Ho' Htn].
  rewrite increments_snoc, times_snoc, fresh_app. unfold increment. simpl.
  rewrite increments_window. simpl. case_bool_decide as Hk.
  - subst k. rewrite lookup_insert_eq. simpl. rewrite (IH t Ho'), fresh_app, fresh_fresh; done.
  - rewrite lookup_insert_ne by done. unfold fresh at 3. simpl. rewrite app_nil_r.
    apply IH. destruct Ho' as [f Ho']. exists f. apply ordered_snoc.
    apply ordered_snoc in Ho' as [(? & ? & ?)|[? ?]]; [left|right]; (split_and!; [done..|lia]) || (split; [done|lia]).
Qed.

(** *** Header values *)

(** Every line feed of a header value starts a folded continuation line. *)
Fixpoint folded (v : bytes) : Prop :=
  match v with
  | [] => True
  | c :: v' => (c = 10 -> head v' = Some 9) /\ folded v'
  end.

Lemma folded_app a b : folded a -> folded b -> folded (a ++ b).
Proof.
  induction a as [|c a IH]; simpl; [done|]. intros [Hc Ha] Hb. split; [|by apply IH].
  intros Hl. specialize (Hc Hl). by destruct a.
Qed.

Lemma folded_no_lf v : 10 ∉ v -> folded v.
Proof.
  induction v as [|c v IH]; simpl; [done|]. rewrite not_elem_of_cons. intros [Hc Hv].
  split; [by intros ->|by apply IH].
Qed.

Lemma folded_join sep l : folded sep -> Forall folded l -> folded (join sep l).
Proof.
  intros Hs Hl. induction Hl as [|x l Hx Hl IH]; [done|]. destruct l as [|y l]; [done|].
  change (folded (x ++ sep ++ join sep (y :: l))). auto using folded_app.
Qed.

Lemma show_fuel_no_lf n z acc : 10 ∉ acc -> 0 <= z -> 10 ∉ show_fuel n z acc.
Proof.
  revert z acc. induction n as [|n IH]; intros z acc Ha Hz; simpl; [done|].
  destruct (z <? 10) eqn:E.
  - rewrite not_elem_of_cons. split; [divmod|done].
  - apply IH; [rewrite not_elem_of_cons; split; [divmod|done]|divmod].
Qed.

Lemma literal_no_lf s : existsb (Z.eqb 10) (bs s) = false -> 10 ∉ bs s.
Proof. rewrite existsb_false. intros H Hin. by specialize (H _ Hin). Qed.

Lemma show_f1_no_lf x : 10 ∉ show_f1 x.
Proof.
  assert (Hs : forall s : bool, 10 ∉ (if s then bs "-" else [])).
  { intros []; [by apply literal_no_lf|apply not_elem_of_nil]. }
  destruct x as [s|s| |s m e]; unfold show_f1; rewrite ?not_elem_of_app.
  1-3: split_and?; first [apply Hs|by apply literal_no_lf].
  assert (0 <= tenths m e).
  { unfold tenths. destruct (0 <=? e) eqn:E; [apply Z.mul_nonneg_nonneg; lia|].
    pose proof (Z.div_pos (Z.pos m * 10) (2 ^ (- e)) ltac:(lia) ltac:(apply Z.pow_pos_nonneg; lia)).
    destruct (_ ?= _); [destruct (Z.even _)|..]; lia. }
  split_and!; [apply Hs|apply show_fuel_no_lf; [apply not_elem_of_nil|divmod]| |
               apply show_fuel_no_lf; [apply not_elem_of_nil|divmod]].
  by apply literal_no_lf.
Qed.

Ltac no_lf :=
  rewrite ?not_elem_of_app; split_and?;
  first [apply show_f1_no_lf | apply literal_no_lf; reflexivity | done].

(** ** Properties *)

(** The pre-data phase: the checks run in order up to the first that rejects or
    fails temporarily, whose decision is the outcome; the checks after it do not run;
    the score and the contributions are those of the checks before it, and with no
    such check the phase continues with those of all checks. *)
Theorem pre_data_first_decisive `{Unicode} {W} (p : AntispamPipeline W) ctx w d score cs w' :
  run_pre_data p ctx w = ((d, (score, cs)), w') ->
  exists before rest w1, pre_data_checks p = before ++ rest /\
    undecided ctx before w cs w1 /\ score = score_sum SpamScore_new cs /\
    ((rest = [] /\ d = Continue /\ w' = w1) \/
     (exists c rest' o k, rest = c :: rest' /\ pre_check c ctx w1 = ((o, k), w') /\
        decisive o = Some d)).
Proof.
  intros (before & rest & cs' & w1 & E & Hu & [= -> ->] & Hd)%run_pre_loop_spec.
  by exists before, rest, w1.
Qed.

(** Checks that only count their runs, for the examples. *)
Definition counting (o : CheckOutcome) (c : option ScoreContribution) : PreDataCheck nat :=
  mkPre (bs "example") (fun _ n => ((o, c), S n)).
Definition example_contribution (z : Z) : ScoreContribution :=
  mkContribution (bs "example") Content (f_of_Z z) (bs "example").
Definition example_envelope : EnvelopeContext :=
  EnvelopeContext_new 0 (ipv4 192 0 2 1) (bs "mx.example.org") (bs "a@Example.org") [bs "b@example.com"].
Definition example_pipeline : AntispamPipeline nat :=
  mkPipe (thresholds 30 70 [mkOverride (bs "example.org") None (Some 20) []])
    [counting (Hit f1 []) (Some (example_contribution 5)); counting Pass None;
     counting (Reject (bs "listed")) (Some (example_contribution 9)); counting Pass None]
    [mkPost (bs "example") (fun _ => Some (Hit f1 [], [example_contribution 6]))].

Lemma pre_data_first_decisive_witness :
  exists before rest w1, pre_data_checks example_pipeline = before ++ rest /\
    undecided example_envelope before 0%nat [example_contribution 5] w1 /\
    mkScore (f_of_Z 5) = score_sum SpamScore_new [example_contribution 5] /\
    ((rest = [] /\ PipeReject 550 (bs "listed") = Continue /\ 3%nat = w1) \/
     (exists c rest' o k, rest = c :: rest' /\
        pre_check c example_envelope w1 = ((o, k), 3%nat) /\
        decisive o = Some (PipeReject 550 (bs "listed")))).
Proof.
  apply (pre_data_first_decisive example_pipeline example_envelope 0%nat). reflexivity.
Defined.

(** The report of a message: after a pre-data phase that continued, the post-data
    phase returns unless one of its checks panics.  It returns the decision of the first
    check, in order, that rejects or fails temporarily; otherwise a report whose
    contributions are those of the pre-data phase followed by those of every post-data
    check, whose score is the sum of exactly these contributions, and whose verdict
    compares that score with the sender domain's thresholds. *)
Theorem report_accounts_for_score `{Unicode} {W} (p : AntispamPipeline W) ctx msg w score cs w' auth :
  run_pre_data p ctx w = ((Continue, (score, cs)), w') ->
  match mapM (fun check => post_check check msg) (post_data_checks p), run_post_data p msg score cs auth with
  | Some results, Some (Err d) => exists before o k rest, results = before ++ (o, k) :: rest /\
      decisive o = Some d /\
      Forall (fun r : CheckOutcome * list ScoreContribution => decisive r.1 = None) before
  | Some results, Some (Ok r) =>
      let from := mail_from (envelope msg) in
      Forall (fun r : CheckOutcome * list ScoreContribution => decisive r.1 = None) results /\
      rep_contributions r = cs ++ concat results.*2 /\
      rep_score r = score_sum SpamScore_new (rep_contributions r) /\
      verdict (rep_score r) DEFAULT_MAX_SCORE (f_of_Z (suspect_threshold p from))
        (f_of_Z (spam_threshold p from)) = Some (rep_verdict r) /\
      rep_auth_results r = auth
  | Some _, None => False
  | None, o => o = None
  end.
Proof.
  intros (before & rest & cs' & w1 & _ & _ & [= -> ->] & _)%run_pre_loop_spec.
  unfold run_post_data. destruct (mapM _ _) as [results|]; [|done]. simpl.
  pose proof (aggregate_spec results (score_sum SpamScore_new cs', cs')) as Ha.
  destruct (aggregate _ _) as [[s c]|d]; [|done]. destruct Ha as [Hf [= -> ->]].
  set (from := mail_from (envelope msg)).
  destruct (verdict_total (score_sum (score_sum SpamScore_new cs') (concat results.*2))
    (f_of_Z (suspect_threshold p from)) (f_of_Z (spam_threshold p from))) as [v Hv].
  simpl in *. rewrite Hv. simpl. by rewrite <- score_sum_app in *.
Qed.

Definition quiet_pipeline : AntispamPipeline nat :=
  mkPipe (p_config example_pipeline) (take 2 (pre_data_checks example_pipeline))
    (post_data_checks example_pipeline).

Lemma report_accounts_for_score_witness :
  let msg := mkMessage example_envelope (bs "Subject: x") in
  run_post_data quiet_pipeline msg (mkScore (f_of_Z 5)) [example_contribution 5] default_auth =
    Some (Ok (mkReport (mkScore (f_of_Z 11)) Spam [example_contribution 5; example_contribution 6]
                default_auth)) /\
  mkScore (f_of_Z 11) = score_sum SpamScore_new [example_contribution 5; example_contribution 6].
Proof.
  intros msg.
  pose proof (report_accounts_for_score quiet_pipeline example_envelope msg 0%nat (mkScore (f_of_Z 5))
    [example_contribution 5] 2%nat default_auth eq_refl) as Hr.
  assert (E : run_post_data quiet_pipeline msg (mkScore (f_of_Z 5)) [example_contribution 5]
    default_auth = Some (Ok (mkReport (mkScore (f_of_Z 11)) Spam
      [example_contribution 5; example_contribution 6] default_auth))) by (vm_compute; reflexivity).
  split; [exact E|]. rewrite E in Hr. exact (proj1 (proj2 (proj2 Hr))).
Defined.

(** A contribution that is not a number defeats the filter: whatever the other
    contributions and the thresholds, the verdict is clean. *)
Theorem nan_contribution_is_clean s a c b suspect spam :
  f_is_nan (c_score c) = true ->
  verdict (score_sum s (a ++ c :: b)) DEFAULT_MAX_SCORE suspect spam = Some Clean.
Proof.
  intros Hn. rewrite score_sum_app. simpl.
  assert (Hc : c_score c = S754_nan) by (by destruct (c_score c)).
  assert (E : score_sum (score_add (score_sum s a) f1 (c_score c)) b = mkScore S754_nan).
  { unfold score_add. rewrite Hc. change (f_mul f1 S754_nan) with S754_nan.
    replace (f_add (raw (score_sum s a)) S754_nan) with S754_nan by (by destruct (raw _)).
    by induction b. }
  fold (score_sum (score_add (score_sum s a) f1 (c_score c)) b). rewrite E.
  unfold verdict, percentage, f_clamp. simpl. by destruct suspect, spam.
Qed.

Lemma nan_contribution_is_clean_witness :
  verdict (score_sum SpamScore_new
    ([example_contribution 50] ++ mkContribution (bs "x") Content S754_nan [] :: [example_contribution 50]))
    DEFAULT_MAX_SCORE (f_of_Z 30) (f_of_Z 70) = Some Clean.
Proof.
  apply (nan_contribution_is_clean SpamScore_new [example_contribution 50]
    (mkContribution (bs "x") Content S754_nan []) [example_contribution 50]). reflexivity.
Defined.

(** A rate counter counts a sliding window: after increments at instants that do
    not decrease, the count of a key is the number of its increments less than one
    window old, although older instants have been forgotten on the way; one more
    increment returns that number plus one. *)
Theorem rate_db_sliding_window window evs now key :
  0 < window -> ordered 0 (evs.*1 ++ [now]) ->
  let d := increments (RateDb_with_window window) evs in
  let n := Z.of_nat (length (List.filter (fun t => now - t <? window) (times key evs))) in
  get_count now d key = n /\ (increment now d key).1 = n + 1.
Proof.
  intros Hw Ho d n.
  assert (Hn : Z.of_nat (length (fresh now window (times key evs))) = n).
  { unfold n, fresh. do 2 f_equal. apply List.filter_ext. intros t. unfold duration_since. lia. }
  pose proof (increments_fresh window key evs now (ex_intro _ 0 Ho)) as Hf. fold d in Hf.
  assert (Hd : db_window d = window) by apply increments_window.
  split.
  - unfold get_count. rewrite Hd. destruct (db_counters d !! key); simpl in Hf.
    + by rewrite Hf.
    + rewrite <- Hn, <- Hf. done.
  - unfold increment. simpl. rewrite Hd, Hf, length_app. simpl. lia.
Qed.

Lemma rate_db_sliding_window_witness :
  let d := increments (RateDb_with_window 100) [(10, bs "a"); (50, bs "b"); (60, bs "a"); (115, bs "a")] in
  get_count 120 d (bs "a") = 2 /\ (increment 120 d (bs "a")).1 = 2 + 1.
Proof.
  apply (rate_db_sliding_window 100 [(10, bs "a"); (50, bs "b"); (60, bs "a"); (115, bs "a")] 120 (bs "a")).
  - lia.
  - simpl. lia.
Defined.

(** No header injection: when the check names, the descriptions and the server name
    contain no line feed, every line feed in the generated headers starts a folded
    continuation line, so no generated value ends its header. *)
Theorem spam_headers_folded report authserv_id :
  10 ∉ authserv_id ->
  Forall (fun c => (10 ∉ check_name c) /\ (10 ∉ c_description c)) (rep_contributions report) ->
  Forall (fun h : bytes * bytes => (10 ∉ h.1) /\ folded h.2) (build_headers report authserv_id).
Proof.
  intros Ha Hc. unfold build_headers.
  assert (Hauth : forall a, 10 ∉ show_auth a) by (intros []; no_lf).
  assert (Hj : forall f, (forall c, (10 ∉ check_name c) /\ (10 ∉ c_description c) -> 10 ∉ f c) ->
    Forall folded (f <$> rep_contributions report)).
  { intros f Hf. apply Forall_fmap. eapply Forall_impl; [done|]. intros c Hcc.
    by apply folded_no_lf, Hf. }
  assert (Hv : (10 ∉ flag (rep_verdict report)) /\ (10 ∉ status_word (rep_verdict report)))
    by (destruct (rep_verdict report); split; no_lf).
  destruct Hv as [Hflag Hword].
  apply Forall_app_2; [|apply Forall_app_2].
  - rewrite !Forall_cons, Forall_nil. cbn [fst snd]. split_and!; try no_lf; try (apply folded_no_lf; no_lf).
    repeat apply folded_app; try (apply folded_no_lf; no_lf).
    destruct (is_nil _); [apply folded_no_lf; no_lf|]. apply folded_join; [apply folded_no_lf; no_lf|].
    apply Hj. intros c []. no_lf.
  - destruct (is_nil _); [done|]. apply Forall_singleton. split; [no_lf|]. apply folded_join; [done|].
    apply Hj. intros c []. no_lf.
  - apply Forall_singleton. split; [no_lf|]. apply folded_no_lf. cbn [snd]. rewrite !not_elem_of_app.
    split_and!; auto; no_lf.
Qed.

Lemma spam_headers_folded_witness :
  let r := mkReport (mkScore (f_of_Z 11)) Suspect [example_contribution 5; example_contribution 6] default_auth in
  Forall (fun h : bytes * bytes => (10 ∉ h.1) /\ folded h.2) (build_headers r (bs "mx.example.org")).
Proof.
  intros r. apply (spam_headers_folded r (bs "mx.example.org")).
  - apply literal_no_lf. reflexivity.
  - repeat constructor; apply literal_no_lf; reflexivity.
Defined.
