(* ===== verification/AntispamPre.v ===== *)
(** * The checks before DATA: [serverwall-antispam/src/predata/]

    Each check is a record of its settings and a function to the trait
    [PreDataCheck] of [Antispam].  The clock and the sliding windows that the
    checks share are the world of the pipeline.  Resolver, SPF library and regular
    expressions are the parameters of [External]. *)

From S2P Require Import Prelude RustStr Net External Float64 Antispam.
Open Scope Z_scope.

(** The clock, and the maps of [SmtpRateLimitCheck]. *)
Record World := mkWorld {
  w_now : Z;
  ip_map : gmap (list Z) (list Z);
  domain_map : gmap (list Z) (list Z);
  sender_map : gmap (list Z) (list Z);
}.

Definition checked : Type := CheckOutcome * option ScoreContribution.

(** A hit whose contribution has the severity of the hit. *)
Definition hit (name : bytes) (cat : CheckCategory) (score : f64) (detail description : bytes) : checked :=
  (Hit score detail, Some (mkContribution name cat score description)).

(** A check that leaves the world alone. *)
Definition pure_check (name : bytes) (f : EnvelopeContext -> checked) : PreDataCheck World :=
  mkPre name (fun ctx w => (f ctx, w)).

Definition trim_gt : bytes -> bytes := trim_end_matches (Z.eqb 62).
Definition trim_dot : bytes -> bytes := trim_end_matches (Z.eqb 46).

(** ** SPF ([spf.rs]) *)

Section Spf.
Context `{SpfLib}.

Record SpfSeverity := mkSpfSeverity {
  sev_fail : f64; sev_softfail : f64; sev_neutral : f64; sev_none : f64 }.

Definition default_spf_severity : SpfSeverity :=
  mkSpfSeverity f1 (f_lit 5 10) (f_lit 1 10) (f_lit 3 10).

Record SpfCheck := mkSpf { spf_weight : f64; spf_severity : SpfSeverity }.

Definition spf_check (c : SpfCheck) (ctx : EnvelopeContext) : checked :=
  let scored sev (detail desc : bytes) :=
    hit (bs "spf") Authentication (f_mul (spf_weight c) sev) detail desc in
  match rsplit_once (mail_from ctx) 64 with
  | None => (Skip (bs "no domain in MAIL FROM"), None)
  | Some (_, d) =>
      let domain := trim_gt d in
      let ip := client_ip ctx in
      match verify_spf_sender ip (helo_domain ctx) domain (mail_from ctx) with
      | SpfPass => (Pass, None)
      | SpfFail => scored (sev_fail (spf_severity c))
                     (bs "SPF fail for " ++ domain ++ bs " from " ++ show_ip ip)
                     (bs "SPF fail for " ++ domain)
      | SpfSoftFail => scored (sev_softfail (spf_severity c))
                         (bs "SPF softfail for " ++ domain) (bs "SPF softfail for " ++ domain)
      | SpfNeutral => scored (sev_neutral (spf_severity c))
                        (bs "SPF neutral for " ++ domain) (bs "SPF neutral for " ++ domain)
      | SpfNone => scored (sev_none (spf_severity c))
                     (bs "No SPF record for " ++ domain) (bs "No SPF record for " ++ domain)
      | SpfTempError | SpfPermError => (Skip (bs "SPF lookup error for " ++ domain), None)
      end
  end.
End Spf.

(** ** HELO ([helo.rs]) *)

Section Helo.
Context `{RegexLib} `{Resolver} `{Unicode}.

Record HeloCheck := mkHelo { helo_weight : f64; hostname_re : Regex }.

Definition hostname_pattern : bytes :=
  bs "^[a-zA-Z0-9]([a-zA-Z0-9\-]*[a-zA-Z0-9])?(\.[a-zA-Z0-9]([a-zA-Z0-9\-]*[a-zA-Z0-9])?)*$".

(** [None] would be the panic of [unwrap] on a pattern that does not compile. *)
Definition HeloCheck_new (weight : f64) : option HeloCheck := mkHelo weight <$> regex_new hostname_pattern.

Definition is_ip_literal (helo : bytes) : bool :=
  let stripped := trim_end_matches (Z.eqb 93) (drop_while (Z.eqb 91) helo) in
  match parse_ip stripped with Some _ => true | None => false end.

Definition helo_check (c : HeloCheck) (ctx : EnvelopeContext) : checked :=
  let helo := trim (helo_domain ctx) in
  let scored sev (detail desc : bytes) :=
    hit (bs "helo") Behavioral (f_mul (helo_weight c) sev) detail desc in
  if is_nil helo then
    scored f1 (bs "Empty HELO/EHLO hostname") (bs "Empty HELO hostname")
  else if is_ip_literal helo then
    scored (f_lit 3 10) (bs "HELO is an IP literal: " ++ helo) (bs "HELO IP literal: " ++ helo)
  else if negb (is_match (hostname_re c) helo) then
    scored (f_lit 8 10) (bs "Invalid HELO hostname format: " ++ helo)
      (bs "Invalid HELO hostname: " ++ helo)
  else if negb (contains helo (bs ".")) then
    scored (f_lit 5 10) (bs "HELO hostname has no TLD: " ++ helo) (bs "HELO no TLD: " ++ helo)
  else
    match reverse_lookup (client_ip ctx) with
    | Ok lookup =>
        let ptr_names := (fun n => to_lowercase (trim_dot n)) <$> lookup in
        if negb (existsb (fun p => bool_decide (p = to_lowercase helo)) ptr_names) then
          scored (f_lit 2 10) (bs "HELO " ++ helo ++ bs " does not match PTR")
            (bs "HELO/PTR mismatch: " ++ helo)
        else (Pass, None)
    | Err _ => (Pass, None)
    end.
End Helo.

(** ** DNS block lists ([dnsbl.rs]) *)

Section Dnsbl.
Context `{Resolver}.

Record DnsblZone := mkZone { dz_zone : bytes; weight_multiplier : f64; reject_on_hit : bool }.
Record DnsblCheck := mkDnsbl { zones : list DnsblZone; dnsbl_weight : f64 }.

Definition reverse_octets (a : Z) : bytes := join (bs ".") (show <$> rev (octets a)).

Definition reverse_ip (ip : IpAddr) : option bytes :=
  match ip with V4 v4 => Some (reverse_octets v4) | V6 _ => None end.

Definition query_zone (c : DnsblCheck) (reversed : bytes) (z : DnsblZone) : option (bytes * f64 * bool) :=
  match resolve_ip (reversed ++ bs "." ++ dz_zone z) with
  | Ok (_ :: _) => Some (dz_zone z, f_mul (dnsbl_weight c) (weight_multiplier z), reject_on_hit z)
  | Ok [] => None
  | Err _ => None
  end.

(** The loop over the answers: the first zone that rejects ends it. *)
Fixpoint dnsbl_tally (ip : IpAddr) (results : list (bytes * f64 * bool)) (total : f64) (listed : list bytes)
  : checked :=
  match results with
  | [] =>
      if is_nil listed then (Pass, None)
      else let detail := bs "Listed in: " ++ join (bs ", ") listed in
           hit (bs "dnsbl") Reputation total detail detail
  | (zone, severity, reject) :: rest =>
      if reject : bool then
        (Reject (bs "Listed in DNSBL " ++ zone),
         Some (mkContribution (bs "dnsbl") Reputation severity
                 (bs "IP " ++ show_ip ip ++ bs " listed in " ++ zone)))
      else dnsbl_tally ip rest (f_add total severity) (listed ++ [zone])
  end.

Definition dnsbl_check (c : DnsblCheck) (ctx : EnvelopeContext) : checked :=
  match reverse_ip (client_ip ctx) with
  | None => (Skip (bs "IPv6 not supported for DNSBL"), None)
  | Some reversed =>
      dnsbl_tally (client_ip ctx) (filter_map (query_zone c reversed) (zones c)) f0 []
  end.
End Dnsbl.

(** ** Behaviour and early talkers ([behavior.rs], [early_talker.rs]) *)

Definition RAPID_FIRE_THRESHOLD : Z := 20.

Definition behavior_check (weight : f64) (ctx : EnvelopeContext) (w : World) : checked * World :=
  let '(total, details) :=
    if pipelining_detected ctx
    then (f_add f0 (f_mul weight (f_lit 6 10)), [bs "pipelining abuse detected"])
    else (f0, []) in
  let elapsed := duration_since (w_now w) (banner_sent_time ctx) in
  let '(total, details) :=
    if (RAPID_FIRE_THRESHOLD <? command_count ctx) && (elapsed / 1000000000 <? 5)
    then (f_add total (f_mul weight (f_lit 8 10)),
          details ++ [bs "rapid-fire commands: " ++ show (command_count ctx) ++ bs " in " ++
                      show_f1 (as_secs_f64 elapsed) ++ bs "s"])
    else (total, details) in
  if is_nil details then ((Pass, None), w)
  else let detail := join (bs "; ") details in
       (hit (bs "behavior") Behavioral total detail detail, w).

Definition early_talker_check (weight : f64) (ctx : EnvelopeContext) : checked :=
  if early_talker ctx then
    hit (bs "early_talker") Behavioral (f_mul weight f1)
      (bs "Client " ++ show_ip (client_ip ctx) ++ bs " sent data before banner")
      (bs "Client sent data before banner")
  else (Pass, None).

(** ** Rate limits ([rate_limit.rs]) *)

(** [WindowEntry::record] then [WindowEntry::count], on the entry of a key. *)
Definition record_entry (now window : Z) (m : gmap (list Z) (list Z)) (key : bytes)
  : Z * gmap (list Z) (list Z) :=
  let timestamps := fresh now window (default [] (m !! key)) ++ [now] in
  (Z.of_nat (length (fresh now window timestamps)), <[key := timestamps]> m).

Section SmtpRate.
Context `{Unicode}.

Record SmtpRateLimitCheck := mkSmtpRate {
  sr_weight : f64;
  max_per_ip : Z;
  max_per_domain : Z;
  max_per_sender : Z;
  sr_window : Z;
}.

Definition rate_hit (c : SmtpRateLimitCheck) (factor : f64) (detail desc : bytes) : checked :=
  hit (bs "rate_limit") RateLimiting (f_mul (sr_weight c) factor) detail desc.

Definition quota (count max : Z) : bytes := bs " (" ++ show count ++ bs "/" ++ show max ++ bs ")".

Definition check_domain_rate (c : SmtpRateLimitCheck) (ctx : EnvelopeContext) (w : World) : checked * World :=
  match rsplit_once (mail_from ctx) 64 with
  | Some (_, domain) =>
      let domain_key := to_lowercase (trim_gt domain) in
      let '(count, m) := record_entry (w_now w) (sr_window c) (domain_map w) domain_key in
      let w := mkWorld (w_now w) (ip_map w) m (sender_map w) in
      if max_per_domain c <? count then
        (rate_hit c (f_lit 6 10)
           (bs "Domain rate limit: " ++ domain_key ++ quota count (max_per_domain c))
           (bs "Domain " ++ domain_key ++ bs " rate limit"), w)
      else ((Pass, None), w)
  | None => ((Pass, None), w)
  end.

Definition check_sender_rate (c : SmtpRateLimitCheck) (ctx : EnvelopeContext) (w : World) : checked * World :=
  if is_nil (mail_from ctx) then check_domain_rate c ctx w
  else
    let '(count, m) := record_entry (w_now w) (sr_window c) (sender_map w) (to_lowercase (mail_from ctx)) in
    let w := mkWorld (w_now w) (ip_map w) (domain_map w) m in
    if max_per_sender c <? count then
      (rate_hit c (f_lit 8 10)
         (bs "Sender rate limit: " ++ mail_from ctx ++ quota count (max_per_sender c))
         (bs "Sender " ++ mail_from ctx ++ bs " rate limit"), w)
    else check_domain_rate c ctx w.

Definition rate_limit_check (c : SmtpRateLimitCheck) (ctx : EnvelopeContext) (w : World) : checked * World :=
  let '(count, m) := record_entry (w_now w) (sr_window c) (ip_map w) (show_ip (client_ip ctx)) in
  let w := mkWorld (w_now w) m (domain_map w) (sender_map w) in
  if max_per_ip c <? count then
    ((Reject (bs "Rate limit exceeded for IP " ++ show_ip (client_ip ctx) ++ quota count (max_per_ip c)),
      Some (mkContribution (bs "rate_limit") RateLimiting (f_mul (sr_weight c) f1)
              (bs "IP " ++ show_ip (client_ip ctx) ++ bs " rate limit exceeded"))), w)
  else check_sender_rate c ctx w.
End SmtpRate.

(** ** Reverse DNS ([rdns.rs]) *)

Section Rdns.
Context `{RegexLib} `{Resolver}.

Record ReverseDnsCheck := mkRdns { rdns_weight : f64; generic_ptr_re : Regex }.

Definition generic_ptr_pattern : bytes :=
  bs "(?i)^(ip|host|pool|dynamic|dhcp|dsl|cable|ppp|dial|broadband|unknown|unresolved|static|client|customer|user|adsl|mob|gprs)[\-\.]?\d".

Definition ReverseDnsCheck_new (weight : f64) : option ReverseDnsCheck :=
  mkRdns weight <$> regex_new generic_ptr_pattern.

Definition no_ptr (weight : f64) (ip : IpAddr) : checked :=
  let text := bs "No PTR record for " ++ show_ip ip in
  hit (bs "rdns") Reputation (f_mul weight f1) text text.

(** Whether a name resolves back to the address. *)
Definition forward_confirms (ip : IpAddr) (ptr_name : bytes) : bool :=
  match resolve_ip ptr_name with
  | Ok addrs => existsb (fun a => bool_decide (a = ip)) addrs
  | Err _ => false
  end.

Definition rdns_check (c : ReverseDnsCheck) (ctx : EnvelopeContext) : checked :=
  let ip := client_ip ctx in
  match reverse_lookup ip with
  | Err _ => no_ptr (rdns_weight c) ip
  | Ok lookup =>
      match trim_dot <$> lookup with
      | [] => no_ptr (rdns_weight c) ip
      | (first :: _) as ptr_names =>
          match List.find (forward_confirms ip) ptr_names with
          | None =>
              hit (bs "rdns") Reputation (f_mul (rdns_weight c) (f_lit 7 10))
                (bs "FCrDNS mismatch for " ++ show_ip ip ++ bs " (PTR: " ++ first ++ bs ")")
                (bs "FCrDNS mismatch for " ++ show_ip ip)
          | Some hostname =>
              if is_match (generic_ptr_re c) hostname then
                hit (bs "rdns") Reputation (f_mul (rdns_weight c) (f_lit 4 10))
                  (bs "Generic PTR record: " ++ hostname) (bs "Generic PTR: " ++ hostname)
              else (Pass, None)
          end
      end
  end.
End Rdns.

(** ** Residential senders ([residential.rs]) *)

Section Residential.
Context `{RegexLib} `{Resolver} `{SpfLib}.

Definition RESIDENTIAL_PATTERN : bytes :=
  bs "(?i)(^|[.\-])(dynamic|dyn|dhcp|dsl|cable|adsl|broadband|ppp|pppoe|dial|mob|mobile|gprs|lte|residential|home|fiber|fibre)[.\-]".

Record ResidentialSenderCheck := mkResidential {
  res_weight : f64;
  res_reject : bool;
  check_pbl : bool;
  pbl_zone : bytes;
  softfail_triggers : bool;
  neutral_triggers : bool;
  residential_re : Regex;
}.

Definition ResidentialSenderCheck_new (weight : f64) (reject pbl : bool) (zone : bytes) (soft neutral : bool)
  : option ResidentialSenderCheck :=
  mkResidential weight reject pbl zone soft neutral <$> regex_new RESIDENTIAL_PATTERN.

Definition query_dnsbl (v4 : Z) (zone : bytes) : bool :=
  is_ok (resolve_ip (reverse_octets v4 ++ bs "." ++ zone)).

Definition reject_outcome (c : ResidentialSenderCheck) (ip : IpAddr) (domain residential_reason spf_detail : bytes)
  : checked :=
  let reason := bs "Residential sender (" ++ residential_reason ++ bs ") with " ++ spf_detail ++
                bs " for " ++ domain ++ bs " from " ++ show_ip ip in
  let contribution := mkContribution (bs "residential_spf") Reputation (res_weight c) reason in
  if res_reject c then (Reject reason, Some contribution)
  else (Hit (res_weight c) reason, Some contribution).

(** Stage 1: the reason the address counts as residential, if it does. *)
Definition residential_reason (c : ResidentialSenderCheck) (ip : IpAddr) : option bytes :=
  let by_ptr :=
    match reverse_lookup ip with
    | Ok lookup =>
        let ptr_names := trim_dot <$> lookup in
        if is_nil ptr_names then Some (bs "no PTR record")
        else (fun name => bs "residential PTR: " ++ name) <$>
               List.find (fun name => is_match (residential_re c) name) ptr_names
    | Err _ => Some (bs "no PTR record")
    end in
  match by_ptr with
  | Some r => Some r
  | None =>
      if check_pbl c then
        match ip with
        | V4 v4 => if query_dnsbl v4 (pbl_zone c) then Some (bs "listed in " ++ pbl_zone c) else None
        | V6 _ => None
        end
      else None
  end.

(** A hit for an SPF result that does not trigger rejection. *)
Definition mild (c : ResidentialSenderCheck) (factor : f64) (ip : IpAddr) (domain why what : bytes) : checked :=
  hit (bs "residential_spf") Reputation (f_mul (res_weight c) factor)
    (bs "Residential sender (" ++ why ++ bs ") with SPF " ++ what ++ bs " for " ++ domain)
    (bs "Residential IP " ++ show_ip ip ++ bs " SPF " ++ what ++ bs " for " ++ domain).

(** Stage 2: what the SPF result of a residential sender means. *)
Definition residential_spf (c : ResidentialSenderCheck) (ip : IpAddr) (domain why : bytes) (r : SpfResult)
  : checked :=
  match r with
  | SpfPass =>
      (Skip (bs "residential IP " ++ show_ip ip ++ bs " has valid SPF for " ++ domain ++
             bs " — allowed"), None)
  | SpfFail => reject_outcome c ip domain why (bs "SPF fail")
  | SpfSoftFail =>
      if softfail_triggers c then reject_outcome c ip domain why (bs "SPF softfail")
      else mild c (f_lit 5 10) ip domain why (bs "softfail")
  | SpfNeutral =>
      if neutral_triggers c then reject_outcome c ip domain why (bs "SPF neutral")
      else mild c (f_lit 3 10) ip domain why (bs "neutral")
  | SpfNone => reject_outcome c ip domain why (bs "no SPF record")
  | SpfTempError =>
      (TempFail (bs "Residential IP " ++ show_ip ip ++ bs " but SPF lookup failed for " ++
                 domain ++ bs " — deferring"), None)
  | SpfPermError =>
      (Skip (bs "SPF PermError for " ++ domain ++ bs " — skipping residential enforcement"), None)
  end.

Definition residential_check (c : ResidentialSenderCheck) (ctx : EnvelopeContext) : checked :=
  let from := trim (mail_from ctx) in
  if is_nil from || bool_decide (from = bs "<>") then (Skip (bs "null MAIL FROM (bounce)"), None)
  else match rsplit_once from 64 with
  | None => (Skip (bs "no domain in MAIL FROM"), None)
  | Some (_, d) =>
      let domain := trim_gt d in
      let ip := client_ip ctx in
      match residential_reason c ip with
      | None => (Skip (bs "non-residential IP"), None)
      | Some why =>
          residential_spf c ip domain why (verify_spf_sender ip (helo_domain ctx) domain from)
      end
  end.
End Residential.

(** ** Lemmas *)

(** The first element of a list that satisfies a test. *)
Lemma find_split {A} (p : A -> bool) l x :
  List.find p l = Some x ->
  exists b a, l = b ++ x :: a /\ Forall (fun y => p y = false) b /\ p x = true.
Proof.
  induction l as [|y l IH]; simpl; [done|]. destruct (p y) eqn:E.
  - intros [= <-]. by exists [], l.
  - intros (b & a & -> & Hb & Hx)%IH. exists (y :: b), a. auto.
Qed.

Lemma find_split_unique {A} (p : A -> bool) b x a b' x' a' :
  b ++ x :: a = b' ++ x' :: a' -> Forall (fun y => p y = false) b -> p x = true ->
  Forall (fun y => p y = false) b' -> p x' = true -> b = b' /\ x = x' /\ a = a'.
Proof.
  revert b'. induction b as [|y b IH]; intros [|y' b'] E Hb Hx Hb' Hx'; simplify_eq/=; auto.
  - inversion Hb'; congruence.
  - inversion Hb; congruence.
  - apply Forall_cons in Hb as [_ Hb], Hb' as [_ Hb']. destruct (IH b') as (-> & -> & ->); auto.
Qed.

Section RateLemmas.
Context `{Unicode}.

Lemma fresh_now now window : 0 < window -> fresh now window [now] = [now].
Proof.
  intros. unfold fresh, duration_since. simpl.
  by rewrite (proj2 (Z.ltb_lt (Z.max 0 (now - now)) window)) by lia.
Qed.

Lemma record_entry_count now window m key :
  0 < window -> (record_entry now window m key).1 =
  Z.of_nat (length (fresh now window (default [] (m !! key)))) + 1.
Proof.
  intros Hw. unfold record_entry. simpl. rewrite fresh_app, fresh_fresh by lia.
  rewrite length_app, (fresh_now now) by done. simpl. lia.
Qed.

Lemma check_sender_rate_ip_map c ctx w : ip_map (check_sender_rate c ctx w).2 = ip_map w.
Proof.
  unfold check_sender_rate, check_domain_rate.
  destruct (record_entry _ _ _ _), (rsplit_once _ _) as [[? d]|]; repeat case_if; try done;
    destruct (record_entry _ _ (domain_map _) _); by repeat case_if.
Qed.

Lemma check_sender_rate_not_decisive c ctx w : decisive (check_sender_rate c ctx w).1.1 = None.
Proof.
  unfold check_sender_rate, check_domain_rate.
  destruct (record_entry _ _ _ _), (rsplit_once _ _) as [[? d]|]; repeat case_if; try done;
    destruct (record_entry _ _ (domain_map _) _); by repeat case_if.
Qed.

Lemma rate_limit_ip_map c ctx w :
  ip_map (rate_limit_check c ctx w).2 =
  (record_entry (w_now w) (sr_window c) (ip_map w) (show_ip (client_ip ctx))).2.
Proof.
  unfold rate_limit_check. destruct (record_entry _ _ _ _) as [count m]. case_if; [done|].
  by rewrite check_sender_rate_ip_map.
Qed.

(** A sequence of checks, each at an instant, of a server just started. *)
Definition at_time (t : Z) (w : World) : World := mkWorld t (ip_map w) (domain_map w) (sender_map w).
Definition rate_run (c : SmtpRateLimitCheck) (evs : list (Z * EnvelopeContext)) : World :=
  fold_left (fun w e => (rate_limit_check c e.2 (at_time e.1 w)).2) evs (mkWorld 0 ∅ ∅ ∅).

Definition by_ip (evs : list (Z * EnvelopeContext)) : list (Z * bytes) :=
  (fun e : Z * EnvelopeContext => (e.1, show_ip (client_ip e.2))) <$> evs.

(** The windows of the addresses are the counters of [rate_db.rs]. *)
Lemma rate_run_ip_map c evs :
  ip_map (rate_run c evs) = db_counters (increments (RateDb_with_window (sr_window c)) (by_ip evs)).
Proof.
  induction evs as [|[t x] evs IH] using rev_ind; [done|].
  unfold rate_run in *. rewrite fold_left_app. simpl. rewrite rate_limit_ip_map. simpl. rewrite IH.
  unfold by_ip. rewrite fmap_app. simpl. rewrite increments_snoc. unfold increment. simpl.
  by rewrite increments_window.
Qed.
End RateLemmas.

Section DnsblLemmas.
Context `{Resolver}.

(** Whether a zone lists the address. *)
Definition listed_in (reversed : bytes) (z : DnsblZone) : bool :=
  match resolve_ip (reversed ++ bs "." ++ dz_zone z) with Ok (_ :: _) => true | _ => false end.

Lemma query_zone_listed c reversed z :
  query_zone c reversed z =
  if listed_in reversed z
  then Some (dz_zone z, f_mul (dnsbl_weight c) (weight_multiplier z), reject_on_hit z) else None.
Proof. unfold query_zone, listed_in. by destruct (resolve_ip _) as [[|? ?]|?]. Qed.

(** The verdict on the zones that list the address. *)
Definition dnsbl_verdict (c : DnsblCheck) (ip : IpAddr) (total : f64) (before : list bytes)
    (listed : list DnsblZone) : checked :=
  match List.find reject_on_hit listed with
  | Some z => (Reject (bs "Listed in DNSBL " ++ dz_zone z),
               Some (mkContribution (bs "dnsbl") Reputation (f_mul (dnsbl_weight c) (weight_multiplier z))
                       (bs "IP " ++ show_ip ip ++ bs " listed in " ++ dz_zone z)))
  | None =>
      if is_nil (before ++ (dz_zone <$> listed)) then (Pass, None)
      else let detail := bs "Listed in: " ++ join (bs ", ") (before ++ (dz_zone <$> listed)) in
           hit (bs "dnsbl") Reputation
             (fold_left (fun t z => f_add t (f_mul (dnsbl_weight c) (weight_multiplier z))) listed total)
             detail detail
  end.

Lemma dnsbl_tally_verdict c ip reversed zs total before :
  dnsbl_tally ip (filter_map (query_zone c reversed) zs) total before =
  dnsbl_verdict c ip total before (List.filter (listed_in reversed) zs).
Proof.
  revert total before. induction zs as [|z zs IH]; intros total before; simpl.
  { unfold dnsbl_verdict. simpl. by rewrite app_nil_r. }
  rewrite query_zone_listed. destruct (listed_in reversed z); [|apply IH]. simpl.
  unfold dnsbl_verdict. simpl. destruct (reject_on_hit z) eqn:Er; [done|].
  rewrite IH. unfold dnsbl_verdict. simpl. by rewrite <- app_assoc.
Qed.
End DnsblLemmas.

(** Whether an SPF result of a residential sender triggers rejection. *)
Definition triggers `{RegexLib} (c : ResidentialSenderCheck) (r : SpfResult) : bool :=
  match r with
  | SpfFail | SpfNone => true
  | SpfSoftFail => softfail_triggers c
  | SpfNeutral => neutral_triggers c
  | SpfPass | SpfTempError | SpfPermError => false
  end.

Lemma residential_spf_decision `{RegexLib} c ip domain why r :
  ((exists x, (residential_spf c ip domain why r).1 = Reject x) <->
   res_reject c = true /\ triggers c r = true) /\
  ((exists x, (residential_spf c ip domain why r).1 = TempFail x) <-> r = SpfTempError).
Proof.
  destruct r; simpl; unfold reject_outcome, mild, hit; repeat case_if; naive_solver.
Qed.

(** ** Properties *)

(** The rate limit of an address: after any sequence of checks at instants that
    do not decrease, a further check rejects exactly when the checks of the same
    address in the last window, this one included, exceed [max_per_ip]; rejected
    attempts count like the others. *)
Theorem ip_rate_limit_exact `{Unicode} c evs now ctx :
  0 < sr_window c -> ordered 0 (evs.*1 ++ [now]) ->
  let n := Z.of_nat (length (List.filter (fun t => now - t <? sr_window c)
             (times (show_ip (client_ip ctx)) (by_ip evs)))) in
  (exists reason, (rate_limit_check c ctx (at_time now (rate_run c evs))).1.1 = Reject reason) <->
  max_per_ip c < n + 1.
Proof.
  intros Hw Ho n. unfold rate_limit_check.
  pose proof (record_entry_count now (sr_window c) (ip_map (rate_run c evs))
    (show_ip (client_ip ctx)) Hw) as Hc.
  rewrite rate_run_ip_map, increments_fresh in Hc.
  2:{ exists 0. unfold by_ip. by rewrite <- list_fmap_compose. }
  rewrite <- rate_run_ip_map in Hc.
  assert (Hn : Z.of_nat (length (fresh now (sr_window c)
    (times (show_ip (client_ip ctx)) (by_ip evs)))) = n).
  { unfold n, fresh. do 2 f_equal. apply List.filter_ext. intros t. unfold duration_since. lia. }
  cbn [w_now ip_map at_time domain_map sender_map].
  destruct (record_entry now (sr_window c) (ip_map (rate_run c evs)) _) as [count m].
  simpl in Hc. rewrite Hc, Hn.
  destruct (max_per_ip c <? n + 1) eqn:E; simpl.
  - split; [lia|eauto].
  - split; [|lia]. intros [r Hr].
    pose proof (check_sender_rate_not_decisive c ctx
      (mkWorld now m (domain_map (rate_run c evs)) (sender_map (rate_run c evs)))) as Hd.
    by rewrite Hr in Hd.
Qed.

Lemma ip_rate_limit_exact_witness :
  let c := mkSmtpRate f1 2 9 9 100 in
  (exists reason, (rate_limit_check c example_envelope (at_time 90
     (rate_run c [(10, example_envelope); (60, example_envelope)]))).1.1 = Reject reason) <-> 2 < 2 + 1.
Proof.
  apply (ip_rate_limit_exact (mkSmtpRate f1 2 9 9 100) [(10, example_envelope); (60, example_envelope)]
           90 example_envelope).
  - reflexivity.
  - simpl. lia.
Defined.

(** The block list check of an IPv4 address is the verdict on the zones that list
    it: rejection naming the first of them that rejects on a hit, otherwise a hit with
    the sum of their weights naming all of them, and a pass when there is none. *)
Theorem dnsbl_check_verdict `{Resolver} c ctx a :
  client_ip ctx = V4 a ->
  dnsbl_check c ctx =
  dnsbl_verdict c (V4 a) f0 [] (List.filter (listed_in (reverse_octets a)) (zones c)).
Proof. intros Hip. unfold dnsbl_check. rewrite Hip. apply dnsbl_tally_verdict. Qed.

Lemma dnsbl_check_verdict_witness :
  let r := zone_resolver [(bs "1.2.0.192.bl.example", LOCALHOST)] in
  let c := mkDnsbl [mkZone (bs "other.example") f1 true; mkZone (bs "bl.example") f1 true] f1 in
  dnsbl_check c example_envelope =
  dnsbl_verdict c (ipv4 192 0 2 1) f0 [] [mkZone (bs "bl.example") f1 true].
Proof.
  intros r c. exact (dnsbl_check_verdict c example_envelope _ eq_refl).
Defined.

(** The residential sender check is decisive exactly for a sender with a domain
    at a residential address: it rejects when rejection is configured and the SPF
    result triggers it, and defers when the SPF lookup fails temporarily; in every
    other case the message goes on. *)
Theorem residential_decision `{RegexLib} `{Resolver} `{SpfLib} c ctx :
  let from := trim (mail_from ctx) in
  let spf d := verify_spf_sender (client_ip ctx) (helo_domain ctx) (trim_gt d) from in
  ((exists r, (residential_check c ctx).1 = Reject r) <->
   res_reject c = true /\ exists local d why, rsplit_once from 64 = Some (local, d) /\
     residential_reason c (client_ip ctx) = Some why /\ triggers c (spf d) = true) /\
  ((exists r, (residential_check c ctx).1 = TempFail r) <->
   exists local d why, rsplit_once from 64 = Some (local, d) /\
     residential_reason c (client_ip ctx) = Some why /\ spf d = SpfTempError).
Proof.
  intros from spf. unfold residential_check. fold from.
  destruct (is_nil from || bool_decide (from = bs "<>")) eqn:En.
  { assert (Hno : rsplit_once from 64 = None).
    { apply orb_true_iff in En as [->%is_nil_true| ->%bool_decide_eq_true]; reflexivity. }
    rewrite Hno. simpl. naive_solver. }
  destruct (rsplit_once from 64) as [[l d]|]; simpl; [|naive_solver].
  destruct (residential_reason c _) as [why|]; simpl; [|naive_solver].
  fold (spf d). destruct (residential_spf_decision c (client_ip ctx) (trim_gt d) why (spf d)) as [-> ->].
  naive_solver.
Qed.

Lemma residential_decision_witness :
  let spf := {| verify_spf_sender _ _ _ _ := SpfNone |} in
  let c := @mkResidential literal_regex f1 true false [] true false (bs "dynamic") in
  ((exists r, (@residential_check _ (zone_resolver []) spf c example_envelope).1 = Reject r) <->
   res_reject c = true /\ exists local d why,
     rsplit_once (bs "a@Example.org") 64 = Some (local, d) /\
     @residential_reason _ (zone_resolver []) c (ipv4 192 0 2 1) = Some why /\
     triggers c SpfNone = true).
Proof.
  intros spf c. exact (proj1 (@residential_decision _ (zone_resolver []) spf c example_envelope)).
Defined.

(** Forward-confirmed reverse DNS: the check passes exactly when the address has a
    name that resolves back to it and the first such name is not generic. *)
Theorem rdns_pass_iff_confirmed `{RegexLib} `{Resolver} c ctx :
  rdns_check c ctx = (Pass, None) <->
  exists lookup before name after, reverse_lookup (client_ip ctx) = Ok lookup /\
    trim_dot <$> lookup = before ++ name :: after /\
    forward_confirms (client_ip ctx) name = true /\
    Forall (fun n => forward_confirms (client_ip ctx) n = false) before /\
    is_match (generic_ptr_re c) name = false.
Proof.
  unfold rdns_check. destruct (reverse_lookup _) as [lookup|]; [|naive_solver].
  destruct (trim_dot <$> lookup) as [|first names] eqn:El.
  { split; [done|]. intros (l & b & n & a & [= <-] & E & _). rewrite El in E. by destruct b. }
  destruct (List.find _ _) as [name|] eqn:Ef.
  - apply find_split in Ef as (b & a & E & Hb & Hn). split.
    + destruct (is_match _ name) eqn:Em; [done|]. intros _. exists lookup, b, name, a.
      rewrite <- E, El. by split_and!.
    + intros (l & b' & n' & a' & [= <-] & E' & Hn' & Hb' & Hm). rewrite El, E in E'.
      destruct (find_split_unique _ _ _ _ _ _ _ E' Hb Hn Hb' Hn') as (_ & -> & _). by rewrite Hm.
  - split; [done|]. intros (l & b & n & a & [= <-] & E & Hn & _). rewrite El in E.
    assert (Hf : forward_confirms (client_ip ctx) n = false); [|congruence].
    apply (List.find_none _ _ Ef). rewrite E. apply in_elt.
Qed.
