(* ===== verification/AntispamPost.v ===== *)
(** * The checks of the whole message: [serverwall-antispam/src/postdata/]

    Each check is a record of its settings and its function on the message; the
    outcome of a check that can panic is an option.  DKIM, DMARC, ARC, MIME and
    HTML parsing, regular expressions and the resolver are the parameters of
    [External]; the virus scanners run by the operating system are those of
    [AvHost]. *)

From S2P Require Import Prelude RustStr Net External Float64 Antispam.
From Stdlib Require Import SpecFloat.
Open Scope Z_scope.

Definition scored : Type := CheckOutcome * list ScoreContribution.

(** The end of most checks: a pass without contributions, otherwise a hit of their
    sum.  Every check adds the score of a contribution to its total when it pushes
    the contribution. *)
Definition severity_of (cs : list ScoreContribution) : f64 :=
  fold_left (fun t c => f_add t (c_score c)) cs f0.
Definition conclude (cs : list ScoreContribution) (suffix : bytes) : scored :=
  if is_nil cs then (Pass, cs)
  else (Hit (severity_of cs) (show (Z.of_nat (length cs)) ++ suffix), cs).

(** A contribution made when a condition holds. *)
Definition when (b : bool) (c : ScoreContribution) : list ScoreContribution := if b then [c] else [].

(** The sections around the first empty lines of a message. *)
Definition blank_line : bytes := CRLF ++ CRLF.
Definition header_section (raw : bytes) : bytes := default raw (head (split_str raw blank_line)).
Definition body_section (raw : bytes) : bytes := default [] (split_str raw blank_line !! 1%nat).

(** ** DKIM, ARC and DMARC ([dkim.rs], [arc.rs], [dmarc.rs]) *)

Section Authentication.
Context `{MailAuth}.

Definition is_dkim_pass (r : DkimResult) : bool := match r with DkimPass => true | _ => false end.
Definition is_dkim_fail (r : DkimResult) : bool := match r with DkimFail => true | _ => false end.

Definition dkim_check (weight : f64) (ctx : MessageContext) : scored :=
  match parse_authenticated (raw_message ctx) with
  | None => (Skip (bs "Failed to parse message for DKIM"), [])
  | Some msg =>
      let result := verify_dkim msg in
      let any_pass := existsb is_dkim_pass result in
      let any_fail := existsb is_dkim_fail result in
      if any_fail && negb any_pass then
        let score := f_mul weight f1 in
        (Hit score (bs "DKIM fail"),
         [mkContribution (bs "dkim") Authentication score (bs "DKIM signature verification failed")])
      else if negb any_pass && negb any_fail then
        let score := f_mul weight (f_lit 2 10) in
        (Hit score (bs "No DKIM signature"),
         [mkContribution (bs "dkim") Authentication score (bs "No DKIM signature present")])
      else (Pass, [])
  end.

Definition arc_check (weight : f64) (ctx : MessageContext) : scored :=
  match parse_authenticated (raw_message ctx) with
  | None => (Skip (bs "Failed to parse message for ARC"), [])
  | Some msg =>
      match verify_arc msg with
      | DkimPass => (Pass, [])
      | DkimFail =>
          let score := f_mul weight (f_lit 5 10) in
          (Hit score (bs "ARC fail"),
           [mkContribution (bs "arc") Authentication score (bs "ARC chain validation failed")])
      | DkimNone | DkimNeutral | DkimPermError | DkimTempError => (Pass, [])
      end
  end.

Record DmarcCheck := mkDmarc { dmarc_weight : f64; honor_reject_policy : bool }.

Definition dmarc_check (c : DmarcCheck) (ctx : MessageContext) : scored :=
  match parse_authenticated (raw_message ctx) with
  | None => (Skip (bs "Failed to parse message for DMARC"), [])
  | Some msg =>
      let env := envelope ctx in
      let domain := match rsplit_once (mail_from env) 64 with
                    | Some (_, d) => trim_end_matches (Z.eqb 62) d
                    | None => []
                    end in
      let dkim_result := verify_dkim msg in
      let spf_result := verify_spf_sender (client_ip env) (helo_domain env) domain (mail_from env) in
      let '(dkim_alignment, policy) := verify_dmarc msg dkim_result domain spf_result in
      match dkim_alignment with
      | DmarcPass => (Pass, [])
      | DmarcFail =>
          let policy_is_reject := match policy with PolicyReject => true | _ => false end in
          if honor_reject_policy c && policy_is_reject then
            (Reject (bs "DMARC policy reject for " ++ domain),
             [mkContribution (bs "dmarc") Authentication (dmarc_weight c)
                (bs "DMARC fail with p=reject for " ++ domain)])
          else
            let score := f_mul (dmarc_weight c) (f_lit 8 10) in
            (Hit score (bs "DMARC fail for " ++ domain),
             [mkContribution (bs "dmarc") Authentication score (bs "DMARC fail for " ++ domain)])
      | DmarcTempError | DmarcPermError | DmarcNone =>
          let score := f_mul (dmarc_weight c) (f_lit 1 10) in
          (Hit score (bs "No DMARC record for " ++ domain),
           [mkContribution (bs "dmarc") Authentication score (bs "No DMARC record for " ++ domain)])
      end
  end.
End Authentication.

(** ** URLs ([url_analysis.rs]) *)

Section Url.
Context `{RegexFind} `{Resolver} `{Unicode}.

Definition EXCESSIVE_URL_THRESHOLD : Z := 15.
Definition url_pattern : bytes := bs "https?://([a-zA-Z0-9\-\.]+\.[a-zA-Z]{2,})(?:[/\?\#]|$)".

Record UrlAnalysisCheck := mkUrl { url_weight : f64; surbl_zones : list bytes; url_re : Regex }.

Definition UrlAnalysisCheck_new (weight : f64) (zones : list bytes) : option UrlAnalysisCheck :=
  mkUrl weight zones <$> regex_new url_pattern.

Definition extract_domains (c : UrlAnalysisCheck) (text : bytes) : list bytes :=
  dedup (sort_strings (filter_map (fun cap => to_lowercase <$> cap) (captures_1 (url_re c) text))).

Definition check_surbl (domain zone : bytes) : bool := is_ok (resolve_ip (domain ++ bs "." ++ zone)).

Definition url_check (c : UrlAnalysisCheck) (ctx : MessageContext) : scored :=
  let body_text := from_utf8_lossy (raw_message ctx) in
  let domains := extract_domains c body_text in
  let url_count := find_count (url_re c) body_text in
  conclude
    (when (EXCESSIVE_URL_THRESHOLD <? url_count)
       (mkContribution (bs "url_analysis/excessive") Content (f_mul (url_weight c) (f_lit 5 10))
          (bs "Excessive URLs: " ++ show url_count ++ bs " found")) ++
     flat_map (fun domain => flat_map (fun zone =>
       when (check_surbl domain zone)
         (mkContribution (bs "url_analysis/surbl") Reputation (f_mul (url_weight c) f1)
            (bs "Domain " ++ domain ++ bs " listed in " ++ zone))) (surbl_zones c)) domains)
    (bs " URL issues found").
End Url.

(** ** Ratios ([ratio.rs]) *)

(** [char::is_alphanumeric] outside ASCII is Unicode data. *)
Class UnicodeClasses := { uni_alphanumeric : Z -> bool }.
#[export] Instance ascii_classes : UnicodeClasses | 100 := {| uni_alphanumeric _ := false |}.

Definition is_alphanumeric `{UnicodeClasses} (c : Z) : bool :=
  ((48 <=? c) && (c <=? 57)) || ((65 <=? c) && (c <=? 90)) || ((97 <=? c) && (c <=? 122)) ||
  ((128 <=? c) && uni_alphanumeric c).

Section Ratio.
Context `{RegexFind} `{UnicodeClasses}.

Record RatioAnalysisCheck := mkRatio { ratio_weight : f64; link_re : Regex; img_tag_re : Regex }.

Definition RatioAnalysisCheck_new (weight : f64) : option RatioAnalysisCheck :=
  link ← regex_new (bs "(?i)<a\s"); img ← regex_new (bs "(?i)<img\s"); Some (mkRatio weight link img).

Definition count_by {A} (p : A -> bool) (l : list A) : Z := Z.of_nat (length (List.filter p l)).

Definition ratio_check (c : RatioAnalysisCheck) (ctx : MessageContext) : scored :=
  let body := body_section (from_utf8_lossy (raw_message ctx)) in
  let text_len := count_by (fun ch => is_alphanumeric ch || char_is_whitespace ch) (chars body) in
  let link_count := find_count (link_re c) body in
  let link_density := f_div (f_of_Z link_count) (f_div (f_of_Z text_len) (f_of_Z 100)) in
  let img_count := find_count (img_tag_re c) body in
  let html_tag_count := count_by (Z.eqb 60) body in
  let tag_ratio := f_div (f_of_Z html_tag_count) (f_of_Z text_len) in
  conclude
    (when ((0 <? text_len) && (0 <? link_count) && f_gt link_density (f_of_Z 5))
       (mkContribution (bs "ratio/link_density") Content (f_mul (ratio_weight c) (f_lit 5 10))
          (bs "High link density: " ++ show_f1 link_density ++ bs " links per 100 chars")) ++
     when ((0 <? img_count) && (text_len <? 50))
       (mkContribution (bs "ratio/image_heavy") Content (f_mul (ratio_weight c) (f_lit 6 10))
          (show img_count ++ bs " images with only " ++ show text_len ++ bs " chars of text")) ++
     when ((0 <? text_len) && f_gt tag_ratio f1 && (20 <? html_tag_count))
       (mkContribution (bs "ratio/html_heavy") Content (f_mul (ratio_weight c) (f_lit 3 10))
          (bs "High HTML-to-text ratio: " ++ show_f1 tag_ratio)))
    (bs " ratio issues").
End Ratio.

(** ** Content rules ([content.rs]) *)

Section ContentRules.
Context `{RegexLib} `{Unicode}.

Record ContentRule := mkContentRule {
  cr_name : bytes; cr_pattern : Regex; cr_severity : f64; cr_description : bytes }.

Record ContentCheck := mkContent {
  cc_weight : f64; cc_rules : list ContentRule; subject_multiplier : f64 }.

Definition ContentCheck_with_rules (weight : f64) (rules : list ContentRule) : ContentCheck :=
  mkContent weight rules (f_lit 15 10).

Definition content_rule (name pattern : bytes) (severity : f64) (description : bytes) : option ContentRule :=
  (fun re => mkContentRule name re severity description) <$> regex_new pattern.

Definition default_rules : option (list ContentRule) :=
  mapM id
    [content_rule (bs "viagra") (bs "(?i)\bviagra\b") (f_lit 8 10) (bs "Pharmaceutical spam keyword");
     content_rule (bs "cialis") (bs "(?i)\bcialis\b") (f_lit 8 10) (bs "Pharmaceutical spam keyword");
     content_rule (bs "nigerian_prince") (bs "(?i)nigerian?\s+(prince|minister|bank)") f1
       (bs "419 scam pattern");
     content_rule (bs "million_dollars") (bs "(?i)\bmillion\s+(dollars|usd|euro)\b") (f_lit 6 10)
       (bs "Financial scam keyword");
     content_rule (bs "act_now") (bs "(?i)\b(act\s+now|limited\s+time|urgent|expires?\s+today)\b")
       (f_lit 4 10) (bs "Urgency spam pattern");
     content_rule (bs "free_offer") (bs "(?i)\b(free\s+offer|congratulations|you\s+(have\s+)?won)\b")
       (f_lit 5 10) (bs "Free offer spam pattern");
     content_rule (bs "click_here") (bs "(?i)\bclick\s+here\b") (f_lit 3 10) (bs "Click-bait pattern");
     content_rule (bs "unsubscribe_missing") (bs "(?i)\b(buy\s+now|order\s+today|special\s+offer)\b")
       (f_lit 4 10) (bs "Commercial spam without opt-out")].

Definition ContentCheck_new (weight : f64) : option ContentCheck :=
  ContentCheck_with_rules weight <$> default_rules.

(** The subject line; its first eight bytes are ASCII, since no other character has
    a letter of this word as its lower case. *)
Definition subject_of (text : bytes) : bytes :=
  match List.find (fun l => starts_with (to_lowercase l) (bs "subject:")) (lines text) with
  | Some l => trim (drop 8 l)
  | None => []
  end.

Definition rule_contribution (c : ContentCheck) (subject body_text : bytes) (rule : ContentRule)
  : option ScoreContribution :=
  let name := bs "content/" ++ cr_name rule in
  if negb (is_nil subject) && is_match (cr_pattern rule) subject then
    Some (mkContribution name Content
            (f_mul (f_mul (cc_weight c) (cr_severity rule)) (subject_multiplier c))
            (cr_description rule ++ bs " (subject match, " ++ show_f1 (subject_multiplier c) ++ bs "x)"))
  else if is_match (cr_pattern rule) body_text then
    Some (mkContribution name Content (f_mul (cc_weight c) (cr_severity rule)) (cr_description rule))
  else None.

Definition content_check (c : ContentCheck) (ctx : MessageContext) : scored :=
  let body_text := from_utf8_lossy (raw_message ctx) in
  conclude (filter_map (rule_contribution c (subject_of body_text) body_text) (cc_rules c))
    (bs " content rules matched").
End ContentRules.

(** ** Antivirus ([antivirus.rs]) *)

(** The operating system: a fresh temporary file, writing it, and running a program
    to its exit code ([None] when a signal ended it) and standard output. *)
Class AvHost := {
  temp_file : result bytes bytes;
  write_temp : bytes -> bytes -> result unit bytes;
  run_program : bytes -> list bytes -> result (option Z * bytes) bytes;
}.

Section Antivirus.
Context `{RegexFind} `{AvHost}.

Record ScannerDef := mkScanner {
  sc_name : bytes;
  command : bytes;
  clean_exit_codes : list Z;
  virus_exit_codes : list Z;
  virus_name_pattern : option Regex;
}.

Inductive ScanResult := ScanClean | ScanVirus (name : bytes) | ScanError (e : bytes).

Definition show_code (z : Z) : bytes := if z <? 0 then bs "-" ++ show (- z) else show z.

Definition run_scanner (scanner : ScannerDef) (file_path : bytes) : ScanResult :=
  let command_line := replace (command scanner) (bs "{file}") (from_utf8_lossy file_path) in
  match split_whitespace command_line with
  | [] => ScanError (bs "empty scanner command")
  | program :: args =>
      match run_program program args with
      | Err e => ScanError (bs "failed to run scanner: " ++ e)
      | Ok (code, stdout) =>
          let exit_code := default (-1) code in
          if bool_decide (exit_code ∈ clean_exit_codes scanner) then ScanClean
          else if bool_decide (exit_code ∈ virus_exit_codes scanner) then
            let stdout := from_utf8_lossy stdout in
            ScanVirus (match virus_name_pattern scanner with
                       | Some pattern =>
                           default (bs "unknown") (head (captures_1 pattern stdout) ≫= id)
                       | None => default (bs "unknown") (head (lines stdout))
                       end)
          else ScanError (bs "scanner exited with code " ++ show_code exit_code)
      end
  end.

Record AntivirusCheck := mkAv { av_weight : f64; reject_on_virus : bool; scanners : list ScannerDef }.

Definition is_virus (r : ScanResult) : bool := match r with ScanVirus _ => true | _ => false end.

Definition antivirus_check (c : AntivirusCheck) (ctx : MessageContext) : scored :=
  if is_nil (scanners c) then (Skip (bs "No AV scanners configured"), [])
  else match temp_file with
  | Err _ => (Skip (bs "temp file creation failed"), [])
  | Ok tmp_path =>
      match write_temp tmp_path (raw_message ctx) with
      | Err _ => (Skip (bs "temp file write failed"), [])
      | Ok _ =>
          let results := (fun s => run_scanner s tmp_path) <$> scanners c in
          let contributions :=
            flat_map (fun r => when (is_virus r)
              (mkContribution (bs "antivirus") Content (f_mul (av_weight c) f1) (bs "Virus detected")))
              results in
          let virus_found := existsb is_virus results in
          if virus_found && reject_on_virus c then (Reject (bs "Message rejected"), contributions)
          else if is_nil contributions then (Pass, contributions)
          else (Hit (severity_of contributions) (bs "Content rejected"), contributions)
      end
  end.
End Antivirus.

(** ** Character sets ([charset.rs]) *)

Section Charset.
Context `{RegexFind} `{Unicode}.
(** [Debug] of the set of character sets, in the iteration order of the [HashSet]. *)
Context (debug_set : list bytes -> bytes).

Record CharsetCheck := mkCharset { cs_weight : f64; zero_width_re : Regex }.

Definition CharsetCheck_new (weight : f64) : option CharsetCheck :=
  mkCharset weight <$> regex_new (bs "[\x{200B}\x{200C}\x{200D}\x{FEFF}]").

(** The first part of a split at semicolons, quotes and white space. *)
Fixpoint until_delimiter (cs : list Z) : list Z :=
  match cs with
  | [] => []
  | c :: cs => if (c =? 59) || (c =? 34) || char_is_whitespace c then [] else c :: until_delimiter cs
  end.

Definition charset_of (l : bytes) : option bytes :=
  if contains l (bs "charset=") then
    (fun s => encode (until_delimiter (chars s))) <$> (split_str l (bs "charset=") !! 1%nat)
  else None.

Definition charsets (header_lower : bytes) : list bytes :=
  List.filter (fun s => negb (is_nil s)) (filter_map charset_of (lines header_lower)).

Definition charset_check (c : CharsetCheck) (ctx : MessageContext) : scored :=
  let raw := from_utf8_lossy (raw_message ctx) in
  let header_lower := to_lowercase (header_section raw) in
  let unique_charsets := remove_dups (charsets header_lower) in
  let body := body_section raw in
  let zw_count := find_count (zero_width_re c) body in
  conclude
    (when (1 <? Z.of_nat (length unique_charsets))
       (mkContribution (bs "charset/mixed") Content (f_mul (cs_weight c) (f_lit 5 10))
          (bs "Mixed charsets: " ++ debug_set unique_charsets)) ++
     when (3 <? zw_count)
       (mkContribution (bs "charset/zero_width") Content (f_mul (cs_weight c) (f_lit 7 10))
          (show zw_count ++ bs " zero-width characters found")) ++
     when (contains header_lower (bs "content-transfer-encoding: base64") &&
           forallb (fun b => b <? 128) body && (100 <? Z.of_nat (length body)))
       (mkContribution (bs "charset/unnecessary_b64") Content (f_mul (cs_weight c) (f_lit 3 10))
          (bs "Unnecessary Base64 encoding of ASCII text")))
    (bs " charset issues").
End Charset.

(** ** HTML ([html.rs]) *)

Section Html.
Context `{LolHtml} `{Unicode}.

(** [&raw[idx..]]: the index comes from the lower-cased text, so it can lie outside
    the text or inside a character; the outer [None] is that panic. *)
Definition extract_html_part (raw : bytes) : option bytes :=
  let whole := if contains raw (bs "<html") || contains raw (bs "<HTML") then raw else [] in
  match find (to_lowercase raw) (bs "content-type: text/html") with
  | Some idx =>
      rest ← slice_from raw idx;
      match find rest blank_line with
      | Some body_start =>
          let body := drop (body_start + 4) rest in
          match find body (CRLF ++ bs "--") with
          | Some e => Some (take e body)
          | None => Some body
          end
      | None => Some whole
      end
  | None => Some whole
  end.

Definition hides (e : HtmlElement) : bool :=
  match style_attr e with
  | Some style =>
      let style_lower := to_lowercase style in
      contains style_lower (bs "display:none") || contains style_lower (bs "display: none") ||
      contains style_lower (bs "visibility:hidden") || contains style_lower (bs "visibility: hidden") ||
      contains style_lower (bs "font-size:0") || contains style_lower (bs "font-size: 0")
  | None => false
  end.

Definition has_tag (t : bytes) (e : HtmlElement) : bool := bool_decide (tag e = t).

Definition html_check (weight : f64) (ctx : MessageContext) : option scored :=
  let body_text := from_utf8_lossy (raw_message ctx) in
  if negb (contains body_text (bs "<html")) && negb (contains body_text (bs "<HTML")) &&
     negb (contains body_text (bs "text/html"))
  then Some (Skip (bs "No HTML content"), [])
  else
    html_part ← extract_html_part body_text;
    if is_nil html_part then Some (Pass, [])
    else
      let elements := html_elements html_part in
      let hidden := count_by hides elements in
      let imgs := count_by (has_tag (bs "img")) elements in
      let forms := count_by (has_tag (bs "form")) elements in
      Some (conclude
        (when (0 <? hidden)
           (mkContribution (bs "html/hidden_text") Content (f_mul weight (f_lit 6 10))
              (show hidden ++ bs " hidden elements")) ++
         when (3 <? imgs)
           (mkContribution (bs "html/image_heavy") Content (f_mul weight (f_lit 5 10))
              (show imgs ++ bs " images in HTML email")) ++
         when (0 <? forms)
           (mkContribution (bs "html/form") Content (f_mul weight (f_lit 8 10))
              (show forms ++ bs " form element(s) in email")))
        (bs " HTML issues")).
End Html.

(** ** Bulk mail ([bulk.rs]) *)

Definition bulk_line (l : bytes) : bool :=
  starts_with l (bs "precedence:") &&
  (contains l (bs "bulk") || contains l (bs "junk") || contains l (bs "list")).

Definition bulk_check `{Unicode} (weight : f64) (ctx : MessageContext) : scored :=
  let header_lower := to_lowercase (header_section (from_utf8_lossy (raw_message ctx))) in
  let is_bulk_precedence := existsb bulk_line (lines header_lower) in
  let has_list_unsub := contains header_lower (bs "list-unsubscribe:") in
  let has_list_id := contains header_lower (bs "list-id:") in
  conclude
    ((if is_bulk_precedence && negb has_list_unsub then
        [mkContribution (bs "bulk/no_unsubscribe") Content (f_mul weight (f_lit 6 10))
           (bs "Bulk Precedence header without List-Unsubscribe")]
      else if is_bulk_precedence then
        [mkContribution (bs "bulk/precedence") Content (f_mul weight (f_lit 1 10))
           (bs "Bulk Precedence header present")]
      else []) ++
     when (has_list_unsub && negb has_list_id)
       (mkContribution (bs "bulk/no_list_id") Content (f_mul weight (f_lit 2 10))
          (bs "List-Unsubscribe without List-ID")))
    (bs " bulk indicators").

(** ** Attachments ([attachment.rs]) *)

Section Attachments.
Context `{RegexLib} `{MailParser} `{Unicode}.

Record AttachmentCheck := mkAttach {
  at_weight : f64; dangerous_extensions : list bytes; double_ext_re : Regex }.

Definition double_ext_pattern : bytes :=
  bs "(?i)\.\w{2,4}\.(exe|scr|bat|cmd|ps1|vbs|js|msi|dll|hta|pif|com|cpl|wsf|wsh)$".

Definition AttachmentCheck_new (weight : f64) (dangerous : list bytes) : option AttachmentCheck :=
  mkAttach weight dangerous <$> regex_new double_ext_pattern.

Definition check_magic_bytes (content_type data : bytes) : bool :=
  if Z.of_nat (length data) <? 4 then true
  else
    let mime_lower := to_lowercase content_type in
    if contains mime_lower (bs "pdf") then starts_with data (bs "%PDF")
    else if contains mime_lower (bs "zip") || contains mime_lower (bs "x-zip") then
      starts_with data (bs "PK")
    else if contains mime_lower (bs "png") then starts_with data [0x89; 0x50; 0x4E; 0x47]
    else if contains mime_lower (bs "jpeg") || contains mime_lower (bs "jpg") then
      starts_with data [0xFF; 0xD8; 0xFF]
    else if contains mime_lower (bs "gif") then starts_with data (bs "GIF8")
    else if negb (contains mime_lower (bs "executable")) &&
            negb (contains mime_lower (bs "x-msdos")) &&
            negb (contains mime_lower (bs "x-msdownload")) &&
            starts_with data (bs "MZ")
    then false
    else true.

Definition attachment_contributions (c : AttachmentCheck) (a : Attachment) : list ScoreContribution :=
  let filename := default [] (attachment_name a) in
  let content_type_str := default [] (content_ctype a) in
  let ext_lower := to_lowercase (rsplit_next filename 46) in
  when (bool_decide (ext_lower ∈ dangerous_extensions c))
    (mkContribution (bs "attachment/dangerous_ext") Content (f_mul (at_weight c) f1)
       (bs "Dangerous extension: ." ++ ext_lower ++ bs " in " ++ filename)) ++
  when (is_match (double_ext_re c) filename)
    (mkContribution (bs "attachment/double_ext") Content (f_mul (at_weight c) (f_lit 12 10))
       (bs "Double extension: " ++ filename)) ++
  when (negb (is_nil content_type_str) && negb (check_magic_bytes content_type_str (contents a)))
    (mkContribution (bs "attachment/mime_mismatch") Content (f_mul (at_weight c) (f_lit 8 10))
       (bs "MIME type mismatch: " ++ filename ++ bs " declared as " ++ content_type_str)).

Definition attachment_check (c : AttachmentCheck) (ctx : MessageContext) : scored :=
  match parse_mime (raw_message ctx) with
  | None => (Skip (bs "Failed to parse MIME"), [])
  | Some attachments =>
      conclude (flat_map (attachment_contributions c) attachments) (bs " attachment issues")
  end.
End Attachments.

(** ** Headers ([header_analysis.rs]) *)

Section HeaderAnalysis.
Context `{RegexFind} `{Unicode}.

Record HeaderAnalysisCheck := mkHeaderAnalysis { ha_weight : f64; received_ip_re : Regex }.

Definition HeaderAnalysisCheck_new (weight : f64) : option HeaderAnalysisCheck :=
  mkHeaderAnalysis weight <$>
    regex_new (bs "(?i)Received:\s+from\s+\S+\s+\(.*?\[(\d+\.\d+\.\d+\.\d+)\]").

Definition is_private_ip (ip : IpAddr) : bool :=
  match ip with
  | V4 a => v4_is_private a || v4_is_loopback a
  | V6 a => v6_is_loopback a
  end.

(** The first private address after a public one. *)
Fixpoint forged_received (ips : list bytes) (seen_public : bool) : option bytes :=
  match ips with
  | [] => None
  | ip_str :: rest =>
      match parse_ip ip_str with
      | Some ip =>
          if is_private_ip ip && seen_public then Some ip_str
          else forged_received rest (negb (is_private_ip ip) || seen_public)
      | None => forged_received rest seen_public
      end
  end.

Definition header_check (c : HeaderAnalysisCheck) (ctx : MessageContext) : scored :=
  let header := header_section (from_utf8_lossy (raw_message ctx)) in
  let header_lower := to_lowercase header in
  let w f := f_mul (ha_weight c) f in
  let from_count := count_by (fun l => starts_with l (bs "from:")) (lines header_lower) in
  let received_ips := filter_map id (captures_1 (received_ip_re c) header) in
  conclude
    (when (negb (contains header_lower (LF :: bs "message-id:")) &&
           negb (starts_with header_lower (bs "message-id:")))
       (mkContribution (bs "header/missing_message_id") Header (w (f_lit 5 10))
          (bs "Missing Message-ID header")) ++
     when (negb (contains header_lower (LF :: bs "date:")) &&
           negb (starts_with header_lower (bs "date:")))
       (mkContribution (bs "header/missing_date") Header (w (f_lit 6 10)) (bs "Missing Date header")) ++
     when (1 <? from_count)
       (mkContribution (bs "header/multiple_from") Header (w f1)
          (bs "Multiple From headers (" ++ show from_count ++ bs ")")) ++
     (if 1 <? Z.of_nat (length received_ips) then
        match forged_received received_ips false with
        | Some ip_str =>
            [mkContribution (bs "header/forged_received") Header (w (f_lit 4 10))
               (bs "Suspicious Received chain: private IP " ++ ip_str ++ bs " after public")]
        | None => []
        end
      else []))
    (bs " header issues").
End HeaderAnalysis.

(** ** Lemmas *)

Lemma from_utf8_lossy_ascii s : is_ascii s -> from_utf8_lossy s = s.
Proof.
  induction 1 as [|b s Hb Hs IH]; simpl; [done|].
  by rewrite (proj2 (Z.ltb_lt b 128)), IH by lia.
Qed.

Lemma find_length s p i : find s p = Some i -> (i <= length s)%nat.
Proof.
  revert i. induction s as [|x s IH]; intros i; simpl.
  - destruct (starts_with [] p); naive_solver.
  - destruct (starts_with (x :: s) p); [intros [= <-]; lia|].
    destruct (find s p) as [j|]; simpl; [|done]. intros [= <-]. specialize (IH j eq_refl). lia.
Qed.

Lemma starts_with_two s p q : starts_with s p = true -> starts_with s q = true ->
  starts_with p q = true \/ starts_with q p = true.
Proof.
  rewrite !starts_with_true. intros [a ->] [b E].
  destruct (decide (length p <= length q)%nat).
  - right. exists (drop (length p) q). rewrite <- (take_drop (length p) q) at 1. f_equal.
    apply (f_equal (take (length p))) in E. rewrite take_app_length, take_app_le in E by lia. done.
  - left. exists (drop (length q) p). rewrite <- (take_drop (length q) p) at 1. f_equal.
    apply (f_equal (take (length q))) in E. rewrite take_app_length, take_app_le in E by lia. done.
Qed.

Lemma extract_html_part_ascii `{Unicode} raw : is_ascii raw -> is_Some (extract_html_part raw).
Proof.
  intros Ha. unfold extract_html_part.
  destruct (find (to_lowercase raw) _) as [idx|] eqn:E; [|by eexists].
  apply find_length in E. rewrite to_lowercase_ascii, length_fmap in E by done.
  rewrite slice_from_ascii by done. simpl. repeat case_match; by eexists.
Qed.

Section Magic.
Context `{RegexLib} `{MailParser} `{Unicode}.

(** No accepted signature is the signature of an executable. *)
Lemma check_magic_bytes_executable ct data :
  starts_with data (bs "MZ") = true -> (4 <= length data)%nat ->
  contains (to_lowercase ct) (bs "executable") = false ->
  contains (to_lowercase ct) (bs "x-msdos") = false ->
  contains (to_lowercase ct) (bs "x-msdownload") = false ->
  check_magic_bytes ct data = false.
Proof.
  intros Hm Hl Hx1 Hx2 Hx3. unfold check_magic_bytes. rewrite Hx1, Hx2, Hx3, Hm.
  rewrite (proj2 (Z.ltb_ge (Z.of_nat (length data)) 4)) by lia.
  assert (Hno : forall p, starts_with (bs "MZ") p = false -> starts_with p (bs "MZ") = false ->
    starts_with data p = false).
  { intros p Hp Hq. destruct (starts_with data p) eqn:E; [|done].
    destruct (starts_with_two _ _ _ Hm E); congruence. }
  rewrite !Hno by reflexivity. by repeat case_if.
Qed.
End Magic.

(** ** Properties *)

(** An executable cannot pass as another type: an attachment of at least four bytes
    that starts like a PE executable, with a declared type that does not say so, is
    always reported as a mismatch, and the check hits. *)
Theorem disguised_executable_reported `{RegexLib} `{MailParser} `{Unicode} c ctx atts a ct :
  parse_mime (raw_message ctx) = Some atts -> a ∈ atts ->
  content_ctype a = Some ct -> ct <> [] ->
  starts_with (contents a) (bs "MZ") = true -> (4 <= length (contents a))%nat ->
  contains (to_lowercase ct) (bs "executable") = false ->
  contains (to_lowercase ct) (bs "x-msdos") = false ->
  contains (to_lowercase ct) (bs "x-msdownload") = false ->
  exists sev detail cs, attachment_check c ctx = (Hit sev detail, cs) /\
    exists k, k ∈ cs /\ check_name k = bs "attachment/mime_mismatch".
Proof.
  intros Hp Hin Hct Hne Hm Hl Hx1 Hx2 Hx3. unfold attachment_check. rewrite Hp.
  set (cs := flat_map (attachment_contributions c) atts).
  assert (Hk : exists k, k ∈ cs /\ check_name k = bs "attachment/mime_mismatch").
  { unfold cs. eexists. split.
    - apply list_elem_of_In, in_flat_map. exists a. split; [by apply list_elem_of_In|].
      apply list_elem_of_In. unfold attachment_contributions. rewrite Hct. simpl.
      rewrite check_magic_bytes_executable by done.
      rewrite (proj2 (is_nil_false ct)) by done. simpl.
      apply elem_of_app. right. apply elem_of_app. right. apply list_elem_of_here.
    - reflexivity. }
  unfold conclude. destruct cs as [|k0 cs'] eqn:E.
  - destruct Hk as (k & []%elem_of_nil & _).
  - simpl. eauto 10.
Qed.

Lemma disguised_executable_reported_witness :
  let a := mkAttachment (Some (bs "report.pdf")) (Some (bs "application/pdf")) (bs "MZ123") in
  let parser := {| parse_mime _ := Some [a] |} in
  let c := @mkAttach literal_regex f1 [bs "exe"] (bs ".exe") in
  exists sev detail cs, attachment_check c (mkMessage example_envelope []) = (Hit sev detail, cs) /\
    exists k, k ∈ cs /\ check_name k = bs "attachment/mime_mismatch".
Proof.
  intros a parser c.
  apply (disguised_executable_reported c (mkMessage example_envelope []) [a] a (bs "application/pdf"));
    try reflexivity.
  - apply list_elem_of_here.
  - discriminate.
  - simpl. lia.
Defined.

(** On an ASCII message the HTML check returns. *)
Theorem html_check_ascii_returns `{LolHtml} `{Unicode} weight ctx :
  is_ascii (raw_message ctx) -> is_Some (html_check weight ctx).
Proof.
  intros Ha. unfold html_check. rewrite from_utf8_lossy_ascii by done.
  case_if; [by eexists|]. destruct (extract_html_part_ascii _ Ha) as [part ->]. simpl.
  case_if; by eexists.
Qed.

Lemma html_check_ascii_returns_witness :
  let html := {| html_elements _ := [] |} in
  is_Some (html_check f1 (mkMessage example_envelope (bs "<html>"))).
Proof.
  intros html. apply (html_check_ascii_returns f1 (mkMessage example_envelope (bs "<html>"))).
  repeat constructor; done.
Defined.

(** Twenty-eight times the capital letter I with dot above, before an HTML part. *)
Definition dotted_message : bytes :=
  encode (replicate 28 304) ++ CRLF ++ bs "Content-Type: text/html" ++ CRLF ++ CRLF.

(** The HTML check panics on a message a sender can choose: in Unicode the lower
    case of the capital letter I with dot above is one byte longer than the letter, so
    the position found in the lower-cased text lies beyond the end of the text. *)
Theorem html_check_panics `{LolHtml} `{Unicode} weight env :
  (forall before after, uni_lower before 304 after = [105; 775]) ->
  html_check weight (mkMessage env dotted_message) = None.
Proof.
  intros Hu. unfold html_check. cbn [raw_message].
  assert (El : from_utf8_lossy dotted_message = dotted_message) by reflexivity.
  rewrite El. assert (Ec : contains dotted_message (bs "text/html") = true) by reflexivity.
  rewrite Ec, andb_false_r. unfold extract_html_part.
  assert (Ef : find (to_lowercase dotted_message) (bs "content-type: text/html") = Some 86%nat).
  { unfold to_lowercase.
    assert (Ecs : chars dotted_message =
      replicate 28 304 ++ CRLF ++ bs "Content-Type: text/html" ++ CRLF ++ CRLF) by reflexivity.
    rewrite Ecs. cbn [replicate app lower_chars]. simpl. rewrite !Hu. reflexivity. }
  rewrite Ef. reflexivity.
Qed.

Lemma html_check_panics_witness :
  let html := {| html_elements _ := [] |} in
  let dotted := {| uni_upper c := [c]; uni_lower _ c _ := if c =? 304 then [105; 775] else [c] |} in
  @html_check html dotted f1 (mkMessage example_envelope dotted_message) = None.
Proof.
  intros html dotted. apply (@html_check_panics html dotted f1 example_envelope). reflexivity.
Defined.
