(* ===== verification/SmtpProxy.v ===== *)
(** * The SMTP proxy: [serverwall-proxy/src/proxy/smtp_proxy.rs]

    One session with a client: the command loop, the DATA phase with the
    anti-spam pipeline, and the conversation that forwards a message to the
    backend.  The client is the bytes it sends; what the proxy does is a list of
    events.  A write that fails, or a line that is not UTF-8, ends the session
    with an error: the events up to there have happened. *)

From S2P Require Import Prelude RustStr Schema Net Wire Float64 SmtpProto Antispam.
Open Scope Z_scope.

(** ** State and configuration *)

Inductive SmtpState :=
  Connected | BannerSent | HeloReceived | StMailFrom | StRcptTo | StData | Proxying | StQuit.

#[export] Instance SmtpState_eq_dec : EqDecision SmtpState.
Proof. solve_decision. Defined.

(** The fields of [SmtpProxy], and of the connection it serves. *)
Record SmtpProxy (W : Type) := mkProxy {
  px_backend_tag : bytes;
  px_pipeline : AntispamPipeline W;
  px_allow_list : AllowList;
  px_block_list : BlockList;
  px_hostname : bytes;
  px_ja3 : option bytes;
  px_headers : SmtpHeadersConfig;
  peer_ip : IpAddr;
  px_connect_time : Z;
  px_banner_time : Z;
  (** [chrono::Utc::now().to_rfc2822()] *)
  px_date : bytes;
}.
Arguments mkProxy {W}.
Arguments px_backend_tag {W}.
Arguments px_pipeline {W}.
Arguments px_allow_list {W}.
Arguments px_block_list {W}.
Arguments px_hostname {W}.
Arguments px_ja3 {W}.
Arguments px_headers {W}.
Arguments peer_ip {W}.
Arguments px_connect_time {W}.
Arguments px_banner_time {W}.
Arguments px_date {W}.

(** The variables of the command loop. *)
Record Session := mkSession {
  s_state : SmtpState;
  s_mail_from : bytes;
  s_rcpt_to : list bytes;
  s_helo : bytes;
  s_data : bytes;
  s_allowed : bool;
  s_early : bool;
  s_count : Z;
}.

(** What the proxy does, in order: a reply to the client, a message put on the wire
    to the backend with the report that let it through. *)
Inductive Event :=
| Reply (text : bytes)
| Forward (from : bytes) (rcpts : list bytes) (data : bytes) (report : SpamReport) (wire : bytes).

(** The backend of one forwarded message: unreachable, or the lines it sends, [None]
    for a read that fails; after them it has closed its side. *)
Inductive BackendConn := Unreachable | Answers (reads : list (option bytes)).

(** ** Forwarding *)

(** The loop over the EHLO response ends at the end of the stream or at a line whose
    fourth byte is a space. *)
Fixpoint read_ehlo (c : list (option bytes)) : bytes * result unit unit * list (option bytes) :=
  match c with
  | [] => ([], Ok tt, [])
  | None :: c => ([], Err tt, c)
  | Some l :: c =>
      if is_nil l || ((4 <=? Z.of_nat (length l)) && bool_decide (l !! 3%nat = Some 32))
      then ([], Ok tt, c) else read_ehlo c
  end.

Fixpoint send_rcpts (rcpts : list bytes) : conv unit unit :=
  match rcpts with
  | [] => conv_ret tt
  | r :: rcpts => do _ <- send (wire (WRcptTo r)); do _ <- recv tt; send_rcpts rcpts
  end.

Section Forwarding.
Context {W : Type} (p : SmtpProxy W).

Definition auth_header (auth : AuthenticationResults) : bytes :=
  px_hostname p ++ bs "; spf=" ++ show_auth (a_spf auth) ++ bs " ; dkim=" ++ show_auth (a_dkim auth) ++
  bs " ; dmarc=" ++ show_auth (a_dmarc auth) ++ bs " ; arc=" ++ show_auth (a_arc auth).

Definition injected_headers (report : SpamReport) : list (bytes * bytes) :=
  (if add_received (px_headers p) then
     [(bs "Received", bs "Received: from unknown by " ++ px_hostname p ++ bs " (id=" ++
                      px_backend_tag p ++ bs "); " ++ px_date p)]
   else []) ++
  (if sh_x_forwarded_for (px_headers p) then [(bs "X-Forwarded-For", show_ip (peer_ip p))] else []) ++
  match rep_verdict report with
  | Suspect => build_headers report (px_hostname p)
  | Clean => [(bs "Authentication-Results", auth_header (rep_auth_results report))]
  | Spam => []
  end.

(** The bytes after the response to DATA. *)
Definition data_phase (report : SpamReport) (data : bytes) : bytes :=
  concat ((fun h : bytes * bytes => h.1 ++ bs ": " ++ h.2 ++ CRLF) <$> injected_headers report) ++
  data ++ CRLF ++ bs "." ++ CRLF.

Definition forward_conversation (data from : bytes) (rcpts : list bytes) (report : SpamReport)
  : conv unit bytes :=
  do _ <- recv tt;
  do _ <- send (wire (WEhlo (px_hostname p)));
  do _ <- read_ehlo;
  do _ <- send (wire (WMailFrom from));
  do _ <- recv tt;
  do _ <- send_rcpts rcpts;
  do _ <- send (wire WData);
  do _ <- recv tt;
  do _ <- send (data_phase report data);
  do resp <- recv tt;
  do _ <- send (wire WQuit);
  conv_ret resp.

(** The bytes written, and the last response or the error. *)
Definition forward_to_backend (conn : BackendConn) (data from : bytes) (rcpts : list bytes)
    (report : SpamReport) : bytes * result bytes unit :=
  match conn with
  | Unreachable => ([], Err tt)
  | Answers reads => (forward_conversation data from rcpts report reads).1
  end.
End Forwarding.

(** ** The session *)

(** The loop variables, the shared state of the checks, the backends of the messages
    still to come, and the lines the client has still to send. *)
Record Machine (W : Type) := mkMachine {
  m_session : Session;
  m_world : W;
  m_conns : list BackendConn;
  m_lines : list bytes;
}.
Arguments mkMachine {W}.
Arguments m_session {W}.
Arguments m_world {W}.
Arguments m_conns {W}.
Arguments m_lines {W}.

(** How an iteration ends: the next one, the end of the loop, an I/O error. *)
Inductive Flow := Next | Break | IoError.

Definition set_state (st : SmtpState) (s : Session) : Session :=
  mkSession st (s_mail_from s) (s_rcpt_to s) (s_helo s) (s_data s) (s_allowed s) (s_early s) (s_count s).
Definition set_helo (domain : bytes) (s : Session) : Session :=
  mkSession HeloReceived (s_mail_from s) (s_rcpt_to s) domain (s_data s) (s_allowed s) (s_early s)
    (s_count s).
Definition set_from (from : bytes) (s : Session) : Session :=
  mkSession (s_state s) from (s_rcpt_to s) (s_helo s) (s_data s) (s_allowed s) (s_early s) (s_count s).
Definition add_rcpt (addr : bytes) (allowed : bool) (s : Session) : Session :=
  mkSession StRcptTo (s_mail_from s) (s_rcpt_to s ++ [addr]) (s_helo s) (s_data s) allowed (s_early s)
    (s_count s).
Definition set_data (data : bytes) (s : Session) : Session :=
  mkSession (s_state s) (s_mail_from s) (s_rcpt_to s) (s_helo s) data (s_allowed s) (s_early s)
    (s_count s).
Definition count_command (s : Session) : Session :=
  mkSession (s_state s) (s_mail_from s) (s_rcpt_to s) (s_helo s) (s_data s) (s_allowed s) (s_early s)
    (wrapping_add 32 (s_count s) 1).

(** [mail_from.clear(); rcpt_to.clear(); data_buffer.clear()] and the state and flag
    assigned with them. *)
Definition reset_transaction (st : SmtpState) (allowed : bool) (s : Session) : Session :=
  mkSession st [] [] (s_helo s) [] allowed (s_early s) (s_count s).

Definition is_angle (c : Z) : bool := (c =? 60) || (c =? 62).

(** The DATA loop: lines up to a lone dot or the end of the stream, the first dot of
    a doubled one removed; [Err] for a line that is not UTF-8. *)
Fixpoint read_data (ls : list bytes) (acc : bytes) : result (bytes * list bytes) unit :=
  match ls with
  | [] => Ok (acc, [])
  | l :: ls =>
      if negb (utf8_valid l) then Err tt
      else if bool_decide (l = bs "." ++ CRLF) || bool_decide (l = bs "." ++ [LF]) then Ok (acc, ls)
      else read_data ls (acc ++ (if starts_with l (bs "..") then drop 1 l else l))
  end.

Section Loop.
Context `{Unicode} {W : Type} (p : SmtpProxy W).

Definition session_envelope (s : Session) : EnvelopeContext :=
  mkEnvelope (peer_ip p) (s_helo s) (s_mail_from s) (s_rcpt_to s) (s_early s) (px_connect_time p)
    (px_banner_time p) (s_count s) false (px_ja3 p).

Definition unavailable : bytes := bs "451 4.3.0 Backend unavailable" ++ CRLF.

(** Forward with the next backend: the event, and the reply to the client. *)
Definition forward (s : Session) (report : SpamReport) (conns : list BackendConn)
  : list Event * list BackendConn :=
  let conn := default Unreachable (head conns) in
  let '(out, r) := forward_to_backend p conn (s_data s) (s_mail_from s) (s_rcpt_to s) report in
  ([Forward (s_mail_from s) (s_rcpt_to s) (s_data s) report out;
    Reply (match r with Ok resp => resp | Err _ => unavailable end)], drop 1 conns).

Definition clean_report : SpamReport := mkReport SpamScore_new Clean [] default_auth.

(** The evaluation of a message that has been read; [None] is a panic of a check. *)
Definition evaluate_message (s : Session) (w : W) (conns : list BackendConn)
  : option (list Event * Session * W * list BackendConn) :=
  let '((pre_decision, (pre_score, pre_contribs)), w) :=
    run_pre_data (px_pipeline p) (session_envelope s) w in
  match pre_decision with
  | PipeReject code reason =>
      Some ([Reply (show code ++ bs " 5.7.1 " ++ reason ++ CRLF)],
            reset_transaction HeloReceived (s_allowed s) s, w, conns)
  | PipeTempFail reason =>
      Some ([Reply (bs "451 4.7.1 " ++ reason ++ CRLF)],
            reset_transaction HeloReceived (s_allowed s) s, w, conns)
  | Continue | Accept =>
      if s_allowed s then
        let '(evs, conns) := forward s clean_report conns in
        Some (evs, reset_transaction HeloReceived (s_allowed s) s, w, conns)
      else
        report_result ← run_post_data (px_pipeline p) (mkMessage (session_envelope s) (s_data s))
                          pre_score pre_contribs default_auth;
        let '(evs, conns) :=
          match report_result with
          | Err (PipeReject code reason) => ([Reply (show code ++ bs " 5.7.1 " ++ reason ++ CRLF)], conns)
          | Err (PipeTempFail reason) => ([Reply (bs "451 4.7.1 " ++ reason ++ CRLF)], conns)
          | Ok report =>
              match rep_verdict report with
              | Spam => ([Reply (bs "550 5.7.1 Message rejected as spam" ++ CRLF)], conns)
              | Suspect | Clean => forward s report conns
              end
          | Err _ => ([], conns)
          end in
        Some (evs, reset_transaction HeloReceived false s, w, conns)
  end.

Definition capabilities : bytes :=
  bs "250-" ++ px_hostname p ++ CRLF ++ bs "250-PIPELINING" ++ CRLF ++ bs "250-SIZE 26214400" ++ CRLF ++
  bs "250-ENHANCEDSTATUSCODES" ++ CRLF ++ bs "250 8BITMIME" ++ CRLF.

Definition outcome : Type := list Event * Machine W * Flow.

Definition just (s : Session) (m : Machine W) (reply : bytes) (f : Flow) : option outcome :=
  Some ([Reply reply], mkMachine s (m_world m) (m_conns m) (m_lines m), f).

(** One command; the machine holds the lines after it. *)
Definition on_command (m : Machine W) (cmd : SmtpCommand) : option outcome :=
  let s := m_session m in
  match cmd with
  | Ehlo domain | Helo domain => just (set_helo domain s) m capabilities Next
  | StartTls => just s m (bs "454 4.7.0 TLS not available" ++ CRLF) Next
  | MailFrom sender =>
      let s := set_from (trim_matches is_angle sender) s in
      if block_matches (px_block_list p) (peer_ip p) (s_mail_from s)
      then just (set_state StQuit s) m (bs "550 5.7.1 Sender blocked" ++ CRLF) Break
      else just (set_state StMailFrom s) m (bs "250 2.1.0 Ok" ++ CRLF) Next
  | RcptTo recipient =>
      let addr := trim_matches is_angle recipient in
      if block_contains_recipient (px_block_list p) addr
      then just s m (bs "550 5.7.1 Recipient blocked" ++ CRLF) Next
      else
        let allowed := if allow_matches (px_allow_list p) (peer_ip p) (s_mail_from s)
                       then true else s_allowed s in
        just (add_rcpt addr allowed s) m (bs "250 2.1.5 Ok" ++ CRLF) Next
  | Data =>
      if bool_decide (s_state s <> StRcptTo) && bool_decide (s_state s <> StMailFrom)
      then just s m (bs "503 5.5.1 Bad sequence of commands" ++ CRLF) Next
      else
        let go := Reply (bs "354 End data with <CR><LF>.<CR><LF>" ++ CRLF) in
        let s := set_state StData s in
        match read_data (m_lines m) [] with
        | Err _ => Some ([go], mkMachine s (m_world m) (m_conns m) [], IoError)
        | Ok (data, rest) =>
            '(evs, s, w, conns) ← evaluate_message (set_data data s) (m_world m) (m_conns m);
            Some (go :: evs, mkMachine s w conns rest, Next)
        end
  | Rset =>
      let st := if bool_decide (s_state s <> BannerSent) && bool_decide (s_state s <> Connected)
                then HeloReceived else s_state s in
      just (reset_transaction st false s) m (bs "250 2.0.0 Ok" ++ CRLF) Next
  | Noop => just s m (bs "250 2.0.0 Ok" ++ CRLF) Next
  | Quit => just (set_state StQuit s) m (bs "221 2.0.0 Bye" ++ CRLF) Break
  | Auth _ | Xclient _ | Unknown _ => just s m (bs "502 5.5.2 Command not recognized" ++ CRLF) Next
  end.

(** The command loop.  Each iteration takes at least one line; the outer [None] is a
    panic, the inner one means that the fuel was too small. *)
Fixpoint command_loop (fuel : nat) (m : Machine W) : option (option (list Event * Session * Flow)) :=
  match m_lines m with
  | [] => Some (Some ([], m_session m, Break))
  | l :: rest =>
      match fuel with
      | O => Some None
      | S fuel =>
          if negb (utf8_valid l) then Some (Some ([], m_session m, IoError))
          else
            cmd ← parse_command l;
            '(evs, m', f) ← on_command (mkMachine (count_command (m_session m)) (m_world m) (m_conns m) rest) cmd;
            match f with
            | Next =>
                r ← command_loop fuel m';
                Some (match r with
                      | Some (evs', s, f) => Some (evs ++ evs', s, f)
                      | None => None
                      end)
            | Break | IoError => Some (Some (evs, m_session m', f))
            end
      end
  end.

(** The greeting: [fill_buf] waits until the client has sent something or has closed
    the connection; only then is the banner written. *)
Inductive Greeting := Waiting | Greeted (early_talker : bool).
Definition greet (received : bytes) (closed : bool) : Greeting :=
  if negb (is_nil received) then Greeted true else if closed then Greeted false else Waiting.

Definition banner : bytes := bs "220 " ++ px_hostname p ++ bs " ESMTP" ++ CRLF.

Definition initial_session (early : bool) : Session := mkSession BannerSent [] [] [] [] false early 0.

(** The whole session of a client that sends [input] and closes. *)
Definition proxy (input : bytes) (w : W) (conns : list BackendConn)
  : option (option (list Event * Session * Flow)) :=
  match greet input true with
  | Waiting => Some (Some ([], initial_session false, Break))
  | Greeted early =>
      let ls := split_inclusive_lf input in
      r ← command_loop (length ls) (mkMachine (initial_session early) w conns ls);
      Some (match r with Some (evs, s, f) => Some (Reply banner :: evs, s, f) | None => None end)
  end.
End Loop.

(** ** Lemmas *)

Section LoopLemmas.
Context `{Unicode} {W : Type} (p : SmtpProxy W).

Lemma on_command_cases m cmd evs m' f :
  on_command p m cmd = Some (evs, m', f) ->
  (cmd = Data /\ (exists go, evs = [go] /\ (forall from r d rep w, go <> Forward from r d rep w)) \/
   cmd = Data /\ (exists go data rest evs' w, evs = go :: evs' /\
     (forall from r d rep w, go <> Forward from r d rep w) /\
     read_data (m_lines m) [] = Ok (data, rest) /\
     evaluate_message p (set_data data (set_state StData (m_session m))) (m_world m) (m_conns m) =
       Some (evs', m_session m', w, m_conns m') /\ m_lines m' = rest /\ f = Next) \/
   cmd <> Data /\ (exists r, evs = [Reply r]) /\ m_lines m' = m_lines m).
Proof.
  destruct cmd; simpl; unfold just; intros Hc; try (right; right; repeat case_if_in Hc; simplify_eq/=; by eauto).
  case_if_in Hc; [left; simplify_eq; eauto|].
  destruct (read_data (m_lines m) []) as [[data rest]|] eqn:Er; [|left; simplify_eq; eauto].
  destruct (evaluate_message p _ _ _) as [[[[evs' s'] w'] conns']|] eqn:Ee; simplify_eq/=.
  right; left. split; [done|]. eexists _, data, rest, evs', w'. eauto 10.
Qed.

Lemma read_data_rest ls acc data rest :
  read_data ls acc = Ok (data, rest) -> exists k, rest = drop k ls.
Proof.
  revert acc. induction ls as [|l ls IH]; intros acc; simpl.
  { intros [= _ <-]. by exists O. }
  repeat case_if; intros Hr; simplify_eq; [by exists 1%nat|..];
    apply IH in Hr as [k ->]; by exists (S k).
Qed.

(** A command leaves a suffix of the lines. *)
Lemma on_command_suffix m cmd evs m' :
  on_command p m cmd = Some (evs, m', Next) -> exists k, m_lines m' = drop k (m_lines m).
Proof.
  intros Hc. pose proof Hc as Hc'. apply on_command_cases in Hc as [[-> _]|[(-> & go & data & rest & evs' & w & _ & _ & Hr & _ & Hl & _)|(_ & _ & Hl)]].
  - simpl in Hc'. unfold just in Hc'. case_if_in Hc'; [simplify_eq/=; by exists O|].
    destruct (read_data _ _) as [[data rest]|] eqn:Er; [|done].
    destruct (evaluate_message p _ _ _) as [[[[? ?] ?] ?]|]; simplify_eq/=.
    by eapply read_data_rest.
  - rewrite Hl. by eapply read_data_rest.
  - exists O. by rewrite Hl.
Qed.

(** The number of lines is fuel enough. *)
Lemma command_loop_fuel fuel m :
  (length (m_lines m) <= fuel)%nat -> command_loop p fuel m <> Some None.
Proof.
  revert m. induction fuel as [|fuel IH]; intros m Hl; simpl.
  { destruct (m_lines m); simpl in *; [done|lia]. }
  destruct (m_lines m) as [|l rest] eqn:El; [done|]. case_if; [done|].
  destruct (parse_command l) as [cmd|]; [simpl|done].
  destruct (on_command p _ cmd) as [[[evs m'] f]|] eqn:Ec; [simpl|done].
  destruct f; [|done..]. apply on_command_suffix in Ec as [k Ek]. simpl in *.
  assert (Hm' : (length (m_lines m') <= fuel)%nat) by (rewrite Ek, length_drop; lia).
  specialize (IH m' Hm'). destruct (command_loop p fuel m') as [[[[? ?] ?]|]|]; done.
Qed.

(** A property of events that every command keeps, under an invariant of the session. *)
Lemma command_loop_events (I : Session -> Prop) (P : Event -> Prop) fuel m evs s f :
  (forall s, I s -> I (count_command s)) ->
  (forall m cmd evs m' f, I (m_session m) -> on_command p m cmd = Some (evs, m', f) ->
     Forall P evs /\ (f = Next -> I (m_session m'))) ->
  I (m_session m) -> command_loop p fuel m = Some (Some (evs, s, f)) -> Forall P evs.
Proof.
  intros Hcount Hstep. revert m evs s f.
  induction fuel as [|fuel IH]; intros m evs s f HI; simpl.
  { destruct (m_lines m); [|done]. by intros [= <- _ _]. }
  destruct (m_lines m) as [|l rest]; [by intros [= <- _ _]|]. case_if; [by intros [= <- _ _]|].
  destruct (parse_command l) as [cmd|]; [simpl|done].
  destruct (on_command p _ cmd) as [[[evs1 m'] f1]|] eqn:Ec; [simpl|done].
  pose proof (fun HX => Hstep _ _ _ _ _ HX Ec) as Hs. destruct (Hs (Hcount _ HI)) as [HP HI'].
  destruct f1; [|by intros [= <- _ _]..].
  destruct (command_loop p fuel m') as [[[[evs2 ?] ?]|]|] eqn:El; simpl; intros [= <- _ _].
  apply Forall_app. split; [done|]. eapply IH; [by apply HI'|done].
Qed.

(** The pre-data phase never accepts outright. *)
Lemma run_pre_data_not_accept env w score cs w' :
  run_pre_data (px_pipeline p) env w <> ((Accept, (score, cs)), w').
Proof.
  intros (before & rest & cs' & w1 & _ & _ & _ & [(_ & [=] & _)|(c & r & o & k & _ & _ & Ho)])%run_pre_loop_spec.
  by destruct o.
Qed.
End LoopLemmas.

(** A property of the messages that are forwarded. *)
Definition on_forward (P : bytes -> list bytes -> bytes -> SpamReport -> Prop) (e : Event) : Prop :=
  match e with
  | Forward from rcpts data report _ => P from rcpts data report
  | Reply _ => True
  end.

Section MessageLemmas.
Context `{Unicode} {W : Type} (p : SmtpProxy W).

(** The message passed both phases of the pipeline and its verdict is not spam. *)
Definition screened (from : bytes) (rcpts : list bytes) (data : bytes) (report : SpamReport) : Prop :=
  exists env w w' score cs, client_ip env = peer_ip p /\ mail_from env = from /\ rcpt_to env = rcpts /\
    run_pre_data (px_pipeline p) env w = ((Continue, (score, cs)), w') /\
    run_post_data (px_pipeline p) (mkMessage env data) score cs default_auth = Some (Ok report) /\
    rep_verdict report <> Spam.

Lemma forward_events s report conns P :
  P (s_mail_from s) (s_rcpt_to s) (s_data s) report ->
  Forall (on_forward P) (forward p s report conns).1.
Proof. intros HP. unfold forward. destruct (forward_to_backend _ _ _ _ _). by repeat constructor. Qed.

Lemma evaluate_message_spec s w conns evs s' w' conns' :
  evaluate_message p s w conns = Some (evs, s', w', conns') ->
  (exists allowed, s' = reset_transaction HeloReceived allowed s /\
     (s_allowed s = false -> allowed = false)) /\
  Forall (on_forward (fun from rcpts data report =>
    from = s_mail_from s /\ rcpts = s_rcpt_to s /\ data = s_data s /\
    (s_allowed s = false -> screened from rcpts data report))) evs.
Proof.
  unfold evaluate_message.
  destruct (run_pre_data _ _ w) as [[d [score cs]] w1] eqn:Epre.
  destruct d; try (intros [= <- <- <- <-]; split; [by eauto|by repeat constructor]).
  2:{ by apply run_pre_data_not_accept in Epre. }
  destruct (s_allowed s) eqn:Ea.
  - destruct (forward p s clean_report conns) as [fe fc] eqn:Ef. intros [= <- <- <- <-].
    split; [by eauto|]. change fe with (fe, fc).1. rewrite <- Ef. by apply forward_events.
  - destruct (run_post_data _ _ _ _ _) as [rr|] eqn:Epost; [simpl|done].
    assert (Hs : forall report, rr = Ok report -> rep_verdict report <> Spam ->
      screened (s_mail_from s) (s_rcpt_to s) (s_data s) report).
    { intros report -> Hv. by exists (session_envelope p s), w, w1, score, cs. }
    destruct rr as [report|d].
    + destruct (rep_verdict report) eqn:Ev;
        try (intros [= <- <- <- <-]; split; [by eauto|by repeat constructor]);
        destruct (forward p s report conns) as [fe fc] eqn:Ef; intros [= <- <- <- <-];
        (split; [by eauto|]); change fe with (fe, fc).1; rewrite <- Ef; apply forward_events;
        (split_and!; [done..|]); intros _; apply Hs; congruence.
    + destruct d; intros [= <- <- <- <-]; (split; [by eauto|by repeat constructor]).
Qed.

(** Every command: what it does to the sender and the recipients, and where the
    forwarded messages come from. *)
Lemma on_command_spec m cmd evs m' f :
  on_command p m cmd = Some (evs, m', f) ->
  let s := m_session m in let s' := m_session m' in
  (f = Next ->
   (s_mail_from s' = s_mail_from s \/ s_mail_from s' = [] \/
    block_matches (px_block_list p) (peer_ip p) (s_mail_from s') = false) /\
   (s_rcpt_to s' = s_rcpt_to s \/ s_rcpt_to s' = [] \/
    exists r, s_rcpt_to s' = s_rcpt_to s ++ [r] /\ block_contains_recipient (px_block_list p) r = false) /\
   (s_allowed s' = true -> s_allowed s = true \/
    allow_matches (px_allow_list p) (peer_ip p) (s_mail_from s) = true)) /\
  Forall (on_forward (fun from rcpts data report =>
    from = s_mail_from s /\ rcpts = s_rcpt_to s /\
    (s_allowed s = false -> screened from rcpts data report))) evs.
Proof.
  intros Hc s s'. unfold s, s'.
  destruct cmd; simpl in Hc; unfold just in Hc; repeat case_if_in Hc;
    try (simplify_eq/=; (split; [intros; simplify_eq; naive_solver|by repeat constructor])).
  destruct (read_data _ _) as [[data rest]|]; [|simplify_eq/=; by (split; [done|repeat constructor])].
  destruct (evaluate_message p _ _ _) as [[[[evs' s1] w1] c1]|] eqn:Ee; simplify_eq/=.
  apply evaluate_message_spec in Ee as [(a & -> & Ha) Hf]. simpl in *. split.
  - intros _. split_and!; auto. intros ->. left.
    destruct (s_allowed (m_session m)); [done|]. discriminate (Ha eq_refl).
  - constructor; [done|]. eapply Forall_impl; [done|]. intros [r|from rcpts d rep wr]; simpl; naive_solver.
Qed.
End MessageLemmas.

(** The events of a session come from the command loop. *)
Lemma proxy_events `{Unicode} {W} (p : SmtpProxy W) (I : Session -> Prop) (P : Event -> Prop) input w conns evs s f :
  (forall s, I s -> I (count_command s)) ->
  (forall m cmd evs m' f, I (m_session m) -> on_command p m cmd = Some (evs, m', f) ->
     Forall P evs /\ (f = Next -> I (m_session m'))) ->
  (forall early, I (initial_session early)) -> (forall text, P (Reply text)) ->
  proxy p input w conns = Some (Some (evs, s, f)) -> Forall P evs.
Proof.
  intros Hcount Hstep Hinit HR. unfold proxy.
  destruct (greet input true) as [|early]; [by intros [= <- _ _]|].
  destruct (command_loop _ _ _) as [[[[evs' s'] f']|]|] eqn:El; simpl; intros [= <- _ _].
  constructor; [done|]. eapply (command_loop_events p I P); [done..| |exact El]. apply Hinit.
Qed.

(** Without allow-listed senders, only screened messages are forwarded. *)
Lemma screened_events `{Unicode} {W} (p : SmtpProxy W) input w conns evs s f :
  (forall sender, allow_matches (px_allow_list p) (peer_ip p) sender = false) ->
  proxy p input w conns = Some (Some (evs, s, f)) ->
  Forall (on_forward (screened p)) evs.
Proof.
  intros Hallow. apply (proxy_events p (fun s => s_allowed s = false)); try done.
  intros m cmd evs' m' f' HI Hc. destruct (on_command_spec p _ _ _ _ _ Hc) as [Hn Hf]. split.
  - eapply Forall_impl; [done|]. intros []; simpl; naive_solver.
  - intros Hnext. destruct (Hn Hnext) as (_ & _ & Ha).
    destruct (s_allowed (m_session m')); [|done]. destruct (Ha eq_refl); congruence.
Qed.

(** *** A backend that ends a message at the first lone dot *)

Definition terminator : bytes := CRLF ++ bs "." ++ CRLF.

(** A line of message text that needs no dot-stuffing. *)
Definition plain_line (l : bytes) : Prop :=
  utf8_valid l = true /\ starts_with l (bs ".") = false.

Lemma read_data_plain ls rest acc :
  Forall plain_line ls -> read_data (ls ++ rest) acc = read_data rest (acc ++ concat ls).
Proof.
  intros Hl. revert acc. induction Hl as [|l ls [Hu Hd] Hl IH]; intros acc; simpl.
  { by rewrite app_nil_r. }
  rewrite Hu. simpl.
  assert (Hno : forall t, l <> bs "." ++ t) by (intros t ->; by rewrite starts_with_app in Hd).
  rewrite (bool_decide_eq_false_2 _ (Hno CRLF)), (bool_decide_eq_false_2 _ (Hno [LF])). simpl.
  assert (Hdd : starts_with l (bs "..") = false).
  { destruct (starts_with l (bs "..")) eqn:E; [|done]. apply starts_with_true in E as [r ->].
    change (bs ".." ++ r) with (bs "." ++ bs "." ++ r) in Hd. by rewrite starts_with_app in Hd. }
  rewrite Hdd, IH. by rewrite app_assoc.
Qed.

(** ** Properties *)

(** C2: filtering: in a session whose client and senders the allow list never matches,
    every message that is forwarded to the backend passed the pre-data phase and got a
    report from the post-data phase whose verdict is not spam, for exactly the sender,
    the recipients and the data that are forwarded. *)
Theorem only_screened_forwarded `{Unicode} {W} (p : SmtpProxy W) input w conns evs s f :
  (forall sender, allow_matches (px_allow_list p) (peer_ip p) sender = false) ->
  proxy p input w conns = Some (Some (evs, s, f)) ->
  Forall (on_forward (screened p)) evs.
Proof. intros Hallow Hp. by eapply screened_events. Qed.

(** The block lists: no message is forwarded for a recipient on the block list, nor
    for a sender that, with the client's address, is on it, unless the sender is empty. *)
Theorem forwarded_not_blocked `{Unicode} {W} (p : SmtpProxy W) input w conns evs s f :
  proxy p input w conns = Some (Some (evs, s, f)) ->
  Forall (on_forward (fun from rcpts _ _ =>
    (from = [] \/ block_matches (px_block_list p) (peer_ip p) from = false) /\
    Forall (fun r => block_contains_recipient (px_block_list p) r = false) rcpts)) evs.
Proof.
  apply (proxy_events p (fun s =>
    (s_mail_from s = [] \/ block_matches (px_block_list p) (peer_ip p) (s_mail_from s) = false) /\
    Forall (fun r => block_contains_recipient (px_block_list p) r = false) (s_rcpt_to s)));
    try done; [|simpl; auto].
  intros m cmd evs' m' f' [HI1 HI2] Hc. destruct (on_command_spec p _ _ _ _ _ Hc) as [Hn Hf]. split.
  - eapply Forall_impl; [done|]. intros [|from rcpts d rep wr]; simpl; [done|]. by intros (-> & -> & _).
  - intros Hnext. destruct (Hn Hnext) as (Hfrom & Hrcpt & _). split.
    + destruct Hfrom as [-> | [->|Hb]]; auto.
    + destruct Hrcpt as [-> | [->|(r & -> & Hr)]]; [done|constructor|]. apply Forall_app. auto.
Qed.

(** The example proxy: the peer's address is on the block list, a sender domain is on
    the allow list, and a check gives every message a score that makes it spam. *)
Definition spam_pipeline : AntispamPipeline nat :=
  mkPipe (thresholds 30 70 []) []
    [mkPost (bs "spammy") (fun _ => Some (Hit f1 [], [example_contribution 50]))].
Definition example_proxy (blocked : list bytes) (allowed_domains : list bytes)
    (pipe : AntispamPipeline nat) : SmtpProxy nat :=
  mkProxy (bs "ab12cd") pipe (AllowList_from_config [] [] allowed_domains)
    (BlockList_from_config blocked [] [] []) (bs "mx") None (mkSmtpHeaders false false)
    (ipv4 192 0 2 1) 0 0 (bs "now").
Definition crlf_lines (ls : list string) : bytes := concat ((fun l => bs l ++ CRLF) <$> ls).
Definition forwards (evs : list Event) : list (bytes * bytes) :=
  filter_map (fun e => match e with Forward from _ data _ _ => Some (from, data) | _ => None end) evs.
Definition accepting : BackendConn :=
  Answers (Some <$> [bs "220 b" ++ CRLF; bs "250 b" ++ CRLF; bs "250 ok" ++ CRLF; bs "250 ok" ++ CRLF;
                     bs "354 go" ++ CRLF; bs "250 queued" ++ CRLF]).

Definition example_input : bytes :=
  crlf_lines ["EHLO a"; "MAIL FROM:<x@y.z>"; "RCPT TO:<b@c>"; "DATA"; "hi"; "."].

Lemma only_screened_forwarded_witness :
  let p := example_proxy [] [] quiet_pipeline in
  match proxy p example_input 0%nat [accepting] with
  | Some (Some (evs, _, _)) => forwards evs = [(bs "x@y.z", bs "hi" ++ CRLF)] /\
      Forall (on_forward (screened p)) evs
  | _ => False
  end.
Proof.
  intros p. destruct (proxy p example_input 0%nat [accepting]) as [[[[evs s] f]|]|] eqn:E.
  - split; [|apply (only_screened_forwarded p example_input 0%nat [accepting] evs s f); [|exact E]].
    + vm_compute in E. injection E as <- _ _. reflexivity.
    + intros sender. unfold allow_matches, allow_contains_domain. by destruct (address_domain sender).
  - vm_compute in E. discriminate.
  - vm_compute in E. discriminate.
Defined.

Lemma forwarded_not_blocked_witness :
  let p := example_proxy [bs "192.0.2.9"] [] quiet_pipeline in
  match proxy p example_input 0%nat [accepting] with
  | Some (Some (evs, _, _)) => Forall (on_forward (fun from rcpts _ _ =>
      (from = [] \/ block_matches (px_block_list p) (peer_ip p) from = false) /\
      Forall (fun r => block_contains_recipient (px_block_list p) r = false) rcpts)) evs
  | _ => False
  end.
Proof.
  intros p. destruct (proxy p example_input 0%nat [accepting]) as [[[[evs s] f]|]|] eqn:E.
  - apply (forwarded_not_blocked p example_input 0%nat [accepting] evs s f E).
  - vm_compute in E. discriminate.
  - vm_compute in E. discriminate.
Defined.

(** A blocked address gets through: a client whose address is on the block list,
    and who sends no MAIL command, has its message forwarded, with the empty sender,
    for which the block list matches too. *)
Theorem blocked_address_forwarded :
  let p := example_proxy [bs "192.0.2.1"] [] quiet_pipeline in
  let input := crlf_lines ["EHLO a"; "RCPT TO:<b@c>"; "DATA"; "hi"; "."] in
  block_matches (px_block_list p) (peer_ip p) [] = true /\
  exists evs s f, proxy p input 0%nat [accepting] = Some (Some (evs, s, f)) /\
    forwards evs = [([], bs "hi" ++ CRLF)].
Proof. split; [vm_compute; reflexivity|]. eexists _, _, _. split; vm_compute; reflexivity. Qed.

(** The allow-list flag outlives its message: after a message of an allow-listed
    sender, a second message, of another sender, that every check makes spam is
    forwarded; without the first message it is rejected. *)
Theorem allow_flag_outlives_message :
  let p := example_proxy [] [bs "trusted.example"] spam_pipeline in
  let second := ["MAIL FROM:<x@evil.example>"; "RCPT TO:<b@c>"; "DATA"; "buy"; "."] in
  let first := ["EHLO a"; "MAIL FROM:<t@trusted.example>"; "RCPT TO:<b@c>"; "DATA"; "hi"; "."] in
  (exists evs s f, proxy p (crlf_lines (first ++ second)) 0%nat [accepting; accepting] =
     Some (Some (evs, s, f)) /\
     forwards evs = [(bs "t@trusted.example", bs "hi" ++ CRLF); (bs "x@evil.example", bs "buy" ++ CRLF)]) /\
  (exists evs s f, proxy p (crlf_lines ("EHLO a" :: second)) 0%nat [accepting; accepting] =
     Some (Some (evs, s, f)) /\ forwards evs = []).
Proof. split; eexists _, _, _; (split; vm_compute; reflexivity). Qed.

(** Switching the filter off stops the mail: the pipeline built when the filter is
    disabled has thresholds of zero, so every message of a sender that is not on the
    allow list counts as spam, and none is forwarded. *)
Theorem disabled_filter_forwards_nothing `{Unicode} {W} (p : SmtpProxy W) input w conns evs s f :
  px_pipeline p = AntispamPipeline_empty ->
  (forall sender, allow_matches (px_allow_list p) (peer_ip p) sender = false) ->
  proxy p input w conns = Some (Some (evs, s, f)) -> forwards evs = [].
Proof.
  intros He Hallow Hp. apply (screened_events p) in Hp; [|done]. clear -He Hp.
  induction Hp as [|e evs HP Hp IH]; [done|]. destruct e as [|from rcpts data rep wr]; [done|].
  destruct HP as (env & w1 & w2 & score & cs & _ & _ & _ & Hpre & Hpost & Hv).
  rewrite He in Hpre, Hpost. injection Hpre as <- <- <-. unfold run_post_data in Hpost.
  simpl in Hpost. injection Hpost as <-. by destruct Hv.
Qed.

Lemma disabled_filter_forwards_nothing_witness :
  let p := example_proxy [] [] AntispamPipeline_empty in
  match proxy p example_input 0%nat [accepting] with
  | Some (Some (evs, _, _)) => forwards evs = []
  | _ => False
  end.
Proof.
  intros p. destruct (proxy p example_input 0%nat [accepting]) as [[[[evs s] f]|]|] eqn:E.
  - apply (disabled_filter_forwards_nothing p example_input 0%nat [accepting] evs s f); [reflexivity| |exact E].
    intros sender. unfold allow_matches, allow_contains_domain. by destruct (address_domain sender).
  - vm_compute in E. discriminate.
  - vm_compute in E. discriminate.
Defined.

(** Smuggling: message text that contains a doubled dot on a line of its own reaches
    the backend with a bare terminator in it: whatever the lines before, the doubled dot
    comes out as the end of the message, and the lines behind it as what a backend reads
    as the next commands. *)
Theorem stuffed_dot_ends_message {W} (p : SmtpProxy W) before last after report :
  Forall plain_line (before ++ [last ++ CRLF] ++ after) ->
  exists data,
    read_data (before ++ [last ++ CRLF] ++ [bs ".." ++ CRLF] ++ after ++ [bs "." ++ CRLF]) [] = Ok (data, []) /\
    exists headers, data_phase p report data =
      headers ++ concat before ++ last ++ terminator ++ concat after ++ terminator.
Proof.
  intros Hp. rewrite !Forall_app in Hp. destruct Hp as (Hb & Hl & Ha).
  eexists. split.
  - rewrite (read_data_plain before) by done. rewrite (read_data_plain [last ++ CRLF]) by done.
    change ([bs ".." ++ CRLF] ++ after ++ [bs "." ++ CRLF])
      with ((bs ".." ++ CRLF) :: after ++ [bs "." ++ CRLF]).
    cbn [read_data]. simpl negb. simpl bool_decide. cbv iota.
    change (starts_with (bs ".." ++ CRLF) (bs "..")) with true. cbv iota.
    rewrite (read_data_plain after) by done. reflexivity.
  - unfold data_phase, terminator. eexists (concat (_ <$> injected_headers p report)).
    rewrite app_nil_l. simpl concat. rewrite !app_nil_r, <- !app_assoc. reflexivity.
Qed.

Lemma stuffed_dot_ends_message_witness :
  let p := example_proxy [] [] quiet_pipeline in
  exists data,
    read_data ([] ++ [bs "hello" ++ CRLF] ++ [bs ".." ++ CRLF] ++ [bs "MAIL FROM:<admin@c>" ++ CRLF] ++
      [bs "." ++ CRLF]) [] = Ok (data, []) /\
    exists headers, data_phase p clean_report data =
      headers ++ concat [] ++ bs "hello" ++ terminator ++
      concat [bs "MAIL FROM:<admin@c>" ++ CRLF] ++ terminator.
Proof.
  intros p.
  assert (Hp : Forall plain_line ([] ++ [bs "hello" ++ CRLF] ++ [bs "MAIL FROM:<admin@c>" ++ CRLF])).
  { repeat apply Forall_cons_2; [split; vm_compute; reflexivity..|constructor]. }
  exact (stuffed_dot_ends_message p [] (bs "hello") [bs "MAIL FROM:<admin@c>" ++ CRLF] clean_report Hp).
Defined.

(** *** The forwarding conversation *)

Lemma writes_read_ehlo : writes read_ehlo [].
Proof.
  intros c Hc. induction Hc as [|[l|] c [x Hx] Hc IH]; [by exists tt, []| |done].
  simpl. case_if; [by exists tt, c|done].
Qed.

Lemma writes_send_rcpts rcpts : writes (send_rcpts rcpts) (concat ((fun r => wire (WRcptTo r)) <$> rcpts)).
Proof.
  induction rcpts as [|r rcpts IH]; [apply writes_ret|].
  apply (writes_bind (send _)); [apply writes_send|]. intros _.
  apply (writes_bind (recv tt) _ []); [apply writes_recv|done].
Qed.

(** The responses of the backend decide nothing: whatever lines it answers, refusals
    of the sender or of every recipient included, the proxy writes the same complete
    conversation, message and QUIT included, and reports success. *)
Theorem forward_ignores_responses {W} (p : SmtpProxy W) reads data from rcpts report :
  readable reads ->
  exists resp, forward_to_backend p (Answers reads) data from rcpts report =
    (wire (WEhlo (px_hostname p)) ++ wire (WMailFrom from) ++
     concat ((fun r => wire (WRcptTo r)) <$> rcpts) ++ wire WData ++
     data_phase p report data ++ wire WQuit, Ok resp).
Proof.
  intros Hr.
  assert (Hw : writes (forward_conversation p data from rcpts report)
    ([] ++ wire (WEhlo (px_hostname p)) ++ [] ++ wire (WMailFrom from) ++ [] ++
     concat ((fun r => wire (WRcptTo r)) <$> rcpts) ++ wire WData ++ [] ++
     data_phase p report data ++ [] ++ wire WQuit ++ [])).
  { unfold forward_conversation.
    repeat (apply writes_bind; [first [apply writes_recv|apply writes_send|apply writes_read_ehlo|
      apply writes_send_rcpts]|intros]). apply writes_ret. }
  destruct (Hw reads Hr) as (resp & c' & E & _). exists resp.
  unfold forward_to_backend. by rewrite E.
Qed.

Lemma forward_ignores_responses_witness :
  let p := example_proxy [] [] quiet_pipeline in
  exists resp, forward_to_backend p
      (Answers (Some <$> [bs "220 b" ++ CRLF; bs "250 b" ++ CRLF; bs "550 no" ++ CRLF; bs "550 no" ++ CRLF;
                          bs "554 no" ++ CRLF; bs "500 what" ++ CRLF])) (bs "hi") (bs "a@b") [bs "c@d"] clean_report =
    (wire (WEhlo (bs "mx")) ++ wire (WMailFrom (bs "a@b")) ++
     concat ((fun r => wire (WRcptTo r)) <$> [bs "c@d"]) ++ wire WData ++
     data_phase p clean_report (bs "hi") ++ wire WQuit, Ok resp).
Proof.
  intros p. apply (forward_ignores_responses p). repeat constructor; by eexists.
Defined.

(** *** Termination *)

Lemma split_inclusive_lf_ascii s : is_ascii s -> Forall is_ascii (split_inclusive_lf s).
Proof.
  intros Hs. rewrite <- (split_inclusive_lf_concat s) in Hs.
  induction (split_inclusive_lf s) as [|l ls IH]; [constructor|]. simpl in Hs.
  apply is_ascii_app in Hs as [? ?]. auto.
Qed.

Section Returns.
Context `{Unicode} {W : Type} (p : SmtpProxy W).
Hypothesis checks_return :
  forall c ctx, c ∈ post_data_checks (px_pipeline p) -> is_Some (post_check c ctx).

Lemma run_post_data_returns msg score cs : is_Some (run_post_data (px_pipeline p) msg score cs default_auth).
Proof.
  unfold run_post_data.
  assert (Hm : is_Some (mapM (fun c => post_check c msg) (post_data_checks (px_pipeline p)))).
  { apply mapM_is_Some_2, Forall_forall. intros c Hc. by apply checks_return. }
  destruct Hm as [results ->]. simpl. destruct (aggregate _ _) as [[s c]|d]; by eexists.
Qed.

Lemma on_command_returns m cmd : is_Some (on_command p m cmd).
Proof.
  destruct cmd; simpl; unfold just; repeat case_if; try (by eexists).
  destruct (read_data _ _) as [[data rest]|]; [|by eexists].
  assert (He : forall s w conns, is_Some (evaluate_message p s w conns)).
  { intros s w conns. unfold evaluate_message.
    destruct (run_pre_data _ _ w) as [[d [score cs]] w1].
    destruct (run_post_data_returns (mkMessage (session_envelope p s) (s_data s)) score cs) as [rr Hrr].
    destruct d; try (by eexists); rewrite Hrr; simpl; repeat case_match; by eexists. }
  destruct (He (set_data data (set_state StData (m_session m))) (m_world m) (m_conns m)) as [[[[? ?] ?] ?] ->].
  by eexists.
Qed.

Lemma command_loop_returns fuel m :
  Forall is_ascii (m_lines m) -> is_Some (command_loop p fuel m).
Proof.
  revert m. induction fuel as [|fuel IH]; intros m Ha; simpl.
  { destruct (m_lines m); by eexists. }
  destruct Ha as [|l rest Hl Hrest]; [by eexists|]. case_if; [by eexists|].
  destruct (parse_command_ascii_total l Hl) as [cmd ->]. simpl.
  destruct (on_command_returns (mkMachine (count_command (m_session m)) (m_world m) (m_conns m) rest) cmd)
    as [[[evs m'] f] Ec]. rewrite Ec. simpl. destruct f; try (by eexists).
  assert (Hm' : Forall is_ascii (m_lines m')).
  { apply (on_command_suffix p) in Ec as [k ->]. by apply Forall_drop. }
  destruct (IH m' Hm') as [r ->]. by eexists.
Qed.
End Returns.


