(* ===== verification/AntispamBuild.v ===== *)
(** * The filter from its configuration: [serverwall-proxy/src/server.rs]

    [build_antispam_pipeline] turns the anti-spam configuration into the checks
    of [AntispamPre] and [AntispamPost], in the order in which they run; the
    allow and block lists and the override by a security profile are built
    beside it.  The theorems follow a configured check through the pipeline and
    the session of [SmtpProxy]. *)

From S2P Require Import Prelude RustStr Schema Net External Float64 SmtpProto Antispam AntispamPre AntispamPost SmtpProxy.
Open Scope Z_scope.

(** [Duration::from_secs] of a number and a unit; the product wraps at 64 bits. *)
Definition parse_smtp_duration (s : bytes) : Z :=
  let s := trim s in
  let try (unit : bytes) (factor : Z) (k : Z) : Z :=
    match strip_suffix s unit ≫= parse_uint 64 10 with
    | Some n => (n * factor) mod 2 ^ 64 * 1000000000
    | None => k
    end in
  try (bs "s") 1 (try (bs "m") 60 (try (bs "h") 3600 (try (bs "d") 86400 (3600 * 1000000000)))).

Example parse_smtp_duration_values :
  parse_smtp_duration (bs " 90s ") = 90000000000 /\ parse_smtp_duration (bs "2h") = 7200000000000 /\
  parse_smtp_duration (bs "x") = 3600000000000.
Proof. vm_compute. done. Qed.

Section Build.
Context `{RegexFind} `{Resolver} `{MailAuth} `{MailParser} `{LolHtml} `{AvHost}.
Context `{Unicode} `{UnicodeClasses} (debug_set : list bytes -> bytes).

(** A check that is pushed when its configuration enables it; the inner [None] is the
    panic of a constructor. *)
Definition enable {A} (b : bool) (c : option A) : option (list A) :=
  if b then (fun x => [x]) <$> c else Some [].

Definition total_check (name : bytes) (f : MessageContext -> scored) : PostDataCheck :=
  mkPost name (fun ctx => Some (f ctx)).

Definition build_zone (l : DnsblListEntry) : DnsblZone :=
  mkZone (dl_zone l) (dl_weight_multiplier l) (dl_reject_on_hit l).
Definition build_severity (s : SpfSeverityConfig) : SpfSeverity :=
  mkSpfSeverity (sv_fail s) (sv_softfail s) (sv_neutral s) (sv_none s).

Definition build_pre (c : AntispamConfig) : option (list (PreDataCheck World)) :=
  dnsbl ← enable (dn_enabled (fc_dnsbl c) && negb (is_nil (dn_lists (fc_dnsbl c))))
    (Some (pure_check (bs "dnsbl") (dnsbl_check (mkDnsbl (build_zone <$> dn_lists (fc_dnsbl c)) (dn_weight (fc_dnsbl c))))));
  spf ← enable (sf_enabled (fc_spf c))
    (Some (pure_check (bs "spf") (spf_check (mkSpf (sf_weight (fc_spf c)) (build_severity (sf_severity (fc_spf c)))))));
  rdns ← enable (cw_enabled (fc_rdns c))
    ((fun k => pure_check (bs "rdns") (rdns_check k)) <$> ReverseDnsCheck_new (cw_weight (fc_rdns c)));
  let r := fc_residential_spf c in
  residential ← enable (rs_enabled r)
    ((fun k => pure_check (bs "residential_spf") (residential_check k)) <$>
       ResidentialSenderCheck_new (rs_weight r) (rs_reject r) (rs_check_pbl r) (rs_pbl_zone r)
         (rs_softfail_triggers r) (rs_neutral_triggers r));
  helo ← enable (cw_enabled (fc_helo c))
    ((fun k => pure_check (bs "helo") (helo_check k)) <$> HeloCheck_new (cw_weight (fc_helo c)));
  let l := fc_rate_limit c in
  rate ← enable (rl_enabled l)
    (Some (mkPre (bs "rate_limit") (rate_limit_check
       (mkSmtpRate (rl_weight l) (rr_max (rl_per_ip l)) (rr_max (rl_per_domain l)) (rr_max (rl_per_sender l))
          (parse_smtp_duration (rr_window (rl_per_ip l)))))));
  early ← enable (cw_enabled (fc_early_talker c))
    (Some (pure_check (bs "early_talker") (early_talker_check (cw_weight (fc_early_talker c)))));
  Some (dnsbl ++ spf ++ rdns ++ residential ++ helo ++ rate ++ early ++
        [mkPre (bs "behavior") (behavior_check (f_lit 5 10))]).

Definition build_scanner (s : ScannerConfig) : ScannerDef :=
  mkScanner (sn_name s) (sn_command s) (sn_clean_exit_codes s) (sn_virus_exit_codes s)
    (sn_virus_name_pattern s ≫= regex_new).

Definition build_post (c : AntispamConfig) : option (list PostDataCheck) :=
  dkim ← enable (cw_enabled (fc_dkim c)) (Some (total_check (bs "dkim") (dkim_check (cw_weight (fc_dkim c)))));
  dmarc ← enable (dm_enabled (fc_dmarc c))
    (Some (total_check (bs "dmarc") (dmarc_check (mkDmarc (dm_weight (fc_dmarc c)) (dm_honor_reject_policy (fc_dmarc c))))));
  content ← enable (ct_enabled (fc_content c))
    ((fun k => total_check (bs "content") (content_check k)) <$> ContentCheck_new (ct_weight (fc_content c)));
  url ← enable (ua_enabled (fc_url_analysis c))
    ((fun k => total_check (bs "url_analysis") (url_check k)) <$>
       UrlAnalysisCheck_new (ua_weight (fc_url_analysis c)) (ua_surbl_zones (fc_url_analysis c)));
  attachment ← enable (ac_enabled (fc_attachment c))
    ((fun k => total_check (bs "attachment") (attachment_check k)) <$>
       AttachmentCheck_new (ac_weight (fc_attachment c)) (ac_dangerous_extensions (fc_attachment c)));
  html ← enable (cw_enabled (fc_html c)) (Some (mkPost (bs "html") (html_check (cw_weight (fc_html c)))));
  header ← enable (cw_enabled (fc_header_analysis c))
    ((fun k => total_check (bs "header_analysis") (header_check k)) <$>
       HeaderAnalysisCheck_new (cw_weight (fc_header_analysis c)));
  charset ← enable (cw_enabled (fc_charset c))
    ((fun k => total_check (bs "charset") (charset_check debug_set k)) <$> CharsetCheck_new (cw_weight (fc_charset c)));
  bulk ← enable (cw_enabled (fc_bulk c)) (Some (total_check (bs "bulk") (bulk_check (cw_weight (fc_bulk c)))));
  ratio ← enable (cw_enabled (fc_ratio c))
    ((fun k => total_check (bs "ratio") (ratio_check k)) <$> RatioAnalysisCheck_new (cw_weight (fc_ratio c)));
  let a := fc_antivirus c in
  antivirus ← enable (av_enabled a && negb (is_nil (av_scanners a)))
    (Some (total_check (bs "antivirus") (antivirus_check
       (mkAv (av_cfg_weight a) (av_reject_on_virus a) (build_scanner <$> av_scanners a)))));
  Some (dkim ++ [total_check (bs "arc") (arc_check (f_lit 5 10))] ++ dmarc ++ content ++ url ++ attachment ++
        html ++ header ++ charset ++ bulk ++ ratio ++ antivirus).

Definition build_antispam_pipeline (c : AntispamConfig) : option (AntispamPipeline World) :=
  if negb (fc_enabled c) then Some AntispamPipeline_empty
  else pre ← build_pre c; post ← build_post c; Some (mkPipe c pre post).

Definition build_allow_list (c : AntispamConfig) : AllowList :=
  AllowList_from_config (li_ips (fc_allow c)) (li_senders (fc_allow c)) (li_sender_domains (fc_allow c)).
Definition build_block_list (c : AntispamConfig) : BlockList :=
  BlockList_from_config (li_ips (fc_block c)) (li_senders (fc_block c)) (li_sender_domains (fc_block c))
    (li_recipients (fc_block c)).
End Build.

(** ** Security profiles *)

Definition apply_profile (g : AntispamConfig) (pa : SecurityProfileAntispam) : AntispamConfig :=
  upd_fc_enabled (fun _ => sp_enabled pa)
    (upd_possible_spam_threshold (fun t => default t (sp_possible_spam_threshold pa))
      (upd_definite_spam_threshold (fun t => default t (sp_definite_spam_threshold pa))
        (upd_fc_antivirus (fun _ => sp_antivirus pa) g))).

Definition resolve_antispam_for_profile (g : AntispamConfig) (profile_name : option bytes)
    (profiles : list SecurityProfile) : AntispamConfig :=
  match profile_name with
  | Some pname =>
      match List.find (fun p => bool_decide (sp_name p = pname)) profiles with
      | Some p => match sp_antispam p with Some pa => apply_profile g pa | None => g end
      | None => g
      end
  | None => g
  end.

(** ** Lemmas *)

(** A message is not forwarded when the pre-data phase rejects every envelope of the
    client. *)
Lemma rejected_not_forwarded `{Unicode} {W} (p : SmtpProxy W) s w conns evs s' w' conns' :
  (forall env w, client_ip env = peer_ip p ->
     exists code reason t w', run_pre_data (px_pipeline p) env w = ((PipeReject code reason, t), w')) ->
  evaluate_message p s w conns = Some (evs, s', w', conns') -> forwards evs = [].
Proof.
  intros Hr. unfold evaluate_message.
  destruct (Hr (session_envelope p s) w eq_refl) as (code & reason & [score cs] & w1 & ->).
  by intros [= <- <- <- <-].
Qed.

Lemma forwards_app a b : forwards (a ++ b) = forwards a ++ forwards b.
Proof.
  unfold forwards. induction a as [|e a IH]; simpl; [done|]. destruct e; simpl; by rewrite ?IH.
Qed.

Lemma forwards_nil evs : Forall (on_forward (fun _ _ _ _ => False)) evs -> forwards evs = [].
Proof. induction 1 as [|[] evs HP _ IH]; [done|exact IH|done]. Qed.

Lemma nil_forwards evs : forwards evs = [] -> Forall (on_forward (fun _ _ _ _ => False)) evs.
Proof. induction evs as [|[] evs IH]; [constructor|constructor; [done|by apply IH]|done]. Qed.

Lemma session_rejects `{Unicode} {W} (p : SmtpProxy W) input w conns evs s f :
  (forall env w, client_ip env = peer_ip p ->
     exists code reason t w', run_pre_data (px_pipeline p) env w = ((PipeReject code reason, t), w')) ->
  proxy p input w conns = Some (Some (evs, s, f)) -> forwards evs = [].
Proof.
  intros Hr Hp. apply forwards_nil. revert Hp.
  apply (proxy_events p (fun _ => True)); try done.
  intros m cmd evs' m' f' _ Hc. split; [|done]. apply nil_forwards.
  apply on_command_cases in Hc as [[_ (go & -> & Hg)]|[(_ & go & data & rest & evs2 & w2 & -> & Hg & _ & He & _)|(_ & [r ->] & _)]].
  - destruct go; [done|]. by destruct (Hg from rcpts data report wire).
  - destruct go as [|from rcpts d rep wr]; [|by destruct (Hg from rcpts d rep wr)].
    by apply (rejected_not_forwarded p) in He.
  - done.
Qed.

Section EndToEnd.
Context `{RegexFind} `{Resolver} `{MailAuth} `{MailParser} `{LolHtml} `{AvHost}.
Context `{Unicode} `{UnicodeClasses} (debug_set : list bytes -> bytes).

(** The block list check comes first. *)
Lemma build_pre_dnsbl c pre :
  build_pre c = Some pre -> dn_enabled (fc_dnsbl c) = true -> dn_lists (fc_dnsbl c) <> [] ->
  exists rest, pre = pure_check (bs "dnsbl")
    (dnsbl_check (mkDnsbl (build_zone <$> dn_lists (fc_dnsbl c)) (dn_weight (fc_dnsbl c)))) :: rest.
Proof.
  intros Hb He Hl. unfold build_pre in Hb. rewrite He, (proj2 (is_nil_false _) Hl) in Hb. simpl in Hb.
  repeat match type of Hb with
  | mbind _ ?o = Some _ => destruct o; [simpl in Hb|done]
  end. injection Hb as <-. by eexists.
Qed.

Lemma dnsbl_rejects c ctx a z :
  client_ip ctx = V4 a -> z ∈ zones c -> reject_on_hit z = true ->
  listed_in (reverse_octets a) z = true ->
  exists reason k, dnsbl_check c ctx = (Reject reason, k).
Proof.
  intros Hip Hz Hr Hl. unfold dnsbl_check. rewrite Hip. simpl.
  rewrite dnsbl_tally_verdict. unfold dnsbl_verdict.
  destruct (List.find reject_on_hit _) as [z'|] eqn:Ef; [by eauto|].
  assert (Hf : reject_on_hit z = false); [|congruence].
  apply (List.find_none _ _ Ef). apply List.filter_In. split; [by apply list_elem_of_In|done].
Qed.
End EndToEnd.

(** ** Properties *)

(** A listed client delivers nothing: when the filter is enabled with a block list
    zone that rejects on a hit, and that zone lists the client's IPv4 address, no
    message of the whole session is forwarded, whatever the client sends and whatever
    the allow list says. *)
Theorem listed_client_delivers_nothing `{RegexFind} `{Resolver} `{MailAuth} `{MailParser} `{LolHtml}
    `{AvHost} `{Unicode} `{UnicodeClasses} debug_set c pipe (p : SmtpProxy World) a z input w conns evs s f :
  build_antispam_pipeline debug_set c = Some pipe -> fc_enabled c = true ->
  dn_enabled (fc_dnsbl c) = true -> z ∈ dn_lists (fc_dnsbl c) -> dl_reject_on_hit z = true ->
  px_pipeline p = pipe -> peer_ip p = V4 a -> listed_in (reverse_octets a) (build_zone z) = true ->
  proxy p input w conns = Some (Some (evs, s, f)) -> forwards evs = [].
Proof.
  intros Hb He Hd Hz Hr Hpipe Hip Hl. apply session_rejects. intros env w' Henv.
  unfold build_antispam_pipeline in Hb. rewrite He in Hb. simpl in Hb.
  destruct (build_pre c) as [pre|] eqn:Epre; [simpl in Hb|done].
  destruct (build_post debug_set c) as [post|]; [simpl in Hb|done]. injection Hb as <-.
  destruct (build_pre_dnsbl c pre Epre Hd) as [rest ->]; [by intros E; rewrite E in Hz; apply elem_of_nil in Hz|].
  rewrite Hpipe. unfold run_pre_data. simpl.
  destruct (dnsbl_rejects (mkDnsbl (build_zone <$> dn_lists (fc_dnsbl c)) (dn_weight (fc_dnsbl c))) env a
    (build_zone z)) as (reason & k & E); [congruence|by apply list_elem_of_fmap_2|done|done|]. rewrite E. by eexists _, _, _, _.
Qed.

(** Libraries that know nothing, for the example. *)
Definition no_spf : SpfLib := {| verify_spf_sender _ _ _ _ := SpfNone |}.
Definition no_auth : @MailAuth no_spf := {|
  AuthenticatedMessage := bytes; parse_authenticated _ := None; verify_dkim _ := [];
  verify_arc _ := DkimNone; verify_dmarc _ _ _ _ := (DmarcNone, PolicyNone) |}.
Definition no_mime : MailParser := {| parse_mime _ := None |}.
Definition no_html : LolHtml := {| html_elements _ := [] |}.
Definition no_scanner : AvHost := {|
  temp_file := Err []; write_temp _ _ := Err []; run_program _ _ := Err [] |}.

Definition dnsbl_only : AntispamConfig :=
  let off := mkWeight false f0 in
  let rule := mkRateRule 1 (bs "1h") in
  let nobody := AntispamListConfig_default in
  mkAntispamConfig true 40 80 default_check_duration nobody nobody
    (mkDnsblConfig true f1 default_dnsbl_timeout [mkDnsblEntry (bs "bl.example") f1 true])
    (mkSpfConfig false f0 SpfSeverityConfig_default)
    off (mkResidentialConfig false false f0 false [] false false) off
    (mkSmtpRateConfig false f0 rule rule rule) off off (mkDmarcConfig false f0 false)
    (mkContentConfig false f0 None) (mkUrlConfig false f0 []) (mkAttachConfig false f0 []) off off off off off
    AntivirusConfig_default [].

Definition listing_resolver : Resolver := zone_resolver [(bs "1.2.0.192.bl.example", LOCALHOST)].

Definition dnsbl_only_pipeline : AntispamPipeline World :=
  default AntispamPipeline_empty
    (@build_antispam_pipeline literal_regex literal_find listing_resolver no_spf no_auth no_mime no_html
       no_scanner caseless ascii_classes (fun _ => []) dnsbl_only).

Lemma listed_client_delivers_nothing_witness :
  let p := mkProxy [] dnsbl_only_pipeline (AllowList_from_config [bs "192.0.2.1"] [] [])
             (BlockList_from_config [] [] [] []) (bs "mx") None (mkSmtpHeaders true true)
             (ipv4 192 0 2 1) 0 0 [] in
  match proxy p example_input (mkWorld 0 ∅ ∅ ∅) [accepting] with
  | Some (Some (evs, _, _)) => forwards evs = []
  | _ => False
  end.
Proof.
  intros p. destruct (proxy p example_input (mkWorld 0 ∅ ∅ ∅) [accepting]) as [[[[evs s] f]|]|] eqn:E.
  - apply (@listed_client_delivers_nothing literal_regex literal_find listing_resolver no_spf no_auth no_mime
      no_html no_scanner caseless ascii_classes (fun _ => []) dnsbl_only dnsbl_only_pipeline p (((192 * 256 + 0) * 256 + 2) * 256 + 1)
      (mkDnsblEntry (bs "bl.example") f1 true) example_input (mkWorld 0 ∅ ∅ ∅) [accepting] evs s f);
      try reflexivity.
    + apply list_elem_of_here.
    + exact E.
  - vm_compute in E. discriminate.
  - vm_compute in E. discriminate.
Defined.
