(* ===== verification/RelayPolicy.v ===== *)
(** * Who may send through the relay, and what: [serverwall-relay/src]

    [trusted_hosts.rs], the checks of [outbound_policy/] and the key store and
    signer of [dkim/]. *)

From S2P Require Import Prelude RustStr Schema Net External.
Open Scope Z_scope.

(** ** Trusted hosts ([trusted_hosts.rs]) *)

Section Trusted.
Context `{IpNetworkLib}.

Record TrustedHosts := mkTrusted {
  t_networks : list IpNetwork;
  single_ips : list IpAddr;
  require_tls : bool;
}.

Definition parse_entry (t : TrustedHosts) (entry : bytes) : TrustedHosts :=
  let trimmed := trim entry in
  match net_parse trimmed with
  | Ok network => mkTrusted (t_networks t ++ [network]) (single_ips t) (require_tls t)
  | Err _ =>
      match parse_ip trimmed with
      | Some ip => mkTrusted (t_networks t) (single_ips t ++ [ip]) (require_tls t)
      | None => t
      end
  end.

Definition TrustedHosts_new (config : TrustedHostsConfig) : TrustedHosts :=
  fold_left parse_entry (th_hosts config) (mkTrusted [] [] (th_require_tls config)).

Definition is_trusted (t : TrustedHosts) (ip : IpAddr) : bool :=
  bool_decide (ip ∈ single_ips t) || existsb (fun network => net_contains network ip) (t_networks t).
End Trusted.

(** ** Outbound policy ([outbound_policy/]) *)

Record OutboundContentPolicy := mkContentPolicy {
  dangerous_extensions : list bytes;
  check_urls : bool;
  max_message_size : Z;
}.

Definition OutboundContentPolicy_new (config : OutboundPolicyConfig) : OutboundContentPolicy :=
  mkContentPolicy
    (if op_block_dangerous_attachments config then
       [bs "exe"; bs "scr"; bs "bat"; bs "cmd"; bs "ps1"; bs "vbs"; bs "js"; bs "msi"; bs "dll"; bs "hta";
        bs "pif"; bs "com"; bs "cpl"; bs "wsf"; bs "wsh"]
     else [])
    (op_check_urls config) (op_max_message_size config).

Definition suspicious_patterns : list bytes :=
  [bs "data:text/html"; bs "javascript:"; bs ".tk/"; bs ".ml/"; bs "bit.ly/"].

Section Policy.
Context `{Unicode}.

(** The first extension found on a line that names a file. *)
Definition dangerous_on_line (exts : list bytes) (line : bytes) : option bytes :=
  let lower := to_lowercase line in
  if contains lower (bs "filename=") || contains lower (bs "name=")
  then List.find (fun ext => contains lower (bs "." ++ ext)) exts
  else None.

Definition content_policy_check (c : OutboundContentPolicy) (message : bytes) : result unit bytes :=
  if max_message_size c <? Z.of_nat (length message) then
    Err (bs "message size " ++ show (Z.of_nat (length message)) ++ bs " exceeds limit " ++
         show (max_message_size c))
  else
    let msg_str := from_utf8_lossy message in
    match head (filter_map (dangerous_on_line (dangerous_extensions c)) (lines msg_str)) with
    | Some ext => Err (bs "dangerous attachment type blocked: ." ++ ext)
    | None =>
        match (if check_urls c then List.find (contains msg_str) suspicious_patterns else None) with
        | Some pattern => Err (bs "suspicious URL pattern detected: " ++ pattern)
        | None => Ok tt
        end
    end.

(** The hourly limit of a sender domain; instants are nanoseconds. *)
Record OutboundRateLimit := mkRateLimit {
  max_per_hour : Z;
  counters : gmap (list Z) (list Z);
}.

Definition OutboundRateLimit_new (max : Z) : OutboundRateLimit := mkRateLimit max ∅.

Definition HOUR : Z := 3600 * 1000000000.

Definition rate_limit_check (now : Z) (r : OutboundRateLimit) (sender_domain : bytes)
  : result unit bytes * OutboundRateLimit :=
  let key := to_lowercase sender_domain in
  let entries := List.filter (fun ts => now - HOUR <? ts) (default [] (counters r !! key)) in
  let n := Z.of_nat (length entries) in
  if max_per_hour r <=? n then
    (Err (bs "rate limit exceeded for domain " ++ sender_domain ++ bs ": " ++ show n ++ bs "/" ++
          show (max_per_hour r) ++ bs " per hour"),
     mkRateLimit (max_per_hour r) (<[key := entries]> (counters r)))
  else (Ok tt, mkRateLimit (max_per_hour r) (<[key := entries ++ [now]]> (counters r))).

Definition recipient_limit_check (max_recipients recipient_count : Z) : result unit bytes :=
  if max_recipients <? recipient_count then
    Err (bs "too many recipients: " ++ show recipient_count ++ bs " exceeds limit of " ++ show max_recipients)
  else Ok tt.

Definition SpfAlignmentCheck_new (allowed : list bytes) : list bytes := to_lowercase <$> allowed.

Definition spf_alignment_check (allowed_domains : list bytes) (sender_domain : bytes) : result unit bytes :=
  if is_nil allowed_domains then Ok tt
  else if bool_decide (to_lowercase sender_domain ∈ allowed_domains) then Ok tt
  else Err (bs "sender domain '" ++ sender_domain ++ bs "' is not in allowed_sender_domains").

Record OutboundPolicyChecker := mkPolicy {
  rate_limit : OutboundRateLimit;
  content_policy : OutboundContentPolicy;
  spf_alignment : list bytes;
  recipient_limit : Z;
}.

Definition set_rate_limit (r : OutboundRateLimit) (p : OutboundPolicyChecker) : OutboundPolicyChecker :=
  mkPolicy r (content_policy p) (spf_alignment p) (recipient_limit p).

(** The four checks in order, the first violation ends them. *)
Definition policy_check (now : Z) (p : OutboundPolicyChecker) (sender_domain : bytes) (recipient_count : Z)
    (message : bytes) : result unit bytes * OutboundPolicyChecker :=
  match spf_alignment_check (spf_alignment p) sender_domain with
  | Err e => (Err e, p)
  | Ok _ =>
      match recipient_limit_check (recipient_limit p) recipient_count with
      | Err e => (Err e, p)
      | Ok _ =>
          let '(r, rl) := rate_limit_check now (rate_limit p) sender_domain in
          let p := set_rate_limit rl p in
          match r with
          | Err e => (Err e, p)
          | Ok _ => (content_policy_check (content_policy p) message, p)
          end
      end
  end.

(** The checker [build_relay] makes of the configuration. *)
Definition build_policy (config : OutboundPolicyConfig) : OutboundPolicyChecker :=
  mkPolicy (OutboundRateLimit_new (op_max_messages_per_domain_per_hour config))
    (OutboundContentPolicy_new config) (SpfAlignmentCheck_new (op_allowed_sender_domains config))
    (op_max_recipients_per_message config).
End Policy.

(** ** DKIM ([dkim/]) *)

(** Reading the key file, parsing keys, and the signature header of [mail_auth]. *)
Class DkimLib := {
  SigningKey : Type;
  read_key_file : bytes -> result bytes bytes;
  ed25519_from_pkcs8_der : bytes -> result SigningKey bytes;
  rsa_from_pkcs8_pem : bytes -> result SigningKey bytes;
  rsa_from_rsa_pem : bytes -> result SigningKey bytes;
  (** key, domain, selector, signed headers, message *)
  signature_header : SigningKey -> bytes -> bytes -> list bytes -> bytes -> result bytes bytes;
}.

Record DkimDomainEntry := mkDkimEntry {
  dk_domain : bytes; dk_selector : bytes; dk_key_file : bytes; dk_algorithm : bytes }.

Definition DkimKeyStore : Type := gmap (list Z) DkimDomainEntry.

Definition DkimKeyStore_new `{Unicode} (configs : list DkimDomainEntry) : DkimKeyStore :=
  fold_left (fun domains cfg => <[to_lowercase (dk_domain cfg) := cfg]> domains) configs ∅.

Definition lookup_key `{Unicode} (s : DkimKeyStore) (domain : bytes) : option DkimDomainEntry :=
  s !! (to_lowercase domain).

Section Signer.
Context `{DkimLib}.

Definition sign_with_key (key : SigningKey) (domain selector message : bytes) : result bytes bytes :=
  match signature_header key domain selector
    [bs "From"; bs "To"; bs "Subject"; bs "Date"; bs "Message-ID"; bs "MIME-Version"; bs "Content-Type"] message with
  | Err e => Err (bs "DKIM signing failed: " ++ e)
  | Ok sig_header => Ok (sig_header ++ message)
  end.

Definition sign (entry : DkimDomainEntry) (message : bytes) : result bytes bytes :=
  match read_key_file (dk_key_file entry) with
  | Err _ => Err (bs "failed to read DKIM key: " ++ dk_key_file entry)
  | Ok pem =>
      if bool_decide (dk_algorithm entry = bs "ed25519-sha256") then
        match ed25519_from_pkcs8_der pem with
        | Err e => Err (bs "failed to parse Ed25519 DKIM key: " ++ e)
        | Ok key => sign_with_key key (dk_domain entry) (dk_selector entry) message
        end
      else
        match (match rsa_from_pkcs8_pem pem with Ok k => Ok k | Err _ => rsa_from_rsa_pem pem end) with
        | Err e => Err (bs "failed to parse RSA DKIM key: " ++ e)
        | Ok key => sign_with_key key (dk_domain entry) (dk_selector entry) message
        end
  end.
End Signer.

(** ** The hourly limit *)

Lemma filter_length_mono {A} (p q : A -> bool) l :
  (forall x, p x = true -> q x = true) -> (length (List.filter p l) <= length (List.filter q l))%nat.
Proof.
  intros Hpq. induction l as [|x l IH]; simpl; [done|].
  destruct (p x) eqn:E; [rewrite (Hpq x E); simpl; lia|]. destruct (q x); simpl; lia.
Qed.

Section RateLemmas.
Context `{Unicode}.

(** One check of a sequence; the instants at which a domain was let through are kept
    beside the limiter. *)
Definition rate_step (key : bytes) (st : OutboundRateLimit * list Z) (e : Z * bytes) : OutboundRateLimit * list Z :=
  let '(x, r) := rate_limit_check e.1 st.1 e.2 in
  (r, if is_ok x && bool_decide (to_lowercase e.2 = key) then st.2 ++ [e.1] else st.2).

Definition rate_run (max : Z) (key : bytes) (evs : list (Z * bytes)) : OutboundRateLimit * list Z :=
  fold_left (rate_step key) evs (OutboundRateLimit_new max, []).

Definition admitted (max : Z) (key : bytes) (evs : list (Z * bytes)) : list Z := (rate_run max key evs).2.

Definition after (now : Z) (ts : list Z) : list Z := List.filter (fun t => now - HOUR <? t) ts.
Definition in_hour (now : Z) (ts : list Z) : list Z :=
  List.filter (fun t => (now - HOUR <? t) && (t <=? now)) ts.

Lemma after_after t now ts : t <= now -> after now (after t ts) = after now ts.
Proof.
  intros Ht. unfold after. induction ts as [|x ts IH]; simpl; [done|].
  destruct (t - HOUR <? x) eqn:E1; simpl; rewrite IH; [done|].
  destruct (now - HOUR <? x) eqn:E2; [lia|done].
Qed.

Lemma after_app now a b : after now (a ++ b) = after now a ++ after now b.
Proof. apply List.filter_app. Qed.

(** What holds after checks up to the instant [t]: the limiter's entry and the admitted
    instants have the same recent part, and no hour holds more than the maximum. *)
Record rate_inv (max : Z) (key : bytes) (t : Z) (st : OutboundRateLimit * list Z) : Prop := {
  inv_max : max_per_hour st.1 = max;
  inv_entry now : t <= now -> after now (default [] (counters st.1 !! key)) = after now st.2;
  inv_hour now : Z.of_nat (length (in_hour now st.2)) <= max;
}.

(** Admitting one more instant when the last hour has room. *)
Lemma in_hour_snoc max t now ts :
  Z.of_nat (length (after t ts)) < max -> Z.of_nat (length (in_hour now ts)) <= max ->
  Z.of_nat (length (in_hour now (ts ++ [t]))) <= max.
Proof.
  intros Hroom Hh. unfold in_hour. rewrite List.filter_app, length_app.
  destruct (decide (t <= now)).
  - assert (length (in_hour now ts) <= length (after t ts))%nat.
    { apply filter_length_mono. intros x. rewrite andb_true_iff. lia. }
    unfold in_hour in *. simpl. destruct (_ && _); simpl; lia.
  - simpl. rewrite (proj2 (Z.leb_gt t now)) by lia. rewrite andb_false_r. simpl. unfold in_hour in *. lia.
Qed.

Lemma rate_step_inv max key t st e :
  rate_inv max key t st -> t <= e.1 -> rate_inv max key e.1 (rate_step key st e).
Proof.
  intros [Hm He Hh] Ht. destruct e as [t' d], st as [r adm]. simpl in *.
  unfold rate_step, rate_limit_check. simpl.
  fold (after t' (default [] (counters r !! to_lowercase d))). rewrite Hm.
  destruct (max <=? _) eqn:Efull; simpl.
  - constructor; simpl; [done| |done]. intros now Hn.
    destruct (decide (to_lowercase d = key)) as [<-|Hne].
    + rewrite lookup_insert_eq. simpl. rewrite after_after by done. apply He. lia.
    + rewrite lookup_insert_ne by done. apply He. lia.
  - case_bool_decide as Hk.
    + subst key. constructor; simpl; [done| |].
      * intros now Hn. rewrite lookup_insert_eq. simpl. rewrite !after_app, after_after by done.
        by rewrite He by lia.
      * intros now. apply in_hour_snoc; [|done]. rewrite <- He by lia. lia.
    + constructor; simpl; [done| |done]. intros now Hn. rewrite lookup_insert_ne by done. apply He. lia.
Qed.
End RateLemmas.

(** Instants that do not decrease. *)
Fixpoint ordered_from (from : Z) (ts : list Z) : Prop :=
  match ts with [] => True | t :: ts => from <= t /\ ordered_from t ts end.

(** ** Properties *)

(** The hourly limit: over any sequence of checks at instants that do not decrease,
    for any mix of domains, no period of one hour contains more admissions of a domain
    than its limit. *)
Theorem hourly_limit_respected `{Unicode} max key evs now :
  0 <= max -> ordered_from 0 evs.*1 ->
  Z.of_nat (length (in_hour now (admitted max key evs))) <= max.
Proof.
  intros Hmax Ho. unfold admitted, rate_run.
  assert (Hinv : forall evs t st, rate_inv max key t st -> ordered_from t evs.*1 ->
    exists t', rate_inv max key t' (fold_left (rate_step key) evs st)).
  { clear. intros evs. induction evs as [|e evs IH]; intros t st Hi Ho; simpl; [by eauto|].
    destruct Ho as [Ht Ho]. eapply IH; [|exact Ho]. by apply (rate_step_inv max key t). }
  destruct (Hinv evs 0 (OutboundRateLimit_new max, [])) as [t' [_ _ Hh]]; [|done|apply Hh].
  constructor; simpl; [done|by rewrite lookup_empty|done].
Qed.

Lemma hourly_limit_respected_witness :
  Z.of_nat (length (in_hour 40 (admitted 2 (bs "a.example")
    [(10, bs "A.example"); (20, bs "a.example"); (30, bs "a.example")]))) <= 2.
Proof.
  apply (hourly_limit_respected 2 (bs "a.example")
    [(10, bs "A.example"); (20, bs "a.example"); (30, bs "a.example")] 40).
  - lia.
  - simpl. lia.
Defined.
