(* ===== verification/RelaySender.v ===== *)
(** * The SMTP client of the relay: [serverwall-relay/src/delivery/sender.rs]

    One delivery to one address of a mail exchanger, with the opportunistic
    STARTTLS upgrade of [delivery/tls.rs].  The answers of the server are the
    lines of a conversation ([Wire]); what is written before and after the
    upgrade is kept apart. *)

From S2P Require Import Prelude RustStr Schema SmtpProto Net Wire Fs RelayQueue RelayDelivery.
Open Scope Z_scope.

(** ** [tls.rs] and the server a connection meets *)

Inductive TlsVersion := TLS12 | TLS13.

(** The connector is known by the versions it offers and whether it verifies
    certificates. *)
Record OutboundTls := mkOutboundTls {
  versions : list TlsVersion; verifies : bool; opportunistic : bool }.

Definition OutboundTls_new (config : RelayTlsConfig) : OutboundTls :=
  mkOutboundTls (if bool_decide (rt_min_version config = bs "1.3") then [TLS13] else [TLS13; TLS12])
    (rt_verify_certificates config) (rt_opportunistic config).

Definition is_enabled (t : OutboundTls) : bool := opportunistic t.

(** A server: whether a connection is made and the lines it sends on it; whether its host
    name is one for TLS; the lines it sends after a handshake, if the handshake succeeds. *)
Record Server := mkServer {
  sv_plain : option (list (option bytes));
  sv_name_ok : bool;
  sv_tls : option (list (option bytes));
}.

Definition upgrade (s : Server) : result (list (option bytes)) bytes :=
  if negb (sv_name_ok s) then Err (bs "invalid server name for TLS")
  else match sv_tls s with
  | None => Err (bs "TLS handshake failed")
  | Some c => Ok c
  end.

(** ** The conversation *)

Section Sender.
(** The text of a read error. *)
Context (io_text : bytes).

(** [read_response]: lines up to one that is short or has a space in its fourth place. *)
Fixpoint read_lines (acc : bytes) (c : list (option bytes)) : result bytes bytes * list (option bytes) :=
  match c with
  | [] => (Err (bs "connection closed unexpectedly"), [])
  | None :: c => (Err io_text, c)
  | Some line :: c =>
      if is_nil line then (Err (bs "connection closed unexpectedly"), c)
      else
        let acc := acc ++ line in
        if (4 <=? Z.of_nat (length line)) && bool_decide (line !! 3%nat = Some 32) then (Ok (trim acc), c)
        else if Z.of_nat (length line) <? 4 then (Ok (trim acc), c)
        else read_lines acc c
  end.

Definition read_response : conv bytes bytes := fun c => let '(r, c) := read_lines [] c in ([], r, c).

Definition ensure_positive (response : bytes) : conv bytes unit :=
  if starts_with response (bs "2") then conv_ret tt else conv_err response.

Definition write_cmd (cmd : bytes) : conv bytes unit :=
  do _ <- send cmd; send CRLF.

Fixpoint rcpt_commands (rcpt_to : list bytes) : conv bytes unit :=
  match rcpt_to with
  | [] => conv_ret tt
  | rcpt :: rcpts =>
      do _ <- write_cmd (bs "RCPT TO:<" ++ rcpt ++ bs ">");
      do rcpt_resp <- read_response;
      do _ <- ensure_positive rcpt_resp;
      rcpt_commands rcpts
  end.

(** A line of the message without its carriage return, and with its dot doubled. *)
Definition without_cr (line : bytes) : bytes :=
  if ends_with line [CR] then take (length line - 1) line else line.
Definition stuff (line : bytes) : bytes := if starts_with line (bs ".") then bs "." ++ line else line.

Fixpoint body_lines (ls : list bytes) : conv bytes unit :=
  match ls with
  | [] => conv_ret tt
  | line :: ls =>
      do _ <- send (stuff (without_cr line));
      do _ <- send CRLF;
      body_lines ls
  end.

Definition smtp_conversation (from : bytes) (rcpts : list bytes) (message : bytes) : conv bytes bytes :=
  do _ <- write_cmd (bs "MAIL FROM:<" ++ from ++ bs ">");
  do from_resp <- read_response;
  do _ <- ensure_positive from_resp;
  do _ <- rcpt_commands rcpts;
  do _ <- write_cmd (bs "DATA");
  do data_resp <- read_response;
  do _ <- (if starts_with data_resp (bs "3") then conv_ret tt else conv_err data_resp);
  do _ <- body_lines (split message LF);
  do _ <- send (bs "." ++ CRLF);
  do final_resp <- read_response;
  do _ <- ensure_positive final_resp;
  do _ <- write_cmd (bs "QUIT");
  conv_ret final_resp.

Record SmtpSender := mkSender { sn_hostname : bytes; sn_tls : option OutboundTls }.

(** Up to the answer to EHLO, and to STARTTLS. *)
Definition open_conversation (s : SmtpSender) : conv bytes bytes :=
  do banner <- read_response;
  do _ <- ensure_positive banner;
  do _ <- write_cmd (bs "EHLO " ++ sn_hostname s);
  do ehlo_resp <- read_response;
  do _ <- ensure_positive ehlo_resp;
  conv_ret ehlo_resp.

Definition ask_tls : conv bytes bytes :=
  do _ <- write_cmd (bs "STARTTLS");
  read_response.

(** What went over the plain connection, what went over TLS, and the result. *)
Record Delivery := mkDelivery { d_plain : bytes; d_tls : bytes; d_result : result bytes bytes }.

(** The conversation over TLS; what the plain reader had buffered is dropped with it. *)
Definition tls_conversation (s : SmtpSender) (from : bytes) (rcpts : list bytes) (message : bytes)
  : conv bytes bytes :=
  do _ <- write_cmd (bs "EHLO " ++ sn_hostname s);
  do _ <- read_response;
  smtp_conversation from rcpts message.

Definition plain_conversation (w : bytes) (c : list (option bytes)) (from : bytes) (rcpts : list bytes)
    (message : bytes) : Delivery :=
  let '(w', r, _) := smtp_conversation from rcpts message c in mkDelivery (w ++ w') [] r.

Definition send_inner `{Unicode} (s : SmtpSender) (server : Server) (addr : bytes) (from : bytes)
    (rcpts : list bytes) (message : bytes) : Delivery :=
  match sv_plain server with
  | None => mkDelivery [] [] (Err (bs "failed to connect to " ++ addr))
  | Some c =>
      match open_conversation s c with
      | (w, Err e, _) => mkDelivery w [] (Err e)
      | (w, Ok ehlo_resp, c) =>
          let supports_starttls := contains (to_uppercase ehlo_resp) (bs "STARTTLS") in
          if supports_starttls && (match sn_tls s with Some tls => is_enabled tls | None => false end) then
            match ask_tls c with
            | (w', Err e, _) => mkDelivery (w ++ w') [] (Err e)
            | (w', Ok tls_resp, c) =>
                if starts_with tls_resp (bs "2") then
                  match upgrade server with
                  | Ok c => let '(t, r, _) := tls_conversation s from rcpts message c in mkDelivery (w ++ w') t r
                  | Err e => mkDelivery (w ++ w') [] (Err (bs "STARTTLS handshake failed: " ++ e))
                  end
                else plain_conversation (w ++ w') c from rcpts message
            end
          else plain_conversation w c from rcpts message
      end
  end.

(** The classification of a failure by the first byte of its text. *)
Definition classify (r : result bytes bytes) : DeliveryResult :=
  match r with
  | Ok response => Success response
  | Err msg =>
      if starts_with msg (bs "5") && (2 <? Z.of_nat (length msg)) then PermFail msg else TempFail msg
  end.

Definition sender_send `{Unicode} (s : SmtpSender) (server : Server) (addr : bytes) (from : bytes)
    (rcpts : list bytes) (message : bytes) : DeliveryResult :=
  classify (d_result (send_inner s server addr from rcpts message)).
End Sender.

(** ** What is written *)

(** All that a successful conversation writes. *)
Definition body (message : bytes) : bytes :=
  concat ((fun line => stuff (without_cr line) ++ CRLF) <$> split message LF).

Definition transcript (from : bytes) (rcpts : list bytes) (message : bytes) : bytes :=
  wire (WMailFrom from) ++ concat ((fun r => wire (WRcptTo r)) <$> rcpts) ++ wire WData ++
  body message ++ (bs "." ++ CRLF) ++ wire WQuit.

Section SenderLemmas.
Context (io_text : bytes).

Lemma upto_read_response : upto (read_response io_text) [].
Proof.
  intros c. unfold read_response. destruct (read_lines io_text [] c) as [r c'].
  eexists _, _, _. split; [done|]. by exists [].
Qed.

Lemma upto_ensure_positive r : upto (ensure_positive r) [].
Proof. unfold ensure_positive. case_match; auto using upto_ret, upto_err. Qed.

Lemma upto_write_cmd cmd : upto (write_cmd cmd) (cmd ++ CRLF).
Proof. apply upto_bind; intros; apply upto_send. Qed.

Lemma upto_rcpt_commands rcpts :
  upto (rcpt_commands io_text rcpts) (concat ((fun r => wire (WRcptTo r)) <$> rcpts)).
Proof.
  induction rcpts as [|r rcpts IH]; simpl; [apply upto_ret|].
  apply (upto_bind_eq _ _ ((bs "RCPT TO:<" ++ r ++ bs ">") ++ CRLF) (concat ((fun r => wire (WRcptTo r)) <$> rcpts))).
  - apply upto_write_cmd.
  - intros _. apply (upto_bind _ _ []); [apply upto_read_response|]. intros a.
    apply (upto_bind _ _ []); [apply upto_ensure_positive|done].
  - unfold wire. by rewrite <- !app_assoc.
Qed.

Lemma upto_body_lines ls :
  upto (body_lines ls) (concat ((fun line => stuff (without_cr line) ++ CRLF) <$> ls)).
Proof.
  induction ls as [|l ls IH]; cbn [body_lines fmap list_fmap concat]; [apply upto_ret|].
  rewrite <- app_assoc. apply upto_bind; [apply upto_send|intros _].
  apply upto_bind; [apply upto_send|done].
Qed.

Lemma upto_smtp_conversation from rcpts message :
  upto (smtp_conversation io_text from rcpts message) (transcript from rcpts message).
Proof.
  unfold smtp_conversation, transcript.
  replace (wire (WMailFrom from)) with ((bs "MAIL FROM:<" ++ from ++ bs ">") ++ CRLF)
    by (unfold wire; by rewrite <- !app_assoc).
  apply upto_bind; [apply upto_write_cmd|intros _].
  apply (upto_bind _ _ []); [apply upto_read_response|intros a].
  apply (upto_bind _ _ []); [apply upto_ensure_positive|intros _].
  apply upto_bind; [apply upto_rcpt_commands|intros _].
  apply upto_bind; [apply (upto_write_cmd (bs "DATA"))|intros _].
  apply (upto_bind _ _ []); [apply upto_read_response|intros d].
  apply (upto_bind _ _ []); [case_match; auto using upto_ret, upto_err|intros _].
  apply upto_bind; [apply upto_body_lines|intros _].
  apply upto_bind; [apply upto_send|intros _].
  apply (upto_bind _ _ []); [apply upto_read_response|intros f].
  apply (upto_bind _ _ []); [apply upto_ensure_positive|intros _].
  apply (upto_bind_eq _ _ (bs "QUIT" ++ CRLF) []); [apply upto_write_cmd|intros _; apply upto_ret|done].
Qed.
End SenderLemmas.

(** ** What a success says of the answers *)

Section Answers.
Context (io_text : bytes).

(** The next [n] responses. *)
Fixpoint responses (n : nat) (c : list (option bytes)) : option (list bytes * list (option bytes)) :=
  match n with
  | O => Some ([], c)
  | S n =>
      match read_lines io_text [] c with
      | (Ok r, c) => '(rs, c) ← responses n c; Some (r :: rs, c)
      | (Err _, _) => None
      end
  end.

Definition positive_response (r : bytes) : Prop := starts_with r (bs "2") = true.

(** Positive answers to MAIL, to each RCPT and to the message, and 3xx to DATA. *)
Definition all_accepted (n : nat) (rs : list bytes) (resp : bytes) : Prop :=
  exists f rc d, rs = f :: rc ++ [d; resp] /\ length rc = n /\ positive_response f /\
    Forall positive_response rc /\ starts_with d (bs "3") = true /\ positive_response resp.

Lemma responses_app n m c rs rs' c' c'' :
  responses n c = Some (rs, c') -> responses m c' = Some (rs', c'') ->
  responses (n + m) c = Some (rs ++ rs', c'').
Proof.
  revert c rs. induction n as [|n IH]; intros c rs; simpl; [by intros [= <- <-] ->|].
  destruct (read_lines io_text [] c) as [[r|] c1]; [|done].
  destruct (responses n c1) as [[rs1 c2]|] eqn:E; simpl; [|done].
  intros [= <- <-] Hm. by rewrite (IH _ _ E Hm).
Qed.

Lemma read_response_Ok c w r c' :
  read_response io_text c = (w, Ok r, c') <-> w = [] /\ read_lines io_text [] c = (Ok r, c').
Proof. unfold read_response. destruct (read_lines _ _ c) as [r' c1]. naive_solver. Qed.

Lemma ensure_positive_Ok r c w u c' :
  ensure_positive r c = (w, Ok u, c') <-> w = [] /\ c' = c /\ positive_response r.
Proof.
  unfold ensure_positive, positive_response. destruct u.
  destruct (starts_with r (bs "2")); cbv [conv_ret conv_err]; naive_solver.
Qed.

Lemma write_cmd_Ok cmd c w u c' : write_cmd cmd c = (w, Ok u, c') <-> w = cmd ++ CRLF /\ c' = c.
Proof. unfold write_cmd, conv_bind, send. destruct u. naive_solver. Qed.

Lemma read_positive {A} (k : bytes -> conv bytes A) c w a c' :
  (do r <- read_response io_text; do _ <- ensure_positive r; k r) c = (w, Ok a, c') <->
  exists r c1, responses 1 c = Some ([r], c1) /\ positive_response r /\ k r c1 = (w, Ok a, c').
Proof.
  rewrite conv_bind_Ok. setoid_rewrite conv_bind_Ok. setoid_rewrite read_response_Ok.
  setoid_rewrite ensure_positive_Ok. simpl. split.
  - intros (w1 & r & c1 & w2 & [-> ->] & (w3 & u & c2 & w4 & (-> & -> & Hp) & Hk & ->) & ->). eauto.
  - intros (r & c1 & Hr & Hp & Hk). destruct (read_lines io_text [] c) as [[r'|] c2]; simplify_eq/=.
    exists [], r, c1, w. split; [done|]. split; [|done]. exists [], tt, c1, w. done.
Qed.

Lemma responses_S n c rs c' :
  responses (S n) c = Some (rs, c') <->
  exists r rs' c1, rs = r :: rs' /\ responses 1 c = Some ([r], c1) /\ responses n c1 = Some (rs', c').
Proof.
  simpl. destruct (read_lines io_text [] c) as [[r|] c1]; simpl; [|naive_solver].
  destruct (responses n c1) as [[rs1 c2]|] eqn:E; simpl; [|naive_solver].
  split; [intros [= <- <-]; eauto 10|]. intros (? & ? & ? & -> & ? & ?). by simplify_eq.
Qed.

Lemma responses_split n m c rs c' :
  responses (n + m) c = Some (rs, c') ->
  exists rs1 rs2 c1, rs = rs1 ++ rs2 /\ responses n c = Some (rs1, c1) /\ responses m c1 = Some (rs2, c').
Proof.
  revert c rs. induction n as [|n IH]; intros c rs; simpl; [by exists [], rs, c|].
  destruct (read_lines io_text [] c) as [[r|] c1]; [|done].
  destruct (responses (n + m) c1) as [[rs0 c2]|] eqn:E; simpl; intros [= <- <-].
  destruct (IH _ _ E) as (rs1 & rs2 & c3 & -> & -> & Hm). by exists (r :: rs1), rs2, c3.
Qed.

Lemma responses_length n c rs c' : responses n c = Some (rs, c') -> length rs = n.
Proof.
  revert c rs. induction n as [|n IH]; intros c rs; simpl; [by intros [= <- _]|].
  destruct (read_lines io_text [] c) as [[r|] c1]; [|done].
  destruct (responses n c1) as [[rs0 c2]|] eqn:E; simpl; intros [= <- <-]. simpl. by rewrite (IH _ _ E).
Qed.

Lemma rcpt_commands_Ok rcpts c u c' :
  (exists w, rcpt_commands io_text rcpts c = (w, Ok u, c')) <->
  exists rs, responses (length rcpts) c = Some (rs, c') /\ length rs = length rcpts /\ Forall positive_response rs.
Proof.
  destruct u. revert c. induction rcpts as [|r rcpts IH]; intros c; cbn [rcpt_commands length].
  - split; [intros [w [= <- <-]]; by exists []|intros (rs & [= <- <-] & _); by eexists].
  - setoid_rewrite conv_bind_Ok. setoid_rewrite write_cmd_Ok. setoid_rewrite responses_S. split.
    + intros (w & w1 & a & c1 & w2 & [-> ->] & Hk & ->).
      apply (read_positive (fun _ => _)) in Hk as (x & c2 & Hx & Hp & Hk).
      destruct (proj1 (IH c2) (ex_intro _ _ Hk)) as (rs & Hrs & Hl & Hf).
      exists (x :: rs). split; [eauto 10|]. simpl. split; [lia|by constructor].
    + intros (rs & (x & rs' & c1 & -> & Hx & Hrs) & Hl & [Hp Hf]%Forall_cons).
      simpl in Hl. destruct (proj2 (IH c1)) as [w Hw]; [exists rs'; eauto with lia|].
      eexists _, _, tt, c, w. split; [done|]. split; [|done]. apply (read_positive (fun _ => rcpt_commands io_text rcpts)). eauto.
Qed.

Lemma body_lines_Ok ls c : exists w, body_lines ls c = (w, Ok tt, c).
Proof.
  induction ls as [|l ls [w IH]]; cbn [body_lines]; [by eexists|].
  unfold conv_bind, send. rewrite IH. by eexists.
Qed.

(** The conversation from the DATA command on. *)
Lemma data_part_Ok message c r c' :
  (exists w, (do _ <- write_cmd (bs "DATA");
   do data_resp <- read_response io_text;
   do _ <- (if starts_with data_resp (bs "3") then conv_ret tt else conv_err data_resp);
   do _ <- body_lines (split message LF);
   do _ <- send (bs "." ++ CRLF);
   do final_resp <- read_response io_text;
   do _ <- ensure_positive final_resp;
   do _ <- write_cmd (bs "QUIT");
   conv_ret final_resp) c = (w, Ok r, c')) <->
  exists d, responses 2 c = Some ([d; r], c') /\ starts_with d (bs "3") = true /\ positive_response r.
Proof.
  unfold conv_bind, read_response, write_cmd, send, ensure_positive, positive_response.
  cbn [conv_bind responses].
  destruct (read_lines io_text [] c) as [[d|] c1]; [|naive_solver].
  destruct (starts_with d (bs "3")) eqn:Ed; cbv [conv_ret conv_err].
  2: { split; [naive_solver|]. intros (d' & Hr & Hd & _).
       destruct (read_lines io_text [] c1) as [[z|] c2]; simplify_eq/=; congruence. }
  destruct (body_lines_Ok (split message LF) c1) as [w ->].
  destruct (read_lines io_text [] c1) as [[z|] c2]; simpl; [|naive_solver].
  destruct (starts_with z (bs "2")) eqn:Ez; simpl; split.
  - intros [w' Hw]. simplify_eq. by exists d.
  - intros (d' & Hr & _). simplify_eq. by eexists.
  - by intros [w' [=]].
  - intros (d' & Hr & _ & Hp). simplify_eq. congruence.
Qed.

Lemma smtp_conversation_Ok from rcpts message c resp c' :
  (exists w, smtp_conversation io_text from rcpts message c = (w, Ok resp, c')) <->
  exists rs, responses (S (length rcpts + 2)) c = Some (rs, c') /\ all_accepted (length rcpts) rs resp.
Proof.
  unfold smtp_conversation. split.
  - intros (w & (w1 & u & c0 & w2 & [-> ->]%write_cmd_Ok & Hk & ->)%conv_bind_Ok).
    apply (read_positive (fun _ => _)) in Hk as (f & c1 & Hf & Hpf & Hk).
    apply conv_bind_Ok in Hk as (w3 & u' & c2 & w4 & Hrc & Hd & ->).
    destruct (proj1 (rcpt_commands_Ok rcpts c1 u' c2) (ex_intro _ _ Hrc)) as (rc & Hrs & Hl & Hfa).
    destruct (proj1 (data_part_Ok message c2 resp c') (ex_intro _ _ Hd)) as (d & Hd2 & Hd3 & Hpr).
    exists (f :: rc ++ [d; resp]). split; [|by exists f, rc, d].
    rewrite responses_S. eexists _, _, _. split; [done|]. split; [exact Hf|].
    by apply (responses_app _ _ _ _ _ c2).
  - intros (rs & Hrs & f & rc & d & -> & Hl & Hpf & Hfa & Hd3 & Hpr).
    apply responses_S in Hrs as (f' & rs' & c1 & [= <- <-] & Hf & Hrs).
    destruct (responses_split _ _ _ _ _ Hrs) as (rs1 & rs2 & c2 & Ers & H1 & H2).
    assert (rs1 = rc /\ rs2 = [d; resp]) as [-> ->].
    { apply app_inj_1; [|done]. rewrite (responses_length _ _ _ _ H1). lia. }
    destruct (proj2 (rcpt_commands_Ok rcpts c1 tt c2)) as [w1 Hw1]; [by exists rc|].
    destruct (proj2 (data_part_Ok message c2 resp c')) as [w2 Hw2]; [by exists d|].
    eexists. apply conv_bind_Ok. eexists _, tt, c, _. split; [by apply write_cmd_Ok|].
    split; [|reflexivity]. apply (read_positive (fun _ => _)). exists f, c1. split; [done|]. split; [done|].
    apply conv_bind_Ok. by eexists w1, tt, c2, w2.
Qed.
End Answers.

(** ** Properties *)


(** Once the server has agreed to STARTTLS, nothing of the message or its envelope
    is sent in the clear, whether the handshake then succeeds or not: the plain
    connection carries EHLO and STARTTLS only. *)
Theorem starttls_protects_message `{Unicode} io_text s tls server addr from rcpts message c w ehlo_resp c1 w' tls_resp c2 :
  sv_plain server = Some c -> sn_tls s = Some tls -> is_enabled tls = true ->
  open_conversation io_text s c = (w, Ok ehlo_resp, c1) ->
  contains (to_uppercase ehlo_resp) (bs "STARTTLS") = true ->
  ask_tls io_text c1 = (w', Ok tls_resp, c2) -> starts_with tls_resp (bs "2") = true ->
  d_plain (send_inner io_text s server addr from rcpts message) =
    (bs "EHLO " ++ sn_hostname s) ++ CRLF ++ bs "STARTTLS" ++ CRLF.
Proof.
  intros Hp Ht He Ho Hs Ha H2. unfold send_inner.
  assert (w = (bs "EHLO " ++ sn_hostname s) ++ CRLF) as Hw.
  { apply (read_positive io_text (fun _ => _)) in Ho as (? & ? & _ & _ & Ho).
    apply conv_bind_Ok in Ho as (? & ? & ? & ? & [-> ->]%write_cmd_Ok & Ho & ->).
    apply (read_positive io_text (fun r => conv_ret r)) in Ho as (r & ? & _ & _ & Ho). injection Ho as <- _ _. by rewrite app_nil_r. }
  assert (w' = bs "STARTTLS" ++ CRLF) as Hw'.
  { apply conv_bind_Ok in Ha as (? & ? & ? & ? & [-> ->]%write_cmd_Ok & [-> _]%read_response_Ok & ->).
    by rewrite app_nil_r. }
  rewrite Hp, Ho, Hs, Ht, He, Ha, H2. subst w w'. cbn [andb].
  destruct (upgrade server) as [c3|e]; [destruct (tls_conversation io_text s from rcpts message c3) as [[t r] c4]|];
    cbn [d_plain]; by rewrite <- app_assoc.
Qed.

Definition tls_server : Server := mkServer
  (Some (Some <$> [bs "220 mx" ++ CRLF; bs "250-mx" ++ CRLF; bs "250 STARTTLS" ++ CRLF; bs "220 go" ++ CRLF]))
  true (Some (Some <$> [bs "250 mx" ++ CRLF; bs "250 ok" ++ CRLF; bs "250 ok" ++ CRLF; bs "354 go" ++ CRLF;
                         bs "250 queued" ++ CRLF])).
Definition tls_sender : SmtpSender := mkSender (bs "relay")
  (Some (OutboundTls_new (mkRelayTls true false (bs "1.2")))).

Lemma starttls_protects_message_witness :
  d_plain (send_inner (bs "io") tls_sender tls_server (bs "192.0.2.1:25") (bs "a@b") [bs "c@d"] (bs "secret")) =
    bs "EHLO relay" ++ CRLF ++ bs "STARTTLS" ++ CRLF /\
  sender_send (bs "io") tls_sender tls_server (bs "192.0.2.1:25") (bs "a@b") [bs "c@d"] (bs "secret") =
    Success (bs "250 queued").
Proof.
  split; [|by vm_compute].
  apply (starttls_protects_message (bs "io") tls_sender (mkOutboundTls [TLS13; TLS12] false true) tls_server
    (bs "192.0.2.1:25") (bs "a@b") [bs "c@d"] (bs "secret")
    (Some <$> [bs "220 mx" ++ CRLF; bs "250-mx" ++ CRLF; bs "250 STARTTLS" ++ CRLF; bs "220 go" ++ CRLF])
    (bs "EHLO relay" ++ CRLF) (bs "250-mx" ++ CRLF ++ bs "250 STARTTLS") [Some (bs "220 go" ++ CRLF)]
    (bs "STARTTLS" ++ CRLF) (bs "220 go") []); vm_compute; reflexivity.
Defined.
