(* ===== verification/RelayReceiver.v ===== *)
(** * The SMTP server of the relay: [serverwall-relay/src/receiver.rs]

    A session reads one line at a time; the sessions of a relay run interleaved
    and share the outbound policy with its counters, and the spool.  The last
    part composes a session with the client of [RelaySender]. *)

From S2P Require Import Prelude RustStr Schema SmtpProto Net External Wire Fs RelayQueue RelayDelivery RelayPolicy RelaySender.
Open Scope Z_scope.

(** ** A session *)

Inductive SessionState :=
| Connected
| Greeted
| StMailFrom (from : bytes)
| StRcptTo (from : bytes) (rcpts : list bytes).

(** What the next line is: a command, or a line of the message being read. *)
Inductive Phase :=
| Command (state : SessionState)
| Reading (from : bytes) (rcpts : list bytes) (message_data : bytes).

Definition extract_address (raw : bytes) : bytes :=
  let s := trim raw in
  if starts_with s (bs "<") && ends_with s (bs ">") then take (length s - 2) (drop 1 s) else s.

Definition unstuff (line : bytes) : bytes := if starts_with line (bs "..") then drop 1 line else line.

(** What the relay's sessions share. *)
Record Shared := mkShared { sh_policy : OutboundPolicyChecker; sh_disk : disk }.

(** A message handed to the spool: when, by whom, the envelope, the text as received,
    the text as queued and what the spool answered. *)
Record Entry := mkEntry {
  e_at : Z;
  e_peer : IpAddr;
  e_envelope : Envelope;
  e_data : bytes;
  e_message : bytes;
  e_result : result bytes bytes;
}.

Record Outcome := mkOutcome {
  o_replies : list bytes;
  o_phase : option Phase;
  o_shared : Shared;
  o_entry : option Entry;
}.

Definition reply (line : string) : bytes := bs line ++ CRLF.

Section Receiver.
Context `{Unicode} `{IpNetworkLib} `{DkimLib} `{Serde}.

Record SmtpReceiver := mkReceiver {
  rv_hostname : bytes;
  trusted_hosts : TrustedHosts;
  dkim_enabled : bool;
  dkim_key_store : DkimKeyStore;
}.

Context (rv : SmtpReceiver) (peer : IpAddr).

Definition capabilities : bytes :=
  bs "250-" ++ rv_hostname rv ++ CRLF ++ reply "250-SIZE 26214400" ++ reply "250-8BITMIME" ++
  reply "250-PIPELINING" ++ reply "250 OK".

Definition bad_sequence : bytes := reply "503 5.5.1 Bad sequence of commands".

(** The text that is queued: signed when signing is on, the domain has a key and the
    signature succeeds. *)
Definition final_message (sender_domain message_data : bytes) : bytes :=
  if dkim_enabled rv then
    match lookup_key (dkim_key_store rv) sender_domain with
    | Some entry => match sign entry message_data with Ok signed => signed | Err _ => message_data end
    | None => message_data
    end
  else message_data.

(** The end of a message at instant [now]. *)
Definition finish_message (now : Z) (t : Tick) (sh : Shared) (from : bytes) (rcpts : list bytes)
    (message_data : bytes) : Outcome :=
  let sender_domain := rsplit_next from 64 in
  let '(checked, policy) := policy_check now (sh_policy sh) sender_domain (Z.of_nat (length rcpts)) message_data in
  match checked with
  | Err reason =>
      mkOutcome [bs "550 5.7.1 " ++ reason ++ CRLF] (Some (Command Greeted)) (mkShared policy (sh_disk sh)) None
  | Ok _ =>
      let final := final_message sender_domain message_data in
      let env := mkEnvelope from rcpts in
      let '(r, d) := enqueue t env final (sh_disk sh) in
      mkOutcome
        [match r with
         | Ok queue_id => bs "250 2.0.0 OK queued as " ++ queue_id ++ CRLF
         | Err _ => reply "451 4.3.0 Internal error, try again later"
         end]
        (Some (Command Greeted)) (mkShared policy d) (Some (mkEntry now peer env message_data final r))
  end.

Definition stay (st : SessionState) (sh : Shared) (r : bytes) : Outcome :=
  mkOutcome [r] (Some (Command st)) sh None.

Definition on_mail_from (st : SessionState) (sh : Shared) (addr : bytes) : Outcome :=
  match st with
  | Connected => stay st sh bad_sequence
  | Greeted | StMailFrom _ | StRcptTo _ _ =>
      let sender := extract_address addr in
      match spf_alignment_check (spf_alignment (sh_policy sh)) (rsplit_next sender 64) with
      | Err reason => stay st sh (bs "550 5.7.1 " ++ reason ++ CRLF)
      | Ok _ => stay (StMailFrom sender) sh (reply "250 2.1.0 OK")
      end
  end.

Definition add_recipient (st : SessionState) (sh : Shared) (from : bytes) (rcpts : list bytes) (addr : bytes)
  : Outcome :=
  let rcpts := rcpts ++ [extract_address addr] in
  match recipient_limit_check (recipient_limit (sh_policy sh)) (Z.of_nat (length rcpts)) with
  | Err reason => stay st sh (bs "550 5.5.3 " ++ reason ++ CRLF)
  | Ok _ => stay (StRcptTo from rcpts) sh (reply "250 2.1.5 OK")
  end.

Definition on_rcpt_to (st : SessionState) (sh : Shared) (addr : bytes) : Outcome :=
  match st with
  | StMailFrom from => add_recipient st sh from [] addr
  | StRcptTo from rcpts => add_recipient st sh from rcpts addr
  | Connected | Greeted => stay st sh bad_sequence
  end.

Definition on_data (st : SessionState) (sh : Shared) : Outcome :=
  match st with
  | StRcptTo from ((_ :: _) as rcpts) =>
      mkOutcome [reply "354 Start mail input; end with <CRLF>.<CRLF>"] (Some (Reading from rcpts [])) sh None
  | _ => stay st sh bad_sequence
  end.

Definition on_smtp_command (st : SessionState) (sh : Shared) (cmd : SmtpCommand) : Outcome :=
  match cmd with
  | Ehlo _ | Helo _ => stay Greeted sh capabilities
  | MailFrom addr => on_mail_from st sh addr
  | RcptTo addr => on_rcpt_to st sh addr
  | Data => on_data st sh
  | Rset => stay Greeted sh (reply "250 2.0.0 OK")
  | Noop => stay st sh (reply "250 2.0.0 OK")
  | Quit => mkOutcome [reply "221 2.0.0 Bye"] None sh None
  | Auth _ => stay st sh (reply "502 5.5.1 AUTH not supported on relay")
  | StartTls => stay st sh (reply "502 5.5.1 STARTTLS not available")
  | Xclient _ | Unknown _ => stay st sh (reply "500 5.5.2 Unrecognized command")
  end.

(** One line of the client; [None] is the panic of the command parser. *)
Definition on_line (now : Z) (t : Tick) (sh : Shared) (ph : Phase) (line : bytes) : option Outcome :=
  if negb (utf8_valid line) then Some (mkOutcome [] None sh None)
  else
    match ph with
    | Command st => cmd ← parse_command line; Some (on_smtp_command st sh cmd)
    | Reading from rcpts message_data =>
        if bool_decide (trim_line_end line = bs ".") then Some (finish_message now t sh from rcpts message_data)
        else Some (mkOutcome [] (Some (Reading from rcpts (message_data ++ unstuff line))) sh None)
    end.

(** The greeting: who is let in, and what is written first. *)
Definition greet : bytes * option Phase :=
  if negb (is_trusted (trusted_hosts rv) peer) then (reply "554 5.7.1 Relay access denied", None)
  else if require_tls (trusted_hosts rv) then (reply "530 5.7.0 Must issue STARTTLS first", None)
  else (bs "220 " ++ rv_hostname rv ++ reply " ESMTP", Some (Command Connected)).
End Receiver.

(** ** The relay: interleaved sessions *)

Record System := mkSystem {
  sy_now : Z;
  sy_sessions : gmap nat (IpAddr * Phase);
  sy_shared : Shared;
  sy_log : list Entry;
}.

Section System.
Context `{Unicode} `{IpNetworkLib} `{DkimLib} `{Serde} (rv : SmtpReceiver).

Definition after_line (s : System) (k : nat) (peer : IpAddr) (o : Outcome) : System :=
  mkSystem (sy_now s)
    (match o_phase o with
     | Some ph => <[k := (peer, ph)]> (sy_sessions s)
     | None => delete k (sy_sessions s)
     end) (o_shared o) (sy_log s ++ option_list (o_entry o)).

(** A step: time passes; a connection is accepted; one session takes its next line, with
    whatever queue id is drawn; a session ends (closed, failed or panicked); the rest of
    the program works on the spool. *)
Inductive sys_step (s : System) : System -> Prop :=
| sys_time t :
    sy_now s <= t -> sys_step s (mkSystem t (sy_sessions s) (sy_shared s) (sy_log s))
| sys_accept k peer ph :
    sy_sessions s !! k = None -> (greet rv peer).2 = Some ph ->
    sys_step s (mkSystem (sy_now s) (<[k := (peer, ph)]> (sy_sessions s)) (sy_shared s) (sy_log s))
| sys_line k peer ph line t o :
    sy_sessions s !! k = Some (peer, ph) -> on_line rv peer (sy_now s) t (sy_shared s) ph line = Some o ->
    sys_step s (after_line s k peer o)
| sys_close k :
    sys_step s (mkSystem (sy_now s) (delete k (sy_sessions s)) (sy_shared s) (sy_log s))
| sys_spool d :
    sys_step s (mkSystem (sy_now s) (sy_sessions s) (mkShared (sh_policy (sy_shared s)) d) (sy_log s)).

Definition initial_system (config : OutboundPolicyConfig) (d : disk) : System :=
  mkSystem 0 ∅ (mkShared (build_policy config) d) [].

Definition sender_domain (e : Entry) : bytes := rsplit_next (mail_from (e_envelope e)) 64.

(** The admissions of a domain in the log. *)
Definition queued_at (key : bytes) (log : list Entry) : list Z :=
  e_at <$> List.filter (fun e => bool_decide (to_lowercase (sender_domain e) = key)) log.

(** A message that everything the configuration asks for has let through. *)
Record admissible (config : OutboundPolicyConfig) (e : Entry) : Prop := {
  adm_trusted : is_trusted (trusted_hosts rv) (e_peer e) = true;
  adm_plain : require_tls (trusted_hosts rv) = false;
  adm_sender : spf_alignment_check (SpfAlignmentCheck_new (op_allowed_sender_domains config)) (sender_domain e) = Ok tt;
  adm_recipients : (1 <= length (rcpt_to (e_envelope e)))%nat /\
    Z.of_nat (length (rcpt_to (e_envelope e))) <= op_max_recipients_per_message config;
  adm_content : content_policy_check (OutboundContentPolicy_new config) (e_data e) = Ok tt;
  adm_signed : e_message e = final_message rv (sender_domain e) (e_data e);
}.

(** The parts of the policy that never change. *)
Definition policy_of (config : OutboundPolicyConfig) (p : OutboundPolicyChecker) : Prop :=
  exists rl, p = set_rate_limit rl (build_policy config).

Definition phase_ok (ph : Phase) : Prop :=
  match ph with Reading _ rcpts _ => rcpts <> [] | Command _ => True end.

Record sys_inv (config : OutboundPolicyConfig) (s : System) : Prop := {
  si_sessions k peer ph : sy_sessions s !! k = Some (peer, ph) ->
    is_trusted (trusted_hosts rv) peer = true /\ require_tls (trusted_hosts rv) = false /\ phase_ok ph;
  si_policy : policy_of config (sh_policy (sy_shared s));
  si_log : Forall (admissible config) (sy_log s);
  si_rate key : exists adm,
    rate_inv (op_max_messages_per_domain_per_hour config) key (sy_now s)
      (rate_limit (sh_policy (sy_shared s)), adm) /\ sublist (queued_at key (sy_log s)) adm;
}.
End System.

(** ** Lemmas *)

Section ReceiverLemmas.
Context `{Unicode} `{IpNetworkLib} `{DkimLib} `{Serde} (rv : SmtpReceiver).

(** What a check of the policy does: nothing, or one count of the rate limit. *)
Lemma policy_check_cases now p d n m r p' :
  policy_check now p d n m = (r, p') ->
  (p' = p /\ exists e, r = Err e) \/
  (p' = set_rate_limit (rate_limit_check now (rate_limit p) d).2 p /\
   (r = Ok tt -> (rate_limit_check now (rate_limit p) d).1 = Ok tt /\
      spf_alignment_check (spf_alignment p) d = Ok tt /\ n <= recipient_limit p /\
      content_policy_check (content_policy p) m = Ok tt)).
Proof.
  unfold policy_check. destruct (spf_alignment_check _ d) as [[]|e] eqn:Es; [|intros [= <- <-]; left; eauto].
  destruct (recipient_limit_check _ n) as [[]|e] eqn:Er; [|intros [= <- <-]; left; eauto].
  assert (n <= recipient_limit p) by (unfold recipient_limit_check in Er; case_if_in Er; [done|lia]).
  destruct (rate_limit_check now (rate_limit p) d) as [[[]|e] rl]; intros [= <- <-]; right; [|done].
  split; [done|]. intros Hc. by split_and!.
Qed.

Lemma filter_sublist {A} (p : A -> bool) l1 l2 :
  sublist l1 l2 -> sublist (List.filter p l1) (List.filter p l2).
Proof.
  induction 1 as [|x l1 l2 Hs IH|x l1 l2 Hs IH]; simpl; [done| |]; destruct (p x); try done; by constructor.
Qed.

Lemma queued_at_snoc key log e :
  queued_at key (log ++ [e]) =
  queued_at key log ++ (if bool_decide (to_lowercase (sender_domain e) = key) then [e_at e] else []).
Proof. unfold queued_at. rewrite List.filter_app, fmap_app. simpl. by case_match. Qed.

Lemma rate_inv_later max key t t' st : rate_inv max key t st -> t <= t' -> rate_inv max key t' st.
Proof. intros [Hm He Hh] Ht. constructor; [done| |done]. intros now Hn. apply He. lia. Qed.

Lemma greet_admits peer ph :
  (greet rv peer).2 = Some ph ->
  is_trusted (trusted_hosts rv) peer = true /\ require_tls (trusted_hosts rv) = false /\ phase_ok ph.
Proof.
  unfold greet. destruct (is_trusted _ peer); [|done]. destruct (require_tls _); [done|].
  intros [= <-]. done.
Qed.

(** A line that does not end a message leaves the shared state alone. *)
Lemma on_line_cases peer now t sh ph line o :
  on_line rv peer now t sh ph line = Some o ->
  (exists from rcpts m, ph = Reading from rcpts m /\ trim_line_end line = bs "." /\
     o = finish_message rv peer now t sh from rcpts m) \/
  (o_shared o = sh /\ o_entry o = None /\ (phase_ok ph -> forall ph', o_phase o = Some ph' -> phase_ok ph')).
Proof.
  unfold on_line. case_if; [intros [= <-]; by right|].
  destruct ph as [st|from rcpts m].
  - destruct (parse_command line) as [cmd|]; [simpl|done]. intros [= <-]. right.
    destruct cmd; simpl; unfold stay, on_mail_from, on_rcpt_to, on_data, add_recipient;
      repeat case_match; simpl; repeat split; intros; simplify_eq/=; done.
  - case_if; intros [= <-]; [left|right; simpl; naive_solver].
    match goal with Hb : bool_decide _ = true |- _ => apply bool_decide_eq_true_1 in Hb end. eauto 10.
Qed.

(** The policy, the log and the counters after the end of a message. *)
Lemma finish_message_log config peer now t sh from rcpts m o :
  o = finish_message rv peer now t sh from rcpts m ->
  policy_of config (sh_policy sh) -> rcpts <> [] ->
  is_trusted (trusted_hosts rv) peer = true -> require_tls (trusted_hosts rv) = false ->
  policy_of config (sh_policy (o_shared o)) /\ o_phase o = Some (Command Greeted) /\
  Forall (admissible rv config) (option_list (o_entry o)) /\
  forall key adm log,
    rate_inv (op_max_messages_per_domain_per_hour config) key now (rate_limit (sh_policy sh), adm) ->
    sublist (queued_at key log) adm ->
    exists adm',
      rate_inv (op_max_messages_per_domain_per_hour config) key now (rate_limit (sh_policy (o_shared o)), adm') /\
      sublist (queued_at key (log ++ option_list (o_entry o))) adm'.
Proof.
  intros -> [rl Hp] Hne Ht Htls. unfold finish_message.
  set (d := rsplit_next from 64).
  destruct (policy_check now (sh_policy sh) d (Z.of_nat (length rcpts)) m) as [r p'] eqn:Ep.
  apply policy_check_cases in Ep.
  assert (Hstep : forall key adm, rate_inv (op_max_messages_per_domain_per_hour config) key now
      (rate_limit (sh_policy sh), adm) ->
    rate_inv (op_max_messages_per_domain_per_hour config) key now
      (rate_step key (rate_limit (sh_policy sh), adm) (now, d))).
  { intros key adm Hi. by apply (rate_step_inv _ _ now _ (now, d)). }
  destruct Ep as [(-> & e & ->)|(-> & Hok)].
  { simpl. split; [by exists rl|]. split; [done|]. split; [constructor|].
    intros key adm log Hi Hs. exists adm. by rewrite app_nil_r. }
  unfold rate_step in Hstep. simpl in Hstep.
  destruct (rate_limit_check now (rate_limit (sh_policy sh)) d) as [x rl'] eqn:Erl. simpl in Hok.
  destruct r as [[]|e]; simpl.
  - destruct (Hok eq_refl) as (-> & Hs & Hn & Hc). rewrite Hp in Hs, Hn, Hc. simpl in Hs, Hn, Hc.
    destruct (enqueue _ _ _ _) as [qr qd]. simpl. split; [rewrite Hp; by eexists|]. split; [done|]. split.
    + constructor; [|constructor]. constructor; simpl; try done. split; [|done].
      destruct rcpts; [done|simpl; lia].
    + intros key adm log Hi Hsub. specialize (Hstep key adm Hi). simpl in Hstep.
      exists (if bool_decide (to_lowercase d = key) then adm ++ [now] else adm). split; [done|].
      rewrite queued_at_snoc. unfold sender_domain. simpl. fold d.
      case_bool_decide; [by apply sublist_app|by rewrite app_nil_r].
  - split; [rewrite Hp; by eexists|]. split; [done|]. split; [constructor|].
    intros key adm log Hi Hsub. specialize (Hstep key adm Hi). eexists. split; [exact Hstep|].
    rewrite app_nil_r. case_match; [|done]. by apply sublist_inserts_r.
Qed.

Lemma sys_step_inv config s s' : sys_inv rv config s -> sys_step rv s s' -> sys_inv rv config s'.
Proof.
  intros [Hses Hpol Hlog Hrate] Hs. destruct Hs as [t Ht|k peer ph Hk Hg|k peer ph line t o Hk Ho|k|d].
  - constructor; simpl; try done. intros key. destruct (Hrate key) as (adm & Hi & Hsub).
    exists adm. split; [by eapply rate_inv_later|done].
  - constructor; simpl; try done. intros k' peer' ph'. destruct (decide (k = k')) as [<-|Hne].
    + rewrite lookup_insert_eq. intros [= <- <-]. by apply greet_admits.
    + rewrite lookup_insert_ne by done. apply Hses.
  - destruct (Hses _ _ _ Hk) as (Ht & Htls & Hph).
    assert (Hsess : (forall ph', o_phase o = Some ph' -> phase_ok ph') -> forall k' peer' ph',
      sy_sessions (after_line s k peer o) !! k' = Some (peer', ph') ->
      is_trusted (trusted_hosts rv) peer' = true /\ require_tls (trusted_hosts rv) = false /\ phase_ok ph').
    { intros Hok k' peer' ph'. simpl. destruct (o_phase o) as [pho|].
      - destruct (decide (k = k')) as [<-|Hne].
        + rewrite lookup_insert_eq. intros [= <- <-]. eauto.
        + rewrite lookup_insert_ne by done. apply Hses.
      - rewrite lookup_delete_Some. intros [_ Hl]. by apply (Hses k'). }
    destruct (on_line_cases _ _ _ _ _ _ _ Ho) as [(from & rcpts & m & -> & _ & Hf)|(Hsh & He & Hph')].
    + destruct (finish_message_log config _ _ _ _ _ _ _ _ Hf Hpol Hph Ht Htls) as (Hp' & Hph' & Ha & Hr').
      constructor; simpl; [apply Hsess; by rewrite Hph'; intros ? [= <-]|done|by apply Forall_app|].
      intros key. destruct (Hrate key) as (adm & Hi & Hsub). by apply (Hr' key adm).
    + constructor; [apply Hsess; by apply Hph'|simpl; by rewrite Hsh| |];
        simpl; rewrite He, ?Hsh, app_nil_r; done.
  - constructor; simpl; try done. intros k' peer' ph' [_ Hl]%lookup_delete_Some. by apply (Hses k').
  - by constructor.
Qed.

Lemma initial_system_inv config d :
  0 <= op_max_messages_per_domain_per_hour config -> sys_inv rv config (initial_system config d).
Proof.
  intros Hm. constructor; simpl; [by intros ??? ?%lookup_empty_Some| |constructor|].
  - by exists (OutboundRateLimit_new (op_max_messages_per_domain_per_hour config)).
  - intros key. exists []. split; [|done].
    constructor; simpl; [done|by rewrite lookup_empty|done].
Qed.
End ReceiverLemmas.

(** ** A client and a relay

    The lines a successful client writes, as the receiver reads them. *)

Section Feed.
Context `{Unicode} `{IpNetworkLib} `{DkimLib} `{Serde} (rv : SmtpReceiver).

(** One session takes lines while no other runs. *)
Fixpoint feed (k : nat) (t : Tick) (ls : list bytes) (s : System) : option System :=
  match ls with
  | [] => Some s
  | l :: ls =>
      match sy_sessions s !! k with
      | None => Some s
      | Some (peer, ph) =>
          o ← on_line rv peer (sy_now s) t (sy_shared s) ph l; feed k t ls (after_line s k peer o)
      end
  end.

Lemma feed_steps k t ls s s' : feed k t ls s = Some s' -> steps (sys_step rv) s s'.
Proof.
  revert s. induction ls as [|l ls IH]; intros s; simpl; [intros [= ->]; constructor|].
  destruct (sy_sessions s !! k) as [[peer ph]|] eqn:Ek; [|intros [= ->]; constructor].
  destruct (on_line _ _ _ _ _ _ _) as [o|] eqn:Eo; [simpl|done]. intros Hf.
  eapply steps_trans; [|by apply IH]. eapply steps_one, sys_line; done.
Qed.

(** A session in a phase, alone. *)
Definition talking (k : nat) (peer : IpAddr) (ph : Phase) (s : System) : System :=
  mkSystem (sy_now s) (<[k := (peer, ph)]> (sy_sessions s)) (sy_shared s) (sy_log s).

Lemma feed_quiet k t l ls s peer ph ph' r :
  on_line rv peer (sy_now s) t (sy_shared s) ph l = Some (mkOutcome r (Some ph') (sy_shared s) None) ->
  feed k t (l :: ls) (talking k peer ph s) = feed k t ls (talking k peer ph' s).
Proof.
  intros Ho. simpl. rewrite lookup_insert_eq, Ho. simpl. unfold after_line, talking. simpl.
  by rewrite insert_insert_eq, app_nil_r.
Qed.
End Feed.

Definition text (l : bytes) : Prop := utf8_valid l = true /\ LF ∉ l.

Lemma text_app a b : text a -> text b -> text (a ++ b).
Proof.
  intros [Ha Hla] [Hb Hlb]. split; [by rewrite utf8_valid_app|]. rewrite elem_of_app. by intros [?|?].
Qed.

Lemma text_literal l : utf8_valid l && bool_decide (LF ∉ l) = true -> text l.
Proof. intros [Hv Hl%bool_decide_eq_true]%andb_true_iff. done. Qed.

Ltac text := repeat apply text_app; try done; by apply text_literal.

Lemma text_valid_line l : text l -> utf8_valid (l ++ CRLF) = true.
Proof. intros [Hv _]. by rewrite utf8_valid_app. Qed.

Lemma split_utf8 s : utf8_valid s = true -> Forall (fun l => utf8_valid l = true) (split s LF).
Proof.
  intros Hv. remember (length s) as n eqn:Hn. revert s Hn Hv.
  induction n as [n IH] using lt_wf_ind. intros s -> Hv.
  destruct (split_once s LF) as [[a b]|] eqn:E.
  - pose proof E as E'. apply split_once_Some in E as [-> Hla].
    rewrite split_app by done. apply utf8_valid_cut in Hv as [Ha Hb]; [|done].
    constructor; [done|]. eapply IH; [|reflexivity|done]. rewrite length_app. simpl. lia.
  - apply split_once_None in E. rewrite split_none by done. by repeat constructor.
Qed.
Definition transcript_lines (from : bytes) (rcpts : list bytes) (message : bytes) : list bytes :=
  (bs "MAIL FROM:<" ++ from ++ bs ">") :: ((fun r => bs "RCPT TO:<" ++ r ++ bs ">") <$> rcpts) ++
  bs "DATA" :: ((fun l => stuff (without_cr l)) <$> split message LF) ++ [bs "."; bs "QUIT"].

(** The message as the receiver takes it: every line ended by CRLF. *)
Definition canonical (message : bytes) : bytes :=
  concat ((fun l => without_cr l ++ CRLF) <$> split message LF).

Lemma rcpt_lines rcpts :
  concat ((fun r => wire (WRcptTo r)) <$> rcpts) =
  concat ((fun l => l ++ CRLF) <$> ((fun r => bs "RCPT TO:<" ++ r ++ bs ">") <$> rcpts)).
Proof.
  rewrite <- list_fmap_compose. f_equal. apply list_fmap_ext. intros i r _.
  unfold wire, compose. by rewrite <- !app_assoc.
Qed.

Lemma transcript_as_lines from rcpts message :
  transcript from rcpts message = concat ((fun l => l ++ CRLF) <$> transcript_lines from rcpts message).
Proof.
  unfold transcript, transcript_lines, body. rewrite rcpt_lines, fmap_cons, fmap_app, fmap_cons, fmap_app.
  cbn [concat]. rewrite !concat_app. cbn [concat]. rewrite concat_app, <- (list_fmap_compose _ _ (split message LF)).
  unfold wire. rewrite <- !app_assoc. done.
Qed.

Lemma text_without_cr l : text l -> text (without_cr l).
Proof.
  intros [Hv Hl]. unfold without_cr. destruct (ends_with l [CR]) eqn:E; [|done].
  destruct l as [|x l] using rev_ind; [done|]. rewrite ends_with_snoc in E. apply Z.eqb_eq in E as <-.
  rewrite length_app, Nat.add_sub. simpl. rewrite take_app_length.
  apply utf8_valid_cut in Hv as [Hv _]; [|done]. split; [done|]. rewrite elem_of_app in Hl. by intros ?; apply Hl; left.
Qed.

Lemma text_stuff l : text l -> text (stuff l).
Proof. intros Hl. unfold stuff. case_match; [|done]. text. Qed.

Lemma text_lines message :
  utf8_valid message = true -> Forall text ((fun l => stuff (without_cr l)) <$> split message LF).
Proof.
  intros Hv. apply Forall_fmap, Forall_forall. intros l Hl.
  apply text_stuff, text_without_cr. split.
  - exact (proj1 (Forall_forall _ _) (split_utf8 _ Hv) l Hl).
  - exact (proj1 (Forall_forall _ _) (split_no_sep message LF) l Hl).
Qed.

Lemma stuff_not_dot l : stuff l <> bs ".".
Proof.
  unfold stuff. destruct (starts_with l (bs ".")) eqn:E.
  - apply starts_with_true in E as [r ->]. done.
  - intros ->. done.
Qed.

Lemma unstuff_stuff l : unstuff (stuff l ++ CRLF) = l ++ CRLF.
Proof.
  unfold unstuff, stuff. destruct (starts_with l (bs ".")) eqn:E.
  - apply starts_with_true in E as [r ->]. done.
  - destruct l as [|x l]; [done|]. destruct (Z.eq_dec x 46) as [->|Hx].
    + change (46 :: l) with (bs "." ++ l) in E. by rewrite starts_with_app in E.
    + change (bs "..") with [46; 46]. by rewrite <- app_comm_cons, starts_with_cons_ne.
Qed.
Lemma transcript_lines_text from rcpts message :
  text from -> Forall text rcpts -> utf8_valid message = true ->
  Forall text (transcript_lines from rcpts message).
Proof.
  intros Hf Hr Hm. unfold transcript_lines.
  repeat first [apply Forall_app; split | apply Forall_cons; split | apply Forall_nil_2]; try text.
  - apply Forall_fmap. eapply Forall_impl; [exact Hr|]. intros x Hx.
    change (text (bs "RCPT TO:<" ++ x ++ bs ">")). text.
  - by apply text_lines.
Qed.

Section Transfer.
Context `{Unicode} `{IpNetworkLib} `{DkimLib} `{Serde} (rv : SmtpReceiver) (k : nat) (t : Tick) (peer : IpAddr).

Lemma extract_address_angle a : extract_address (bs "<" ++ a ++ bs ">") = a.
Proof.
  unfold extract_address. change (bs "<" ++ a ++ bs ">") with (60 :: a ++ [62]).
  rewrite trim_id by done. change (bs ">") with [62]. rewrite (app_comm_cons a [62] 60), ends_with_snoc. simpl.
  rewrite length_app. simpl. replace (length a + 1 - 1)%nat with (length a) by lia. apply take_app_length.
Qed.

Lemma feed_mail_from s from ls :
  text from -> spf_alignment_check (spf_alignment (sh_policy (sy_shared s))) (rsplit_next from 64) = Ok tt ->
  feed rv k t (((bs "MAIL FROM:<" ++ from ++ bs ">") ++ CRLF) :: ls) (talking k peer (Command Greeted) s) =
  feed rv k t ls (talking k peer (Command (StMailFrom from)) s).
Proof.
  intros Ht Hspf. eapply feed_quiet. unfold on_line.
  rewrite text_valid_line by text.
  replace ((bs "MAIL FROM:<" ++ from ++ bs ">") ++ CRLF) with (wire (WMailFrom from))
    by (unfold wire; by rewrite <- !app_assoc).
  rewrite parse_mail_from. cbn [negb mbind option_bind on_smtp_command]. unfold on_mail_from.
  by rewrite extract_address_angle, Hspf.
Qed.

(** The recipients after [before], from a state that has taken those. *)
Definition has_rcpts (from : bytes) (before : list bytes) : SessionState :=
  match before with [] => StMailFrom from | _ => StRcptTo from before end.

Lemma feed_rcpt s from before rcpt ls :
  text rcpt -> Z.of_nat (length before + 1) <= recipient_limit (sh_policy (sy_shared s)) ->
  feed rv k t (((bs "RCPT TO:<" ++ rcpt ++ bs ">") ++ CRLF) :: ls)
    (talking k peer (Command (has_rcpts from before)) s) =
  feed rv k t ls (talking k peer (Command (StRcptTo from (before ++ [rcpt]))) s).
Proof.
  intros Ht Hlim. eapply feed_quiet. unfold on_line.
  rewrite text_valid_line by text.
  replace ((bs "RCPT TO:<" ++ rcpt ++ bs ">") ++ CRLF) with (wire (WRcptTo rcpt))
    by (unfold wire; by rewrite <- !app_assoc).
  rewrite parse_rcpt_to. cbn [negb mbind option_bind on_smtp_command].
  assert (Hadd : forall st, add_recipient st (sy_shared s) from before (bs "<" ++ rcpt ++ bs ">") =
    stay (StRcptTo from (before ++ [rcpt])) (sy_shared s) (reply "250 2.1.5 OK")).
  { intros st. unfold add_recipient, recipient_limit_check. rewrite extract_address_angle, length_app.
    simpl length. by rewrite (proj2 (Z.ltb_ge _ _)) by lia. }
  unfold on_rcpt_to, has_rcpts. destruct before; by rewrite Hadd.
Qed.

Lemma feed_rcpts s from before rcpts ls :
  Forall text rcpts -> before ++ rcpts <> [] ->
  Z.of_nat (length (before ++ rcpts)) <= recipient_limit (sh_policy (sy_shared s)) ->
  feed rv k t (((fun l => l ++ CRLF) <$> ((fun r => bs "RCPT TO:<" ++ r ++ bs ">") <$> rcpts)) ++ ls)
    (talking k peer (Command (has_rcpts from before)) s) =
  feed rv k t ls (talking k peer (Command (StRcptTo from (before ++ rcpts))) s).
Proof.
  intros Ht. revert before. induction Ht as [|r rcpts Hr Ht IH]; intros before Hne Hlim.
  - rewrite app_nil_r in *. destruct before; [done|]. done.
  - rewrite length_app in Hlim. simpl length in Hlim. rewrite !fmap_cons, <- app_comm_cons.
    rewrite feed_rcpt by (done || lia).
    assert (StRcptTo from (before ++ [r]) = has_rcpts from (before ++ [r])) as -> by by destruct before.
    rewrite IH; rewrite <- ?app_assoc; [done|by destruct before|]. rewrite length_app. simpl. lia.
Qed.

Lemma feed_data s from r rcpts ls :
  feed rv k t ((bs "DATA" ++ CRLF) :: ls) (talking k peer (Command (StRcptTo from (r :: rcpts))) s) =
  feed rv k t ls (talking k peer (Reading from (r :: rcpts) []) s).
Proof. by eapply feed_quiet. Qed.

Lemma feed_body s from rcpts ls rest acc :
  Forall text (stuff <$> ls) ->
  feed rv k t (((fun l => l ++ CRLF) <$> (stuff <$> ls)) ++ rest) (talking k peer (Reading from rcpts acc) s) =
  feed rv k t rest (talking k peer (Reading from rcpts (acc ++ concat ((fun l => l ++ CRLF) <$> ls))) s).
Proof.
  revert acc. induction ls as [|l ls IH]; intros acc Ht; [by rewrite app_nil_r|].
  rewrite !fmap_cons, <- app_comm_cons. rewrite fmap_cons in Ht. apply Forall_cons in Ht as [Hl Ht].
  rewrite (feed_quiet _ _ _ _ _ _ _ _ (Reading from rcpts (acc ++ l ++ CRLF)) []).
  - rewrite IH by done. cbn [concat]. by rewrite <- !app_assoc.
  - unfold on_line. rewrite text_valid_line by done. cbn [negb].
    rewrite trim_line_end_crlf by apply Hl. rewrite bool_decide_eq_false_2 by apply stuff_not_dot.
    by rewrite unstuff_stuff.
Qed.

Lemma feed_end s from rcpts m p' r d :
  policy_check (sy_now s) (sh_policy (sy_shared s)) (rsplit_next from 64) (Z.of_nat (length rcpts)) m = (Ok tt, p') ->
  enqueue t (mkEnvelope from rcpts) (final_message rv (rsplit_next from 64) m) (sh_disk (sy_shared s)) = (r, d) ->
  feed rv k t [bs "." ++ CRLF; bs "QUIT" ++ CRLF] (talking k peer (Reading from rcpts m) s) =
  Some (mkSystem (sy_now s) (delete k (sy_sessions s)) (mkShared p' d)
    (sy_log s ++ [mkEntry (sy_now s) peer (mkEnvelope from rcpts) m
                    (final_message rv (rsplit_next from 64) m) r])).
Proof.
  intros Hpol Henq. cbn [feed sy_sessions talking sy_now sy_shared]. rewrite lookup_insert_eq.
  change (on_line rv peer (sy_now s) t (sy_shared s) (Reading from rcpts m) (bs "." ++ CRLF))
    with (Some (finish_message rv peer (sy_now s) t (sy_shared s) from rcpts m)).
  unfold finish_message. rewrite Hpol, Henq. simpl. rewrite lookup_insert_eq.
  change (on_line rv peer (sy_now s) t (mkShared p' d) (Command Greeted) (bs "QUIT" ++ CRLF))
    with (Some (mkOutcome [reply "221 2.0.0 Bye"] None (mkShared p' d) None)).
  simpl. unfold after_line. simpl. by rewrite app_nil_r, !delete_insert_eq.
Qed.
End Transfer.
(** A message whose lines all end in CRLF arrives with one empty line more. *)
Lemma canonical_grows ls :
  Forall (fun l => (LF ∉ l) /\ ends_with l [CR] = false) ls ->
  canonical (concat ((fun l => l ++ CRLF) <$> ls)) = concat ((fun l => l ++ CRLF) <$> ls) ++ CRLF.
Proof.
  unfold canonical. induction 1 as [|l ls [Hl Hcr] Hls IH]; [done|]. cbn [fmap list_fmap concat].
  replace ((l ++ CRLF) ++ concat ((fun l => l ++ CRLF) <$> ls))
    with ((l ++ [CR]) ++ LF :: concat ((fun l => l ++ CRLF) <$> ls)) at 1 by by rewrite <- !app_assoc.
  rewrite split_app by (rewrite elem_of_app, list_elem_of_singleton; by intros [?|?]).
  rewrite fmap_cons. cbn [concat]. rewrite IH.
  assert (without_cr (l ++ [CR]) = l) as ->; [|by rewrite <- !app_assoc].
  unfold without_cr. rewrite ends_with_snoc. simpl. rewrite length_app, Nat.add_sub. apply take_app_length.
Qed.

(** ** Properties *)

(** C4: the relay is not open, and its limits hold under every interleaving of any number
    of sessions: each message handed to the spool came from a trusted host, has an
    allowed sender domain and between one and the configured number of recipients,
    passed the content policy and is queued signed as configured; and no hour contains
    more messages of a sender domain than its limit. *)
Theorem relay_admits_only_allowed `{Unicode} `{IpNetworkLib} `{DkimLib} `{Serde} rv config d s key now :
  0 <= op_max_messages_per_domain_per_hour config -> steps (sys_step rv) (initial_system config d) s ->
  Forall (admissible rv config) (sy_log s) /\
  Z.of_nat (length (in_hour now (queued_at key (sy_log s)))) <= op_max_messages_per_domain_per_hour config.
Proof.
  intros Hm Hs.
  assert (Hi : sys_inv rv config s).
  { eapply steps_invariant; [|by apply initial_system_inv|exact Hs]. intros a b. apply sys_step_inv. }
  destruct Hi as [_ _ Hlog Hrate]. split; [done|]. destruct (Hrate key) as (adm & [_ _ Hh] & Hsub).
  etransitivity; [|apply (Hh now)]. apply inj_le. by apply sublist_length, filter_sublist.
Qed.

Lemma default_Some {A} (d : A) (o : option A) :
  match o with Some _ => true | None => false end = true -> o = Some (default d o).
Proof. by destruct o. Qed.

Lemma pair_fst {A B} (x : A * B) a : x.1 = a -> x = (a, x.2).
Proof. by destruct x; intros <-. Qed.

(** A relay for one host and one sender domain. *)
Definition no_dkim : DkimLib := {|
  SigningKey := unit;
  read_key_file := fun _ => Err [];
  ed25519_from_pkcs8_der := fun _ => Err [];
  rsa_from_pkcs8_pem := fun _ => Err [];
  rsa_from_rsa_pem := fun _ => Err [];
  signature_header := fun _ _ _ _ _ => Err [];
|}.
#[local] Existing Instance no_dkim.
Definition example_host : IpAddr := LOCALHOST.
Definition example_receiver : SmtpReceiver :=
  mkReceiver (bs "relay") (mkTrusted [] [example_host] false) false ∅.
Definition example_config : OutboundPolicyConfig :=
  mkPolicyConfig true 1000 2 [bs "a.example"] 5 true true.
Definition example_lines : list bytes :=
  (fun l => bs l ++ CRLF) <$>
  ["EHLO host"; "MAIL FROM:<u@A.example>"; "RCPT TO:<v@b.example>"; "DATA"; "..hello"; "."; "QUIT"]%string.
Definition example_start : System := initial_system example_config (mkDisk ∅ []).
Definition example_connected : System := talking 0 example_host (Command Connected) example_start.
Definition example_end : System :=
  default example_start (feed example_receiver 0 fixture_tick example_lines example_connected).

Lemma relay_admits_only_allowed_witness :
  (Forall (admissible example_receiver example_config) (sy_log example_end) /\
   Z.of_nat (length (in_hour 0 (queued_at (bs "a.example") (sy_log example_end)))) <= 5) /\
  e_data <$> sy_log example_end = [bs ".hello" ++ CRLF].
Proof.
  split; [|vm_compute; reflexivity].
  apply (relay_admits_only_allowed example_receiver example_config (mkDisk ∅ []) example_end (bs "a.example") 0).
  - vm_compute. discriminate.
  - apply (steps_trans _ _ example_connected).
    { apply steps_one, (sys_accept example_receiver example_start 0 example_host (Command Connected)); [done|].
      vm_compute. reflexivity. }
    apply (feed_steps example_receiver 0 fixture_tick example_lines), default_Some. vm_compute. reflexivity.
Defined.

(** A session that reads a client's transcript. *)
Lemma transcript_queued `{Unicode} `{IpNetworkLib} `{DkimLib} `{Serde} rv k t peer from rcpts message s p' r d :
  text from -> Forall text rcpts -> rcpts <> [] -> utf8_valid message = true ->
  policy_check (sy_now s) (sh_policy (sy_shared s)) (rsplit_next from 64) (Z.of_nat (length rcpts))
    (canonical message) = (Ok tt, p') ->
  enqueue t (mkEnvelope from rcpts) (final_message rv (rsplit_next from 64) (canonical message))
    (sh_disk (sy_shared s)) = (r, d) ->
  feed rv k t (split_inclusive_lf (transcript from rcpts message)) (talking k peer (Command Greeted) s) =
  Some (mkSystem (sy_now s) (delete k (sy_sessions s)) (mkShared p' d)
    (sy_log s ++ [mkEntry (sy_now s) peer (mkEnvelope from rcpts) (canonical message)
                    (final_message rv (rsplit_next from 64) (canonical message)) r])).
Proof.
  intros Hf Hr Hne Hm Hpol Henq.
  destruct (policy_check_cases _ _ _ _ _ _ _ Hpol) as [(_ & e & ?)|(_ & Hok)]; [done|].
  destruct (Hok eq_refl) as (_ & Hspf & Hlim & _). pose proof (text_lines _ Hm) as Htext.
  rewrite transcript_as_lines, <- (app_nil_r (concat _)), split_inclusive_lf_crlf, app_nil_r.
  2: { eapply Forall_impl; [by apply transcript_lines_text|]. by intros l [_ ?]. }
  unfold transcript_lines. rewrite fmap_cons, fmap_app, fmap_cons, fmap_app, feed_mail_from by done.
  change (StMailFrom from) with (has_rcpts from []). rewrite (feed_rcpts _ _ _ _ _ _ []) by done.
  destruct rcpts as [|rc rcpts]; [done|]. cbn [app]. rewrite feed_data.
  rewrite (list_fmap_compose without_cr stuff) in *. rewrite feed_body by done.
  rewrite <- (list_fmap_compose without_cr). by apply feed_end.
Qed.

(** From client to relay: a session that reads what the relay's own client writes for
    a message (envelope, dot-stuffed text, QUIT) hands exactly that envelope to the spool,
    with the text of the message, each of its lines ended by CRLF; the policy and the
    spool are consulted once, and the session ends. *)
Theorem client_message_queued `{Unicode} `{IpNetworkLib} `{DkimLib} `{Serde} rv k t peer from rcpts message s p' r d :
  text from -> Forall text rcpts -> rcpts <> [] -> utf8_valid message = true ->
  policy_check (sy_now s) (sh_policy (sy_shared s)) (rsplit_next from 64) (Z.of_nat (length rcpts))
    (canonical message) = (Ok tt, p') ->
  enqueue t (mkEnvelope from rcpts) (final_message rv (rsplit_next from 64) (canonical message))
    (sh_disk (sy_shared s)) = (r, d) ->
  feed rv k t (split_inclusive_lf (transcript from rcpts message)) (talking k peer (Command Greeted) s) =
  Some (mkSystem (sy_now s) (delete k (sy_sessions s)) (mkShared p' d)
    (sy_log s ++ [mkEntry (sy_now s) peer (mkEnvelope from rcpts) (canonical message)
                    (final_message rv (rsplit_next from 64) (canonical message)) r])).
Proof. apply transcript_queued. Qed.

Definition example_message : bytes := bs "Subject: hi" ++ CRLF ++ CRLF ++ bs ".dot".

Lemma client_message_queued_witness :
  feed example_receiver 0 fixture_tick
    (split_inclusive_lf (transcript (bs "u@a.example") [bs "v@b.example"] example_message))
    (talking 0 example_host (Command Greeted) example_start) =
  Some (mkSystem 0 ∅
    (mkShared (policy_check 0 (build_policy example_config) (bs "a.example") 1 (canonical example_message)).2
       (enqueue fixture_tick (mkEnvelope (bs "u@a.example") [bs "v@b.example"]) (canonical example_message)
          (mkDisk ∅ [])).2)
    [mkEntry 0 example_host (mkEnvelope (bs "u@a.example") [bs "v@b.example"]) (canonical example_message)
       (canonical example_message) (Ok fixture_id)]).
Proof.
  apply (client_message_queued example_receiver 0 fixture_tick example_host (bs "u@a.example") [bs "v@b.example"]
    example_message example_start).
  - by apply text_literal.
  - constructor; [by apply text_literal|constructor].
  - discriminate.
  - reflexivity.
  - apply pair_fst. vm_compute. reflexivity.
  - apply (pair_fst (enqueue _ _ (canonical example_message) _)). vm_compute. reflexivity.
Defined.

(** An enqueue that succeeds has stored the message, whatever calls failed before. *)
Lemma enqueue_Ok `{SerdeSpec} t env msg d id d' :
  enqueue t env msg d = (Ok id, d') ->
  id = generate_queue_id (t_millis t) (t_rand t) /\
  spool_get d' id = Some (new_message id (t_now t) env msg, msg).
Proof.
  unfold enqueue. destruct (to_json _) as [j|] eqn:Ej; [|done]. unfold io_bind, io_ret, fs_write.
  destruct (next_fault d) as [[] s1]; try done.
  destruct (next_fault _) as [[] s2]; try done. intros [= <- <-]. split; [done|].
  apply spool_get_Some. simpl. split.
  - exists j. rewrite lookup_insert_eq. split; [done|]. by apply of_to_json.
  - rewrite lookup_insert_ne by auto with serverwall. by rewrite lookup_insert_eq.
Qed.

(** C16: a message is acknowledged only when it is safely queued: when the receiver answers
    the end of a message with 250, the spool holds it under the queue id of the answer,
    with its envelope and as signed, whatever system calls have failed. *)
Theorem acknowledged_is_queued `{Unicode} `{IpNetworkLib} `{DkimLib} `{SerdeSpec} rv peer now t sh from rcpts m text :
  o_replies (finish_message rv peer now t sh from rcpts m) = [bs "250" ++ text] ->
  exists id, bs "250" ++ text = bs "250 2.0.0 OK queued as " ++ id ++ CRLF /\
  spool_get (sh_disk (o_shared (finish_message rv peer now t sh from rcpts m))) id =
    Some (new_message id (t_now t) (mkEnvelope from rcpts) (final_message rv (rsplit_next from 64) m),
          final_message rv (rsplit_next from 64) m).
Proof.
  unfold finish_message. destruct (policy_check _ _ _ _ _) as [[[]|e] p]; [|done].
  destruct (enqueue _ _ _ _) as [[id|e] d] eqn:Eq; [|done]. simpl. intros [= <-].
  exists id. split; [done|]. by apply enqueue_Ok in Eq as [_ Hg].
Qed.

Lemma acknowledged_is_queued_witness :
  exists id, bs "250" ++ bs " 2.0.0 OK queued as " ++ fixture_id ++ CRLF = bs "250 2.0.0 OK queued as " ++ id ++ CRLF /\
  spool_get (sh_disk (o_shared (finish_message example_receiver example_host 0 fixture_tick
    (sy_shared example_start) (bs "u@a.example") [bs "v@b.example"] example_message))) id =
    Some (new_message id 0 (mkEnvelope (bs "u@a.example") [bs "v@b.example"]) example_message, example_message).
Proof.
  apply (acknowledged_is_queued example_receiver example_host 0 fixture_tick (sy_shared example_start)
    (bs "u@a.example") [bs "v@b.example"] example_message). vm_compute. reflexivity.
Defined.
