(* ===== verification/Relay.v ===== *)
(** * The relay of a configuration

    [build_relay] of [serverwall-proxy/src/server.rs] puts the parts of the relay together: the
    delivery manager ([DeliveryManager::run], [process_queue]) and the SMTP server
    ([SmtpReceiver::run]).  The last part follows a message from the client of the relay
    through the spool to the server it is for. *)

From S2P Require Import Prelude RustStr Schema SmtpProto Net External Wire Fs RelayQueue RelayDelivery QueueAdmin RelayTasks RelayPolicy RelaySender RelayReceiver.
Open Scope Z_scope.

(** ** The parts *)

(** [DeliveryManager], without the spool and the resolver: the permits of its semaphore are
    held by the deliveries under way. *)
Record DeliveryManager := mkManager {
  dm_scheduler : RetryScheduler;
  dm_sender : SmtpSender;
  dm_bounce_gen : BounceGenerator;
  dm_permits : Z;
}.

(** [Semaphore::MAX_PERMITS]; more make [Semaphore::new] panic. *)
Definition MAX_PERMITS : Z := 2 ^ 61 - 1.

Definition DeliveryManager_new (sch : RetryScheduler) (sender : SmtpSender) (bg : BounceGenerator)
    (delivery_threads : Z) : option DeliveryManager :=
  if delivery_threads <=? MAX_PERMITS then Some (mkManager sch sender bg delivery_threads) else None.

Definition dkim_entry (c : DkimDomainConfig) : DkimDomainEntry :=
  mkDkimEntry (dd_domain c) (dd_selector c) (dd_key_file c) (dd_algorithm c).

Section Build.
Context `{Unicode} `{IpNetworkLib} `{DkimLib} `{Chrono}.

(** The tasks: the delivery manager, and the receiver with its addresses and its policy. *)
Record RelayTasks := mkRelay {
  rt_manager : DeliveryManager;
  rt_receiver : option (list SocketAddr * SmtpReceiver * OutboundPolicyChecker);
}.

(** [spool] is the answer to the creation of the spool directory.  [None] for a panic. *)
Definition build_relay (spool : result unit bytes) (config : RelayConfig) : option (result RelayTasks bytes) :=
  match spool with
  | Err _ => Some (Err (bs "failed to create spool directory: " ++ rel_spool_dir config))
  | Ok _ =>
      scheduler ← RetryScheduler_new (rel_retry config);
      let hostname := unwrap_or (bs "localhost") (rel_hostname config) in
      let sender := mkSender hostname (Some (OutboundTls_new (rel_tls config))) in
      let bounce := rel_bounce config in
      let bounce_gen := BounceGenerator_new (bo_sender bounce) (bo_include_original_headers bounce) in
      let dkim_key_store := DkimKeyStore_new (dkim_entry <$> rd_domains (rel_dkim config)) in
      manager ← DeliveryManager_new scheduler sender bounce_gen (rel_delivery_threads config);
      let receiver :=
        if is_nil (rel_listen config) then None
        else Some (filter_map parse_socket_addr (rel_listen config),
                   mkReceiver hostname (TrustedHosts_new (rel_trusted_hosts config))
                     (rd_enabled (rel_dkim config)) dkim_key_store,
                   build_policy (rel_outbound_policy config)) in
      Some (Ok (mkRelay manager receiver))
  end.
End Build.

(** ** Running *)

(** [SmtpReceiver::run]: the addresses that are listened on, and the result.  The first address
    that cannot be bound ends the task; the listeners before it are tasks of their own and stay. *)
Fixpoint receiver_listen (bind : SocketAddr -> result unit bytes) (addrs : list SocketAddr)
  : list SocketAddr * result unit bytes :=
  match addrs with
  | [] => ([], Ok tt)
  | addr :: addrs =>
      match bind addr with
      | Err e => ([], Err e)
      | Ok _ => let (l, r) := receiver_listen bind addrs in (addr :: l, r)
      end
  end.

Section Manager.
Context `{Serde} (dm : DeliveryManager).

(** A tick of [DeliveryManager::run].  A delivery takes a permit and gives it back when it is
    done; without any the first due message makes [acquire_owned] wait for ever ([None]),
    and the task takes neither ticks nor the shutdown signal any more. *)
Definition manager_tick (a : bytes -> Attempt) (now : Z) (d : disk) : option disk :=
  match spool_list d with
  | (Err _, d) => Some d
  | (Ok messages, d') =>
      if (dm_permits dm =? 0) && existsb (is_due now) messages then None
      else Some (process_queue (dm_scheduler dm) (dm_bounce_gen dm) a now d).2
  end.

Inductive ManagerEvent :=
| Sleep (a : bytes -> Attempt) (now : Z)
| ShutdownSignal.

(** [DeliveryManager::run], over what happens to it; the flag says that it has returned. *)
Fixpoint manager_run (evs : list ManagerEvent) (d : disk) : option (disk * bool) :=
  match evs with
  | [] => Some (d, false)
  | Sleep a now :: evs => d ← manager_tick a now d; manager_run evs d
  | ShutdownSignal :: _ => Some (d, true)
  end.
End Manager.

(** An attempt of the relay: [SmtpSender::send] to the servers it meets. *)
Definition relay_attempt `{Unicode} (io_text : bytes) (sender : SmtpSender) (dns : Dns)
    (servers : nat -> RelaySender.Server) (now : Z) (b : BounceTick) (t : Tick) : Attempt :=
  mkAttempt dns (fun k sa _ from rcpts msg => sender_send io_text sender (servers k) (show_socket_addr sa) from rcpts msg)
    now b t.

(** ** A pass over the queue *)

Section Listing.
Context `{SerdeSpec}.

Lemma meta_path_extension id : path_extension (meta_path id) = Some (bs "meta") <-> id <> [].
Proof.
  unfold path_extension, meta_path. change (bs ".meta") with (DOT :: bs "meta").
  rewrite rsplit_once_app by (by apply (bool_decide_unpack _); vm_compute). by destruct id.
Qed.

(** The message of a directory entry. *)
Definition entry_message (d : disk) (p : bytes) : option QueuedMessage :=
  if bool_decide (path_extension p = Some (bs "meta")) then files d !! p ≫= of_json else None.

Lemma list_entries_calm d ps :
  calm d -> Forall (fun p => is_Some (files d !! p)) ps ->
  list_entries ps d = (Ok (filter_map (entry_message d) ps), d).
Proof.
  intros Hc. induction ps as [|p ps IH]; intros Hps; [done|].
  apply Forall_cons in Hps as [[j Hj] Hps]. simpl. unfold entry_message at 1.
  case_bool_decide; [|by apply IH]. unfold io_bind, list_entry.
  rewrite (fs_read_calm p j) by done. rewrite IH, Hj by done. simpl. by destruct (of_json j).
Qed.

Lemma spool_list_calm d :
  calm d -> spool_list d = (Ok (filter_map (entry_message d) (map_to_list (files d)).*1), d).
Proof.
  intros Hc. apply list_entries_calm; [done|]. apply Forall_forall. intros p Hp.
  apply list_elem_of_fmap in Hp as ([p' j] & -> & Hp). apply elem_of_map_to_list in Hp. by eexists.
Qed.

(** Under the invariant of the spool, [list] has each message once. *)
Lemma entry_message_id d p q : spool_inv d -> entry_message d p = Some q -> p = meta_path (qid q).
Proof.
  intros Hi. unfold entry_message. case_bool_decide as Hext; [|done].
  apply path_extension_meta in Hext as [id ->]. destruct (files d !! _) as [j|] eqn:Ej; [|done].
  simpl. intros Hq. by destruct (Hi _ _ _ Ej Hq) as [-> _].
Qed.

Lemma filter_map_qids f ps :
  NoDup ps -> (forall p q, f p = Some q -> p = meta_path (qid q)) -> NoDup (qid <$> filter_map f ps).
Proof.
  intros Hnd Hf. induction Hnd as [|p ps Hp Hnd IH]; simpl; [constructor|].
  destruct (f p) as [q|] eqn:Eq; [|done]. simpl. constructor; [|done].
  intros (q' & Hid & (p' & Hp' & Hq')%elem_of_filter_map)%list_elem_of_fmap.
  apply Hf in Eq, Hq'. subst. by rewrite Hid in Hp.
Qed.

Lemma spool_list_messages d :
  calm d -> spool_inv d ->
  exists l, spool_list d = (Ok l, d) /\ NoDup (qid <$> l) /\
    forall q, q ∈ l <-> qid q <> [] /\ exists m, spool_get d (qid q) = Some (q, m).
Proof.
  intros Hc Hi. eexists. split; [by apply spool_list_calm|]. split.
  - apply filter_map_qids; [apply NoDup_fst_map_to_list|]. intros p q. by apply entry_message_id.
  - intros q. rewrite elem_of_filter_map. split.
    + intros (p & _ & Hq). pose proof (entry_message_id _ _ _ Hi Hq) as ->.
      unfold entry_message in Hq. case_bool_decide as Hext; [|done].
      destruct (files d !! _) as [j|] eqn:Ej; [|done]. destruct (Hi _ _ _ Ej Hq) as (_ & m & Hm & _).
      split; [by apply meta_path_extension|]. exists m. apply spool_get_Some. eauto.
    + intros (Hid & m & ((j & Hj & Hq) & _)%spool_get_Some). exists (meta_path (qid q)). split.
      * apply list_elem_of_fmap. exists (meta_path (qid q), j). split; [done|]. by apply elem_of_map_to_list.
      * unfold entry_message. rewrite bool_decide_true, Hj; [done|]. by apply meta_path_extension.
Qed.
End Listing.

Lemma NoDup_fmap_filter {A B} (f : A -> B) (P : A -> Prop) `{!forall x, Decision (P x)} l :
  NoDup (f <$> l) -> NoDup (f <$> base.filter P l).
Proof.
  induction l as [|x l IH]; [done|]. rewrite fmap_cons. intros [Hx Hl]%NoDup_cons.
  rewrite filter_cons. case_decide; [|by apply IH]. rewrite fmap_cons. constructor; [|by apply IH].
  contradict Hx. apply list_elem_of_fmap in Hx as (y & -> & [_ Hy]%list_elem_of_filter).
  by apply list_elem_of_fmap_2.
Qed.

Section Pass.
Context `{SerdeSpec} (sch : RetryScheduler) (bg : BounceGenerator) (a : bytes -> Attempt).

(** What is left of a message after an attempt. *)
Definition left_of (q : QueuedMessage) (m : bytes) (o : RelayDelivery.Outcome) : option (QueuedMessage * bytes) :=
  match o with Rescheduled md => Some (set_metadata md q, m) | _ => None end.

Lemma apply_outcome_self b id q m o s : apply_outcome bg b id q m o s id = left_of q m o.
Proof. destruct o; simpl; by rewrite upd_same. Qed.

Lemma apply_outcome_other b id q m o s id' :
  id' <> id -> bounce_id b <> id' -> apply_outcome bg b id q m o s id' = s id'.
Proof. intros Hne Hb. destruct o; simpl; rewrite upd_other by done; [done| |done]. by apply bounce_store_other. Qed.

Lemma deliver_all_refines ids : forall d s,
  represents d s -> NoDup ids -> (forall id, id ∈ ids -> is_Some (s id)) ->
  (forall i j, i ∈ ids -> j ∈ ids -> bounce_id (a i) <> j) ->
  exists d' s', deliver_all sch bg a ids d = (Ok tt, d') /\ represents d' s' /\
    (forall id q m, id ∈ ids -> s id = Some (q, m) -> s' id = left_of q m (attempt_outcome sch (a id) q m)) /\
    (forall id, (id ∉ ids) -> (forall i, i ∈ ids -> bounce_id (a i) <> id) -> s' id = s id).
Proof.
  induction ids as [|id ids IH]; intros d s Hr Hnd Hs Hb; simpl.
  { exists d, s. split_and!; [done..| |done]. by intros ??? ?%not_elem_of_nil. }
  apply NoDup_cons in Hnd as [Hid Hnd]. destruct (Hs id) as [[q m] Hq]; [by left|].
  destruct (deliver_message_outcome sch bg (a id) id q m d s Hr Hq) as (d1 & Hd & Hr1); [apply Hb; by left|].
  rewrite Hd. simpl. set (s1 := apply_outcome _ _ _ _ _ _ _) in Hr1.
  assert (Ho : forall j, j <> id -> bounce_id (a id) <> j -> s1 j = s j) by (intros; by apply apply_outcome_other).
  assert (Hin : forall j, j ∈ ids -> s1 j = s j)
    by (intros j Hj; apply Ho; [by intros ->|apply Hb; [by left|by right]]).
  destruct (IH d1 s1 Hr1 Hnd) as (d' & s' & -> & Hr' & Hdue & Hrest).
  { intros j Hj. rewrite Hin by done. apply Hs. by right. }
  { intros i j Hi Hj. apply Hb; by right. }
  exists d', s'. split_and!; [done..| |].
  - intros j q' m' [->|Hj]%elem_of_cons Hq'.
    + rewrite Hrest; [|done|intros i Hi; apply Hb; [by right|by left]].
      simplify_eq. apply apply_outcome_self.
    + apply Hdue; [done|]. by rewrite Hin.
  - intros j [Hj1 Hj2]%not_elem_of_cons Hj. rewrite Hrest; [|done|intros i Hi; apply Hj; by right].
    apply Ho; [done|]. apply Hj. by left.
Qed.

(** The ids of the messages a pass at [now] takes up. *)
Definition due (now : Z) (s : store) (id : bytes) : Prop :=
  exists q m, id <> [] /\ s id = Some (q, m) /\ is_due now q = true.

Definition due_ids (now : Z) (messages : list QueuedMessage) : list bytes :=
  qid <$> base.filter (fun q => is_due now q = true) messages.

(** The scan finds each of them once. *)
Lemma due_ids_listed now d s :
  represents d s -> spool_inv d ->
  exists l, spool_list d = (Ok l, d) /\ NoDup (due_ids now l) /\ forall id, id ∈ due_ids now l <-> due now s id.
Proof.
  intros Hr Hi. pose proof Hr as [Hc Hs]. destruct (spool_list_messages d Hc Hi) as (l & Hl & Hnd & Hel).
  assert (Hq : forall id q m, s id = Some (q, m) -> qid q = id).
  { intros id q m Hq. rewrite <- Hs in Hq. apply spool_get_Some in Hq as [(j & Hj & Hq) _]. by destruct (Hi _ _ _ Hj Hq). }
  exists l. split; [done|]. split; [by apply NoDup_fmap_filter|].
  intros id. unfold due_ids. rewrite list_elem_of_fmap. split.
  - intros (q & -> & [Hd (Hne & m & Hg)%Hel]%list_elem_of_filter). exists q, m. by rewrite <- Hs.
  - intros (q & m & Hne & Hg & Hd). pose proof (Hq _ _ _ Hg) as <-. exists q. split; [done|].
    apply list_elem_of_filter. split; [done|]. apply Hel. split; [done|]. exists m. by rewrite Hs.
Qed.

Lemma process_queue_refines now d s :
  represents d s -> spool_inv d -> (forall i j, due now s i -> due now s j -> bounce_id (a i) <> j) ->
  exists d' s', process_queue sch bg a now d = (Ok tt, d') /\ represents d' s' /\
    (forall id q m, id <> [] -> s id = Some (q, m) -> is_due now q = true ->
       s' id = left_of q m (attempt_outcome sch (a id) q m)) /\
    (forall id, ~ due now s id -> (forall i, due now s i -> bounce_id (a i) <> id) -> s' id = s id).
Proof.
  intros Hr Hi Hb. destruct (due_ids_listed now d s Hr Hi) as (l & Hl & Hnd & Hids).
  unfold process_queue, io_bind. rewrite Hl. fold (due_ids now l). set (ids := due_ids now l) in *.
  destruct (deliver_all_refines ids d s) as (d' & s' & He & Hr' & Hdue & Hrest).
  - done.
  - done.
  - intros id (q & m & _ & Hg & _)%Hids. by rewrite Hg.
  - intros i j Hi' Hj. apply Hb; by apply Hids.
  - exists d', s'. split_and!; [done..| |].
    + intros id q m Hne Hg Hd. apply Hdue; [|done]. apply Hids. by exists q, m.
    + intros id Hn Hbo. apply Hrest; [by rewrite Hids|]. intros i Hi'. by apply Hbo, Hids.
Qed.
End Pass.

(** Fresh ids for the bounces. *)
Lemma bounces_fresh (a : bytes -> Attempt) ids :
  NoDup ids -> (forall i j, i ∈ ids -> j ∈ ids -> bounce_id (a i) <> j) ->
  (forall i j, i ∈ ids -> j ∈ ids -> i <> j -> bounce_id (a i) <> bounce_id (a j)) ->
  NoDup (ids ++ (bounce_id ∘ a <$> ids)).
Proof.
  intros Hnd Hb Hb'. apply NoDup_app. split; [done|]. split.
  - intros x Hx (y & E & Hy)%list_elem_of_fmap. by apply (Hb y x).
  - apply NoDup_fmap_2_strong; [|done]. intros x y Hx Hy E.
    destruct (decide (x = y)) as [|Hne]; [done|]. by destruct (Hb' x y Hx Hy Hne).
Qed.

(** ** From the client to the server *)

Section EndToEnd.
Context `{Unicode} (io_text : bytes).

(** A successful delivery has sent the whole transcript, on one of the two connections. *)
Lemma send_inner_Ok sender server addr from rcpts message resp :
  d_result (send_inner io_text sender server addr from rcpts message) = Ok resp ->
  exists pre, pre ++ transcript from rcpts message =
    d_plain (send_inner io_text sender server addr from rcpts message) ++
    d_tls (send_inner io_text sender server addr from rcpts message).
Proof.
  assert (Hconv : forall c w r c', smtp_conversation io_text from rcpts message c = (w, Ok r, c') ->
    w = transcript from rcpts message).
  { intros c w r c' Hc. destruct (upto_smtp_conversation io_text from rcpts message c) as (w' & r' & c'' & Hc' & rest & Ht & Hr).
    rewrite Hc in Hc'. injection Hc' as <- <- <-. rewrite Ht, (Hr eq_refl). by rewrite app_nil_r. }
  assert (Hplain : forall w c r, d_result (plain_conversation io_text w c from rcpts message) = Ok r ->
    exists pre, pre ++ transcript from rcpts message =
      d_plain (plain_conversation io_text w c from rcpts message) ++ d_tls (plain_conversation io_text w c from rcpts message)).
  { intros w c r. unfold plain_conversation. destruct (smtp_conversation _ _ _ _ _) as [[w' r'] c'] eqn:E. simpl.
    intros ->. exists w. by rewrite app_nil_r, (Hconv _ _ _ _ E). }
  unfold send_inner. destruct (sv_plain server) as [c|]; [|done].
  destruct (open_conversation _ _ _) as [[w [ehlo|e]] c1]; [|done].
  destruct (_ && _); [|apply Hplain]. destruct (ask_tls _ _) as [[w' [tls|e]] c2]; [|done].
  destruct (starts_with _ _); [|apply Hplain]. destruct (upgrade server) as [c3|e]; [|done].
  destruct (tls_conversation _ _ _ _ _ _) as [[t r] c4] eqn:Et. simpl. intros ->.
  unfold tls_conversation in Et. apply conv_bind_Ok in Et as (w1 & u & c5 & w2 & _ & Et & ->).
  apply conv_bind_Ok in Et as (w3 & u' & c6 & w4 & _ & Et & ->).
  rewrite (Hconv _ _ _ _ Et). exists ((w ++ w') ++ w1 ++ w3). by rewrite <- !app_assoc.
Qed.

(** The first target accepts. *)
Lemma first_target_delivers sch dns sender servers now b t q m host ip rest resp :
  is_ok (@resolve dns (recipient_domain (envelope q))) = true ->
  (forall hosts, @resolve dns (recipient_domain (envelope q)) = Ok hosts -> mx_targets hosts = (host, ip) :: rest) ->
  d_result (send_inner io_text sender (servers 0%nat) (show_socket_addr (mkSocketAddr ip 25))
              (mail_from (envelope q)) (rcpt_to (envelope q)) m) = Ok resp ->
  attempt_outcome sch (relay_attempt io_text sender dns servers now b t) q m = Delivered.
Proof.
  intros Hok Hh Hs. unfold attempt_outcome. change (at_dns _) with dns. change (envelope (mark_active q)) with (envelope q).
  destruct (@resolve _ _) as [hosts|e] eqn:Er; [|done]. rewrite (Hh _ eq_refl).
  unfold targets_outcome, answers. rewrite imap_cons. cbn [at_send relay_attempt fst snd].
  unfold sender_send. rewrite Nat.add_0_r, Hs. by rewrite filter_cons_True.
Qed.
End EndToEnd.

Lemma queue_id_nonempty t r : generate_queue_id t r <> [].
Proof. done. Qed.

Lemma build_relay_manager `{Unicode} `{IpNetworkLib} `{DkimLib} `{Chrono} config r :
  build_relay (Ok tt) config = Some (Ok r) -> dm_permits (rt_manager r) = rel_delivery_threads config.
Proof.
  unfold build_relay, DeliveryManager_new. destruct (RetryScheduler_new _); [simpl|done].
  destruct (_ <=? _); [|done]. by intros [= <-].
Qed.


#[local] Existing Instance no_dkim.

(** A relay of the default delivery settings that trusts one host. *)
Definition example_relay_config : RelayConfig :=
  mkRelayConfig true [bs "127.0.0.1:25"] (Some (bs "relay")) (bs "/spool") 0 4
    (mkTrustedConfig [bs "127.0.0.1"] false) RetryConfig_default RelayTlsConfig_default (mkRelayDkim false [])
    RelayDmarcPublishConfig_default RelaySpfPublishConfig_default example_config BounceConfig_default.
Definition example_tasks : RelayTasks :=
  match build_relay (Ok tt) example_relay_config with
  | Some (Ok r) => r
  | _ => mkRelay (mkManager fixture_scheduler (mkSender [] None) (BounceGenerator_new None true) 0) None
  end.
Definition accepting_server : RelaySender.Server := mkServer
  (Some (Some <$> [bs "220 mx" ++ CRLF; bs "250 mx" ++ CRLF; bs "250 ok" ++ CRLF; bs "250 ok" ++ CRLF;
                   bs "354 go" ++ CRLF; bs "250 queued" ++ CRLF])) false None.

Lemma example_mx_targets hosts :
  @resolve fixture_dns (bs "b.example") = Ok hosts ->
  mx_targets hosts = [(bs "mx1.example.org", ipv4 192 0 2 1); (bs "mx2.example.org", ipv4 192 0 2 1)].
Proof. intros [= <-]. reflexivity. Qed.

Definition example_text : bytes := final_message example_receiver (rsplit_next (bs "u@a.example") 64) (canonical example_message).
Definition example_attempt (_ : bytes) : Attempt :=
  relay_attempt (bs "io") (dm_sender (rt_manager example_tasks)) fixture_dns (fun _ => accepting_server) 1000
    (mkBounceTick 1000 [] []) (mkTick 1000 1 1).
Definition example_delivery : Delivery :=
  send_inner (bs "io") (dm_sender (rt_manager example_tasks)) accepting_server
    (show_socket_addr (mkSocketAddr (ipv4 192 0 2 1) 25)) (bs "u@a.example") [bs "v@b.example"] example_text.


(** A pass over the queue: with at least one delivery thread every message that is due gets
    exactly one attempt and ends as its answers determine (gone when delivered or bounced,
    rescheduled otherwise), whatever the other deliveries of the pass do, and a message that
    is not due and not a bounce of the pass stays as it is. *)
Theorem queue_pass `{SerdeSpec} dm a now d s :
  represents d s -> spool_inv d -> dm_permits dm <> 0 ->
  (forall i j, due now s i -> due now s j -> bounce_id (a i) <> j) ->
  exists d' s', manager_tick dm a now d = Some d' /\ represents d' s' /\
    (forall id q m, id <> [] -> s id = Some (q, m) -> is_due now q = true ->
       s' id = left_of q m (attempt_outcome (dm_scheduler dm) (a id) q m)) /\
    (forall id, ~ due now s id -> (forall i, due now s i -> bounce_id (a i) <> id) -> s' id = s id).
Proof.
  intros Hr Hi Hp Hb. destruct (process_queue_refines (dm_scheduler dm) (dm_bounce_gen dm) a now d s)
    as (d' & s' & He & Hrest); [done..|]. exists d', s'. split; [|done]. pose proof Hr as [Hc _].
  unfold manager_tick. destruct (spool_list_messages d Hc Hi) as (l & -> & _).
  apply Z.eqb_neq in Hp as ->. by rewrite He.
Qed.

(** C22: the deliveries of a pass run concurrently: under every schedule of their calls they end,
    never more of them run than there are permits, and when they have ended every message that
    was due has ended as the answers to its own attempt determine and has been offered to the
    servers it is offered to alone, and a message that was not due and is not a bounce of the
    pass is as it was. *)
Theorem pass_any_schedule `{SerdeSpec} dm a now d s t :
  represents d s -> spool_inv d -> 0 < dm_permits dm ->
  (forall i j, due now s i -> due now s j -> bounce_id (a i) <> j) ->
  (forall i j, due now s i -> due now s j -> i <> j -> bounce_id (a i) <> bounce_id (a j)) ->
  forall l, spool_list d = (Ok l, d) ->
  let prog id := deliver_prog (dm_scheduler dm) (dm_bounce_gen dm) (a id) id in
  steps pass_step (pass_start (Z.to_nat (dm_permits dm)) (prog <$> due_ids now l) d) t ->
  Acc (fun t2 t1 => pass_step t1 t2) t /\ Z.of_nat (running (pa_tasks t)) <= dm_permits dm /\
  ((forall t', ~ pass_step t t') ->
    Forall (fun x => x = Over) (pa_tasks t) /\
    (forall i id, due_ids now l !! i = Some id -> sent_by i (pa_sent t) = sends (prog id) d) /\
    exists s', represents (pa_disk t) s' /\
      (forall id q m, id <> [] -> s id = Some (q, m) -> is_due now q = true ->
         s' id = left_of q m (attempt_outcome (dm_scheduler dm) (a id) q m)) /\
      (forall id, ~ due now s id -> (forall i, due now s i -> bounce_id (a i) <> id) -> s' id = s id)).
Proof.
  intros Hr Hi Hp Hb Hb' l Hl prog Hrun. destruct (due_ids_listed now d s Hr Hi) as (l' & Hl' & Hnd & Hids).
  rewrite Hl in Hl'. injection Hl' as <-. pose proof Hr as [Hc _].
  destruct (any_schedule (dm_scheduler dm) (dm_bounce_gen dm) a (due_ids now l) (Z.to_nat (dm_permits dm)) d t)
    as (Hct & Hacc & Hrunning & Hend); [done| |lia|done|].
  { apply bounces_fresh; [done|..]; intros i j Hi' Hj'; [|intros Hne]; rewrite Hids in Hi', Hj'; auto. }
  split; [done|]. split; [lia|]. intros Hstuck. destruct (Hend Hstuck) as (Hover & Hf & Hsent).
  split; [done|]. split; [exact Hsent|].
  destruct (process_queue_refines (dm_scheduler dm) (dm_bounce_gen dm) a now d s Hr Hi Hb) as (d' & s' & He & [_ Hr'] & Hrest).
  exists s'. split; [|done]. split; [done|]. intros id. rewrite <- Hr'.
  unfold process_queue, io_bind in He. rewrite Hl in He. fold (due_ids now l) in He. rewrite He in Hf.
  unfold spool_get. by rewrite Hf.
Qed.

Lemma fixture_spool_inv : spool_inv fixture_disk.
Proof. apply enqueue_inv; [apply empty_spool_inv|reflexivity]. Qed.

(** The fixture has one due message; its bounce has another id. *)
Lemma fixture_due_bounce i j r :
  due 1000 fixture_store j -> bounce_id (fixture_attempt r) = j -> due 1000 fixture_store i -> False.
Proof.
  intros (q & m & _ & Hj & _) Heq _. unfold fixture_store, upd in Hj. case_bool_decide as Hid; [|done].
  subst j. by apply fixture_bounce_id in Hid.
Qed.

Lemma pass_any_schedule_witness :
  exists l, spool_list fixture_disk = (Ok l, fixture_disk) /\
  let prog id := deliver_prog fixture_scheduler (BounceGenerator_new None true) (fixture_attempt (TempFail (bs "4"))) id in
  let t := pass_start 4 (prog <$> due_ids 1000 l) fixture_disk in
  Acc (fun t2 t1 => pass_step t1 t2) t /\ Z.of_nat (running (pa_tasks t)) <= 4 /\
  ((forall t', ~ pass_step t t') ->
    Forall (fun x => x = Over) (pa_tasks t) /\
    (forall i id, due_ids 1000 l !! i = Some id -> sent_by i (pa_sent t) = sends (prog id) fixture_disk) /\
    exists s', represents (pa_disk t) s' /\
      (forall id q m, id <> [] -> fixture_store id = Some (q, m) -> is_due 1000 q = true ->
         s' id = left_of q m (attempt_outcome fixture_scheduler (fixture_attempt (TempFail (bs "4"))) q m)) /\
      (forall id, ~ due 1000 fixture_store id ->
         (forall i, due 1000 fixture_store i -> bounce_id (fixture_attempt (TempFail (bs "4"))) <> id) ->
         s' id = fixture_store id)).
Proof.
  destruct (spool_list_messages fixture_disk (proj1 fixture_disk_represents) fixture_spool_inv) as (l & Hl & _).
  exists l. split; [exact Hl|].
  apply (pass_any_schedule (mkManager fixture_scheduler (mkSender [] None) (BounceGenerator_new None true) 4)
    (fun _ => fixture_attempt (TempFail (bs "4"))) 1000 fixture_disk fixture_store _ fixture_disk_represents
    fixture_spool_inv).
  - reflexivity.
  - intros i j Hi Hj E. exact (fixture_due_bounce i j _ Hj E Hi).
  - intros i j (q & m & _ & Hi & _) (q' & m' & _ & Hj & _) Hne. unfold fixture_store, upd in Hi, Hj.
    repeat case_bool_decide; congruence.
  - exact Hl.
  - constructor.
Defined.

Lemma queue_pass_witness :
  exists d' s',
    manager_tick (mkManager fixture_scheduler (mkSender [] None) (BounceGenerator_new None true) 4)
      (fun _ => fixture_attempt (TempFail (bs "4"))) 1000 fixture_disk = Some d' /\
    represents d' s' /\
    (forall id q m, id <> [] -> fixture_store id = Some (q, m) -> is_due 1000 q = true ->
       s' id = left_of q m (attempt_outcome fixture_scheduler (fixture_attempt (TempFail (bs "4"))) q m)) /\
    (forall id, ~ due 1000 fixture_store id ->
       (forall i, due 1000 fixture_store i -> bounce_id (fixture_attempt (TempFail (bs "4"))) <> id) ->
       s' id = fixture_store id).
Proof.
  apply (queue_pass (mkManager fixture_scheduler (mkSender [] None) (BounceGenerator_new None true) 4)
    (fun _ => fixture_attempt (TempFail (bs "4"))) 1000 fixture_disk fixture_store).
  - apply (first_message_represents fixture_tick).
  - apply fixture_spool_inv.
  - discriminate.
  - intros i j _ (q & m & _ & Hj & _) Heq. unfold fixture_store, upd in Hj. case_bool_decide as Hid; [|done].
    rewrite Hid in Heq. vm_compute in Heq. discriminate.
Defined.

(** A relay with no delivery threads: the first message that is due makes the delivery
    task wait for ever, so that neither later passes nor the shutdown signal reach it, and
    the server, which waits for the task, does not stop. *)
Theorem no_threads_block `{SerdeSpec} dm a now d q m evs :
  calm d -> spool_inv d -> dm_permits dm = 0 ->
  qid q <> [] -> spool_get d (qid q) = Some (q, m) -> is_due now q = true ->
  manager_run dm (Sleep a now :: evs) d = None.
Proof.
  intros Hc Hi Hp Hid Hg Hdue. destruct (spool_list_messages d Hc Hi) as (l & Hl & _ & Hel).
  simpl. unfold manager_tick. rewrite Hl, Hp. simpl.
  assert (existsb (is_due now) l = true) as ->; [|done].
  apply existsb_exists. exists q. split; [|done]. apply list_elem_of_In, Hel. eauto.
Qed.

Lemma no_threads_block_witness :
  manager_run (mkManager fixture_scheduler (mkSender [] None) (BounceGenerator_new None true) 0)
    [Sleep (fun _ => fixture_attempt (Success [])) 1000; ShutdownSignal] fixture_disk = None.
Proof.
  apply (no_threads_block _ _ _ _ fixture_message (bs "x")).
  - reflexivity.
  - apply fixture_spool_inv.
  - reflexivity.
  - discriminate.
  - apply (first_message_represents fixture_tick).
  - reflexivity.
Defined.
