(* ===== verification/Ja3.v ===== *)
(** * TLS fingerprints: [serverwall-core/src/tls/ja3.rs]

    The parser of a ClientHello, the fingerprint of its fields, and the bytes the TLS
    listener hands to it ([serverwall-proxy/src/listener/tls_listener.rs]).

    Positions are [nat], as no [usize] sum of the parser comes near its width. A result
    has two layers: the outer [None] is a panic (an index out of range) or a loop that
    does not end within its fuel, the inner one the [None] the code returns. *)

From S2P Require Import Prelude RustStr.
Open Scope Z_scope.

(** The [md5] crate: the digest rendered with [{:x}]. *)
Class Md5 := { md5_hex : bytes -> bytes }.

Definition GREASE_VALUES : list Z :=
  [2570; 6682; 10794; 14906; 19018; 23130; 27242; 31354; 35466; 39578; 43690; 47802; 51914; 56026; 60138; 64250].

Definition is_grease (val : Z) : bool := existsb (Z.eqb val) GREASE_VALUES.

Record Ja3Params := mkJa3 {
  version : Z;
  ciphers : list Z;
  extensions : list Z;
  groups : list Z;
  point_formats : list Z;
}.

Definition ja3_string (params : Ja3Params) : bytes :=
  let field l := join (bs "-") (show <$> l) in
  show (version params) ++ bs "," ++ field (ciphers params) ++ bs "," ++ field (extensions params) ++ bs "," ++
  field (groups params) ++ bs "," ++ field (point_formats params).

Definition hash_params `{Md5} (params : Ja3Params) : bytes := md5_hex (ja3_string params).

(** [u16::from_be_bytes([l[i], l[i + 1]])]. *)
Definition u16_at (l : bytes) (i : nat) : option Z :=
  a ← l !! i; b ← l !! Datatypes.S i; Some (a * 256 + b).

(** [l.get(i..i + n)]. *)
Definition get_range (l : bytes) (i n : nat) : option bytes :=
  if (i + n <=? length l)%nat then Some (take n (drop i l)) else None.

(** The cipher suites; [steps] is the number of iterations left. *)
Fixpoint read_ciphers (steps : nat) (hello : bytes) (pos i : nat) : option (list Z) :=
  match steps with
  | O => Some []
  | Datatypes.S steps =>
      if (length hello <? pos + i + 2)%nat then Some []
      else
        c ← u16_at hello (pos + i);
        rest ← read_ciphers steps hello pos (i + 2);
        Some (if is_grease c then rest else c :: rest)
  end.

Fixpoint read_groups (fuel : nat) (ext_data : bytes) (list_len gi : nat) : option (list Z) :=
  if ((gi + 2 <=? length ext_data) && (gi <? 2 + list_len))%nat then
    match fuel with
    | O => None
    | Datatypes.S fuel =>
        g ← u16_at ext_data gi;
        rest ← read_groups fuel ext_data list_len (gi + 2);
        Some (if is_grease g then rest else g :: rest)
    end
  else Some [].

Definition read_formats (ext_data : bytes) (list_len : nat) : list Z :=
  omap (fun i => ext_data !! i) (seq 1 list_len).

(** What one extension adds to the supported groups and to the point formats. *)
Definition groups_of (ext_type : Z) (ext_data : bytes) : option (list Z) :=
  if (ext_type =? 10) && (2 <=? length ext_data)%nat then
    list_len ← u16_at ext_data 0;
    read_groups (length ext_data) ext_data (Z.to_nat list_len) 2
  else Some [].

Definition formats_of (ext_type : Z) (ext_data : bytes) : option (list Z) :=
  if (ext_type =? 11) && (1 <=? length ext_data)%nat then
    list_len ← ext_data !! 0%nat;
    Some (read_formats ext_data (Z.to_nat list_len))
  else Some [].

(** The extensions, with the groups and the point formats among them. *)
Fixpoint read_extensions (fuel : nat) (ext_block : bytes) (epos : nat) : option (list Z * list Z * list Z) :=
  if (epos + 4 <=? length ext_block)%nat then
    match fuel with
    | O => None
    | Datatypes.S fuel =>
        ext_type ← u16_at ext_block epos;
        ext_len ← u16_at ext_block (epos + 2);
        match get_range ext_block (epos + 4) (Z.to_nat ext_len) with
        | None => Some ([], [], [])
        | Some ext_data =>
            gs ← (if is_grease ext_type then Some [] else groups_of ext_type ext_data);
            ps ← (if is_grease ext_type then Some [] else formats_of ext_type ext_data);
            rest ← read_extensions fuel ext_block (epos + 4 + Z.to_nat ext_len);
            Some ((if is_grease ext_type then rest.1.1 else ext_type :: rest.1.1), gs ++ rest.1.2, ps ++ rest.2)
        end
    end
  else Some ([], [], []).

(** From the body of the ClientHello on. *)
Definition parse_hello (hello : bytes) : option (option Ja3Params) :=
  let len := length hello in
  if (len <? 2)%nat then Some None else
  version ← u16_at hello 0;
  if (len <? 34)%nat then Some None else
  if (len <? 35)%nat then Some None else
  sid_len ← hello !! 34%nat;
  let pos := (35 + Z.to_nat sid_len)%nat in
  if (len <? pos + 2)%nat then Some None else
  cs_len ← u16_at hello pos;
  let cs_len := Z.to_nat cs_len in
  let pos := (pos + 2)%nat in
  if (len <? pos + cs_len)%nat then Some None else
  ciphers ← read_ciphers ((cs_len + 1) / 2)%nat hello pos 0;
  let pos := (pos + cs_len)%nat in
  if (len <? pos + 1)%nat then Some None else
  comp_len ← hello !! pos;
  let pos := (pos + 1 + Z.to_nat comp_len)%nat in
  if (len <? pos + 2)%nat then Some (Some (mkJa3 version ciphers [] [] [])) else
  ext_total ← u16_at hello pos;
  match get_range hello (pos + 2) (Z.to_nat ext_total) with
  | None => Some None
  | Some ext_block =>
      e ← read_extensions (length ext_block) ext_block 0;
      Some (Some (mkJa3 version ciphers e.1.1 e.1.2 e.2))
  end.

Definition parse_client_hello (data : bytes) : option (option Ja3Params) :=
  if (length data <? 5)%nat then Some None else
  content_type ← data !! 0%nat;
  if negb (content_type =? 22) then Some None else
  let hs := drop 5 data in
  if (length hs <? 4)%nat then Some None else
  hs_type ← hs !! 0%nat;
  if negb (hs_type =? 1) then Some None else
  a ← hs !! 1%nat; b ← hs !! 2%nat; c ← hs !! 3%nat;
  let hs_len := Z.lor (Z.lor (Z.shiftl a 16) (Z.shiftl b 8)) c in
  match get_range hs 4 (Z.to_nat hs_len) with
  | None => Some None
  | Some hello => parse_hello hello
  end.

Definition compute_from_bytes `{Md5} (data : bytes) : option (option bytes) :=
  params ← parse_client_hello data;
  Some (option_map hash_params params).

(** What the listener computes from one look at the bytes that have arrived; [None] for
    a failed one. *)
Definition PEEK_SIZE : nat := 4096.
Definition listener_ja3 `{Md5} (arrived : option bytes) : option (option bytes) :=
  match arrived with
  | Some data => if is_nil data then Some None else compute_from_bytes (take PEEK_SIZE data)
  | None => Some None
  end.

(** ** The parser is total *)

Lemma u16_at_Some l i : (i + 2 <= length l)%nat -> is_Some (u16_at l i).
Proof.
  intros Hi. unfold u16_at. destruct (lookup_lt_is_Some_2 l i ltac:(lia)) as [a ->]. simpl.
  destruct (lookup_lt_is_Some_2 l (Datatypes.S i) ltac:(lia)) as [b ->]. by eexists.
Qed.

Lemma read_ciphers_Some steps hello pos i : is_Some (read_ciphers steps hello pos i).
Proof.
  revert i. induction steps as [|steps IH]; intros i; simpl; [by eexists|].
  destruct (Nat.ltb_spec (length hello) (pos + i + 2)); [by eexists|].
  destruct (u16_at_Some hello (pos + i) ltac:(lia)) as [c ->]. simpl.
  destruct (IH (i + 2)%nat) as [r ->]. by eexists.
Qed.

Lemma read_groups_Some fuel d n gi : (length d <= fuel + gi)%nat -> is_Some (read_groups fuel d n gi).
Proof.
  revert gi. induction fuel as [|fuel IH]; intros gi Hf; simpl.
  - rewrite (proj2 (Nat.leb_gt _ _)) by lia. by eexists.
  - destruct (_ && _) eqn:E; [|by eexists]. apply andb_true_iff in E as [E%Nat.leb_le _].
    destruct (u16_at_Some d gi E) as [g ->]. simpl. destruct (IH (gi + 2)%nat ltac:(lia)) as [r ->]. by eexists.
Qed.

Lemma groups_of_Some t d : is_Some (groups_of t d).
Proof.
  unfold groups_of. destruct (_ && _) eqn:E; [|by eexists]. apply andb_true_iff in E as [_ E%Nat.leb_le].
  destruct (u16_at_Some d 0 ltac:(lia)) as [n ->]. simpl. apply read_groups_Some. lia.
Qed.

Lemma formats_of_Some t d : is_Some (formats_of t d).
Proof.
  unfold formats_of. destruct (_ && _) eqn:E; [|by eexists]. apply andb_true_iff in E as [_ E%Nat.leb_le].
  destruct (lookup_lt_is_Some_2 d 0%nat ltac:(lia)) as [n ->]. by eexists.
Qed.

Lemma read_extensions_Some fuel b epos :
  (length b <= fuel + epos)%nat -> is_Some (read_extensions fuel b epos).
Proof.
  revert epos. induction fuel as [|fuel IH]; intros epos Hf; simpl.
  - rewrite (proj2 (Nat.leb_gt _ _)) by lia. by eexists.
  - destruct (Nat.leb_spec (epos + 4) (length b)); [|by eexists].
    destruct (u16_at_Some b epos ltac:(lia)) as [t ->]. simpl.
    destruct (u16_at_Some b (epos + 2) ltac:(lia)) as [n ->]. simpl.
    destruct (get_range b _ _) as [d|]; [|by eexists].
    destruct (IH (epos + 4 + Z.to_nat n)%nat ltac:(lia)) as [r ->].
    destruct (groups_of_Some t d) as [gs Hg], (formats_of_Some t d) as [ps Hp].
    destruct (is_grease t); rewrite ?Hg, ?Hp; by eexists.
Qed.

(** Closes one early return, or reads the next field. *)
Ltac next_field :=
  match goal with
  | |- is_Some (if (?a <? ?b)%nat then _ else _) => destruct (Nat.ltb_spec a b); [by eexists|]
  | |- is_Some (u16_at ?l ?i ≫= _) => destruct (u16_at_Some l i ltac:(lia)) as [? ->]; cbn [mbind option_bind]
  | |- is_Some (?l !! ?i ≫= _) => destruct (lookup_lt_is_Some_2 l i ltac:(lia)) as [? ->]; cbn [mbind option_bind]
  | |- is_Some (if negb ?b then _ else _) => destruct b; cbn [negb]; [|by eexists]
  end.

Lemma parse_hello_Some hello : is_Some (parse_hello hello).
Proof.
  unfold parse_hello. cbv zeta. repeat next_field.
  destruct (read_ciphers_Some ((Z.to_nat x1 + 1) / 2)%nat hello (35 + Z.to_nat x0 + 2) 0) as [cs ->].
  cbn [mbind option_bind]. repeat next_field.
  destruct (get_range hello _ _) as [b|]; [|by eexists].
  destruct (read_extensions_Some (length b) b 0 ltac:(lia)) as [e ->]. by eexists.
Qed.

Lemma parse_client_hello_Some data : is_Some (parse_client_hello data).
Proof.
  unfold parse_client_hello. cbv zeta. repeat next_field.
  destruct (get_range _ _ _) as [hello|]; [apply parse_hello_Some|by eexists].
Qed.

(** ** ClientHello messages as clients write them (RFC 8446, 4.1.2) *)

Inductive Extension :=
| Groups (gs : list Z)
| PointFormats (ps : list Z)
| OtherExtension (t : Z) (data : bytes).

Record ClientHello := mkHello {
  ch_version : Z;
  ch_random : bytes;
  ch_session : bytes;
  ch_ciphers : list Z;
  ch_compression : bytes;
  ch_extensions : option (list Extension);
}.

Definition u8_bytes (n : nat) : bytes := [Z.of_nat n].
Definition u16_bytes (z : Z) : bytes := [z / 256; z mod 256].
Definition u24_bytes (z : Z) : bytes := [z / 65536; z / 256 mod 256; z mod 256].
Definition u16_list (l : list Z) : bytes := flat_map u16_bytes l.
Definition len16 (b : bytes) : bytes := u16_bytes (Z.of_nat (length b)) ++ b.
Definition len8 (b : bytes) : bytes := u8_bytes (length b) ++ b.

Definition ext_type (e : Extension) : Z :=
  match e with Groups _ => 10 | PointFormats _ => 11 | OtherExtension t _ => t end.
Definition ext_data (e : Extension) : bytes :=
  match e with Groups gs => len16 (u16_list gs) | PointFormats ps => len8 ps | OtherExtension _ d => d end.
Definition ext_bytes (e : Extension) : bytes := u16_bytes (ext_type e) ++ len16 (ext_data e).

Definition hello_bytes (h : ClientHello) : bytes :=
  u16_bytes (ch_version h) ++ ch_random h ++ len8 (ch_session h) ++ len16 (u16_list (ch_ciphers h)) ++
  len8 (ch_compression h) ++
  match ch_extensions h with Some es => len16 (flat_map ext_bytes es) | None => [] end.

(** The handshake message in one record of protocol version 3.1. *)
Definition record_bytes (h : ClientHello) : bytes :=
  let hs := [1] ++ u24_bytes (Z.of_nat (length (hello_bytes h))) ++ hello_bytes h in
  [22; 3; 1] ++ len16 hs.

Definition is_u16 (z : Z) : Prop := 0 <= z < 65536.
Definition fits (w : Z) (b : bytes) : Prop := Z.of_nat (length b) < 2 ^ w.

Definition ext_wf (e : Extension) : Prop :=
  fits 16 (ext_data e) /\
  match e with
  | Groups gs => Forall is_u16 gs
  | PointFormats ps => fits 8 ps
  | OtherExtension t _ => is_u16 t /\ t <> 10 /\ t <> 11
  end.

Record hello_wf (h : ClientHello) : Prop := {
  wf_version : is_u16 (ch_version h);
  wf_random : length (ch_random h) = 32%nat;
  wf_session : fits 8 (ch_session h);
  wf_ciphers : Forall is_u16 (ch_ciphers h);
  wf_ciphers_len : fits 16 (u16_list (ch_ciphers h));
  wf_compression : fits 8 (ch_compression h);
  wf_extensions : match ch_extensions h with
                  | Some es => Forall ext_wf es /\ fits 16 (flat_map ext_bytes es)
                  | None => True
                  end;
  wf_length : fits 24 (hello_bytes h);
}.

Definition not_grease (l : list Z) : list Z := List.filter (fun v => negb (is_grease v)) l.

(** The fields the fingerprint is made of. *)
Definition hello_params (h : ClientHello) : Ja3Params :=
  let es := unwrap_or [] (ch_extensions h) in
  mkJa3 (ch_version h) (not_grease (ch_ciphers h)) (not_grease (ext_type <$> es))
    (flat_map (fun e => match e with Groups gs => not_grease gs | _ => [] end) es)
    (flat_map (fun e => match e with PointFormats ps => ps | _ => [] end) es).

(** ** Reading back what was written *)

Lemma u16_bytes_val z : is_u16 z -> z / 256 * 256 + z mod 256 = z.
Proof. intros. pose proof (Z.div_mod z 256). lia. Qed.

Lemma lookup_at {A} (pre : list A) x post i : i = length pre -> (pre ++ x :: post) !! i = Some x.
Proof. intros ->. by apply list_lookup_middle. Qed.

Lemma u16_at_here pre z post i : is_u16 z -> i = length pre -> u16_at (pre ++ u16_bytes z ++ post) i = Some z.
Proof.
  intros Hz ->. unfold u16_at, u16_bytes. cbn [app]. rewrite (lookup_at pre (z / 256) _ (length pre)) by done. cbn [mbind option_bind].
  rewrite (cons_middle (z / 256)), app_assoc, lookup_at by (rewrite length_app; simpl; lia). cbn [mbind option_bind].
  by rewrite u16_bytes_val.
Qed.

Lemma get_range_here pre b post i n :
  i = length pre -> n = length b -> get_range (pre ++ b ++ post) i n = Some b.
Proof.
  intros -> ->. unfold get_range. rewrite !length_app, (proj2 (Nat.leb_le _ _)) by lia.
  by rewrite drop_app_length, take_app_length.
Qed.

Lemma length_u16_list l : length (u16_list l) = (2 * length l)%nat.
Proof. unfold u16_list. induction l as [|x l IH]; simpl; [done|]. rewrite IH. lia. Qed.

Lemma read_ciphers_here cs pre post pos i :
  Forall is_u16 cs -> (pos + i)%nat = length pre ->
  read_ciphers (length cs) (pre ++ u16_list cs ++ post) pos i = Some (not_grease cs).
Proof.
  revert pre i. induction cs as [|c cs IH]; intros pre i Hc Hp; [done|]. inv Hc. cbn [length read_ciphers].
  change (u16_list (c :: cs)) with (u16_bytes c ++ u16_list cs).
  rewrite (proj2 (Nat.ltb_ge _ _)) by (rewrite !length_app; simpl; lia). rewrite <- app_assoc, u16_at_here by done.
  cbn [mbind option_bind]. rewrite app_assoc, IH by (try done; rewrite length_app; simpl; lia). simpl.
  by destruct (is_grease c).
Qed.

Lemma read_groups_here gs pre fuel n gi :
  Forall is_u16 gs -> gi = length pre -> (length gs <= fuel)%nat -> (gi + 2 * length gs = 2 + n)%nat ->
  read_groups fuel (pre ++ u16_list gs) n gi = Some (not_grease gs).
Proof.
  revert pre fuel gi. induction gs as [|g gs IH]; intros pre fuel gi Hg -> Hf Hn.
  - change (u16_list []) with (@nil Z). rewrite app_nil_r. simpl in Hn. destruct fuel; simpl; by rewrite (proj2 (Nat.leb_gt _ _)) by lia.
  - inv Hg. simpl in Hf, Hn. destruct fuel as [|fuel]; [lia|]. cbn [read_groups].
    change (u16_list (g :: gs)) with (u16_bytes g ++ u16_list gs).
    rewrite (proj2 (Nat.leb_le _ _)), (proj2 (Nat.ltb_lt _ _)) by (rewrite ?length_app; simpl; lia). cbn [andb]. rewrite u16_at_here by done.
    cbn [mbind option_bind]. rewrite app_assoc, IH by (try done; rewrite ?length_app; simpl; lia). simpl.
    by destruct (is_grease g).
Qed.

Lemma omap_lookup_seq {A} (pre l : list A) :
  omap (fun i => (pre ++ l) !! i) (seq (length pre) (length l)) = l.
Proof.
  revert pre. induction l as [|x l IH]; intros pre; [done|]. cbn [length seq omap list_omap].
  rewrite lookup_at by done. f_equal. rewrite cons_middle, app_assoc. specialize (IH (pre ++ [x])).
  rewrite length_app, Nat.add_comm in IH. exact IH.
Qed.

Lemma groups_of_ext e : ext_wf e ->
  groups_of (ext_type e) (ext_data e) = Some (match e with Groups gs => not_grease gs | _ => [] end).
Proof.
  intros [Hf He]. unfold groups_of. destruct e as [gs|ps|t d]; cbn [ext_type ext_data] in *.
  - unfold fits, len16 in Hf. rewrite length_app in Hf. cbn [length u16_bytes] in Hf.
    unfold len16. rewrite length_app. cbn [length u16_bytes]. rewrite (proj2 (Nat.leb_le _ _)) by lia. cbn [Z.eqb andb].
    rewrite <- (app_nil_l (u16_bytes _ ++ _)), u16_at_here by (done || (unfold is_u16; lia)).
    cbn [mbind option_bind app]. rewrite Nat2Z.id. apply (read_groups_here gs (u16_bytes _)); [done|done|..].
    all: rewrite ?length_u16_list; simpl; lia.
  - done.
  - rewrite (proj2 (Z.eqb_neq t 10)) by tauto. done.
Qed.

Lemma formats_of_ext e : ext_wf e ->
  formats_of (ext_type e) (ext_data e) = Some (match e with PointFormats ps => ps | _ => [] end).
Proof.
  intros [Hf He]. unfold formats_of. destruct e as [gs|ps|t d]; cbn [ext_type ext_data] in *; [done| |].
  - unfold len8, u8_bytes. cbn [Z.eqb andb length app]. simpl. rewrite Nat2Z.id.
    f_equal. exact (omap_lookup_seq [Z.of_nat (length ps)] ps).
  - rewrite (proj2 (Z.eqb_neq t 11)) by tauto. done.
Qed.

Lemma length_ext_bytes e : length (ext_bytes e) = (4 + length (ext_data e))%nat.
Proof. done. Qed.

Lemma ext_bytes_app e rest : ext_bytes e ++ rest =
  u16_bytes (ext_type e) ++ u16_bytes (Z.of_nat (length (ext_data e))) ++ ext_data e ++ rest.
Proof. unfold ext_bytes, len16. by rewrite <- !app_assoc. Qed.

Lemma grease_ext e : is_grease (ext_type e) = true ->
  match e with Groups _ | PointFormats _ => False | _ => True end.
Proof. by destruct e. Qed.

Lemma not_grease_cons x l : not_grease (x :: l) = if is_grease x then not_grease l else x :: not_grease l.
Proof. unfold not_grease. simpl. by destruct (is_grease x). Qed.

Lemma read_extensions_here es pre fuel :
  Forall ext_wf es -> (length es <= fuel)%nat ->
  read_extensions fuel (pre ++ flat_map ext_bytes es) (length pre) =
  Some (not_grease (ext_type <$> es),
        flat_map (fun e => match e with Groups gs => not_grease gs | _ => [] end) es,
        flat_map (fun e => match e with PointFormats ps => ps | _ => [] end) es).
Proof.
  revert pre fuel. induction es as [|e es IH]; intros pre fuel He Hf.
  { cbn [flat_map]. rewrite app_nil_r. destruct fuel; simpl; by rewrite (proj2 (Nat.leb_gt _ _)) by lia. }
  inv He. simpl in Hf. destruct fuel as [|fuel]; [lia|]. cbn [read_extensions flat_map].
  rewrite (proj2 (Nat.leb_le _ _)) by (rewrite !length_app, length_ext_bytes; lia).
  assert (Ht : is_u16 (ext_type e)) by (unfold is_u16; destruct e as [| |t d]; simpl; try lia; by destruct H1 as [_ [? _]]).
  assert (Hl : is_u16 (Z.of_nat (length (ext_data e)))) by (destruct H1 as [Hd _]; unfold fits in Hd; unfold is_u16; lia).
  rewrite (ext_bytes_app e), (u16_at_here pre (ext_type e) _ (length pre)) by done. cbn [mbind option_bind].
  rewrite (app_assoc pre), (u16_at_here (pre ++ _) _ _ (length pre + 2)) by (try done; rewrite length_app; simpl; lia).
  cbn [mbind option_bind].
  rewrite (app_assoc (pre ++ _)), get_range_here by (rewrite ?length_app; simpl; lia).
  rewrite groups_of_ext, formats_of_ext by done.
  rewrite (app_assoc (_ ++ _) (ext_data e)).
  replace (length pre + 4 + Z.to_nat (Z.of_nat (length (ext_data e))))%nat
    with (length (((pre ++ u16_bytes (ext_type e)) ++ u16_bytes (Z.of_nat (length (ext_data e)))) ++ ext_data e))
    by (rewrite !length_app; simpl; lia).
  rewrite IH by (done || lia). cbn [fmap list_fmap]. rewrite not_grease_cons.
  destruct (is_grease (ext_type e)) eqn:Eg; cbn [mbind option_bind]; [|done].
  apply grease_ext in Eg. by destruct e.
Qed.

(** The fields before the extensions. *)
Definition upto_session (h : ClientHello) : bytes := u16_bytes (ch_version h) ++ ch_random h.
Definition upto_ciphers (h : ClientHello) : bytes := upto_session h ++ len8 (ch_session h).
Definition upto_compression (h : ClientHello) : bytes := upto_ciphers h ++ len16 (u16_list (ch_ciphers h)).
Definition upto_extensions (h : ClientHello) : bytes := upto_compression h ++ len8 (ch_compression h).
Definition ext_tail (h : ClientHello) : bytes :=
  match ch_extensions h with Some es => len16 (flat_map ext_bytes es) | None => [] end.

Lemma hello_bytes_parts h :
  hello_bytes h = u16_bytes (ch_version h) ++ drop 2 (hello_bytes h) /\
  hello_bytes h = upto_session h ++ Z.of_nat (length (ch_session h)) :: ch_session h ++ drop (length (upto_ciphers h)) (hello_bytes h) /\
  hello_bytes h = upto_ciphers h ++ u16_bytes (Z.of_nat (length (u16_list (ch_ciphers h)))) ++
    u16_list (ch_ciphers h) ++ len8 (ch_compression h) ++ ext_tail h /\
  hello_bytes h = upto_compression h ++ Z.of_nat (length (ch_compression h)) :: ch_compression h ++ ext_tail h /\
  hello_bytes h = upto_extensions h ++ ext_tail h.
Proof.
  assert (E : hello_bytes h = upto_ciphers h ++ len16 (u16_list (ch_ciphers h)) ++ len8 (ch_compression h) ++ ext_tail h).
  { unfold hello_bytes, upto_ciphers, upto_session, ext_tail. by rewrite <- !app_assoc. }
  split_and!.
  - done.
  - rewrite E at 2. rewrite drop_app_length. rewrite E. unfold upto_ciphers, len8 at 1, u8_bytes at 1. by rewrite <- !app_assoc.
  - rewrite E. unfold len16. by rewrite <- !app_assoc.
  - rewrite E. unfold upto_compression, len8, u8_bytes. by rewrite <- !app_assoc.
  - rewrite E. unfold upto_extensions, upto_compression. by rewrite <- !app_assoc.
Qed.

Lemma length_upto h : length (ch_random h) = 32%nat ->
  length (upto_session h) = 34%nat /\ length (upto_ciphers h) = (35 + length (ch_session h))%nat /\
  length (upto_compression h) = (37 + length (ch_session h) + length (u16_list (ch_ciphers h)))%nat /\
  length (upto_extensions h) =
    (38 + length (ch_session h) + length (u16_list (ch_ciphers h)) + length (ch_compression h))%nat.
Proof.
  intros Hr. unfold upto_extensions, upto_compression, upto_ciphers, upto_session, len16, len8, u8_bytes.
  rewrite !length_app, Hr. simpl. lia.
Qed.

Lemma parse_hello_here h : hello_wf h -> parse_hello (hello_bytes h) = Some (Some (hello_params h)).
Proof.
  intros [Hv Hr Hs Hc Hcl Hcm He _]. destruct (hello_bytes_parts h) as (P0 & P1 & P2 & P3 & P4).
  destruct (length_upto h Hr) as (L1 & L2 & L3 & L4).
  assert (Hlen : length (hello_bytes h) = (length (upto_extensions h) + length (ext_tail h))%nat)
    by (by rewrite P4, length_app).
  unfold parse_hello. cbv zeta. rewrite Hlen, L4.
  rewrite !(proj2 (Nat.ltb_ge _ 2)), !(proj2 (Nat.ltb_ge _ 34)), !(proj2 (Nat.ltb_ge _ 35)) by lia.
  assert (R0 : u16_at (hello_bytes h) 0 = Some (ch_version h)) by (rewrite P0; by apply (u16_at_here [])).
  assert (R1 : hello_bytes h !! 34%nat = Some (Z.of_nat (length (ch_session h)))) by (rewrite P1; by apply lookup_at).
  rewrite R0, R1. cbn [mbind option_bind]. rewrite Nat2Z.id, (proj2 (Nat.ltb_ge _ _)) by lia.
  assert (R2 : u16_at (hello_bytes h) (35 + length (ch_session h)) = Some (Z.of_nat (length (u16_list (ch_ciphers h))))).
  { rewrite P2. apply u16_at_here; [|done]. unfold fits in Hcl. unfold is_u16. lia. }
  rewrite R2. cbn [mbind option_bind]. rewrite Nat2Z.id, (proj2 (Nat.ltb_ge _ _)) by lia.
  assert (R3 : read_ciphers ((length (u16_list (ch_ciphers h)) + 1) / 2) (hello_bytes h)
    (35 + length (ch_session h) + 2) 0 = Some (not_grease (ch_ciphers h))).
  { rewrite length_u16_list, P2, app_assoc, Nat.mul_comm, Nat.div_add_l by lia. rewrite Nat.add_0_r.
    apply read_ciphers_here; [done|]. rewrite length_app, L2. simpl. lia. }
  rewrite R3. cbn [mbind option_bind]. rewrite (proj2 (Nat.ltb_ge _ _)) by lia.
  assert (R4 : hello_bytes h !! (35 + length (ch_session h) + 2 + length (u16_list (ch_ciphers h)))%nat =
    Some (Z.of_nat (length (ch_compression h)))) by (rewrite P3; apply lookup_at; lia).
  rewrite R4. cbn [mbind option_bind]. rewrite Nat2Z.id.
  unfold hello_params. destruct (ch_extensions h) as [es|] eqn:Ee; unfold ext_tail in *; rewrite Ee in *.
  2: { rewrite (proj2 (Nat.ltb_lt _ _)) by (simpl; lia). done. }
  destruct He as [He Hf]. unfold len16 in P4 |- * at 1. rewrite length_app. cbn [length u16_bytes].
  rewrite (proj2 (Nat.ltb_ge _ _)) by lia. assert (R5 : is_u16 (Z.of_nat (length (flat_map ext_bytes es)))) by (unfold fits in Hf; unfold is_u16; lia).
  assert (R6 : get_range (upto_extensions h ++ u16_bytes (Z.of_nat (length (flat_map ext_bytes es))) ++
      flat_map ext_bytes es) (length (upto_extensions h) + 2) (length (flat_map ext_bytes es)) = Some (flat_map ext_bytes es)).
  { rewrite app_assoc, <- (app_nil_r (_ ++ flat_map _ _)), <- app_assoc.
    apply get_range_here; [by rewrite length_app|done]. }
  rewrite P4. replace (35 + _ + 2 + _ + 1 + _)%nat with (length (upto_extensions h)) by lia.
  rewrite u16_at_here by done. cbn [mbind option_bind]. rewrite Nat2Z.id, R6.
  rewrite (read_extensions_here es []) ; [done|done|].
  clear. induction es as [|e es IH]; simpl; [lia|]. rewrite length_app. simpl. lia.
Qed.

Lemma u24_val z : 0 <= z < 2 ^ 24 ->
  Z.lor (Z.lor (Z.shiftl (z / 65536) 16) (Z.shiftl (z / 256 mod 256) 8)) (z mod 256) = z.
Proof.
  intros Hz. pose proof (Z.mod_pos_bound z 256 ltac:(lia)). pose proof (Z.mod_pos_bound (z / 256) 256 ltac:(lia)).
  pose proof (Z.div_mod z 256 ltac:(lia)). pose proof (Z.div_mod (z / 256) 256 ltac:(lia)).
  rewrite Z.div_div in * by lia. change (256 * 256) with 65536 in *.
  rewrite (lor_shiftl _ 16) by (rewrite ?Z.shiftl_mul_pow2; lia). rewrite Z.shiftl_mul_pow2 by lia.
  replace (z / 65536 * 2 ^ 16 + z / 256 mod 256 * 2 ^ 8) with (Z.shiftl (z / 256) 8)
    by (rewrite Z.shiftl_mul_pow2; lia).
  rewrite lor_shiftl by lia. lia.
Qed.

Lemma parse_record h rest : hello_wf h ->
  parse_client_hello (record_bytes h ++ rest) = Some (Some (hello_params h)).
Proof.
  intros Hwf. pose proof (wf_length _ Hwf) as Hl. unfold fits in Hl.
  unfold parse_client_hello, record_bytes, len16. cbv zeta. rewrite <- !app_assoc.
  cbn [app u16_bytes u24_bytes length Nat.ltb Nat.leb drop lookup list_lookup mbind option_bind Z.eqb negb Pos.eqb].
  rewrite u24_val, Nat2Z.id by lia.
  set (n := Z.of_nat (length (hello_bytes h))).
  change (1 :: n / 65536 :: n / 256 mod 256 :: n mod 256 :: hello_bytes h ++ rest)
    with ([1; n / 65536; n / 256 mod 256; n mod 256] ++ hello_bytes h ++ rest).
  rewrite get_range_here by done. by apply parse_hello_here.
Qed.

(** A part of a record gives no fingerprint. *)
Lemma parse_prefix h n : hello_wf h -> (n < length (record_bytes h))%nat ->
  parse_client_hello (take n (record_bytes h)) = Some None.
Proof.
  intros Hwf Hn. pose proof (wf_length _ Hwf) as Hl. unfold fits in Hl.
  unfold parse_client_hello. cbv zeta. destruct (Nat.ltb_spec (length (take n (record_bytes h))) 5); [done|].
  rewrite length_take in *. unfold record_bytes, len16 in *. rewrite !length_app in Hn.
  cbn [app u16_bytes u24_bytes length] in *. do 5 (destruct n as [|n]; [lia|]).
  cbn [take firstn drop lookup list_lookup mbind option_bind Z.eqb negb Pos.eqb].
  rewrite !drop_0. match goal with |- context [(?a <? 4)%nat] => destruct (Nat.ltb_spec a 4) end;
    [done|]. rewrite length_take in *. do 4 (destruct n as [|n]; [lia|]).
  cbn [take firstn lookup list_lookup mbind option_bind Z.eqb negb Pos.eqb].
  rewrite u24_val, Nat2Z.id by lia. unfold get_range. cbn [length].
  rewrite length_take, (proj2 (Nat.leb_gt _ _)) by lia. done.
Qed.

(** ** The fingerprinted text *)

Definition params_nonneg (q : Ja3Params) : Prop :=
  0 <= version q /\ Forall (Z.le 0) (ciphers q) /\ Forall (Z.le 0) (extensions q) /\
  Forall (Z.le 0) (groups q) /\ Forall (Z.le 0) (point_formats q).

Lemma not_digit_comma : ~ is_digit 44.
Proof. unfold is_digit. lia. Qed.
Lemma not_digit_dash : ~ is_digit 45.
Proof. unfold is_digit. lia. Qed.

Lemma field_no_comma l : Forall (Z.le 0) l -> 44 ∉ join [45] (show <$> l).
Proof.
  intros Hl. apply not_elem_of_join; [set_solver|]. apply Forall_fmap. eapply Forall_impl; [done|].
  intros z Hz. apply show_not_elem; [done|apply not_digit_comma].
Qed.

Lemma split_ja3_string q : params_nonneg q ->
  split (ja3_string q) 44 =
  [show (version q); join [45] (show <$> ciphers q); join [45] (show <$> extensions q);
   join [45] (show <$> groups q); join [45] (show <$> point_formats q)].
Proof.
  intros (Hv & Hc & He & Hg & Hp). unfold ja3_string. cbv zeta. change (bs ",") with [44]. change (bs "-") with [45].
  cbn [app]. pose proof (show_not_elem 44 (version q) Hv not_digit_comma).
  rewrite !split_app by auto using field_no_comma. rewrite split_none by auto using field_no_comma. done.
Qed.

Definition example_hello : ClientHello :=
  mkHello 771 (replicate 32 7) [1; 2] [2570; 4865; 49195] [0]
    (Some [OtherExtension 2570 []; OtherExtension 0 [1; 2; 3]; Groups [6682; 29; 23]; PointFormats [0]]).

Lemma example_hello_wf : hello_wf example_hello.
Proof.
  constructor; try (vm_compute; reflexivity).
  - unfold is_u16. simpl. lia.
  - unfold is_u16. repeat constructor; lia.
  - split; [|vm_compute; reflexivity].
    repeat apply Forall_cons_2; try apply Forall_nil_2; (split; [vm_compute; reflexivity|]).
    all: unfold is_u16, fits; repeat constructor; simpl; lia.
Qed.

(** ** Properties *)

(** The parser never panics and always returns: whatever bytes a client sends, every
    index it reads is in range and each loop ends. *)
Theorem ja3_total `{Md5} data : is_Some (compute_from_bytes data).
Proof.
  unfold compute_from_bytes. destruct (parse_client_hello_Some data) as [r ->]. by eexists.
Qed.

(** C31: fingerprints read what clients write: of every well-formed ClientHello, followed
    by anything, the parser returns the version and the offered ciphers, extensions,
    groups and point formats in their order, without the GREASE values. *)
Theorem client_hello_parsed h rest :
  hello_wf h -> parse_client_hello (record_bytes h ++ rest) = Some (Some (hello_params h)).
Proof. apply parse_record. Qed.

Lemma client_hello_parsed_witness :
  parse_client_hello (record_bytes example_hello ++ [23]) =
  Some (Some (mkJa3 771 [4865; 49195] [0; 10; 11] [29; 23] [0])).
Proof. exact (client_hello_parsed example_hello [23] example_hello_wf). Defined.

(** The fingerprinted text determines the fields: two clients whose texts are equal
    offered the same version, ciphers, extensions, groups and point formats, so that
    fingerprints collide only where the digest does. *)
Theorem ja3_string_injective q q' :
  params_nonneg q -> params_nonneg q' -> ja3_string q = ja3_string q' -> q = q'.
Proof.
  intros Hq Hq' Heq. pose proof (split_ja3_string q Hq) as E. rewrite Heq, split_ja3_string in E by done.
  injection E as E1 E2 E3 E4 E5. destruct q, q', Hq as (? & ? & ? & ? & ?), Hq' as (? & ? & ? & ? & ?). simpl in *.
  f_equal; [by apply show_inj|..]; symmetry in E2, E3, E4, E5; by eapply (show_join_inj 45); [apply not_digit_dash|..].
Qed.

Lemma ja3_string_injective_witness :
  hello_params example_hello = mkJa3 771 [4865; 49195] [0; 10; 11] [29; 23] [0].
Proof.
  apply (ja3_string_injective (hello_params example_hello) (mkJa3 771 [4865; 49195] [0; 10; 11] [29; 23] [0])).
  - vm_compute. repeat constructor; discriminate.
  - vm_compute. repeat constructor; discriminate.
  - vm_compute. reflexivity.
Defined.

(** A client that splits its ClientHello is not fingerprinted: when only a part of
    the record has arrived at the one look the listener takes, or the record is longer
    than the listener looks, there is no fingerprint to hold against the block list. *)
Theorem split_hello_not_fingerprinted `{Md5} h n :
  hello_wf h -> (Nat.min n PEEK_SIZE < length (record_bytes h))%nat ->
  listener_ja3 (Some (take n (record_bytes h))) = Some None.
Proof.
  intros Hwf Hn. unfold listener_ja3. case_if; [done|]. rewrite take_take. unfold compute_from_bytes.
  by rewrite parse_prefix by (done || lia).
Qed.

Lemma split_hello_not_fingerprinted_witness :
  @listener_ja3 {| md5_hex := fun b => b |} (Some (take 1 (record_bytes example_hello))) = Some None.
Proof. apply split_hello_not_fingerprinted; [exact example_hello_wf|vm_compute; lia]. Defined.
