(* ===== verification/Proto.v ===== *)
(** * Line protocols: [serverwall-core/src/proto/http.rs], [imap.rs], [stratum.rs]

    The header helpers, the IMAP command parser and the Stratum messages; JSON text is
    read by a parameter, its values are an inductive type. *)

From S2P Require Import Prelude RustStr Float64 Net WafRules WafMatcher.
Open Scope Z_scope.

(** ** [http.rs] *)

Definition hm_remove (m : hmap) (k : bytes) : hmap := List.filter (fun kv => negb (bool_decide (kv.1 = k))) m.

Definition inject_proxy_headers (headers : hmap) (client_ip : IpAddr) (host : option bytes) : hmap :=
  let headers := hm_insert headers (bs "X-Forwarded-For") (show_ip client_ip) in
  let headers := hm_insert headers (bs "X-Forwarded-Proto") (bs "https") in
  match host with Some h => hm_insert headers (bs "X-Forwarded-Host") h | None => headers end.

Definition get_host (headers : hmap) : option bytes :=
  match hm_get headers (bs "Host") with Some h => Some h | None => hm_get headers (bs "host") end.

Definition hop_headers : list bytes :=
  [bs "Connection"; bs "Keep-Alive"; bs "Proxy-Authenticate"; bs "Proxy-Authorization"; bs "TE"; bs "Trailers";
   bs "Transfer-Encoding"; bs "Upgrade"].

Definition strip_hop_by_hop `{Unicode} (headers : hmap) : hmap :=
  fold_left (fun m h => hm_remove (hm_remove m (to_lowercase h)) h) hop_headers headers.

Definition via_header (protocol_version proxy_name : bytes) : bytes := protocol_version ++ bs " " ++ proxy_name.

(** ** [imap.rs] *)

Record ImapCommand := mkImapCommand { ic_tag : bytes; ic_command : bytes; ic_args : bytes }.

Record ImapResponse := mkImapResponse { ir_tag : bytes; ir_status : bytes; ir_text : bytes }.

Definition imap_ok (tag text : bytes) : ImapResponse := mkImapResponse tag (bs "OK") text.
Definition imap_untagged (text : bytes) : ImapResponse := mkImapResponse (bs "*") [] text.

Definition imap_to_bytes (r : ImapResponse) : bytes :=
  if is_nil (ir_status r) then ir_tag r ++ bs " " ++ ir_text r ++ CRLF
  else ir_tag r ++ bs " " ++ ir_status r ++ bs " " ++ ir_text r ++ CRLF.

Definition imap_parse_command `{Unicode} (line : bytes) : option ImapCommand :=
  match splitn 3 (trim line) 32 with
  | [tag; command] => Some (mkImapCommand tag (to_uppercase command) [])
  | [tag; command; args] => Some (mkImapCommand tag (to_uppercase command) args)
  | _ => None
  end.

Definition is_capability_line (line : bytes) : bool := starts_with (trim line) (bs "* CAPABILITY").

Definition build_id_command (tag proxy_name : bytes) : bytes :=
  tag ++ bs " ID (" ++ [34] ++ bs "name" ++ [34; 32; 34] ++ proxy_name ++ [34] ++ bs ")" ++ CRLF.

(** ** [stratum.rs] *)

#[local] Set Warnings "-register-all".

(** A JSON value; a number is known by what [as_u64] makes of it. *)
Inductive json :=
| JNull
| JBool (b : bool)
| JNumber (n : Z) (* a number that is a [u64] *)
| JFloat (x : f64) (* any other number, as [as_f64] gives it *)
| JString (s : bytes)
| JArray (l : list json)
| JObject (fields : list (bytes * json)).

(** [serde_json::from_str]. *)
Class JsonLib := { json_from_str : bytes -> option json }.

Definition json_get (fields : list (bytes * json)) (k : bytes) : option json :=
  snd <$> List.find (fun f => bool_decide (f.1 = k)) fields.

Record StratumMessage := mkStratum {
  sm_id : option json;
  sm_method : option bytes;
  sm_params : option json;
  sm_result : option json;
  sm_error : option json;
}.

Definition as_str (v : json) : option bytes := match v with JString s => Some s | _ => None end.

Definition parse_line `{JsonLib} (line : bytes) : option StratumMessage :=
  v ← json_from_str (trim line);
  match v with
  | JObject obj =>
      Some (mkStratum (json_get obj (bs "id")) (json_get obj (bs "method") ≫= as_str) (json_get obj (bs "params"))
              (json_get obj (bs "result")) (json_get obj (bs "error")))
  | _ => None
  end.

Definition is_null (v : json) : bool := match v with JNull => true | _ => false end.
Definition as_u64 (v : json) : option Z := match v with JNumber n => Some n | _ => None end.

Definition is_success_response (msg : StratumMessage) (expected_id : Z) : bool :=
  bool_decide (sm_id msg ≫= as_u64 = Some expected_id) &&
  match sm_result msg with Some v => negb (is_null v) | None => false end &&
  match sm_error msg with Some v => is_null v | None => true end.

Definition extract_worker (msg : StratumMessage) : option bytes :=
  match sm_params msg with
  | Some (JArray (p :: _)) => as_str p
  | _ => None
  end.
