(* ===== verification/Health.v ===== *)
(** * Health checks: [serverwall-core/src/health/checker.rs], [state.rs]

    One probe of a backend for each protocol, and the rounds of probes that set the flag
    the load balancers read. What a backend answers within the timeout is an argument. *)

From S2P Require Import Prelude RustStr Schema Net Balancer WafRules WafMatcher Proto.
Open Scope Z_scope.

(** ** [state.rs] *)

Inductive BackendHealth := Healthy | Suspect | Down.

Definition health_is_available (h : BackendHealth) : bool := match h with Healthy => true | _ => false end.
Definition show_health (h : BackendHealth) : bytes :=
  match h with Healthy => bs "healthy" | Suspect => bs "suspect" | Down => bs "down" end.

(** ** [checker.rs] *)

Record HealthChecker := mkChecker {
  hc_check_type : HealthCheckType;
  hc_interval : Z;
  hc_timeout : Z;
  hc_check_path : option bytes;
  hc_expected_status : Z;
  hc_tls : bool;
  hc_ignore_cert : bool;
  hc_method : bytes;
}.

(** Durations in milliseconds; the product of the minutes wraps in a release build. *)
Definition parse_duration (s : bytes) : Z :=
  let s := trim s in
  match strip_suffix s (bs "ms") with
  | Some num => unwrap_or 10000 (parse_uint 64 10 num)
  | None =>
      match strip_suffix s (bs "s") with
      | Some num => unwrap_or 10 (parse_uint 64 10 num) * 1000
      | None =>
          match strip_suffix s (bs "m") with
          | Some num => (unwrap_or 1 (parse_uint 64 10 num) * 60) mod 2 ^ 64 * 1000
          | None => unwrap_or 10 (parse_uint 64 10 s) * 1000
          end
      end
  end.

Definition HealthChecker_new (config : BackendPoolConfig) : HealthChecker :=
  mkChecker (health_check_type config) (parse_duration (health_check_interval config))
    (parse_duration (health_check_timeout config)) (health_check_path config) (health_check_expect config)
    (health_check_tls config) (health_check_ignore_cert config) (health_check_method config).

(** One connection to a backend: it is not made in time, it fails, or the first read gives
    these bytes (none when the peer closed). *)
Inductive Attempt := TimedOut | Failed | Received (data : bytes).

(** How a connection is made, and what is written before the read. *)
Inductive Transport := Plain | TlsChecked | TlsUnchecked.
Definition Network : Type := SocketAddr -> Transport -> bytes -> Attempt.

Definition tls_connect (ignore_cert : bool) : Transport := if ignore_cert then TlsUnchecked else TlsChecked.

Section Checks.
Context `{JsonLib} (hc : HealthChecker) (net : Network).

Definition transport : Transport := if hc_tls hc then tls_connect (hc_ignore_cert hc) else Plain.

(** A read into a buffer of [n] bytes. *)
Definition read_into (n : nat) (a : Attempt) (ok : bytes -> bool) : bool :=
  match a with Received data => ok (take n data) | _ => false end.

(** Only the connection counts, so nothing is written and what could be read is not. *)
Definition check_tcp (b : Backend) : bool :=
  match net (b_address b) Plain [] with Received _ => true | _ => false end.

Definition http_request (b : Backend) : bytes :=
  hc_method hc ++ bs " " ++ unwrap_or (bs "/") (hc_check_path hc) ++ bs " HTTP/1.1" ++ CRLF ++
  bs "Host: " ++ show_ip (sa_ip (b_address b)) ++ CRLF ++ bs "Connection: close" ++ CRLF ++ CRLF.

Definition parse_status (expected : Z) (buf : bytes) : bool :=
  match lines (from_utf8_lossy buf) with
  | status_line :: _ =>
      match split_whitespace status_line with
      | _ :: code :: _ => match parse_uint 16 10 code with Some code => code =? expected | None => false end
      | _ => false
      end
  | [] => false
  end.

Definition check_http (b : Backend) : bool :=
  read_into 1024 (net (b_address b) transport (http_request b)) (parse_status (hc_expected_status hc)).

Definition check_banner (prefix : bytes) (b : Backend) : bool :=
  read_into 512 (net (b_address b) transport []) (fun buf => starts_with (from_utf8_lossy buf) prefix).

Definition check_smtp : Backend -> bool := check_banner (bs "220").
Definition check_imap : Backend -> bool := check_banner (bs "* OK").

Definition stratum_request : bytes :=
  bs "{" ++ [34] ++ bs "id" ++ [34] ++ bs ":1," ++ [34] ++ bs "method" ++ [34] ++ bs ":" ++ [34] ++
  bs "mining.subscribe" ++ [34] ++ bs "," ++ [34] ++ bs "params" ++ [34] ++ bs ":[" ++ [34] ++
  bs "serverwall-healthcheck/1.0" ++ [34] ++ bs ",null]}" ++ [LF].

(** The bytes received are those up to the first line feed, or all there were; a line that
    is not UTF-8 is an error. *)
Definition check_stratum (b : Backend) : bool :=
  match net (b_address b) Plain stratum_request with
  | Received line =>
      if is_nil line then false
      else if utf8_valid line
      then match parse_line line with Some msg => is_success_response msg 1 | None => false end
      else false
  | _ => false
  end.

Definition check_backend (b : Backend) : bool :=
  match hc_check_type hc with
  | CheckTcp => check_tcp b
  | CheckHttp => check_http b
  | CheckSmtp => check_smtp b
  | CheckImap => check_imap b
  | CheckStratum => check_stratum b
  end.

(** One tick of [run]: every backend is probed and its flag replaced. *)
Definition health_tick (backends : list Backend) : list Backend :=
  (fun b => set_healthy (check_backend b) b) <$> backends.
End Checks.

(** [run]: the ticks that happen before the shutdown, each in the network of its moment;
    [None] is the panic of [tokio::time::interval] on a zero period. *)
Definition health_run `{JsonLib} (hc : HealthChecker) (ticks : list Network) (backends : list Backend)
  : option (list Backend) :=
  if hc_interval hc =? 0 then None
  else Some (fold_left (fun l net => health_tick hc net l) ticks backends).

(** ** Lemmas *)

Lemma health_tick_lookup `{JsonLib} hc net pool i :
  health_tick hc net pool !! i = (fun b => set_healthy (check_backend hc net b) b) <$> pool !! i.
Proof. apply list_lookup_fmap. Qed.

(** Availability after a tick. *)
Lemma is_available_set_healthy v b :
  is_available (set_healthy v b) = b_enabled b && v &&
    match b_max_connections b with Some max => b_active_connections b <? max | None => true end.
Proof. done. Qed.

Definition below_limit (b : Backend) : Prop :=
  forall max, b_max_connections b = Some max -> b_active_connections b < max.

Lemma available_after_check `{JsonLib} hc net b :
  check_backend hc net b = true -> b_enabled b = true -> below_limit b ->
  is_available (set_healthy (check_backend hc net b) b) = true.
Proof.
  intros Hc He Hl. rewrite is_available_set_healthy, He, Hc. simpl. unfold below_limit in Hl.
  destruct (b_max_connections b) as [m|]; [|done]. by apply Z.ltb_lt, Hl.
Qed.

Lemma set_healthy_set_healthy v w b : set_healthy v (set_healthy w b) = set_healthy v b.
Proof. done. Qed.

(** Checks read no flag. *)
Lemma check_backend_set_healthy `{JsonLib} hc net v b :
  check_backend hc net (set_healthy v b) = check_backend hc net b.
Proof. unfold check_backend. by destruct (hc_check_type hc). Qed.

Lemma health_tick_tick `{JsonLib} hc net net' pool :
  health_tick hc net (health_tick hc net' pool) = health_tick hc net pool.
Proof.
  unfold health_tick. rewrite <- list_fmap_compose. apply list_fmap_ext. intros i b _. unfold compose.
  by rewrite check_backend_set_healthy, set_healthy_set_healthy.
Qed.

(** Only the last tick counts. *)
Lemma health_run_last `{JsonLib} hc ticks net pool pool' :
  health_run hc (ticks ++ [net]) pool = Some pool' -> pool' = health_tick hc net pool.
Proof.
  unfold health_run. case_if; [done|]. intros [= <-]. rewrite fold_left_app. simpl.
  revert pool. induction ticks as [|t ticks IH]; intros pool; [done|]. simpl. rewrite IH. apply health_tick_tick.
Qed.

Lemma available_elem pool i b : pool !! i = Some b -> is_available b = true -> i ∈ available pool.
Proof.
  intros Hb Ha. unfold available. apply elem_of_filter_map. exists (i, b). split; [|simpl; by rewrite Ha].
  apply list_elem_of_lookup. exists i. by rewrite list_lookup_imap, Hb.
Qed.

Lemma occurrences_pos {A} `{EqDecision A} (x : A) l : occurrences x l = 1%nat -> x ∈ l.
Proof.
  intros Ho. destruct (decide (x ∈ l)) as [|Hn]; [done|]. exfalso. unfold occurrences in Ho.
  induction l as [|y l IH]; [done|]. apply not_elem_of_cons in Hn as [Hy Hn]. simpl in Ho.
  rewrite filter_cons_False in Ho by done. by apply IH.
Qed.

Definition example_checker : HealthChecker := mkChecker CheckHttp 10000 1000 None 200 false false (bs "GET").

(** A network in which every HTTP server answers with this status. *)
Definition answering (status : bytes) : Network :=
  fun _ _ _ => Received (bs "HTTP/1.1 " ++ status ++ bs " X" ++ CRLF ++ CRLF).

#[export] Instance no_json : JsonLib | 100 := {| json_from_str _ := None |}.

(** ** Properties *)

(** C26: traffic follows health: after a round of checks, every balancer that meets the
    trait's contract selects only enabled backends that passed their check and are below
    their limit, and selects one whenever there is one. *)
Theorem selection_follows_health `{JsonLib} {S} `{LoadBalancerSpec S} hc net pool (s : S) ip :
  (forall i s', lb_select s (health_tick hc net pool) ip = (Some i, s') ->
     exists b, pool !! i = Some b /\ check_backend hc net b = true /\ b_enabled b = true) /\
  ((exists b, b ∈ pool /\ check_backend hc net b = true /\ b_enabled b = true /\ below_limit b) ->
     exists i s', lb_select s (health_tick hc net pool) ip = (Some i, s')).
Proof.
  split.
  - intros i s' Hs. destruct (lb_sound _ _ _ _ _ Hs) as (b' & Hb' & Ha).
    rewrite health_tick_lookup in Hb'. destruct (pool !! i) as [b|]; [|done]. injection Hb' as <-.
    rewrite is_available_set_healthy in Ha. apply andb_true_iff in Ha as [[He Hc]%andb_true_iff _]. by exists b.
  - intros (b & Hb & Hc & He & Hm).
    apply (lb_complete s (health_tick hc net pool) ip (set_healthy (check_backend hc net b) b)).
    + apply list_elem_of_fmap. by exists b.
    + by apply available_after_check.
Qed.

Lemma selection_follows_health_witness :
  (forall i s', lb_select (mkRoundRobin 7) (health_tick example_checker (answering (bs "200")) [limited 3]) None =
       (Some i, s') ->
     exists b, [limited 3] !! i = Some b /\ check_backend example_checker (answering (bs "200")) b = true /\
       b_enabled b = true) /\
  ((exists b, b ∈ [limited 3] /\ check_backend example_checker (answering (bs "200")) b = true /\
       b_enabled b = true /\ below_limit b) ->
     exists i s', lb_select (mkRoundRobin 7) (health_tick example_checker (answering (bs "200")) [limited 3]) None =
       (Some i, s')).
Proof. exact (selection_follows_health example_checker (answering (bs "200")) [limited 3] (mkRoundRobin 7) None). Defined.

(** A recovered backend is served again: once a round of checks finds a backend that
    is enabled and below its limit healthy, the round robin selects it within as many
    selections as there are backends available, whatever the rounds before found. *)
Theorem recovered_backend_served `{JsonLib} hc ticks net pool pool' i b pools c :
  health_run hc (ticks ++ [net]) pool = Some pool' ->
  pool !! i = Some b -> check_backend hc net b = true -> b_enabled b = true ->
  below_limit b ->
  Forall (fun p => available p = available pool') pools -> length pools = length (available pool') ->
  Z.of_nat (c + length pools) <= 2 ^ 64 ->
  Some i ∈ rr_run (mkRoundRobin (Z.of_nat c)) pools.
Proof.
  intros ->%health_run_last Hb Hc He Hm Hav Hlen Hw.
  assert (Hi : i ∈ available (health_tick hc net pool)).
  { apply (available_elem _ _ (set_healthy (check_backend hc net b) b)); [by rewrite health_tick_lookup, Hb|].
    by apply available_after_check. }
  apply occurrences_pos. rewrite (rr_run_picks (available (health_tick hc net pool))); [|by intros E; rewrite E in Hi; apply elem_of_nil in Hi|done|done].
  rewrite Hlen. pose proof (fair_picks _ 1 c i (available_nodup (health_tick hc net pool)) Hi) as Hf.
  by rewrite Nat.mul_1_l in Hf.
Qed.

Lemma recovered_backend_served_witness :
  Some 1%nat ∈ rr_run (mkRoundRobin 7)
    (replicate 2 (health_tick example_checker (answering (bs "200")) [limited 3; set_healthy false (limited 5)])).
Proof.
  apply (recovered_backend_served example_checker [answering (bs "503")] (answering (bs "200"))
    [limited 3; set_healthy false (limited 5)]
    (health_tick example_checker (answering (bs "200")) [limited 3; set_healthy false (limited 5)])
    1 (set_healthy false (limited 5)) _ 7).
  - vm_compute. reflexivity.
  - reflexivity.
  - vm_compute. reflexivity.
  - reflexivity.
  - intros max [= <-]. vm_compute. reflexivity.
  - repeat constructor.
  - vm_compute. reflexivity.
  - vm_compute. discriminate.
Defined.

(** The HTTP check reads the status: on every response whose first line is a version
    token, a status code and a reason, it reports healthy exactly when the code is the
    expected one, whatever the headers and the body hold. *)
Theorem http_check_reads_status vers code reason rest expected :
  plain_token vers -> in_u 16 code -> is_ascii reason -> LF ∉ reason ->
  parse_status expected (vers ++ 32 :: show code ++ 32 :: reason ++ CRLF ++ rest) = (code =? expected).
Proof.
  intros Hv Hc Hr Hl. pose proof (show_plain_token code ltac:(destruct Hc; lia)) as Hs.
  unfold parse_status. set (line := vers ++ 32 :: show code ++ 32 :: reason).
  assert (Hsp : forall s, is_ascii s -> is_ascii (32 :: s)) by (intros; constructor; [lia|done]).
  assert (Ha : is_ascii (line ++ CRLF)).
  { destruct Hv as (_ & Hv & _), Hs as (_ & Hs & _). unfold line.
    apply is_ascii_app; split; [|unfold is_ascii, CRLF; repeat constructor; lia].
    apply is_ascii_app; split; [done|]. apply Hsp, is_ascii_app; split; [done|]. by apply Hsp. }
  replace (vers ++ 32 :: show code ++ 32 :: reason ++ CRLF ++ rest) with ((line ++ CRLF) ++ rest)
    by (unfold line; by rewrite <- !app_assoc; simpl; rewrite <- !app_assoc).
  rewrite from_utf8_lossy_ascii_app, <- app_assoc by done. rewrite lines_crlf.
  - unfold line. by rewrite split_whitespace_token, split_whitespace_token, parse_uint_show by (done || destruct Hc; lia).
  - apply not_elem_of_Forall. unfold line. destruct Hv as (_ & _ & Hv), Hs as (_ & _ & Hs).
    assert (Hw : forall t, Forall (fun c => char_is_whitespace c = false) t -> LF ∉ t).
    { intros t Ht Hin. by apply (proj1 (Forall_forall _ _) Ht) in Hin. }
    rewrite !not_elem_of_app, !not_elem_of_cons, not_elem_of_app, not_elem_of_cons. by split_and!; auto.
Qed.

Lemma http_check_reads_status_witness :
  parse_status 200 (bs "HTTP/1.1" ++ 32 :: show 503 ++ 32 :: bs "Busy" ++ CRLF ++ [255]) = (503 =? 200).
Proof.
  apply (http_check_reads_status (bs "HTTP/1.1") 503 (bs "Busy") [255] 200).
  - split; [discriminate|]. split; [unfold is_ascii|]; repeat constructor; lia.
  - split; vm_compute; discriminate.
  - unfold is_ascii. repeat constructor; lia.
  - apply (bool_decide_unpack _). vm_compute. exact I.
Defined.
