(* ===== verification/Listener.v ===== *)
(** * Listeners: [serverwall-proxy/src/listener/tcp_listener.rs]

    The dispatch of accepted connections under a connection limit, as a transition
    system: one task runs the accept loop, every accepted connection has a task of its
    own, and their steps interleave. *)

From S2P Require Import Prelude.
Open Scope Z_scope.

(** Where the accept loop is: waiting, or past the check of the limit and about to count. *)
Inductive DispatchPc := Waiting | Admitting.

(** [accepted] and [panicked] count the handlers started and those that panicked; [live]
    are running. *)
Record Listener := mkListener {
  max_connections : option Z;
  active_connections : Z;
  pc : DispatchPc;
  live : Z;
  accepted : Z;
  panicked : Z;
}.

Definition TcpListenerTask_new (max : option Z) : Listener := mkListener max 0 Waiting 0 0 0.

(** The check of [dispatch_connection]. *)
Definition refuses (l : Listener) : bool :=
  match max_connections l with Some max => max <=? active_connections l | None => false end.

(** A connection is accepted: it is dropped at the limit, and let through below it. *)
Definition on_connection (l : Listener) : Listener :=
  if refuses l then l
  else mkListener (max_connections l) (active_connections l) Admitting (live l) (accepted l) (panicked l).

(** The counter goes up and the handler is spawned. *)
Definition spawn (l : Listener) : Listener :=
  mkListener (max_connections l) (wrapping_add 64 (active_connections l) 1) Waiting (live l + 1) (accepted l + 1)
    (panicked l).

(** A handler returns; its task counts down. *)
Definition finish (l : Listener) : Listener :=
  mkListener (max_connections l) (wrapping_sub 64 (active_connections l) 1) (pc l) (live l - 1) (accepted l)
    (panicked l).

(** A handler panics: its task ends before it counts down. *)
Definition handler_panics (l : Listener) : Listener :=
  mkListener (max_connections l) (active_connections l) (pc l) (live l - 1) (accepted l) (panicked l + 1).

Inductive listener_step : Listener -> Listener -> Prop :=
| step_connection l : pc l = Waiting -> listener_step l (on_connection l)
| step_spawn l : pc l = Admitting -> listener_step l (spawn l)
| step_finish l : 0 < live l -> listener_step l (finish l)
| step_panic l : 0 < live l -> listener_step l (handler_panics l).

(** ** Invariant *)

(** The counter is the number of running and of panicked handlers, and never exceeds the
    limit. *)
Record listener_inv (max : Z) (l : Listener) : Prop := {
  li_max : max_connections l = Some max;
  li_count : active_connections l = live l + panicked l;
  li_live : 0 <= live l;
  li_panicked : 0 <= panicked l;
  li_bound : match pc l with Waiting => active_connections l <= max | Admitting => active_connections l < max end;
}.

Lemma listener_step_inv max l l' :
  in_u 64 max -> listener_inv max l -> listener_step l l' -> listener_inv max l'.
Proof.
  intros [_ Hm] [Hmax Hc Hl Hp Hb] Hstep. unfold umax in Hm.
  destruct Hstep as [l Hpc|l Hpc|l Hlive|l Hlive].
  - unfold on_connection, refuses. rewrite Hmax. destruct (Z.leb_spec max (active_connections l)).
    + by constructor.
    + by constructor.
  - rewrite Hpc in Hb. constructor; simpl; try lia; try done; unfold wrapping_add; rewrite Z.mod_small; lia.
  - assert (Hs : wrapping_sub 64 (active_connections l) 1 = active_connections l - 1).
    { unfold wrapping_sub. apply Z.mod_small. destruct (pc l); lia. }
    constructor; simpl; rewrite ?Hs; try lia; try done. destruct (pc l); lia.
  - constructor; simpl; try lia; done.
Qed.

Lemma listener_reachable_inv max l :
  in_u 64 max -> steps listener_step (TcpListenerTask_new (Some max)) l -> listener_inv max l.
Proof.
  intros Hm. apply steps_invariant; [intros a b; by apply listener_step_inv|].
  destruct Hm. by constructor.
Qed.

(** Running handlers can all return. *)
Lemma drain max l :
  in_u 64 max -> listener_inv max l ->
  exists l', steps listener_step l l' /\ listener_inv max l' /\ live l' = 0 /\ pc l' = pc l /\
    accepted l' = accepted l /\ panicked l' = panicked l.
Proof.
  intros Hm. remember (Z.to_nat (live l)) as n eqn:Hn. revert l Hn. induction n as [|n IH]; intros l Hn Hi.
  - pose proof (li_live _ _ Hi). exists l. split_and!; try done; [constructor|lia].
  - assert (Hstep : listener_step l (finish l)) by (constructor; lia).
    pose proof (listener_step_inv _ _ _ Hm Hi Hstep) as Hi'.
    destruct (IH (finish l)) as (l' & Hs & ?); [simpl; lia|done|].
    exists l'. split; [|done]. eapply steps_trans; [by apply steps_one|done].
Qed.

(** ** Properties *)

(** C27: the connection limit holds: under every interleaving of the accept loop with the
    tasks of the connections, the number of running handlers never exceeds the limit,
    and the counter is exactly the number of handlers that run or have panicked. *)
Theorem listener_limit max l :
  in_u 64 max -> steps listener_step (TcpListenerTask_new (Some max)) l ->
  live l <= max /\ active_connections l = live l + panicked l.
Proof.
  intros Hm Hs. destruct (listener_reachable_inv _ _ Hm Hs) as [_ Hc Hl Hp Hb].
  split; [destruct (pc l); lia|done].
Qed.

Lemma listener_limit_witness :
  live (spawn (on_connection (TcpListenerTask_new (Some 1)))) <= 1 /\
  active_connections (spawn (on_connection (TcpListenerTask_new (Some 1)))) =
    live (spawn (on_connection (TcpListenerTask_new (Some 1)))) +
    panicked (spawn (on_connection (TcpListenerTask_new (Some 1)))).
Proof.
  apply (listener_limit 1); [split; vm_compute; discriminate|].
  eapply steps_step; [eapply steps_step; [constructor|]|]; [by constructor|by constructor].
Defined.

(** C28: the listener stays live: from every reachable state in which fewer handlers than
    the limit have panicked, the running handlers can return and a further connection is
    then served. *)
Theorem listener_serves max l :
  in_u 64 max -> steps listener_step (TcpListenerTask_new (Some max)) l -> panicked l < max ->
  exists l', steps listener_step l l' /\ accepted l' = accepted l + 1.
Proof.
  intros Hm Hs Hp. pose proof (listener_reachable_inv _ _ Hm Hs) as Hi.
  destruct (drain _ _ Hm Hi) as (l1 & Hs1 & Hi1 & Hl1 & Hpc1 & Ha1 & Hp1).
  assert (Hfinal : exists l2, steps listener_step l1 l2 /\ pc l2 = Admitting /\ accepted l2 = accepted l1).
  { destruct (pc l1) eqn:E.
    - exists (on_connection l1). split; [by apply steps_one; constructor|].
      unfold on_connection, refuses. rewrite (li_max _ _ Hi1), (li_count _ _ Hi1), Hl1.
      rewrite (proj2 (Z.leb_gt _ _)) by lia. done.
    - exists l1. split; [constructor|done]. }
  destruct Hfinal as (l2 & Hs2 & Hpc2 & Ha2). exists (spawn l2). split.
  - eapply steps_step; [by eapply steps_trans|by constructor].
  - simpl. lia.
Qed.

Lemma listener_serves_witness :
  exists l', steps listener_step (spawn (on_connection (TcpListenerTask_new (Some 1)))) l' /\ accepted l' = 1 + 1.
Proof.
  apply (listener_serves 1); [split; vm_compute; discriminate| |vm_compute; reflexivity].
  eapply steps_step; [eapply steps_step; [constructor|]|]; [by constructor|by constructor].
Defined.

(** Panics wear the listener out: a handler that panics is never counted down, so once
    as many have panicked as the limit allows, no connection is ever served again. *)
Theorem panics_exhaust_listener max l l' :
  in_u 64 max -> steps listener_step (TcpListenerTask_new (Some max)) l -> max <= panicked l ->
  steps listener_step l l' -> accepted l' = accepted l.
Proof.
  intros Hm Hs Hp Hs'. pose proof (listener_reachable_inv _ _ Hm Hs) as Hi.
  enough (listener_inv max l' /\ max <= panicked l' /\ accepted l' = accepted l) by tauto.
  revert Hs'. apply (steps_invariant _ (fun s => listener_inv max s /\ max <= panicked s /\ accepted s = accepted l));
    [|done]. clear -Hm. intros a b (Hi & Hp & Ha) Hstep.
  split; [by eapply listener_step_inv|]. destruct Hi as [Hmax Hc Hl Hpp Hb].
  destruct Hstep as [a Hpc|a Hpc|a Hlive|a Hlive]; simpl; try (split; [lia|done]).
  - unfold on_connection. by destruct (refuses a).
  - rewrite Hpc in Hb. lia.
Qed.

Definition worn_out : Listener := handler_panics (spawn (on_connection (TcpListenerTask_new (Some 1)))).

Lemma panics_exhaust_listener_witness : accepted (on_connection worn_out) = accepted worn_out.
Proof.
  apply (panics_exhaust_listener 1); [split; vm_compute; discriminate| |vm_compute; discriminate|].
  - eapply steps_step; [eapply steps_step; [eapply steps_step; [constructor|]|]|];
      [by constructor|by constructor|by constructor].
  - apply steps_one. by constructor.
Defined.
