(* ===== verification/AcceptLoops.v ===== *)
(** * The accept loops of a listener: [serverwall-proxy/src/listener/tcp_listener.rs]

    [run] binds the addresses of a frontend.  With several of them [accept_loop_multi] runs a task
    per address; the tasks pass what they accept through a bounded channel to the loop that
    dispatches it ([Listener.v] has the dispatch itself).  The tasks, the channel, the loop and the
    signal to stop are a transition system here. *)

From S2P Require Import Prelude RustStr Net External.
Open Scope nat_scope.

(** ** Binding *)

(** The system calls of [bind_reuseport] and the conversion to the runtime's listener. *)
Inductive SocketCall :=
| NewSocket (v6 : bool)
| SetReuseAddress
| SetReusePort
| SetNonblocking
| BindTo (addr : SocketAddr)
| ListenBacklog (backlog : Z)
| FromStd
| LocalAddr.

Definition is_ipv6 (addr : SocketAddr) : bool := match sa_ip addr with V6 _ => true | V4 _ => false end.

(** The calls are made in order up to the first that fails. *)
Fixpoint make_calls (os : SocketCall -> result unit bytes) (calls : list SocketCall) : result unit bytes :=
  match calls with
  | [] => Ok tt
  | c :: calls => match os c with Ok _ => make_calls os calls | Err e => Err e end
  end.

Definition bind_reuseport (os : SocketCall -> result unit bytes) (addr : bytes) : result SocketAddr bytes :=
  match parse_socket_addr addr with
  | None => Err (bs "invalid socket address syntax")
  | Some sock_addr =>
      match make_calls os [NewSocket (is_ipv6 sock_addr); SetReuseAddress; SetReusePort; SetNonblocking;
                           BindTo sock_addr; ListenBacklog 1024; FromStd] with
      | Ok _ => Ok sock_addr
      | Err e => Err e
      end
  end.

(** The listeners of [run], or the first error. *)
Fixpoint bind_all (os : SocketCall -> result unit bytes) (bind_addrs : list bytes) : result (list SocketAddr) bytes :=
  match bind_addrs with
  | [] => Ok []
  | addr :: addrs =>
      match bind_reuseport os addr, os LocalAddr with
      | Err e, _ | _, Err e => Err e
      | Ok l, Ok _ => match bind_all os addrs with Ok ls => Ok (l :: ls) | Err e => Err e end
      end
  end.

(** Which of the two loops [run] enters. *)
Inductive LoopKind := Single (listener : SocketAddr) | Multi (listeners : list SocketAddr).

Definition listener_run (os : SocketCall -> result unit bytes) (frontend_name : bytes) (bind_addrs : list bytes)
  : result LoopKind bytes :=
  match bind_all os bind_addrs with
  | Err e => Err e
  | Ok [] => Err (bs "frontend '" ++ frontend_name ++ bs "': no listen addresses configured")
  | Ok [l] => Ok (Single l)
  | Ok ls => Ok (Multi ls)
  end.

Section AcceptLoops.
Context {C : Type}.

(** ** One listener *)

(** What the [select!] of [accept_loop_single] finds ready, the signal before a connection:
    [Changed None] is a closed channel. *)
Inductive SingleEvent := Changed (value : option bool) | AcceptedConn (c : C) | AcceptFailed.

(** What is dispatched, and whether the loop has returned. *)
Fixpoint accept_loop_single (events : list SingleEvent) : list C * bool :=
  match events with
  | [] => ([], false)
  | Changed (Some true) :: _ => ([], true)
  | AcceptedConn c :: events => let (cs, over) := accept_loop_single events in (c :: cs, over)
  | Changed _ :: events | AcceptFailed :: events => accept_loop_single events
  end.

(** ** Several listeners *)

(** Where a task is: in its [select!], in [tx.send], or at its end. *)
Inductive TaskPc := Accepting | Sending (c : C) | Exited.

(** Where [accept_loop_multi] is: in its own [select!], waiting for the tasks, or back. *)
Inductive LoopPc := Dispatching | Joining | Returned.

(** [al_accepted] and [al_dispatched] are what has been accepted and dispatched so far. *)
Record AcceptLoop := mkLoop {
  al_tasks : list TaskPc;
  al_channel : list C;
  al_pc : LoopPc;
  al_shutdown : bool;
  al_accepted : list C;
  al_dispatched : list C;
}.

(** The capacity of the channel. *)
Definition CHANNEL : nat := 64.

(** A task whose address cannot be read ends at once. *)
Definition accept_loop_multi (local_addrs : list bool) : AcceptLoop :=
  mkLoop ((fun known : bool => if known then Accepting else Exited) <$> local_addrs) [] Dispatching false [] [].

Definition set_task (i : nat) (t : TaskPc) (s : AcceptLoop) : AcceptLoop :=
  mkLoop (<[i := t]> (al_tasks s)) (al_channel s) (al_pc s) (al_shutdown s) (al_accepted s) (al_dispatched s).
Definition set_pc (pc : LoopPc) (s : AcceptLoop) : AcceptLoop :=
  mkLoop (al_tasks s) (al_channel s) pc (al_shutdown s) (al_accepted s) (al_dispatched s).

(** The selections are biased: once the signal is there neither a task accepts nor the loop
    receives.  A send waits for room in the channel, and only for that. *)
Inductive accept_step (s : AcceptLoop) : AcceptLoop -> Prop :=
| step_signal :
    accept_step s (mkLoop (al_tasks s) (al_channel s) (al_pc s) true (al_accepted s) (al_dispatched s))
| step_accept i c :
    al_tasks s !! i = Some Accepting -> al_shutdown s = false ->
    accept_step s (mkLoop (<[i := Sending c]> (al_tasks s)) (al_channel s) (al_pc s) false (al_accepted s ++ [c]) (al_dispatched s))
| step_exit i :
    al_tasks s !! i = Some Accepting -> al_shutdown s = true -> accept_step s (set_task i Exited s)
| step_send i c :
    al_tasks s !! i = Some (Sending c) -> length (al_channel s) < CHANNEL ->
    accept_step s (mkLoop (<[i := Accepting]> (al_tasks s)) (al_channel s ++ [c]) (al_pc s) (al_shutdown s) (al_accepted s)
                     (al_dispatched s))
| step_dispatch c rest :
    al_pc s = Dispatching -> al_shutdown s = false -> al_channel s = c :: rest ->
    accept_step s (mkLoop (al_tasks s) rest (al_pc s) false (al_accepted s) (al_dispatched s ++ [c]))
| step_closed :
    al_pc s = Dispatching -> al_shutdown s = false -> al_channel s = [] -> Forall (fun t => t = Exited) (al_tasks s) ->
    accept_step s (set_pc Joining s)
| step_stop :
    al_pc s = Dispatching -> al_shutdown s = true -> accept_step s (set_pc Joining s)
| step_join :
    al_pc s = Joining -> Forall (fun t => t = Exited) (al_tasks s) -> accept_step s (set_pc Returned s).

(** The connections tasks are about to send. *)
Definition held (tasks : list TaskPc) : list C := omap (fun t => match t with Sending c => Some c | _ => None end) tasks.

(** ** Lemmas *)

Lemma held_insert (tasks : list TaskPc) i t t' :
  tasks !! i = Some t -> held (<[i := t']> tasks) ++ held [t] ≡ₚ held tasks ++ held [t'].
Proof.
  intros Ht. apply list_elem_of_split_length in Ht as (l1 & l2 & -> & ->).
  rewrite insert_app_r_alt, Nat.sub_diag by lia. cbn [insert list_insert]. unfold held. rewrite !omap_app.
  change (t' :: l2) with ([t'] ++ l2). change (t :: l2) with ([t] ++ l2). rewrite !omap_app. solve_Permutation.
Qed.

Record accept_inv (s : AcceptLoop) : Prop := {
  ai_channel : length (al_channel s) <= CHANNEL;
  ai_accounted : al_accepted s ≡ₚ al_dispatched s ++ al_channel s ++ held (al_tasks s);
}.

Lemma accept_inv_step s s' : accept_step s s' -> accept_inv s -> accept_inv s'.
Proof.
  intros Hs [Hc Ha]. destruct Hs as [|i c Hi _|i Hi _|i c Hi Hl|c rest _ _ Hch|_ _ Hch _|_ _|_ _]; try done;
    split; cbn; try done.
  - pose proof (held_insert _ i _ (Sending c) Hi) as Hp. cbn in Hp. rewrite app_nil_r in Hp. rewrite Hp, Ha. solve_Permutation.
  - pose proof (held_insert _ i _ Exited Hi) as Hp. cbn in Hp. rewrite !app_nil_r in Hp. by rewrite Hp.
  - rewrite length_app. cbn. lia.
  - pose proof (held_insert _ i _ Accepting Hi) as Hp. cbn in Hp. rewrite app_nil_r in Hp. rewrite Ha, <- Hp. solve_Permutation.
  - rewrite Hch in Hc. cbn in Hc. lia.
  - rewrite Ha, Hch. solve_Permutation.
Qed.

(** With the signal nothing is dispatched any more. *)
Lemma stopped_step s s' : accept_step s s' -> al_shutdown s = true -> al_shutdown s' = true /\ al_dispatched s' = al_dispatched s.
Proof. intros [] Hd; cbn; by rewrite ?Hd in *. Qed.

(** *** The way back *)

(** Tasks with room for what they hold end. *)
Lemma send_all s : al_shutdown s = true -> length (al_channel s) + length (held (al_tasks s)) <= CHANNEL ->
  exists s', steps accept_step s s' /\ al_shutdown s' = true /\ al_pc s' = al_pc s /\ held (al_tasks s') = [].
Proof.
  remember (length (held (al_tasks s))) as n eqn:Hn. revert s Hn. induction n as [|n IH]; intros s Hn Hd Hc.
  { exists s. repeat split; [constructor|done|]. by apply nil_length_inv. }
  destruct (held (al_tasks s)) as [|c cs] eqn:Eh; [done|].
  assert (Hin : c ∈ held (al_tasks s)) by (rewrite Eh; set_solver).
  apply list_elem_of_omap in Hin as (t & Ht & Et). destruct t as [|c'|]; [done| |done]. injection Et as ->.
  apply list_elem_of_lookup in Ht as [i Hi].
  pose proof (Permutation_length (held_insert _ i _ Accepting Hi)) as Hl. rewrite Eh, !length_app in Hl.
  cbn [length] in Hl, Hn. change (length (held [Sending c])) with 1 in Hl. change (length (held [Accepting])) with 0 in Hl.
  destruct (IH (mkLoop (<[i := Accepting]> (al_tasks s)) (al_channel s ++ [c]) (al_pc s) (al_shutdown s) (al_accepted s)
                  (al_dispatched s))) as (s' & Hs & Hrest); cbn [al_tasks al_channel al_shutdown];
    [lia|done|rewrite length_app; cbn [length]; lia|].
  exists s'. split; [|done]. eapply steps_trans; [|exact Hs]. apply steps_one. by apply step_send; [|lia].
Qed.

Definition is_accepting (t : TaskPc) : bool := match t with Accepting => true | _ => false end.

Lemma exit_all s : al_shutdown s = true -> held (al_tasks s) = [] ->
  exists s', steps accept_step s s' /\ al_shutdown s' = true /\ al_pc s' = al_pc s /\ Forall (fun t => t = Exited) (al_tasks s').
Proof.
  remember (length (List.filter is_accepting (al_tasks s))) as n eqn:Hn. revert s Hn. induction n as [|n IH]; intros s Hn Hd Hh.
  - exists s. repeat split; [constructor|done|]. apply Forall_forall. intros t Ht. destruct t as [|c|]; [|exfalso|done].
    + symmetry in Hn. apply nil_length_inv in Hn. exfalso. apply (not_elem_of_nil (Accepting)).
      rewrite <- Hn. by apply list_elem_of_In, filter_In; split; [apply list_elem_of_In|].
    + apply (not_elem_of_nil c). rewrite <- Hh. apply list_elem_of_omap. by exists (Sending c).
  - destruct (List.filter is_accepting (al_tasks s)) as [|t ts] eqn:Ef; [done|].
    assert (Hin : In t (List.filter is_accepting (al_tasks s))) by (rewrite Ef; by left).
    apply filter_In in Hin as [Ht Ea]. destruct t; try done. apply list_elem_of_In, list_elem_of_lookup in Ht as [i Hi].
    destruct (IH (set_task i Exited s)) as (s' & Hs & Hrest); [|done| |].
    + apply list_elem_of_split_length in Hi as (l1 & l2 & El & ->). cbn. rewrite El in *.
      rewrite insert_app_r_alt, Nat.sub_diag by lia. cbn [insert list_insert].
      apply (f_equal length) in Ef. rewrite List.filter_app, length_app in *. cbn in *. lia.
    + cbn. pose proof (held_insert _ i _ Exited Hi) as Hp. cbn in Hp. rewrite !app_nil_r, Hh in Hp. by apply Permutation_nil_r in Hp.
    + exists s'. split; [|done]. eapply steps_trans; [|exact Hs]. apply steps_one. by apply step_exit.
Qed.

(** *** The way into the deadlock *)

(** A task that cannot send, with the signal given. *)
Record blocked (s : AcceptLoop) : Prop := {
  bl_signal : al_shutdown s = true;
  bl_full : length (al_channel s) = CHANNEL;
  bl_task : exists i c, al_tasks s !! i = Some (Sending c);
  bl_pc : al_pc s <> Returned;
}.

Lemma blocked_step s s' : accept_step s s' -> blocked s -> blocked s'.
Proof.
  intros Hs [Hd Hf (i & c & Hi) Hp].
  destruct Hs as [|j c' _ Hd'|j Hj _|j c' _ Hl|? ? _ Hd' _|_ Hd' _ _|_ _|_ Ha]; try congruence; try lia.
  - by split; [| |eauto|].
  - split; [done|done| |done]. exists i, c. cbn. destruct (decide (j = i)) as [->|Hne]; [congruence|].
    by rewrite list_lookup_insert_ne.
  - split; [done|done|eauto|done].
  - rewrite Forall_lookup in Ha. by specialize (Ha _ _ Hi).
Qed.

(** The first task fills the channel. *)
Lemma fill (c : C) k s : al_tasks s !! 0 = Some Accepting -> al_shutdown s = false ->
  length (al_channel s) + k = CHANNEL -> exists s', steps accept_step s s' /\ al_tasks s' !! 0 = Some Accepting /\
    al_shutdown s' = false /\ al_pc s' = al_pc s /\ length (al_channel s') = CHANNEL.
Proof.
  revert s. induction k as [|k IH]; intros s Hi Hd Hk; [exists s; repeat split; [constructor|done|done|lia]|].
  assert (H0 : 0 < length (al_tasks s)) by (by eapply lookup_lt_Some).
  destruct (IH (mkLoop (al_tasks s) (al_channel s ++ [c]) (al_pc s) false (al_accepted s ++ [c]) (al_dispatched s)))
    as (s' & Hs & Hrest); cbn; [done|done|rewrite length_app; cbn; lia|].
  exists s'. split; [|done]. eapply steps_trans; [apply steps_one; by eapply (step_accept s 0 c)|].
  eapply steps_trans; [|exact Hs]. apply steps_one.
  pose proof (step_send (mkLoop (<[0 := Sending c]> (al_tasks s)) (al_channel s) (al_pc s) false (al_accepted s ++ [c])
    (al_dispatched s)) 0 c) as Hx. cbn [al_tasks al_channel al_pc al_shutdown al_accepted al_dispatched] in Hx.
  rewrite list_lookup_insert_eq, list_insert_insert_eq, (list_insert_id _ 0 Accepting) in Hx by done. apply Hx; [done|lia].
Qed.
End AcceptLoops.

(** ** Properties *)

(** C39: a listener with several addresses loses no connection while it runs: under every
    interleaving of the accepting tasks with the dispatching loop, what was accepted is what was
    dispatched, what waits in the channel of 64 places, and what a task is about to send, each
    once; and after the signal to stop nothing more is dispatched. *)
Theorem accepted_accounted {C : Type} (known : list bool) (s s' : @AcceptLoop C) :
  steps accept_step (accept_loop_multi known) s -> steps accept_step s s' ->
  (length (al_channel s) <= CHANNEL /\ al_accepted s ≡ₚ al_dispatched s ++ al_channel s ++ held (al_tasks s)) /\
  (al_shutdown s = true -> al_dispatched s' = al_dispatched s).
Proof.
  intros Hs Hs'. split.
  - apply (steps_invariant _ accept_inv) in Hs as [? ?]; [done|intros a b ??; by eapply accept_inv_step|].
    split; [cbn; lia|]. cbn. clear. induction known as [|[] known IH]; [done|..]; exact IH.
  - intros Hd. cut (al_shutdown s' = true /\ al_dispatched s' = al_dispatched s); [tauto|].
    apply (steps_invariant _ (fun x => al_shutdown x = true /\ al_dispatched x = al_dispatched s)) in Hs'; [done| |done].
    intros a b [Ha Hb] Hab. destruct (stopped_step _ _ Hab Ha) as [? ->]. done.
Qed.

Lemma accepted_accounted_witness :
  exists s : @AcceptLoop nat, al_channel s = [7] /\ al_dispatched s = [] /\ al_shutdown s = true /\
    (length (al_channel s) <= CHANNEL /\ al_accepted s ≡ₚ al_dispatched s ++ al_channel s ++ held (al_tasks s)) /\
    (al_shutdown s = true -> al_dispatched (set_pc Joining s) = al_dispatched s).
Proof.
  exists (mkLoop [Accepting; Accepting] [7] Dispatching true [7] []). do 3 (split; [done|]).
  apply (accepted_accounted [true; true]).
  - eapply steps_trans; [apply steps_one, (step_accept _ 0 7); reflexivity|].
    eapply steps_trans; [apply steps_one, (step_send _ 0 7); [reflexivity|cbn; unfold CHANNEL; lia]|].
    apply steps_one. apply (step_signal (mkLoop [Accepting; Accepting] [7] Dispatching false [7] [])).
  - apply steps_one, step_stop; reflexivity.
Defined.

