(* ===== verification/LineProxy.v ===== *)
(** * Byte-stream proxies: [serverwall-proxy/src/proxy/imap_proxy.rs], [stratum_proxy.rs],
    [tcp_proxy.rs]

    A session between a client and a backend, each a stream that arrives in chunks, one
    per read of the socket. The first lines go through a buffered reader; the rest is
    copied by the library once the readers are taken apart. Writes succeed. *)

From S2P Require Import Prelude RustStr Net WafRules WafMatcher Proto.
Open Scope Z_scope.

(** ** Buffered reading *)

Record BufReader := mkBufReader { buffered : bytes; pending : list bytes }.

Definition BufReader_new (chunks : list bytes) : BufReader := mkBufReader [] chunks.

(** [BufReader::into_inner]: what is in the buffer is lost. *)
Definition into_inner (r : BufReader) : list bytes := pending r.

(** The bytes up to and including the first line feed, or all there are. *)
Fixpoint read_until (buf : bytes) (chunks : list bytes) : bytes * BufReader :=
  match split_once buf LF with
  | Some (line, rest) => (line ++ [LF], mkBufReader rest chunks)
  | None =>
      match chunks with
      | [] => (buf, mkBufReader [] [])
      | c :: chunks => let '(line, r) := read_until c chunks in (buf ++ line, r)
      end
  end.

(** [read_line]: [None] is the error on a line that is not UTF-8; an empty line is the
    end of the stream. *)
Definition read_line (r : BufReader) : option (bytes * BufReader) :=
  let '(line, r) := read_until (buffered r) (pending r) in
  if utf8_valid line then Some (line, r) else None.

(** [tokio::io::copy_bidirectional]: what reaches the second and the first stream, and
    whether it ended without an error. *)
Class TokioCopy := { copy_bidirectional : list bytes -> list bytes -> bytes * bytes * bool }.

(** Documented behaviour: bytes are passed on in order, all of them unless an error ends
    the copying. *)
Class TokioCopySpec `{TokioCopy} := {
  copy_prefix a b ab ba ok : copy_bidirectional a b = (ab, ba, ok) ->
    ab `prefix_of` concat a /\ ba `prefix_of` concat b;
  copy_complete a b ab ba : copy_bidirectional a b = (ab, ba, true) -> ab = concat a /\ ba = concat b;
}.

(** ** A session *)

(** What has been passed on, how much was counted, and the name seen. *)
Record Session := mkSession {
  s_client : BufReader;
  s_backend : BufReader;
  to_backend : bytes;
  to_client : bytes;
  bytes_from_client : Z;
  bytes_from_backend : Z;
  s_name : option bytes;
}.

Definition start (client backend : list bytes) : Session :=
  mkSession (BufReader_new client) (BufReader_new backend) [] [] 0 0 None.

Definition set_name (name : option bytes) (s : Session) : Session :=
  mkSession (s_client s) (s_backend s) (to_backend s) (to_client s) (bytes_from_client s) (bytes_from_backend s) name.

(** One line of the client is read, counted and written to the backend. *)
Definition pass_client_line (s : Session) : option (bytes * Session) :=
  '(line, r) ← read_line (s_client s);
  Some (line, mkSession r (s_backend s) (to_backend s ++ line) (to_client s)
    (bytes_from_client s + Z.of_nat (length line)) (bytes_from_backend s) (s_name s)).

Definition pass_backend_line (s : Session) : option (bytes * Session) :=
  '(line, r) ← read_line (s_backend s);
  Some (line, mkSession (s_client s) r (to_backend s) (to_client s ++ line) (bytes_from_client s)
    (bytes_from_backend s + Z.of_nat (length line)) (s_name s)).

(** How the inspection of the first lines ends: by handing the streams over, or by the end
    of the session. *)
Inductive Sniffed := HandOver (s : Session) | Ended (s : Session) | IoError.

Section Proxies.
Context `{Unicode} `{JsonLib} `{TokioCopy}.

(** [TcpProxy::proxy] on the rest of the streams; [None] for its error. *)
Definition tcp_proxy (s : Session) : Session * option (Z * Z) :=
  let '(ab, ba, ok) := copy_bidirectional (into_inner (s_client s)) (into_inner (s_backend s)) in
  (mkSession (s_client s) (s_backend s) (to_backend s ++ ab) (to_client s ++ ba) (bytes_from_client s)
     (bytes_from_backend s) (s_name s),
   if ok then Some (Z.of_nat (length ab), Z.of_nat (length ba)) else None).

Definition add_counts (s : Session) (counts : option (Z * Z)) : Session :=
  match counts with
  | Some (c2b, b2c) =>
      mkSession (s_client s) (s_backend s) (to_backend s) (to_client s) (bytes_from_client s + c2b)
        (bytes_from_backend s + b2c) (s_name s)
  | None => s
  end.

(** *** IMAP *)

Definition extract_login_username (args : bytes) : option bytes :=
  let args := trim args in
  match (match args with
         | 34 :: rest => match find rest [34] with Some i => Some (take i rest) | None => None end
         | _ => None
         end) with
  | Some name => Some name
  | None => head (split_whitespace args)
  end.

Definition sniffable (command : bytes) : bool :=
  existsb (fun c => bool_decide (command = c)) [bs "CAPABILITY"; bs "NOOP"; bs "ID"; bs "STARTTLS"; bs "LOGOUT"].

Fixpoint imap_sniff (n : nat) (s : Session) : Sniffed :=
  match n with
  | O => HandOver s
  | Datatypes.S n =>
      match pass_client_line s with
      | None => IoError
      | Some (line, s) =>
          if is_nil line then Ended s else
          match imap_parse_command line with
          | None => imap_sniff n s
          | Some cmd =>
              let login := bool_decide (ic_command cmd = bs "LOGIN") in
              let s := if login then set_name (extract_login_username (ic_args cmd)) s else s in
              match pass_backend_line s with
              | None => IoError
              | Some (_, s) =>
                  if login then HandOver s
                  else if negb (sniffable (ic_command cmd)) then HandOver s
                  else if bool_decide (ic_command cmd = bs "LOGOUT") then Ended s
                  else imap_sniff n s
              end
          end
      end
  end.

(** The session as it ended; [None] is an error of the proxy. *)
Definition imap_proxy (client backend : list bytes) : option Session :=
  match pass_backend_line (start client backend) with
  | None => None
  | Some (greeting, s) =>
      if is_nil greeting then Some s
      else match imap_sniff 10 s with
           | HandOver s => let '(s, counts) := tcp_proxy s in Some (add_counts s counts)
           | Ended s => Some s
           | IoError => None
           end
  end.

(** *** Stratum *)

Definition authorized (line : bytes) : option StratumMessage :=
  msg ← parse_line line;
  if bool_decide (sm_method msg = Some (bs "mining.authorize")) then Some msg else None.

Fixpoint stratum_sniff (n : nat) (s : Session) : Sniffed :=
  match n with
  | O => HandOver s
  | Datatypes.S n =>
      match pass_client_line s with
      | None => IoError
      | Some (line, s) =>
          if is_nil line then Ended s else
          let authorize := authorized line in
          let s := match authorize with Some msg => set_name (extract_worker msg) s | None => s end in
          match pass_backend_line s with
          | None => IoError
          | Some (answer, s) =>
              if is_nil answer then Ended s
              else match authorize with Some _ => HandOver s | None => stratum_sniff n s end
          end
      end
  end.

Definition stratum_proxy (client backend : list bytes) : option Session :=
  match stratum_sniff 5 (start client backend) with
  | HandOver s =>
      let '(s, counts) := tcp_proxy s in
      match counts with Some _ => Some (add_counts s counts) | None => None end
  | Ended s => Some s
  | IoError => None
  end.
End Proxies.

(** ** What has not been passed on yet *)

Definition content (r : BufReader) : bytes := buffered r ++ concat (pending r).

Lemma read_until_content buf chunks line r :
  read_until buf chunks = (line, r) -> buf ++ concat chunks = line ++ content r.
Proof.
  revert buf line r. induction chunks as [|c chunks IH]; intros buf line r; simpl.
  - destruct (split_once buf LF) as [[a b]|] eqn:E; intros [= <- <-]; [|done].
    apply split_once_Some in E as [-> _]. unfold content. simpl. by rewrite <- !app_assoc.
  - destruct (split_once buf LF) as [[a b]|] eqn:E.
    + intros [= <- <-]. apply split_once_Some in E as [-> _]. unfold content. simpl. by rewrite <- !app_assoc.
    + destruct (read_until c chunks) as [l r'] eqn:Er. intros [= <- <-]. rewrite (IH _ _ _ Er). by rewrite <- app_assoc.
Qed.

(** The end of the stream is read when there is nothing left. *)
Lemma read_until_nil buf chunks r : Forall (fun c => c <> []) chunks -> read_until buf chunks = ([], r) -> content r = [].
Proof.
  intros Hc. destruct chunks as [|c chunks]; simpl.
  - destruct (split_once buf LF) as [[a b]|]; intros [= E <-]; [|done]. by destruct a.
  - destruct (split_once buf LF) as [[a b]|]; [intros [= E <-]; by destruct a|].
    inv Hc. destruct (read_until c chunks) as [l r'] eqn:Er. intros [= E <-].
    apply app_eq_nil in E as [-> ->]. revert Er. clear -H1. destruct chunks as [|c' chunks]; simpl.
    + destruct (split_once c LF) as [[a b]|]; intros [= E <-]; [by destruct a|done].
    + destruct (split_once c LF) as [[a b]|]; [intros [= E <-]; by destruct a|].
      destruct (read_until c' chunks). intros [= E <-]. by apply app_eq_nil in E as [-> _].
Qed.

(** A chunk that is one line. *)
Definition single_line (c : bytes) : Prop := exists l, c = l ++ [LF] /\ LF ∉ l.

Lemma single_line_ne c : single_line c -> c <> [].
Proof. intros (l & -> & _). by destruct l. Qed.

Record aligned (r : BufReader) : Prop := {
  al_buffered : buffered r = [];
  al_pending : Forall single_line (pending r);
}.

Lemma read_line_chunk l rest chunks :
  LF ∉ l -> utf8_valid (l ++ [LF]) = true ->
  read_line (mkBufReader [] ((l ++ LF :: rest) :: chunks)) = Some (l ++ [LF], mkBufReader rest chunks).
Proof.
  intros Hl Hu. unfold read_line. simpl. destruct chunks; simpl; rewrite split_once_app by done; simpl; by rewrite Hu.
Qed.

Lemma read_line_aligned r line r' : aligned r -> read_line r = Some (line, r') -> aligned r'.
Proof.
  destruct r as [buf chunks]. intros [Hb Hp]. simpl in *. subst buf. unfold read_line. simpl.
  destruct chunks as [|c chunks]; simpl.
  - intros [= <- <-]. by constructor.
  - inv Hp. destruct H1 as (l & -> & Hl). destruct chunks as [|c' chunks]; simpl; rewrite split_once_app by done;
      case_if; try done; intros [= <- <-]; by constructor.
Qed.

Lemma read_line_content r line r' : read_line r = Some (line, r') -> content r = line ++ content r'.
Proof.
  unfold read_line. destruct (read_until _ _) as [l q] eqn:E. case_if; [|done]. intros [= <- <-].
  by apply read_until_content.
Qed.

Lemma read_line_end r r' : aligned r -> read_line r = Some ([], r') -> content r = [].
Proof.
  intros [Hb Hp] Hr. pose proof (read_line_content _ _ _ Hr) as Hc. rewrite Hc. unfold read_line in Hr.
  destruct (read_until _ _) as [l q] eqn:E. destruct (utf8_valid l); [|done]. injection Hr as -> ->.
  eapply read_until_nil; [|exact E]. eapply Forall_impl; [exact Hp|]. apply single_line_ne.
Qed.

(** ** Sessions *)

(** Nothing is lost between what was passed on and what is still to come. *)
Record session_inv (client backend : list bytes) (s : Session) : Prop := {
  si_client : to_backend s ++ content (s_client s) = concat client;
  si_backend : to_client s ++ content (s_backend s) = concat backend;
  si_client_aligned : aligned (s_client s);
  si_backend_aligned : aligned (s_backend s);
  si_count_client : bytes_from_client s = Z.of_nat (length (to_backend s));
  si_count_backend : bytes_from_backend s = Z.of_nat (length (to_client s));
}.

Lemma start_inv client backend :
  Forall single_line client -> Forall single_line backend -> session_inv client backend (start client backend).
Proof. intros Hc Hb. by constructor; try constructor. Qed.

Lemma set_name_inv client backend name s : session_inv client backend s -> session_inv client backend (set_name name s).
Proof. intros []. by constructor. Qed.

Lemma pass_client_inv client backend s line s' :
  session_inv client backend s -> pass_client_line s = Some (line, s') ->
  session_inv client backend s' /\ to_backend s' = to_backend s ++ line /\ to_client s' = to_client s /\
  (line = [] -> content (s_client s) = []).
Proof.
  intros [H1 H2 H3 H4 H5 H6]. unfold pass_client_line. destruct (read_line (s_client s)) as [[l r]|] eqn:E; [|done].
  intros [= <- <-]. split; [|split; [done|split; [done|intros ->; by eapply read_line_end]]].
  constructor; simpl; try done.
  - rewrite <- app_assoc, <- (read_line_content _ _ _ E). done.
  - exact (read_line_aligned _ _ _ H3 E).
  - rewrite length_app. lia.
Qed.

Lemma pass_backend_inv client backend s line s' :
  session_inv client backend s -> pass_backend_line s = Some (line, s') ->
  session_inv client backend s' /\ to_client s' = to_client s ++ line /\ to_backend s' = to_backend s /\
  (line = [] -> content (s_backend s) = []).
Proof.
  intros [H1 H2 H3 H4 H5 H6]. unfold pass_backend_line. destruct (read_line (s_backend s)) as [[l r]|] eqn:E; [|done].
  intros [= <- <-]. split; [|split; [done|split; [done|intros ->; by eapply read_line_end]]].
  constructor; simpl; try done.
  - rewrite <- app_assoc, <- (read_line_content _ _ _ E). done.
  - exact (read_line_aligned _ _ _ H4 E).
  - rewrite length_app. lia.
Qed.

(** The client has said goodbye. *)
Definition logged_out `{Unicode} (s : Session) : Prop :=
  exists before line cmd, to_backend s = before ++ line /\ imap_parse_command line = Some cmd /\
    ic_command cmd = bs "LOGOUT".

Lemma imap_sniff_inv `{Unicode} client backend n s :
  session_inv client backend s ->
  match imap_sniff n s with
  | HandOver s' => session_inv client backend s'
  | Ended s' => session_inv client backend s' /\ (to_backend s' = concat client \/ logged_out s')
  | IoError => True
  end.
Proof.
  revert s. induction n as [|n IH]; intros s Hi; simpl; [done|].
  destruct (pass_client_line s) as [[line s1]|] eqn:E1; [|done].
  destruct (pass_client_inv _ _ _ _ _ Hi E1) as (Hi1 & Hb1 & Hc1 & Hend).
  destruct (is_nil line) eqn:En.
  { apply is_nil_true in En. subst line. split; [done|]. left. rewrite Hb1, app_nil_r, <- (si_client _ _ _ Hi), Hend by done.
    by rewrite app_nil_r. }
  destruct (imap_parse_command line) as [cmd|] eqn:Ep; [|by apply IH].
  set (s2 := if bool_decide _ then set_name _ s1 else s1).
  assert (Hi2 : session_inv client backend s2) by (unfold s2; case_bool_decide; [by apply set_name_inv|done]).
  assert (Hb2 : to_backend s2 = to_backend s1) by (unfold s2; by case_bool_decide).
  destruct (pass_backend_line s2) as [[resp s3]|] eqn:E3; [|done].
  destruct (pass_backend_inv _ _ _ _ _ Hi2 E3) as (Hi3 & _ & Hb3 & _).
  case_bool_decide; [done|]. case_if; [done|]. case_bool_decide as Hlo; [|by apply IH].
  split; [done|]. right. exists (to_backend s), line, cmd. by rewrite Hb3, Hb2, Hb1.
Qed.

Lemma stratum_sniff_inv `{JsonLib} client backend n s :
  session_inv client backend s ->
  match stratum_sniff n s with
  | HandOver s' => session_inv client backend s'
  | Ended s' => session_inv client backend s' /\ (to_backend s' = concat client \/ to_client s' = concat backend)
  | IoError => True
  end.
Proof.
  revert s. induction n as [|n IH]; intros s Hi; simpl; [done|].
  destruct (pass_client_line s) as [[line s1]|] eqn:E1; [|done].
  destruct (pass_client_inv _ _ _ _ _ Hi E1) as (Hi1 & Hb1 & Hc1 & Hend).
  destruct (is_nil line) eqn:En.
  { apply is_nil_true in En. subst line. split; [done|]. left. rewrite Hb1, app_nil_r, <- (si_client _ _ _ Hi), Hend by done.
    by rewrite app_nil_r. }
  set (s2 := match authorized line with Some msg => set_name _ s1 | None => s1 end).
  assert (Hi2 : session_inv client backend s2) by (unfold s2; case_match; [by apply set_name_inv|done]).
  destruct (pass_backend_line s2) as [[resp s3]|] eqn:E3; [|done].
  destruct (pass_backend_inv _ _ _ _ _ Hi2 E3) as (Hi3 & Hc3 & _ & Hend3).
  destruct (is_nil resp) eqn:Er.
  { apply is_nil_true in Er. subst resp. split; [done|]. right.
    rewrite Hc3, app_nil_r, <- (si_backend _ _ _ Hi2), Hend3 by done. by rewrite app_nil_r. }
  destruct (authorized line); [done|by apply IH].
Qed.

(** The rest of the streams is passed on by the library. *)
Lemma tcp_proxy_inv `{TokioCopySpec} client backend s s' counts :
  session_inv client backend s -> tcp_proxy s = (s', Some counts) ->
  to_backend s' = concat client /\ to_client s' = concat backend /\
  bytes_from_client (add_counts s' (Some counts)) = Z.of_nat (length (concat client)) /\
  bytes_from_backend (add_counts s' (Some counts)) = Z.of_nat (length (concat backend)).
Proof.
  intros [H1 H2 [H3 _] [H4 _] H5 H6]. unfold tcp_proxy, into_inner. unfold content in *. rewrite H3 in H1. rewrite H4 in H2.
  destruct (copy_bidirectional _ _) as [[ab ba] ok] eqn:E. destruct ok; [|done]. intros [= <- <-].
  destruct (copy_complete _ _ _ _ E) as [-> ->]. simpl in *. rewrite <- H1, <- H2, !length_app. split_and!; try done; lia.
Qed.

(** What was passed on is a part of what was sent. *)
Lemma session_inv_prefix client backend s :
  session_inv client backend s -> to_backend s `prefix_of` concat client /\ to_client s `prefix_of` concat backend.
Proof. intros [<- <- _ _ _ _]. split; by eexists. Qed.

(** Examples: a copy without errors, and a JSON reader that knows one message. *)
#[export] Instance plain_copy : TokioCopy | 100 := {| copy_bidirectional a b := (concat a, concat b, true) |}.
#[export] Instance plain_copy_spec : @TokioCopySpec plain_copy.
Proof. by constructor; intros * [= <- <-]. Qed.

Definition authorize_json : JsonLib := {|
  json_from_str s := if bool_decide (s = bs "auth")
    then Some (JObject [(bs "method", JString (bs "mining.authorize")); (bs "params", JArray [JString (bs "w")])])
    else None |}.

Lemma single_line_intro l : LF ∉ l -> single_line (l ++ [LF]).
Proof. by exists l. Qed.

Definition login_line : bytes := bs "a LOGIN u p" ++ CRLF.
Definition greeting_line : bytes := bs "* OK ready" ++ CRLF.
Definition answer_line : bytes := bs "a OK done" ++ CRLF.

Lemma login_line_parsed `{Unicode} : imap_parse_command login_line = Some (mkImapCommand (bs "a") (bs "LOGIN") (bs "u p")).
Proof.
  unfold imap_parse_command. change (splitn 3 (trim login_line) 32) with [bs "a"; bs "LOGIN"; bs "u p"].
  cbv beta iota. by rewrite to_uppercase_ascii by (unfold is_ascii; repeat constructor; lia).
Qed.

(** ** Properties *)

(** The Stratum proxy is transparent to peers that send a line at a time: what reaches
    each side is what the other sent, in order; it is all of it on the side whose peer
    closed, and on both when the session went over to plain copying; and the bytes
    counted are those passed on. *)
Theorem stratum_transparent `{JsonLib} `{TokioCopySpec} client backend s :
  Forall single_line client -> Forall single_line backend -> stratum_proxy client backend = Some s ->
  to_backend s `prefix_of` concat client /\ to_client s `prefix_of` concat backend /\
  (to_backend s = concat client \/ to_client s = concat backend) /\
  bytes_from_client s = Z.of_nat (length (to_backend s)) /\ bytes_from_backend s = Z.of_nat (length (to_client s)).
Proof.
  intros Hc Hb. unfold stratum_proxy. pose proof (stratum_sniff_inv client backend 5 _ (start_inv _ _ Hc Hb)) as Hs.
  destruct (stratum_sniff 5 _) as [s1|s1|]; [|intros [= <-]; destruct Hs as [Hi Ho]|done].
  - destruct (tcp_proxy s1) as [s2 [counts|]] eqn:E; [|done]. intros [= <-].
    destruct (tcp_proxy_inv _ _ _ _ _ Hs E) as (T1 & T2 & T3 & T4). destruct counts as [c2b b2c].
    simpl in *. rewrite T1, T2, T3, T4. split_and!; try done; by left.
  - destruct (session_inv_prefix _ _ _ Hi). split_and!; try done; [apply (si_count_client _ _ _ Hi)|apply (si_count_backend _ _ _ Hi)].
Qed.

Lemma stratum_transparent_witness :
  to_backend (default (start [] []) (@stratum_proxy authorize_json plain_copy [bs "auth" ++ [LF]; bs "x" ++ [LF]] [bs "ok" ++ [LF]]))
    `prefix_of` bs "auth" ++ [LF] ++ bs "x" ++ [LF] /\ s_name
    (default (start [] []) (@stratum_proxy authorize_json plain_copy [bs "auth" ++ [LF]; bs "x" ++ [LF]] [bs "ok" ++ [LF]]))
    = Some (bs "w").
Proof.
  split; [|vm_compute; reflexivity].
  apply (@stratum_transparent authorize_json plain_copy plain_copy_spec [bs "auth" ++ [LF]; bs "x" ++ [LF]] [bs "ok" ++ [LF]]).
  - repeat constructor; apply single_line_intro; apply (bool_decide_unpack _); vm_compute; exact I.
  - repeat constructor; apply single_line_intro; apply (bool_decide_unpack _); vm_compute; exact I.
  - vm_compute. reflexivity.
Defined.

(** The IMAP proxy is transparent to peers that send a line at a time: while copying
    meets no error, what reaches each side is what the other sent, in order, and the
    backend receives all the client sent unless the client logged out or the backend
    closed without a greeting. *)
Theorem imap_transparent `{Unicode} `{TokioCopySpec} client backend s :
  (forall a b, (copy_bidirectional a b).2 = true) ->
  Forall single_line client -> Forall single_line backend -> imap_proxy client backend = Some s ->
  to_backend s `prefix_of` concat client /\ to_client s `prefix_of` concat backend /\
  (to_backend s = concat client \/ logged_out s \/ concat backend = []).
Proof.
  intros Hok Hc Hb. unfold imap_proxy. pose proof (start_inv _ _ Hc Hb) as Hi0.
  destruct (pass_backend_line _) as [[greeting s0]|] eqn:E0; [|done].
  destruct (pass_backend_inv _ _ _ _ _ Hi0 E0) as (Hi & Hc0 & Hb0 & Hend).
  destruct (is_nil greeting) eqn:Eg.
  { intros [= <-]. destruct (session_inv_prefix _ _ _ Hi). split_and!; try done. right. right.
    apply is_nil_true in Eg. rewrite <- (si_backend _ _ _ Hi0), Hend by done. done. }
  pose proof (imap_sniff_inv client backend 10 s0 Hi) as Hs.
  destruct (imap_sniff 10 s0) as [s1|s1|]; [|intros [= <-]; destruct Hs as [Hi1 Ho]|done].
  - destruct (tcp_proxy s1) as [s2 counts] eqn:E. intros [= <-].
    destruct counts as [counts|].
    + destruct (tcp_proxy_inv _ _ _ _ _ Hs E) as (H1' & H2' & _). destruct counts. simpl.
      rewrite H1', H2'. split_and!; try done. by left.
    + exfalso. unfold tcp_proxy in E. specialize (Hok (into_inner (s_client s1)) (into_inner (s_backend s1))).
      destruct (copy_bidirectional _ _) as [[ab ba] ok]. simpl in Hok. by subst ok.
  - destruct (session_inv_prefix _ _ _ Hi1). split_and!; try done. tauto.
Qed.

Lemma imap_transparent_witness :
  to_backend (default (start [] []) (@imap_proxy caseless plain_copy [login_line; bs "b X" ++ CRLF] [greeting_line; answer_line]))
    `prefix_of` concat [login_line; bs "b X" ++ CRLF].
Proof.
  apply (@imap_transparent caseless plain_copy plain_copy_spec [login_line; bs "b X" ++ CRLF] [greeting_line; answer_line]).
  - reflexivity.
  - repeat constructor; eexists _; (split; [apply (app_assoc _ [CR] [LF])|]); apply (bool_decide_unpack _); vm_compute; exact I.
  - repeat constructor; eexists _; (split; [apply (app_assoc _ [CR] [LF])|]); apply (bool_decide_unpack _); vm_compute; exact I.
  - vm_compute. reflexivity.
Defined.

(** Pipelined commands are lost: when a client sends further commands in the same
    segment as its LOGIN, none of them reaches the backend: the proxy takes its buffered
    reader apart and drops what it holds. *)
Theorem pipelined_commands_lost `{Unicode} `{TokioCopy} rest client backend :
  exists s, imap_proxy ((login_line ++ rest) :: client) (greeting_line :: answer_line :: backend) = Some s /\
    to_backend s = login_line ++ (copy_bidirectional client backend).1.1.
Proof.
  assert (Hg : read_line (mkBufReader [] (greeting_line :: answer_line :: backend)) =
    Some (greeting_line, mkBufReader [] (answer_line :: backend))) by (apply (read_line_chunk (bs "* OK ready" ++ [CR])); done || set_solver).
  assert (Ha : read_line (mkBufReader [] (answer_line :: backend)) = Some (answer_line, mkBufReader [] backend))
    by (apply (read_line_chunk (bs "a OK done" ++ [CR])); done || set_solver).
  assert (Hl : read_line (mkBufReader [] ((login_line ++ rest) :: client)) = Some (login_line, mkBufReader rest client)).
  { replace (login_line ++ rest) with ((bs "a LOGIN u p" ++ [CR]) ++ LF :: rest) by done.
    apply (read_line_chunk (bs "a LOGIN u p" ++ [CR])); done || set_solver. }
  unfold imap_proxy, pass_backend_line, start, BufReader_new. cbn [s_backend s_client to_client to_backend]. rewrite Hg.
  cbn [mbind option_bind]. change (is_nil greeting_line) with false. cbv iota.
  remember 9%nat as n eqn:Hn. replace 10%nat with (Datatypes.S n) by (subst; done). cbn [imap_sniff].
  unfold pass_client_line. cbn [s_backend s_client to_client to_backend bytes_from_client bytes_from_backend s_name].
  rewrite Hl. cbn [mbind option_bind]. change (is_nil login_line) with false. rewrite login_line_parsed. cbv iota.
  cbn [ic_command ic_args]. rewrite (bool_decide_eq_true_2 (bs "LOGIN" = bs "LOGIN")) by done. cbv zeta iota.
  unfold pass_backend_line, set_name. cbn [s_backend s_client to_client to_backend bytes_from_client bytes_from_backend s_name].
  rewrite Ha. cbn [mbind option_bind]. unfold tcp_proxy, into_inner. cbn [s_backend s_client pending to_backend].
  destruct (copy_bidirectional client backend) as [[ab ba] ok]. eexists. split; [reflexivity|]. by destruct ok.
Qed.
