(* ===== verification/Acme.v ===== *)
(** * Certificates by ACME: [serverwall-core/src/tls/acme.rs]

    One certificate order ([order_one]): the account, the HTTP-01 challenges and the
    temporary server that answers them, polling the order, the files written.

    [instant-acme] and [rcgen] are the class [AcmeLib]; the answers of the certificate
    authority are its functions, the [n]-th poll of an order the argument [n] of
    [refresh].  Times are milliseconds of a [Clock]. *)

From S2P Require Import Prelude RustStr Net External Toml Schema Fs Config CertStore Balancer Acl LineProxy.
Open Scope Z_scope.

Inductive OrderStatus := OrderPending | OrderReady | OrderProcessing | OrderValid | OrderInvalid.

#[export] Instance OrderStatus_eq_dec : EqDecision OrderStatus.
Proof. solve_decision. Defined.

(** The derived [Debug]. *)
Definition debug_status (s : OrderStatus) : bytes :=
  match s with
  | OrderPending => bs "Pending" | OrderReady => bs "Ready" | OrderProcessing => bs "Processing"
  | OrderValid => bs "Valid" | OrderInvalid => bs "Invalid"
  end.

Record Challenge := mkChallenge { chal_http01 : bool; chal_token : bytes; chal_url : bytes }.

Class AcmeLib := {
  Account : Type;
  AccountCredentials : Type;
  credentials_from_str : bytes -> result AccountCredentials bytes;
  credentials_to_string_pretty : AccountCredentials -> result bytes bytes;
  from_credentials : AccountCredentials -> result Account bytes;
  account_create : bytes -> bytes -> result (Account * AccountCredentials) bytes;
  Order : Type;
  new_order : Account -> bytes -> result Order bytes;
  authorizations : Order -> result (list (list Challenge)) bytes;
  key_authorization : Order -> Challenge -> bytes;
  set_challenge_ready : Order -> bytes -> result unit bytes;
  (** The status and the error, in [Debug], of the order. *)
  refresh : Order -> nat -> result (OrderStatus * bytes) bytes;
  (** The signing request for a name, and its new key in PEM. *)
  serialize_request : bytes -> result (bytes * bytes) bytes;
  finalize : Order -> bytes -> result unit bytes;
  certificate : Order -> result (option bytes) bytes;
}.

(** ** The HTTP-01 challenge server *)

Definition WafFn : Type := bytes -> bytes -> IpAddr -> gmap bytes bytes -> bool.

Section Server.
Context `{Unicode}.

Definition add_header (headers : gmap bytes bytes) (trimmed : bytes) : gmap bytes bytes :=
  match split_once trimmed 58 with
  | Some (name, value) => <[to_lowercase (trim name) := trim value]> headers
  | None => headers
  end.

(** The loop that reads the headers, ended by an empty line or the end of the stream.  Each
    turn consumes a line, so that the number of bytes bounds the turns; [None] is the
    return on a failed read. *)
Fixpoint read_headers (fuel : nat) (r : BufReader) (headers : gmap bytes bytes)
  : option (option (gmap bytes bytes)) :=
  match fuel with
  | O => None
  | S fuel =>
      match read_line r with
      | None => Some None
      | Some (line, r) =>
          if is_nil (trim_line_end line) then Some (Some headers)
          else read_headers fuel r (add_header headers (trim_line_end line))
      end
  end.

Definition acme_prefix : bytes := bs "/.well-known/acme-challenge/".

Definition response_403 : bytes := bs "HTTP/1.1 403 Forbidden" ++ CRLF ++ bs "Content-Length: 0" ++ CRLF ++ CRLF.
Definition response_404 : bytes := bs "HTTP/1.1 404 Not Found" ++ CRLF ++ bs "Content-Length: 0" ++ CRLF ++ CRLF.
Definition response_200 (body : bytes) : bytes :=
  bs "HTTP/1.1 200 OK" ++ CRLF ++ bs "Content-Type: text/plain" ++ CRLF ++
  bs "Content-Length: " ++ show (Z.of_nat (length body)) ++ CRLF ++ CRLF ++ body.

(** The answer to a request for a path. *)
Definition challenge_response (token_map : gmap bytes bytes) (path : bytes) : bytes :=
  match strip_prefix path acme_prefix with
  | Some token => match token_map !! token with
                  | Some key_auth => response_200 key_auth
                  | None => response_404
                  end
  | None => response_404
  end.

(** What is written to the client; [None] when the connection is closed without an answer. *)
Definition serve_challenge (stream : list bytes) (token_map : gmap bytes bytes) (peer : IpAddr)
    (waf : option WafFn) : option bytes :=
  '(request_line, r) ← read_line (BufReader_new stream);
  let parts := split_whitespace request_line in
  let method := default [] (parts !! 0%nat) in
  let path := default [] (parts !! 1%nat) in
  match read_headers (S (length (content r))) r ∅ with
  | Some (Some headers) =>
      if match waf with Some waf_fn => waf_fn method path peer headers | None => false end
      then Some response_403
      else Some (challenge_response token_map path)
  | _ => None
  end.

(** The accept loop, on the connections that arrive before the shutdown. *)
Definition challenge_server `{IpNetworkLib} (token_map : gmap bytes bytes) (allowed : option IpMatcher)
    (waf : option WafFn) (connections : list (IpAddr * list bytes)) : list (option bytes) :=
  (fun c => match allowed with
            | Some matcher => if matches matcher c.1 then serve_challenge c.2 token_map c.1 waf else None
            | None => serve_challenge c.2 token_map c.1 waf
            end) <$> connections.
End Server.

(** ** Orders *)

Record AcmeManager := mkAcmeManager {
  am_enabled : bool;
  am_directory_url : bytes;
  am_email : option bytes;
  am_storage_dir : bytes;
  am_allowed_cidrs : list bytes;
}.

Definition AcmeManager_new (config : AcmeConfig) : AcmeManager :=
  mkAcmeManager (acme_enabled config) (acme_directory_url config) (acme_email config) (acme_storage_dir config)
    (acme_challenge_allowed_cidrs config).

Section Orders.
Context `{AcmeLib} `{IpNetworkLib}.

(** The time a wait that makes poll [n] first is entered, and the time after poll [n]. *)
Record Clock := mkClock { entered : nat -> Z; checked : nat -> Z }.

(** [wait_for_status], with the number of the next poll; the fuel bounds the polls. *)
Fixpoint wait_polls (fuel : nat) (clock : Clock) (order : Order) (target : OrderStatus) (deadline : Z) (n : nat)
  : option (result nat bytes) :=
  match fuel with
  | O => None
  | S fuel =>
      match refresh order n with
      | Err e => Some (Err e)
      | Ok (status, error) =>
          if bool_decide (status = target) then Some (Ok (S n))
          else if bool_decide (status = OrderInvalid)
          then Some (Err (bs "ACME order transitioned to Invalid: " ++ error))
          else if deadline <=? checked clock n
          then Some (Err (bs "timeout waiting for ACME order status " ++ debug_status target ++
                          bs " (current: " ++ debug_status status ++ bs ")"))
          else wait_polls fuel clock order target deadline (S n)
      end
  end.

(** The loop sleeps two seconds between polls: [timeout_secs / 2 + 2] polls reach the deadline. *)
Definition wait_for_status (clock : Clock) (order : Order) (target : OrderStatus)
    (timeout_secs : Z) (n : nat) : option (result nat bytes) :=
  wait_polls (Z.to_nat (timeout_secs / 2) + 2) clock order target (entered clock n + 1000 * timeout_secs) n.

(** [create_dir_all] of the storage directory: directories are not modelled. *)
Definition load_or_create_account (m : AcmeManager) (email : bytes) : io Account :=
  let credentials_path := path_join (am_storage_dir m) (bs "account.json") in
  let! found := fs_exists credentials_path in
  if found : bool then
    let! json := fs_read_to_string credentials_path in
    let! credentials := io_of (credentials_from_str json) in
    io_of (from_credentials credentials)
  else
    let! created := io_of (account_create (bs "mailto:" ++ email) (am_directory_url m)) in
    let! creds_json := io_of (credentials_to_string_pretty created.2) in
    let! _ := fs_write credentials_path creds_json in
    io_ret created.1.

(** The token map and the challenges' addresses; every authorization needs an HTTP-01 challenge. *)
Fixpoint collect_challenges (order : Order) (domain : bytes) (auths : list (list Challenge))
    (token_map : gmap bytes bytes) : result (gmap bytes bytes * list bytes) bytes :=
  match auths with
  | [] => Ok (token_map, [])
  | challenges :: auths =>
      match List.find chal_http01 challenges with
      | None => Err (bs "no HTTP-01 challenge available for " ++ domain)
      | Some c =>
          let? rest := collect_challenges order domain auths
                         (<[chal_token c := key_authorization order c]> token_map) in
          Ok (rest.1, chal_url c :: rest.2)
      end
  end.

Fixpoint notify_ready (order : Order) (urls : list bytes) : result unit bytes :=
  match urls with
  | [] => Ok tt
  | url :: urls => let? _ := set_challenge_ready order url in notify_ready order urls
  end.

Definition safe_name (domain : bytes) : bytes :=
  replace (replace domain (bs "*") (bs "wildcard")) (bs "/") (bs "_").

(** The part of an order that talks to the authority, up to the certificate and its key.
    The second wait starts at the poll after the first. *)
Definition obtain (m : AcmeManager) (clock : Clock) (account : Account) (domain : bytes)
  : option (result (bytes * bytes) bytes) :=
  match (let? order := new_order account domain in
         let? auths := authorizations order in
         let? challenges := collect_challenges order domain auths ∅ in
         let? _ := (if is_nil (am_allowed_cidrs m) then Ok None
                    else match IpMatcher_new (am_allowed_cidrs m) with
                         | Ok matcher => Ok (Some matcher)
                         | Err e => Err (bs "invalid ACME allowed CIDR: " ++ e)
                         end) in
         let? _ := notify_ready order challenges.2 in
         Ok order) with
  | Err e => Some (Err e)
  | Ok order =>
      ready ← wait_for_status clock order OrderReady 60 0;
      match ready with
      | Err e => Some (Err e)
      | Ok n =>
          match (let? csr := serialize_request domain in
                 let? _ := finalize order csr.1 in Ok csr) with
          | Err e => Some (Err e)
          | Ok csr =>
              valid ← wait_for_status clock order OrderValid 60 n;
              Some (let? _ := valid in
                    let? cert := certificate order in
                    match cert with
                    | Some cert_pem => Ok (cert_pem, csr.2)
                    | None => Err (bs "ACME order succeeded but certificate is missing")
                    end)
          end
      end
  end.

(** [None] when the polling does not end. *)
Definition order_one (m : AcmeManager) (clock : Clock) (domain email cert_dir : bytes) (d : disk)
  : option (result unit bytes * disk) :=
  match load_or_create_account m email d with
  | (Err e, d) => Some (Err e, d)
  | (Ok account, d) =>
      r ← obtain m clock account domain;
      match r with
      | Err e => Some (Err e, d)
      | Ok (cert_pem, key_pem) =>
          Some ((let! _ := fs_write (path_join cert_dir (safe_name domain ++ bs ".pem")) cert_pem in
                 fs_write (path_join cert_dir (safe_name domain ++ bs "-key.pem")) key_pem) d)
      end
  end.
End Orders.

(** ** The challenge server answers *)

Section ServerLemmas.
Context `{Unicode}.

(** Reading a line depends on the bytes that arrive, not on how they are cut. *)
Lemma read_until_line chunks buf l rest :
  LF ∉ l -> buf ++ concat chunks = l ++ LF :: rest ->
  exists r, read_until buf chunks = (l ++ [LF], r) /\ content r = rest.
Proof.
  revert buf l. induction chunks as [|c chunks IH]; intros buf l Hl Hc; simpl in *.
  - rewrite app_nil_r in Hc. subst buf. rewrite split_once_app by done. eexists. split; [done|].
    unfold content. simpl. by rewrite app_nil_r.
  - destruct (split_once buf LF) as [[a b]|] eqn:E.
    + apply split_once_Some in E as [-> Ha]. rewrite <- app_assoc in Hc. simpl in Hc.
      pose proof (split_once_app l LF rest Hl) as Hs. rewrite <- Hc, split_once_app in Hs by done.
      injection Hs as -> <-. by eexists.
    + apply split_once_None in E.
      assert (exists l', l = buf ++ l') as [l' ->].
      { destruct (app_eq_app _ _ _ _ Hc) as [k [[-> Hk]|[-> Hk]]]; [|by exists k].
        destruct k as [|x k]; [exists []; by rewrite !app_nil_r|].
        injection Hk as <- _. exfalso. apply E. set_solver. }
      rewrite <- app_assoc in Hc. apply app_inv_head in Hc.
      destruct (IH c l') as (r & -> & Hr); [set_solver|done|]. exists r. by rewrite app_assoc.
Qed.

Lemma read_line_line r l rest :
  LF ∉ l -> is_ascii l -> content r = l ++ CRLF ++ rest ->
  exists r', read_line r = Some (l ++ CRLF, r') /\ content r' = rest.
Proof.
  intros Hl Ha Hc. unfold read_line.
  destruct (read_until_line (pending r) (buffered r) (l ++ [CR]) rest) as (r' & -> & Hr).
  - rewrite elem_of_app, list_elem_of_singleton. by intros [?|?].
  - unfold content in Hc. rewrite Hc, <- app_assoc. done.
  - exists r'. rewrite <- app_assoc. change ([CR] ++ [LF]) with CRLF. rewrite utf8_valid_ascii; [done|].
    apply is_ascii_app. split; [done|]. by repeat constructor.
Qed.

(** A line of a request, without its end. *)
Definition header_line (l : bytes) : Prop := l <> [] /\ (LF ∉ l) /\ is_ascii l.

Definition crlf_lines (ls : list bytes) : bytes := concat ((fun l => l ++ CRLF) <$> ls).

Lemma crlf_lines_length ls : (length ls <= length (crlf_lines ls))%nat.
Proof.
  unfold crlf_lines. induction ls as [|l ls IH]; [done|]. rewrite fmap_cons, concat_cons, !length_app.
  cbn [length]. change (length CRLF) with 2%nat. lia.
Qed.

Lemma read_headers_lines ls fuel r headers rest :
  Forall header_line ls -> (length ls < fuel)%nat ->
  content r = crlf_lines ls ++ CRLF ++ rest ->
  read_headers fuel r headers = Some (Some (foldl add_header headers ls)).
Proof.
  intros Hls. revert fuel r headers.
  induction Hls as [|l ls (Hne & Hlf & Ha) Hls IH]; intros fuel r headers Hf Hc; destruct fuel as [|fuel]; simpl in Hf; try lia.
  - destruct (read_line_line r [] rest) as (r' & Hr & _); [set_solver|constructor|done|]. simpl. rewrite Hr. done.
  - destruct (read_line_line r l (crlf_lines ls ++ CRLF ++ rest)) as (r' & Hr & Hc'); [done..| |].
    { rewrite Hc. unfold crlf_lines. cbn. by rewrite <- !app_assoc. }
    simpl. rewrite Hr, trim_line_end_crlf by done.
    rewrite (proj2 (is_nil_false l)) by done. apply IH; [lia|done].
Qed.

(** To a request with any headers, however its bytes are cut into packets, the challenge
    server answers 403 when the firewall function refuses it, and otherwise the key
    authorization of exactly the token the path names, with its length, or 404. *)
Lemma challenge_request_answered (method path version : bytes) (ls : list bytes) (body : bytes)
    (stream : list bytes) (tokens : gmap bytes bytes) (peer : IpAddr) (waf : option WafFn) :
  plain_token method -> plain_token path -> plain_token version -> Forall header_line ls ->
  concat stream = method ++ [32] ++ path ++ [32] ++ version ++ CRLF ++ crlf_lines ls ++ CRLF ++ body ->
  serve_challenge stream tokens peer waf =
    Some (if match waf with Some f => f method path peer (foldl add_header ∅ ls) | None => false end
          then response_403
          else match strip_prefix path acme_prefix with
               | Some token => match tokens !! token with Some key_auth => response_200 key_auth | None => response_404 end
               | None => response_404
               end).
Proof.
  intros Hm Hp Hv Hls Hs. unfold serve_challenge.
  assert (forall t, plain_token t -> (LF ∉ t) /\ is_ascii t) as Ht.
  { intros t (_ & Ha & Hw). split; [|done]. intros Hin. by rewrite Forall_forall in Hw; apply Hw in Hin. }
  destruct (Ht _ Hm) as [Hml Hma], (Ht _ Hp) as [Hpl Hpa], (Ht _ Hv) as [Hvl Hva].
  destruct (read_line_line (BufReader_new stream) (method ++ [32] ++ path ++ [32] ++ version)
              (crlf_lines ls ++ CRLF ++ body)) as (r & -> & Hr).
  - rewrite !elem_of_app, !list_elem_of_singleton. naive_solver.
  - assert (is_ascii [32]) by (apply Forall_singleton; lia). rewrite !is_ascii_app. tauto.
  - unfold content, BufReader_new. cbn [buffered pending]. by rewrite app_nil_l, Hs, <- !app_assoc.
  - cbn [mbind option_bind]. rewrite <- !app_assoc. simpl ([32] ++ _).
    rewrite split_whitespace_token by done. cbn [app]. rewrite split_whitespace_token by done.
    cbn [lookup list_lookup default].
    rewrite (read_headers_lines ls _ r ∅ body); [|done| |done].
    { unfold challenge_response. destruct waf as [f|]; cbn; [destruct (f _ _ _ _)|]; done. }
    rewrite Hr, !length_app. pose proof (crlf_lines_length ls). lia.
Qed.
End ServerLemmas.

(** ** Orders *)

Section OrderLemmas.
Context `{AcmeLib} `{IpNetworkLib} `{Unicode}.

(** The challenge of an authorization that is answered. *)
Definition chosen (challenges : list Challenge) : option Challenge := List.find chal_http01 challenges.

Lemma collect_challenges_tokens order domain auths tm0 tm urls :
  collect_challenges order domain auths tm0 = Ok (tm, urls) ->
  NoDup (chal_token <$> filter_map chosen auths) ->
  Forall (fun challenges => exists c, chosen challenges = Some c /\
                              tm !! chal_token c = Some (key_authorization order c)) auths /\
  urls = chal_url <$> filter_map chosen auths /\
  (forall t, t ∉ chal_token <$> filter_map chosen auths -> tm !! t = tm0 !! t).
Proof.
  revert tm0 urls. induction auths as [|challenges auths IH]; intros tm0 urls; cbn [collect_challenges filter_map].
  { intros [= <- <-] _. repeat constructor. }
  fold (chosen challenges). destruct (chosen challenges) as [c|] eqn:Ec; [|done]. cbn [fmap list_fmap].
  destruct (collect_challenges order domain auths _) as [[tm' urls']|] eqn:E; [|done]. cbn.
  intros [= -> <-] [Hc Hnd]%NoDup_cons. destruct (IH _ _ E Hnd) as (Hall & -> & Hrest). split_and!; [|done|].
  - constructor; [|done]. exists c. split; [done|]. rewrite Hrest by done. by simplify_map_eq.
  - intros t [Htc Ht]%not_elem_of_cons. rewrite Hrest by done. by simplify_map_eq.
Qed.

(** While an order is open the authority's request for the challenge of any of its
    authorizations, from an address the server accepts, with any headers and however cut into
    packets, is answered with the key authorization of this challenge, unless the firewall
    function refuses it. *)
Theorem challenges_answered (order : Order) (domain : bytes) (auths : list (list Challenge)) (tm : gmap bytes bytes)
    (urls : list bytes) (matcher : option IpMatcher) (waf : option WafFn) (challenges : list Challenge)
    (ls : list bytes) (stream : list bytes) (peer : IpAddr) :
  collect_challenges order domain auths ∅ = Ok (tm, urls) ->
  NoDup (chal_token <$> filter_map chosen auths) ->
  Forall (fun c => plain_token (chal_token c)) (filter_map chosen auths) ->
  challenges ∈ auths ->
  match matcher with Some m => matches m peer = true | None => True end ->
  Forall header_line ls ->
  exists c, chosen challenges = Some c /\ (
    concat stream = bs "GET " ++ (acme_prefix ++ chal_token c) ++ bs " HTTP/1.1" ++ CRLF ++ crlf_lines ls ++ CRLF ->
    match waf with
    | Some f => f (bs "GET") (acme_prefix ++ chal_token c) peer (foldl add_header ∅ ls)
    | None => false
    end = false ->
    challenge_server tm matcher waf [(peer, stream)] = [Some (response_200 (key_authorization order c))]).
Proof.
  intros Hc Hnd Hp Hin Hm Hls.
  destruct (collect_challenges_tokens _ _ _ _ _ _ Hc Hnd) as (Hall & _ & _).
  rewrite Forall_forall in Hall. destruct (Hall _ Hin) as (c & Ec & Ht). exists c. split; [done|]. intros Hs Hw.
  assert (plain_token (chal_token c)) as (Hne & Ha & Hws).
  { rewrite Forall_forall in Hp. apply Hp, elem_of_filter_map. by exists challenges. }
  assert (serve_challenge stream tm peer waf = Some (response_200 (key_authorization order c))) as Hserve.
  { rewrite (challenge_request_answered (bs "GET") (acme_prefix ++ chal_token c) (bs "HTTP/1.1") ls []); try done.
    - by rewrite Hw, strip_prefix_app, Ht.
    - by repeat constructor.
    - split; [by destruct (chal_token c)|]. split; [apply is_ascii_app; split; [|done]|apply Forall_app; split; [|done]];
        by repeat constructor.
    - by repeat constructor. }
  unfold challenge_server. cbn. by destruct matcher; [rewrite Hm|]; rewrite Hserve.
Qed.

(** The clock does not go back, and the loop sleeps two seconds between two polls. *)
Record ticking (clock : Clock) : Prop := {
  entered_before n : entered clock n <= checked clock n;
  polls_apart n : checked clock n + 2000 <= checked clock (S n);
}.

Lemma wait_polls_ends clock order target deadline fuel n :
  ticking clock -> deadline <= checked clock n + 2000 * (Z.of_nat fuel - 1) -> (0 < fuel)%nat ->
  exists r, wait_polls fuel clock order target deadline n = Some r.
Proof.
  intros Ht. revert n. induction fuel as [|fuel IH]; intros n Hd Hf; [lia|]. cbn [wait_polls].
  destruct (refresh order n) as [[status error]|]; [|eauto]. repeat case_bool_decide; eauto.
  destruct (deadline <=? checked clock n) eqn:E; [eauto|]. apply Z.leb_gt in E.
  pose proof (polls_apart _ Ht n). apply IH; [lia|]. destruct fuel; lia.
Qed.

(** What the wait returned was the target status, at the poll before the one it gives. *)
Lemma wait_polls_ok fuel clock order target deadline n n' :
  wait_polls fuel clock order target deadline n = Some (Ok n') ->
  exists k error, n' = S k /\ (n <= k)%nat /\ refresh order k = Ok (target, error) /\
    forall j, (n <= j < k)%nat -> exists status e, refresh order j = Ok (status, e) /\
                                   status <> target /\ status <> OrderInvalid /\ checked clock j < deadline.
Proof.
  revert n. induction fuel as [|fuel IH]; intros n; [done|]. cbn [wait_polls].
  destruct (refresh order n) as [[status error]|] eqn:E; [|done].
  case_bool_decide; [intros [= <-]; subst status; exists n, error; repeat split; [lia|done|lia]|].
  case_bool_decide; [done|]. destruct (deadline <=? checked clock n) eqn:Ed; [done|]. apply Z.leb_gt in Ed.
  intros (k & e & -> & Hk & Hr & Hj)%IH. exists k, e. repeat split; [lia|done|]. intros j Hn.
  destruct (decide (j = n)) as [->|]; [exists status, error; naive_solver|apply Hj; lia].
Qed.

Lemma wait_for_status_ends clock order target secs n :
  ticking clock -> 0 <= secs -> exists r, wait_for_status clock order target secs n = Some r.
Proof.
  intros Ht Hs. apply wait_polls_ends; [done| |lia]. pose proof (entered_before _ Ht n).
  pose proof (Z.div_mod secs 2). pose proof (Z.mod_pos_bound secs 2). lia.
Qed.

Lemma obtain_ends m clock account domain :
  ticking clock -> exists r, obtain m clock account domain = Some r.
Proof.
  intros Ht. unfold obtain. set (prepared := (let? order := _ in _)). destruct prepared as [order|e]; [|eauto].
  destruct (wait_for_status_ends clock order OrderReady 60 0 Ht) as [[n|e] ->]; [done| |eauto]. cbn [mbind option_bind].
  set (csr := (let? csr := _ in _)). destruct csr as [csr|e]; [|eauto].
  destruct (wait_for_status_ends clock order OrderValid 60 n Ht) as [r ->]; [done|]. cbn. eauto.
Qed.

Lemma obtain_ok m clock account domain cert key :
  obtain m clock account domain = Some (Ok (cert, key)) ->
  exists order csr k e,
    new_order account domain = Ok order /\ serialize_request domain = Ok (csr, key) /\
    finalize order csr = Ok tt /\ refresh order k = Ok (OrderValid, e) /\ certificate order = Ok (Some cert).
Proof.
  unfold obtain. destruct (new_order account domain) as [order|] eqn:Eo; cbn [mbind option_bind]; [|done].
  destruct (authorizations order) as [auths|]; [|done]. cbn.
  destruct (collect_challenges _ _ _ _) as [chs|]; [|done]. cbn.
  set (matcher := if is_nil _ then _ else _). destruct matcher as [m'|]; [|done]. cbn.
  destruct (notify_ready _ _); [|done]. cbn.
  destruct (wait_for_status clock order OrderReady 60 0) as [[n|]|]; [|done..]. cbn.
  destruct (serialize_request domain) as [[csr key']|] eqn:Ecsr; [|done]. cbn.
  destruct (finalize order csr) as [[]|] eqn:Ef; [|done].
  destruct (wait_for_status clock order OrderValid 60 n) as [[n'|]|] eqn:Ew; [|done..]. cbn.
  apply wait_polls_ok in Ew as (k & e & _ & _ & Hk & _).
  destruct (certificate order) as [[cert'|]|] eqn:Ecert; [|done..]. cbn. intros [= -> ->].
  by exists order, csr, k, e.
Qed.

Lemma replace_fuel_absent fuel s x r :
  (length s <= fuel)%nat -> x ∉ r -> x ∉ replace_fuel fuel s [x] r.
Proof.
  revert s. induction fuel as [|fuel IH]; intros [|y s] Hl Hr; cbn in *; try lia; try set_solver.
  destruct (x =? y) eqn:E.
  - rewrite elem_of_app. intros [?|Hin]; [done|]. revert Hin. apply IH; [lia|done].
  - apply not_elem_of_cons. split; [lia|]. apply IH; [lia|done].
Qed.

(** Certificates and keys are files of the certificate directory itself. *)
Lemma safe_name_plain domain : 47 ∉ safe_name domain.
Proof. unfold safe_name, replace at 1. apply replace_fuel_absent; [done|]. intros [=]%list_elem_of_singleton. Qed.

Lemma path_join_inj dir a b : path_join dir a = path_join dir b -> a = b.
Proof. unfold path_join. case_match; intros E; [by apply app_inv_head in E|]. do 2 apply app_inv_head in E. done. Qed.

Definition account_path (m : AcmeManager) : bytes := path_join (am_storage_dir m) (bs "account.json").
Definition cert_file (cert_dir domain : bytes) : bytes := path_join cert_dir (safe_name domain ++ bs ".pem").
Definition key_file (cert_dir domain : bytes) : bytes := path_join cert_dir (safe_name domain ++ bs "-key.pem").

Lemma load_account_files m email d p :
  p <> account_path m -> files (load_or_create_account m email d).2 !! p = files d !! p.
Proof.
  intros Hp. unfold load_or_create_account, io_bind, fs_exists, io_of. cbn [files].
  destruct (files d !! _) as [data|].
  - unfold fs_read_to_string, io_bind, io_ret, io_err. pose proof (fs_read_files (account_path m) d) as Hf.
    fold (account_path m). destruct (fs_read (account_path m) d) as [[x|] d']; cbn in Hf |- *; [|by rewrite Hf].
    destruct (utf8_valid x); cbn; [|by rewrite Hf]. destruct (credentials_from_str x); cbn; by rewrite Hf.
  - destruct (account_create _ _) as [created|]; [|done]. destruct (credentials_to_string_pretty _) as [j|]; [|done].
    pose proof (fs_write_other (account_path m) j d p Hp). fold (account_path m).
    by destruct (fs_write (account_path m) j d) as [[|] d'].
Qed.

End OrderLemmas.

(** ** An authority with one challenge, that validates at the third poll *)

#[export] Instance toy_acme : AcmeLib := {|
  Account := unit;
  AccountCredentials := unit;
  credentials_from_str _ := Ok tt;
  credentials_to_string_pretty _ := Ok (bs "{}");
  from_credentials _ := Ok tt;
  account_create _ _ := Ok (tt, tt);
  Order := bytes;
  new_order _ domain := Ok domain;
  authorizations _ := Ok [[mkChallenge false (bs "dns") (bs "d"); mkChallenge true (bs "t0k") (bs "u")]];
  key_authorization order c := chal_token c ++ bs "." ++ order;
  set_challenge_ready _ _ := Ok tt;
  refresh _ n := match n with 0%nat => Ok (OrderPending, []) | 1%nat => Ok (OrderReady, []) | _ => Ok (OrderValid, []) end;
  serialize_request domain := Ok (bs "csr", bs "key");
  finalize _ _ := Ok tt;
  certificate order := Ok (Some (bs "cert " ++ order));
|}.

Definition even_clock : Clock := mkClock (fun n => 2000 * Z.of_nat n) (fun n => 2000 * Z.of_nat n).

Lemma even_clock_ticking : ticking even_clock.
Proof. split; intros n; cbn; lia. Qed.

Definition example_manager : AcmeManager := AcmeManager_new AcmeConfig_default.


Lemma challenges_answered_witness :
  exists c, chosen [mkChallenge true (bs "t0k") (bs "u")] = Some c /\ (
    concat [bs "GET /.well-known/acme-"; bs "challenge/t0k HTTP/1.1" ++ CRLF ++ bs "Host: a" ++ CRLF ++ CRLF] =
      bs "GET " ++ (acme_prefix ++ chal_token c) ++ bs " HTTP/1.1" ++ CRLF ++ crlf_lines [bs "Host: a"] ++ CRLF ->
    false = false ->
    challenge_server (H := caseless) (H0 := host_networks) {[ bs "t0k" := bs "t0k.x" ]} None None
      [(Net.V4 1, [bs "GET /.well-known/acme-"; bs "challenge/t0k HTTP/1.1" ++ CRLF ++ bs "Host: a" ++ CRLF ++ CRLF])] =
      [Some (response_200 (bs "t0k.x"))]).
Proof.
  destruct (challenges_answered (H := toy_acme) (H0 := host_networks) (H1 := caseless) (bs "x") (bs "x")
    [[mkChallenge true (bs "t0k") (bs "u")]] {[ bs "t0k" := bs "t0k.x" ]} [bs "u"] None None
    [mkChallenge true (bs "t0k") (bs "u")] [bs "Host: a"]
    [bs "GET /.well-known/acme-"; bs "challenge/t0k HTTP/1.1" ++ CRLF ++ bs "Host: a" ++ CRLF ++ CRLF] (Net.V4 1))
    as (c & Hc & Hs).
  - reflexivity.
  - apply NoDup_singleton.
  - repeat constructor; done.
  - left.
  - exact I.
  - constructor; [|constructor]. split; [done|]. split; [|by repeat constructor]. by vm_compute; set_solver.
  - exists c. split; [exact Hc|]. injection Hc as <-. exact Hs.
Defined.
