(* ===== verification/HttpProxy.v ===== *)
(** * The HTTP proxy: [serverwall-proxy/src/proxy/http_proxy.rs]

    The handling of one request: the gates it passes in order, the choice of the
    backend, the request written to the backend and the response written to the
    client, and the line of the access log ([logging/apache.rs]). *)

From S2P Require Import Prelude RustStr Schema Net External Fs Config Balancer Acl WafRules WafMatcher WafEngine Float64 RateLimit.
Open Scope Z_scope.

(** ** The [http] and [flate2] libraries *)

(** [HeaderValue::to_str] succeeds; [HeaderName::from_bytes], which normalises the name;
    [HeaderValue::from_str] succeeds; an URI parses; gzip. *)
Class HttpLib := {
  value_to_str : bytes -> bool;
  header_name : bytes -> option bytes;
  value_from_str : bytes -> bool;
  uri_parses : bytes -> bool;
  gzip : bytes -> option bytes;
}.

(** The characters of a header name (a token), and of a value that is text. *)
Definition is_token_char (b : Z) : bool :=
  ((48 <=? b) && (b <=? 57)) || ((65 <=? b) && (b <=? 90)) || ((97 <=? b) && (b <=? 122)) ||
  existsb (Z.eqb b) (bs "!#$%&'*+-.^_`|~").
Definition is_visible (b : Z) : bool := ((32 <=? b) && (b <? 127)) || (b =? 9).

Definition is_token (n : bytes) : bool :=
  negb (is_nil n) && forallb is_token_char n && (Z.of_nat (length n) <? 65536).

(** Documented behaviour of [http]. *)
Class HttpSpec `{HttpLib} := {
  header_name_spec n : header_name n = if is_token n then Some (ascii_lower <$> n) else None;
  value_to_str_spec v : value_to_str v = forallb is_visible v;
  value_from_str_spec v : value_from_str v = forallb is_visible v;
}.

(** An instance for the examples: every URI parses and nothing compresses. *)
#[export] Instance plain_http : HttpLib | 100 := {|
  value_to_str := forallb is_visible;
  header_name n := if is_token n then Some (ascii_lower <$> n) else None;
  value_from_str := forallb is_visible;
  uri_parses _ := true;
  gzip _ := None;
|}.
#[export] Instance plain_http_spec : @HttpSpec plain_http.
Proof. by constructor. Qed.

(** ** Requests and responses *)

(** A request as the server library presents it: its headers in iteration order, [None]
    for a body that cannot be read. *)
Record Request := mkRequest {
  rq_method : bytes;
  rq_uri : bytes;
  rq_path : bytes;
  rq_path_and_query : option bytes;
  rq_headers : list (bytes * bytes);
  rq_body : option bytes;
}.

Record Response := mkResponse { rs_status : Z; rs_headers : list (bytes * bytes); rs_body : bytes }.

(** What a backend answers; [None] for a body that cannot be read. *)
Record BackendResponse := mkBackendResponse {
  br_status : Z; br_headers : list (bytes * bytes); br_body : option bytes }.

Record Outbound := mkOutbound {
  out_method : bytes; out_uri : bytes; out_headers : list (bytes * bytes); out_body : bytes }.

Definition error_response (status : Z) (body : bytes) : Response :=
  mkResponse status [(bs "content-type", bs "text/plain")] body.

Definition HOP_BY_HOP_HEADERS : list bytes :=
  [bs "connection"; bs "keep-alive"; bs "proxy-authenticate"; bs "proxy-authorization"; bs "proxy-connection";
   bs "te"; bs "trailer"; bs "transfer-encoding"; bs "upgrade"].

Definition FINGERPRINT_HEADERS : list bytes :=
  [bs "x-aspnet-version"; bs "x-aspnetmvc-version"; bs "x-generator"; bs "x-runtime"; bs "x-rack-cache";
   bs "x-pingback"; bs "x-powered-cms"; bs "x-cf-powered-by"].

Definition KNOWN_BAD_BOT_SIGNATURES : list bytes :=
  [bs "masscan"; bs "nikto"; bs "sqlmap"; bs "nmap"; bs "zgrab"; bs "python-requests"; bs "go-http-client";
   bs "curl/"; bs "wget/"; bs "libwww-perl"; bs "scrapy"; bs "semrushbot"; bs "ahrefsbot"; bs "mj12bot";
   bs "dotbot"; bs "blexbot"; bs "majestic"; bs "petalbot"; bs "bytespider"; bs "claudebot"].

Definition member (x : bytes) (l : list bytes) : bool := bool_decide (x ∈ l).

(** Headers under construction: an invalid one spoils the builder. *)
Definition builder : Type := option (list (bytes * bytes)).

Section Text.
Context `{Unicode} `{HttpLib}.

Definition add_header (name value : bytes) (b : builder) : builder :=
  hs ← b;
  match header_name name with
  | Some n => if value_from_str value then Some (hs ++ [(n, value)]) else None
  | None => None
  end.

(** [if let Ok(..)] around the name and the value: an invalid one is left out. *)
Definition try_header (name value : bytes) (b : builder) : builder :=
  match header_name name with
  | Some n => if value_from_str value then (fun hs => hs ++ [(n, value)]) <$> b else b
  | None => b
  end.

Definition is_blocked_bot (user_agent : bytes) (config : BotDetectionConfig) : bool :=
  let ua_lower := to_lowercase user_agent in
  if existsb (fun good => contains ua_lower (to_lowercase good)) (known_good_bots config) then false
  else existsb (contains ua_lower) KNOWN_BAD_BOT_SIGNATURES.

(** The attributes of a cookie under the policy. *)
Definition policy_attrs (cfg : CookieSecurityConfig) (is_tls : bool) (attrs : list bytes) : list bytes :=
  let lower := to_lowercase <$> attrs in
  let attrs := if enforce_secure_flag cfg && is_tls && negb (member (bs "secure") lower)
               then attrs ++ [bs "Secure"] else attrs in
  let attrs := if enforce_httponly_flag cfg && negb (member (bs "httponly") lower)
               then attrs ++ [bs "HttpOnly"] else attrs in
  match enforce_samesite cfg with
  | Some samesite =>
      List.filter (fun a => negb (starts_with (to_lowercase a) (bs "samesite"))) attrs ++
      [bs "SameSite=" ++ samesite]
  | None => attrs
  end.

Definition enforce_set_cookie (value : bytes) (cfg : CookieSecurityConfig) (is_tls : bool) : option bytes :=
  match split value 59 with
  | [] => Some value
  | first :: rest =>
      let name_value := trim first in
      if (0 <? max_cookie_size cfg) && (max_cookie_size cfg <? Z.of_nat (length name_value)) then None
      else Some (name_value ++ concat ((fun a => bs "; " ++ a) <$> policy_attrs cfg is_tls (trim <$> rest)))
  end.

Definition parse_cookie (headers : hmap) (name : bytes) : option bytes :=
  cookie_header ← hm_get headers (bs "cookie");
  head (filter_map (fun pair =>
    match split_once (trim pair) 61 with
    | Some (k, v) => if bool_decide (trim k = name) then Some (trim v) else None
    | None => None
    end) (split cookie_header 59)).

(** The headers whose value is text, the last of each name. *)
Definition collect_headers (hs : list (bytes * bytes)) : hmap :=
  hm_collect (filter_map (fun h => if value_to_str h.2 then Some (to_lowercase h.1, h.2) else None) hs).
End Text.

(** ** The access log *)

Record ApacheLogEntry := mkApacheLog {
  al_client_ip : IpAddr;
  al_ident : bytes;
  al_user : bytes;
  al_timestamp : bytes;
  al_method : bytes;
  al_path : bytes;
  al_protocol : bytes;
  al_status : Z;
  al_bytes : Z;
  al_referer : option bytes;
  al_user_agent : option bytes;
}.

Definition quoted (s : bytes) : bytes := [34] ++ s ++ [34].

(** The rendered timestamp is part of the entry. *)
Definition apache_format (e : ApacheLogEntry) : bytes :=
  show_ip (al_client_ip e) ++ bs " " ++ al_ident e ++ bs " " ++ al_user e ++ bs " [" ++ al_timestamp e ++ bs "] " ++
  quoted (al_method e ++ bs " " ++ al_path e ++ bs " " ++ al_protocol e) ++ bs " " ++ show (al_status e) ++ bs " " ++
  show (al_bytes e) ++ bs " " ++ quoted (unwrap_or (bs "-") (al_referer e)) ++ bs " " ++
  quoted (unwrap_or (bs "-") (al_user_agent e)).

Definition formatter_format (timestamp : bytes) (ip : IpAddr) (mth pth : bytes) (status bytes_sent : Z)
    (referer ua : option bytes) : bytes :=
  apache_format (mkApacheLog ip (bs "-") (bs "-") timestamp mth pth (bs "HTTP/1.1") status bytes_sent referer ua).

(** ** One request *)

Section Handle.
Context `{Unicode} `{HttpLib} `{RegexSetLib} `{IpNetworkLib} `{GeoLib} {S : Type} `{LoadBalancer S}.

Record HttpProxy := mkHttpProxy {
  hp_waf : option WafEngine.WafEngine;
  hp_frontend : FrontendConfig;
  hp_security_headers : SecurityHeadersConfig;
  hp_path_acl : option PathAcl;
  hp_bot_detection : BotDetectionConfig;
  hsts_max_age : option Z;
  hsts_include_subdomains : bool;
  hp_cookie_security : CookieSecurityConfig;
  hp_log : bool;
  hp_log_format : LogFormat;
  acl_bypass_waf : bool;
  domain_allow : list bytes;
  domain_block : list bytes;
}.

(** What requests change: the rate limiters, and the balancer with its backends. *)
Record HttpState := mkHttpState {
  rate_limiters : list (RateLimiter * RateLimitKey);
  hs_pipeline : RequestPipeline S;
}.

(** What one request meets: the clock, the identifier drawn, the renderings of the time,
    and the backends, [None] for a failed exchange. *)
Record HttpWorld := mkHttpWorld {
  hw_now : Z;
  hw_request_id : bytes;
  hw_rfc3339 : bytes;
  hw_apache_time : bytes;
  hw_backend : Backend -> Outbound -> option BackendResponse;
}.

Context (p : HttpProxy) (client_ip : IpAddr) (ja3 : option bytes).

Definition forbidden : Response := error_response 403 (bs "Forbidden").
Definition bad_gateway : Response := error_response 502 (bs "Bad Gateway").
Definition internal_error : Response := error_response 500 (bs "Internal Server Error").

Definition path_gate (req : Request) : bool :=
  match hp_path_acl p with
  | Some acl => negb (bool_decide (path_check acl (rq_path req) = Some Deny))
  | None => true
  end.

Definition host_of (headers : hmap) : bytes :=
  match hm_get headers (bs "host") with
  | Some h => to_lowercase (unwrap_or h (head (split h 58)))
  | None => []
  end.

Definition domain_gate (headers : hmap) : bool :=
  if negb (is_nil (domain_allow p)) || negb (is_nil (domain_block p)) then
    let host := host_of headers in
    if is_nil host then true
    else
      negb (existsb (fun d => bool_decide (host = to_lowercase d)) (domain_block p)) &&
      (is_nil (domain_allow p) || existsb (fun d => bool_decide (host = to_lowercase d)) (domain_allow p))
  else true.

Definition bot_gate (headers : hmap) : bool :=
  if bot_enabled (hp_bot_detection p) then
    let ua := unwrap_or [] (hm_get headers (bs "user-agent")) in
    negb (is_blocked_bot ua (hp_bot_detection p)) &&
    match ja3 with
    | Some j => negb (member j (ja3_fingerprint_block_list (hp_bot_detection p)))
    | None => true
    end
  else true.

Definition limit_key (headers : hmap) (key : RateLimitKey) : bytes :=
  match key with
  | ClientIp => show_ip client_ip
  | Header h => unwrap_or [] (hm_get headers (to_lowercase h))
  end.

(** The limiters in order, up to the first that refuses; those after it are untouched. *)
Fixpoint rate_gate (now : Z) (headers : hmap) (ls : list (RateLimiter * RateLimitKey))
  : bool * list (RateLimiter * RateLimitKey) :=
  match ls with
  | [] => (true, [])
  | (limiter, key) :: ls =>
      let k := limit_key headers key in
      if is_nil k then let '(ok, ls) := rate_gate now headers ls in (ok, (limiter, key) :: ls)
      else
        let '(allowed, limiter) := check_key now limiter k in
        if allowed then let '(ok, ls) := rate_gate now headers ls in (ok, (limiter, key) :: ls)
        else (false, (limiter, key) :: ls)
  end.

Definition waf_context (req : Request) (headers : hmap) (body : bytes) : HttpRequestContext :=
  from_parts (rq_method req) (rq_uri req) headers body client_ip ja3.

Definition waf_gate (pl : RequestPipeline S) (req : Request) (headers : hmap) (body : bytes) : bool :=
  let waf_bypassed := acl_bypass_waf p && is_globally_allowed pl client_ip in
  match hp_waf p with
  | Some waf =>
      if fr_waf_enabled (hp_frontend p) && negb waf_bypassed
      then negb (is_blocked (decision (inspect waf (waf_context req headers body))))
      else true
  | None => true
  end.

(** *** The choice of the backend *)

Definition sticky : bool := bool_decide (fr_balancer (hp_frontend p) = StickySession).

Definition sticky_tag (headers : hmap) : option bytes :=
  if sticky then parse_cookie headers (session_cookie (hp_frontend p)) else None.

(** The position of the backend, counted by its guard in the new pipeline. *)
Definition pick_backend (headers : hmap) (pl : RequestPipeline S) : result nat ServerWallError * RequestPipeline S :=
  match (tag ← sticky_tag headers; find_backend_by_tag pl tag) with
  | Some i => (Ok i, with_backends pl (alter guard_new i (pl_backends pl)))
  | None => select_backend pl client_ip
  end.

(** *** The request to the backend *)

Definition is_tls : bool := bool_decide (fr_protocol (hp_frontend p) = Https).

Definition copied_headers (headers : hmap) (b : builder) : builder :=
  fold_left (fun b h =>
    if member (to_lowercase h.1) HOP_BY_HOP_HEADERS then b else try_header h.1 h.2 b) headers b.

Definition when_header (c : bool) (name value : bytes) (b : builder) : builder :=
  if c then add_header name value b else b.

Definition proxy_headers (request_id : bytes) (headers : hmap) (b : builder) : builder :=
  let cfg := fr_headers (hp_frontend p) in
  let host := hm_get headers (bs "host") in
  let xff := match hm_get headers (bs "x-forwarded-for") with
             | Some existing => existing ++ bs ", " ++ show_ip client_ip
             | None => show_ip client_ip
             end in
  let b := when_header (x_forwarded_for cfg) (bs "X-Forwarded-For") xff b in
  let b := when_header (x_real_ip cfg) (bs "X-Real-IP") (show_ip client_ip) b in
  let b := when_header (x_forwarded_proto cfg) (bs "X-Forwarded-Proto") (if is_tls then bs "https" else bs "http") b in
  let b := match host with
           | Some h => when_header (x_forwarded_host cfg) (bs "X-Forwarded-Host") h b
           | None => b
           end in
  let b := match host with
           | Some h => when_header (x_forwarded_port cfg) (bs "X-Forwarded-Port") (rsplit_next h 58) b
           | None => b
           end in
  when_header (x_request_id cfg) (bs "X-Request-ID") request_id b.

Definition custom_headers (b : builder) : builder :=
  fold_left (fun b c => try_header (ch_name c) (ch_value c) b) (custom (fr_headers (hp_frontend p))) b.

Definition backend_uri (req : Request) (b : Backend) : bytes :=
  bs "http://" ++ show_socket_addr (b_address b) ++ unwrap_or (bs "/") (rq_path_and_query req).

Definition build_outbound (request_id : bytes) (req : Request) (headers : hmap) (body : bytes) (backend : Backend)
  : option Outbound :=
  let uri := backend_uri req backend in
  let start : builder := if uri_parses uri then Some [] else None in
  hs ← custom_headers (proxy_headers request_id headers (copied_headers headers start));
  Some (mkOutbound (rq_method req) uri hs body).

(** *** The response to the client *)

(** [HeaderMap::get]: the first value of a name. *)
Definition first_header (hs : list (bytes * bytes)) (name : bytes) : option bytes :=
  snd <$> List.find (fun h => bool_decide (h.1 = name)) hs.

Definition should_compress (headers : hmap) (resp : list (bytes * bytes)) (body : bytes) : bool :=
  let sec := hp_security_headers p in
  let wants_gzip := match hm_get headers (bs "accept-encoding") with
                    | Some v => contains v (bs "gzip")
                    | None => false
                    end in
  let backend_has_encoding := match first_header resp (bs "content-encoding") with Some _ => true | None => false end in
  let content_type := match first_header resp (bs "content-type") with
                      | Some v => if value_to_str v then v else []
                      | None => []
                      end in
  compress_responses sec && wants_gzip && negb backend_has_encoding &&
  existsb (starts_with content_type) (compress_types sec) && (compress_min_size sec <=? Z.of_nat (length body)).

Definition compress (headers : hmap) (resp : list (bytes * bytes)) (body : bytes) : bytes * bool :=
  if should_compress headers resp body
  then match gzip body with Some z => (z, true) | None => (body, false) end
  else (body, false).

(** The headers of the backend that are not passed on. *)
Definition dropped (did_compress : bool) (lower : bytes) : bool :=
  member lower HOP_BY_HOP_HEADERS || bool_decide (lower = bs "server") ||
  (bool_decide (lower = bs "content-length") && did_compress) ||
  (bool_decide (lower = bs "x-powered-by") && remove_x_powered_by (hp_security_headers p)) ||
  member lower FINGERPRINT_HEADERS.

Definition copy_response_header (did_compress : bool) (b : builder) (h : bytes * bytes) : builder :=
  let lower := to_lowercase h.1 in
  if dropped did_compress lower then b
  else if bool_decide (lower = bs "set-cookie") then
    if value_to_str h.2 then
      match enforce_set_cookie h.2 (hp_cookie_security p) is_tls with
      | Some rewritten => add_header (bs "Set-Cookie") rewritten b
      | None => b
      end
    else b
  else (fun hs => hs ++ [h]) <$> b.

Definition option_header (name : bytes) (value : option bytes) (b : builder) : builder :=
  match value with Some v => add_header name v b | None => b end.

Definition sticky_cookie (backend : Backend) : bytes :=
  session_cookie (hp_frontend p) ++ bs "=" ++ b_tag backend ++ bs "; Path=/; HttpOnly; SameSite=Lax" ++
  (if is_tls then bs "; Secure" else []).

Definition security_response_headers (backend : Backend) (did_compress : bool) (body : bytes) (b : builder) : builder :=
  let sec := hp_security_headers p in
  let b := when_header (add_x_content_type_options sec) (bs "X-Content-Type-Options") (bs "nosniff") b in
  let b := option_header (bs "X-Frame-Options") (add_x_frame_options sec) b in
  let b := option_header (bs "Referrer-Policy") (add_referrer_policy sec) b in
  let b := option_header (bs "Content-Security-Policy") (add_content_security_policy sec) b in
  let b := when_header sticky (bs "Set-Cookie") (sticky_cookie backend) b in
  let b := match hsts_max_age p with
           | Some max_age =>
               add_header (bs "Strict-Transport-Security")
                 (bs "max-age=" ++ show max_age ++
                  (if hsts_include_subdomains p then bs "; includeSubDomains" else [])) b
           | None => b
           end in
  if did_compress then
    add_header (bs "Content-Length") (show (Z.of_nat (length body)))
      (add_header (bs "Vary") (bs "Accept-Encoding") (add_header (bs "Content-Encoding") (bs "gzip") b))
  else b.

(** [Err] is an error response, which is not logged. *)
Definition build_response (headers : hmap) (backend : Backend) (br : BackendResponse) : result Response Response :=
  match br_body br with
  | None => Err bad_gateway
  | Some body =>
      let '(body, did_compress) := compress headers (br_headers br) body in
      match security_response_headers backend did_compress body
              (fold_left (copy_response_header did_compress) (br_headers br) (Some [])) with
      | Some hs => Ok (mkResponse (br_status br) hs body)
      | None => Err internal_error
      end
  end.

(** The line of the access log, for a response that was built. *)
Definition log_line (w : HttpWorld) (req : Request) (headers : hmap) (backend : Backend) (br : BackendResponse)
    (status bytes_sent : Z) : bytes :=
  match hp_log_format p with
  | Json =>
      bs "{" ++ quoted (bs "time") ++ bs ":" ++ quoted (hw_rfc3339 w) ++ bs "," ++
      quoted (bs "client") ++ bs ":" ++ quoted (show_ip client_ip) ++ bs "," ++
      quoted (bs "method") ++ bs ":" ++ quoted (rq_method req) ++ bs "," ++
      quoted (bs "uri") ++ bs ":" ++ quoted (rq_uri req) ++ bs "," ++
      quoted (bs "status") ++ bs ":" ++ show status ++ bs "," ++
      quoted (bs "bytes") ++ bs ":" ++ show bytes_sent ++ bs "," ++
      quoted (bs "backend") ++ bs ":" ++ quoted (b_tag backend) ++ bs "}" ++ [LF]
  | _ =>
      let referer := match first_header (br_headers br) (bs "referer") with
                     | Some v => if value_to_str v then Some v else None
                     | None => None
                     end in
      formatter_format (hw_apache_time w) client_ip (rq_method req) (unwrap_or (bs "/") (rq_path_and_query req))
        status bytes_sent referer (hm_get headers (bs "user-agent")) ++ [LF]
  end.

(** What became of a request: the response, the state after it, what was sent to which
    backend, and the line logged. *)
Record Handled := mkHandled {
  h_response : Response;
  h_state : HttpState;
  h_forwarded : option (Backend * Outbound);
  h_log : option bytes;
}.

Definition refuse (r : Response) (st : HttpState) : Handled := mkHandled r st None None.

(** The exchange with the backend at position [i], whose guard is held. *)
Definition exchange (w : HttpWorld) (st : HttpState) (req : Request) (headers : hmap) (body : bytes) (i : nat)
    (backend : Backend) : Handled :=
  let st := mkHttpState (rate_limiters st) (release i (hs_pipeline st)) in
  match build_outbound (hw_request_id w) req headers body backend with
  | None => refuse internal_error st
  | Some out =>
      match hw_backend w backend out with
      | None => mkHandled bad_gateway st (Some (backend, out)) None
      | Some br =>
          match build_response headers backend br with
          | Err r => mkHandled r st (Some (backend, out)) None
          | Ok r =>
              mkHandled r st (Some (backend, out))
                (if hp_log p
                 then Some (log_line w req headers backend br (rs_status r) (Z.of_nat (length (rs_body r))))
                 else None)
          end
      end
  end.

(** [handle_request]. *)
Definition handle_request (w : HttpWorld) (st : HttpState) (req : Request) : Handled :=
  let headers := collect_headers (rq_headers req) in
  match rq_body req with
  | None => refuse (error_response 400 (bs "Bad Request")) st
  | Some body =>
      if negb (path_gate req) then refuse forbidden st
      else if negb (domain_gate headers) then refuse forbidden st
      else if negb (bot_gate headers) then refuse forbidden st
      else
        let '(allowed, limiters) := rate_gate (hw_now w) headers (rate_limiters st) in
        let st := mkHttpState limiters (hs_pipeline st) in
        if negb allowed then refuse (error_response 429 (bs "Too Many Requests")) st
        else if negb (waf_gate (hs_pipeline st) req headers body) then refuse forbidden st
        else
          let '(picked, pl) := pick_backend headers (hs_pipeline st) in
          let st := mkHttpState limiters pl in
          match picked with
          | Err _ => refuse bad_gateway st
          | Ok i =>
              match pl_backends pl !! i with
              | None => refuse bad_gateway st
              | Some backend => exchange w st req headers body i backend
              end
          end
  end.
End Handle.

Arguments HttpState {_ _} S.
Arguments Handled {_ _} S.

(** ** Cookies *)

Section CookieLemmas.
Context `{Unicode}.

(** The attributes of a cookie, as the policy reads them. *)
Definition cookie_attrs (value : bytes) : list bytes := trim <$> tail (split value 59).
Definition has_attr (a value : bytes) : Prop := a ∈ to_lowercase <$> cookie_attrs value.
Definition is_samesite (a : bytes) : bool := starts_with (to_lowercase a) (bs "samesite").

Definition clean_samesite (cfg : CookieSecurityConfig) : Prop :=
  match enforce_samesite cfg with Some s => s ∈ [bs "Strict"; bs "Lax"; bs "None"] | None => True end.

Definition clean_attr (a : bytes) : Prop := (59 ∉ a) /\ trim a = a.

Lemma split_attrs nv attrs :
  59 ∉ nv -> Forall clean_attr attrs ->
  split (nv ++ concat ((fun a => bs "; " ++ a) <$> attrs)) 59 = nv :: ((fun a => 32 :: a) <$> attrs).
Proof.
  intros Hn Ha. revert nv Hn. induction Ha as [|a attrs [Hc _] Ha IH]; intros nv Hn; cbn [fmap list_fmap concat].
  { rewrite app_nil_r. by apply split_none. }
  change (bs "; " ++ a) with (59 :: (32 :: a)). rewrite <- app_comm_cons, split_app by done.
  f_equal. apply IH. apply not_elem_of_cons. split; [done|done].
Qed.

Lemma trim_attrs attrs : Forall clean_attr attrs -> trim <$> ((fun a => 32 :: a) <$> attrs) = attrs.
Proof.
  intros Ha. rewrite <- list_fmap_compose.
  induction Ha as [|a attrs [_ Ht] Ha IH]; [done|]. rewrite fmap_cons, IH. by rewrite <- Ht at 2.
Qed.

Lemma cookie_attrs_join nv attrs :
  59 ∉ nv -> Forall clean_attr attrs ->
  cookie_attrs (nv ++ concat ((fun a => bs "; " ++ a) <$> attrs)) = attrs.
Proof.
  intros Hn Ha. unfold cookie_attrs. rewrite split_attrs by done. by apply trim_attrs.
Qed.

Lemma lower_secure : to_lowercase (bs "Secure") = bs "secure".
Proof. by rewrite to_lowercase_ascii by (unfold is_ascii; repeat constructor; lia). Qed.
Lemma lower_httponly : to_lowercase (bs "HttpOnly") = bs "httponly".
Proof. by rewrite to_lowercase_ascii by (unfold is_ascii; repeat constructor; lia). Qed.

Lemma clean_policy_attrs cfg tls attrs :
  clean_samesite cfg -> Forall clean_attr attrs -> Forall clean_attr (policy_attrs cfg tls attrs).
Proof.
  intros Hs Ha. unfold policy_attrs.
  set (a1 := if enforce_secure_flag cfg && tls && _ then _ else _).
  set (a2 := if enforce_httponly_flag cfg && _ then _ else _).
  assert (H1 : Forall clean_attr a1).
  { unfold a1. case_match; [apply Forall_app; split; [done|]|done]. repeat constructor. set_solver. }
  assert (H2 : Forall clean_attr a2).
  { unfold a2. case_match; [apply Forall_app; split; [done|]|done]. repeat constructor. set_solver. }
  unfold clean_samesite in Hs. destruct (enforce_samesite cfg) as [s|]; [|done].
  apply Forall_app. split.
  - apply Forall_forall. intros x [Hx _]%list_elem_of_In%filter_In. apply list_elem_of_In in Hx.
    by apply (proj1 (Forall_forall _ _) H2).
  - constructor; [|constructor].
    apply (proj1 (Forall_forall (fun s => clean_attr (bs "SameSite=" ++ s)) [bs "Strict"; bs "Lax"; bs "None"])); [|done].
    repeat constructor; try (apply (bool_decide_unpack _); vm_compute; exact I).
Qed.

Definition keep_samesite (cfg : CookieSecurityConfig) (attrs : list bytes) : list bytes :=
  match enforce_samesite cfg with
  | Some s => List.filter (fun a => negb (is_samesite a)) attrs ++ [bs "SameSite=" ++ s]
  | None => attrs
  end.

(** An attribute that is not SameSite survives. *)
Lemma keep_samesite_elem cfg x attrs :
  starts_with x (bs "samesite") = false -> x ∈ to_lowercase <$> attrs -> x ∈ to_lowercase <$> keep_samesite cfg attrs.
Proof.
  intros Hx (a & -> & Ha)%list_elem_of_fmap. unfold keep_samesite. destruct (enforce_samesite cfg); [|by apply list_elem_of_fmap_2].
  rewrite fmap_app, elem_of_app. left. apply list_elem_of_fmap_2, list_elem_of_In, filter_In.
  split; [by apply list_elem_of_In|]. unfold is_samesite. by rewrite Hx.
Qed.

Lemma member_true x l : member x l = true <-> x ∈ l.
Proof. unfold member. by rewrite bool_decide_eq_true. Qed.
Lemma member_false x l : member x l = false <-> x ∉ l.
Proof. unfold member. by rewrite bool_decide_eq_false. Qed.

(** Adding a missing flag makes it present and keeps the others. *)
Definition add_flag (c : bool) (flag lower : bytes) (base attrs : list bytes) : list bytes :=
  if c && negb (member lower (to_lowercase <$> base)) then attrs ++ [flag] else attrs.

Lemma policy_attrs_eq cfg tls attrs :
  policy_attrs cfg tls attrs =
  keep_samesite cfg (add_flag (enforce_httponly_flag cfg) (bs "HttpOnly") (bs "httponly") attrs
    (add_flag (enforce_secure_flag cfg && tls) (bs "Secure") (bs "secure") attrs attrs)).
Proof. done. Qed.

Lemma add_flag_mono c flag lower base attrs x :
  x ∈ to_lowercase <$> attrs -> x ∈ to_lowercase <$> add_flag c flag lower base attrs.
Proof. intros Hx. unfold add_flag. case_match; [|done]. rewrite fmap_app, elem_of_app. by left. Qed.

Lemma add_flag_present flag lower base attrs :
  to_lowercase flag = lower -> (lower ∈ to_lowercase <$> base -> lower ∈ to_lowercase <$> attrs) ->
  lower ∈ to_lowercase <$> add_flag true flag lower base attrs.
Proof.
  intros Hf Hb. unfold add_flag. simpl. destruct (member lower _) eqn:E; simpl.
  - apply member_true in E. by apply Hb.
  - rewrite fmap_app, elem_of_app. right. simpl. rewrite Hf. by left.
Qed.

Lemma policy_secure cfg tls attrs :
  enforce_secure_flag cfg && tls = true -> bs "secure" ∈ to_lowercase <$> policy_attrs cfg tls attrs.
Proof.
  intros Hc. rewrite policy_attrs_eq, Hc. apply keep_samesite_elem; [done|]. apply add_flag_mono.
  by apply add_flag_present; [apply lower_secure|].
Qed.

Lemma policy_httponly cfg tls attrs :
  enforce_httponly_flag cfg = true -> bs "httponly" ∈ to_lowercase <$> policy_attrs cfg tls attrs.
Proof.
  intros Hc. rewrite policy_attrs_eq, Hc. apply keep_samesite_elem; [done|].
  apply add_flag_present; [apply lower_httponly|apply add_flag_mono].
Qed.

Lemma is_samesite_enforced s : s ∈ [bs "Strict"; bs "Lax"; bs "None"] -> is_samesite (bs "SameSite=" ++ s) = true.
Proof.
  revert s. apply Forall_forall. unfold is_samesite.
  repeat constructor; by rewrite to_lowercase_ascii by (unfold is_ascii; repeat constructor; lia).
Qed.

Lemma filter_filter_neg {A} (p : A -> bool) l :
  List.filter p (List.filter (fun x => negb (p x)) l) = [].
Proof. induction l as [|x l IH]; simpl; [done|]. destruct (p x) eqn:E; simpl; [done|]. by rewrite E. Qed.

Lemma filter_idem {A} (p : A -> bool) l : List.filter p (List.filter p l) = List.filter p l.
Proof. induction l as [|x l IH]; simpl; [done|]. destruct (p x) eqn:E; simpl; [by rewrite E, IH|done]. Qed.

Lemma policy_samesite cfg tls attrs s :
  clean_samesite cfg -> enforce_samesite cfg = Some s ->
  List.filter is_samesite (policy_attrs cfg tls attrs) = [bs "SameSite=" ++ s].
Proof.
  unfold clean_samesite. rewrite policy_attrs_eq. unfold keep_samesite. intros Hc Hs. rewrite Hs in *.
  rewrite List.filter_app, filter_filter_neg. cbn [List.filter app]. by rewrite is_samesite_enforced.
Qed.

(** The policy applied to its own result changes nothing. *)
Lemma policy_attrs_idem cfg tls attrs :
  clean_samesite cfg -> policy_attrs cfg tls (policy_attrs cfg tls attrs) = policy_attrs cfg tls attrs.
Proof.
  intros Hc. rewrite (policy_attrs_eq cfg tls (policy_attrs cfg tls attrs)).
  assert (H1 : add_flag (enforce_secure_flag cfg && tls) (bs "Secure") (bs "secure") (policy_attrs cfg tls attrs)
    (policy_attrs cfg tls attrs) = policy_attrs cfg tls attrs).
  { unfold add_flag. destruct (enforce_secure_flag cfg && tls) eqn:E; [|done].
    by rewrite (proj2 (member_true _ _)) by by apply policy_secure. }
  rewrite H1.
  assert (H2 : add_flag (enforce_httponly_flag cfg) (bs "HttpOnly") (bs "httponly") (policy_attrs cfg tls attrs)
    (policy_attrs cfg tls attrs) = policy_attrs cfg tls attrs).
  { unfold add_flag. destruct (enforce_httponly_flag cfg) eqn:E; [|done].
    by rewrite (proj2 (member_true _ _)) by by apply policy_httponly. }
  rewrite H2. rewrite policy_attrs_eq. unfold clean_samesite in Hc. unfold keep_samesite.
  destruct (enforce_samesite cfg) as [s|]; [|done].
  rewrite List.filter_app, filter_idem. cbn [List.filter]. rewrite is_samesite_enforced by done. simpl.
  by rewrite app_nil_r.
Qed.
End CookieLemmas.

(** ** Headers *)

Definition all_headers (P : bytes * bytes -> Prop) (b : builder) : Prop :=
  match b with Some hs => Forall P hs | None => True end.

Section HeaderLemmas.
Context `{HttpSpec}.

Lemma header_name_lower n m : header_name n = Some m -> m = ascii_lower <$> n.
Proof. rewrite header_name_spec. case_if; by intros [= <-]. Qed.

Lemma all_add_header P name value b :
  all_headers P b -> P (ascii_lower <$> name, value) -> all_headers P (add_header name value b).
Proof.
  intros Hb Hp. destruct b as [hs|]; [simpl|done]. destruct (header_name name) as [m|] eqn:E; [|done].
  apply header_name_lower in E as ->. case_if; [|done]. simpl. apply Forall_app. by repeat constructor.
Qed.

Lemma all_try_header P name value b :
  all_headers P b -> P (ascii_lower <$> name, value) -> all_headers P (try_header name value b).
Proof.
  intros Hb Hp. unfold try_header. destruct (header_name name) as [m|] eqn:E; [|done].
  apply header_name_lower in E as ->. case_if; [|done]. destruct b as [hs|]; [simpl|done].
  apply Forall_app. by repeat constructor.
Qed.

Lemma all_when_header P c name value b :
  all_headers P b -> P (ascii_lower <$> name, value) -> all_headers P (when_header c name value b).
Proof. intros. unfold when_header. case_if; [by apply all_add_header|done]. Qed.

Lemma all_option_header P name value b :
  all_headers P b -> (forall v, P (ascii_lower <$> name, v)) -> all_headers P (option_header name value b).
Proof. intros. unfold option_header. case_match; [by apply all_add_header|done]. Qed.

Lemma all_fold_left {A} P (f : builder -> A -> builder) l b :
  (forall b x, x ∈ l -> all_headers P b -> all_headers P (f b x)) -> all_headers P b ->
  all_headers P (fold_left f l b).
Proof.
  revert b. induction l as [|x l IH]; intros b Hf Hb; simpl; [done|].
  apply IH; [|apply Hf; [by left|done]]. intros b' y Hy. apply Hf. by right.
Qed.
End HeaderLemmas.

(** A name that no response carries. *)
Definition hidden (n : bytes) : bool :=
  member n HOP_BY_HOP_HEADERS || bool_decide (n = bs "server") || member n FINGERPRINT_HEADERS.

Section ResponseLemmas.
Context `{Unicode} `{HttpSpec} `{RegexSetLib} `{IpNetworkLib} `{GeoLib} (p : HttpProxy).

Definition response_header_ok (backend : Backend) (h : bytes * bytes) : Prop :=
  hidden h.1 = false /\
  (h.1 = bs "set-cookie" -> h.2 = sticky_cookie p backend \/
     exists v, enforce_set_cookie v (hp_cookie_security p) (is_tls p) = Some h.2).

Lemma copy_response_header_ok backend did b h :
  to_lowercase h.1 = h.1 -> all_headers (response_header_ok backend) b ->
  all_headers (response_header_ok backend) (copy_response_header p did b h).
Proof.
  intros Hl Hb. unfold copy_response_header. rewrite Hl. destruct (dropped p did h.1) eqn:Ed; [done|].
  case_bool_decide as Hc.
  - case_if; [|done]. destruct (enforce_set_cookie _ _ _) as [r|] eqn:Er; [|done].
    apply all_add_header; [done|]. split; [done|eauto].
  - destruct b as [hs|]; [simpl|done]. apply Forall_app. split; [done|]. constructor; [|constructor].
    split; [|by intros ?]. unfold dropped in Ed. repeat (apply orb_false_iff in Ed as [Ed ?]).
    unfold hidden. by repeat (apply orb_false_iff; split).
Qed.

(** A header of the proxy's own. *)
Ltac own_header := first [apply all_when_header | apply all_option_header | apply all_add_header];
  [|intros; split; [done|]; try done; auto].

Lemma security_response_headers_ok backend did body b :
  all_headers (response_header_ok backend) b ->
  all_headers (response_header_ok backend) (security_response_headers p backend did body b).
Proof.
  intros Hb. unfold security_response_headers.
  destruct did; repeat own_header; destruct (hsts_max_age p); repeat own_header; done.
Qed.

Lemma build_response_ok headers backend br r :
  Forall (fun h => to_lowercase h.1 = h.1) (br_headers br) -> build_response p headers backend br = Ok r ->
  rs_status r = br_status br /\ Forall (response_header_ok backend) (rs_headers r).
Proof.
  intros Hl. unfold build_response. destruct (br_body br) as [body|]; [|done].
  destruct (compress p headers (br_headers br) body) as [body' did].
  destruct (security_response_headers _ _ _ _ _) as [hs|] eqn:E; [|done]. intros [= <-]. split; [done|].
  change (all_headers (response_header_ok backend) (Some hs)). rewrite <- E.
  apply security_response_headers_ok, all_fold_left; [|constructor].
  intros b h Hh Hb. apply copy_response_header_ok; [|done]. by apply (proj1 (Forall_forall _ _) Hl).
Qed.
End ResponseLemmas.

Section OutboundLemmas.
Context `{Unicode} `{HttpSpec} `{RegexSetLib} `{IpNetworkLib} `{GeoLib} (p : HttpProxy) (client_ip : IpAddr).

(** A builder grows at the end. *)
Definition extends (b b' : builder) : Prop :=
  forall hs', b' = Some hs' -> exists hs extra, b = Some hs /\ hs' = hs ++ extra.

Lemma extends_refl b : extends b b.
Proof. intros hs ->. exists hs, []. by rewrite app_nil_r. Qed.

Lemma extends_trans b1 b2 b3 : extends b1 b2 -> extends b2 b3 -> extends b1 b3.
Proof.
  intros H12 H23 hs' Hb. destruct (H23 _ Hb) as (hs2 & e2 & Hb2 & ->).
  destruct (H12 _ Hb2) as (hs1 & e1 & -> & ->). exists hs1, (e1 ++ e2). by rewrite app_assoc.
Qed.

Lemma extends_add_header name value b : extends b (add_header name value b).
Proof.
  intros hs'. destruct b as [hs|]; [simpl|done]. repeat case_match; intros [= <-]. eauto.
Qed.

Lemma extends_try_header name value b : extends b (try_header name value b).
Proof.
  unfold try_header. case_match; [|apply extends_refl]. case_if; [|apply extends_refl].
  intros hs'. destruct b as [hs|]; simpl; [intros [= <-]; eauto|done].
Qed.

Lemma extends_when_header c name value b : extends b (when_header c name value b).
Proof. unfold when_header. case_if; [apply extends_add_header|apply extends_refl]. Qed.

Lemma extends_fold_left {A} (f : builder -> A -> builder) l b :
  (forall b x, extends b (f b x)) -> extends b (fold_left f l b).
Proof.
  intros Hf. revert b. induction l as [|x l IH]; intros b; simpl; [apply extends_refl|].
  eapply extends_trans; [apply Hf|apply IH].
Qed.

Lemma extends_proxy_headers request_id headers b : extends b (proxy_headers p client_ip request_id headers b).
Proof.
  unfold proxy_headers. destruct (hm_get headers (bs "host"));
    repeat first [apply extends_when_header | eapply extends_trans; [|apply extends_when_header]].
  all: apply extends_refl || apply extends_when_header.
Qed.

Lemma extends_custom_headers b : extends b (custom_headers p b).
Proof. apply extends_fold_left. intros. apply extends_try_header. Qed.

(** A header as the server library hands it over: a normalised name. *)
Definition normal_name (n : bytes) : Prop := header_name n = Some n.

Lemma token_char_ascii b : is_token_char b = true -> 0 <= b < 128.
Proof.
  unfold is_token_char. rewrite !orb_true_iff, !andb_true_iff. intros [[[?|?]|?]|Hx]; [lia..|].
  apply existsb_exists in Hx as (y & Hy & ->%Z.eqb_eq). revert y Hy. apply List.Forall_forall. repeat constructor; lia.
Qed.

Lemma normal_name_lower n : normal_name n -> to_lowercase n = n.
Proof.
  intros Hn. pose proof (header_name_lower _ _ Hn) as Hl. unfold normal_name in Hn. rewrite header_name_spec in Hn.
  destruct (is_token n) eqn:E; [|done]. apply andb_true_iff in E as [[_ E]%andb_true_iff _].
  rewrite to_lowercase_ascii; [done|]. apply Forall_forall. intros x Hx%list_elem_of_In.
  by apply token_char_ascii, (proj1 (forallb_forall _ _) E).
Qed.

(** The headers that are copied: all but the hop-by-hop ones. *)
Definition end_to_end (headers : hmap) : hmap :=
  List.filter (fun h => negb (member h.1 HOP_BY_HOP_HEADERS)) headers.

Lemma copied_headers_eq headers acc :
  Forall (fun h => normal_name h.1 /\ value_to_str h.2 = true) headers ->
  copied_headers headers (Some acc) = Some (acc ++ end_to_end headers).
Proof.
  intros Hw. revert acc. induction Hw as [|[n v] headers [Hn Hv] Hw IH]; intros acc; simpl; [by rewrite app_nil_r|].
  unfold end_to_end. simpl in *. rewrite (normal_name_lower n Hn).
  destruct (member n HOP_BY_HOP_HEADERS); simpl; [apply IH|].
  unfold try_header. rewrite Hn, value_from_str_spec, <- value_to_str_spec, Hv. simpl. rewrite IH.
  by rewrite <- app_assoc.
Qed.

Lemma hm_insert_Forall P m k v : Forall P m -> P (k, v) -> Forall P (hm_insert m k v).
Proof.
  intros Hm Hp. induction Hm as [|[k' v'] m Hx Hm IH]; simpl; [by repeat constructor|].
  case_bool_decide; subst; by constructor.
Qed.

Lemma collect_headers_normal hs :
  Forall (fun h => normal_name h.1) hs ->
  Forall (fun h => normal_name h.1 /\ value_to_str h.2 = true) (collect_headers hs).
Proof.
  intros Hh. unfold collect_headers, hm_collect.
  assert (Hg : forall l m, Forall (fun h => normal_name h.1 /\ value_to_str h.2 = true) l ->
    Forall (fun h => normal_name h.1 /\ value_to_str h.2 = true) m ->
    Forall (fun h => normal_name h.1 /\ value_to_str h.2 = true) (foldl (fun m kv => hm_insert m kv.1 kv.2) m l)).
  { induction l as [|[k v] l IH]; intros m Hl Hm; simpl; [done|]. inv Hl. apply IH; [done|]. by apply hm_insert_Forall. }
  apply Hg; [|constructor]. apply Forall_forall. intros [n v]. rewrite elem_of_filter_map. intros ([n' v'] & Hx & Hf).
  simpl in Hf. destruct (value_to_str v') eqn:Ev; [|done]. injection Hf as <- <-. simpl.
  pose proof (proj1 (Forall_forall _ _) Hh _ Hx) as Hn. simpl in Hn. by rewrite (normal_name_lower n' Hn).
Qed.

Lemma first_header_end_to_end headers n :
  member n HOP_BY_HOP_HEADERS = false -> first_header (end_to_end headers) n = hm_get headers n.
Proof.
  intros Hn. unfold first_header, end_to_end. induction headers as [|[k v] headers IH]; simpl; [done|].
  case_bool_decide as Hk.
  - subst k. rewrite Hn. simpl. by rewrite bool_decide_eq_true_2.
  - destruct (member k _); simpl; [done|]. by rewrite bool_decide_eq_false_2.
Qed.

Lemma first_header_app hs extra n v :
  first_header hs n = Some v -> first_header (hs ++ extra) n = Some v.
Proof.
  unfold first_header. induction hs as [|h hs IH]; simpl; [done|]. case_bool_decide; simpl; done.
Qed.

Lemma copied_headers_none headers : copied_headers headers None = None.
Proof.
  unfold copied_headers. induction headers as [|h headers IH]; simpl; [done|].
  case_if; [done|]. unfold try_header. repeat case_match; done.
Qed.

(** What the backend receives starts with what the client sent. *)
Lemma build_outbound_headers request_id req headers body backend out :
  Forall (fun h => normal_name h.1 /\ value_to_str h.2 = true) headers ->
  build_outbound p client_ip request_id req headers body backend = Some out ->
  exists extra, out_headers out = end_to_end headers ++ extra.
Proof.
  intros Hw. unfold build_outbound. case_if.
  2: { rewrite (copied_headers_none headers). intros Hb. exfalso.
       destruct (custom_headers p _) as [hs|] eqn:E; [|done].
       destruct (extends_trans _ _ _ (extends_proxy_headers request_id headers None) (extends_custom_headers _) _ E)
         as (? & ? & ? & _). done. }
  rewrite copied_headers_eq by done. simpl.
  destruct (custom_headers p _) as [hs|] eqn:E; [|done]. intros [= <-].
  destruct (extends_trans _ _ _ (extends_proxy_headers request_id headers (Some (end_to_end headers)))
    (extends_custom_headers _) _ E) as (hs1 & extra & [= <-] & ->). by exists extra.
Qed.
End OutboundLemmas.

Section HandleLemmas.
Context `{Unicode} `{HttpLib} `{RegexSetLib} `{IpNetworkLib} `{GeoLib} {S : Type} `{LoadBalancerSpec S}.
Context (p : HttpProxy) (client_ip : IpAddr) (ja3 : option bytes).

Lemma exchange_forwarded w (st : HttpState S) req headers body i backend b out :
  h_forwarded (exchange p client_ip w st req headers body i backend) = Some (b, out) ->
  b = backend /\ build_outbound p client_ip (hw_request_id w) req headers body backend = Some out.
Proof.
  unfold exchange. destruct (build_outbound _ _ _ _ _ _ _) as [o|]; [|done].
  destruct (hw_backend w backend o) as [br|]; [destruct (build_response _ _ _ _)|]; by intros [= <- <-].
Qed.

(** The gates, as one condition. *)
Record passes (w : HttpWorld) (st : HttpState S) (req : Request) (body : bytes) : Prop := {
  ps_path : path_gate p req = true;
  ps_domain : domain_gate p (collect_headers (rq_headers req)) = true;
  ps_bot : bot_gate p ja3 (collect_headers (rq_headers req)) = true;
  ps_rate : (rate_gate client_ip (hw_now w) (collect_headers (rq_headers req)) (rate_limiters st)).1 = true;
  ps_waf : waf_gate p client_ip ja3 (hs_pipeline st) req (collect_headers (rq_headers req)) body = true;
}.

Lemma handle_request_forwarded w (st : HttpState S) req b out :
  h_forwarded (handle_request p client_ip ja3 w st req) = Some (b, out) ->
  exists body i pl, rq_body req = Some body /\ passes w st req body /\
    pick_backend p client_ip (collect_headers (rq_headers req)) (hs_pipeline st) = (Ok i, pl) /\
    pl_backends pl !! i = Some b /\
    build_outbound p client_ip (hw_request_id w) req (collect_headers (rq_headers req)) body b = Some out.
Proof.
  unfold handle_request. destruct (rq_body req) as [body|]; [|done].
  destruct (path_gate p req) eqn:E1; [|done]. destruct (domain_gate p _) eqn:E2; [|done].
  destruct (bot_gate p ja3 _) eqn:E3; [|done]. cbn [negb].
  destruct (rate_gate client_ip _ _ _) as [allowed ls] eqn:E4. cbn [hs_pipeline].
  destruct allowed; [|done]. destruct (waf_gate p _ _ _ _ _ _) eqn:E5; [|done]. cbn [negb].
  destruct (pick_backend p _ _ _) as [[i|e] pl] eqn:E6; [|done].
  destruct (pl_backends pl !! i) as [backend|] eqn:E7; [|done].
  intros [-> Hb]%exchange_forwarded. exists body, i, pl. split; [done|]. split; [|done].
  constructor; try done. by rewrite E4.
Qed.

Lemma find_backend_by_tag_Some (pl : RequestPipeline S) tag i :
  find_backend_by_tag pl tag = Some i ->
  exists b, pl_backends pl !! i = Some b /\ b_enabled b = true /\ b_healthy b = true.
Proof.
  unfold find_backend_by_tag. destruct (list_find _ _) as [[j b]|] eqn:E; [|done]. intros [= <-].
  apply list_find_Some in E as (Hl & (_ & He & Hh) & _). eauto.
Qed.

(** A picked backend is enabled and healthy, and its guard is the only change. *)
Lemma pick_backend_Ok headers pl i pl' :
  pick_backend p client_ip headers pl = (Ok i, pl') ->
  exists b, pl_backends pl !! i = Some b /\ b_enabled b = true /\ b_healthy b = true /\
    pl_backends pl' = alter guard_new i (pl_backends pl).
Proof.
  unfold pick_backend.
  destruct (tag ← sticky_tag p headers; find_backend_by_tag pl tag) as [j|] eqn:E.
  - intros [= <- <-]. destruct (sticky_tag p headers) as [tag|]; [|done]. simpl in E.
    destruct (find_backend_by_tag_Some _ _ _ E) as (b & ? & ? & ?). by exists b.
  - unfold select_backend. destruct (lb_select _ _ _) as [[j|] s] eqn:Es; intros [= <- <-].
    destruct (lb_sound _ _ _ _ _ Es) as (b & Hb & Ha). exists b. split; [done|].
    apply andb_true_iff in Ha as [[? ?]%andb_true_iff _]. by split_and!.
Qed.

(** Every limiter that has a key for the request allowed it. *)
Lemma rate_gate_allowed now headers ls l k :
  (rate_gate client_ip now headers ls).1 = true -> (l, k) ∈ ls -> limit_key client_ip headers k <> [] ->
  (check_key now l (limit_key client_ip headers k)).1 = true.
Proof.
  induction ls as [|[l' k'] ls IH]; simpl; [by intros _ ?%not_elem_of_nil|].
  rewrite elem_of_cons. intros Hr Hin Hne. destruct (is_nil (limit_key client_ip headers k')) eqn:En.
  - destruct (rate_gate client_ip now headers ls) as [ok ls'] eqn:Er. destruct Hin as [[= <- <-]|Hin]; [|by apply IH].
    by apply is_nil_true in En.
  - destruct (check_key now l' _) as [allowed l''] eqn:Ec. destruct allowed; [|done].
    destruct (rate_gate client_ip now headers ls) as [ok ls'] eqn:Er. destruct Hin as [[= <- <-]|Hin]; [by rewrite Ec|].
    by apply IH.
Qed.

(** Whatever became of the request, at most one backend was counted up and down again. *)
Lemma handle_request_backends w (st : HttpState S) req :
  let l := pl_backends (hs_pipeline st) in
  let l' := pl_backends (hs_pipeline (h_state (handle_request p client_ip ja3 w st req))) in
  l' = l \/ exists i, l' = alter guard_drop i (alter guard_new i l).
Proof.
  cbn zeta. unfold handle_request. destruct (rq_body req) as [body|]; [|by left].
  repeat (case_if; [by left|]). destruct (rate_gate client_ip _ _ _) as [allowed ls]. cbn [hs_pipeline].
  repeat (case_if; [by left|]).
  destruct (pick_backend p _ _ _) as [[i|e] pl] eqn:E6.
  - destruct (pick_backend_Ok _ _ _ _ E6) as (b & Hb & _ & _ & Hl). rewrite Hl, list_lookup_alter, Hb. simpl.
    right. exists i. unfold exchange.
    repeat case_match; simpl; by rewrite Hl.
  - left. simpl. unfold pick_backend in E6. destruct (tag ← _; _); [done|].
    unfold select_backend in E6. destruct (lb_select _ _ _) as [[j|] s]; [done|]. by injection E6 as _ <-.
Qed.
End HandleLemmas.

(** ** What the gates establish *)

Section GateLemmas.
Context `{Unicode} `{HttpLib} `{RegexSetLib} `{IpNetworkLib} `{GeoLib} {S : Type} `{LoadBalancer S}.
Context (p : HttpProxy) (client_ip : IpAddr) (ja3 : option bytes).

Lemma path_gate_true req acl :
  path_gate p req = true -> hp_path_acl p = Some acl -> path_check acl (rq_path req) <> Some Deny.
Proof. unfold path_gate. intros Hg Hp. rewrite Hp in Hg. by case_bool_decide. Qed.

Lemma domain_gate_true headers :
  domain_gate p headers = true -> host_of headers <> [] ->
  (forall d, d ∈ domain_block p -> host_of headers <> to_lowercase d) /\
  (domain_allow p <> [] -> exists d, d ∈ domain_allow p /\ host_of headers = to_lowercase d).
Proof.
  unfold domain_gate. intros Hg Hne. rewrite (proj2 (is_nil_false _) Hne) in Hg.
  destruct (negb _ || negb _) eqn:E.
  - apply andb_true_iff in Hg as [Hb Ha]. split.
    + intros d Hd Heq. apply negb_true_iff in Hb. apply not_true_iff_false in Hb. apply Hb, existsb_exists.
      exists d. split; [by apply list_elem_of_In|by apply bool_decide_eq_true].
    + intros Hn. rewrite (proj2 (is_nil_false _) Hn) in Ha. apply existsb_exists in Ha as (d & Hd & Heq).
      apply bool_decide_eq_true in Heq. exists d. split; [by apply list_elem_of_In|done].
  - apply orb_false_iff in E as [Ea%negb_false_iff%is_nil_true Eb%negb_false_iff%is_nil_true].
    rewrite Ea, Eb. split; [by intros d ?%not_elem_of_nil|done].
Qed.

Lemma bot_gate_true headers :
  bot_gate p ja3 headers = true -> bot_enabled (hp_bot_detection p) = true ->
  is_blocked_bot (unwrap_or [] (hm_get headers (bs "user-agent"))) (hp_bot_detection p) = false /\
  forall j, ja3 = Some j -> j ∉ ja3_fingerprint_block_list (hp_bot_detection p).
Proof.
  unfold bot_gate. intros Hg He. rewrite He in Hg. apply andb_true_iff in Hg as [Hu%negb_true_iff Hj].
  split; [done|]. intros j Hs. rewrite Hs in Hj. by apply negb_true_iff, member_false in Hj.
Qed.

Lemma waf_gate_true (pl : RequestPipeline S) req headers body waf :
  waf_gate p client_ip ja3 pl req headers body = true -> hp_waf p = Some waf ->
  fr_waf_enabled (hp_frontend p) = true -> acl_bypass_waf p && is_globally_allowed pl client_ip = false ->
  is_blocked (decision (inspect waf (waf_context client_ip ja3 req headers body))) = false.
Proof. unfold waf_gate. intros Hg Hw He Hb. rewrite Hw, He, Hb in Hg. by apply negb_true_iff. Qed.
End GateLemmas.

Section Results.
Context `{Unicode} `{HttpSpec} `{RegexSetLib} `{IpNetworkLib} `{GeoLib} {S : Type} `{LoadBalancer S}.
Context (p : HttpProxy) (client_ip : IpAddr) (ja3 : option bytes).

(** What the cookie policy promises about a cookie sent to a client. *)
Record cookie_ok (cfg : CookieSecurityConfig) (tls : bool) (cookie : bytes) : Prop := {
  ck_secure : enforce_secure_flag cfg = true -> tls = true -> has_attr (bs "secure") cookie;
  ck_httponly : enforce_httponly_flag cfg = true -> has_attr (bs "httponly") cookie;
  ck_samesite s : enforce_samesite cfg = Some s ->
    List.filter is_samesite (cookie_attrs cookie) = [bs "SameSite=" ++ s];
  ck_size : 0 < max_cookie_size cfg ->
    exists nv, head (split cookie 59) = Some nv /\ Z.of_nat (length nv) <= max_cookie_size cfg;
}.

(** The parts of a cookie that passed the policy. *)
Lemma enforce_set_cookie_parts v cfg tls r :
  enforce_set_cookie v cfg tls = Some r ->
  exists nv rest, trim <$> split v 59 = nv :: rest /\ clean_attr nv /\ Forall clean_attr rest /\
    (0 < max_cookie_size cfg -> Z.of_nat (length nv) <= max_cookie_size cfg) /\
    r = nv ++ concat ((fun a => bs "; " ++ a) <$> policy_attrs cfg tls rest).
Proof.
  pose proof (split_no_sep v 59) as Hs. unfold enforce_set_cookie.
  destruct (split v 59) as [|first rest] eqn:E.
  { by destruct v as [|x v]; simpl in E; [|destruct (x =? 59), (split v 59)]. }
  inv Hs. destruct (_ && _) eqn:Hc; [done|]. intros [= <-]. exists (trim first), (trim <$> rest).
  assert (Hclean : forall a, 59 ∉ a -> clean_attr (trim a)).
  { intros a Ha. split; [by apply not_elem_of_trim|apply trim_idem]. }
  split; [done|]. split; [by apply Hclean|]. split; [|split; [|done]].
  - apply Forall_fmap. eapply Forall_impl; [done|]. intros a Ha. by apply Hclean.
  - intros Hm. apply andb_false_iff in Hc as [Hc|Hc]; apply Z.ltb_ge in Hc; lia.
Qed.

Lemma enforce_set_cookie_ok v cfg tls r :
  clean_samesite cfg -> enforce_set_cookie v cfg tls = Some r -> cookie_ok cfg tls r.
Proof.
  intros Hc (nv & rest & _ & [Hn _] & Hr & Hsize & ->)%enforce_set_cookie_parts.
  pose proof (clean_policy_attrs cfg tls rest Hc Hr) as Hp.
  constructor; unfold has_attr; rewrite ?cookie_attrs_join by done.
  - intros He Ht. apply policy_secure. by rewrite He.
  - apply policy_httponly.
  - intros s Hs. by apply policy_samesite.
  - intros Hm. exists nv. rewrite split_attrs by done. by split; [|apply Hsize].
Qed.

Definition normal_backends (w : HttpWorld) : Prop :=
  forall b out br, hw_backend w b out = Some br -> Forall (fun h => normal_name h.1) (br_headers br).

(** Every response is one of the proxy's own error responses, or built from a backend's. *)
Lemma handle_request_response w (st : HttpState S) req :
  let r := h_response (handle_request p client_ip ja3 w st req) in
  (exists status body, r = error_response status body) \/
  exists backend out br, hw_backend w backend out = Some br /\
    build_response p (collect_headers (rq_headers req)) backend br = Ok r.
Proof.
  cbn zeta. unfold handle_request. destruct (rq_body req) as [body|]; [|left; by do 2 eexists].
  repeat (case_if; [left; by do 2 eexists|]). destruct (rate_gate client_ip _ _ _) as [allowed ls].
  repeat (case_if; [left; by do 2 eexists|]). destruct (pick_backend p _ _ _) as [[i|e] pl]; [|left; by do 2 eexists].
  destruct (pl_backends pl !! i) as [b|]; [|left; by do 2 eexists].
  unfold exchange. destruct (build_outbound _ _ _ _ _ _ _) as [out|]; [|left; by do 2 eexists].
  destruct (hw_backend w b out) as [br|] eqn:Eb; [|left; by do 2 eexists].
  destruct (build_response p _ b br) as [r|r] eqn:Er.
  - right. by exists b, out, br.
  - left. unfold build_response in Er. destruct (br_body br); [destruct (compress _ _ _ _), (security_response_headers _ _ _ _ _)|];
      try done; injection Er as <-; by do 2 eexists.
Qed.
End Results.

(** ** An example *)

Definition example_headers : FrontendHeadersConfig := mkFrontendHeaders true true true true true true [].
Definition example_cookies : CookieSecurityConfig := mkCookieSecurity true true (Some (bs "Lax")) 64.

Definition example_frontend : FrontendConfig :=
  mkFrontend (bs "web") Https [bs "0.0.0.0:443"] (bs "pool") None None None None None None default_tls_min_version []
    BRoundRobin true None None None ApacheCombined true None example_headers SmtpHeadersConfig_default
    FrontendAclConfig_default None (bs "sid").

Definition example_proxy : HttpProxy :=
  mkHttpProxy (Some (example_engine Blocking)) example_frontend
    (mkSecurityHeaders true (Some (bs "DENY")) None None true true false 0 [])
    None (mkBotDetection true [] false [] false) (Some 300) true example_cookies true ApacheCombined false
    [bs "example.org"] [].

Definition example_state : HttpState RoundRobin :=
  mkHttpState [(with_limits 2 60, ClientIp)] (mkPipeline open_engine None None (mkRoundRobin 0) [limited 1] false None).

(** A backend that names itself and sets a cookie. *)
Definition example_world : HttpWorld :=
  mkHttpWorld 5 (bs "id") (bs "now") (bs "now") (fun _ _ => Some (mkBackendResponse 200
    [(bs "server", bs "old/1.0"); (bs "set-cookie", bs "a=1; Path=/; SameSite=None")] (Some (bs "hello")))).

Definition example_request (headers : list (bytes * bytes)) : Request :=
  mkRequest (bs "GET") (bs "/x") (bs "/x") (Some (bs "/x")) ((bs "host", bs "example.org:443") :: headers) (Some []).

Definition example_handled (headers : list (bytes * bytes)) : Handled RoundRobin :=
  handle_request example_proxy (ipv4 192 0 2 9) None example_world example_state (example_request headers).

Definition example_out (headers : list (bytes * bytes)) : Outbound :=
  match h_forwarded (example_handled headers) with
  | Some (_, out) => out
  | None => mkOutbound [] [] [] []
  end.

(** ** Properties *)

(** C5: only screened requests are forwarded: when anything is sent to a backend, no path
    rule denies the path; a named host is not on the block list and, when there is an
    allow list, is on it; with bot detection, neither the user agent nor the fingerprint
    is blocked; every rate limiter with a key for the request admitted it; the web
    application firewall, where enabled and not bypassed, did not block it; and the
    backend is an enabled and healthy one of the pool, counted by one guard. *)
Theorem forwarded_request_screened `{Unicode} `{HttpLib} `{RegexSetLib} `{IpNetworkLib} `{GeoLib} {S : Type}
    `{LoadBalancerSpec S} (p : HttpProxy) client_ip ja3 w (st : HttpState S) req b out :
  h_forwarded (handle_request p client_ip ja3 w st req) = Some (b, out) ->
  let headers := collect_headers (rq_headers req) in
  (forall acl, hp_path_acl p = Some acl -> path_check acl (rq_path req) <> Some Deny) /\
  (host_of headers <> [] ->
     (forall d, d ∈ domain_block p -> host_of headers <> to_lowercase d) /\
     (domain_allow p <> [] -> exists d, d ∈ domain_allow p /\ host_of headers = to_lowercase d)) /\
  (bot_enabled (hp_bot_detection p) = true ->
     is_blocked_bot (unwrap_or [] (hm_get headers (bs "user-agent"))) (hp_bot_detection p) = false /\
     forall j, ja3 = Some j -> j ∉ ja3_fingerprint_block_list (hp_bot_detection p)) /\
  (forall l k, (l, k) ∈ rate_limiters st -> limit_key client_ip headers k <> [] ->
     (check_key (hw_now w) l (limit_key client_ip headers k)).1 = true) /\
  (forall waf, hp_waf p = Some waf -> fr_waf_enabled (hp_frontend p) = true ->
     acl_bypass_waf p && is_globally_allowed (hs_pipeline st) client_ip = false ->
     exists body, rq_body req = Some body /\
       is_blocked (decision (inspect waf (waf_context client_ip ja3 req headers body))) = false) /\
  exists i b0, pl_backends (hs_pipeline st) !! i = Some b0 /\ b_enabled b0 = true /\ b_healthy b0 = true /\
    b = guard_new b0.
Proof.
  intros (body & i & pl & Hbody & [Hp Hd Hb Hr Hw] & Hpick & Hi & _)%handle_request_forwarded. cbn zeta.
  split; [intros acl; by apply path_gate_true|]. split; [by apply domain_gate_true|].
  split; [by apply bot_gate_true|]. split; [intros l k; by apply rate_gate_allowed|].
  split; [intros waf ? ? ?; exists body; by split; [|eapply waf_gate_true]|].
  destruct (pick_backend_Ok _ _ _ _ _ _ Hpick) as (b0 & Hb0 & He & Hh & Hl). exists i, b0.
  rewrite Hl, list_lookup_alter_eq, Hb0 in Hi. by injection Hi as <-.
Qed.

Lemma forwarded_request_screened_witness :
  host_of (collect_headers (rq_headers (example_request []))) = bs "example.org" /\
  exists i b0, [limited 1] !! i = Some b0 /\ b_enabled b0 = true /\ b_healthy b0 = true /\
    guard_new (limited 1) = guard_new b0.
Proof.
  split; [vm_compute; reflexivity|].
  apply (forwarded_request_screened example_proxy (ipv4 192 0 2 9) None example_world example_state
    (example_request []) (guard_new (limited 1)) (example_out [])).
  vm_compute. reflexivity.
Defined.

(** No connection is leaked: whatever becomes of a request (refused, failed or
    answered), afterwards every backend of the pool is as before, its count of active
    connections included, except that at most one has one more connection in its total. *)
Theorem connections_released `{Unicode} `{HttpLib} `{RegexSetLib} `{IpNetworkLib} `{GeoLib} {S : Type}
    `{LoadBalancerSpec S} (p : HttpProxy) client_ip ja3 w (st : HttpState S) req :
  let pool := pl_backends (hs_pipeline st) in
  let pool' := pl_backends (hs_pipeline (h_state (handle_request p client_ip ja3 w st req))) in
  Forall (fun b => 0 <= b_active_connections b < 2 ^ 64) pool ->
  pool' = pool \/
  exists i, pool' = alter (fun b => set_connections (b_active_connections b)
                                      (wrapping_add 64 (b_total_connections b) 1) b) i pool.
Proof.
  cbn zeta. intros Hu. destruct (handle_request_backends p client_ip ja3 w st req) as [->|[i ->]]; [by left|].
  right. exists i. rewrite list_alter_alter_eq. apply list_alter_ext; [|done]. intros b Hb.
  unfold compose, guard_drop, guard_new, set_connections, wrapping_add, wrapping_sub. simpl.
  pose proof (proj1 (Forall_lookup _ _) Hu _ _ Hb) as Hr. simpl in Hr. f_equal.
  rewrite Zminus_mod_idemp_l, Z.add_simpl_r. by apply Z.mod_small.
Qed.

Lemma connections_released_witness :
  pl_backends (hs_pipeline (h_state (example_handled []))) = [limited 1] \/
  exists i, pl_backends (hs_pipeline (h_state (example_handled []))) =
    alter (fun b => set_connections (b_active_connections b) (wrapping_add 64 (b_total_connections b) 1) b) i
      [limited 1].
Proof.
  apply (connections_released example_proxy (ipv4 192 0 2 9) None example_world example_state (example_request [])).
  constructor; [simpl; lia|constructor].
Defined.

(** Every response is cleaned: with backends that answer normalised header names, no
    response to any request carries a hop-by-hop, server or fingerprinting header, and
    every cookie in it is the proxy's own session cookie or obeys the cookie policy. *)
Theorem responses_cleaned `{Unicode} `{HttpSpec} `{RegexSetLib} `{IpNetworkLib} `{GeoLib} {S : Type}
    `{LoadBalancer S} (p : HttpProxy) client_ip ja3 w (st : HttpState S) req :
  clean_samesite (hp_cookie_security p) -> normal_backends w ->
  Forall (fun h => hidden h.1 = false /\
    (h.1 = bs "set-cookie" -> (exists backend, h.2 = sticky_cookie p backend) \/
       cookie_ok (hp_cookie_security p) (is_tls p) h.2))
    (rs_headers (h_response (handle_request p client_ip ja3 w st req))).
Proof.
  intros Hc Hn. destruct (handle_request_response p client_ip ja3 w st req)
    as [(s & b & ->)|(backend & out & br & Hb & Hr)]; [by repeat constructor|].
  assert (Hl : Forall (fun h => to_lowercase h.1 = h.1) (br_headers br)).
  { eapply Forall_impl; [by eapply Hn|]. intros h. apply normal_name_lower. }
  destruct (build_response_ok p _ backend br _ Hl Hr) as [_ Hok].
  eapply Forall_impl; [exact Hok|]. intros h [Hh Hck]. split; [done|]. intros Hs.
  destruct (Hck Hs) as [->|[v Hv]]; [left; by exists backend|right]. by eapply enforce_set_cookie_ok.
Qed.

Lemma responses_cleaned_witness :
  rs_status (h_response (example_handled [])) = 200 /\
  Forall (fun h => hidden h.1 = false /\
    (h.1 = bs "set-cookie" -> (exists backend, h.2 = sticky_cookie example_proxy backend) \/
       cookie_ok example_cookies true h.2))
    (rs_headers (h_response (example_handled []))).
Proof.
  split; [vm_compute; reflexivity|].
  apply (responses_cleaned example_proxy (ipv4 192 0 2 9) None example_world example_state (example_request [])).
  - vm_compute. right. left.
  - intros b out br [= <-]. repeat constructor.
Defined.

(** The cookie policy: a rewritten cookie keeps its name and value, carries each
    enforced attribute (SameSite once, with the enforced value) and respects the size
    limit, and the policy applied to it once more changes nothing. *)
Theorem cookie_policy_enforced `{Unicode} cfg tls v r :
  clean_samesite cfg -> enforce_set_cookie v cfg tls = Some r ->
  head (split r 59) = trim <$> head (split v 59) /\ cookie_ok cfg tls r /\
  enforce_set_cookie r cfg tls = Some r.
Proof.
  intros Hc He. split; [|split; [by eapply enforce_set_cookie_ok|]].
  all: apply enforce_set_cookie_parts in He as (nv & rest & Hs & [Hn Ht] & Hr & Hsize & ->).
  all: pose proof (clean_policy_attrs cfg tls rest Hc Hr) as Hp.
  - rewrite split_attrs by done. destruct (split v 59) as [|f l]; simplify_eq/=. done.
  - unfold enforce_set_cookie. rewrite split_attrs, Ht by done.
    rewrite (proj2 (andb_false_iff _ _)).
    2: { destruct (Z.ltb_spec 0 (max_cookie_size cfg)); [right; apply Z.ltb_ge; auto|by left]. }
    by rewrite trim_attrs, policy_attrs_idem by done.
Qed.

Lemma cookie_policy_enforced_witness :
  head (split (bs "a=1; Path=/; Secure; HttpOnly; SameSite=Lax") 59) =
    trim <$> head (split (bs " a=1;Path=/; SameSite=None") 59) /\
  cookie_ok example_cookies true (bs "a=1; Path=/; Secure; HttpOnly; SameSite=Lax") /\
  enforce_set_cookie (bs "a=1; Path=/; Secure; HttpOnly; SameSite=Lax") example_cookies true =
    Some (bs "a=1; Path=/; Secure; HttpOnly; SameSite=Lax").
Proof.
  apply (cookie_policy_enforced example_cookies true (bs " a=1;Path=/; SameSite=None")).
  - vm_compute. right. left.
  - vm_compute. reflexivity.
Defined.

(** What a client claims arrives first: every end-to-end header of a request (an
    [X-Forwarded-For], [X-Real-IP] or [X-Forwarded-Proto] of the client's own included)
    is sent to the backend ahead of the header of the same name the proxy adds, so that
    a lookup by name at the backend finds the client's value. *)
Theorem client_headers_first `{Unicode} `{HttpSpec} `{RegexSetLib} `{IpNetworkLib} `{GeoLib} {S : Type}
    `{LoadBalancerSpec S} (p : HttpProxy) client_ip ja3 w (st : HttpState S) req b out name v :
  Forall (fun h => normal_name h.1) (rq_headers req) ->
  h_forwarded (handle_request p client_ip ja3 w st req) = Some (b, out) ->
  hm_get (collect_headers (rq_headers req)) name = Some v -> name ∉ HOP_BY_HOP_HEADERS ->
  first_header (out_headers out) name = Some v.
Proof.
  intros Hn (body & i & pl & _ & _ & _ & _ & Hb)%handle_request_forwarded Hg Hh.
  destruct (build_outbound_headers _ _ _ _ _ _ _ _ (collect_headers_normal _ Hn) Hb) as [extra ->].
  apply first_header_app. rewrite first_header_end_to_end; [done|]. by apply member_false.
Qed.

Lemma client_headers_first_witness :
  first_header (out_headers (example_out [(bs "x-real-ip", bs "10.0.0.1")])) (bs "x-real-ip") =
  Some (bs "10.0.0.1").
Proof.
  apply (client_headers_first example_proxy (ipv4 192 0 2 9) None example_world example_state
    (example_request [(bs "x-real-ip", bs "10.0.0.1")]) (guard_new (limited 1))
    (example_out [(bs "x-real-ip", bs "10.0.0.1")])).
  - repeat constructor.
  - vm_compute. reflexivity.
  - vm_compute. reflexivity.
  - apply (bool_decide_unpack _). vm_compute. exact I.
Defined.

(** The host lists do not see every request: one without a [Host] header, or whose
    [Host] starts with a colon, passes them whatever they hold, an allow list included. *)
Theorem empty_host_passes `{Unicode} `{RegexSetLib} (p : HttpProxy) headers :
  (hm_get headers (bs "host") = None \/ exists port, hm_get headers (bs "host") = Some (58 :: port)) ->
  domain_gate p headers = true.
Proof.
  intros Hh. assert (He : host_of headers = []).
  { unfold host_of. destruct Hh as [->|[port ->]]; [done|]. simpl. by rewrite to_lowercase_ascii by constructor. }
  unfold domain_gate. rewrite He. by case_if.
Qed.

Lemma empty_host_passes_witness :
  domain_gate example_proxy [(bs "host", bs ":80")] = true.
Proof. apply empty_host_passes. right. exists (bs "80"). reflexivity. Defined.
