(* ===== verification/Connections.v ===== *)
(** * Connections: the handlers of [serverwall-proxy/src/server.rs], backend connections of
      [pipeline.rs], the handshake of [listener/tls_listener.rs]

    What happens to one accepted connection, for each protocol: the access check, the choice
    of a backend (released when the handler ends), the connection to it, the proxy, the access
    log.  A stream is the list of the chunks that arrive on it; a TLS stream the chunks that
    come out of it.  [tokio] and [rustls] are the record [Network] and the class [TlsServer];
    the renderings of time are the record [Stamp]. *)

From S2P Require Import Prelude RustStr Float64 FloatFmt Net External Schema Fs Config CertStore Balancer Acl Proto LineProxy Ja3.
Open Scope Z_scope.

(** ** Connecting to a backend *)

Inductive ServerName := NameIp (ip : IpAddr) | NameDns (name : bytes).

(** What connecting to an address gives, the client side of a TLS handshake on a stream, the
    names [ServerName::try_from] takes, and the root certificates of the system. *)
Record Network := mkNetwork {
  net_connect : SocketAddr -> result (list bytes) bytes;
  net_handshake : TlsConnector -> ServerName -> list bytes -> result (list bytes) bytes;
  net_server_name : bytes -> result bytes bytes;
  net_addable : bytes -> bool;
  net_native_certs : list bytes;
}.

(** [rustls], server side: what a client's stream decrypts to, with the certificate shown to it
    (the resolver is asked with the server name of the ClientHello, [hello_name]). *)
Class TlsServer `{TlsLib} := {
  hello_name : list bytes -> option bytes;
  tls_accept : list TlsVersion -> CertifiedKey -> list bytes -> option (list bytes);
}.

Section Connect.
Context `{TlsLib} `{IpNetworkLib} `{GeoLib} {S : Type}.

Definition connect_backend (net : Network) (backend : Backend) : cio (list bytes) :=
  cio_of (map_err Io (net_connect net (b_address backend))).

Definition connect_backend_tls (net : Network) (p : RequestPipeline S) (backend : Backend) : cio (list bytes) :=
  let verify := if b_tls_verify backend then true else pl_backend_tls_verify p in
  let* connector := build_tls_connector (net_addable net) (net_native_certs net) verify (pl_backend_ca_bundle p) in
  let* tcp_stream := connect_backend net backend in
  let sni := default [] (b_tls_sni backend) in
  let* server_name := cio_of (
    if is_nil sni then Ok (NameIp (sa_ip (b_address backend)))
    else map_err (fun e => Tls (bs "invalid SNI name '" ++ sni ++ bs "': " ++ e))
           (let? n := net_server_name net sni in Ok (NameDns n))) in
  cio_of (map_err (fun e => Tls (bs "TLS handshake to backend " ++ show_socket_addr (b_address backend) ++
                                  bs " failed: " ++ e))
            (net_handshake net connector server_name tcp_stream)).
End Connect.

(** The closure of [TlsListenerTask::run]: the fingerprint of the first bytes, then the
    handshake; [None] when the connection is dropped. *)
Definition tls_terminate `{TlsServer} `{Md5} (acceptor : TlsAcceptor) (raw : list bytes)
  : option (option (list bytes * option bytes * option bytes)) :=
  ja3 ← listener_ja3 (head raw);
  Some (ck ← resolve_hello (ta_resolver acceptor) (hello_name raw);
        stream ← tls_accept (ta_versions acceptor) ck raw;
        Some (stream, hello_name raw, ja3)).

(** ** Access logs *)

(** Renderings of the time, and the duration of the session. *)
Record Stamp := mkStamp { st_rfc3339 : bytes; st_apache : bytes; st_duration_secs : f64 }.

(** The writer is the path of the open file. *)
Definition LogWriter : Type := bytes.

Definition json_string (name value : bytes) : bytes := [34] ++ name ++ [34; 58; 34] ++ value ++ [34].
Definition json_raw (name value : bytes) : bytes := [34] ++ name ++ [34; 58] ++ value.

Definition tcp_log_line (fmt : LogFormat) (stamp : Stamp) (client : SocketAddr) (backend_tag : bytes)
    (bytes_in bytes_out : Z) : bytes :=
  match fmt with
  | Json =>
      bs "{" ++ join (bs ",")
        [json_string (bs "time") (st_rfc3339 stamp); json_string (bs "client") (show_socket_addr client);
         json_string (bs "backend") backend_tag; json_raw (bs "bytes_in") (show bytes_in);
         json_raw (bs "bytes_out") (show bytes_out); json_raw (bs "duration_secs") (show_fixed 3 (st_duration_secs stamp))] ++
      bs "}" ++ [LF]
  | _ =>
      show_ip (sa_ip client) ++ bs " - - [" ++ st_apache stamp ++ bs "] " ++ [34] ++ bs "TCP CONNECT " ++
      backend_tag ++ [34] ++ bs " - " ++ show (bytes_in + bytes_out) ++ [LF]
  end.

(** A failed write is ignored. *)
Definition write_log (writer : option LogWriter) (line : bytes) (d : disk) : disk :=
  match writer with Some path => (fs_append path line d).2 | None => d end.

Definition write_tcp_access_log (writer : option LogWriter) (fmt : LogFormat) (stamp : Stamp) (client : SocketAddr)
    (backend_tag : bytes) (bytes_in bytes_out : Z) : disk -> disk :=
  write_log writer (tcp_log_line fmt stamp client backend_tag bytes_in bytes_out).

Definition stratum_log_line (fmt : LogFormat) (stamp : Stamp) (client : SocketAddr) (backend_tag : bytes)
    (worker : option bytes) (bytes_in bytes_out : Z) : bytes :=
  let w := default (bs "-") worker in
  match fmt with
  | Json =>
      bs "{" ++ join (bs ",")
        [json_string (bs "time") (st_rfc3339 stamp); json_string (bs "client") (show_socket_addr client);
         json_string (bs "worker") w;
         json_string (bs "backend") backend_tag; json_raw (bs "bytes_in") (show bytes_in);
         json_raw (bs "bytes_out") (show bytes_out); json_raw (bs "duration_secs") (show_fixed 3 (st_duration_secs stamp))] ++
      bs "}" ++ [LF]
  | _ =>
      show_ip (sa_ip client) ++ bs " - " ++ w ++ bs " [" ++ st_apache stamp ++ bs "] " ++ [34] ++ bs "STRATUM " ++
      backend_tag ++ [34] ++ bs " - " ++ show (bytes_in + bytes_out) ++ [LF]
  end.

Definition write_stratum_access_log (writer : option LogWriter) (fmt : LogFormat) (stamp : Stamp) (client : SocketAddr)
    (backend_tag : bytes) (worker : option bytes) (bytes_in bytes_out : Z) : disk -> disk :=
  write_log writer (stratum_log_line fmt stamp client backend_tag worker bytes_in bytes_out).

(** ** The handlers *)

(** How the handling of a connection ended: refused by the access lists, no backend to select,
    the backend not reached, or the proxy ran ([None] for its error). *)
Inductive Outcome (A : Type) :=
| Refused
| NoBackend
| Unreachable (backend : Backend)
| Proxied (backend : Backend) (session : option A).
Arguments Refused {A}.
Arguments NoBackend {A}.
Arguments Unreachable {A}.
Arguments Proxied {A}.

Section Handlers.
Context `{TlsLib} `{IpNetworkLib} `{GeoLib} `{Unicode} `{JsonLib} `{TokioCopy} {S : Type} `{LoadBalancer S}.

(** The beginning of every handler but the one for HTTPS: the access check, then the selection,
    whose guard lives until the handler returns. *)
Definition with_backend {A} (pl : RequestPipeline S) (peer : SocketAddr)
    (k : RequestPipeline S -> Backend -> disk -> Outcome A * disk) (d : disk)
  : Outcome A * RequestPipeline S * disk :=
  match check_acl pl (sa_ip peer) with
  | Err _ => (Refused, pl, d)
  | Ok _ =>
      match select_backend pl (sa_ip peer) with
      | (Err _, pl) => (NoBackend, pl, d)
      | (Ok i, pl) =>
          match pl_backends pl !! i with
          | None => (NoBackend, pl, d)
          | Some backend => let (o, d) := k pl backend d in (o, release i pl, d)
          end
      end
  end.

Definition handle_tcp_connection (net : Network) (stamp : Stamp) (client : list bytes) (peer : SocketAddr)
    (pl : RequestPipeline S) (writer : option LogWriter) (fmt : LogFormat)
  : disk -> Outcome Session * RequestPipeline S * disk :=
  with_backend pl peer (fun pl backend d =>
    let (stream, d) := if b_tls backend then connect_backend_tls net pl backend d
                       else connect_backend net backend d in
    match stream with
    | Err _ => (Unreachable backend, d)
    | Ok stream =>
        match tcp_proxy (start client stream) with
        | (s, Some (c2b, b2c)) =>
            (Proxied backend (Some s), write_tcp_access_log writer fmt stamp peer (b_tag backend) c2b b2c d)
        | (_, None) => (Proxied backend None, d)
        end
    end).

(** The same on the stream that comes out of the TLS handshake. *)
Definition handle_tls_tcp_connection (net : Network) (stamp : Stamp) (client : list bytes) (peer : SocketAddr)
    (pl : RequestPipeline S) (writer : option LogWriter) (fmt : LogFormat)
  : disk -> Outcome Session * RequestPipeline S * disk :=
  with_backend pl peer (fun pl backend d =>
    if b_tls backend then
      match connect_backend_tls net pl backend d with
      | (Err _, d) => (Unreachable backend, d)
      | (Ok stream, d) =>
          match tcp_proxy (start client stream) with
          | (s, Some (c2b, b2c)) =>
              (Proxied backend (Some s), write_tcp_access_log writer fmt stamp peer (b_tag backend) c2b b2c d)
          | (_, None) => (Proxied backend None, d)
          end
      end
    else
      match connect_backend net backend d with
      | (Err _, d) => (Unreachable backend, d)
      | (Ok stream, d) =>
          match tcp_proxy (start client stream) with
          | (s, Some (c2b, b2c)) =>
              (Proxied backend (Some s), write_tcp_access_log writer fmt stamp peer (b_tag backend) c2b b2c d)
          | (_, None) => (Proxied backend None, d)
          end
      end).

(** The socket options do not change what is exchanged. *)
Definition handle_stratum_connection (net : Network) (stamp : Stamp) (client : list bytes) (peer : SocketAddr)
    (pl : RequestPipeline S) (writer : option LogWriter) (fmt : LogFormat)
  : disk -> Outcome Session * RequestPipeline S * disk :=
  with_backend pl peer (fun pl backend d =>
    match connect_backend net backend d with
    | (Err _, d) => (Unreachable backend, d)
    | (Ok stream, d) =>
        match stratum_proxy client stream with
        | Some s =>
            (Proxied backend (Some s),
             write_stratum_access_log writer fmt stamp peer (b_tag backend) (s_name s) (bytes_from_client s)
               (bytes_from_backend s) d)
        | None => (Proxied backend None, d)
        end
    end).

(** The body is that of the plain handler. *)
Definition handle_tls_stratum_connection := handle_stratum_connection.

(** The closure of [run_imap_frontend]. *)
Definition handle_imap_connection (net : Network) (client : list bytes) (peer : SocketAddr) (pl : RequestPipeline S)
  : disk -> Outcome Session * RequestPipeline S * disk :=
  with_backend pl peer (fun pl backend d =>
    match connect_backend net backend d with
    | (Err _, d) => (Unreachable backend, d)
    | (Ok stream, d) => (Proxied backend (imap_proxy client stream), d)
    end).
End Handlers.
