(* ===== verification/Server.v ===== *)
(** * The server: [serverwall-proxy/src/server.rs]

    Building the listeners of a configuration ([apply_config] with its helpers), serving the
    connections they accept, the event loop with reloads and the shutdown ([Server::run]).

    The backends of a pool and the rate limiters are shared by the frontends of one
    configuration ([Arc]): the state holds them once, and serving a connection works on them.
    A connection is served in one step; the interleaving of the connections' selections and
    releases is that of [Balancer.v], of the accept loop that of [Listener.v]. *)

From S2P Require Import Prelude RustStr Float64 Net External Toml Schema Fs Config CertStore Wire Balancer Acl WafRules WafBuiltin WafMatcher WafEngine RateLimit Antispam AntispamPre AntispamPost SmtpProxy AntispamBuild Proto Ja3 Health Listener LineProxy HttpProxy Connections.
Open Scope Z_scope.

(** ** Backends and balancers *)

Section Pools.
Context `{UuidV5}.

(** A backend of a pool; [None] when its address does not parse. *)
Definition build_backend (bc : BackendConfig) : option Backend :=
  address ← parse_socket_addr (bc_address bc);
  let b := Backend_new (bc_name bc) address (bc_weight bc) (bc_tls bc) in
  Some (mkBackend (b_id b) (b_tag b) (b_address b) (b_weight b) (b_tls b) (default false (bc_tls_verify bc))
          (bc_tls_sni bc) (bc_max_connections bc) (bc_enabled bc) (b_active_connections b) (b_total_connections b)
          (b_healthy b)).

Definition build_backend_pools (config : ServerWallConfig) : gmap bytes (list Backend) :=
  fold_left (fun pools pc => <[pc_name pc := filter_map build_backend (pc_backend pc)]> pools)
    (cfg_backend_pool config) ∅.
End Pools.

(** [Box<dyn LoadBalancer>]. *)
Inductive AnyBalancer := DynRoundRobin (s : RoundRobin) | DynLeastConnections (s : LeastConnections) | DynIpHash (s : IpHash).

Definition build_balancer (method : BalanceMethod) : AnyBalancer :=
  match method with
  | BRoundRobin => DynRoundRobin RoundRobin_new
  | BLeastConnections => DynLeastConnections mkLeastConnections
  | BIpHash => DynIpHash mkIpHash
  | StickySession => DynRoundRobin RoundRobin_new
  end.

Section Dyn.
Context `{DefaultHasher}.

Definition dyn_select (s : AnyBalancer) (pool : list Backend) (ip : option IpAddr) : option nat * AnyBalancer :=
  match s with
  | DynRoundRobin s => let (i, s) := lb_select s pool ip in (i, DynRoundRobin s)
  | DynLeastConnections s => let (i, s) := lb_select s pool ip in (i, DynLeastConnections s)
  | DynIpHash s => let (i, s) := lb_select s pool ip in (i, DynIpHash s)
  end.

#[export] Instance AnyBalancer_balancer : LoadBalancer AnyBalancer := {| lb_select := dyn_select |}.
End Dyn.

(** ** Settings of a frontend *)

(** [Iterator::find] on the names. *)
Definition find_named {A} (name_of : A -> bytes) (name : bytes) (l : list A) : option A :=
  List.find (fun x => bool_decide (name_of x = name)) l.

Definition frontend_profile (config : ServerWallConfig) (f : FrontendConfig) : option SecurityProfile :=
  pname ← fr_security_profile f; find_named sp_name pname (cfg_security_profiles config).

(** The format, whether to log, and the file. *)
Definition log_settings (config : ServerWallConfig) (f : FrontendConfig) : LogFormat * bool * option bytes :=
  match fr_log_profile f with
  | Some pname =>
      match find_named lp_name pname (cfg_log_profiles config) with
      | Some p => (lp_format p, lp_access_log p, fr_log_file f)
      | None => (fr_log_format f, fr_access_log f, fr_log_file f)
      end
  | None => (fr_log_format f, fr_access_log f, fr_log_file f)
  end.

(** The access log is opened for appending; a failure disables logging. *)
Definition open_log (access_log : bool) (log_file : option bytes) (d : disk) : option LogWriter * disk :=
  if access_log then
    match log_file with
    | Some path => match fs_open_append path d with
                   | (Ok _, d) => (Some path, d)
                   | (Err _, d) => (None, d)
                   end
    | None => (None, d)
    end
  else (None, d).

(** HSTS age and subdomains, stapling and the least TLS version: of the profile, or global. *)
Definition tls_policy (config : ServerWallConfig) (f : FrontendConfig) : option Z * bool * bool * bytes :=
  match frontend_profile config f with
  | Some p => (sp_hsts_max_age p, sp_hsts_include_subdomains p, sp_ocsp_stapling p, sp_min_version p)
  | None =>
      let tls := sec_tls (cfg_security config) in
      (st_hsts_max_age tls, st_hsts_include_subdomains tls, st_ocsp_stapling tls, fr_tls_min_version f)
  end.

(** Firewall, headers, cookies and bot detection: of the profile, or the frontend's and global. *)
Definition web_policy (config : ServerWallConfig) (f : FrontendConfig)
  : bool * option bytes * SecurityHeadersConfig * CookieSecurityConfig * BotDetectionConfig :=
  match frontend_profile config f with
  | Some p => (sp_waf_enabled p, sp_waf_ruleset p, sp_headers p, sp_cookies p, sp_bot_detection p)
  | None =>
      let sec := cfg_security config in
      (fr_waf_enabled f, fr_waf_ruleset f, sec_headers sec, sec_cookies sec, sec_bot_detection sec)
  end.

(** ** The listeners of a configuration *)

Section Build.
Context `{RegexFind} `{Resolver} `{MailAuth} `{MailParser} `{LolHtml} `{AvHost}.
Context `{Unicode} `{UnicodeClasses} (debug_set : list bytes -> bytes).
Context `{!RegexSetLib} `{IpNetworkLib} `{GeoLib} `{UuidV5} `{TlsLib} `{!OcspLib}.
(** The rule files of a directory. *)
Context (read_dir : bytes -> option (list RulesFile)).

(** What the task of a frontend does with a connection. *)
Inductive Service :=
| TcpService (tls : option TlsAcceptor) (writer : option LogWriter) (fmt : LogFormat)
| StratumService (tls : option TlsAcceptor) (writer : option LogWriter) (fmt : LogFormat)
| ImapService (tls : TlsAcceptor)
| HttpsService (tls : TlsAcceptor) (proxy : HttpProxy)
| SmtpService (tls : option TlsAcceptor) (antispam : AntispamPipeline World) (allow : Antispam.AllowList)
    (block : Antispam.BlockList) (hostname : bytes) (headers : SmtpHeadersConfig).

(** An entry of [fe_shutdowns]: the frontend, its pipeline (the backends are those of the
    pool), its service and its listener. *)
Record Running := mkRunning {
  rn_frontend : FrontendConfig;
  rn_pipeline : RequestPipeline AnyBalancer;
  rn_service : Service;
  rn_listener : Listener;
}.

(** The state of the server: [fe_shutdowns], the pools and the rate limiters the handlers
    share, and the health checkers with their pools. *)
Record ServerState := mkServer {
  sv_running : gmap bytes Running;
  sv_pools : gmap bytes (list Backend);
  sv_limiters : list (RateLimiter * RateLimitKey);
  sv_checkers : list (bytes * HealthChecker);
}.

(** A store with the one certificate of a frontend, also the default. *)
Definition cert_store_with (ck : CertifiedKey) : CertStore := set_default ck (add_from_cert ck CertStore_new).

(** Loading the certificate and building the acceptor, with the context of the error. *)
Definition frontend_acceptor (what : bytes) (f : FrontendConfig) (min_version : bytes) (staple : bool) : io TlsAcceptor :=
  fun d =>
    match load_from_frontend f d with
    | (Err e, d) => (Err (bs "TLS error in " ++ what ++ bs " '" ++ fr_name f ++ bs "': " ++ show_error e), d)
    | (Ok ck, d) =>
        let ck := if staple then staple_certified_key ck else ck in
        (Ok (build_tls_acceptor (cert_store_with ck) min_version), d)
    end.

(** TCP and Stratum terminate TLS when a certificate is configured. *)
Definition optional_acceptor (what : bytes) (f : FrontendConfig) : io (option TlsAcceptor) :=
  if has_tls_config f then
    let! acceptor := frontend_acceptor what f (fr_tls_min_version f) false in io_ret (Some acceptor)
  else io_ret None.

Definition io_lift {A} (m : disk -> A * disk) : io A := fun d => let (x, d) := m d in (Ok x, d).

Definition build_waf (config : ServerWallConfig) (enabled : bool) (ruleset : option bytes) : option WafEngine :=
  if enabled && sec_enabled (cfg_security config) then
    Some match (name ← ruleset; find_named rs_name name (cfg_waf_ruleset config)) with
         | Some r => engine_from_ruleset_config read_dir r
         | None => WafEngine_new Blocking
         end
  else None.

Definition build_path_acl (config : ServerWallConfig) : option PathAcl :=
  let acl := PathAcl_from_config (sacl_path_patterns (sec_acl (cfg_security config))) in
  if is_nil (rules acl) then None else Some acl.

Definition build_https (config : ServerWallConfig) (f : FrontendConfig) : io Service :=
  let '(hsts_age, hsts_subdomains, ocsp, min_version) := tls_policy config f in
  let! acceptor := frontend_acceptor (bs "frontend") f min_version ocsp in
  let '(waf_enabled, waf_ruleset, headers, cookies, bot) := web_policy config f in
  let waf := build_waf config waf_enabled waf_ruleset in
  let path_acl := build_path_acl config in
  let '(fmt, access_log, log_file) := log_settings config f in
  let! writer := io_lift (open_log access_log log_file) in
  let acl := sec_acl (cfg_security config) in
  io_ret (HttpsService acceptor
    (mkHttpProxy waf f headers path_acl bot hsts_age hsts_subdomains cookies
       (match writer with Some _ => true | None => false end) fmt (sacl_acl_bypass_waf acl)
       (da_allow (sacl_domain acl)) (da_block (sacl_domain acl)))).

(** The antispam pipeline of an SMTP frontend; [None] when building it panics. *)
Definition build_smtp (config : ServerWallConfig) (f : FrontendConfig) (tls : option TlsAcceptor) : option Service :=
  let effective := resolve_antispam_for_profile (cfg_antispam config) (fr_security_profile f)
                     (cfg_security_profiles config) in
  antispam ← build_antispam_pipeline debug_set effective;
  Some (SmtpService tls antispam (build_allow_list (cfg_antispam config)) (build_block_list (cfg_antispam config))
          (gc_daemon_name (cfg_global config)) (fr_smtp_headers f)).

Definition build_tcp (config : ServerWallConfig) (f : FrontendConfig) : io Service :=
  let '(fmt, access_log, log_file) := log_settings config f in
  let! writer := io_lift (open_log access_log log_file) in
  let! tls := optional_acceptor (bs "TCP frontend") f in
  io_ret (TcpService tls writer fmt).

Definition build_stratum (config : ServerWallConfig) (f : FrontendConfig) : io Service :=
  let '(fmt, access_log, log_file) := log_settings config f in
  let! writer := io_lift (open_log access_log log_file) in
  let! tls := optional_acceptor (bs "Stratum frontend") f in
  io_ret (StratumService tls writer fmt).

Definition build_imaps (f : FrontendConfig) : io Service :=
  let! acceptor := frontend_acceptor (bs "frontend") f (fr_tls_min_version f) false in
  io_ret (ImapService acceptor).

Definition build_smtps (config : ServerWallConfig) (f : FrontendConfig) (d : disk) : option (result Service bytes * disk) :=
  match frontend_acceptor (bs "frontend") f (fr_tls_min_version f) false d with
  | (Err e, d) => Some (Err e, d)
  | (Ok acceptor, d) => s ← build_smtp config f (Some acceptor); Some (Ok s, d)
  end.

(** No certificate is loaded. *)
Definition build_smtp_starttls (config : ServerWallConfig) (f : FrontendConfig) (d : disk)
  : option (result Service bytes * disk) :=
  s ← build_smtp config f None; Some (Ok s, d).

(** The service of a frontend by its protocol; [None] for a panic. *)
Definition build_service (config : ServerWallConfig) (f : FrontendConfig) (d : disk)
  : option (result Service bytes * disk) :=
  match fr_protocol f with
  | Tcp => Some (build_tcp config f d)
  | Stratum => Some (build_stratum config f d)
  | Imaps => Some (build_imaps f d)
  | Https => Some (build_https config f d)
  | Smtps => build_smtps config f d
  | SmtpStarttls => build_smtp_starttls config f d
  end.

(** The global IP lists: none when both are empty or when they do not parse. *)
Definition global_ip_acl (config : ServerWallConfig) : option AccessControlEngine :=
  let ip := sacl_ip (sec_acl (cfg_security config)) in
  if is_nil (ia_allow ip) && is_nil (ia_block ip) then None
  else match from_global_ip ip with Ok engine => Some engine | Err _ => None end.

(** The geographic engine of the profile, else the global one. *)
Definition frontend_geo (config : ServerWallConfig) (f : FrontendConfig) : option GeoEngine :=
  let geo_engine := GeoEngine_from_config (sec_geo (cfg_security config)) in
  match frontend_profile config f with
  | Some p => match GeoEngine_from_config (sp_geo p) with Some g => Some g | None => geo_engine end
  | None => geo_engine
  end.

Definition build_pipeline (config : ServerWallConfig) (pools : gmap bytes (list Backend)) (f : FrontendConfig)
  : result (RequestPipeline AnyBalancer) bytes :=
  match AccessControlEngine_from_config (fr_acl f) with
  | Err e => Err (bs "ACL config error in frontend '" ++ fr_name f ++ bs "': " ++ e)
  | Ok acl =>
      let tls := sec_tls (cfg_security config) in
      Ok (mkPipeline acl (global_ip_acl config) (frontend_geo config f) (build_balancer (fr_balancer f))
            (default [] (pools !! fr_backend_pool f)) (st_backend_tls_verify tls) (st_backend_ca_bundle tls))
  end.

(** The loop over the frontends: the error of one ends it, with those before it running. *)
Fixpoint start_frontends (config : ServerWallConfig) (pools : gmap bytes (list Backend)) (fs : list FrontendConfig)
    (running : gmap bytes Running) (d : disk) : option (result unit bytes * gmap bytes Running * disk) :=
  match fs with
  | [] => Some (Ok tt, running, d)
  | f :: fs =>
      match build_pipeline config pools f with
      | Err e => Some (Err e, running, d)
      | Ok pl =>
          r ← build_service config f d;
          match r with
          | (Err e, d) => Some (Err e, running, d)
          | (Ok service, d) =>
              start_frontends config pools fs
                (<[fr_name f := mkRunning f pl service (TcpListenerTask_new (fr_max_connections f))]> running) d
          end
      end
  end.

Definition build_limiters (config : ServerWallConfig) : list (RateLimiter * RateLimitKey) :=
  (fun r => (with_limits (rlc_requests r) (rlc_window_secs r), RateLimitKey_from_str (rlc_key r))) <$>
    sec_rate_limit (cfg_security config).

(** [fe_shutdowns] and [hc_tasks] are empty before: this is the state after. *)
Definition apply_config (config : ServerWallConfig) (d : disk) : option (result unit bytes * ServerState * disk) :=
  let pools := build_backend_pools config in
  let checkers := (fun pc => (pc_name pc, HealthChecker_new pc)) <$> cfg_backend_pool config in
  '(r, running, d) ← start_frontends config pools (cfg_frontend config) ∅ d;
  Some (r, mkServer running pools (build_limiters config) checkers, d).
End Build.

(** ** Serving connections *)

(** What a client sends, and what is met while it is served: its stream (encrypted, for the
    listeners with TLS), the requests [hyper] reads from it with the world each meets, and for
    mail the state of the checks, the backend connections, the times and the date. *)
Record Client := mkClient {
  cl_peer : SocketAddr;
  cl_stream : list bytes;
  cl_requests : list (HttpWorld * Request);
  cl_world : World;
  cl_conns : list BackendConn;
  cl_connect_time : Z;
  cl_banner_time : Z;
  cl_date : bytes;
  cl_stamp : Stamp;
}.

Section Serve.
Context `{RegexFind} `{Unicode} `{UnicodeClasses}.
Context `{!RegexSetLib} `{IpNetworkLib} `{GeoLib} `{TlsLib} `{!TlsServer} `{HttpLib} `{DefaultHasher}.
Context `{JsonLib} `{TokioCopy} `{Md5}.

(** What became of a connection. *)
Inductive Served :=
| HandshakeFailed
| Lines (o : Outcome LineProxy.Session)
| Mails (o : Outcome (option (option (list Event * SmtpProxy.Session * Flow))))
| WebRefused
| WebServed (hs : list (Handled AnyBalancer)).

(** [handle_connection]: the requests of the connection in turn. *)
Fixpoint serve_requests (p : HttpProxy) (ip : IpAddr) (ja3 : option bytes) (reqs : list (HttpWorld * Request))
    (st : HttpState AnyBalancer) : list (Handled AnyBalancer) * HttpState AnyBalancer :=
  match reqs with
  | [] => ([], st)
  | (w, req) :: reqs =>
      let h := handle_request p ip ja3 w st req in
      let (hs, st) := serve_requests p ip ja3 reqs (h_state h) in
      (h :: hs, st)
  end.

(** The lines the requests log. *)
Definition write_http_log (writer : option bytes) (hs : list (Handled AnyBalancer)) (d : disk) : disk :=
  fold_left (fun d h => match h_log h with Some line => write_log writer line d | None => d end) hs d.

(** The closure of [run_https_frontend]. *)
Definition handle_https_connection (proxy : HttpProxy) (ja3 : option bytes) (c : Client)
    (limiters : list (RateLimiter * RateLimitKey)) (pl : RequestPipeline AnyBalancer) (d : disk)
  : Served * list (RateLimiter * RateLimitKey) * RequestPipeline AnyBalancer * disk :=
  match check_acl pl (sa_ip (cl_peer c)) with
  | Err _ => (WebRefused, limiters, pl, d)
  | Ok _ =>
      let (hs, st) := serve_requests proxy (sa_ip (cl_peer c)) ja3 (cl_requests c) (mkHttpState limiters pl) in
      (WebServed hs, rate_limiters st, hs_pipeline st, write_http_log (fr_log_file (hp_frontend proxy)) hs d)
  end.

(** The closure of [run_smtps_frontend]. *)
Definition handle_smtp_connection (antispam : AntispamPipeline World) (allow : Antispam.AllowList)
    (block : Antispam.BlockList) (hostname : bytes) (headers : SmtpHeadersConfig) (ja3 : option bytes) (c : Client)
    (stream : list bytes) (pl : RequestPipeline AnyBalancer)
  : disk -> Outcome (option (option (list Event * SmtpProxy.Session * Flow))) * RequestPipeline AnyBalancer * disk :=
  with_backend pl (cl_peer c) (fun pl backend d =>
    (Proxied backend (Some (proxy
       (mkProxy (b_tag backend) antispam allow block hostname ja3 headers (sa_ip (cl_peer c)) (cl_connect_time c)
          (cl_banner_time c) (cl_date c))
       (concat stream) (cl_world c) (cl_conns c))), d)).

(** The closure of [run_smtp_starttls_frontend]: the same without a fingerprint. *)
Definition handle_smtp_starttls_connection (antispam : AntispamPipeline World) (allow : Antispam.AllowList)
    (block : Antispam.BlockList) (hostname : bytes) (headers : SmtpHeadersConfig) (c : Client)
    (stream : list bytes) (pl : RequestPipeline AnyBalancer)
  : disk -> Outcome (option (option (list Event * SmtpProxy.Session * Flow))) * RequestPipeline AnyBalancer * disk :=
  handle_smtp_connection antispam allow block hostname headers None c stream pl.

(** The stream and the fingerprint after the optional handshake. *)
Definition accept_stream (tls : option TlsAcceptor) (c : Client) : option (option (list bytes * option bytes)) :=
  match tls with
  | None => Some (Some (cl_stream c, None))
  | Some acceptor =>
      r ← tls_terminate acceptor (cl_stream c);
      Some (match r with Some (stream, _, ja3) => Some (stream, ja3) | None => None end)
  end.

Definition service_tls (s : Service) : option TlsAcceptor :=
  match s with
  | TcpService tls _ _ | StratumService tls _ _ | SmtpService tls _ _ _ _ _ => tls
  | ImapService tls | HttpsService tls _ => Some tls
  end.

(** A connection the listener of a frontend hands to its task; [None] for a panic. *)
Definition serve (net : Connections.Network) (c : Client) (service : Service) (limiters : list (RateLimiter * RateLimitKey))
    (pl : RequestPipeline AnyBalancer) (d : disk)
  : option (Served * list (RateLimiter * RateLimitKey) * RequestPipeline AnyBalancer * disk) :=
  accepted ← accept_stream (service_tls service) c;
  match accepted with
  | None => Some (HandshakeFailed, limiters, pl, d)
  | Some (stream, ja3) =>
      Some match service with
           | TcpService None writer fmt =>
               let '(o, pl, d) := handle_tcp_connection net (cl_stamp c) stream (cl_peer c) pl writer fmt d in
               (Lines o, limiters, pl, d)
           | TcpService (Some _) writer fmt =>
               let '(o, pl, d) := handle_tls_tcp_connection net (cl_stamp c) stream (cl_peer c) pl writer fmt d in
               (Lines o, limiters, pl, d)
           | StratumService None writer fmt =>
               let '(o, pl, d) := handle_stratum_connection net (cl_stamp c) stream (cl_peer c) pl writer fmt d in
               (Lines o, limiters, pl, d)
           | StratumService (Some _) writer fmt =>
               let '(o, pl, d) := handle_tls_stratum_connection net (cl_stamp c) stream (cl_peer c) pl writer fmt d in
               (Lines o, limiters, pl, d)
           | ImapService _ =>
               let '(o, pl, d) := handle_imap_connection net stream (cl_peer c) pl d in (Lines o, limiters, pl, d)
           | HttpsService _ proxy => handle_https_connection proxy ja3 c limiters pl d
           | SmtpService (Some _) antispam allow block hostname headers =>
               let '(o, pl, d) := handle_smtp_connection antispam allow block hostname headers ja3 c stream pl d in
               (Mails o, limiters, pl, d)
           | SmtpService None antispam allow block hostname headers =>
               let '(o, pl, d) := handle_smtp_starttls_connection antispam allow block hostname headers c stream pl d in
               (Mails o, limiters, pl, d)
           end
  end.

(** A connection to the frontend [name]: the handler works on the backends of its pool and on
    the limiters of the configuration.  Nothing happens when no such frontend is running. *)
Definition serve_frontend (net : Connections.Network) (name : bytes) (c : Client) (s : ServerState) (d : disk)
  : option (option Served * ServerState * disk) :=
  match sv_running s !! name with
  | None => Some (None, s, d)
  | Some rn =>
      let pool := fr_backend_pool (rn_frontend rn) in
      let backends := default [] (sv_pools s !! pool) in
      '(o, limiters, pl, d) ← serve net c (rn_service rn) (sv_limiters s) (with_backends (rn_pipeline rn) backends) d;
      let rn := mkRunning (rn_frontend rn) pl (rn_service rn) (rn_listener rn) in
      let pools := match sv_pools s !! pool with
                   | Some _ => <[pool := pl_backends pl]> (sv_pools s)
                   | None => sv_pools s
                   end in
      Some (Some o, mkServer (<[name := rn]> (sv_running s)) pools limiters (sv_checkers s), d)
  end.
End Serve.

(** ** The event loop *)

(** [tokio::select!] of [Server::run] and the tasks around it: a connection arrives at a
    frontend, a health checker ticks, a SIGHUP asks for a reload. *)
Inductive ServerEvent :=
| Accepted (net : Connections.Network) (name : bytes) (c : Client)
| Probed (checker : nat) (net : Health.Network)
| Sighup.

Section Run.
Context `{RegexFind} `{Resolver} `{MailAuth} `{MailParser} `{LolHtml} `{AvHost}.
Context `{Unicode} `{UnicodeClasses} (debug_set : list bytes -> bytes).
Context `{!RegexSetLib} `{IpNetworkLib} `{GeoLib} `{UuidV5} `{TlsLib} `{!OcspLib} `{!TlsServer} `{HttpLib}.
Context `{DefaultHasher} `{JsonLib} `{TokioCopy} `{Md5} `{TomlLib}.
Context (read_dir : bytes -> option (list RulesFile)).

(** One tick of a health checker on the pool it has; a checker with a zero interval has
    panicked at its start. *)
Definition probe (k : nat) (net : Health.Network) (s : ServerState) : ServerState :=
  match sv_checkers s !! k with
  | Some (pool, hc) =>
      if hc_interval hc =? 0 then s
      else mkServer (sv_running s) (alter (health_tick hc net) pool (sv_pools s)) (sv_limiters s) (sv_checkers s)
  | None => s
  end.

(** A reload: a configuration that does not load changes nothing; otherwise every listener
    and checker is stopped and the new configuration applied, its error only logged. *)
Definition reload (path : bytes) (s : ServerState) (d : disk) : option (ServerState * disk) :=
  match load_config path d with
  | (Err _, d) => Some (s, d)
  | (Ok config, d) =>
      '(_, s, d) ← apply_config debug_set read_dir config d;
      Some (s, d)
  end.

(** What one event does; [None] for a panic. *)
Definition server_step (path : bytes) (ev : ServerEvent) (s : ServerState) (d : disk)
  : option (option Served * ServerState * disk) :=
  match ev with
  | Accepted net name c => serve_frontend net name c s d
  | Probed k net => Some (None, probe k net s, d)
  | Sighup => '(s, d) ← reload path s d; Some (None, s, d)
  end.

(** The start: the process id is written (failures ignored) and the configuration applied;
    an error ends the program. *)
Definition server_start (pid : Z) (config : ServerWallConfig) (d : disk) : option (result unit bytes * ServerState * disk) :=
  let pid_file := default (bs "/opt/serverwall/run/serverwall.pid") (gc_pid_file (cfg_global config)) in
  apply_config debug_set read_dir config (fs_write pid_file (show pid) d).2.

(** *** The shutdown *)

(** The wait for the active connections: [total n] is their number and [now n] the clock, in
    milliseconds, at the [n]-th look, the looks 100 ms apart.  The result says whether the
    connections had ended; [None] when the fuel runs out. *)
Fixpoint drain_polls (fuel : nat) (total now : nat -> Z) (deadline : Z) (n : nat) : option bool :=
  match fuel with
  | O => None
  | Datatypes.S fuel =>
      if total n =? 0 then Some true
      else if deadline <=? now n then Some false
      else drain_polls fuel total now deadline (Datatypes.S n)
  end.

Definition drain (drain_secs : Z) (total now : nat -> Z) (entered : Z) : option bool :=
  if 0 <? drain_secs then
    drain_polls (Z.to_nat (10 * drain_secs) + 2) total now (entered + 1000 * drain_secs) 0
  else Some false.
End Run.

(** ** The balancer of a pipeline meets its contract *)

Lemma dyn_select_eq `{DefaultHasher} s pool ip :
  lb_select s pool ip =
  match s with
  | DynRoundRobin s => let (i, s) := lb_select s pool ip in (i, DynRoundRobin s)
  | DynLeastConnections s => let (i, s) := lb_select s pool ip in (i, DynLeastConnections s)
  | DynIpHash s => let (i, s) := lb_select s pool ip in (i, DynIpHash s)
  end.
Proof. done. Qed.

#[export] Instance AnyBalancer_spec `{DefaultHasher} : LoadBalancerSpec AnyBalancer.
Proof.
  split.
  - intros s pool ip i s'. rewrite dyn_select_eq. intros E. destruct s as [s|s|s].
    all: destruct (lb_select s pool ip) as [j t] eqn:Es; injection E as -> _; by eapply (lb_sound s).
  - intros s pool ip b Hin Ha. rewrite dyn_select_eq. destruct s as [s|s|s].
    all: destruct (lb_complete s pool ip b Hin Ha) as (i & t & ->); eauto.
Qed.

(** ** Pipelines keep their access rules *)

(** The parts of a pipeline that say who is admitted. *)
Definition acl_part `{IpNetworkLib} `{GeoLib} {S} (p : RequestPipeline S)
  : AccessControlEngine * option AccessControlEngine * option GeoEngine :=
  (pl_acl p, pl_global_ip_acl p, pl_geo p).

Section Serving.
Context `{IpNetworkLib} `{GeoLib} `{Unicode} {S : Type} `{LoadBalancer S}.

Lemma check_acl_part (p q : RequestPipeline S) ip : acl_part p = acl_part q -> check_acl p ip = check_acl q ip.
Proof. destruct p, q. unfold acl_part. cbn. by intros [= -> -> ->]. Qed.

Lemma select_backend_part (p : RequestPipeline S) ip : acl_part (select_backend p ip).2 = acl_part p.
Proof. unfold select_backend. by destruct (lb_select _ _ _) as [[i|] s]. Qed.

Lemma with_backend_part {A} (p : RequestPipeline S) peer (k : RequestPipeline S -> Backend -> disk -> Outcome A * disk) d :
  acl_part (with_backend p peer k d).1.2 = acl_part p.
Proof.
  unfold with_backend. destruct (check_acl _ _); [|done].
  pose proof (select_backend_part p (sa_ip peer)) as E. destruct (select_backend p (sa_ip peer)) as [[i|] q]; cbn in E; [|done].
  destruct (pl_backends q !! i); [|done]. by destruct (k q _ d).
Qed.

Lemma with_backend_refused {A} (p : RequestPipeline S) peer (k : RequestPipeline S -> Backend -> disk -> Outcome A * disk) d e :
  check_acl p (sa_ip peer) = Err e -> with_backend p peer k d = (Refused, p, d).
Proof. unfold with_backend. by intros ->. Qed.

Lemma with_backend_admitted {A} (p : RequestPipeline S) peer (k : RequestPipeline S -> Backend -> disk -> Outcome A * disk) d :
  (forall q b d, (k q b d).1 <> Refused) ->
  check_acl p (sa_ip peer) = Ok tt -> (with_backend p peer k d).1.1 <> Refused.
Proof.
  intros Hk. unfold with_backend. intros ->. destruct (select_backend _ _) as [[i|] q]; [|done].
  destruct (pl_backends q !! i) as [b|]; [|done]. specialize (Hk q b d). by destruct (k q b d).
Qed.
End Serving.

Section WebServing.
Context `{Unicode} `{HttpLib} `{RegexSetLib} `{IpNetworkLib} `{GeoLib} `{DefaultHasher}.

Lemma pick_backend_part p ip headers (pl : RequestPipeline AnyBalancer) :
  acl_part (pick_backend p ip headers pl).2 = acl_part pl.
Proof. unfold pick_backend. case_match; [done|]. apply select_backend_part. Qed.

Lemma handle_request_part p ip ja3 w (st : HttpState AnyBalancer) req :
  acl_part (hs_pipeline (h_state (handle_request p ip ja3 w st req))) = acl_part (hs_pipeline st).
Proof.
  unfold handle_request. destruct (rq_body req) as [body|]; [|done].
  do 3 (case_match; [done|]). destruct (rate_gate _ _ _ _) as [allowed limiters]. case_match; [done|].
  case_match; [done|].
  pose proof (pick_backend_part p ip (collect_headers (rq_headers req)) (hs_pipeline (mkHttpState limiters (hs_pipeline st)))) as E.
  destruct (pick_backend _ _ _ _) as [[i|] pl]; [|done]. cbn in E. destruct (pl_backends pl !! i); [|done].
  unfold exchange. repeat case_match; done.
Qed.

Lemma serve_requests_part p ip ja3 reqs (st : HttpState AnyBalancer) :
  acl_part (hs_pipeline (serve_requests p ip ja3 reqs st).2) = acl_part (hs_pipeline st).
Proof.
  revert st. induction reqs as [|[w req] reqs IH]; intros st; [done|]. cbn [serve_requests].
  specialize (IH (h_state (handle_request p ip ja3 w st req))).
  destruct (serve_requests p ip ja3 reqs _) as [hs st']. cbn in *. by rewrite IH, handle_request_part.
Qed.
End WebServing.

(** ** Who is served *)

(** The lists of the global access control that are in force: none when they do not parse. *)
Definition effective_global `{IpNetworkLib} (config : ServerWallConfig) : option IpAclConfig :=
  let ip := sacl_ip (sec_acl (cfg_security config)) in
  if is_nil (ia_allow ip) && is_nil (ia_block ip) then None
  else match from_global_ip ip with Ok _ => Some ip | Err _ => None end.

(** The configuration admits an address to a frontend. *)
Definition config_admits `{IpNetworkLib} `{GeoLib} `{Unicode} (config : ServerWallConfig) (f : FrontendConfig) (ip : IpAddr)
  : Prop :=
  admits (effective_global config) (fr_acl f) (frontend_geo config f) ip.

(** What a handler returns keeps the access rules of [pl]; it is not a refusal. *)
Definition keeps_acl `{IpNetworkLib} `{GeoLib} {A} (pl : RequestPipeline AnyBalancer)
    (r : Outcome A * RequestPipeline AnyBalancer * disk) : Prop := acl_part r.1.2 = acl_part pl.
Definition not_refused `{IpNetworkLib} `{GeoLib} {A} (r : Outcome A * RequestPipeline AnyBalancer * disk) : Prop :=
  r.1.1 <> Refused.

(** The result of a handler, taken apart by a property of it. *)
Tactic Notation "by_handler" uconstr(P) :=
  match goal with
  | |- match ?X with pair _ _ => _ end = _ -> _ =>
      let Hp := fresh "Hp" in
      assert (P X) as Hp; [|destruct X as [[? ?] ?]; cbn in Hp]
  end.

(** Nothing was done for the client beyond, at most, a TLS handshake. *)
Definition refused `{RegexFind} `{!RegexSetLib} `{IpNetworkLib} `{GeoLib} (o : Served) : Prop :=
  match o with
  | HandshakeFailed | Lines Refused | Mails Refused | WebRefused => True
  | _ => False
  end.

Section Served.
Context `{RegexFind} `{Unicode} `{UnicodeClasses}.
Context `{!RegexSetLib} `{IpNetworkLib} `{GeoLib} `{TlsLib} `{!TlsServer} `{HttpLib} `{DefaultHasher}.
Context `{JsonLib} `{TokioCopy} `{Md5}.

Lemma serve_part net c service limiters pl d o limiters' pl' d' :
  serve net c service limiters pl d = Some (o, limiters', pl', d') -> acl_part pl' = acl_part pl.
Proof.
  unfold serve. destruct (accept_stream _ c) as [[[stream ja3]|]|]; [|by intros [= _ _ <- _]|done]. cbn [mbind option_bind].
  destruct service as [[t|] writer fmt|[t|] writer fmt|t|t proxy|[t|] antispam allow block hostname headers]; intros [= E]; revert E.
  1-5, 7-8: by_handler (keeps_acl pl);
    [apply with_backend_part|by intros [= _ _ <- _]].
  unfold handle_https_connection. destruct (check_acl _ _); [|by intros [= _ _ <- _]].
  pose proof (serve_requests_part proxy (sa_ip (cl_peer c)) ja3 (cl_requests c) (mkHttpState limiters pl)) as E.
  destruct (serve_requests _ _ _ _ _) as [hs st]. cbn in E. by intros [= _ _ <- _].
Qed.

(** A client the access lists refuse changes nothing. *)
Lemma serve_refused net c service limiters pl d o limiters' pl' d' e :
  check_acl pl (sa_ip (cl_peer c)) = Err e ->
  serve net c service limiters pl d = Some (o, limiters', pl', d') ->
  refused o /\ limiters' = limiters /\ pl' = pl /\ d' = d.
Proof.
  intros Hc. unfold serve. destruct (accept_stream _ c) as [[[stream ja3]|]|]; [|by intros [= <- <- <- <-]|done].
  cbn [mbind option_bind].
  destruct service as [[t|] writer fmt|[t|] writer fmt|t|t proxy|[t|] antispam allow block hostname headers].
  all: unfold handle_tls_stratum_connection, handle_tcp_connection, handle_tls_tcp_connection, handle_stratum_connection,
    handle_imap_connection, handle_https_connection, handle_smtp_starttls_connection, handle_smtp_connection.
  all: rewrite ?(with_backend_refused _ _ _ _ _ Hc), ?Hc; by intros [= <- <- <- <-].
Qed.

(** An admitted client is refused only by a failed handshake. *)
Lemma serve_admitted net c service limiters pl d o limiters' pl' d' :
  check_acl pl (sa_ip (cl_peer c)) = Ok tt ->
  serve net c service limiters pl d = Some (o, limiters', pl', d') -> refused o -> o = HandshakeFailed.
Proof.
  intros Hc. unfold serve. destruct (accept_stream _ c) as [[[stream ja3]|]|]; [|by intros [= <- _ _ _]|done].
  cbn [mbind option_bind].
  destruct service as [[t|] writer fmt|[t|] writer fmt|t|t proxy|[t|] antispam allow block hostname headers]; intros [= E]; revert E.
  1-5, 7-8: by_handler not_refused;
    [apply with_backend_admitted; [intros q b d0; by repeat case_match|done]|intros [= <- _ _ _]; by destruct o0].
  unfold handle_https_connection. rewrite Hc. destruct (serve_requests _ _ _ _ _) as [hs st]. by intros [= <- _ _ _].
Qed.
End Served.

(** ** Reachable states *)

Section Reach.
Context `{RegexFind} `{Resolver} `{MailAuth} `{MailParser} `{LolHtml} `{AvHost}.
Context `{Unicode} `{UnicodeClasses} (debug_set : list bytes -> bytes).
Context `{!RegexSetLib} `{IpNetworkLib} `{GeoLib} `{UuidV5} `{TlsLib} `{!OcspLib} `{!TlsServer} `{HttpLib}.
Context `{DefaultHasher} `{JsonLib} `{TokioCopy} `{Md5} `{TomlLib}.
Context (read_dir : bytes -> option (list RulesFile)) (path : bytes).

(** The states of a running server, with the configuration it runs and the files: after the
    start, after events, and after other programs changed the files. *)
Inductive reachable : ServerWallConfig -> ServerState -> disk -> Prop :=
| reach_start pid config d s d' :
    server_start debug_set read_dir pid config d = Some (Ok tt, s, d') -> reachable config s d'
| reach_event config s d ev o s' d' :
    reachable config s d -> ev <> Sighup ->
    server_step debug_set read_dir path ev s d = Some (o, s', d') -> reachable config s' d'
| reach_reload config s d config' d1 o s' d' :
    reachable config s d -> load_config path d = (Ok config', d1) ->
    server_step debug_set read_dir path Sighup s d = Some (o, s', d') -> reachable config' s' d'
| reach_rejected config s d e d1 :
    reachable config s d -> load_config path d = (Err e, d1) -> reachable config s d1
| reach_files config s d d' : reachable config s d -> reachable config s d'.

(** The entry of a frontend has the access rules its configuration gives it. *)
Definition entry_configured (config : ServerWallConfig) (name : bytes) (rn : Running) : Prop :=
  rn_frontend rn ∈ cfg_frontend config /\ fr_name (rn_frontend rn) = name /\
  built_from (effective_global config) (fr_acl (rn_frontend rn)) (rn_pipeline rn) /\
  pl_geo (rn_pipeline rn) = frontend_geo config (rn_frontend rn).

Definition configured (config : ServerWallConfig) (s : ServerState) : Prop :=
  map_Forall (entry_configured config) (sv_running s).

Lemma build_pipeline_built config pools f pl :
  build_pipeline config pools f = Ok pl ->
  built_from (effective_global config) (fr_acl f) pl /\ pl_geo pl = frontend_geo config f.
Proof.
  unfold build_pipeline. destruct (AccessControlEngine_from_config _) as [acl|] eqn:E; [|done]. intros [= <-].
  split; [|done]. split; [|done]. cbn. unfold effective_global, global_ip_acl. destruct (_ && _); [done|].
  by destruct (from_global_ip _) eqn:Eg.
Qed.

Lemma start_frontends_configured config pools fs running d r running' d' :
  fs ⊆ cfg_frontend config -> map_Forall (entry_configured config) running ->
  start_frontends debug_set read_dir config pools fs running d = Some (r, running', d') ->
  map_Forall (entry_configured config) running'.
Proof.
  revert running d. induction fs as [|f fs IH]; intros running d Hin Hr; cbn [start_frontends]; [by intros [= _ <- _]|].
  destruct (build_pipeline config pools f) as [pl|] eqn:Ep; [|by intros [= _ <- _]].
  destruct (build_service _ _ _ _ _) as [[[service|] d1]|]; cbn [mbind option_bind]; [|by intros [= _ <- _]|done].
  apply IH; [set_solver|]. apply map_Forall_insert_2; [|done].
  apply build_pipeline_built in Ep as [Hb Hg]. split; [set_solver|]. done.
Qed.

Lemma apply_config_configured config d r s d' :
  apply_config debug_set read_dir config d = Some (r, s, d') -> configured config s.
Proof.
  unfold apply_config. destruct (start_frontends _ _ _ _ _ _ _) as [[[r1 running] d1]|] eqn:E; [|done].
  cbn. intros [= _ <- _]. eapply start_frontends_configured; [done|apply map_Forall_empty|exact E].
Qed.

Lemma serve_frontend_configured net name c config s d o s' d' :
  configured config s -> serve_frontend net name c s d = Some (o, s', d') -> configured config s'.
Proof.
  intros Hc. unfold serve_frontend. destruct (sv_running s !! name) as [rn|] eqn:Er; [|by intros [= _ <- _]].
  destruct (serve _ _ _ _ _ _) as [[[[o1 lim] pl] d1]|] eqn:Es; [|done]. cbn. intros [= _ <- _].
  apply serve_part in Es. apply map_Forall_insert_2; [|done].
  destruct (Hc _ _ Er) as (Hin & Hn & Hb & Hg). split_and!; [done..| |]; cbn.
  - unfold built_from. by injection Es as -> -> _.
  - by injection Es as _ _ ->.
Qed.

Lemma reachable_configured config s d : reachable config s d -> configured config s.
Proof.
  induction 1 as [pid config d s d' Hs|config s d ev o s' d' _ IH Hne Hs|config s d config' d1 o s' d' _ _ Hl Hs|
                  config s d e d1 _ IH _|config s d d' _ IH]; [|..|done|done].
  - by eapply apply_config_configured.
  - destruct ev as [net name c|k net|]; cbn in Hs; [|injection Hs as _ <- _|done].
    + by eapply serve_frontend_configured.
    + unfold probe. destruct (sv_checkers s !! k) as [[pool hc]|]; [|done]. by case_match.
  - cbn in Hs. unfold reload in Hs. rewrite Hl in Hs.
    destruct (apply_config _ _ config' d1) as [[[r s1] d2]|] eqn:Ea; [|done]. cbn in Hs. injection Hs as _ <- _.
    by eapply apply_config_configured.
Qed.

(** C1: whatever connections, health checks, reloads and changes of the files a server has seen,
    a client is served by a running frontend exactly when the configuration in force admits its
    address there: a client it does not admit reaches no backend and changes no counter, limiter
    or file, and a client it admits is not turned away (unless its TLS handshake fails). *)
Theorem served_iff_admitted (config : ServerWallConfig) (s : ServerState) (d : disk) (net : Connections.Network)
    (name : bytes) (rn : Running) (c : Client) (o : Served) (s' : ServerState) (d' : disk) :
  reachable config s d ->
  sv_running s !! name = Some rn ->
  serve_frontend net name c s d = Some (Some o, s', d') ->
  config_admits config (rn_frontend rn) (sa_ip (cl_peer c)) /\ (refused o -> o = HandshakeFailed) \/
  ~ config_admits config (rn_frontend rn) (sa_ip (cl_peer c)) /\ refused o /\
    sv_pools s' = sv_pools s /\ sv_limiters s' = sv_limiters s /\ d' = d.
Proof.
  intros Hr Er. apply reachable_configured in Hr. destruct (Hr _ _ Er) as (_ & _ & Hb & Hg).
  unfold serve_frontend. rewrite Er. set (pool := fr_backend_pool _).
  set (pl := with_backends _ _).
  destruct (serve net c (rn_service rn) (sv_limiters s) pl d) as [[[[o1 lim] pl'] d1]|] eqn:Es; [|done].
  cbn. intros [= -> <- <-]. unfold config_admits. rewrite <- Hg. change (pl_geo (rn_pipeline rn)) with (pl_geo pl).
  destruct (check_acl_admits _ _ pl (sa_ip (cl_peer c)) Hb) as [[Hc Ha]|[Hc Ha]].
  - left. split; [done|]. by eapply serve_admitted.
  - right. destruct (serve_refused _ _ _ _ _ _ _ _ _ _ _ Hc Es) as (Ho & -> & -> & ->). split_and!; try done.
    cbn. destruct (sv_pools s !! pool) as [l|] eqn:El; [|done]. by rewrite insert_id.
Qed.
(** ** Reloads *)

(** The frontends up to the first that cannot be built are running; the loop says which. *)
Lemma start_frontends_built config pools fs running d r running' d' :
  start_frontends debug_set read_dir config pools fs running d = Some (r, running', d') ->
  exists built rest, fs = built ++ rest /\
    dom running' = dom running ∪ list_to_set (fr_name <$> built) /\
    Forall (fun g => is_ok (AccessControlEngine_from_config (fr_acl g)) = true) built /\
    (r = Ok tt /\ rest = [] \/
     exists f rest', rest = f :: rest' /\
       ((exists e, build_pipeline config pools f = Err e) \/
        exists d1 e d2, build_service debug_set read_dir config f d1 = Some (Err e, d2))).
Proof.
  revert running d. induction fs as [|f fs IH]; intros running d; cbn [start_frontends].
  { intros [= <- <- <-]. exists [], []. split; [done|]. split; [set_solver|]. split; [done|]. by left. }
  destruct (build_pipeline config pools f) as [pl|e] eqn:Ep.
  2: { intros [= <- <- <-]. exists [], (f :: fs). split; [done|]. split; [set_solver|]. split; [done|]. right. exists f, fs. eauto. }
  destruct (build_service _ _ _ _ _) as [[[service|e] d1]|] eqn:Es; cbn [mbind option_bind]; [| |done].
  2: { intros [= <- <- <-]. exists [], (f :: fs). split; [done|]. split; [set_solver|]. split; [done|]. right. exists f, fs.
       split; [done|]. right. by exists d, e, d1. }
  intros (built & rest & -> & Hd & Hok & Hr)%IH. exists (f :: built), rest. split; [done|]. split_and!; [| |done].
  - rewrite Hd, dom_insert_L. set_solver.
  - constructor; [|done]. unfold build_pipeline in Ep. by destruct (AccessControlEngine_from_config (fr_acl f)).
Qed.

Lemma apply_config_built config d r s d' :
  apply_config debug_set read_dir config d = Some (r, s, d') ->
  exists built rest, cfg_frontend config = built ++ rest /\
    dom (sv_running s) = list_to_set (fr_name <$> built) /\
    Forall (fun g => is_ok (AccessControlEngine_from_config (fr_acl g)) = true) built /\
    (r = Ok tt /\ rest = [] \/
     exists f rest', rest = f :: rest' /\
       ((exists e, build_pipeline config (build_backend_pools config) f = Err e) \/
        exists d1 e d2, build_service debug_set read_dir config f d1 = Some (Err e, d2))).
Proof.
  unfold apply_config. destruct (start_frontends _ _ _ _ _ _ _) as [[[r1 running] d1]|] eqn:E; [|done].
  cbn. intros [= <- <- <-]. apply start_frontends_built in E as (built & rest & -> & Hd & Hok & Hr).
  exists built, rest. split; [done|]. split; [|done]. cbn. rewrite Hd. set_solver.
Qed.


(** One unparsable entry in the access lists of a frontend, which the validation of the
    configuration accepts, makes a reload stop this frontend and every frontend configured after
    it, whatever was running. *)
Theorem bad_entry_stops_frontends (s : ServerState) (d : disk) (config : ServerWallConfig) (d1 : disk) o s' d'
    (before after : list FrontendConfig) (f : FrontendConfig) (e : bytes) :
  load_config path d = (Ok config, d1) ->
  cfg_frontend config = before ++ f :: after ->
  AccessControlEngine_from_config (fr_acl f) = Err e ->
  server_step debug_set read_dir path Sighup s d = Some (o, s', d') ->
  forall g, g ∈ f :: after -> sv_running s' !! fr_name g = None.
Proof.
  intros Hl Hf He Hs g Hg. pose proof (load_config_validated _ _ _ _ Hl) as Hv.
  apply validate_config_ok, wf_frontend_names in Hv. rewrite Hf, fmap_app in Hv.
  cbn in Hs. unfold reload in Hs. rewrite Hl in Hs.
  destruct (apply_config _ _ config d1) as [[[r s1] d2]|] eqn:Ea; [|done]. cbn in Hs. injection Hs as _ <- _.
  apply apply_config_built in Ea as (built & rest & Hb & Hd & Hok & _). apply not_elem_of_dom. rewrite Hd.
  rewrite elem_of_list_to_set. intros Hin.
  assert (fr_name g ∉ fr_name <$> before) as Hg'.
  { apply NoDup_app in Hv as (_ & Hv & _). intros Hin'. apply (Hv _ Hin'). by apply list_elem_of_fmap_2. }
  apply Hg'. rewrite Hf in Hb. destruct (app_eq_app _ _ _ _ Hb) as [k [[-> Hk]|[-> Hk]]].
  - rewrite fmap_app. set_solver.
  - destruct k as [|x k]; [by rewrite app_nil_r in Hin|]. injection Hk as <- _.
    apply Forall_app in Hok as [_ Hok]. inv Hok. by rewrite He in *.
Qed.
End Reach.

(** ** The shutdown ends *)

Lemma drain_polls_ends fuel total now deadline n :
  (forall k, now k + 100 <= now (Datatypes.S k)) ->
  deadline <= now n + 100 * (Z.of_nat fuel - 1) -> (0 < fuel)%nat ->
  exists k, (n <= k)%nat /\ (total k = 0 /\ drain_polls fuel total now deadline n = Some true \/
    total k <> 0 /\ deadline <= now k /\ drain_polls fuel total now deadline n = Some false).
Proof.
  intros Hn. revert n. induction fuel as [|fuel IH]; intros n Hd Hf; [lia|]. cbn [drain_polls].
  destruct (total n =? 0) eqn:Et; [exists n; split; [lia|]; left; split; [lia|done]|].
  destruct (deadline <=? now n) eqn:Ed; [exists n; split; [lia|]; right; split_and!; [lia|lia|done]|].
  specialize (Hn n). destruct (IH (Datatypes.S n)) as (k & Hk & Hr); [lia|destruct fuel; lia|].
  exists k. split; [lia|done].
Qed.

(** The graceful shutdown ends: it stops waiting when it sees no active connection or, at
    the latest, when the configured time is over. *)
Theorem drain_ends (secs entered : Z) (total now : nat -> Z) :
  entered <= now 0%nat -> (forall k, now k + 100 <= now (Datatypes.S k)) ->
  exists ended, drain secs total now entered = Some ended /\
    (ended = true -> exists k, total k = 0) /\
    (ended = false -> secs <= 0 \/ exists k, total k <> 0 /\ entered + 1000 * secs <= now k).
Proof.
  intros He Hn. unfold drain. destruct (0 <? secs) eqn:E; [|exists false; split; [done|]; split; [done|left; lia]].
  destruct (drain_polls_ends (Z.to_nat (10 * secs) + 2) total now (entered + 1000 * secs) 0 Hn)
    as (k & _ & [[Ht ->]|(Ht & Hd & ->)]); [lia|lia| |].
  - exists true. naive_solver.
  - exists false. naive_solver.
Qed.

Lemma drain_ends_witness :
  exists ended, drain 1 (fun n => 3 - Z.of_nat n) (fun n => 100 * Z.of_nat n) 0 = Some ended /\
    (ended = true -> exists k, 3 - Z.of_nat k = 0) /\
    (ended = false -> 1 <= 0 \/ exists k, 3 - Z.of_nat k <> 0 /\ 0 + 1000 * 1 <= 100 * Z.of_nat k).
Proof.
  apply (drain_ends 1 0 (fun n => 3 - Z.of_nat n) (fun n => 100 * Z.of_nat n)); [cbn; lia|intros k; cbn; lia].
Defined.

(** ** Which settings are in force *)

Section Settings.
Context `{RegexFind} `{Resolver} `{MailAuth} `{MailParser} `{LolHtml} `{AvHost}.
Context `{Unicode} `{UnicodeClasses} (debug_set : list bytes -> bytes).
Context `{!RegexSetLib} `{IpNetworkLib} `{GeoLib} `{UuidV5} `{TlsLib} `{!OcspLib} `{HttpLib} `{DefaultHasher}.
Context (read_dir : bytes -> option (list RulesFile)).

(** The firewall a frontend with this policy has: the rule set of this name, else the default. *)
Definition policy_engine (config : ServerWallConfig) (f : FrontendConfig) : WafEngine :=
  match (name ← (web_policy config f).1.1.1.2; find_named rs_name name (cfg_waf_ruleset config)) with
  | Some r => engine_from_ruleset_config read_dir r
  | None => WafEngine_new Blocking
  end.

Lemma build_https_proxy config f d tls p d' :
  build_https read_dir config f d = (Ok (HttpsService tls p), d') ->
  hp_frontend p = f /\ acl_bypass_waf p = sacl_acl_bypass_waf (sec_acl (cfg_security config)) /\
  hp_waf p = if (web_policy config f).1.1.1.1 && sec_enabled (cfg_security config)
             then Some (policy_engine config f) else None.
Proof.
  unfold build_https, policy_engine. destruct (tls_policy config f) as [[[age sub] ocsp] min].
  unfold io_bind. destruct (frontend_acceptor _ _ _ _ d) as [[acceptor|] d1]; [|done].
  destruct (web_policy config f) as [[[[enabled ruleset] headers] cookies] bot]. cbn [fst snd].
  destruct (log_settings config f) as [[fmt access] file]. unfold io_lift.
  destruct (open_log access file d1) as [writer d2]. cbn. intros [= _ <- _]. done.
Qed.

(** The firewall refuses a request of an HTTPS frontend exactly when all of these hold: the
    [security] section is enabled, the security profile of the frontend (the frontend without
    one) enables the firewall, the frontend itself does, the client does not bypass it, and the
    engine of the configured rule set blocks the request. *)
Theorem firewall_in_force (config : ServerWallConfig) (f : FrontendConfig) (d : disk) (tls : TlsAcceptor) (p : HttpProxy)
    (d' : disk) (ip : IpAddr) (ja3 : option bytes) (pl : RequestPipeline AnyBalancer) (req : Request) (body : bytes) :
  fr_protocol f = Https ->
  build_service debug_set read_dir config f d = Some (Ok (HttpsService tls p), d') ->
  waf_gate p ip ja3 pl req (collect_headers (rq_headers req)) body =
    negb (sec_enabled (cfg_security config) && (web_policy config f).1.1.1.1 && fr_waf_enabled f &&
          negb (sacl_acl_bypass_waf (sec_acl (cfg_security config)) && is_globally_allowed pl ip) &&
          is_blocked (decision (inspect (policy_engine config f)
            (waf_context ip ja3 req (collect_headers (rq_headers req)) body)))).
Proof.
  intros Hp. unfold build_service. rewrite Hp. intros [= Hb]. apply build_https_proxy in Hb as (Hf & Ha & Hw).
  unfold waf_gate. rewrite Hw, Hf, Ha.
  destruct (web_policy config f).1.1.1.1, (sec_enabled (cfg_security config)); cbn; try done.
  destruct (fr_waf_enabled f); cbn; [|done]. by destruct (negb _).
Qed.

Lemma start_frontends_ext config config' pools fs running d :
  (forall f, build_pipeline config pools f = build_pipeline config' pools f) ->
  (forall f d, build_service debug_set read_dir config f d = build_service debug_set read_dir config' f d) ->
  start_frontends debug_set read_dir config pools fs running d =
  start_frontends debug_set read_dir config' pools fs running d.
Proof.
  intros Hp Hs. revert running d. induction fs as [|f fs IH]; intros running d; [done|]. cbn [start_frontends].
  rewrite Hp, Hs. destruct (build_pipeline config' pools f); [|done].
  destruct (build_service _ _ config' f d) as [[[service|] d1]|]; cbn [mbind option_bind]; [|done..]. apply IH.
Qed.

(** The configuration with another default action of the global access control, other rate
    limit bursts and scopes, and another global TLS version and cipher list. *)
Definition with_settings (action : AclDefaultAction) (burst : option Z) (scope : option RateLimitScope)
    (min_version : bytes) (ciphers : list bytes) : ServerWallConfig -> ServerWallConfig :=
  upd_cfg_security (fun s =>
    upd_sec_acl (fun a => mkSecurityAcl action (sacl_acl_bypass_waf a) (sacl_ip a) (sacl_domain a) (sacl_path_patterns a))
      (upd_sec_rate_limit (fun l =>
         (fun r => mkRateLimit (rlc_name r) (rlc_key r) (rlc_requests r) (rlc_window_secs r) burst scope) <$> l)
         (upd_sec_tls (fun t => mkSecurityTls min_version ciphers (st_ocsp_stapling t) (st_hsts_max_age t)
            (st_hsts_include_subdomains t) (st_backend_tls_verify t) (st_backend_ca_bundle t)) s))).

(** The configuration without global address lists. *)
Definition without_global_lists : ServerWallConfig -> ServerWallConfig :=
  upd_cfg_security (upd_sec_acl (upd_sacl_ip (fun _ => mkIpAcl [] []))).

(** Settings the server does not act on.  The default action of the global access control,
    the bursts and scopes of the rate limits and the global TLS version and ciphers change
    nothing of what is started; and one entry of the global address lists that does not parse
    makes all of them, the block list included, as good as absent. *)
Theorem settings_without_effect (config : ServerWallConfig) (d : disk) :
  (forall action burst scope min_version ciphers,
     apply_config debug_set read_dir (with_settings action burst scope min_version ciphers config) d =
     apply_config debug_set read_dir config d) /\
  (forall e, from_global_ip (sacl_ip (sec_acl (cfg_security config))) = Err e ->
     apply_config debug_set read_dir config d =
     apply_config debug_set read_dir (without_global_lists config) d).
Proof.
  split.
  - intros action burst scope min_version ciphers. unfold apply_config.
    rewrite (start_frontends_ext _ config) by done.
    change (build_backend_pools (with_settings action burst scope min_version ciphers config)) with (build_backend_pools config).
    change (cfg_frontend (with_settings action burst scope min_version ciphers config)) with (cfg_frontend config).
    change (cfg_backend_pool (with_settings action burst scope min_version ciphers config)) with (cfg_backend_pool config).
    replace (build_limiters (with_settings action burst scope min_version ciphers config)) with (build_limiters config);
      [done|]. unfold build_limiters. cbn. rewrite <- list_fmap_compose. by apply list_fmap_ext.
  - intros e He. unfold apply_config.
    change (build_backend_pools (without_global_lists config)) with (build_backend_pools config).
    rewrite (start_frontends_ext config (without_global_lists config)); [done| |done].
    intros f. unfold build_pipeline. destruct (AccessControlEngine_from_config (fr_acl f)); [|done].
    f_equal. unfold global_ip_acl at 1. rewrite He. by destruct (_ && _).
Qed.
End Settings.

(** ** A server with three frontends *)

#[local] Instance demo_uuid : UuidV5 := {| new_v5_oid _ := [1; 2; 3; 4] |}.
#[local] Instance demo_hasher : DefaultHasher := {| hash_ip _ := 0 |}.
#[local] Instance demo_md5 : Md5 := {| md5_hex s := s |}.
#[local] Instance demo_ocsp : OcspLib := {| ocsp_request _ _ := Err []; ocsp_post _ _ := Err [] |}.
#[local] Instance demo_tls : TlsServer := {| hello_name _ := None; tls_accept _ _ raw := Some raw |}.
#[local] Instance demo_resolver : Resolver := zone_resolver [].
#[local] Existing Instances no_spf no_auth no_mime no_html no_scanner.

Definition demo_frontend (name : bytes) (blocked : list bytes) : FrontendConfig :=
  mkFrontend name Tcp [bs "0.0.0.0:80"] (bs "servers") None None None None None None default_tls_min_version []
    BRoundRobin false None None None ApacheCombined false None FrontendHeadersConfig_default SmtpHeadersConfig_default
    (mkFrontendAcl [] blocked DefaultAllow) None default_session_cookie.

Definition demo_config (fs : list FrontendConfig) : ServerWallConfig :=
  upd_cfg_frontend (fun _ => fs) (upd_cfg_backend_pool (fun _ => [example_pool]) ServerWallConfig_default).

Definition demo_debug : list bytes -> bytes := fun _ => [].
Definition demo_rules : bytes -> option (list RulesFile) := fun _ => None.

Definition blocking_config : ServerWallConfig := demo_config [demo_frontend (bs "web") [bs "192.0.2.9/32"]].

(** The state and the files after the start. *)
Definition started_state (x : option (result unit bytes * ServerState * disk)) : ServerState :=
  match x with Some (_, s, _) => s | None => mkServer ∅ ∅ [] [] end.
Definition started_disk (x : option (result unit bytes * ServerState * disk)) : disk :=
  match x with Some (_, _, d) => d | None => mkDisk ∅ [] end.
Definition started_ok (x : option (result unit bytes * ServerState * disk)) : bool :=
  match x with Some (Ok _, _, _) => true | _ => false end.

Lemma started_eq x : started_ok x = true -> x = Some (Ok tt, started_state x, started_disk x).
Proof. by destruct x as [[[[[]|] s] d]|]. Qed.

Lemma some_true {A} (x : option A) : match x with Some _ => true | None => false end = true -> exists a, x = Some a.
Proof. destruct x; by eauto. Qed.

Definition demo_state (config : ServerWallConfig) : ServerState :=
  started_state (server_start demo_debug demo_rules 7 config (mkDisk ∅ [])).
Definition demo_disk (config : ServerWallConfig) : disk :=
  started_disk (server_start demo_debug demo_rules 7 config (mkDisk ∅ [])).

Definition demo_net : Connections.Network :=
  mkNetwork (fun _ => Ok [bs "hello"]) (fun _ _ s => Ok s) (fun n => Ok n) (fun _ => true) [].
Definition demo_client (ip : IpAddr) : Client :=
  mkClient (mkSocketAddr ip 5000) [bs "hi"] [] (mkWorld 0 ∅ ∅ ∅) [] 0 0 [] (mkStamp [] [] f0).

(** What the start makes of the frontend [web], and what serving a client gives. *)
Definition demo_served (ip : IpAddr) : option (option Served * ServerState * disk) :=
  serve_frontend demo_net (bs "web") (demo_client ip) (demo_state blocking_config) (demo_disk blocking_config).

Lemma demo_started :
  server_start demo_debug demo_rules 7 blocking_config (mkDisk ∅ []) =
  Some (Ok tt, demo_state blocking_config, demo_disk blocking_config).
Proof. apply started_eq. vm_compute. reflexivity. Qed.

Lemma demo_running : exists rn, sv_running (demo_state blocking_config) !! bs "web" = Some rn.
Proof. apply some_true. vm_compute. reflexivity. Qed.

Lemma demo_answer : exists o s' d', demo_served (ipv4 192 0 2 9) = Some (Some o, s', d').
Proof.
  assert (match demo_served (ipv4 192 0 2 9) with Some (Some _, _, _) => true | _ => false end = true) as E
    by (vm_compute; reflexivity).
  revert E. generalize (demo_served (ipv4 192 0 2 9)). intros [[[[o|] s'] d']|]; by eauto.
Qed.

Lemma served_iff_admitted_witness :
  exists rn o s' d',
    sv_running (demo_state blocking_config) !! bs "web" = Some rn /\
    demo_served (ipv4 192 0 2 9) = Some (Some o, s', d') /\
    (config_admits blocking_config (rn_frontend rn) (ipv4 192 0 2 9) /\ (refused o -> o = HandshakeFailed) \/
     ~ config_admits blocking_config (rn_frontend rn) (ipv4 192 0 2 9) /\ refused o /\
       sv_pools s' = sv_pools (demo_state blocking_config) /\ sv_limiters s' = sv_limiters (demo_state blocking_config) /\
       d' = demo_disk blocking_config).
Proof.
  destruct demo_running as [rn Er], demo_answer as (o & s' & d' & Es).
  exists rn, o, s', d'. split; [exact Er|]. split; [exact Es|].
  exact (served_iff_admitted demo_debug demo_rules example_path blocking_config (demo_state blocking_config)
    (demo_disk blocking_config) demo_net (bs "web") rn (demo_client (ipv4 192 0 2 9)) o s' d'
    (reach_start demo_debug demo_rules example_path 7 blocking_config (mkDisk ∅ []) _ _ demo_started) Er Es).
Defined.

(** A configuration that loads, although an access list of its second frontend does not parse. *)
Definition broken_config : ServerWallConfig :=
  settled (demo_config [demo_frontend (bs "web") []; demo_frontend (bs "mail") [bs "10.0.0.0/99"]; demo_frontend (bs "db") []]).

Lemma broken_loads : exists d, load_config example_path d = (Ok broken_config, d).
Proof.
  destruct (write_stores (H1 := host_networks) id 7 example_path
    (demo_config [demo_frontend (bs "web") []; demo_frontend (bs "mail") [bs "10.0.0.0/99"]; demo_frontend (bs "db") []])
    (mkDisk ∅ [])) as (d & _ & Hst & _); [vm_compute; reflexivity..|by eexists|vm_compute; discriminate|].
  exists d. exact (stores_load 7 _ _ _ Hst).
Qed.

Lemma reload_happens d :
  load_config example_path d = (Ok broken_config, d) ->
  exists o s' d', server_step demo_debug demo_rules example_path Sighup (demo_state blocking_config) d = Some (o, s', d').
Proof.
  intros Hl. cbn [server_step]. unfold reload. rewrite Hl.
  assert (exists x, apply_config demo_debug demo_rules broken_config d = Some x) as [[[r s] d'] ->]
    by (apply some_true; vm_compute; reflexivity).
  by eexists _, _, _.
Qed.


Lemma bad_entry_stops_frontends_witness :
  exists d o s' d',
    load_config example_path d = (Ok broken_config, d) /\
    server_step demo_debug demo_rules example_path Sighup (demo_state blocking_config) d = Some (o, s', d') /\
    sv_running s' !! bs "db" = None.
Proof.
  destruct broken_loads as [d Hl], (reload_happens d Hl) as (o & s' & d' & Hs).
  exists d, o, s', d'. split; [exact Hl|]. split; [exact Hs|].
  exact (bad_entry_stops_frontends demo_debug demo_rules example_path _ _ _ _ _ _ _
    [demo_frontend (bs "web") []] [demo_frontend (bs "db") []] (demo_frontend (bs "mail") [bs "10.0.0.0/99"])
    (bs "invalid") Hl eq_refl eq_refl Hs (demo_frontend (bs "db") []) ltac:(right; left)).
Defined.

(** An HTTPS frontend with a certificate. *)
Definition web_frontend : FrontendConfig := tls_frontend (bs "web") Https (Some (bs "c.pem")) (Some (bs "k.pem")) None.
Definition web_disk : disk := mkDisk {[ bs "c.pem" := 67 :: bs "a.example"; bs "k.pem" := 75 :: 80 :: bs "key" ]} [].
Definition web_config : ServerWallConfig :=
  upd_cfg_security (fun s => mkSecurity true (sec_tls s) (sec_acl s) (sec_rate_limit s) (sec_geo s) (sec_bot_detection s)
                               (sec_cookies s) (sec_headers s)) (demo_config [web_frontend]).

Lemma web_built : exists tls p d', build_service demo_debug demo_rules web_config web_frontend web_disk =
  Some (Ok (HttpsService tls p), d').
Proof.
  assert (match build_service demo_debug demo_rules web_config web_frontend web_disk with
          | Some (Ok (HttpsService _ _), _) => true | _ => false end = true) as E by (vm_compute; reflexivity).
  revert E. generalize (build_service demo_debug demo_rules web_config web_frontend web_disk).
  intros [[[[]|] d']|]; by eauto.
Qed.

Lemma firewall_in_force_witness :
  exists tls p d', build_service demo_debug demo_rules web_config web_frontend web_disk = Some (Ok (HttpsService tls p), d') /\
    forall ip ja3 (pl : RequestPipeline AnyBalancer) req body, exists blocked,
      waf_gate p ip ja3 pl req (collect_headers (rq_headers req)) body =
      negb (sec_enabled (cfg_security web_config) && (web_policy web_config web_frontend).1.1.1.1 &&
            fr_waf_enabled web_frontend &&
            negb (sacl_acl_bypass_waf (sec_acl (cfg_security web_config)) && is_globally_allowed pl ip) && blocked).
Proof.
  destruct web_built as (tls & p & d' & E). exists tls, p, d'. split; [exact E|]. intros ip ja3 pl req body.
  eexists. exact (firewall_in_force demo_debug demo_rules web_config web_frontend _ _ _ _ ip ja3 pl req body eq_refl E).
Defined.
