(* ===== verification/WebAuth.v ===== *)
(** * The web interface: [serverwall-webui/src/middleware.rs], [routes/auth.rs],
    [routes/mod.rs], [static_files.rs], [state.rs]

    Who reaches which handler: the routes, the two layers in front of the management
    interface (the web application firewall and the authentication), sessions from login
    to expiry, and the CAPTCHA of the login page. The JSON Web Token library, the password
    hash, SHA-256, TOML and the router of axum are parameters. *)

From S2P Require Import Prelude RustStr Schema Net External Balancer Acl WafRules WafBuiltin WafMatcher WafEngine Float64 RateLimit Proto HttpProxy.
Open Scope Z_scope.

(** ** Libraries *)

(** [jsonwebtoken]: signing claims, and checking a token at a time ([Validation::default]). *)
Class JwtLib := {
  jwt_encode : json -> bytes -> option bytes;
  jwt_decode : Z -> bytes -> bytes -> option json;
}.

(** The characters of a token in compact form: base64url and dots. *)
Definition is_jwt_char (b : Z) : bool :=
  ((48 <=? b) && (b <=? 57)) || ((65 <=? b) && (b <=? 90)) || ((97 <=? b) && (b <=? 122)) ||
  (b =? 45) || (b =? 95) || (b =? 46).

Definition claim (k : bytes) (j : json) : option json :=
  match j with JObject fields => json_get fields k | _ => None end.

(** Documented behaviour: a token decodes under its secret to its claims until its expiry,
    with a leeway of a minute; it is never empty. *)
Class JwtSpec `{JwtLib} := {
  jwt_roundtrip now j secret token exp :
    jwt_encode j secret = Some token -> claim (bs "exp") j = Some (JNumber exp) ->
    jwt_decode now token secret = if now - 60 <=? exp then Some j else None;
  jwt_chars j secret token : jwt_encode j secret = Some token -> token <> [] /\ forallb is_jwt_char token = true;
}.

(** [argon2]: parsing a hash and verifying a password against it; the digest of [sha2] in
    hexadecimal; the two TOML files of accounts and tokens. *)
Class AuthLib := {
  hash_parses : bytes -> bool;
  verify_password : bytes -> bytes -> bool;
  sha256_hex : bytes -> bytes;
  toml_users : bytes -> option (list (bytes * bytes));
  toml_tokens : bytes -> option (list bytes);
}.

(** The router of [axum]: the registered pattern a path is routed to. *)
Class RouterLib := { route_of : list bytes -> bytes -> option bytes }.

(** The text of a pattern before its first capture. *)
Definition literal_prefix (pattern : bytes) : bytes := unwrap_or [] (head (split pattern 123)).

(** Documented behaviour: the pattern is a registered one, and matches literally up to its
    first capture. *)
Class RouterSpec `{RouterLib} := {
  route_registered patterns path p : route_of patterns path = Some p -> p ∈ patterns;
  route_literal patterns path p : route_of patterns path = Some p -> starts_with path (literal_prefix p) = true;
}.

(** ** State *)


Section WebUi.
Context `{Unicode} `{HttpLib} `{RegexSetLib} `{IpNetworkLib} `{JwtLib} `{AuthLib} `{RouterLib}.

(** The parts of the state the handlers below read, and the files on disk. *)
Record AppState := mkAppState {
  as_config : WebuiConfig;
  jwt_secret : bytes;
  waf_engine : WafEngine.WafEngine;
  ip_allow : IpMatcher;
  as_files : bytes -> option bytes;
}.

(** [AppState::from_config] and [reload_config]: an allow list that does not parse allows
    every address. *)
Definition any_address : list bytes := [bs "0.0.0.0/0"; bs "::/0"].
Definition build_ip_allow (allow_list : list bytes) : option IpMatcher :=
  match IpMatcher_new allow_list with
  | Ok m => Some m
  | Err _ => match IpMatcher_new any_address with Ok m => Some m | Err _ => None end
  end.

(** ** [middleware.rs] *)

Record Claims := mkClaims { sub : bytes; exp : Z }.

(** Deserialising claims: both fields have to be there. *)
Definition claims_of (j : json) : option Claims :=
  match claim (bs "sub") j, claim (bs "exp") j with
  | Some (JString s), Some (JNumber e) => Some (mkClaims s e)
  | _, _ => None
  end.

Definition validate_jwt (now : Z) (token secret : bytes) : option Claims :=
  jwt_decode now token secret ≫= claims_of.

(** The first value of a header, where it is text. *)
Definition text_header (req : Request) (name : bytes) : option bytes :=
  v ← first_header (rq_headers req) name; if value_to_str v then Some v else None.

Definition validate_api_token (token : bytes) (st : AppState) : bool :=
  match as_files st (tokens_file (as_config st)) with
  | None => false
  | Some content =>
      match toml_tokens content with
      | None => false
      | Some hashes => existsb (fun h => hash_parses h && verify_password token h) hashes
      end
  end.

Definition is_some {A} (o : option A) : bool := match o with Some _ => true | None => false end.

(** A session cookie among the cookies of a request. *)
Definition has_valid_session (now : Z) (st : AppState) (req : Request) : bool :=
  match text_header req (bs "cookie") with
  | Some cookies =>
      existsb (fun cookie =>
        match strip_prefix (trim cookie) (bs "lg_session=") with
        | Some token => is_some (validate_jwt now token (jwt_secret st))
        | None => false
        end) (split cookies 59)
  | None => false
  end.

Definition has_bearer (now : Z) (st : AppState) (req : Request) : bool :=
  match text_header req (bs "authorization") with
  | Some auth_str =>
      match strip_prefix auth_str (bs "Bearer ") with
      | Some token => is_some (validate_jwt now token (jwt_secret st)) || validate_api_token token st
      | None => false
      end
  | None => false
  end.

(** What a request is answered: by the handler of a route, with a status, or by a redirect. *)
Inductive Answer := Run (route : bytes) | Status (code : Z) | Redirect (location : bytes).

Definition skips_auth (path : bytes) : bool :=
  bool_decide (path = bs "/api/auth/login") || starts_with path (bs "/ui/login") ||
  bool_decide (path = bs "/ui/login.html") || bool_decide (path = bs "/health").

(** [None] passes the request on. *)
Definition auth (now : Z) (st : AppState) (req : Request) : option Answer :=
  let path := rq_path req in
  if skips_auth path then None
  else if has_bearer now st req then None
  else if has_valid_session now st req then None
  else if starts_with path (bs "/ui/") && negb (bool_decide (path = bs "/ui/login.html"))
       then Some (Redirect (bs "/ui/login.html"))
  else Some (Status 401).

Definition extract_client_ip (req : Request) : IpAddr :=
  match (fwd ← text_header req (bs "x-forwarded-for"); head (split fwd 44) ≫= fun f => parse_ip (trim f)) with
  | Some ip => ip
  | None =>
      match (text_header req (bs "x-real-ip") ≫= fun s => parse_ip (trim s)) with
      | Some ip => ip
      | None => LOCALHOST
      end
  end.

Definition MAX_BODY : Z := 1024 * 1024.

Definition waf_check (st : AppState) (req : Request) : option Answer :=
  match rq_body req with
  | None => Some (Status 413)
  | Some body =>
      if MAX_BODY <? Z.of_nat (length body) then Some (Status 413)
      else
        let headers_map := hm_collect (filter (fun h => value_to_str h.2 = true) (rq_headers req)) in
        let ctx := from_parts (rq_method req) (rq_uri req) headers_map body (extract_client_ip req) None in
        if is_blocked (decision (inspect (waf_engine st) ctx)) then Some (Status 403) else None
  end.

(** ** [routes/mod.rs] *)

Definition public_routes : list bytes :=
  [bs "/"; bs "/ui"; bs "/ui/"; bs "/api/auth/login"; bs "/api/auth/logout"; bs "/api/auth/captcha";
   bs "/health"; bs "/ui/login.html"; bs "/ui/{*path}"].

Definition api_routes : list bytes :=
  [bs "/api/status"; bs "/api/frontends"; bs "/api/frontends/{name}"; bs "/api/backends";
   bs "/api/backends/{pool}"; bs "/api/backends/{pool}/health"; bs "/api/backends/{pool}/servers";
   bs "/api/backends/{pool}/servers/{name}"; bs "/api/queue"; bs "/api/queue/stats"; bs "/api/queue/flush";
   bs "/api/queue/purge"; bs "/api/queue/{id}"; bs "/api/queue/{id}/retry"; bs "/api/queue/{id}/hold";
   bs "/api/queue/{id}/release"; bs "/api/certs"; bs "/api/certs/import"; bs "/api/certs/self-signed";
   bs "/api/certs/acme"; bs "/api/certs/{name}"; bs "/api/dkim"; bs "/api/dkim/generate";
   bs "/api/dkim/{domain}/dns"; bs "/api/dkim/{domain}"; bs "/api/dmarc"; bs "/api/dmarc/{domain}/dns";
   bs "/api/dmarc/{domain}"; bs "/api/spf"; bs "/api/spf/{domain}/record"; bs "/api/spf/{domain}";
   bs "/api/antispam/stats"; bs "/api/antispam/checks"; bs "/api/antispam/lists";
   bs "/api/antispam/allow/ips"; bs "/api/antispam/allow/ips/{ip}"; bs "/api/antispam/allow/senders";
   bs "/api/antispam/allow/senders/{sender}"; bs "/api/antispam/allow/domains";
   bs "/api/antispam/allow/domains/{domain}"; bs "/api/antispam/block/ips"; bs "/api/antispam/block/ips/{ip}";
   bs "/api/antispam/block/senders"; bs "/api/antispam/block/senders/{sender}";
   bs "/api/antispam/block/domains"; bs "/api/antispam/block/domains/{domain}";
   bs "/api/antispam/block/recipients"; bs "/api/antispam/block/recipients/{recipient}";
   bs "/api/antispam/allow/recipients"; bs "/api/antispam/allow/recipients/{recipient}";
   bs "/api/antispam/dnsbl"; bs "/api/antispam/dnsbl/{zone}"; bs "/api/antispam/domain-overrides";
   bs "/api/antispam/domain-overrides/{domain}"; bs "/api/antispam/surbl-zones";
   bs "/api/antispam/surbl-zones/{zone}"; bs "/api/antispam/scanners"; bs "/api/antispam/scanners/{name}";
   bs "/api/reload"; bs "/api/logs"; bs "/api/acl"; bs "/api/acl/global"; bs "/api/acl/global/allow";
   bs "/api/acl/global/allow/{ip}"; bs "/api/acl/global/block"; bs "/api/acl/global/block/{ip}";
   bs "/api/acl/{id}"; bs "/api/waf"; bs "/api/waf/{name}"; bs "/api/waf/{name}/clone";
   bs "/api/security-profiles"; bs "/api/security-profiles/{name}"; bs "/api/log-profiles";
   bs "/api/log-profiles/{name}"; bs "/api/security"; bs "/api/security/tls"; bs "/api/security/geo";
   bs "/api/security/headers"; bs "/api/security/bot"; bs "/api/security/cookies";
   bs "/api/security/rate-limits"; bs "/api/security/rate-limits/{name}"; bs "/api/security/acl";
   bs "/api/relay"; bs "/api/relay/trusted-hosts"; bs "/api/relay/trusted-hosts/{host}";
   bs "/api/settings/global"; bs "/api/settings/acme"; bs "/api/settings/webui"; bs "/api/system/webui-cert"].

(** [build_router]: the layers of the management interface, the firewall outermost. *)
Definition webui_handle (now : Z) (st : AppState) (req : Request) : Answer :=
  match route_of (public_routes ++ api_routes) (rq_path req) with
  | None => Status 404
  | Some route =>
      if member route public_routes then Run route
      else match waf_check st req with
           | Some answer => answer
           | None => match auth now st req with Some answer => answer | None => Run route end
           end
  end.

(** The accept loops: addresses outside the allow list are not served. *)
Definition webui_accepts (st : AppState) (peer : IpAddr) : bool := matches (ip_allow st) peer.

Definition root_redirect (now : Z) (st : AppState) (req : Request) : Answer :=
  if has_valid_session now st req then Redirect (bs "/ui/index.html") else Redirect (bs "/ui/login.html").

(** ** [static_files.rs] *)

(** The pages need a session, other files do not; [assets] are the embedded files. *)
Definition serve_asset (assets : bytes -> bool) (now : Z) (st : AppState) (req : Request) (path : bytes) : Answer :=
  if ends_with path (bs ".html") && negb (bool_decide (path = bs "login.html")) &&
     negb (has_valid_session now st req)
  then Redirect (bs "/ui/login.html")
  else if assets path then Status 200 else Status 404.

(** ** [routes/auth.rs] *)

Record LoginRequest := mkLogin { username : bytes; password : bytes; captcha_token : bytes; captcha_answer : bytes }.

Definition verify_captcha (now : Z) (token answer secret : bytes) : bool :=
  if is_nil token || is_nil answer then false
  else match jwt_decode now token secret with
       | Some j =>
           match claim (bs "answer_hash") j, claim (bs "exp") j with
           | Some (JString h), Some (JNumber _) => bool_decide (sha256_hex (trim answer) = h)
           | _, _ => false
           end
       | None => false
       end.

(** The first account of that name decides; [None] when the accounts cannot be read. *)
Definition verify_web_user (user pass : bytes) (st : AppState) : option bool :=
  content ← as_files st (web_users_file (as_config st));
  users ← toml_users content;
  Some match List.find (fun u => bool_decide (u.1 = user)) users with
       | Some (_, h) => hash_parses h && verify_password pass h
       | None => false
       end.

Definition session_claims (user : bytes) (expiry : Z) : json :=
  JObject [(bs "sub", JString user); (bs "exp", JNumber expiry)].

(** The token of a session, or the status of a refusal. *)
Definition login (now : Z) (st : AppState) (req : LoginRequest) : result bytes Z :=
  if negb (verify_captcha now (captcha_token req) (captcha_answer req) (jwt_secret st)) then Err 401
  else match verify_web_user (username req) (password req) st with
       | Some true => Ok (unwrap_or [] (jwt_encode (session_claims (username req) (now + 24 * 3600)) (jwt_secret st)))
       | _ => Err 401
       end.

Definition logout (st : AppState) : AppState := st.

Definition captcha_claims (answer : Z) (expiry : Z) : json :=
  JObject [(bs "answer_hash", JString (sha256_hex (show answer))); (bs "exp", JNumber expiry)].

(** The operands, whether they are subtracted, and the answer, from three random bytes. *)
Definition captcha_puzzle (b1_0 b2_0 b1_1 : Z) : Z * Z * bool * Z :=
  let a := b1_0 mod 15 + 1 in
  let b := b2_0 mod 15 + 1 in
  if b1_1 mod 2 =? 0 then
    let '(hi, lo) := if b <=? a then (a, b) else (b, a) in (hi, lo, true, hi - lo)
  else (a, b, false, a + b).

Definition captcha (now : Z) (st : AppState) (b1_0 b2_0 b1_1 : Z) : bytes :=
  let '(_, _, _, answer) := captcha_puzzle b1_0 b2_0 b1_1 in
  unwrap_or [] (jwt_encode (captcha_claims answer (now + 5 * 60)) (jwt_secret st)).
End WebUi.

(** ** Who is let through *)

Section AuthLemmas.
Context `{Unicode} `{HttpLib} `{RegexSetLib} `{IpNetworkLib} `{JwtLib} `{AuthLib}.

(** A valid token in the authorization header or in a session cookie. *)
Definition credentials (now : Z) (st : AppState) (req : Request) : Prop :=
  (exists token, text_header req (bs "authorization") = Some (bs "Bearer " ++ token) /\
     (is_Some (validate_jwt now token (jwt_secret st)) \/ validate_api_token token st = true)) \/
  (exists cookies cookie token, text_header req (bs "cookie") = Some cookies /\ cookie ∈ split cookies 59 /\
     trim cookie = bs "lg_session=" ++ token /\ is_Some (validate_jwt now token (jwt_secret st))).

Lemma is_some_true {A} (o : option A) : is_some o = true <-> is_Some o.
Proof. destruct o; split; try done; by intros [x ?]. Qed.

Lemma has_valid_session_true now st req :
  has_valid_session now st req = true <->
  exists cookies cookie token, text_header req (bs "cookie") = Some cookies /\ cookie ∈ split cookies 59 /\
    trim cookie = bs "lg_session=" ++ token /\ is_Some (validate_jwt now token (jwt_secret st)).
Proof.
  unfold has_valid_session. destruct (text_header req (bs "cookie")) as [cookies|]; [|split; [done|by intros (? & ? & ? & ? & _)]].
  rewrite existsb_elem_of. split.
  - intros (cookie & Hin & Hc). destruct (strip_prefix (trim cookie) _) as [token|] eqn:E; [|done].
    apply strip_prefix_Some in E. apply is_some_true in Hc. by exists cookies, cookie, token.
  - intros (cookies' & cookie & token & [= <-] & Hin & Ht & Hv). exists cookie. split; [done|].
    rewrite Ht, strip_prefix_app. by apply is_some_true.
Qed.

Lemma has_bearer_true now st req :
  has_bearer now st req = true ->
  exists token, text_header req (bs "authorization") = Some (bs "Bearer " ++ token) /\
    (is_Some (validate_jwt now token (jwt_secret st)) \/ validate_api_token token st = true).
Proof.
  unfold has_bearer. destruct (text_header req (bs "authorization")) as [a|]; [|done].
  destruct (strip_prefix a _) as [token|] eqn:E; [|done]. apply strip_prefix_Some in E as ->.
  intros [Hv|Hv]%orb_true_iff; exists token; (split; [done|]); [left; by apply is_some_true|by right].
Qed.

Lemma auth_passes now st req :
  skips_auth (rq_path req) = false -> auth now st req = None -> credentials now st req.
Proof.
  unfold auth. intros ->. destruct (has_bearer now st req) eqn:Eb; [intros _; left; by apply has_bearer_true|].
  destruct (has_valid_session now st req) eqn:Es; [intros _; right; by apply has_valid_session_true|].
  by case_if.
Qed.
End AuthLemmas.

(** No path of the management interface is one the authentication skips. *)
Definition guarded_prefix (p : bytes) : bool :=
  starts_with (literal_prefix p) (bs "/api/") && negb (starts_with (bs "/api/auth/login") (literal_prefix p)).

Lemma api_routes_guarded : Forall (fun p => guarded_prefix p = true) api_routes.
Proof. by apply (bool_decide_unpack _); vm_compute. Qed.

Lemma starts_with_trans a b c : starts_with a b = true -> starts_with b c = true -> starts_with a c = true.
Proof.
  rewrite !starts_with_true. intros [r ->] [r' ->]. exists (r' ++ r). by rewrite app_assoc.
Qed.

Lemma guarded_not_skipped p path :
  guarded_prefix p = true -> starts_with path (literal_prefix p) = true -> skips_auth path = false.
Proof.
  intros [Ha Hl%negb_true_iff]%andb_true_iff Hp. pose proof (starts_with_trans _ _ _ Hp Ha) as Hapi.
  apply starts_with_true in Hapi as [r Hr]. unfold skips_auth.
  rewrite (bool_decide_eq_false_2 (path = bs "/api/auth/login")) by (intros ->; by rewrite Hl in Hp).
  rewrite Hr. by rewrite bool_decide_eq_false_2.
Qed.

(** ** Tokens *)

Lemma jwt_char_plain b : is_jwt_char b = true -> 0 <= b < 128 /\ ascii_ws b = false /\ b <> 59.
Proof.
  unfold is_jwt_char. rewrite !orb_true_iff, !andb_true_iff. intros Hb.
  assert (45 <= b <= 122 /\ b <> 59) by lia. split; [lia|]. split; [|lia]. unfold ascii_ws.
  apply orb_false_iff. split; [apply andb_false_iff|]; lia.
Qed.

Lemma jwt_chars_plain t : forallb is_jwt_char t = true ->
  is_ascii t /\ Forall (fun b => ascii_ws b = false) t /\ 59 ∉ t.
Proof.
  intros Ht. assert (Hall : Forall (fun b => 0 <= b < 128 /\ ascii_ws b = false /\ b <> 59) t).
  { apply Forall_forall. intros b Hb%list_elem_of_In. by apply jwt_char_plain, (proj1 (forallb_forall _ _) Ht). }
  split_and!.
  - eapply Forall_impl; [exact Hall|]. by intros b (? & _).
  - eapply Forall_impl; [exact Hall|]. by intros b (_ & ? & _).
  - intros Hin. apply (proj1 (Forall_forall _ _) Hall) in Hin. tauto.
Qed.

Lemma show_trim z : 0 <= z -> trim (show z) = show z.
Proof.
  intros Hz. destruct (show_plain_token z Hz) as (_ & Ha & _). destruct (show_digits z Hz) as (_ & Hd & _).
  apply trim_plain; [done|]. eapply Forall_impl; [exact Hd|]. unfold is_digit, ascii_ws. intros x Hx. simpl in Hx.
  apply orb_false_iff. split; [apply andb_false_iff|]; lia.
Qed.

Section TokenLemmas.
Context `{Unicode} `{HttpLib} `{RegexSetLib} `{IpNetworkLib} `{JwtSpec} `{AuthLib}.

Lemma unwrap_or_ne (o : option bytes) t : unwrap_or [] o = t -> t <> [] -> o = Some t.
Proof. destruct o; simpl; congruence. Qed.

(** A session cookie on its own. *)
Lemma lone_cookie now st req token :
  forallb is_jwt_char token = true -> text_header req (bs "cookie") = Some (bs "lg_session=" ++ token) ->
  has_valid_session now st req = is_some (validate_jwt now token (jwt_secret st)).
Proof.
  intros Ht Hh. destruct (jwt_chars_plain _ Ht) as (Ha & Hw & Hs).
  unfold has_valid_session. rewrite Hh, split_none.
  2: { rewrite not_elem_of_app. split; [|done]. by apply (bool_decide_unpack _); vm_compute. }
  cbn [existsb]. rewrite orb_false_r, trim_plain, strip_prefix_app; [done|..].
  - apply is_ascii_app. split; [|done]. unfold is_ascii. repeat constructor; lia.
  - apply Forall_app. split; [|done]. by repeat constructor.
Qed.

Lemma validate_session now st user expiry token :
  jwt_encode (session_claims user expiry) (jwt_secret st) = Some token ->
  validate_jwt now token (jwt_secret st) = if now - 60 <=? expiry then Some (mkClaims user expiry) else None.
Proof.
  intros He. unfold validate_jwt. rewrite (jwt_roundtrip now _ _ _ expiry He) by reflexivity.
  by destruct (now - 60 <=? expiry).
Qed.

Lemma verify_captcha_token now st answer expiry token guess :
  jwt_encode (captcha_claims answer expiry) (jwt_secret st) = Some token -> guess <> [] ->
  verify_captcha now token guess (jwt_secret st) =
  (now - 60 <=? expiry) && bool_decide (sha256_hex (trim guess) = sha256_hex (show answer)).
Proof.
  intros He Hg. destruct (jwt_chars _ _ _ He) as [Hne _]. unfold verify_captcha.
  rewrite (proj2 (is_nil_false token) Hne), (proj2 (is_nil_false guess) Hg).
  rewrite (jwt_roundtrip now _ _ _ expiry He) by reflexivity. by destruct (now - 60 <=? expiry).
Qed.

Lemma captcha_puzzle_range x y z op1 op2 minus answer :
  captcha_puzzle x y z = (op1, op2, minus, answer) ->
  0 <= answer <= 30 /\ answer = if minus then op1 - op2 else op1 + op2.
Proof.
  unfold captcha_puzzle. pose proof (Z.mod_pos_bound x 15 ltac:(lia)). pose proof (Z.mod_pos_bound y 15 ltac:(lia)).
  destruct (z mod 2 =? 0); [destruct (Z.leb_spec (y mod 15 + 1) (x mod 15 + 1))|]; intros [= <- <- <- <-]; lia.
Qed.
End TokenLemmas.

(** ** Examples *)

(** Unsigned tokens, for claims of the two shapes the code makes. *)
Definition toy_kind (a : bytes) : option Z :=
  if bool_decide (a = bs "sub") then Some 83 else if bool_decide (a = bs "answer_hash") then Some 67 else None.

Definition toy_encode (j : json) (secret : bytes) : option bytes :=
  match j with
  | JObject [(a, JString u); (b, JNumber e)] =>
      k ← toy_kind a;
      if bool_decide (b = bs "exp") && forallb is_jwt_char u && (0 <=? e) && (e <=? umax 64)
      then Some (k :: show e ++ 46 :: u) else None
  | _ => None
  end.

Definition toy_decode (now : Z) (token secret : bytes) : option json :=
  match token with
  | k :: t =>
      '(d, u) ← split_once t 46;
      e ← parse_uint 64 10 d;
      if now - 60 <=? e
      then Some (JObject [((if k =? 83 then bs "sub" else bs "answer_hash"), JString u); (bs "exp", JNumber e)])
      else None
  | [] => None
  end.

#[export] Instance toy_jwt : JwtLib | 100 := {| jwt_encode := toy_encode; jwt_decode := toy_decode |}.

Lemma toy_encode_Some j secret token : toy_encode j secret = Some token ->
  exists a k u e, j = JObject [(a, JString u); (bs "exp", JNumber e)] /\ toy_kind a = Some k /\
    forallb is_jwt_char u = true /\ 0 <= e <= umax 64 /\ token = k :: show e ++ 46 :: u.
Proof.
  unfold toy_encode. destruct j as [| | | | | |fields]; try done.
  destruct fields as [|[a va] [|[b vb] [|]]]; try (repeat case_match; done).
  destruct va as [| | | |u| |]; try done. destruct vb as [| |e| | | |]; try done.
  destruct (toy_kind a) as [k|] eqn:Ek; [simpl|done]. destruct (_ && _) eqn:E; [|done]. intros [= <-].
  apply andb_true_iff in E as [[[E Hu]%andb_true_iff H0%Z.leb_le]%andb_true_iff H1%Z.leb_le].
  apply bool_decide_eq_true in E as ->. by exists a, k, u, e.
Qed.

Lemma toy_kind_spec a k : toy_kind a = Some k ->
  is_jwt_char k = true /\ (if k =? 83 then bs "sub" else bs "answer_hash") = a.
Proof. unfold toy_kind. repeat case_bool_decide; intros [= <-]; by subst. Qed.

#[export] Instance toy_jwt_spec : @JwtSpec toy_jwt.
Proof.
  constructor.
  - intros now j secret token exp (a & k & u & e & -> & Hk & Hu & He & ->)%toy_encode_Some Hexp.
    apply toy_kind_spec in Hk as [_ Hk]. cbn [jwt_decode toy_jwt toy_decode].
    rewrite split_once_app by (apply show_not_elem; [lia|unfold is_digit; lia]). cbn [mbind option_bind].
    rewrite parse_uint_show by done. cbn [mbind option_bind]. rewrite Hk.
    assert (e = exp) as ->; [|done].
    unfold claim, json_get in Hexp. simpl in Hexp. case_bool_decide as Ha; [|by injection Hexp].
    exfalso. simpl in Ha. rewrite Ha in Hk. destruct (k =? 83); discriminate Hk.
  - intros j secret token (a & k & u & e & -> & Hk & Hu & He & ->)%toy_encode_Some. split; [done|].
    apply toy_kind_spec in Hk as [Hk _]. simpl. rewrite Hk. simpl. rewrite forallb_app. simpl. rewrite Hu.
    rewrite andb_true_r. destruct (show_digits e ltac:(lia)) as (_ & Hd & _). apply forallb_forall.
    intros x Hx%list_elem_of_In. apply (proj1 (Forall_forall _ _) Hd) in Hx. unfold is_digit in Hx.
    unfold is_jwt_char. by rewrite (proj2 (andb_true_iff _ _)) by lia.
Qed.

(** Passwords and answers that are their own hashes; one account and one token. *)
#[export] Instance toy_auth : AuthLib | 100 := {|
  hash_parses _ := true;
  verify_password p h := bool_decide (p = h);
  sha256_hex s := s;
  toml_users c := Some [(bs "admin", c)];
  toml_tokens c := Some [c];
|}.

(** Routes without captures. *)
#[export] Instance static_router : RouterLib | 100 := {|
  route_of patterns path := if member path patterns then Some path else None;
|}.

#[export] Instance static_router_spec : @RouterSpec static_router.
Proof.
  constructor; simpl; intros patterns path p; destruct (member path patterns) eqn:E; intros [= <-].
  - by apply member_true.
  - unfold literal_prefix. destruct (split path 123) as [|h t] eqn:Es; simpl; [by destruct path|].
    by eapply starts_with_split.
Qed.

Definition example_app : AppState :=
  mkAppState (mkWebui true default_webui_listen None None (bs "tokens") (bs "users") [] []) (bs "secret") (example_engine Blocking) (mkIpMatcher [])
    (fun f => if bool_decide (f = bs "users") then Some (bs "pw") else None).

Definition api_request (cookie : bytes) : Request :=
  mkRequest (bs "POST") (bs "/api/reload") (bs "/api/reload") (Some (bs "/api/reload")) [(bs "cookie", cookie)] (Some []).

Definition example_login : LoginRequest := mkLogin (bs "admin") (bs "pw") (bs "C500.7") (bs "7").
Definition example_token : bytes := bs "S86500.admin".

(** ** Properties *)

(** A route of the management interface runs behind both layers. *)
Lemma management_guarded `{Unicode} `{HttpLib} `{RegexSetLib} `{IpNetworkLib} `{JwtLib} `{AuthLib}
    `{RouterSpec} now (st : AppState) req route :
  webui_handle now st req = Run route -> route ∉ public_routes ->
  credentials now st req /\ waf_check st req = None /\ route ∈ api_routes.
Proof.
  unfold webui_handle. destruct (route_of _ _) as [r|] eqn:Er; [|done].
  destruct (member r public_routes) eqn:Em.
  { apply member_true in Em. by intros [= ->]. }
  destruct (waf_check st req) as [a|] eqn:Ew.
  { unfold waf_check in Ew. repeat case_match; by simplify_eq. }
  destruct (auth now st req) as [a|] eqn:Ea.
  { intros ->. unfold auth in Ea. repeat case_match; by simplify_eq. }
  intros [= ->] _.
  assert (Hr : route ∈ api_routes).
  { apply route_registered, elem_of_app in Er as [Hp|?]; [|done]. by apply member_false in Em. }
  split; [|done]. apply auth_passes; [|done].
  eapply guarded_not_skipped; [by apply (proj1 (Forall_forall _ _) api_routes_guarded)|by eapply route_literal].
Qed.

(** C10: the management interface is closed: a handler of a management route runs only for a
    request that carries a valid session or API token, and that the web application
    firewall did not block; no path of it is among those the authentication skips. *)
Theorem api_requires_credentials `{Unicode} `{HttpLib} `{RegexSetLib} `{IpNetworkLib} `{JwtLib} `{AuthLib}
    `{RouterSpec} now (st : AppState) req route :
  webui_handle now st req = Run route -> route ∉ public_routes ->
  credentials now st req /\ waf_check st req = None /\ route ∈ api_routes.
Proof. apply management_guarded. Qed.

Lemma api_requires_credentials_witness :
  credentials 200 example_app (api_request (bs "lg_session=" ++ example_token)) /\
  waf_check example_app (api_request (bs "lg_session=" ++ example_token)) = None /\ bs "/api/reload" ∈ api_routes.
Proof.
  apply (api_requires_credentials 200 example_app (api_request (bs "lg_session=" ++ example_token)) (bs "/api/reload")).
  - vm_compute. reflexivity.
  - apply (bool_decide_unpack _). vm_compute. exact I.
Defined.

(** Sessions last a day: the token a login returns is accepted, as a session cookie,
    until 24 hours and the leeway of a minute after the login, and not after. *)
Theorem session_lifetime `{Unicode} `{HttpLib} `{RegexSetLib} `{IpNetworkLib} `{JwtSpec} `{AuthLib}
    t0 now (st : AppState) lr token req :
  login t0 st lr = Ok token -> token <> [] ->
  text_header req (bs "cookie") = Some (bs "lg_session=" ++ token) ->
  has_valid_session now st req = (now <=? t0 + 86400 + 60).
Proof.
  unfold login. case_if; [done|]. destruct (verify_web_user _ _ _) as [[|]|]; try done. intros [= Ht] Hne Hh.
  apply unwrap_or_ne in Ht; [|done]. destruct (jwt_chars _ _ _ Ht) as [_ Hc].
  rewrite (lone_cookie now st req token Hc Hh), (validate_session now st _ _ _ Ht).
  destruct (Z.leb_spec (now - 60) (t0 + 24 * 3600)), (Z.leb_spec now (t0 + 86400 + 60)); try done; lia.
Qed.

Lemma session_lifetime_witness :
  has_valid_session 90000 example_app (api_request (bs "lg_session=" ++ example_token)) = (90000 <=? 100 + 86400 + 60).
Proof.
  apply (session_lifetime 100 90000 example_app example_login example_token).
  - vm_compute. reflexivity.
  - discriminate.
  - vm_compute. reflexivity.
Defined.

(** The CAPTCHA: the token of a puzzle is solved by a number exactly when it is the
    result of the puzzle, for five minutes and the leeway, provided the hash tells small
    numbers apart. *)
Theorem captcha_solved `{Unicode} `{HttpLib} `{RegexSetLib} `{IpNetworkLib} `{JwtSpec} `{AuthLib}
    t0 now (st : AppState) x y z op1 op2 minus answer token guess :
  captcha_puzzle x y z = (op1, op2, minus, answer) -> captcha t0 st x y z = token -> token <> [] ->
  (forall a b, 0 <= a < 100 -> 0 <= b < 100 -> sha256_hex (show a) = sha256_hex (show b) -> a = b) ->
  0 <= guess < 100 ->
  verify_captcha now token (show guess) (jwt_secret st) = true <->
  now <= t0 + 300 + 60 /\ guess = if minus then op1 - op2 else op1 + op2.
Proof.
  intros Hp Ht Hne Hsha Hg. destruct (captcha_puzzle_range _ _ _ _ _ _ _ Hp) as [Hr <-].
  unfold captcha in Ht. rewrite Hp in Ht. apply unwrap_or_ne in Ht; [|done].
  destruct (show_digits guess ltac:(lia)) as [Hgne _].
  rewrite (verify_captcha_token now st answer _ token (show guess) Ht Hgne), show_trim by lia.
  rewrite andb_true_iff, Z.leb_le, bool_decide_eq_true. split.
  - intros [Hn Hs%Hsha]; [split; [lia|done]|done|lia].
  - intros [Hn ->]. split; [lia|done].
Qed.

Lemma captcha_solved_witness :
  verify_captcha 300 (bs "C400.7") (show 7) (jwt_secret example_app) = true <-> 300 <= 100 + 300 + 60 /\ 7 = 10 - 3.
Proof.
  apply (captcha_solved 100 300 example_app 9 2 4 10 3 true 7 (bs "C400.7") 7).
  - vm_compute. reflexivity.
  - vm_compute. reflexivity.
  - discriminate.
  - intros a b Ha Hb. apply show_inj; lia.
  - lia.
Defined.

(** Tokens are not interchangeable: though both are signed with one secret, the token
    of a CAPTCHA is never accepted as a session, and that of a session never as a solved
    CAPTCHA. *)
Theorem tokens_separated `{Unicode} `{HttpLib} `{RegexSetLib} `{IpNetworkLib} `{JwtSpec} `{AuthLib}
    now (st : AppState) token :
  (forall answer expiry, jwt_encode (captcha_claims answer expiry) (jwt_secret st) = Some token ->
     validate_jwt now token (jwt_secret st) = None) /\
  (forall user expiry guess, jwt_encode (session_claims user expiry) (jwt_secret st) = Some token ->
     verify_captcha now token guess (jwt_secret st) = false).
Proof.
  split.
  - intros answer expiry He. unfold validate_jwt. rewrite (jwt_roundtrip now _ _ _ expiry He) by reflexivity.
    by destruct (now - 60 <=? expiry).
  - intros user expiry guess He. unfold verify_captcha. case_if; [done|].
    rewrite (jwt_roundtrip now _ _ _ expiry He) by reflexivity. by destruct (now - 60 <=? expiry).
Qed.

Lemma tokens_separated_witness :
  (forall answer expiry, jwt_encode (captcha_claims answer expiry) (jwt_secret example_app) = Some example_token ->
     validate_jwt 200 example_token (jwt_secret example_app) = None) /\
  (forall user expiry guess, jwt_encode (session_claims user expiry) (jwt_secret example_app) = Some example_token ->
     verify_captcha 200 example_token guess (jwt_secret example_app) = false).
Proof. exact (tokens_separated 200 example_app example_token). Defined.
