(* ===== verification/Captcha.v ===== *)
(** * The CAPTCHA picture: [serverwall-webui/src/routes/auth.rs]

    The pseudo-random generator, the drawing of an expression as SVG and its base64 data
    URL. A drawing is first a list of shapes, which is then printed; drawing threads the
    state of the generator. *)

From S2P Require Import Prelude RustStr Net WafRules WafMatcher.
Open Scope Z_scope.

(** ** The generator *)

Definition Lcg_new (seed : Z) : Z := Z.lor seed 1.
Definition lcg_next (s : Z) : Z := (s * 6364136223846793005 + 1442695040888963407) mod 2 ^ 64.

(** A computation that draws from the generator. *)
Definition rand (A : Type) : Type := Z -> A * Z.
Definition rn (n : Z) : rand Z := fun s => let s := lcg_next s in (s mod n, s).
Definition rc (half : Z) : rand Z := fun s => let s := lcg_next s in (s mod (2 * half + 1) - half, s).

Definition rret {A} (x : A) : rand A := fun s => (x, s).
Definition rbind {A B} (m : rand A) (f : A -> rand B) : rand B := fun s => let '(x, s) := m s in f x s.
Notation "'draw' x ':=' m 'in' k" := (rbind m (fun x => k)) (at level 10, x binder, k at level 200).

(** The results of [n] drawings in order. *)
Fixpoint times {A} (n : nat) (m : rand (list A)) : rand (list A) :=
  match n with
  | O => rret []
  | S n => draw x := m in draw l := times n m in rret (x ++ l)
  end.

(** The results of a drawing for each element. *)
Fixpoint for_each {A B} (l : list A) (f : A -> rand (list B)) : rand (list B) :=
  match l with
  | [] => rret []
  | a :: l => draw x := f a in draw r := for_each l f in rret (x ++ r)
  end.

Definition clamp (lo hi v : Z) : Z := Z.max lo (Z.min hi v).

(** ** Shapes *)

Inductive Shape :=
| Rect (x y w h r g b : Z) (opacity : option bytes)
| Circle (cx cy rad r g b : Z)
| Line (x1 y1 x2 y2 r g b : Z) (width : bytes) (opacity : option bytes).

(** Text with the quotes of attributes. *)
Definition svg_text (s : string) : bytes := (fun b => if b =? 39 then 34 else b) <$> bs s.

Definition show_rgb (r g b : Z) : bytes :=
  svg_text "rgb(" ++ show r ++ svg_text "," ++ show g ++ svg_text "," ++ show b ++ svg_text ")".

Definition show_opacity (o : option bytes) : bytes :=
  match o with Some v => svg_text " opacity='" ++ v ++ svg_text "'" | None => [] end.

Definition show_shape (s : Shape) : bytes :=
  match s with
  | Rect x y w h r g b o =>
      svg_text "<rect x='" ++ show x ++ svg_text "' y='" ++ show y ++ svg_text "' width='" ++ show w ++
      svg_text "' height='" ++ show h ++ svg_text "' fill='" ++ show_rgb r g b ++ svg_text "'" ++ show_opacity o ++
      svg_text "/>"
  | Circle cx cy rad r g b =>
      svg_text "<circle cx='" ++ show cx ++ svg_text "' cy='" ++ show cy ++ svg_text "' r='" ++ show rad ++
      svg_text "' fill='none' stroke='" ++ show_rgb r g b ++ svg_text "' stroke-width='1'/>"
  | Line x1 y1 x2 y2 r g b w o =>
      svg_text "<line x1='" ++ show x1 ++ svg_text "' y1='" ++ show y1 ++ svg_text "' x2='" ++ show x2 ++
      svg_text "' y2='" ++ show y2 ++ svg_text "' stroke='" ++ show_rgb r g b ++ svg_text "' stroke-width='" ++ w ++
      svg_text "'" ++ show_opacity o ++ svg_text "/>"
  end.

(** ** The drawing *)

Definition FONT : list (list Z) :=
  [[14; 17; 17; 17; 17; 17; 14]; [4; 12; 4; 4; 4; 4; 14]; [14; 17; 1; 6; 8; 16; 31]; [14; 17; 1; 6; 1; 17; 14];
   [17; 17; 31; 1; 1; 1; 1]; [31; 16; 30; 1; 1; 17; 14]; [14; 16; 30; 17; 17; 17; 14]; [31; 1; 2; 4; 8; 8; 8];
   [14; 17; 17; 14; 17; 17; 14]; [14; 17; 17; 15; 1; 1; 14]; [0; 4; 4; 31; 4; 4; 0]; [0; 0; 0; 31; 0; 0; 0];
   [0; 0; 0; 0; 0; 0; 0]].

Definition font_index (c : Z) : option nat :=
  if (48 <=? c) && (c <=? 57) then Some (Z.to_nat (c - 48))
  else if c =? 43 then Some 10%nat
  else if c =? 45 then Some 11%nat
  else if c =? 32 then Some 12%nat
  else None.

Definition W : Z := 160.
Definition H : Z := 50.
Definition SCALE : Z := 3.
Definition BG : Z := 20.
Definition FG0 : Z := 200.
Definition FG1 : Z := 220.
Definition FG2 : Z := 255.

Definition noise_rect : rand (list Shape) :=
  draw nx := rn W in draw ny := rn H in
  draw sz0 := rn 4 in
  draw v := rc 25 in
  let nv := clamp 0 255 (BG + v) in
  draw dr := rc 12 in draw dg := rc 12 in draw db := rc 18 in
  rret [Rect nx ny (sz0 + 1) (sz0 + 1) (clamp 0 255 (nv + dr)) (clamp 0 255 (nv + dg)) (clamp 0 255 (nv + db)) None].

Definition dim_circle : rand (list Shape) :=
  draw cx := rn W in draw cy := rn H in draw cr := rn 5 in
  draw v := rc 35 in draw a := rc 35 in
  let cv := clamp 0 255 (BG + v) in
  let ca := clamp 0 255 (BG + a) + 20 in
  rret [Circle cx cy (cr + 2) cv cv ca].

Definition blob : rand (list Shape) :=
  draw bx := rn W in draw by_ := rn H in draw bw := rn 10 in draw bh := rn 6 in draw v := rc 30 in
  let bv := clamp 0 255 (BG + v) in
  rret [Rect bx by_ (bw + 5) (bh + 3) bv bv bv (Some (bs "0.45"))].

(** One set pixel of a glyph, unless it leaves the picture. *)
Definition pixel (cx cy : Z) (bitmap : list Z) (rowcol : Z * Z) : rand (list Shape) :=
  let '(row, col) := rowcol in
  if negb (Z.testbit (default 0 (bitmap !! Z.to_nat row)) (4 - col)) then rret [] else
  let px := cx + col * SCALE in
  let py := cy + row * SCALE in
  if (px <? 0) || (py <? 0) || (W <? px + SCALE) || (H <? py + SCALE) then rret [] else
  draw v := rc 10 in
  let dot := Rect px py SCALE SCALE (clamp 0 255 (FG0 + v)) (clamp 0 255 (FG1 + v)) (clamp 0 255 (FG2 + v)) None in
  draw chance := rn 100 in
  if chance <? 4 then
    draw ex := rc 3 in draw ey := rc 3 in
    rret [dot; Rect (clamp 0 (W - 1) (px + ex)) (clamp 0 (H - 1) (py + ey)) 1 1 FG0 FG1 FG2 None]
  else rret [dot].

Definition rows_cols : list (Z * Z) :=
  flat_map (fun row => (fun col => (row, col)) <$> seqZ 0 5) (seqZ 0 7).

Definition scatter (cx cy : Z) : rand (list Shape) :=
  draw dx := rn (5 * SCALE) in draw dy := rn (7 * SCALE) in
  draw sz := rn 2 in
  draw which := rn 2 in
  let at_ r g b := [Rect (clamp 0 (W - 1) (cx + dx)) (clamp 0 (H - 1) (cy + dy)) (sz + 1) (sz + 1) r g b None] in
  if which =? 0 then
    draw v := rc 25 in
    rret (at_ (clamp 0 255 (FG0 + v)) (clamp 0 255 (FG1 + v)) (clamp 0 255 (FG2 + v)))
  else
    draw v := rc 30 in
    let v := clamp 0 100 (BG + v) in rret (at_ v v v).

Definition stroke (cx cy : Z) : rand (list Shape) :=
  draw dx := rn (5 * SCALE + 8) in
  let lx0 := clamp 0 (W - 1) (cx - 4 + dx) in
  draw dy := rn (7 * SCALE) in
  let ly0 := clamp 0 (H - 1) (cy + dy) in
  draw ex := rc 14 in draw ey := rc 9 in
  draw r := rc 60 in draw g := rc 60 in draw b := rc 80 in
  rret [Line lx0 ly0 (clamp 0 (W - 1) (lx0 + ex)) (clamp 0 (H - 1) (ly0 + ey)) (clamp 0 255 (70 + r))
          (clamp 0 255 (90 + g)) (clamp 0 255 (150 + b)) (bs "2") (Some (bs "0.75"))].

(** A character: its glyph, and what is laid over all glyphs afterwards. *)
Definition character (x0 y0 : Z) (ic : nat * Z) : rand (list Shape * list Shape) :=
  let '(ci, ch) := ic in
  match font_index ch with
  | None => rret ([], [])
  | Some fi =>
      let bitmap := default [] (FONT !! fi) in
      let cx := x0 + Z.of_nat ci * (5 * SCALE + 2 * SCALE) in
      draw jitter := rc 3 in
      let cy := y0 + jitter in
      draw glyph := for_each rows_cols (pixel cx cy bitmap) in
      draw n := rn 5 in
      draw dots := times (Z.to_nat (n + 5)) (scatter cx cy) in
      draw m := rn 2 in
      draw strokes := times (Z.to_nat (m + 1)) (stroke cx cy) in
      rret (glyph, dots ++ strokes)
  end.

Fixpoint characters (x0 y0 : Z) (l : list (nat * Z)) : rand (list Shape * list Shape) :=
  match l with
  | [] => rret ([], [])
  | ic :: l =>
      draw x := character x0 y0 ic in draw r := characters x0 y0 l in rret (x.1 ++ r.1, x.2 ++ r.2)
  end.

Definition crossing_line (i : Z) : rand (list Shape) :=
  draw lx0 := rn W in draw ly0 := rn H in draw lx1 := rn W in draw ly1 := rn H in
  draw r := rc 40 in draw g := rc 40 in draw b := rc 50 in
  rret [Line lx0 ly0 lx1 ly1 (clamp 0 255 (80 + r)) (clamp 0 255 (100 + g)) (clamp 0 255 (160 + b))
          (if i mod 3 =? 0 then bs "3" else bs "2") None].

Definition captcha_shapes (expr : bytes) : rand (list Shape) :=
  draw noise := times 350 noise_rect in
  draw circles := times 18 dim_circle in
  draw blobs := times 5 blob in
  let chs := chars expr in
  let n := Z.of_nat (length chs) in
  let total_w := n * (5 * SCALE) + Z.max (n - 1) 0 * (2 * SCALE) in
  let x0 := Z.quot (W - total_w) 2 in
  let y0 := Z.quot (H - 7 * SCALE) 2 in
  draw cs := characters x0 y0 (imap pair chs) in
  draw lines := for_each (seqZ 0 6) crossing_line in
  rret (noise ++ circles ++ blobs ++ cs.1 ++ cs.2 ++ lines).

Definition captcha_svg (expr : bytes) (seed : Z) : bytes :=
  svg_text "<svg xmlns='http://www.w3.org/2000/svg' width='160' height='50'>" ++
  svg_text "<rect width='160' height='50' fill='rgb(20,20,20)'/>" ++
  concat (show_shape <$> (captcha_shapes expr (Lcg_new seed)).1) ++ svg_text "</svg>".

(** ** Base64 *)

Definition b64_char_at (i : Z) : Z := default 0 (base64_table !! Z.to_nat i).

Fixpoint b64 (data : bytes) : bytes :=
  let group c0 c1 c2 := Z.lor (Z.lor (Z.shiftl c0 16) (Z.shiftl c1 8)) c2 in
  let digit n k := b64_char_at (Z.land (Z.shiftr n k) 63) in
  match data with
  | [] => []
  | [c0] => let n := group c0 0 0 in [digit n 18; digit n 12; 61; 61]
  | [c0; c1] => let n := group c0 c1 0 in [digit n 18; digit n 12; digit n 6; 61]
  | c0 :: c1 :: c2 :: rest =>
      let n := group c0 c1 c2 in digit n 18 :: digit n 12 :: digit n 6 :: digit n 0 :: b64 rest
  end.

Definition render_captcha_image (expr : bytes) (seed : Z) : bytes :=
  bs "data:image/svg+xml;base64," ++ b64 (captcha_svg expr seed).

(** ** Bounds *)

Definition channel (v : Z) : Prop := 0 <= v <= 255.
Definition point (x y : Z) : Prop := 0 <= x < W /\ 0 <= y < H.

Definition in_picture (s : Shape) : Prop :=
  match s with
  | Rect x y w h r g b _ => point x y /\ 0 < w /\ 0 < h /\ channel r /\ channel g /\ channel b
  | Circle cx cy rad r g b => point cx cy /\ 0 < rad /\ channel r /\ channel g /\ channel b
  | Line x1 y1 x2 y2 r g b _ _ => point x1 y1 /\ point x2 y2 /\ channel r /\ channel g /\ channel b
  end.

(** Every result of a drawing satisfies [Q]. *)
Definition draws {A} (Q : A -> Prop) (m : rand A) : Prop := forall s, Q (m s).1.

Lemma draws_ret {A} (Q : A -> Prop) x : Q x -> draws Q (rret x).
Proof. by intros Hx s. Qed.

Lemma draws_bind {A B} (Q : A -> Prop) (R : B -> Prop) m f :
  draws Q m -> (forall x, Q x -> draws R (f x)) -> draws R (rbind m f).
Proof. intros Hm Hf s. unfold rbind. specialize (Hm s). destruct (m s) as [x s']. by apply Hf. Qed.

Lemma draws_rn {B} (R : B -> Prop) n f :
  0 < n -> (forall x, 0 <= x < n -> draws R (f x)) -> draws R (rbind (rn n) f).
Proof. intros Hn. apply draws_bind. intros s. by apply Z.mod_pos_bound. Qed.

Lemma draws_rc {B} (R : B -> Prop) half f :
  0 <= half -> (forall x, - half <= x <= half -> draws R (f x)) -> draws R (rbind (rc half) f).
Proof.
  intros Hn. apply draws_bind. intros s. unfold rc. simpl.
  pose proof (Z.mod_pos_bound (lcg_next s) (2 * half + 1) ltac:(lia)). lia.
Qed.

Lemma draws_times {A} (P : A -> Prop) n m : draws (Forall P) m -> draws (Forall P) (times n m).
Proof.
  intros Hm. induction n as [|n IH]; simpl; [by apply draws_ret|].
  apply (draws_bind (Forall P)); [done|]. intros x Hx. apply (draws_bind (Forall P)); [done|]. intros l Hl.
  apply draws_ret, Forall_app. done.
Qed.

Lemma draws_for_each {A B} (P : B -> Prop) (l : list A) f :
  (forall a, a ∈ l -> draws (Forall P) (f a)) -> draws (Forall P) (for_each l f).
Proof.
  induction l as [|a l IH]; intros Hf; simpl; [by apply draws_ret|].
  apply (draws_bind (Forall P)); [apply Hf; by left|]. intros x Hx.
  apply (draws_bind (Forall P)); [apply IH; intros; apply Hf; by right|]. intros r Hr.
  apply draws_ret, Forall_app. done.
Qed.

(** Draws random numbers and checks the shape made of them. *)
Ltac drawing :=
  repeat first [apply draws_rn; [done || (unfold W, H, SCALE; lia)|intros ? ?]
               |apply draws_rc; [lia|intros ? ?]];
  try apply draws_ret.
Ltac shape :=
  repeat constructor; unfold clamp, W, H, SCALE, BG, FG0, FG1, FG2 in *; simpl; lia.

Lemma noise_rect_ok : draws (Forall in_picture) noise_rect.
Proof. unfold noise_rect. drawing. shape. Qed.
Lemma dim_circle_ok : draws (Forall in_picture) dim_circle.
Proof. unfold dim_circle. drawing. shape. Qed.
Lemma blob_ok : draws (Forall in_picture) blob.
Proof. unfold blob. drawing. shape. Qed.
Lemma crossing_line_ok i : draws (Forall in_picture) (crossing_line i).
Proof. unfold crossing_line. drawing. shape. Qed.
Lemma stroke_ok cx cy : draws (Forall in_picture) (stroke cx cy).
Proof. unfold stroke. drawing. shape. Qed.

Lemma scatter_ok cx cy : draws (Forall in_picture) (scatter cx cy).
Proof. unfold scatter. drawing. case_if; drawing; shape. Qed.

Lemma pixel_ok cx cy bitmap rowcol : draws (Forall in_picture) (pixel cx cy bitmap rowcol).
Proof.
  unfold pixel. destruct rowcol as [row col]. case_if; [by apply draws_ret|].
  destruct (_ || _) eqn:E; [by apply draws_ret|]. rewrite !orb_false_iff, !Z.ltb_ge in E.
  drawing. case_if; drawing; shape.
Qed.

Lemma character_ok x0 y0 ic :
  draws (fun r => Forall in_picture r.1 /\ Forall in_picture r.2) (character x0 y0 ic).
Proof.
  unfold character. destruct ic as [ci ch]. destruct (font_index ch) as [fi|]; [|by apply draws_ret].
  apply draws_rc; [lia|]. intros j _. cbv zeta.
  apply (draws_bind (Forall in_picture)); [apply draws_for_each; intros; apply pixel_ok|]. intros g Hg.
  apply draws_rn; [lia|]. intros n _.
  apply (draws_bind (Forall in_picture)); [apply draws_times, scatter_ok|]. intros d Hd.
  apply draws_rn; [lia|]. intros m _.
  apply (draws_bind (Forall in_picture)); [apply draws_times, stroke_ok|]. intros k Hk.
  apply draws_ret. split; [done|]. by apply Forall_app.
Qed.

Lemma characters_ok x0 y0 l :
  draws (fun r => Forall in_picture r.1 /\ Forall in_picture r.2) (characters x0 y0 l).
Proof.
  induction l as [|ic l IH]; simpl; [by apply draws_ret|].
  eapply draws_bind; [apply character_ok|]. intros x [H1 H2]. eapply draws_bind; [exact IH|]. intros r [H3 H4].
  apply draws_ret. split; by apply Forall_app.
Qed.

(** ** Base64 *)

Lemma lor3 c0 c1 c2 : is_byte c1 -> is_byte c2 ->
  Z.lor (Z.lor (Z.shiftl c0 16) (Z.shiftl c1 8)) c2 = c0 * 65536 + c1 * 256 + c2.
Proof.
  unfold is_byte. intros H1 H2. rewrite (lor_shiftl c0 16) by (rewrite ?Z.shiftl_mul_pow2; lia).
  rewrite Z.shiftl_mul_pow2 by lia.
  replace (c0 * 2 ^ 16 + c1 * 2 ^ 8) with (Z.shiftl (c0 * 256 + c1) 8) by (rewrite Z.shiftl_mul_pow2; lia).
  rewrite lor_shiftl by lia. lia.
Qed.

Lemma digit_val63 n k : 0 <= k -> Z.land (Z.shiftr n k) 63 = n / 2 ^ k mod 64.
Proof. intros Hk. change 63 with (Z.ones 6). by rewrite Z.land_ones, Z.shiftr_div_pow2 by lia. Qed.

Lemma digits3 c0 c1 c2 n : is_byte c0 -> is_byte c1 -> is_byte c2 -> n = c0 * 65536 + c1 * 256 + c2 ->
  n / 2 ^ 18 mod 64 = c0 / 4 /\ n / 2 ^ 12 mod 64 = c0 mod 4 * 16 + c1 / 16 /\
  n / 2 ^ 6 mod 64 = c1 mod 16 * 4 + c2 / 64 /\ n / 2 ^ 0 mod 64 = c2 mod 64.
Proof.
  unfold is_byte. intros H0 H1 H2 Hn. change (2 ^ 18) with 262144. change (2 ^ 12) with 4096. change (2 ^ 6) with 64.
  change (2 ^ 0) with 1. split_and!; subst n; Z.to_euclidean_division_equations; lia.
Qed.

(** The encoder of the code is the standard one. *)
Lemma b64_standard l : Forall is_byte l -> b64 l = base64_encode l.
Proof.
  induction l as [l IH] using list_length_ind. intros Hl.
  assert (Hz : is_byte 0) by (unfold is_byte; lia).
  destruct l as [|c0 [|c1 [|c2 rest]]]; [done| | |]; cbn [b64 base64_encode].
  - apply Forall_cons in Hl as [H0 _]. rewrite !lor3, !digit_val63 by (done || lia).
    destruct (digits3 c0 0 0 _ H0 Hz Hz eq_refl) as (-> & -> & _). by rewrite Z.add_0_r.
  - apply Forall_cons in Hl as [H0 [H1 _]%Forall_cons]. rewrite !lor3, !digit_val63 by (done || lia).
    destruct (digits3 c0 c1 0 _ H0 H1 Hz eq_refl) as (-> & -> & -> & _). by rewrite Z.add_0_r.
  - apply Forall_cons in Hl as [H0 [H1 [H2 Hl]%Forall_cons]%Forall_cons].
    rewrite !lor3, !digit_val63 by (done || lia). rewrite (IH rest) by (done || (simpl; lia)).
    by destruct (digits3 c0 c1 c2 _ H0 H1 H2 eq_refl) as (-> & -> & -> & ->).
Qed.

(** ** Properties *)

(** The picture stays in its frame: for every expression and seed, each shape drawn
    starts and ends inside the picture, has a positive extent, and its colours are
    channels of eight bits. *)
Theorem captcha_in_frame expr seed : Forall in_picture (captcha_shapes expr (Lcg_new seed)).1.
Proof.
  generalize (Lcg_new seed). change (draws (Forall in_picture) (captcha_shapes expr)). unfold captcha_shapes.
  apply (draws_bind (Forall in_picture)); [apply draws_times, noise_rect_ok|]. intros a Ha.
  apply (draws_bind (Forall in_picture)); [apply draws_times, dim_circle_ok|]. intros b Hb.
  apply (draws_bind (Forall in_picture)); [apply draws_times, blob_ok|]. intros c Hc. cbv zeta.
  eapply draws_bind; [apply characters_ok|]. intros d [Hd1 Hd2].
  apply (draws_bind (Forall in_picture)); [apply draws_for_each; intros; apply crossing_line_ok|]. intros e He.
  apply draws_ret. repeat (apply Forall_app; split); done.
Qed.

(** The hand-written base64 encoder is undone by the hand-written decoder of the web
    application firewall, on all bytes. *)
Theorem b64_decodes l : Forall is_byte l -> simple_base64_decode (b64 l) = Some l.
Proof. intros Hl. rewrite b64_standard by done. by apply base64_roundtrip. Qed.

Lemma b64_decodes_witness : simple_base64_decode (b64 [255; 0; 128; 7]) = Some [255; 0; 128; 7].
Proof.
  apply (b64_decodes [255; 0; 128; 7]).
  repeat (apply Forall_cons; split; [split; [discriminate|reflexivity]|]). apply Forall_nil. exact I.
Defined.
