(* ===== verification/Admin.v ===== *)
(** * Administration programs

    The commands of [serverwall-cli] and the handlers of [serverwall-webui/src/routes] are
    programs over a few operations: loading and editing the configuration, signalling a
    daemon, reading and writing files, printing, and (in the web interface) the copy of the
    configuration it keeps in memory.  [run] executes a program on the file system of
    [Config.v]; [spec_run] on the configuration itself.  The first refines the second. *)

From S2P Require Import Prelude RustStr Float64 Net External Toml Schema Fs Config Proto.
Open Scope Z_scope.

(** ** Programs *)

Inductive prog (A : Type) : Type :=
| Ret (x : A)
(** [load_config(config_path)], one operation of the editor, [send_reload_signal] *)
| LoadConfig (k : result ServerWallConfig ServerWallError -> prog A)
| EditConfig (f : change) (k : result unit ServerWallError -> prog A)
| SendReload (pid_file : bytes) (k : result unit ServerWallError -> prog A)
(** [fs::read_to_string], [fs::read], [fs::write], and a call that touches no contents ([create_dir_all],
    [set_permissions]) *)
| ReadFile (path : bytes) (k : result bytes bytes -> prog A)
| ReadBytes (path : bytes) (k : result bytes bytes -> prog A)
| WriteFile (path data : bytes) (k : result unit bytes -> prog A)
| Syscall (k : result unit bytes -> prog A)
(** [println!] and [eprintln!] *)
| Say (line : bytes) (k : prog A)
| Warn (line : bytes) (k : prog A)
(** [state.config.load()] and [state.reload_config()] *)
| CachedConfig (k : ServerWallConfig -> prog A)
| RefreshCache (k : prog A).
Arguments Ret {A} x.
Arguments LoadConfig {A} k.
Arguments EditConfig {A} f k.
Arguments SendReload {A} pid_file k.
Arguments ReadFile {A} path k.
Arguments ReadBytes {A} path k.
Arguments WriteFile {A} path data k.
Arguments Syscall {A} k.
Arguments Say {A} line k.
Arguments Warn {A} line k.
Arguments CachedConfig {A} k.
Arguments RefreshCache {A} k.

Fixpoint prog_bind {A B} (p : prog A) (f : A -> prog B) : prog B :=
  match p with
  | Ret x => f x
  | LoadConfig k => LoadConfig (fun r => prog_bind (k r) f)
  | EditConfig g k => EditConfig g (fun r => prog_bind (k r) f)
  | SendReload pf k => SendReload pf (fun r => prog_bind (k r) f)
  | ReadFile p k => ReadFile p (fun r => prog_bind (k r) f)
  | ReadBytes p k => ReadBytes p (fun r => prog_bind (k r) f)
  | WriteFile p d k => WriteFile p d (fun r => prog_bind (k r) f)
  | Syscall k => Syscall (fun r => prog_bind (k r) f)
  | Say l k => Say l (prog_bind k f)
  | Warn l k => Warn l (prog_bind k f)
  | CachedConfig k => CachedConfig (fun c => prog_bind (k c) f)
  | RefreshCache k => RefreshCache (prog_bind k f)
  end.

(** A command ends with [anyhow::Result]; the error is its text. *)
Definition cmd (A : Type) : Type := prog (result A bytes).
Definition ok {A} (x : A) : cmd A := Ret (Ok x).
Definition bail {A} (e : bytes) : cmd A := Ret (Err e).
Definition cmd_bind {A B} (m : cmd A) (k : A -> cmd B) : cmd B :=
  prog_bind m (fun r => match r with Ok x => k x | Err e => Ret (Err e) end).

Declare Scope admin_scope.
Delimit Scope admin_scope with admin.
Notation "'try' x <- m ; k" := (cmd_bind m (fun x => k))
  (at level 10, x pattern, m at level 100, k at level 200) : admin_scope.
Notation "m ;; k" := (cmd_bind m (fun _ => k))
  (at level 100, k at level 200, right associativity) : admin_scope.
Open Scope admin_scope.

Definition of_result {A} (r : result A bytes) : cmd A := Ret r.
Definition load : cmd ServerWallConfig :=
  LoadConfig (fun r => Ret (match r with Ok c => Ok c | Err e => Err (show_error e) end)).
Definition editor (f : change) : cmd unit :=
  EditConfig f (fun r => Ret (match r with Ok _ => Ok tt | Err e => Err (show_error e) end)).
Definition say (line : bytes) : cmd unit := Say line (ok tt).
Definition warn (line : bytes) : cmd unit := Warn line (ok tt).
Fixpoint say_all (lines : list bytes) : cmd unit :=
  match lines with [] => ok tt | l :: ls => Say l (say_all ls) end.

(** ** Execution *)

(** The disk, the configuration in memory, and what was printed. *)
Record World := mkWorld { w_disk : disk; w_cache : ServerWallConfig; w_out : list bytes; w_err : list bytes }.

Definition with_disk (d : disk) (w : World) : World := mkWorld d (w_cache w) (w_out w) (w_err w).

Definition syscall (d : disk) : result unit bytes * disk :=
  let (f, s) := next_fault d in
  match f with FOk => (Ok tt, mkDisk (files d) s) | _ => (Err (bs "system call"), mkDisk (files d) s) end.

Section Run.
Context `{TomlLib} `{IpNetworkLib} (pause : gmap bytes bytes -> gmap bytes bytes) (pid : Z) (kill : Z -> bool) (path : bytes).

(** [AppState::reload_config]: the file is parsed and not validated; on an error the copy in
    memory stays. *)
Definition reload_config (c : ServerWallConfig) (d : disk) : ServerWallConfig * disk :=
  match fs_read_to_string path d with
  | (Ok raw, d) => match load_config_from_str raw with Ok c' => (c', d) | Err _ => (c, d) end
  | (Err _, d) => (c, d)
  end.

Fixpoint run {A} (p : prog A) (w : World) : A * World :=
  match p with
  | Ret x => (x, w)
  | LoadConfig k => let (r, d) := load_config path (w_disk w) in run (k r) (with_disk d w)
  | EditConfig f k => let (r, d) := edit pause pid path f (w_disk w) in run (k r) (with_disk d w)
  | SendReload pf k => let (r, d) := send_reload_signal kill pf (w_disk w) in run (k r) (with_disk d w)
  | ReadFile p k => let (r, d) := fs_read_to_string p (w_disk w) in run (k r) (with_disk d w)
  | ReadBytes p k => let (r, d) := fs_read p (w_disk w) in run (k r) (with_disk d w)
  | WriteFile p data k => let (r, d) := fs_write p data (w_disk w) in run (k r) (with_disk d w)
  | Syscall k => let (r, d) := syscall (w_disk w) in run (k r) (with_disk d w)
  | Say l k => run k (mkWorld (w_disk w) (w_cache w) (w_out w ++ [l]) (w_err w))
  | Warn l k => run k (mkWorld (w_disk w) (w_cache w) (w_out w) (w_err w ++ [l]))
  | CachedConfig k => run (k (w_cache w)) w
  | RefreshCache k =>
      let (c, d) := reload_config (w_cache w) (w_disk w) in run k (mkWorld d c (w_out w) (w_err w))
  end.

(** ** Specification

    The configuration a reader of the file finds, the other files, the configuration in
    memory, what was printed, and the configurations that were written. *)
Record Model := mkModel {
  m_config : ServerWallConfig;
  m_files : gmap bytes bytes;
  m_cache : ServerWallConfig;
  m_out : list bytes;
  m_err : list bytes;
  m_written : list ServerWallConfig;
}.

Definition with_config (f : change) (m : Model) : Model :=
  mkModel (snd (spec_edit f (m_config m))) (m_files m) (m_cache m) (m_out m) (m_err m)
    (m_written m ++ spec_written [f] (m_config m)).

Definition with_file (p data : bytes) (m : Model) : Model :=
  mkModel (m_config m) (<[p := data]> (m_files m)) (m_cache m) (m_out m) (m_err m) (m_written m).
Definition with_output (l : bytes) (m : Model) : Model :=
  mkModel (m_config m) (m_files m) (m_cache m) (m_out m ++ [l]) (m_err m) (m_written m).
Definition with_warning (l : bytes) (m : Model) : Model :=
  mkModel (m_config m) (m_files m) (m_cache m) (m_out m) (m_err m ++ [l]) (m_written m).
Definition with_refresh (m : Model) : Model :=
  mkModel (m_config m) (m_files m) (m_config m) (m_out m) (m_err m) (m_written m).

Fixpoint spec_run {A} (p : prog A) (m : Model) : A * Model :=
  match p with
  | Ret x => (x, m)
  | LoadConfig k => spec_run (k (Ok (m_config m))) m
  | EditConfig f k => spec_run (k (fst (spec_edit f (m_config m)))) (with_config f m)
  | SendReload pf k => spec_run (k (fst (send_reload_signal kill pf (mkDisk (m_files m) [])))) m
  | ReadFile p k => spec_run (k (fst (fs_read_to_string p (mkDisk (m_files m) [])))) m
  | ReadBytes p k => spec_run (k (fst (fs_read p (mkDisk (m_files m) [])))) m
  | WriteFile p data k => spec_run (k (Ok tt)) (with_file p data m)
  | Syscall k => spec_run (k (Ok tt)) m
  | Say l k => spec_run k (with_output l m)
  | Warn l k => spec_run k (with_warning l m)
  | CachedConfig k => spec_run (k (m_cache m)) m
  | RefreshCache k => spec_run k (with_refresh m)
  end.

(** The files the editor works on. *)
Definition reserved (p : bytes) : Prop := p = path \/ p = tmp_path pid path \/ p = lock_path path.

(** A program that leaves those files to the editor when it runs from a state. *)
Fixpoint avoids {A} (p : prog A) (m : Model) : Prop :=
  match p with
  | Ret _ => True
  | LoadConfig k => avoids (k (Ok (m_config m))) m
  | EditConfig f k => avoids (k (fst (spec_edit f (m_config m)))) (with_config f m)
  | SendReload pf k => ~ reserved pf /\ avoids (k (fst (send_reload_signal kill pf (mkDisk (m_files m) [])))) m
  | ReadFile p k => ~ reserved p /\ avoids (k (fst (fs_read_to_string p (mkDisk (m_files m) [])))) m
  | ReadBytes p k => ~ reserved p /\ avoids (k (fst (fs_read p (mkDisk (m_files m) [])))) m
  | WriteFile p data k => ~ reserved p /\ avoids (k (Ok tt)) (with_file p data m)
  | Syscall k => avoids (k (Ok tt)) m
  | Say l k => avoids k (with_output l m)
  | Warn l k => avoids k (with_warning l m)
  | CachedConfig k => avoids (k (m_cache m)) m
  | RefreshCache k => avoids k (with_refresh m)
  end.

Record represents (m : Model) (w : World) : Prop := {
  rep_stores : stores pid path (m_config m) (w_disk w);
  rep_files p : ~ reserved p -> files (w_disk w) !! p = m_files m !! p;
  rep_cache : w_cache w = m_cache m;
  rep_out : w_out w = m_out m;
  rep_err : w_err w = m_err m;
}.
End Run.

(** ** The refinement *)

Section Refinement.
Context `{TomlSpec} `{IpNetworkLib} (pause : gmap bytes bytes -> gmap bytes bytes) (pid : Z) (kill : Z -> bool) (path : bytes).

Lemma read_other d p fs :
  script d = [] -> files d !! p = fs !! p ->
  fs_read_to_string p d = (fst (fs_read_to_string p (mkDisk fs [])), d).
Proof.
  destruct d as [fd sc]. cbn. intros -> Hf. unfold fs_read_to_string, io_bind, fs_read. cbn. rewrite Hf.
  destruct (fs !! p); [|done]. by destruct (utf8_valid _).
Qed.

Lemma read_bytes_other d p fs :
  script d = [] -> files d !! p = fs !! p -> fs_read p d = (fst (fs_read p (mkDisk fs [])), d).
Proof. destruct d as [fd sc]. cbn. intros -> Hf. unfold fs_read. cbn. rewrite Hf. by destruct (fs !! p). Qed.

Lemma signal_other d pf fs :
  script d = [] -> files d !! pf = fs !! pf ->
  send_reload_signal kill pf d = (fst (send_reload_signal kill pf (mkDisk fs [])), d).
Proof.
  intros Hs Hf. unfold send_reload_signal, cio_bind, or_error.
  rewrite (read_other d pf fs Hs Hf), (read_other (mkDisk fs []) pf fs) by done.
  destruct (fst _) as [content|e]; [|done]. destruct (parse_int _ _) as [z|]; [|done]. by destruct (kill z).
Qed.

Lemma stores_reload c d cache : stores pid path c d -> reload_config path cache d = (c, d).
Proof.
  intros [(text & Ht & Hu & Hl) _ _ Hq _ _ _]. destruct d as [fs sc]. cbn in *. subst sc. unfold reload_config.
  by rewrite (read_to_string_quiet path fs text Ht Hu), Hl.
Qed.

Lemma stores_write c d p data :
  stores pid path c d -> ~ reserved pid path p ->
  exists d', fs_write p data d = (Ok tt, d') /\ stores pid path c d' /\ files d' = <[p := data]> (files d).
Proof.
  intros [(text & Ht & Hl) Hv Hn Hq Hlock Hp Htmp] Hr. rewrite (fs_write_calm p data d Hq).
  eexists. split; [done|]. split; [|done].
  assert (p <> path) by (intros ->; apply Hr; by left).
  assert (p <> lock_path path) by (intros ->; apply Hr; right; by right).
  constructor; cbn; try done; [|by rewrite lookup_insert_ne].
  exists text. by rewrite lookup_insert_ne.
Qed.

Lemma stores_syscall c d : stores pid path c d -> syscall d = (Ok tt, d).
Proof. intros [_ _ _ Hq _ _ _]. destruct d as [fs sc]. cbn in Hq. subst sc. done. Qed.

(** The written configurations only grow. *)
Lemma spec_run_written {A} (p : prog A) : forall m, exists l, m_written (snd (spec_run kill p m)) = m_written m ++ l.
Proof.
  induction p as [x|k IH|f k IH|pf k IH|p k IH|p k IH|p data k IH|k IH|l k IH|l k IH|k IH|k IH]; intros m; cbn.
  1: { exists []. by rewrite app_nil_r. }
  2: { destruct (IH (fst (spec_edit f (m_config m))) (with_config f m)) as [l ->]. cbn. rewrite <- app_assoc. by eexists. }
  all: match goal with |- exists _, m_written (snd (spec_run _ _ ?m')) = _ =>
         change (m_written m) with (m_written m'); apply IH end.
Qed.

Lemma run_represents {A} (p : prog A) : forall m w,
  avoids pid kill path p m -> represents pid path m w ->
  forallb representable (m_written (snd (spec_run kill p m))) = true ->
  exists w', run pause pid kill path p w = (fst (spec_run kill p m), w') /\
    represents pid path (snd (spec_run kill p m)) w'.
Proof.
  induction p as [x|k IH|f k IH|pf k IH|p k IH|p k IH|p data k IH|k IH|l k IH|l k IH|k IH|k IH];
    intros m w Ha Hr Hw; cbn in *; pose proof Hr as [Hst Hf Hc Ho He]; pose proof (st_quiet _ _ _ _ Hst) as Hq.
  - by exists w.
  - rewrite (stores_load _ _ _ _ Hst). apply IH; [done| |done]. by destruct w.
  - assert (Hwr : forallb representable (spec_written [f] (m_config m)) = true).
    { destruct (spec_run_written (k (fst (spec_edit f (m_config m)))) (with_config f m)) as [l El].
      rewrite El in Hw. cbn [m_written with_config] in Hw. rewrite !forallb_app in Hw.
      by apply andb_prop in Hw as [[_ ?]%andb_prop _]. }
    destruct (edit_refines pause pid path f (m_config m) (w_disk w) Hst Hwr) as (d' & -> & Hst' & Hd').
    apply IH; [done| |done]. constructor; cbn; try done. intros p Hp. rewrite Hd'.
    + by apply Hf.
    + intros ->. apply Hp. by left.
    + intros ->. apply Hp. right. by left.
  - destruct Ha as [Hp Ha]. rewrite (signal_other _ _ (m_files m) Hq) by by apply Hf.
    apply IH; [done| |done]. by destruct w.
  - destruct Ha as [Hp Ha]. rewrite (read_other _ _ (m_files m) Hq) by by apply Hf.
    apply IH; [done| |done]. by destruct w.
  - destruct Ha as [Hp Ha]. rewrite (read_bytes_other _ _ (m_files m) Hq) by by apply Hf.
    apply IH; [done| |done]. by destruct w.
  - destruct Ha as [Hp Ha]. destruct (stores_write _ _ p data Hst Hp) as (d' & -> & Hst' & Hd').
    apply IH; [done| |done]. constructor; cbn; try done. intros p' Hp'. rewrite Hd'.
    destruct (decide (p' = p)) as [->|Hne]; [by rewrite !lookup_insert_eq|].
    rewrite !lookup_insert_ne by done. by apply Hf.
  - rewrite (stores_syscall _ _ Hst). apply IH; [done| |done]. by destruct w.
  - apply IH; [done| |done]. constructor; cbn; try done. by rewrite Ho.
  - apply IH; [done| |done]. constructor; cbn; try done. by rewrite He.
  - rewrite Hc. by apply IH.
  - rewrite (stores_reload _ _ _ Hst). apply IH; [done| |done]. by constructor.
Qed.
End Refinement.
