(* ===== verification/Cli.v ===== *)
(** * The command line tool: [serverwall-cli]

    The commands on frontends, backends, rule sets, profiles and the global and ACME
    settings; [CliSecurity.v] and [CliMail.v] have the others.  A command is the program of
    [Admin.v] that its arm of [run] is.  [clap] has parsed the arguments: an action is a
    constructor with its arguments.  Printing JSON is a parameter. *)

From S2P Require Import Prelude RustStr Float64 Net External Toml Schema Fields Fs Config Proto Admin.
Open Scope Z_scope.
Open Scope admin_scope.

(** [serde_json::to_string_pretty] of a value and of a structure with its derived
    serialisation, [Display] of a value, and [serde_json::from_str] into a structure. *)
Class SerdeJson := {
  value_pretty : json -> result bytes bytes;
  value_compact : json -> bytes;
  struct_pretty : forall {A}, codec A -> A -> result bytes bytes;
  struct_from_str : forall {A}, codec A -> bytes -> result A bytes;
}.

(** ** [output.rs] and [commands/mod.rs] *)

Definition show_bool (b : bool) : bytes := if b then bs "true" else bs "false".

(** [format!("{:<width$}", s)]: the width counts characters. *)
Definition pad_right (s : bytes) (width : nat) : bytes := s ++ repeat 32 (width - length (chars s))%nat.

(** The widths are those of the longest cells, in bytes; a cell beyond the headers is ignored. *)
Fixpoint widen (widths : list nat) (row : list bytes) : list nat :=
  match widths, row with
  | w :: ws, c :: cs => Nat.max w (length c) :: widen ws cs
  | ws, _ => ws
  end.

Definition table_row (widths : list nat) (row : list bytes) : bytes :=
  join (bs "  ") (imap (fun i cell => pad_right cell (default (length cell) (widths !! i))) row).

Definition print_table (headers : list bytes) (rows : list (list bytes)) : cmd unit :=
  if is_nil headers then ok tt
  else
    let widths := fold_left widen rows (length <$> headers) in
    say (table_row widths headers) ;;
    say (join (bs "  ") ((fun w => repeat 45 w) <$> widths)) ;;
    say_all (table_row widths <$> rows) ;;
    if is_nil rows then say (bs "(no results)") else ok tt.

Definition DEFAULT_PID_FILE : bytes := bs "/opt/serverwall/run/serverwall.pid".

Definition maybe_reload (no_reload : bool) : cmd unit :=
  if no_reload then ok tt
  else SendReload DEFAULT_PID_FILE (fun r =>
    match r with
    | Ok _ => say (bs "Reload signal sent to serverwall daemon.")
    | Err e => warn (bs "Warning: config written but could not reload daemon: " ++ show_error e ++ [LF] ++
                     bs "Run `serverwallctl reload` manually or restart serverwall.")
    end).

(** [reload.rs] *)
Definition cli_reload (no_reload : bool) : cmd unit :=
  if no_reload then say (bs "Skipped (--no-reload).")
  else SendReload DEFAULT_PID_FILE (fun r =>
    match r with
    | Ok _ => say (bs "Reload signal sent to serverwall daemon.")
    | Err e => bail (show_error e)
    end).

(** The end of every command that changes the configuration. *)
Definition apply_edit (no_reload : bool) (f : change) (message : bytes) : cmd unit :=
  editor f ;; say message ;; maybe_reload no_reload.

(** [iter().find(|x| x.name == name).ok_or_else(..)?]. *)
Definition find_or {A} (key : A -> bytes) (name : bytes) (l : list A) (message : bytes) : cmd A :=
  of_result (match List.find (fun x => bool_decide (key x = name)) l with Some x => Ok x | None => Err message end).

(** [match o { Some(s) if s.is_empty() => None, Some(s) => Some(s), None => field }]. *)
Definition assign_or_clear {R} (o : option bytes) (upd : (option bytes -> option bytes) -> R -> R) (r : R) : R :=
  match o with Some s => upd (fun _ => if is_nil s then None else Some s) r | None => r end.

Notation "x |> f" := (f x) (at level 61, left associativity, only parsing) : admin_scope.

(** An assignment whose value may not parse. *)
Definition assign_try {A R} (o : option bytes) (parse : bytes -> result A bytes) (upd : (A -> A) -> R -> R) (r : R)
  : cmd R :=
  match o with
  | Some v => try x <- of_result (parse v); ok (upd (fun _ => x) r)
  | None => ok r
  end.

Definition or_text (missing : string) (o : option bytes) : bytes := default (bs missing) o.
Definition enabled_text (b : bool) : bytes := if b then bs "enabled" else bs "disabled".
Definition yes_no (b : bool) : bytes := if b then bs "yes" else bs "no".

Section Json.
Context `{SerdeJson}.

Definition print_json (v : json) : cmd unit := try text <- of_result (value_pretty v); say text.
Definition print_struct {A} (c : codec A) (x : A) : cmd unit := try text <- of_result (struct_pretty c x); say text.

(** [serde_json::from_str(&fs::read_to_string(path)?)?]. *)
Definition read_struct {A} (c : codec A) (path : bytes) : cmd A :=
  ReadFile path (fun r =>
    match r with
    | Err e => bail (bs "failed to read " ++ quote path ++ bs ": " ++ e)
    | Ok content => match struct_from_str c content with Ok x => ok x | Err e => bail (bs "invalid JSON: " ++ e) end
    end).
End Json.

Definition jstrings (l : list bytes) : json := JArray (JString <$> l).
Definition jopt (o : option bytes) : json := match o with Some s => JString s | None => JNull end.
Definition jnum (n : Z) : json := JNumber n.
Definition jfloat (x : f64) : json :=
  match x with SpecFloat.S754_nan | SpecFloat.S754_infinity _ => JNull | _ => JFloat x end.

(** ** [status.rs] *)

Section Status.
Context `{SerdeJson} `{Unicode}.

Definition lower_debug (s : bytes) : bytes := to_lowercase s.

Definition cli_status (config_path : bytes) (as_json : bool) : cmd unit :=
  try config <- load;
  if as_json then
    print_json (JObject
      [(bs "config_path", JString config_path);
       (bs "frontend_count", jnum (Z.of_nat (length (cfg_frontend config))));
       (bs "backend_pool_count", jnum (Z.of_nat (length (cfg_backend_pool config))));
       (bs "relay_enabled", JBool (rel_enabled (cfg_relay config)));
       (bs "antispam_enabled", JBool (fc_enabled (cfg_antispam config)));
       (bs "webui_enabled", JBool (webui_enabled (cfg_webui config)));
       (bs "webui_listen", JString (webui_listen (cfg_webui config)))])
  else
    say_all
      ([bs "ServerWall Status";
        bs "=================";
        bs "Config:           " ++ config_path;
        bs "Frontends:        " ++ show (Z.of_nat (length (cfg_frontend config)));
        bs "Backend Pools:    " ++ show (Z.of_nat (length (cfg_backend_pool config)));
        bs "Relay Enabled:    " ++ show_bool (rel_enabled (cfg_relay config));
        bs "Antispam Enabled: " ++ show_bool (fc_enabled (cfg_antispam config));
        bs "Web UI Enabled:   " ++ show_bool (webui_enabled (cfg_webui config));
        bs "Web UI Listen:    " ++ webui_listen (cfg_webui config)] ++
       if is_nil (cfg_frontend config) then []
       else [] :: bs "Frontends:" ::
         ((fun f => bs "  " ++ fr_name f ++ bs " (" ++ lower_debug (debug_protocol (fr_protocol f)) ++ bs ") -> " ++
                    fr_backend_pool f) <$> cfg_frontend config)).
End Status.

(** ** [global.rs] *)

Inductive GlobalAction :=
| GlobalShow
| GlobalSet (daemon_name : option bytes) (worker_threads max_connections : option Z) (log_dir cert_dir config_dir : option bytes)
    (log_level : option bytes) (drain_secs : option Z).

Definition cli_global_show : cmd unit :=
  try config <- load;
  let g := cfg_global config in
  say_all
    ([bs "Daemon Name:    " ++ gc_daemon_name g;
      bs "Worker Threads: " ++ show (gc_worker_threads g) ++ bs " (0 = auto)";
      bs "Max Connections:" ++ show (gc_max_connections g) ++ bs " (0 = unlimited)";
      bs "Log Dir:        " ++ gc_log_dir g;
      bs "Cert Dir:       " ++ gc_cert_dir g] ++
     (match gc_config_dir g with Some d => [bs "Config Dir:     " ++ d] | None => [] end) ++
     (match gc_pid_file g with Some p => [bs "PID File:       " ++ p] | None => [] end) ++
     [bs "Log Level:      " ++ gc_log_level g;
      bs "Drain Secs:     " ++ show (gc_graceful_drain_secs g)]).

Definition cli_global_set (no_reload : bool) (daemon_name : option bytes) (worker_threads max_connections : option Z)
    (log_dir cert_dir config_dir log_level : option bytes) (drain_secs : option Z) : cmd unit :=
  try config <- load;
  let g := cfg_global config
    |> assign daemon_name upd_gc_daemon_name
    |> assign worker_threads upd_gc_worker_threads
    |> assign max_connections upd_gc_max_connections
    |> assign log_dir upd_gc_log_dir
    |> assign cert_dir upd_gc_cert_dir
    |> assign log_level upd_gc_log_level
    |> assign drain_secs upd_gc_graceful_drain_secs
    |> upd_gc_config_dir (fun _ => match config_dir with Some d => Some d | None => gc_config_dir (cfg_global config) end) in
  apply_edit no_reload (update_global_config g) (bs "Global settings updated.").

Definition cli_global (no_reload : bool) (a : GlobalAction) : cmd unit :=
  match a with
  | GlobalShow => cli_global_show
  | GlobalSet dn wt mc ld cd cfd ll ds => cli_global_set no_reload dn wt mc ld cd cfd ll ds
  end.

(** ** [acme.rs] *)

Inductive AcmeAction :=
| AcmeShow
| AcmeSet (enabled : option bool) (email directory_url challenge_type storage_dir : option bytes) (auto_renew : option bool)
    (renew_before_days : option Z)
| AcmeAddCidr (cidr : bytes)
| AcmeRemoveCidr (cidr : bytes)
| AcmeListCidrs.

Definition cli_acme_show : cmd unit :=
  try config <- load;
  let a := cfg_acme config in
  say_all
    [bs "Enabled:          " ++ show_bool (acme_enabled a);
     bs "Email:            " ++ or_text "(none)" (acme_email a);
     bs "Directory URL:    " ++ acme_directory_url a;
     bs "Challenge Type:   " ++ acme_challenge_type a;
     bs "Storage Dir:      " ++ acme_storage_dir a;
     bs "Auto Renew:       " ++ show_bool (acme_auto_renew a);
     bs "Renew Before:     " ++ show (acme_renew_before_days a) ++ bs " days";
     if is_nil (acme_challenge_allowed_cidrs a) then bs "Challenge CIDRs:  (allow all)"
     else bs "Challenge CIDRs:  " ++ join (bs ", ") (acme_challenge_allowed_cidrs a)].

Definition cli_acme_set (no_reload : bool) (enabled : option bool) (email directory_url challenge_type storage_dir : option bytes)
    (auto_renew : option bool) (renew_before_days : option Z) : cmd unit :=
  try config <- load;
  let a := cfg_acme config
    |> assign enabled upd_acme_enabled
    |> assign directory_url upd_acme_directory_url
    |> assign challenge_type upd_acme_challenge_type
    |> assign storage_dir upd_acme_storage_dir
    |> assign auto_renew upd_acme_auto_renew
    |> assign renew_before_days upd_acme_renew_before_days
    |> assign_or_clear email upd_acme_email in
  apply_edit no_reload (update_acme_config a) (bs "ACME settings updated.").

Definition cli_acme_add_cidr (no_reload : bool) (cidr : bytes) : cmd unit :=
  try config <- load;
  let a := cfg_acme config in
  if member cidr (acme_challenge_allowed_cidrs a) then say (bs "CIDR " ++ quote cidr ++ bs " already in list.")
  else
    apply_edit no_reload (update_acme_config (upd_acme_challenge_allowed_cidrs (fun l => l ++ [cidr]) a))
      (bs "CIDR " ++ quote cidr ++ bs " added to challenge allow list.").

Definition cli_acme_remove_cidr (no_reload : bool) (cidr : bytes) : cmd unit :=
  try config <- load;
  let a := upd_acme_challenge_allowed_cidrs (remove_string cidr) (cfg_acme config) in
  if bool_decide (length (acme_challenge_allowed_cidrs a) = length (acme_challenge_allowed_cidrs (cfg_acme config)))
  then bail (bs "CIDR " ++ quote cidr ++ bs " not found in challenge allow list.")
  else apply_edit no_reload (update_acme_config a) (bs "CIDR " ++ quote cidr ++ bs " removed from challenge allow list.").

Definition cli_acme_list_cidrs : cmd unit :=
  try config <- load;
  let l := acme_challenge_allowed_cidrs (cfg_acme config) in
  if is_nil l then say (bs "Challenge CIDR allow list is empty (all IPs allowed).") else say_all l.

Definition cli_acme (no_reload : bool) (a : AcmeAction) : cmd unit :=
  match a with
  | AcmeShow => cli_acme_show
  | AcmeSet en em du ct sd ar rb => cli_acme_set no_reload en em du ct sd ar rb
  | AcmeAddCidr c => cli_acme_add_cidr no_reload c
  | AcmeRemoveCidr c => cli_acme_remove_cidr no_reload c
  | AcmeListCidrs => cli_acme_list_cidrs
  end.

(** ** [acl.rs] *)

Inductive AclAction := AclList | AclAllowIp (ip : bytes) | AclBlockIp (ip : bytes) | AclRemoveIp (ip : bytes).

Section Acl.
Context `{SerdeJson} `{Unicode}.

(** The derived [Debug] of the default action. *)
Definition debug_default (a : AclDefaultAction) : bytes :=
  match a with DefaultAllow => bs "Allow" | DefaultDeny => bs "Deny" end.

Definition cli_acl_list (as_json : bool) : cmd unit :=
  try config <- load;
  let acl := sacl_ip (sec_acl (cfg_security config)) in
  let action := lower_debug (debug_default (sacl_default (sec_acl (cfg_security config)))) in
  if as_json then
    print_json (JObject [(bs "allow", jstrings (ia_allow acl)); (bs "block", jstrings (ia_block acl));
                         (bs "default", JString action)])
  else
    say (bs "Default action: " ++ action) ;;
    say [] ;;
    if is_nil (ia_allow acl) && is_nil (ia_block acl) then say (bs "No global ACL entries configured.")
    else print_table [bs "IP / CIDR"; bs "ACTION"]
           (((fun ip => [ip; bs "allow"]) <$> ia_allow acl) ++ ((fun ip => [ip; bs "block"]) <$> ia_block acl)).

Definition cli_acl (as_json no_reload : bool) (a : AclAction) : cmd unit :=
  match a with
  | AclList => cli_acl_list as_json
  | AclAllowIp ip => apply_edit no_reload (add_acl_allow ip) (bs "Added " ++ ip ++ bs " to allow list.")
  | AclBlockIp ip => apply_edit no_reload (add_acl_block ip) (bs "Added " ++ ip ++ bs " to block list.")
  | AclRemoveIp ip => apply_edit no_reload (remove_acl_ip ip) (bs "Removed " ++ ip ++ bs " from ACL.")
  end.
End Acl.

(** ** [frontend.rs] *)

Inductive FrontendAction :=
| FrontendList
| FrontendShow (name : bytes)
| FrontendAdd (name protocol : bytes) (listen : list bytes) (backend_pool balancer : bytes)
    (tls_cert tls_key tls_chain tls_key_password tls_pfx tls_pfx_password : option bytes) (waf_enabled : bool)
    (waf_ruleset security_profile log_profile : option bytes) (max_connections : option Z) (from_json : option bytes)
| FrontendUpdate (name : bytes) (protocol : option bytes) (listen : option (list bytes)) (backend_pool balancer : option bytes)
    (tls_cert tls_key tls_chain tls_key_password tls_pfx tls_pfx_password : option bytes) (waf_enabled : option bool)
    (waf_ruleset security_profile log_profile : option bytes) (max_connections : option Z) (from_json : option bytes)
| FrontendRemove (name : bytes).

Section Frontend.
Context `{SerdeJson} `{Unicode}.

Definition parse_protocol (s : bytes) : result ProtocolType bytes :=
  let t := replace (to_lowercase s) (bs "_") (bs "-") in
  if bool_decide (t = bs "https") then Ok Https
  else if bool_decide (t = bs "smtps") then Ok Smtps
  else if bool_decide (t = bs "smtp-starttls") then Ok SmtpStarttls
  else if bool_decide (t = bs "imaps") then Ok Imaps
  else if bool_decide (t = bs "tcp") then Ok Tcp
  else if bool_decide (t = bs "stratum") then Ok Stratum
  else Err (bs "invalid protocol " ++ quote s ++ bs "; use: https, smtps, smtp-starttls, imaps, tcp, stratum").

Definition parse_balancer (s : bytes) : result BalanceMethod bytes :=
  let t := replace (to_lowercase s) (bs "-") (bs "_") in
  if bool_decide (t = bs "round_robin") then Ok BRoundRobin
  else if bool_decide (t = bs "least_connections") then Ok BLeastConnections
  else if bool_decide (t = bs "ip_hash") then Ok BIpHash
  else if bool_decide (t = bs "sticky_session") then Ok StickySession
  else Err (bs "invalid balancer " ++ quote s ++
            bs "; use: round_robin, least_connections, ip_hash, sticky_session").

Definition frontend_defaults (name : bytes) : FrontendConfig :=
  mkFrontend name Https [] [] None None None None None None (bs "1.2") [] BRoundRobin false None None None
    ApacheCombined true None FrontendHeadersConfig_default SmtpHeadersConfig_default FrontendAclConfig_default None
    (bs "_s").

(** The derived [Debug] of the balancer. *)
Definition debug_balancer (b : BalanceMethod) : bytes :=
  match b with
  | BRoundRobin => bs "RoundRobin" | BLeastConnections => bs "LeastConnections"
  | BIpHash => bs "IpHash" | StickySession => bs "StickySession"
  end.

Definition cli_frontend_list (as_json : bool) : cmd unit :=
  try config <- load;
  let protocol f := lower_debug (debug_protocol (fr_protocol f)) in
  let balancer f := lower_debug (debug_balancer (fr_balancer f)) in
  if as_json then
    print_json (JArray ((fun f => JObject
      [(bs "name", JString (fr_name f)); (bs "protocol", JString (protocol f)); (bs "listen", jstrings (fr_listen f));
       (bs "backend_pool", JString (fr_backend_pool f)); (bs "balancer", JString (balancer f));
       (bs "waf_enabled", JBool (fr_waf_enabled f))]) <$> cfg_frontend config))
  else
    print_table [bs "NAME"; bs "PROTOCOL"; bs "LISTEN"; bs "BACKEND POOL"; bs "BALANCER"]
      ((fun f => [fr_name f; protocol f; join (bs ", ") (fr_listen f); fr_backend_pool f; balancer f]) <$>
         cfg_frontend config).

Definition cli_frontend_show (as_json : bool) (name : bytes) : cmd unit :=
  try config <- load;
  try f <- find_or fr_name name (cfg_frontend config) (not_found (bs "frontend ") name);
  if as_json then print_struct FrontendConfig_codec f
  else
    say_all
      ([bs "Frontend: " ++ fr_name f;
        bs "Protocol: " ++ lower_debug (debug_protocol (fr_protocol f));
        bs "Listen:   " ++ join (bs ", ") (fr_listen f);
        bs "Pool:     " ++ fr_backend_pool f;
        bs "Balancer: " ++ lower_debug (debug_balancer (fr_balancer f));
        bs "WAF:      " ++ show_bool (fr_waf_enabled f)] ++
       (match fr_waf_ruleset f with Some w => [bs "WAF Set:  " ++ w] | None => [] end) ++
       (match fr_security_profile f with Some p => [bs "Sec Prof: " ++ p] | None => [] end) ++
       (match fr_log_profile f with Some p => [bs "Log Prof: " ++ p] | None => [] end)).

Definition cli_frontend_add (no_reload : bool) (name protocol : bytes) (listen : list bytes) (backend_pool balancer : bytes)
    (tls_cert tls_key tls_chain tls_key_password tls_pfx tls_pfx_password : option bytes) (waf_enabled : bool)
    (waf_ruleset security_profile log_profile : option bytes) (max_connections : option Z) (from_json : option bytes)
  : cmd unit :=
  try frontend <-
    match from_json with
    | Some path => try f <- read_struct FrontendConfig_codec path; ok (upd_fr_name (fun _ => name) f)
    | None =>
        try proto <- of_result (parse_protocol protocol);
        try bal <- of_result (parse_balancer balancer);
        let d := frontend_defaults name in
        ok (mkFrontend name proto listen backend_pool tls_cert tls_chain tls_key tls_key_password tls_pfx
              tls_pfx_password (fr_tls_min_version d) (fr_tls_ciphers d) bal waf_enabled waf_ruleset security_profile
              (fr_log_file d) (fr_log_format d) (fr_access_log d) log_profile (fr_headers d) (fr_smtp_headers d)
              (fr_acl d) max_connections (session_cookie d))
    end;
  apply_edit no_reload (add_frontend frontend) (bs "Frontend " ++ quote name ++ bs " added.").

Definition cli_frontend_update (no_reload : bool) (name : bytes) (protocol : option bytes) (listen : option (list bytes))
    (backend_pool balancer : option bytes)
    (tls_cert tls_key tls_chain tls_key_password tls_pfx tls_pfx_password : option bytes) (waf_enabled : option bool)
    (waf_ruleset security_profile log_profile : option bytes) (max_connections : option Z) (from_json : option bytes)
  : cmd unit :=
  try frontend <-
    match from_json with
    | Some path => try f <- read_struct FrontendConfig_codec path; ok (upd_fr_name (fun _ => name) f)
    | None =>
        try config <- load;
        try f <- find_or fr_name name (cfg_frontend config) (not_found (bs "frontend ") name);
        try f <- assign_try protocol parse_protocol upd_fr_protocol f;
        let f := f |> assign listen upd_fr_listen |> assign backend_pool upd_fr_backend_pool in
        try f <- assign_try balancer parse_balancer upd_fr_balancer f;
        ok (f
          |> assign waf_enabled upd_fr_waf_enabled
          |> assign (Some <$> max_connections) upd_fr_max_connections
          |> assign_or_clear tls_cert upd_fr_tls_cert
          |> assign_or_clear tls_key upd_fr_tls_key
          |> assign_or_clear tls_key_password upd_fr_tls_key_password
          |> assign_or_clear tls_pfx_password upd_fr_tls_pfx_password
          |> assign_or_clear tls_chain upd_fr_tls_chain
          |> assign_or_clear tls_pfx upd_fr_tls_pfx
          |> assign_or_clear waf_ruleset upd_fr_waf_ruleset
          |> assign_or_clear security_profile upd_fr_security_profile
          |> assign_or_clear log_profile upd_fr_log_profile)
    end;
  apply_edit no_reload (update_frontend name frontend) (bs "Frontend " ++ quote name ++ bs " updated.").

Definition cli_frontend (as_json no_reload : bool) (a : FrontendAction) : cmd unit :=
  match a with
  | FrontendList => cli_frontend_list as_json
  | FrontendShow name => cli_frontend_show as_json name
  | FrontendAdd n p l bp b tc tk th tkp tp tpp we wr sp lp mc fj =>
      cli_frontend_add no_reload n p l bp b tc tk th tkp tp tpp we wr sp lp mc fj
  | FrontendUpdate n p l bp b tc tk th tkp tp tpp we wr sp lp mc fj =>
      cli_frontend_update no_reload n p l bp b tc tk th tkp tp tpp we wr sp lp mc fj
  | FrontendRemove name => apply_edit no_reload (remove_frontend name) (bs "Frontend " ++ quote name ++ bs " removed.")
  end.
End Frontend.

(** ** [backend.rs] *)

Inductive BackendAction :=
| BackendList
| BackendShow (name : bytes)
| BackendAddPool (name health_check_type health_check_interval health_check_timeout : bytes) (health_check_path : option bytes)
    (health_check_expect : Z) (health_check_tls health_check_ignore_cert : bool) (health_check_method : bytes)
| BackendUpdatePool (name : bytes) (health_check_type health_check_interval health_check_timeout health_check_path : option bytes)
    (health_check_expect : option Z) (health_check_tls health_check_ignore_cert : option bool)
    (health_check_method : option bytes)
| BackendRemovePool (name : bytes)
| BackendAddServer (pool address : bytes) (name : option bytes) (weight : Z) (tls : bool) (tls_verify : option bool)
    (tls_sni : option bytes) (max_connections : option Z) (disable : bool)
| BackendRemoveBackend (pool name : bytes).

Section Backend.
Context `{SerdeJson} `{Unicode}.

Definition parse_health_check_type (s : bytes) : result HealthCheckType bytes :=
  let t := to_lowercase s in
  if bool_decide (t = bs "tcp") then Ok CheckTcp
  else if bool_decide (t = bs "http") then Ok CheckHttp
  else if bool_decide (t = bs "smtp") then Ok CheckSmtp
  else if bool_decide (t = bs "imap") then Ok CheckImap
  else if bool_decide (t = bs "stratum") then Ok CheckStratum
  else Err (bs "invalid health check type " ++ quote s ++ bs "; use: tcp, http, smtp, imap, stratum").

(** The derived [Debug] of the kind of check. *)
Definition debug_check (t : HealthCheckType) : bytes :=
  match t with
  | CheckTcp => bs "Tcp" | CheckHttp => bs "Http" | CheckSmtp => bs "Smtp" | CheckImap => bs "Imap"
  | CheckStratum => bs "Stratum"
  end.

Definition cli_backend_list (as_json : bool) : cmd unit :=
  try config <- load;
  if as_json then
    print_json (JArray ((fun p => JObject
      [(bs "name", JString (pc_name p));
       (bs "health_check_type", JString (lower_debug (debug_check (health_check_type p))));
       (bs "backends", JArray ((fun b => JObject
          [(bs "name", JString (bc_name b)); (bs "address", JString (bc_address b)); (bs "weight", jnum (bc_weight b));
           (bs "tls", JBool (bc_tls b)); (bs "enabled", JBool (bc_enabled b))]) <$> pc_backend p))]) <$>
      cfg_backend_pool config))
  else
    print_table [bs "POOL"; bs "BACKEND"; bs "ADDRESS"; bs "WEIGHT"; bs "STATUS"]
      (concat ((fun p => (fun b => [pc_name p; bc_name b; bc_address b; show (bc_weight b); enabled_text (bc_enabled b)]) <$>
                          pc_backend p) <$> cfg_backend_pool config)).

Definition cli_backend_show (as_json : bool) (name : bytes) : cmd unit :=
  try config <- load;
  try pool <- find_or pc_name name (cfg_backend_pool config) (not_found (bs "backend pool ") name);
  if as_json then print_struct BackendPoolConfig_codec pool
  else
    say_all
      ([bs "Pool:         " ++ pc_name pool;
        bs "Health Check: " ++ lower_debug (debug_check (health_check_type pool));
        bs "Interval:     " ++ health_check_interval pool;
        bs "Timeout:      " ++ health_check_timeout pool] ++
       (match health_check_path pool with Some p => [bs "HC Path:      " ++ p] | None => [] end) ++
       [bs "HC Expect:    " ++ show (health_check_expect pool);
        bs "HC TLS:       " ++ show_bool (health_check_tls pool)]) ;;
    if is_nil (pc_backend pool) then ok tt
    else
      say (LF :: bs "Backends:") ;;
      print_table [bs "NAME"; bs "ADDRESS"; bs "WEIGHT"; bs "STATUS"]
        ((fun b => [bc_name b; bc_address b; show (bc_weight b); enabled_text (bc_enabled b)]) <$> pc_backend pool).

Definition cli_backend_add_pool (no_reload : bool) (name check_type interval timeout : bytes) (path : option bytes) (expect : Z)
    (tls ignore_cert : bool) (method : bytes) : cmd unit :=
  try t <- of_result (parse_health_check_type check_type);
  apply_edit no_reload (add_backend_pool (mkPoolConfig name interval timeout t path expect tls ignore_cert method []))
    (bs "Backend pool " ++ quote name ++ bs " added.").

Definition cli_backend_update_pool (no_reload : bool) (name : bytes) (check_type interval timeout path : option bytes)
    (expect : option Z) (tls ignore_cert : option bool) (method : option bytes) : cmd unit :=
  try config <- load;
  try pool <- find_or pc_name name (cfg_backend_pool config) (not_found (bs "backend pool ") name);
  try pool <- assign_try check_type parse_health_check_type upd_health_check_type pool;
  let pool := pool
    |> assign interval upd_health_check_interval
    |> assign timeout upd_health_check_timeout
    |> assign expect upd_health_check_expect
    |> assign tls upd_health_check_tls
    |> assign ignore_cert upd_health_check_ignore_cert
    |> assign method upd_health_check_method
    |> assign_or_clear path upd_health_check_path in
  apply_edit no_reload (update_backend_pool name pool) (bs "Backend pool " ++ quote name ++ bs " updated.").

Definition cli_backend_add_server (no_reload : bool) (pool address : bytes) (name : option bytes) (weight : Z) (tls : bool)
    (tls_verify : option bool) (tls_sni : option bytes) (max_connections : option Z) (disable : bool) : cmd unit :=
  let backend_name := default address name in
  apply_edit no_reload
    (add_backend pool (mkBackendConfig backend_name address weight tls tls_verify tls_sni max_connections (negb disable)))
    (bs "Backend " ++ quote backend_name ++ bs " added to pool " ++ quote pool ++ bs ".").

Definition cli_backend (as_json no_reload : bool) (a : BackendAction) : cmd unit :=
  match a with
  | BackendList => cli_backend_list as_json
  | BackendShow name => cli_backend_show as_json name
  | BackendAddPool n t i o p e tl ig m => cli_backend_add_pool no_reload n t i o p e tl ig m
  | BackendUpdatePool n t i o p e tl ig m => cli_backend_update_pool no_reload n t i o p e tl ig m
  | BackendRemovePool name =>
      apply_edit no_reload (remove_backend_pool name) (bs "Backend pool " ++ quote name ++ bs " removed.")
  | BackendAddServer p ad n w t tv ts mc d => cli_backend_add_server no_reload p ad n w t tv ts mc d
  | BackendRemoveBackend pool name =>
      apply_edit no_reload (remove_backend pool name)
        (bs "Backend " ++ quote name ++ bs " removed from pool " ++ quote pool ++ bs ".")
  end.
End Backend.

(** ** [waf.rs] *)

Inductive WafAction :=
| WafList
| WafShow (name : bytes)
| WafAdd (name mode : bytes) (rules_dir : option bytes) (threshold paranoia : Z)
| WafUpdate (name : bytes) (mode : option bytes) (threshold paranoia : option Z) (rules_dir : option bytes)
| WafRemove (name : bytes).

Section Waf.
Context `{SerdeJson} `{Unicode}.

Definition parse_waf_mode (s : bytes) : result ConfigWafMode bytes :=
  let t := to_lowercase s in
  if bool_decide (t = bs "blocking") then Ok ModeBlocking
  else if bool_decide (t = bs "detection_only") || bool_decide (t = bs "detection-only") then Ok ModeDetectionOnly
  else if bool_decide (t = bs "disabled") then Ok ModeDisabled
  else Err (bs "invalid WAF mode " ++ quote s ++ bs "; use: blocking, detection_only, disabled").

(** The derived [Debug] of the mode. *)
Definition debug_waf_mode (m : ConfigWafMode) : bytes :=
  match m with
  | ModeBlocking => bs "Blocking" | ModeDetectionOnly => bs "DetectionOnly" | ModeDisabled => bs "Disabled"
  end.

Definition cli_waf_list (as_json : bool) : cmd unit :=
  try config <- load;
  let rulesets := cfg_waf_ruleset config in
  if as_json then
    print_json (JArray ((fun r => JObject
      [(bs "name", JString (rs_name r)); (bs "mode", JString (lower_debug (debug_waf_mode (rs_mode r))));
       (bs "anomaly_threshold", jnum (rs_anomaly_threshold r)); (bs "paranoia_level", jnum (rs_paranoia_level r));
       (bs "rules_dir", jopt (rs_rules_dir r))]) <$> rulesets))
  else if is_nil rulesets then say (bs "No WAF rulesets configured.")
  else
    print_table [bs "NAME"; bs "MODE"; bs "THRESHOLD"; bs "PARANOIA"; bs "RULES DIR"]
      ((fun r => [rs_name r; lower_debug (debug_waf_mode (rs_mode r)); show (rs_anomaly_threshold r);
                  show (rs_paranoia_level r); or_text "-" (rs_rules_dir r)]) <$> rulesets).

Definition cli_waf_show (name : bytes) : cmd unit :=
  try config <- load;
  try r <- find_or rs_name name (cfg_waf_ruleset config) (not_found (bs "WAF ruleset ") name);
  let ex := rs_exclusions r in
  say_all
    ([bs "Name:      " ++ rs_name r;
      bs "Mode:      " ++ lower_debug (debug_waf_mode (rs_mode r));
      bs "Threshold: " ++ show (rs_anomaly_threshold r);
      bs "Paranoia:  " ++ show (rs_paranoia_level r)] ++
     (match rs_rules_dir r with Some d => [bs "Rules Dir: " ++ d] | None => [] end) ++
     (if is_nil (ex_paths ex) then [] else [bs "Excl Paths: " ++ join (bs ", ") (ex_paths ex)]) ++
     (if is_nil (ex_ip_addresses ex) then [] else [bs "Excl IPs:   " ++ join (bs ", ") (ex_ip_addresses ex)])).

Definition cli_waf_add (no_reload : bool) (name mode : bytes) (rules_dir : option bytes) (threshold paranoia : Z) : cmd unit :=
  try waf_mode <- of_result (parse_waf_mode mode);
  apply_edit no_reload (add_waf_ruleset (mkRuleset name waf_mode threshold rules_dir paranoia WafExclusions_default []))
    (bs "WAF ruleset " ++ quote name ++ bs " added.").

Definition cli_waf_update (no_reload : bool) (name : bytes) (mode : option bytes) (threshold paranoia : option Z)
    (rules_dir : option bytes) : cmd unit :=
  try config <- load;
  try ruleset <- find_or rs_name name (cfg_waf_ruleset config) (not_found (bs "WAF ruleset ") name);
  try ruleset <- assign_try mode parse_waf_mode upd_rs_mode ruleset;
  let ruleset := ruleset
    |> assign threshold upd_rs_anomaly_threshold
    |> assign paranoia upd_rs_paranoia_level
    |> assign_or_clear rules_dir upd_rs_rules_dir in
  apply_edit no_reload (update_waf_ruleset name ruleset) (bs "WAF ruleset " ++ quote name ++ bs " updated.").

Definition cli_waf (as_json no_reload : bool) (a : WafAction) : cmd unit :=
  match a with
  | WafList => cli_waf_list as_json
  | WafShow name => cli_waf_show name
  | WafAdd n m d t p => cli_waf_add no_reload n m d t p
  | WafUpdate n m t p d => cli_waf_update no_reload n m t p d
  | WafRemove name => apply_edit no_reload (remove_waf_ruleset name) (bs "WAF ruleset " ++ quote name ++ bs " removed.")
  end.
End Waf.
