(* ===== verification/CliSecurity.v ===== *)
(** * The command line tool: security, profiles, certificates and the web interface

    [commands/security.rs], [security_profile.rs], [log_profile.rs], [webui.rs] and the
    commands of [cert.rs] that change files. *)

From S2P Require Import Prelude RustStr Float64 Net External Toml Schema Fields Fs Config CertStore Proto Acl Admin Cli.
Open Scope Z_scope.
Open Scope admin_scope.

(** ** [security.rs] *)

Inductive SecurityAction :=
| SecurityShow
| SetTls (min_version : option bytes) (ocsp_stapling : option bool) (hsts_max_age : option Z)
    (hsts_include_subdomains backend_tls_verify : option bool) (backend_ca_bundle : option bytes)
| SetGeo (enabled : option bool) (database_path : option bytes) (block_countries allow_countries : option (list bytes))
| SetBot (enabled challenge_suspicious verify_good_bots : option bool)
| SetCookies (enforce_secure enforce_httponly : option bool) (enforce_samesite : option bytes) (max_cookie_size : option Z)
| SetHeaders (x_content_type_options : option bool) (x_frame_options referrer_policy csp : option bytes)
    (remove_server remove_powered_by compress_responses : option bool) (compress_min_size : option Z)
    (compress_types : option (list bytes))
| AddRateLimit (name key : bytes) (requests window_secs : Z) (burst : option Z)
| RemoveRateLimit (name : bytes)
| ListRateLimits
| SetAcl (default_action : option bytes) (bypass_waf : option bool)
| AddIpAllow (ip : bytes)
| AddIpBlock (ip : bytes)
| RemoveIp (ip : bytes)
| AddDomainAllow (domain : bytes)
| RemoveDomainAllow (domain : bytes)
| AddDomainBlock (domain : bytes)
| RemoveDomainBlock (domain : bytes)
| AddPathPattern (action : bytes) (patterns : list bytes)
| RemovePathPattern (action pattern : bytes).

Section Security.
Context `{Unicode}.

Definition parse_acl_action (s : bytes) : result AclDefaultAction bytes :=
  let t := to_lowercase s in
  if bool_decide (t = bs "allow") then Ok DefaultAllow
  else if bool_decide (t = bs "deny") then Ok DefaultDeny
  else Err (bs "invalid ACL action " ++ quote s ++ bs "; use: allow, deny").

Definition cli_security_show : cmd unit :=
  try config <- load;
  let s := cfg_security config in
  let tls := sec_tls s in let acl := sec_acl s in let geo := sec_geo s in let bot := sec_bot_detection s in
  let h := sec_headers s in let ck := sec_cookies s in
  say_all
    ([bs "=== TLS Policy ===";
      bs "  Min Version:          " ++ st_min_version tls;
      bs "  OCSP Stapling:        " ++ show_bool (st_ocsp_stapling tls);
      bs "  HSTS Max Age:         " ++ show (default 0 (st_hsts_max_age tls));
      bs "  HSTS Subdomains:      " ++ show_bool (st_hsts_include_subdomains tls);
      bs "  Backend TLS Verify:   " ++ show_bool (st_backend_tls_verify tls)] ++
     (match st_backend_ca_bundle tls with Some b => [bs "  Backend CA Bundle:    " ++ b] | None => [] end) ++
     [[];
      bs "=== ACL ===";
      bs "  Default Action:       " ++ debug_default (sacl_default acl);
      bs "  Bypass WAF:           " ++ show_bool (sacl_acl_bypass_waf acl);
      bs "  IP Allow:             " ++ join (bs ", ") (ia_allow (sacl_ip acl));
      bs "  IP Block:             " ++ join (bs ", ") (ia_block (sacl_ip acl));
      bs "  Domain Allow:         " ++ join (bs ", ") (da_allow (sacl_domain acl));
      bs "  Domain Block:         " ++ join (bs ", ") (da_block (sacl_domain acl));
      bs "  Path Patterns:        " ++ show (Z.of_nat (length (sacl_path_patterns acl)));
      [];
      bs "=== GeoIP ===";
      bs "  Enabled:              " ++ show_bool (geo_enabled geo);
      bs "  Block Countries:      " ++ join (bs ", ") (geo_block_countries geo);
      bs "  Allow Countries:      " ++ join (bs ", ") (geo_allow_countries geo);
      [];
      bs "=== Bot Detection ===";
      bs "  Enabled:              " ++ show_bool (bot_enabled bot);
      bs "  Challenge Suspicious: " ++ show_bool (challenge_suspicious bot);
      bs "  Verify Good Bots:     " ++ show_bool (verify_good_bots bot);
      [];
      bs "=== Headers ===";
      bs "  X-Content-Type-Opt:   " ++ show_bool (add_x_content_type_options h);
      bs "  X-Frame-Options:      " ++ or_text "(off)" (add_x_frame_options h);
      bs "  Referrer-Policy:      " ++ or_text "(off)" (add_referrer_policy h);
      bs "  Remove Server:        " ++ show_bool (remove_server_header h);
      bs "  Remove X-Powered-By:  " ++ show_bool (remove_x_powered_by h);
      bs "  Compress Responses:   " ++ show_bool (compress_responses h);
      bs "  Compress Min Size:    " ++ show (compress_min_size h) ++ bs " bytes";
      [];
      bs "=== Cookies ===";
      bs "  Enforce Secure:       " ++ show_bool (enforce_secure_flag ck);
      bs "  Enforce HttpOnly:     " ++ show_bool (enforce_httponly_flag ck);
      bs "  Enforce SameSite:     " ++ or_text "(off)" (enforce_samesite ck);
      bs "  Max Cookie Size:      " ++ show (max_cookie_size ck) ++ bs " bytes";
      []]) ;;
  if is_nil (sec_rate_limit s) then ok tt
  else
    say (bs "=== Rate Limits ===") ;;
    print_table [bs "NAME"; bs "KEY"; bs "REQUESTS"; bs "WINDOW(s)"]
      ((fun r => [rlc_name r; rlc_key r; show (rlc_requests r); show (rlc_window_secs r)]) <$> sec_rate_limit s).

Definition cli_set_tls (no_reload : bool) (min_version : option bytes) (ocsp_stapling : option bool) (hsts_max_age : option Z)
    (hsts_include_subdomains backend_tls_verify : option bool) (backend_ca_bundle : option bytes) : cmd unit :=
  try config <- load;
  let tls := sec_tls (cfg_security config)
    |> assign min_version upd_st_min_version
    |> assign ocsp_stapling upd_st_ocsp_stapling
    |> assign ((fun v => if v =? 0 then None else Some v) <$> hsts_max_age) upd_st_hsts_max_age
    |> assign hsts_include_subdomains upd_st_hsts_include_subdomains
    |> assign backend_tls_verify upd_st_backend_tls_verify
    |> assign_or_clear backend_ca_bundle upd_st_backend_ca_bundle in
  apply_edit no_reload (update_security_tls tls) (bs "TLS settings updated.").

Definition cli_set_geo (no_reload : bool) (enabled : option bool) (database_path : option bytes)
    (block_countries allow_countries : option (list bytes)) : cmd unit :=
  try config <- load;
  let geo := sec_geo (cfg_security config)
    |> assign enabled upd_geo_enabled
    |> assign block_countries upd_geo_block_countries
    |> assign allow_countries upd_geo_allow_countries
    |> assign_or_clear database_path upd_geo_database_path in
  apply_edit no_reload (update_security_geo geo) (bs "GeoIP settings updated.").

Definition cli_set_bot (no_reload : bool) (enabled challenge verify : option bool) : cmd unit :=
  try config <- load;
  let bot := sec_bot_detection (cfg_security config)
    |> assign enabled upd_bot_enabled
    |> assign challenge upd_challenge_suspicious
    |> assign verify upd_verify_good_bots in
  apply_edit no_reload (update_security_bot bot) (bs "Bot detection settings updated.").

Definition cli_set_cookies (no_reload : bool) (enforce_secure enforce_httponly : option bool) (samesite : option bytes)
    (max_size : option Z) : cmd unit :=
  try config <- load;
  let cookies := sec_cookies (cfg_security config)
    |> assign enforce_secure upd_enforce_secure_flag
    |> assign enforce_httponly upd_enforce_httponly_flag
    |> assign max_size upd_max_cookie_size
    |> assign_or_clear samesite upd_enforce_samesite in
  apply_edit no_reload (update_security_cookies cookies) (bs "Cookie security settings updated.").

Definition cli_set_headers (no_reload : bool) (x_content_type_options : option bool) (x_frame_options referrer_policy csp : option bytes)
    (remove_server remove_powered_by compress : option bool) (min_size : option Z) (types : option (list bytes)) : cmd unit :=
  try config <- load;
  let h := sec_headers (cfg_security config)
    |> assign x_content_type_options upd_add_x_content_type_options
    |> assign remove_server upd_remove_server_header
    |> assign remove_powered_by upd_remove_x_powered_by
    |> assign compress upd_compress_responses
    |> assign min_size upd_compress_min_size
    |> assign types upd_compress_types
    |> assign_or_clear x_frame_options upd_add_x_frame_options
    |> assign_or_clear referrer_policy upd_add_referrer_policy
    |> assign_or_clear csp upd_add_content_security_policy in
  apply_edit no_reload (update_security_headers h) (bs "Security headers settings updated.").

Definition cli_list_rate_limits : cmd unit :=
  try config <- load;
  let l := sec_rate_limit (cfg_security config) in
  if is_nil l then say (bs "No rate limit rules configured.")
  else
    print_table [bs "NAME"; bs "KEY"; bs "REQUESTS"; bs "WINDOW(s)"; bs "BURST"]
      ((fun r => [rlc_name r; rlc_key r; show (rlc_requests r); show (rlc_window_secs r);
                  match rlc_burst r with Some b => show b | None => bs "-" end]) <$> l).

Definition cli_set_acl (no_reload : bool) (default_action : option bytes) (bypass_waf : option bool) : cmd unit :=
  try config <- load;
  try acl <- assign_try default_action parse_acl_action upd_sacl_default (sec_acl (cfg_security config));
  apply_edit no_reload (update_security_acl (acl |> assign bypass_waf upd_sacl_acl_bypass_waf)) (bs "ACL settings updated.").

(** A domain is appended to one of the two lists, or removed from it. *)
Definition cli_add_domain (no_reload : bool) (get : DomainAclConfig -> list bytes)
    (upd : (list bytes -> list bytes) -> DomainAclConfig -> DomainAclConfig) (which domain : bytes) : cmd unit :=
  try config <- load;
  let acl := sec_acl (cfg_security config) in
  if member domain (get (sacl_domain acl)) then say (quote domain ++ bs " already in domain " ++ which ++ bs " list.")
  else
    apply_edit no_reload (update_security_acl (upd_sacl_domain (upd (fun l => l ++ [domain])) acl))
      (quote domain ++ bs " added to domain " ++ which ++ bs " list.").

Definition cli_remove_domain (no_reload : bool) (get : DomainAclConfig -> list bytes)
    (upd : (list bytes -> list bytes) -> DomainAclConfig -> DomainAclConfig) (which domain : bytes) : cmd unit :=
  try config <- load;
  let acl := upd_sacl_domain (upd (remove_string domain)) (sec_acl (cfg_security config)) in
  if bool_decide (length (get (sacl_domain acl)) = length (get (sacl_domain (sec_acl (cfg_security config)))))
  then bail (quote domain ++ bs " not found in domain " ++ which ++ bs " list.")
  else apply_edit no_reload (update_security_acl acl) (quote domain ++ bs " removed from domain " ++ which ++ bs " list.").

Definition cli_add_path_pattern (no_reload : bool) (action : bytes) (patterns : list bytes) : cmd unit :=
  try config <- load;
  let acl := upd_sacl_path_patterns (fun l => l ++ [mkPathPattern action patterns]) (sec_acl (cfg_security config)) in
  apply_edit no_reload (update_security_acl acl)
    (bs "Path pattern rule (" ++ action ++ bs " " ++ join (bs ", ") patterns ++ bs ") added.").

Definition cli_remove_path_pattern (no_reload : bool) (action pattern : bytes) : cmd unit :=
  try config <- load;
  let keep p := negb (bool_decide (pp_action p = action) && member pattern (pp_patterns p)) in
  let acl := upd_sacl_path_patterns (List.filter keep) (sec_acl (cfg_security config)) in
  if bool_decide (length (sacl_path_patterns acl) = length (sacl_path_patterns (sec_acl (cfg_security config))))
  then bail (bs "No path pattern rule matching action=" ++ quote action ++ bs " pattern=" ++ quote pattern ++ bs " found.")
  else apply_edit no_reload (update_security_acl acl) (bs "Path pattern rule removed.").

Definition cli_security (no_reload : bool) (a : SecurityAction) : cmd unit :=
  match a with
  | SecurityShow => cli_security_show
  | SetTls mv os hm hi bv cb => cli_set_tls no_reload mv os hm hi bv cb
  | SetGeo en dp bc ac => cli_set_geo no_reload en dp bc ac
  | SetBot en ch vg => cli_set_bot no_reload en ch vg
  | SetCookies es eh ss ms => cli_set_cookies no_reload es eh ss ms
  | SetHeaders xc xf rp cs rs rb cr cm ct => cli_set_headers no_reload xc xf rp cs rs rb cr cm ct
  | AddRateLimit name key requests window burst =>
      apply_edit no_reload (add_security_rate_limit (mkRateLimit name key requests window burst None))
        (bs "Rate limit rule " ++ quote name ++ bs " added.")
  | RemoveRateLimit name =>
      apply_edit no_reload (remove_security_rate_limit name) (bs "Rate limit rule " ++ quote name ++ bs " removed.")
  | ListRateLimits => cli_list_rate_limits
  | SetAcl da bw => cli_set_acl no_reload da bw
  | AddIpAllow ip => apply_edit no_reload (add_acl_allow ip) (quote ip ++ bs " added to IP allow list.")
  | AddIpBlock ip => apply_edit no_reload (add_acl_block ip) (quote ip ++ bs " added to IP block list.")
  | RemoveIp ip => apply_edit no_reload (remove_acl_ip ip) (quote ip ++ bs " removed from IP ACL lists.")
  | AddDomainAllow d => cli_add_domain no_reload da_allow upd_da_allow (bs "allow") d
  | RemoveDomainAllow d => cli_remove_domain no_reload da_allow upd_da_allow (bs "allow") d
  | AddDomainBlock d => cli_add_domain no_reload da_block upd_da_block (bs "block") d
  | RemoveDomainBlock d => cli_remove_domain no_reload da_block upd_da_block (bs "block") d
  | AddPathPattern act ps => cli_add_path_pattern no_reload act ps
  | RemovePathPattern act p => cli_remove_path_pattern no_reload act p
  end.
End Security.

(** ** [security_profile.rs] *)

Inductive SecurityProfileAction :=
| ProfileList
| ProfileShow (name : bytes)
| ProfileAdd (from_json : bytes)
| ProfileUpdate (name from_json : bytes)
| ProfileRemove (name : bytes).

Section Profiles.
Context `{SerdeJson} `{Unicode}.

Definition cli_security_profile_list (as_json : bool) : cmd unit :=
  try config <- load;
  let l := cfg_security_profiles config in
  if as_json then
    print_json (JArray ((fun p => JObject
      [(bs "name", JString (sp_name p)); (bs "description", JString (sp_description p));
       (bs "profile_type", JString (sp_profile_type p)); (bs "waf_enabled", JBool (sp_waf_enabled p))]) <$> l))
  else if is_nil l then say (bs "No security profiles configured.")
  else
    print_table [bs "NAME"; bs "TYPE"; bs "DESCRIPTION"; bs "WAF"]
      ((fun p => [sp_name p; sp_profile_type p; sp_description p; yes_no (sp_waf_enabled p)]) <$> l).

Definition cli_security_profile (no_reload as_json : bool) (a : SecurityProfileAction) : cmd unit :=
  match a with
  | ProfileList => cli_security_profile_list as_json
  | ProfileShow name =>
      try config <- load;
      try p <- find_or sp_name name (cfg_security_profiles config) (bs "security profile " ++ quote name ++ bs " not found");
      print_struct SecurityProfile_codec p
  | ProfileAdd from_json =>
      try profile <- read_struct SecurityProfile_codec from_json;
      apply_edit no_reload (add_security_profile profile) (bs "Security profile " ++ quote (sp_name profile) ++ bs " added.")
  | ProfileUpdate name from_json =>
      try profile <- read_struct SecurityProfile_codec from_json;
      apply_edit no_reload (update_security_profile name (upd_sp_name (fun _ => name) profile))
        (bs "Security profile " ++ quote name ++ bs " updated.")
  | ProfileRemove name =>
      apply_edit no_reload (remove_security_profile name) (bs "Security profile " ++ quote name ++ bs " removed.")
  end.

(** ** [log_profile.rs] *)

Inductive LogProfileAction :=
| LogList
| LogShow (name : bytes)
| LogAdd (name format : bytes) (no_access_log : bool) (description : bytes)
| LogUpdate (name : bytes) (format : option bytes) (no_access_log : option bool) (description : option bytes)
| LogRemove (name : bytes).

Definition parse_log_format (s : bytes) : result LogFormat bytes :=
  let t := replace (to_lowercase s) (bs "-") (bs "_") in
  if bool_decide (t = bs "apache_combined") then Ok ApacheCombined
  else if bool_decide (t = bs "apache_custom") then Ok ApacheCustom
  else if bool_decide (t = bs "postfix") then Ok Postfix
  else if bool_decide (t = bs "protocol") then Ok Protocol
  else if bool_decide (t = bs "json") then Ok Json
  else Err (bs "invalid log format " ++ quote s ++
            bs "; use: apache_combined, apache_custom, postfix, protocol, json").

Definition debug_log_format (f : LogFormat) : bytes :=
  match f with
  | ApacheCombined => bs "ApacheCombined"
  | ApacheCustom => bs "ApacheCustom"
  | Postfix => bs "Postfix"
  | Protocol => bs "Protocol"
  | Json => bs "Json"
  end.

Definition cli_log_profile_list (as_json : bool) : cmd unit :=
  try config <- load;
  let l := cfg_log_profiles config in
  if as_json then
    print_json (JArray ((fun p => JObject
      [(bs "name", JString (lp_name p)); (bs "format", JString (lower_debug (debug_log_format (lp_format p))));
       (bs "access_log", JBool (lp_access_log p)); (bs "description", JString (lp_description p))]) <$> l))
  else if is_nil l then say (bs "No logging profiles configured.")
  else
    print_table [bs "NAME"; bs "FORMAT"; bs "ACCESS LOG"; bs "DESCRIPTION"]
      ((fun p => [lp_name p; lower_debug (debug_log_format (lp_format p)); yes_no (lp_access_log p);
                  lp_description p]) <$> l).

Definition cli_log_profile (no_reload as_json : bool) (a : LogProfileAction) : cmd unit :=
  match a with
  | LogList => cli_log_profile_list as_json
  | LogShow name =>
      try config <- load;
      try p <- find_or lp_name name (cfg_log_profiles config) (bs "logging profile " ++ quote name ++ bs " not found");
      say_all
        [bs "Name:       " ++ lp_name p;
         bs "Format:     " ++ lower_debug (debug_log_format (lp_format p));
         bs "Access Log: " ++ show_bool (lp_access_log p);
         bs "Description:" ++ lp_description p]
  | LogAdd name format no_access_log description =>
      try fmt <- of_result (parse_log_format format);
      apply_edit no_reload (add_log_profile (mkLogProfile name description fmt (negb no_access_log)))
        (bs "Logging profile " ++ quote name ++ bs " added.")
  | LogUpdate name format no_access_log description =>
      try config <- load;
      try p <- find_or lp_name name (cfg_log_profiles config) (bs "logging profile " ++ quote name ++ bs " not found");
      try p <- assign_try format parse_log_format upd_lp_format p;
      let p := p |> assign (negb <$> no_access_log) upd_lp_access_log |> assign description upd_lp_description in
      apply_edit no_reload (update_log_profile name p) (bs "Logging profile " ++ quote name ++ bs " updated.")
  | LogRemove name =>
      apply_edit no_reload (remove_log_profile name) (bs "Logging profile " ++ quote name ++ bs " removed.")
  end.
End Profiles.

(** ** [webui.rs] *)

Inductive WebuiAction :=
| WebuiShow
| WebuiSetConfig (enabled : option bool) (listen tls_cert tls_key tokens web_users : option bytes)
| AddOrigin (origin : bytes)
| RemoveOrigin (origin : bytes)
| ListOrigins
| WebuiList
| WebuiAdd (cidr : bytes)
| WebuiRemove (cidr : bytes)
| WebuiSet (cidrs : list bytes).

Definition DEFAULT_WEBUI_PID_FILE : bytes := bs "/opt/serverwall/run/serverwall-webui.pid".

Definition reload_webui : cmd unit :=
  SendReload DEFAULT_WEBUI_PID_FILE (fun r =>
    match r with
    | Ok _ => say (bs "Reload signal sent to serverwall-webui.")
    | Err e => warn (bs "Warning: config updated but could not signal webui: " ++ show_error e ++ [LF] ++
                     bs "The new settings will take effect on next webui restart.")
    end).

(** The end of every command that changes the settings of the web interface. *)
Definition apply_webui (f : change) (message : bytes) : cmd unit :=
  editor f ;; say message ;; reload_webui.

Section Webui.
Context `{SerdeJson} `{IpNetworkLib}.

Definition cli_webui_show (as_json : bool) : cmd unit :=
  try config <- load;
  let w := cfg_webui config in
  if as_json then
    say (value_compact (JObject
      [(bs "enabled", JBool (webui_enabled w)); (bs "listen", JString (webui_listen w));
       (bs "tls_cert", jopt (webui_tls_cert w)); (bs "tls_key", jopt (webui_tls_key w));
       (bs "tokens_file", JString (tokens_file w)); (bs "web_users_file", JString (web_users_file w));
       (bs "allowed_origins", jstrings (allowed_origins w)); (bs "allow_list", jstrings (webui_allow_list w))]))
  else
    say_all
      [bs "Enabled:        " ++ show_bool (webui_enabled w);
       bs "Listen:         " ++ webui_listen w;
       bs "TLS Cert:       " ++ or_text "(none)" (webui_tls_cert w);
       bs "TLS Key:        " ++ or_text "(none)" (webui_tls_key w);
       bs "Tokens File:    " ++ tokens_file w;
       bs "Web Users File: " ++ web_users_file w;
       bs "CORS Origins:   " ++ (if is_nil (allowed_origins w) then bs "(any)" else join (bs ", ") (allowed_origins w));
       bs "IP Allowlist:   " ++ (if is_nil (webui_allow_list w) then bs "(none — all connections rejected!)"
                                 else join (bs ", ") (webui_allow_list w))].

Definition cli_webui_set_config (enabled : option bool) (listen tls_cert tls_key tokens web_users : option bytes) : cmd unit :=
  try config <- load;
  let w := cfg_webui config
    |> assign enabled upd_webui_enabled
    |> assign listen upd_webui_listen
    |> assign_or_clear tls_cert upd_webui_tls_cert
    |> assign_or_clear tls_key upd_webui_tls_key
    |> assign tokens upd_tokens_file
    |> assign web_users upd_web_users_file in
  apply_webui (update_webui_config w)
    (bs "WebUI configuration updated. Restart serverwall-webui for connection changes to take effect.").

Definition cli_add_origin (origin : bytes) : cmd unit :=
  try config <- load;
  let w := cfg_webui config in
  if member origin (allowed_origins w) then say (quote origin ++ bs " already in CORS origins list.")
  else apply_webui (update_webui_config (upd_allowed_origins (fun l => l ++ [origin]) w))
         (bs "CORS origin " ++ quote origin ++ bs " added.").

Definition cli_remove_origin (origin : bytes) : cmd unit :=
  try config <- load;
  let w := upd_allowed_origins (remove_string origin) (cfg_webui config) in
  if bool_decide (length (allowed_origins w) = length (allowed_origins (cfg_webui config)))
  then bail (quote origin ++ bs " not found in CORS origins list.")
  else apply_webui (update_webui_config w) (bs "CORS origin " ++ quote origin ++ bs " removed.").

Definition cli_webui_list (as_json : bool) : cmd unit :=
  try config <- load;
  let l := webui_allow_list (cfg_webui config) in
  if as_json then print_json (jstrings l)
  else if is_nil l then say (bs "WebUI IP allowlist is empty (all connections will be rejected).")
  else print_table [bs "CIDR"] ((fun c => [c]) <$> l).

Definition cli_webui_add (cidr : bytes) : cmd unit :=
  match IpMatcher_new [cidr] with
  | Err e => bail (bs "invalid CIDR " ++ quote cidr ++ bs ": " ++ e)
  | Ok _ =>
      try config <- load;
      let l := webui_allow_list (cfg_webui config) in
      if member cidr l then say (cidr ++ bs " is already in the WebUI allowlist.")
      else apply_webui (update_webui_allow_list (l ++ [cidr])) (bs "Added " ++ cidr ++ bs " to WebUI allowlist.")
  end.

Definition cli_webui_remove (cidr : bytes) : cmd unit :=
  try config <- load;
  let l := remove_string cidr (webui_allow_list (cfg_webui config)) in
  if bool_decide (length l = length (webui_allow_list (cfg_webui config)))
  then bail (cidr ++ bs " not found in WebUI allowlist")
  else apply_webui (update_webui_allow_list l) (bs "Removed " ++ cidr ++ bs " from WebUI allowlist.").

Definition cli_webui (as_json : bool) (a : WebuiAction) : cmd unit :=
  match a with
  | WebuiShow => cli_webui_show as_json
  | WebuiSetConfig en li tc tk tf uf => cli_webui_set_config en li tc tk tf uf
  | AddOrigin o => cli_add_origin o
  | RemoveOrigin o => cli_remove_origin o
  | ListOrigins =>
      try config <- load;
      let l := allowed_origins (cfg_webui config) in
      if is_nil l then say (bs "No CORS origins configured (all origins allowed).") else say_all l
  | WebuiList => cli_webui_list as_json
  | WebuiAdd cidr => cli_webui_add cidr
  | WebuiRemove cidr => cli_webui_remove cidr
  | WebuiSet cidrs =>
      match IpMatcher_new cidrs with
      | Err e => bail (bs "invalid CIDR in list: " ++ e)
      | Ok _ => apply_webui (update_webui_allow_list cidrs) (bs "WebUI allowlist set to: " ++ join (bs ", ") cidrs)
      end
  end.
End Webui.

(** ** [cert.rs]: the commands that write certificates

    They write in [cert_dir] with the functions of [CertStore.v] and return what they print. *)

(** [Path::file_name] and [Path::join], which an absolute path replaces. *)
Definition file_name (p : bytes) : option bytes :=
  name ← last (List.filter (fun c => negb (is_nil c || bool_decide (c = bs "."))) (split p 47));
  if bool_decide (name = bs "..") then None else Some name.
Definition path_push (dir name : bytes) : bytes := if starts_with name (bs "/") then name else path_join dir name.

Definition describe {A} (text : bytes) (m : io A) : io A := fun d =>
  match m d with (Ok x, d) => (Ok x, d) | (Err e, d) => (Err (text ++ e), d) end.

Definition fs_copy (src dst : bytes) : io unit := let! data := fs_read src in fs_write dst data.

Section Cert.
Context `{TomlLib} `{IpNetworkLib} `{SelfSignedLib} (path : bytes).

Definition load_io : io ServerWallConfig := fun d =>
  match load_config path d with (Ok c, d) => (Ok c, d) | (Err e, d) => (Err (show_error e), d) end.

Definition cli_cert_import (source : bytes) (name : option bytes) : io (list bytes) :=
  let! config := load_io in
  let cert_dir := gc_cert_dir (cfg_global config) in
  let! found := fs_exists source in
  if negb found then io_err (bs "file not found: " ++ source)
  else
    let dest_name := match name with Some n => n | None => default (bs "cert.pem") (file_name source) end in
    let! _ := describe (bs "failed to create cert dir: ") syscall in
    let dest := path_push cert_dir dest_name in
    let! _ := describe (bs "failed to copy cert: ") (fs_copy source dest) in
    io_ret [bs "Imported " ++ source ++ bs " → " ++ dest; bs "Run `serverwallctl reload` to apply."].

Fixpoint parse_ips (l : list bytes) : result (list IpAddr) bytes :=
  match l with
  | [] => Ok []
  | s :: l =>
      match parse_ip s with
      | None => Err (bs "invalid IP " ++ quote s ++ bs ": invalid IP address syntax")
      | Some ip => let? ips := parse_ips l in Ok (ip :: ips)
      end
  end.

Definition cli_cert_generate (cn : bytes) (out_cert out_key : option bytes) (extra_ips : list bytes) : io (list bytes) :=
  let! config := load_io in
  let cert_dir := gc_cert_dir (cfg_global config) in
  let! _ := describe (bs "failed to create cert dir: ") syscall in
  let cert_path := path_push cert_dir (default (cn ++ bs ".pem") out_cert) in
  let key_path := path_push cert_dir (default (cn ++ bs "-key.pem") out_key) in
  let! ips := io_of (parse_ips extra_ips) in
  let! _ := describe (bs "certificate generation failed: ") (generate_self_signed_cert cert_path key_path cn ips) in
  io_ret [bs "Certificate written to: " ++ cert_path; bs "Private key written to: " ++ key_path].
End Cert.
