(* ===== verification/CliMail.v ===== *)
(** * The command line tool: mail

    [commands/relay.rs], [dkim.rs], [dmarc.rs], [spf.rs] and [antispam.rs].  The RSA keys of DKIM
    are a parameter. *)

From S2P Require Import Prelude RustStr Float64 FloatFmt Net External Toml Schema Fields Fs Config Proto Admin Cli.
Open Scope Z_scope.
Open Scope admin_scope.

(** ** [relay.rs] *)

Inductive RelayAction :=
| RelayShow
| RelaySet (enabled : option bool) (hostname : option bytes) (listen : option (list bytes)) (spool_dir : option bytes)
    (max_queue_size delivery_threads : option Z)
| RelaySetTls (opportunistic verify_certificates : option bool) (min_version : option bytes)
| RelaySetRetry (intervals : option (list bytes)) (max_age : option bytes) (max_attempts : option Z)
| RelaySetOutbound (enabled : option bool) (max_message_size max_recipients : option Z)
    (allowed_sender_domains : option (list bytes)) (max_per_domain_per_hour : option Z)
    (block_dangerous_attachments check_urls : option bool)
| RelaySetBounce (sender : option bytes) (include_original_headers : option bool)
| AddTrustedHost (cidr : bytes)
| RemoveTrustedHost (cidr : bytes)
| SetTrustedHostsTls (require_tls : bool)
| ListTrustedHosts.

Section RelayCommands.
Context `{SerdeJson}.

Definition cli_relay_show (as_json : bool) : cmd unit :=
  try config <- load;
  let r := cfg_relay config in
  if as_json then print_struct RelayConfig_codec r
  else
    let th := rel_trusted_hosts r in let p := rel_outbound_policy r in
    say_all
      ([bs "Enabled:          " ++ show_bool (rel_enabled r);
        bs "Hostname:         " ++ or_text "(auto)" (rel_hostname r);
        bs "Listen:           " ++ join (bs ", ") (rel_listen r);
        bs "Spool Dir:        " ++ rel_spool_dir r;
        bs "Max Queue:        " ++ show (rel_max_queue_size r);
        bs "Delivery Threads: " ++ show (rel_delivery_threads r);
        [];
        bs "=== Trusted Hosts ===";
        bs "  Require TLS: " ++ show_bool (th_require_tls th)] ++
       (if is_nil (th_hosts th) then [bs "  Hosts: (none)"] else (fun h => bs "  - " ++ h) <$> th_hosts th) ++
       [[];
        bs "=== Retry ===";
        bs "  Intervals:    " ++ join (bs ", ") (rc_intervals (rel_retry r));
        bs "  Max Age:      " ++ rc_max_age (rel_retry r);
        bs "  Max Attempts: " ++ show (rc_max_attempts (rel_retry r));
        [];
        bs "=== Outbound TLS ===";
        bs "  Opportunistic:    " ++ show_bool (rt_opportunistic (rel_tls r));
        bs "  Verify Certs:     " ++ show_bool (rt_verify_certificates (rel_tls r));
        bs "  Min Version:      " ++ rt_min_version (rel_tls r);
        [];
        bs "=== Outbound Policy ===";
        bs "  Enabled:              " ++ show_bool (op_enabled p);
        bs "  Max Message Size:     " ++ show (op_max_message_size p) ++ bs " bytes";
        bs "  Max Recipients:       " ++ show (op_max_recipients_per_message p);
        bs "  Max/Domain/Hour:      " ++ show (op_max_messages_per_domain_per_hour p);
        bs "  Block Dangerous Att.: " ++ show_bool (op_block_dangerous_attachments p);
        bs "  Check URLs:           " ++ show_bool (op_check_urls p)] ++
       (if is_nil (op_allowed_sender_domains p) then []
        else [bs "  Allowed Senders:  " ++ join (bs ", ") (op_allowed_sender_domains p)]) ++
       [[];
        bs "=== Bounce ===";
        bs "  Sender:               " ++ or_text "(auto)" (bo_sender (rel_bounce r));
        bs "  Include Orig Headers: " ++ show_bool (bo_include_original_headers (rel_bounce r))]).

(** The relay settings are read, changed and written back. *)
Definition change_relay (no_reload : bool) (f : RelayConfig -> RelayConfig) (message : bytes) : cmd unit :=
  try config <- load;
  apply_edit no_reload (set_relay_config (f (cfg_relay config))) message.

Definition cli_list_trusted_hosts : cmd unit :=
  try config <- load;
  let th := rel_trusted_hosts (cfg_relay config) in
  say (bs "Require TLS: " ++ show_bool (th_require_tls th)) ;;
  if is_nil (th_hosts th) then say (bs "No trusted hosts configured.")
  else print_table [bs "HOST/CIDR"] ((fun h => [h]) <$> th_hosts th).

Definition cli_relay (no_reload as_json : bool) (a : RelayAction) : cmd unit :=
  match a with
  | RelayShow => cli_relay_show as_json
  | RelaySet enabled hostname listen spool_dir max_queue_size delivery_threads =>
      change_relay no_reload (fun r => r
        |> assign enabled upd_rel_enabled
        |> assign listen upd_rel_listen
        |> assign spool_dir upd_rel_spool_dir
        |> assign max_queue_size upd_rel_max_queue_size
        |> assign delivery_threads upd_rel_delivery_threads
        |> assign_or_clear hostname upd_rel_hostname) (bs "Relay settings updated.")
  | RelaySetTls opportunistic verify_certificates min_version =>
      change_relay no_reload (upd_rel_tls (fun t => t
        |> assign opportunistic upd_rt_opportunistic
        |> assign verify_certificates upd_rt_verify_certificates
        |> assign min_version upd_rt_min_version)) (bs "Relay TLS settings updated.")
  | RelaySetRetry intervals max_age max_attempts =>
      change_relay no_reload (upd_rel_retry (fun t => t
        |> assign intervals upd_rc_intervals
        |> assign max_age upd_rc_max_age
        |> assign max_attempts upd_rc_max_attempts)) (bs "Relay retry settings updated.")
  | RelaySetOutbound enabled max_size max_recipients domains per_hour dangerous urls =>
      change_relay no_reload (upd_rel_outbound_policy (fun p => p
        |> assign enabled upd_op_enabled
        |> assign max_size upd_op_max_message_size
        |> assign max_recipients upd_op_max_recipients_per_message
        |> assign domains upd_op_allowed_sender_domains
        |> assign per_hour upd_op_max_messages_per_domain_per_hour
        |> assign dangerous upd_op_block_dangerous_attachments
        |> assign urls upd_op_check_urls)) (bs "Outbound policy settings updated.")
  | RelaySetBounce sender include =>
      change_relay no_reload (upd_rel_bounce (fun b => b
        |> assign_or_clear sender upd_bo_sender
        |> assign include upd_bo_include_original_headers)) (bs "Bounce settings updated.")
  | AddTrustedHost cidr =>
      apply_edit no_reload (add_trusted_host cidr) (bs "Trusted host " ++ quote cidr ++ bs " added.")
  | RemoveTrustedHost cidr =>
      apply_edit no_reload (remove_trusted_host cidr) (bs "Trusted host " ++ quote cidr ++ bs " removed.")
  | SetTrustedHostsTls require_tls =>
      change_relay no_reload (upd_rel_trusted_hosts (upd_th_require_tls (fun _ => require_tls)))
        (bs "Trusted hosts TLS requirement set to " ++ show_bool require_tls ++ bs ".")
  | ListTrustedHosts => cli_list_trusted_hosts
  end.
End RelayCommands.

(** ** [dkim.rs] *)

(** OpenSSL: a fresh RSA key, its PKCS#8 PEM text, the key of such a text ([private_key_from_pem]
    and [rsa]), its public part in DER, and [base64::encode_block]. *)
Class OpensslRsa := {
  Rsa : Type;
  rsa_generate : result Rsa bytes;
  from_rsa : Rsa -> result unit bytes;
  rsa_to_pem : Rsa -> result bytes bytes;
  PKey : Type;
  private_key_from_pem : bytes -> result PKey bytes;
  pkey_rsa : PKey -> result Rsa bytes;
  public_key_to_der : Rsa -> result bytes bytes;
  encode_block : bytes -> bytes;
}.

Inductive DkimAction :=
| DkimList
| DkimGenerate (domain selector : bytes) (key_dir : option bytes)
| DkimDnsRecord (domain : bytes)
| DkimRemove (domain : bytes).

(** [.map_err(|e| anyhow!("text: {}", e))?] *)
Definition or_fail {A} (text : bytes) (r : result A bytes) : cmd A :=
  of_result (match r with Ok x => Ok x | Err e => Err (text ++ bs ": " ++ e) end).
Definition syscall_or_fail (text : bytes) : cmd unit := Syscall (fun r => or_fail text r).
Definition write_or_fail (text path data : bytes) : cmd unit := WriteFile path data (fun r => or_fail text r).
Definition read_or_fail (text path : bytes) : cmd bytes := ReadBytes path (fun r => or_fail text r).

Definition in_quotes (s : bytes) : bytes := [34] ++ s ++ [34].

Section DkimCommands.
Context `{SerdeJson} `{OpensslRsa}.

Definition dkim_record (selector domain pub_b64 : bytes) : bytes :=
  selector ++ bs "._domainkey." ++ domain ++ bs "  IN TXT  " ++ in_quotes (bs "v=DKIM1; k=rsa; p=" ++ pub_b64).

Definition dkim_key_file (key_dir : option bytes) (domain selector : bytes) : bytes :=
  let name := domain ++ bs "_" ++ selector ++ bs ".pem" in
  if starts_with name (bs "/") then name
  else path_join (default (bs "/opt/serverwall/etc/dkim") key_dir) name.

Definition cli_dkim_list (as_json : bool) : cmd unit :=
  try config <- load;
  let l := rd_domains (rel_dkim (cfg_relay config)) in
  if as_json then
    print_json (JArray ((fun d => JObject
      [(bs "domain", JString (dd_domain d)); (bs "selector", JString (dd_selector d));
       (bs "key_file", JString (dd_key_file d)); (bs "algorithm", JString (dd_algorithm d))]) <$> l))
  else if is_nil l then say (bs "No DKIM domains configured.")
  else
    print_table [bs "DOMAIN"; bs "SELECTOR"; bs "KEY FILE"; bs "ALGORITHM"]
      ((fun d => [dd_domain d; dd_selector d; dd_key_file d; dd_algorithm d]) <$> l).

Definition cli_dkim_generate (no_reload : bool) (domain selector : bytes) (key_dir : option bytes) : cmd unit :=
  syscall_or_fail (bs "failed to create key dir") ;;
  let key_file := dkim_key_file key_dir domain selector in
  try rsa <- or_fail (bs "failed to generate RSA key") rsa_generate;
  or_fail (bs "failed to wrap key") (from_rsa rsa) ;;
  try pem <- or_fail (bs "failed to encode key") (rsa_to_pem rsa);
  write_or_fail (bs "failed to write key file") key_file pem ;;
  syscall_or_fail (bs "failed to chmod key file") ;;
  try pub_der <- or_fail (bs "failed to encode public key") (public_key_to_der rsa);
  editor (add_dkim_domain (mkDkimDomain domain selector key_file (bs "rsa-sha256"))) ;;
  say_all
    [bs "Generated DKIM key: " ++ key_file;
     [];
     bs "Add this DNS TXT record:";
     bs "  " ++ dkim_record selector domain (encode_block pub_der);
     []] ;;
  maybe_reload no_reload.

Definition cli_dkim_dns_record (domain : bytes) : cmd unit :=
  try config <- load;
  try entry <- find_or dd_domain domain (rd_domains (rel_dkim (cfg_relay config)))
    (bs "no DKIM entry for domain " ++ quote domain);
  try pem <- read_or_fail (bs "failed to read key file " ++ dd_key_file entry) (dd_key_file entry);
  try pkey <- or_fail (bs "failed to parse key") (private_key_from_pem pem);
  try rsa <- or_fail (bs "key is not RSA") (pkey_rsa pkey);
  try pub_der <- or_fail (bs "failed to encode public key") (public_key_to_der rsa);
  say (dkim_record (dd_selector entry) domain (encode_block pub_der)).

Definition cli_dkim (no_reload as_json : bool) (a : DkimAction) : cmd unit :=
  match a with
  | DkimList => cli_dkim_list as_json
  | DkimGenerate domain selector key_dir => cli_dkim_generate no_reload domain selector key_dir
  | DkimDnsRecord domain => cli_dkim_dns_record domain
  | DkimRemove domain =>
      apply_edit no_reload (remove_dkim_domain domain) (bs "DKIM entry for " ++ quote domain ++ bs " removed.")
  end.
End DkimCommands.

(** ** [dmarc.rs] *)

Inductive DmarcAction :=
| DmarcList
| DmarcShow (domain : bytes)
| DmarcAdd (d : DmarcPolicyDomain)
| DmarcUpdate (domain : bytes) (policy subdomain_policy : option bytes) (pct : option Z) (rua ruf : option (list bytes))
    (adkim aspf : option bytes)
| DmarcRemove (domain : bytes)
| DmarcDnsRecord (domain : bytes).

Definition dmarc_parts (d : DmarcPolicyDomain) : list bytes :=
  [bs "v=DMARC1"; bs "p=" ++ dp_policy d] ++
  (match dp_subdomain_policy d with Some sp => [bs "sp=" ++ sp] | None => [] end) ++
  (if dp_pct d <? 100 then [bs "pct=" ++ show (dp_pct d)] else []) ++
  (if is_nil (dp_rua d) then [] else [bs "rua=" ++ join (bs ",") (dp_rua d)]) ++
  (if is_nil (dp_ruf d) then [] else [bs "ruf=" ++ join (bs ",") (dp_ruf d)]) ++
  (if bool_decide (dp_adkim d = bs "r") then [] else [bs "adkim=" ++ dp_adkim d]) ++
  (if bool_decide (dp_aspf d = bs "r") then [] else [bs "aspf=" ++ dp_aspf d]).

Section DmarcCommands.
Context `{SerdeJson}.

Definition find_dmarc (domain : bytes) : cmd DmarcPolicyDomain :=
  try config <- load;
  find_or dp_domain domain (rdp_domains (rel_dmarc_publish (cfg_relay config)))
    (bs "DMARC policy for " ++ quote domain ++ bs " not found").

Definition cli_dmarc_list (as_json : bool) : cmd unit :=
  try config <- load;
  let l := rdp_domains (rel_dmarc_publish (cfg_relay config)) in
  if as_json then print_struct (vec DmarcPolicyDomain_codec) l
  else if is_nil l then say (bs "No DMARC policy domains configured.")
  else
    print_table [bs "DOMAIN"; bs "POLICY"; bs "PCT"; bs "RUA"]
      ((fun d => [dp_domain d; dp_policy d; show (dp_pct d); join (bs ", ") (dp_rua d)]) <$> l).

Definition cli_dmarc (no_reload as_json : bool) (a : DmarcAction) : cmd unit :=
  match a with
  | DmarcList => cli_dmarc_list as_json
  | DmarcShow domain => try d <- find_dmarc domain; print_struct DmarcPolicyDomain_codec d
  | DmarcAdd d =>
      apply_edit no_reload (add_dmarc_policy_domain d) (bs "DMARC policy for " ++ quote (dp_domain d) ++ bs " added.")
  | DmarcUpdate domain policy subdomain_policy pct rua ruf adkim aspf =>
      try d <- find_dmarc domain;
      let d := d
        |> assign policy upd_dp_policy
        |> assign pct upd_dp_pct
        |> assign rua upd_dp_rua
        |> assign ruf upd_dp_ruf
        |> assign adkim upd_dp_adkim
        |> assign aspf upd_dp_aspf
        |> assign_or_clear subdomain_policy upd_dp_subdomain_policy in
      apply_edit no_reload (update_dmarc_policy_domain domain d)
        (bs "DMARC policy for " ++ quote domain ++ bs " updated.")
  | DmarcRemove domain =>
      apply_edit no_reload (remove_dmarc_policy_domain domain) (bs "DMARC policy for " ++ quote domain ++ bs " removed.")
  | DmarcDnsRecord domain =>
      try d <- find_dmarc domain;
      say (bs "_dmarc." ++ domain ++ bs "  TXT  " ++ in_quotes (join (bs "; ") (dmarc_parts d)))
  end.
End DmarcCommands.

(** ** [spf.rs] *)

Inductive SpfAction :=
| SpfList
| SpfShow (domain : bytes)
| SpfAdd (domain : bytes) (mechanisms : list bytes) (all : bytes)
| SpfUpdate (domain : bytes) (mechanisms : option (list bytes)) (all : option bytes)
| SpfRemove (domain : bytes)
| SpfRecord (domain : bytes).

Definition is_qualifier (c : Z) : bool := bool_decide (c ∈ bs "+-~?").

(** One iteration of [parse_mechanisms] on an item that is not empty. *)
Definition parse_mechanism (item : bytes) : SpfMechanism :=
  let '(qualifier, rest) :=
    match item with c :: r => if is_qualifier c then ([c], r) else (bs "+", item) | [] => (bs "+", item) end in
  match split_once rest 58 with
  | Some (mechanism, value) => mkSpfMechanism qualifier mechanism (Some value)
  | None => mkSpfMechanism qualifier rest None
  end.

Definition parse_mechanisms (items : list bytes) : list SpfMechanism :=
  parse_mechanism <$> List.filter (fun item => negb (is_nil item)) items.

Definition show_mechanism (m : SpfMechanism) : bytes :=
  let q := if bool_decide (sm_qualifier m = bs "+") then [] else sm_qualifier m in
  match sm_value m with
  | Some (c :: v) => q ++ sm_mechanism m ++ bs ":" ++ c :: v
  | _ => q ++ sm_mechanism m
  end.

Definition spf_record (d : SpfDomainConfig) : bytes :=
  join (bs " ") ([bs "v=spf1"] ++ (show_mechanism <$> sd_mechanisms d) ++ [sd_all d]).

Section SpfCommands.
Context `{SerdeJson}.

Definition find_spf (domain : bytes) : cmd SpfDomainConfig :=
  try config <- load;
  find_or sd_domain domain (rsp_domains (rel_spf_publish (cfg_relay config)))
    (bs "SPF record for " ++ quote domain ++ bs " not found").

Definition cli_spf_list (as_json : bool) : cmd unit :=
  try config <- load;
  let l := rsp_domains (rel_spf_publish (cfg_relay config)) in
  if as_json then print_struct (vec SpfDomainConfig_codec) l
  else if is_nil l then say (bs "No SPF domains configured.")
  else
    print_table [bs "DOMAIN"; bs "MECHANISMS"; bs "ALL"]
      ((fun d => [sd_domain d; show (Z.of_nat (length (sd_mechanisms d))); sd_all d]) <$> l).

Definition cli_spf (no_reload as_json : bool) (a : SpfAction) : cmd unit :=
  match a with
  | SpfList => cli_spf_list as_json
  | SpfShow domain => try d <- find_spf domain; print_struct SpfDomainConfig_codec d
  | SpfAdd domain mechanisms all =>
      apply_edit no_reload (add_spf_domain (mkSpfDomain domain (parse_mechanisms mechanisms) all))
        (bs "SPF record for " ++ quote domain ++ bs " added.")
  | SpfUpdate domain mechanisms all =>
      try d <- find_spf domain;
      let d := d |> assign (parse_mechanisms <$> mechanisms) upd_sd_mechanisms |> assign all upd_sd_all in
      apply_edit no_reload (update_spf_domain domain d) (bs "SPF record for " ++ quote domain ++ bs " updated.")
  | SpfRemove domain =>
      apply_edit no_reload (remove_spf_domain domain) (bs "SPF record for " ++ quote domain ++ bs " removed.")
  | SpfRecord domain =>
      try d <- find_spf domain;
      say (domain ++ bs "  TXT  " ++ in_quotes (spf_record d))
  end.
End SpfCommands.

(** ** [antispam.rs] *)

(** The flags of [set-checks]: for every check [enabled] and [weight]. *)
Record CheckFlags := mkCheckFlags {
  cf_dnsbl : option bool * option f64;
  cf_spf : option bool * option f64;
  cf_dkim : option bool * option f64;
  cf_dmarc : option bool * option f64;
  cf_rdns : option bool * option f64;
  cf_helo : option bool * option f64;
  cf_early_talker : option bool * option f64;
  cf_content : option bool * option f64;
  cf_url_analysis : option bool * option f64;
  cf_attachment : option bool * option f64;
  cf_html : option bool * option f64;
  cf_header_analysis : option bool * option f64;
  cf_charset : option bool * option f64;
  cf_bulk : option bool * option f64;
  cf_ratio : option bool * option f64;
  cf_antivirus : AntivirusFieldUpdate;
  cf_residential_spf : ResidentialSpfFieldUpdate;
  cf_spf_fail_weight : option f64;
  cf_spf_softfail_weight : option f64;
  cf_spf_neutral_weight : option f64;
  cf_spf_none_weight : option f64;
}.

Inductive AntispamAction :=
| AntispamShow (json : bool)
| AntispamSet (enabled : option bool) (possible_spam definite_spam : option Z) (max_duration : option bytes)
| SetChecks (from_json : option bytes) (flags : CheckFlags)
| AntispamAddAllowIp (ip : bytes)
| AntispamRemoveAllowIp (ip : bytes)
| AntispamAddAllowSender (sender : bytes)
| AntispamRemoveAllowSender (sender : bytes)
| AntispamAddAllowDomain (domain : bytes)
| AntispamRemoveAllowDomain (domain : bytes)
| AntispamAddAllowRecipient (recipient : bytes)
| AntispamRemoveAllowRecipient (recipient : bytes)
| AntispamAddBlockIp (ip : bytes)
| AntispamRemoveBlockIp (ip : bytes)
| AntispamAddBlockSender (sender : bytes)
| AntispamRemoveBlockSender (sender : bytes)
| AntispamAddBlockDomain (domain : bytes)
| AntispamRemoveBlockDomain (domain : bytes)
| AntispamAddBlockRecipient (recipient : bytes)
| AntispamRemoveBlockRecipient (recipient : bytes)
| AddDnsbl (zone : bytes) (weight_multiplier : f64) (reject_on_hit : bool)
| RemoveDnsbl (zone : bytes)
| AddSurbl (zone : bytes)
| RemoveSurbl (zone : bytes)
| AddScanner (name command timeout : bytes) (clean_exit_codes virus_exit_codes error_exit_codes : list Z)
    (virus_name_pattern : option bytes)
| RemoveScanner (name : bytes)
| ListScanners
| AddDomainOverride (domain : bytes) (possible_spam definite_spam : option Z) (disable_checks : list bytes)
| UpdateDomainOverride (domain : bytes) (possible_spam definite_spam : option Z) (disable_checks : option (list bytes))
| RemoveDomainOverride (domain : bytes)
| ListDomainOverrides
| ListEntries.

(** [AntispamChecksUpdate::default()] with the four general settings. *)
Definition general_update (enabled : option bool) (possible_spam definite_spam : option Z) (max_duration : option bytes)
  : AntispamChecksUpdate :=
  mkChecksUpdate enabled possible_spam definite_spam max_duration None None None None None None None None None None None
    None None None None None None None.

Definition mk_check (p : option bool * option f64) : option CheckFieldUpdate :=
  match p with (None, None) => None | (enabled, weight) => Some (mkCheckUpdate enabled weight) end.

(** Nothing is sent for the two larger sections when none of their flags is given; the tool has
    no flag for the last two fields of the first. *)
Definition mk_antivirus (u : AntivirusFieldUpdate) : option AntivirusFieldUpdate :=
  match au_enabled u, au_weight u, au_reject_on_virus u with
  | None, None, None => None
  | e, w, r => Some (mkAntivirusUpdate e w r None None)
  end.
Definition mk_residential (u : ResidentialSpfFieldUpdate) : option ResidentialSpfFieldUpdate :=
  match ru_enabled u, ru_weight u, ru_reject u, ru_check_pbl u, ru_pbl_zone u, ru_softfail_triggers u,
        ru_neutral_triggers u with
  | None, None, None, None, None, None, None => None
  | _, _, _, _, _, _, _ => Some u
  end.

Definition checks_update (f : CheckFlags) : AntispamChecksUpdate :=
  mkChecksUpdate None None None None
    (mk_check (cf_dnsbl f)) (mk_check (cf_spf f)) (mk_check (cf_dkim f)) (mk_check (cf_dmarc f))
    (mk_check (cf_rdns f)) (mk_check (cf_helo f)) (mk_check (cf_early_talker f)) (mk_check (cf_content f))
    (mk_check (cf_url_analysis f)) (mk_check (cf_attachment f)) (mk_check (cf_html f)) (mk_check (cf_header_analysis f))
    (mk_check (cf_charset f)) (mk_check (cf_bulk f)) (mk_check (cf_ratio f))
    (mk_residential (cf_residential_spf f)) (mk_antivirus (cf_antivirus f)) None.

Definition needs_spf_severity (f : CheckFlags) : bool :=
  bool_decide (is_Some (cf_spf_fail_weight f)) || bool_decide (is_Some (cf_spf_softfail_weight f)) ||
  bool_decide (is_Some (cf_spf_neutral_weight f)) || bool_decide (is_Some (cf_spf_none_weight f)).

Definition assign_severity (f : CheckFlags) (s : SpfSeverityConfig) : SpfSeverityConfig :=
  s |> assign (cf_spf_fail_weight f) upd_sv_fail
    |> assign (cf_spf_softfail_weight f) upd_sv_softfail
    |> assign (cf_spf_neutral_weight f) upd_sv_neutral
    |> assign (cf_spf_none_weight f) upd_sv_none.

Section AntispamCommands.
(** [serde_json::from_str] into an [AntispamChecksUpdate] *)
Context `{SerdeJson} (checks_from_str : bytes -> result AntispamChecksUpdate bytes).

Definition cli_set_checks (no_reload : bool) (from_json : option bytes) (f : CheckFlags) : cmd unit :=
  match from_json with
  | Some path =>
      ReadFile path (fun r =>
        match r with
        | Err e => bail (bs "failed to read " ++ quote path ++ bs ": " ++ e)
        | Ok content =>
            try update <- or_fail (bs "invalid JSON") (checks_from_str content);
            apply_edit no_reload (update_antispam_checks update) (bs "Antispam check settings updated from file.")
        end)
  | None =>
      (if needs_spf_severity f then
         try config <- load;
         editor (set_antispam_config (upd_fc_spf (upd_sf_severity (assign_severity f)) (cfg_antispam config)))
       else ok tt) ;;
      apply_edit no_reload (update_antispam_checks (checks_update f)) (bs "Antispam check settings updated.")
  end.

(** The checks of [Show] with their switches and weights, in the order of the table. *)
Definition shown_checks (a : AntispamConfig) : list (bytes * bool * f64) :=
  let weighed name c := (bs name, cw_enabled c, cw_weight c) in
  [(bs "dnsbl", dn_enabled (fc_dnsbl a), dn_weight (fc_dnsbl a)); (bs "spf", sf_enabled (fc_spf a), sf_weight (fc_spf a));
   weighed "dkim" (fc_dkim a); (bs "dmarc", dm_enabled (fc_dmarc a), dm_weight (fc_dmarc a)); weighed "rdns" (fc_rdns a);
   weighed "helo" (fc_helo a); weighed "early_talker" (fc_early_talker a);
   (bs "content", ct_enabled (fc_content a), ct_weight (fc_content a));
   (bs "url_analysis", ua_enabled (fc_url_analysis a), ua_weight (fc_url_analysis a));
   (bs "attachment", ac_enabled (fc_attachment a), ac_weight (fc_attachment a)); weighed "html" (fc_html a);
   weighed "header_analysis" (fc_header_analysis a); weighed "charset" (fc_charset a); weighed "bulk" (fc_bulk a);
   weighed "ratio" (fc_ratio a); (bs "antivirus", av_enabled (fc_antivirus a), av_cfg_weight (fc_antivirus a));
   (bs "residential_spf", rs_enabled (fc_residential_spf a), rs_weight (fc_residential_spf a))].

Definition check_json (a : AntispamConfig) (c : bytes * bool * f64) : bytes * json :=
  let '(name, enabled, weight) := c in
  (name, JObject ([(bs "enabled", JBool enabled); (bs "weight", jfloat weight)] ++
                  if bool_decide (name = bs "residential_spf")
                  then [(bs "neutral_triggers", JBool (rs_neutral_triggers (fc_residential_spf a)))] else [])).

Definition cli_antispam_show (json : bool) : cmd unit :=
  try config <- load;
  let a := cfg_antispam config in
  if json then
    print_json (JObject [(bs "enabled", JBool (fc_enabled a)); (bs "possible_spam_threshold", jnum (possible_spam_threshold a));
                         (bs "definite_spam_threshold", jnum (definite_spam_threshold a));
                         (bs "max_check_duration", JString (max_check_duration a));
                         (bs "checks", JObject (check_json a <$> shown_checks a))])
  else
    say_all [bs "Antispam Configuration"; bs "======================"; bs "Enabled:         " ++ show_bool (fc_enabled a);
             bs "Possible Spam:   " ++ show (possible_spam_threshold a) ++ bs "%";
             bs "Definite Spam:   " ++ show (definite_spam_threshold a) ++ bs "%";
             bs "Max Duration:    " ++ max_check_duration a; []; bs "Checks:"] ;;
    print_table [bs "CHECK"; bs "ENABLED"; bs "WEIGHT"]
      ((fun '(name, enabled, weight) => [name; yes_no enabled; show_f64 weight]) <$> shown_checks a).

Definition cli_list_overrides : cmd unit :=
  try config <- load;
  let l := domain_overrides (cfg_antispam config) in
  let threshold o := match o with Some v => show v | None => bs "(global)" end in
  if is_nil l then say (bs "No domain overrides configured.")
  else
    print_table [bs "DOMAIN"; bs "POSSIBLE%"; bs "DEFINITE%"; bs "DISABLED CHECKS"]
      ((fun d => [do_domain d; threshold (do_possible_spam_threshold d); threshold (do_definite_spam_threshold d);
                  join (bs ", ") (do_disabled_checks d)]) <$> l).

Definition list_rows (action : bytes) (l : AntispamListConfig) : list (list bytes) :=
  ((fun x => [action; bs "ip"; x]) <$> li_ips l) ++ ((fun x => [action; bs "sender"; x]) <$> li_senders l) ++
  ((fun x => [action; bs "domain"; x]) <$> li_sender_domains l) ++
  ((fun x => [action; bs "recipient"; x]) <$> li_recipients l).

Definition cli_list_entries : cmd unit :=
  try config <- load;
  let rows := list_rows (bs "allow") (fc_allow (cfg_antispam config)) ++
              list_rows (bs "block") (fc_block (cfg_antispam config)) in
  if is_nil rows then say (bs "No antispam list entries configured.")
  else print_table [bs "ACTION"; bs "TYPE"; bs "VALUE"] rows.

Definition cli_update_override (no_reload : bool) (domain : bytes) (possible_spam definite_spam : option Z)
    (disable_checks : option (list bytes)) : cmd unit :=
  try config <- load;
  try entry <- find_or do_domain domain (domain_overrides (cfg_antispam config))
    (bs "domain override for " ++ quote domain ++ bs " not found");
  let entry := entry
    |> assign (Some <$> possible_spam) upd_do_possible_spam_threshold
    |> assign (Some <$> definite_spam) upd_do_definite_spam_threshold
    |> assign disable_checks upd_do_disabled_checks in
  apply_edit no_reload (update_antispam_domain_override domain entry)
    (bs "Domain override for " ++ quote domain ++ bs " updated.").

Definition cli_antispam (no_reload : bool) (a : AntispamAction) : cmd unit :=
  let say_done what x verb := bs what ++ quote x ++ bs verb in
  match a with
  | AntispamShow json => cli_antispam_show json
  | AntispamSet enabled possible_spam definite_spam max_duration =>
      apply_edit no_reload (update_antispam_checks (general_update enabled possible_spam definite_spam max_duration))
        (bs "Antispam settings updated.")
  | SetChecks from_json flags => cli_set_checks no_reload from_json flags
  | AntispamAddAllowIp ip =>
      apply_edit no_reload (add_antispam_allow_ip ip) (say_done "IP " ip " added to allow list.")
  | AntispamRemoveAllowIp ip =>
      apply_edit no_reload (remove_antispam_allow_ip ip) (say_done "IP " ip " removed from allow list.")
  | AntispamAddAllowSender sender =>
      apply_edit no_reload (add_antispam_allow_sender sender) (say_done "Sender " sender " added to allow list.")
  | AntispamRemoveAllowSender sender =>
      apply_edit no_reload (remove_antispam_allow_sender sender) (say_done "Sender " sender " removed from allow list.")
  | AntispamAddAllowDomain domain =>
      apply_edit no_reload (add_antispam_allow_domain domain) (say_done "Domain " domain " added to allow list.")
  | AntispamRemoveAllowDomain domain =>
      apply_edit no_reload (remove_antispam_allow_domain domain) (say_done "Domain " domain " removed from allow list.")
  | AntispamAddAllowRecipient recipient =>
      apply_edit no_reload (add_antispam_allow_recipient recipient) (say_done "Recipient " recipient " added to allow list.")
  | AntispamRemoveAllowRecipient recipient =>
      apply_edit no_reload (remove_antispam_allow_recipient recipient) (say_done "Recipient " recipient " removed from allow list.")
  | AntispamAddBlockIp ip =>
      apply_edit no_reload (add_antispam_block_ip ip) (say_done "IP " ip " added to block list.")
  | AntispamRemoveBlockIp ip =>
      apply_edit no_reload (remove_antispam_block_ip ip) (say_done "IP " ip " removed from block list.")
  | AntispamAddBlockSender sender =>
      apply_edit no_reload (add_antispam_block_sender sender) (say_done "Sender " sender " added to block list.")
  | AntispamRemoveBlockSender sender =>
      apply_edit no_reload (remove_antispam_block_sender sender) (say_done "Sender " sender " removed from block list.")
  | AntispamAddBlockDomain domain =>
      apply_edit no_reload (add_antispam_block_domain domain) (say_done "Domain " domain " added to block list.")
  | AntispamRemoveBlockDomain domain =>
      apply_edit no_reload (remove_antispam_block_domain domain) (say_done "Domain " domain " removed from block list.")
  | AntispamAddBlockRecipient recipient =>
      apply_edit no_reload (add_antispam_block_recipient recipient) (say_done "Recipient " recipient " added to block list.")
  | AntispamRemoveBlockRecipient recipient =>
      apply_edit no_reload (remove_antispam_block_recipient recipient) (say_done "Recipient " recipient " removed from block list.")
  | AddDnsbl zone weight_multiplier reject_on_hit =>
      apply_edit no_reload (add_antispam_dnsbl_zone (mkDnsblEntry zone weight_multiplier reject_on_hit))
        (say_done "DNSBL zone " zone " added.")
  | RemoveDnsbl zone => apply_edit no_reload (remove_antispam_dnsbl_zone zone) (say_done "DNSBL zone " zone " removed.")
  | AddSurbl zone => apply_edit no_reload (add_antispam_surbl_zone zone) (say_done "SURBL zone " zone " added.")
  | RemoveSurbl zone => apply_edit no_reload (remove_antispam_surbl_zone zone) (say_done "SURBL zone " zone " removed.")
  | AddScanner name command timeout clean virus error pattern =>
      apply_edit no_reload (add_antispam_scanner (mkScannerConfig name command clean virus error timeout pattern))
        (say_done "Scanner " name " added.")
  | RemoveScanner name => apply_edit no_reload (remove_antispam_scanner name) (say_done "Scanner " name " removed.")
  | ListScanners =>
      try config <- load;
      let l := av_scanners (fc_antivirus (cfg_antispam config)) in
      if is_nil l then say (bs "No antivirus scanners configured.")
      else print_table [bs "NAME"; bs "COMMAND"; bs "TIMEOUT"] ((fun s => [sn_name s; sn_command s; sn_timeout s]) <$> l)
  | AddDomainOverride domain possible_spam definite_spam disable_checks =>
      apply_edit no_reload (add_antispam_domain_override (mkOverride domain possible_spam definite_spam disable_checks))
        (say_done "Domain override for " domain " added.")
  | UpdateDomainOverride domain possible_spam definite_spam disable_checks =>
      cli_update_override no_reload domain possible_spam definite_spam disable_checks
  | RemoveDomainOverride domain =>
      apply_edit no_reload (remove_antispam_domain_override domain) (say_done "Domain override for " domain " removed.")
  | ListDomainOverrides => cli_list_overrides
  | ListEntries => cli_list_entries
  end.
End AntispamCommands.
