(* ===== verification/WebApi.v ===== *)
(** * The web interface: settings

    The handlers of [serverwall-webui/src/routes] on frontends, backends, rule sets, access
    lists, profiles and the general and security settings; [WebMail.v] has those on mail.  A
    handler is a program of [Admin.v] that answers with a status and a JSON value.  Axum has
    parsed the body; the members of an object are in no particular order. *)

From S2P Require Import Prelude RustStr Float64 Net External Toml Schema Fields Fs Config Proto Acl Admin Cli.
Open Scope Z_scope.

Definition response : Type := Z * json.
Definition OK : Z := 200.
Definition CREATED : Z := 201.
Definition BAD_REQUEST : Z := 400.
Definition FORBIDDEN : Z := 403.
Definition NOT_FOUND : Z := 404.
Definition UNPROCESSABLE_ENTITY : Z := 422.
Definition INTERNAL_SERVER_ERROR : Z := 500.

Definition error_json (e : bytes) : json := JObject [(bs "error", JString e)].
Definition done_json (what : string) : json := JObject [(bs what, JBool true)].

Definition jbool : bool -> json := JBool.
Definition jstr : bytes -> json := JString.
Definition joptnum (o : option Z) : json := match o with Some n => jnum n | None => JNull end.
Definition joptbool (o : option bool) : json := match o with Some b => JBool b | None => JNull end.
Definition jint (n : Z) : json := if 0 <=? n then JNumber n else JFloat (f_of_Z n).
Definition jlist {A} (f : A -> json) (l : list A) : json := JArray (f <$> l).

(** [body.get(k).and_then(|v| v.as_str())] *)
Definition body_get (k : string) (body : json) : option json :=
  match body with JObject fields => json_get fields (bs k) | _ => None end.
Definition body_str (k : string) (body : json) : option bytes := body_get k body ≫= as_str.

(** The end of every handler that changes the configuration: on success the copy in memory is
    read again and the daemon is signalled, with no regard to whether that works. *)
Definition edit_answer (f : change) (good : response) (bad : Z) : prog response :=
  EditConfig f (fun r =>
    match r with
    | Ok _ => RefreshCache (SendReload DEFAULT_PID_FILE (fun _ => Ret good))
    | Err e => Ret (bad, error_json (show_error e))
    end).
Definition apply (f : change) : prog response := edit_answer f (OK, done_json "ok") BAD_REQUEST.
Definition create_answer (f : change) : prog response := edit_answer f (CREATED, done_json "created") BAD_REQUEST.
Definition update_answer (f : change) : prog response := edit_answer f (OK, done_json "updated") NOT_FOUND.
Definition delete_answer (f : change) : prog response := edit_answer f (OK, done_json "deleted") NOT_FOUND.

(** A handler that only reads the copy in memory, and one that looks up an entry of it. *)
Definition view (f : ServerWallConfig -> json) : prog response := CachedConfig (fun c => Ret (OK, f c)).
Definition view_entry {A} (get : ServerWallConfig -> list A) (key : A -> bytes) (name : bytes) (f : A -> json)
    (missing : string) : prog response :=
  CachedConfig (fun c =>
    match List.find (fun x => bool_decide (key x = name)) (get c) with
    | Some x => Ret (OK, f x)
    | None => Ret (NOT_FOUND, error_json (bs missing))
    end).

(** [iter().position(..)] and the assignment at that index *)
Fixpoint replace_first {A} (key : A -> bytes) (name : bytes) (x : A) (l : list A) : option (list A) :=
  match l with
  | [] => None
  | y :: l => if bool_decide (key y = name) then Some (x :: l) else (y ::.) <$> replace_first key name x l
  end.

Section Validated.
Context `{IpNetworkLib}.

(** The proposed configuration is validated before the file is touched. *)
Definition validated (test : ServerWallConfig) (k : prog response) : prog response :=
  match validate_config test with
  | Err e => Ret (UNPROCESSABLE_ENTITY, error_json (show_error e))
  | Ok _ => k
  end.

(** ** [frontends.rs] *)

Definition frontends_create (frontend : FrontendConfig) : prog response :=
  CachedConfig (fun c =>
    validated (upd_cfg_frontend (fun l => l ++ [frontend]) c) (create_answer (add_frontend frontend))).

Definition frontends_update (name : bytes) (frontend : FrontendConfig) : prog response :=
  let frontend := upd_fr_name (fun _ => name) frontend in
  CachedConfig (fun c =>
    match replace_first fr_name name frontend (cfg_frontend c) with
    | None => Ret (NOT_FOUND, error_json (bs "frontend not found"))
    | Some l => validated (upd_cfg_frontend (fun _ => l) c) (update_answer (update_frontend name frontend))
    end).

Definition frontends_delete (name : bytes) : prog response := delete_answer (remove_frontend name).

Definition frontend_row (f : FrontendConfig) : json :=
  JObject [(bs "name", jstr (fr_name f)); (bs "protocol", jstr (ProtocolType_name (fr_protocol f)));
    (bs "listen", jstrings (fr_listen f)); (bs "backend_pool", jstr (fr_backend_pool f));
    (bs "balancer", jstr (BalanceMethod_name (fr_balancer f))); (bs "session_cookie", jstr (session_cookie f));
    (bs "waf_enabled", jbool (fr_waf_enabled f)); (bs "waf_ruleset", jopt (fr_waf_ruleset f));
    (bs "security_profile", jopt (fr_security_profile f)); (bs "tls_min_version", jstr (fr_tls_min_version f));
    (bs "access_log", jbool (fr_access_log f)); (bs "log_file", jopt (fr_log_file f));
    (bs "log_format", jstr (LogFormat_name (fr_log_format f))); (bs "log_profile", jopt (fr_log_profile f));
    (bs "max_connections", joptnum (fr_max_connections f))].

Definition frontends_list : prog response :=
  view (fun c => JObject [(bs "frontends", jlist frontend_row (cfg_frontend c))]).

Definition custom_header_json (x : CustomHeader) : json :=
  JObject [(bs "name", jstr (ch_name x)); (bs "value", jstr (ch_value x))].

Definition frontend_headers_json (h : FrontendHeadersConfig) : json :=
  JObject [(bs "x_forwarded_for", jbool (x_forwarded_for h)); (bs "x_real_ip", jbool (x_real_ip h));
    (bs "x_forwarded_proto", jbool (x_forwarded_proto h)); (bs "x_forwarded_host", jbool (x_forwarded_host h));
    (bs "x_forwarded_port", jbool (x_forwarded_port h)); (bs "x_request_id", jbool (x_request_id h));
    (bs "custom", jlist custom_header_json (custom h))].
Definition smtp_headers_json (h : SmtpHeadersConfig) : json :=
  JObject [(bs "add_received", jbool (add_received h)); (bs "x_forwarded_for", jbool (sh_x_forwarded_for h))].
Definition frontend_acl_json (a : FrontendAclConfig) : json :=
  JObject [(bs "allow_list", jstrings (fa_allow_list a)); (bs "block_list", jstrings (fa_block_list a));
    (bs "default_action", jstr (AclDefaultAction_name (fa_default_action a)))].

Definition frontend_json (f : FrontendConfig) : json :=
  JObject [(bs "name", jstr (fr_name f)); (bs "protocol", jstr (ProtocolType_name (fr_protocol f)));
    (bs "listen", jstrings (fr_listen f)); (bs "backend_pool", jstr (fr_backend_pool f));
    (bs "balancer", jstr (BalanceMethod_name (fr_balancer f))); (bs "session_cookie", jstr (session_cookie f));
    (bs "waf_enabled", jbool (fr_waf_enabled f)); (bs "waf_ruleset", jopt (fr_waf_ruleset f));
    (bs "security_profile", jopt (fr_security_profile f)); (bs "tls_cert", jopt (fr_tls_cert f));
    (bs "tls_chain", jopt (fr_tls_chain f)); (bs "tls_key", jopt (fr_tls_key f));
    (bs "tls_key_password", jopt (fr_tls_key_password f)); (bs "tls_pfx", jopt (fr_tls_pfx f));
    (bs "tls_pfx_password", jopt (fr_tls_pfx_password f)); (bs "tls_min_version", jstr (fr_tls_min_version f));
    (bs "tls_ciphers", jstrings (fr_tls_ciphers f)); (bs "access_log", jbool (fr_access_log f));
    (bs "log_file", jopt (fr_log_file f)); (bs "log_format", jstr (LogFormat_name (fr_log_format f)));
    (bs "log_profile", jopt (fr_log_profile f)); (bs "max_connections", joptnum (fr_max_connections f));
    (bs "headers", frontend_headers_json (fr_headers f)); (bs "smtp_headers", smtp_headers_json (fr_smtp_headers f));
    (bs "acl", frontend_acl_json (fr_acl f))].

Definition frontends_get (name : bytes) : prog response :=
  view_entry cfg_frontend fr_name name (fun f => JObject [(bs "frontend", frontend_json f)]) "frontend not found".

(** ** [backends.rs] *)

Definition backend_json (b : BackendConfig) : json :=
  JObject [(bs "name", jstr (bc_name b)); (bs "address", jstr (bc_address b)); (bs "weight", jnum (bc_weight b));
    (bs "tls", jbool (bc_tls b)); (bs "tls_verify", joptbool (bc_tls_verify b)); (bs "tls_sni", jopt (bc_tls_sni b));
    (bs "max_connections", joptnum (bc_max_connections b)); (bs "enabled", jbool (bc_enabled b))].

Definition backends_list : prog response :=
  view (fun c => JObject [(bs "pools", jlist (fun p => JObject
    [(bs "name", jstr (pc_name p)); (bs "health_check_interval", jstr (health_check_interval p));
     (bs "health_check_timeout", jstr (health_check_timeout p));
     (bs "health_check_type", jstr (HealthCheckType_name (health_check_type p)));
     (bs "health_check_method", jstr (health_check_method p)); (bs "health_check_path", jopt (health_check_path p));
     (bs "backend_count", jnum (Z.of_nat (length (pc_backend p)))); (bs "backends", jlist backend_json (pc_backend p))])
    (cfg_backend_pool c))]).

Definition pool_json (p : BackendPoolConfig) : json :=
  JObject [(bs "name", jstr (pc_name p)); (bs "health_check_type", jstr (HealthCheckType_name (health_check_type p)));
    (bs "health_check_method", jstr (health_check_method p)); (bs "health_check_interval", jstr (health_check_interval p));
    (bs "health_check_timeout", jstr (health_check_timeout p)); (bs "health_check_path", jopt (health_check_path p));
    (bs "health_check_expect", jnum (health_check_expect p)); (bs "health_check_tls", jbool (health_check_tls p));
    (bs "health_check_ignore_cert", jbool (health_check_ignore_cert p)); (bs "backends", jlist backend_json (pc_backend p))].

Definition backends_get (pool_name : bytes) : prog response :=
  view_entry cfg_backend_pool pc_name pool_name (fun p => JObject [(bs "pool", pool_json p)]) "backend pool not found".

Definition backends_create (pool : BackendPoolConfig) : prog response :=
  CachedConfig (fun c =>
    validated (upd_cfg_backend_pool (fun l => l ++ [pool]) c) (create_answer (add_backend_pool pool))).

Definition backends_update (pool_name : bytes) (pool : BackendPoolConfig) : prog response :=
  CachedConfig (fun c =>
    match replace_first pc_name pool_name pool (cfg_backend_pool c) with
    | None => Ret (NOT_FOUND, error_json (bs "backend pool not found"))
    | Some l =>
        validated (upd_cfg_backend_pool (fun _ => l) c)
          (edit_answer (update_backend_pool pool_name pool) (OK, done_json "updated") BAD_REQUEST)
    end).

Definition backends_delete (pool_name : bytes) : prog response := delete_answer (remove_backend_pool pool_name).
Definition add_server (pool_name : bytes) (backend : BackendConfig) : prog response :=
  create_answer (add_backend pool_name backend).
Definition remove_server (pool_name backend_name : bytes) : prog response :=
  delete_answer (remove_backend pool_name backend_name).

(** ** [webui_settings.rs] *)

Definition webui_settings_get : prog response :=
  view (fun c => JObject [(bs "allow_list", jstrings (webui_allow_list (cfg_webui c)))]).

Definition webui_settings_update (allow_list : list bytes) : prog response :=
  match IpMatcher_new allow_list with
  | Err e => Ret (BAD_REQUEST, error_json e)
  | Ok _ =>
      EditConfig (update_webui_allow_list allow_list) (fun r =>
        match r with
        | Ok _ => RefreshCache (Ret (OK, done_json "ok"))
        | Err e => Ret (BAD_REQUEST, error_json (show_error e))
        end)
  end.
End Validated.

(** ** [waf.rs]: the rule set [default] is protected *)

Definition custom_rule_json (cr : WafCustomRule) : json :=
  JObject [(bs "id", jnum (cr_id cr)); (bs "description", jstr (cr_description cr)); (bs "phase", jnum (cr_phase cr));
    (bs "action", jstr (cr_action cr)); (bs "match_field", jstr (cr_match_field cr));
    (bs "operator", jstr (cr_operator cr)); (bs "pattern", jstr (cr_pattern cr))].

Definition ruleset_json (r : WafRulesetConfig) : json :=
  JObject [(bs "name", jstr (rs_name r)); (bs "mode", jstr (ConfigWafMode_name (rs_mode r)));
    (bs "anomaly_threshold", jnum (rs_anomaly_threshold r)); (bs "paranoia_level", jnum (rs_paranoia_level r));
    (bs "rules_dir", jopt (rs_rules_dir r));
    (bs "custom_rules", jlist custom_rule_json (rs_custom_rules r));
    (bs "exclusions", JObject
      [(bs "paths", jstrings (ex_paths (rs_exclusions r)));
       (bs "ip_addresses", jstrings (ex_ip_addresses (rs_exclusions r)))])].

Definition waf_list : prog response :=
  view (fun c => JObject [(bs "waf_rules", jlist ruleset_json (cfg_waf_ruleset c))]).
Definition waf_get (name : bytes) : prog response :=
  view_entry cfg_waf_ruleset rs_name name ruleset_json "ruleset not found".
Definition waf_create (ruleset : WafRulesetConfig) : prog response := create_answer (add_waf_ruleset ruleset).

Definition waf_update (name : bytes) (ruleset : WafRulesetConfig) : prog response :=
  if bool_decide (name = bs "default")
  then Ret (FORBIDDEN, error_json (bs "cannot modify the default WAF ruleset"))
  else update_answer (update_waf_ruleset name (upd_rs_name (fun _ => name) ruleset)).

Definition waf_clone (name : bytes) (body : json) : prog response :=
  match body_str "new_name" body with
  | Some (c :: new_name) =>
      CachedConfig (fun config =>
        match List.find (fun r => bool_decide (rs_name r = name)) (cfg_waf_ruleset config) with
        | None => Ret (NOT_FOUND, error_json (bs "ruleset not found"))
        | Some source => create_answer (add_waf_ruleset (upd_rs_name (fun _ => c :: new_name) source))
        end)
  | _ => Ret (BAD_REQUEST, error_json (bs "new_name is required"))
  end.

Definition waf_delete (name : bytes) : prog response :=
  if bool_decide (name = bs "default")
  then Ret (BAD_REQUEST, error_json (bs "cannot delete the default WAF ruleset"))
  else delete_answer (remove_waf_ruleset name).

(** ** [acl.rs] *)

Definition acl_list : prog response :=
  view (fun c => JObject [(bs "acls", jlist (fun f => JObject
    [(bs "frontend", jstr (fr_name f)); (bs "allow_list", jstrings (fa_allow_list (fr_acl f)));
     (bs "block_list", jstrings (fa_block_list (fr_acl f)));
     (bs "default_action", jstr (AclDefaultAction_name (fa_default_action (fr_acl f))))]) (cfg_frontend c))]).

Definition global_list : prog response :=
  view (fun c =>
    let ip := sacl_ip (sec_acl (cfg_security c)) in
    JObject [(bs "allow", jstrings (ia_allow ip)); (bs "block", jstrings (ia_block ip))]).

(** A handler that takes one text member of the body. *)
Definition with_member (k : string) (body : json) (f : bytes -> prog response) : prog response :=
  match body_str k body with
  | Some s => f s
  | None => Ret (BAD_REQUEST, error_json (bs k ++ bs " required"))
  end.

Definition global_allow_add (body : json) : prog response := with_member "ip" body (fun ip => apply (add_acl_allow ip)).
Definition global_allow_remove (ip : bytes) : prog response := apply (remove_acl_ip ip).
Definition global_block_add (body : json) : prog response := with_member "ip" body (fun ip => apply (add_acl_block ip)).
Definition global_block_remove (ip : bytes) : prog response := apply (remove_acl_ip ip).

(** The stubs kept for compatibility. *)
Definition acl_get (id : bytes) : prog response :=
  Ret (NOT_FOUND, error_json (bs "use /api/acl/global for global IP ACL management")).
Definition acl_create : prog response :=
  Ret (BAD_REQUEST, error_json (bs "use /api/acl/global/allow or /api/acl/global/block")).
Definition acl_update (id : bytes) : prog response :=
  Ret (NOT_FOUND, error_json (bs "use /api/acl/global for global IP ACL management")).
Definition acl_delete (id : bytes) : prog response :=
  Ret (NOT_FOUND, error_json (bs "use /api/acl/global/allow or /api/acl/global/block")).

(** ** [acme_settings.rs], [global_settings.rs], [reload.rs] *)

Definition acme_json (a : AcmeConfig) : json :=
  JObject [(bs "enabled", jbool (acme_enabled a)); (bs "email", jopt (acme_email a));
    (bs "directory_url", jstr (acme_directory_url a)); (bs "challenge_type", jstr (acme_challenge_type a));
    (bs "storage_dir", jstr (acme_storage_dir a)); (bs "auto_renew", jbool (acme_auto_renew a));
    (bs "renew_before_days", jnum (acme_renew_before_days a));
    (bs "challenge_allowed_cidrs", jstrings (acme_challenge_allowed_cidrs a))].
Definition acme_get : prog response := view (fun c => acme_json (cfg_acme c)).
Definition acme_update (acme : AcmeConfig) : prog response := apply (update_acme_config acme).

Definition global_json (g : GlobalConfig) : json :=
  JObject [(bs "daemon_name", jstr (gc_daemon_name g)); (bs "pid_file", jopt (gc_pid_file g));
    (bs "worker_threads", jnum (gc_worker_threads g)); (bs "max_connections", jnum (gc_max_connections g));
    (bs "log_dir", jstr (gc_log_dir g)); (bs "cert_dir", jstr (gc_cert_dir g)); (bs "config_dir", jopt (gc_config_dir g));
    (bs "log_level", jstr (gc_log_level g)); (bs "graceful_drain_secs", jnum (gc_graceful_drain_secs g))].
Definition global_get : prog response := view (fun c => global_json (cfg_global c)).
Definition global_update (global : GlobalConfig) : prog response := apply (update_global_config global).

Definition api_reload : prog response :=
  RefreshCache (SendReload DEFAULT_PID_FILE (fun r =>
    match r with
    | Ok _ =>
        Ret (OK, JObject [(bs "reloaded", JBool true); (bs "message", JString (bs "SIGHUP sent to serverwall daemon"))])
    | Err e =>
        Ret (INTERNAL_SERVER_ERROR, JObject
          [(bs "reloaded", JBool false); (bs "error", JString (show_error e));
           (bs "hint", JString (bs "Is serverwall running? Check that the PID file exists."))])
    end)).

(** ** [log_profiles.rs] *)

Definition log_profile_json (p : LogProfile) : json :=
  JObject [(bs "name", jstr (lp_name p)); (bs "description", jstr (lp_description p));
    (bs "format", jstr (LogFormat_name (lp_format p))); (bs "access_log", jbool (lp_access_log p))].

Definition log_profiles_list : prog response :=
  view (fun c => JObject [(bs "profiles", jlist log_profile_json (cfg_log_profiles c))]).
Definition log_profiles_get (name : bytes) : prog response :=
  view_entry cfg_log_profiles lp_name name log_profile_json "Logging profile not found".
Definition log_profiles_create (p : LogProfile) : prog response := create_answer (add_log_profile p).
Definition log_profiles_update (name : bytes) (p : LogProfile) : prog response :=
  update_answer (update_log_profile name (upd_lp_name (fun _ => name) p)).
Definition log_profiles_delete (name : bytes) : prog response := delete_answer (remove_log_profile name).

(** ** [security_settings.rs] *)

Definition tls_json (t : SecurityTlsConfig) : json :=
  JObject [(bs "min_version", jstr (st_min_version t)); (bs "cipher_suites", jstrings (st_cipher_suites t));
    (bs "ocsp_stapling", jbool (st_ocsp_stapling t)); (bs "hsts_max_age", joptnum (st_hsts_max_age t));
    (bs "hsts_include_subdomains", jbool (st_hsts_include_subdomains t));
    (bs "backend_tls_verify", jbool (st_backend_tls_verify t)); (bs "backend_ca_bundle", jopt (st_backend_ca_bundle t))].
Definition geo_json (g : GeoConfig) : json :=
  JObject [(bs "enabled", jbool (geo_enabled g)); (bs "database_path", jopt (geo_database_path g));
    (bs "block_countries", jstrings (geo_block_countries g)); (bs "allow_countries", jstrings (geo_allow_countries g))].
Definition headers_json (h : SecurityHeadersConfig) : json :=
  JObject [(bs "add_x_content_type_options", jbool (add_x_content_type_options h));
    (bs "add_x_frame_options", jopt (add_x_frame_options h)); (bs "add_referrer_policy", jopt (add_referrer_policy h));
    (bs "add_content_security_policy", jopt (add_content_security_policy h));
    (bs "remove_server_header", jbool (remove_server_header h)); (bs "remove_x_powered_by", jbool (remove_x_powered_by h));
    (bs "compress_responses", jbool (compress_responses h)); (bs "compress_min_size", jnum (compress_min_size h));
    (bs "compress_types", jstrings (compress_types h))].
Definition bot_json (b : BotDetectionConfig) : json :=
  JObject [(bs "enabled", jbool (bot_enabled b)); (bs "challenge_suspicious", jbool (challenge_suspicious b));
    (bs "known_good_bots", jstrings (known_good_bots b)); (bs "verify_good_bots", jbool (verify_good_bots b));
    (bs "ja3_fingerprint_block_list", jstrings (ja3_fingerprint_block_list b))].
Definition cookies_json (k : CookieSecurityConfig) : json :=
  JObject [(bs "enforce_secure_flag", jbool (enforce_secure_flag k));
    (bs "enforce_httponly_flag", jbool (enforce_httponly_flag k)); (bs "enforce_samesite", jopt (enforce_samesite k));
    (bs "max_cookie_size", jnum (max_cookie_size k))].
Definition path_pattern_json (p : PathPatternConfig) : json :=
  JObject [(bs "action", jstr (pp_action p)); (bs "patterns", jstrings (pp_patterns p))].
Definition acl_json (a : SecurityAclConfig) : json :=
  JObject [(bs "default", jstr (AclDefaultAction_name (sacl_default a))); (bs "acl_bypass_waf", jbool (sacl_acl_bypass_waf a));
    (bs "ip", JObject [(bs "allow", jstrings (ia_allow (sacl_ip a))); (bs "block", jstrings (ia_block (sacl_ip a)))]);
    (bs "domain_allow", jstrings (da_allow (sacl_domain a))); (bs "domain_block", jstrings (da_block (sacl_domain a)));
    (bs "path_patterns", jlist path_pattern_json (sacl_path_patterns a))].
Definition scope_json (s : RateLimitScope) : json :=
  JObject [(bs "type", jstr (scope_type s)); (bs "pattern", jopt (scope_pattern s))].
Definition rate_limit_json (r : RateLimitConfig) : json :=
  JObject [(bs "name", jstr (rlc_name r)); (bs "key", jstr (rlc_key r)); (bs "requests", jnum (rlc_requests r));
    (bs "window_secs", jnum (rlc_window_secs r)); (bs "burst", joptnum (rlc_burst r));
    (bs "scope", match rlc_scope r with Some s => scope_json s | None => JNull end)].

Definition security_json (s : SecurityConfig) : json :=
  JObject [(bs "tls", tls_json (sec_tls s)); (bs "geo", geo_json (sec_geo s)); (bs "headers", headers_json (sec_headers s));
    (bs "bot_detection", bot_json (sec_bot_detection s)); (bs "cookies", cookies_json (sec_cookies s));
    (bs "acl", acl_json (sec_acl s)); (bs "rate_limits", jlist rate_limit_json (sec_rate_limit s))].
Definition security_get : prog response := view (fun c => security_json (cfg_security c)).

(** The bodies: an absent member leaves the setting of the copy in memory. *)
Record TlsBody := mkTlsBody {
  tb_min_version : option bytes; tb_cipher_suites : option (list bytes); tb_ocsp_stapling : option bool;
  tb_hsts_max_age : option (option Z); tb_hsts_include_subdomains : option bool; tb_backend_tls_verify : option bool;
  tb_backend_ca_bundle : option (option bytes) }.
Record GeoBody := mkGeoBody {
  gb_enabled : option bool; gb_database_path : option (option bytes); gb_block_countries : option (list bytes);
  gb_allow_countries : option (list bytes) }.
Record HeadersBody := mkHeadersBody {
  hb_add_x_content_type_options : option bool; hb_add_x_frame_options : option (option bytes);
  hb_add_referrer_policy : option (option bytes); hb_add_content_security_policy : option (option bytes);
  hb_remove_server_header : option bool; hb_remove_x_powered_by : option bool; hb_compress_responses : option bool;
  hb_compress_min_size : option Z; hb_compress_types : option (list bytes) }.
Record BotBody := mkBotBody {
  bb_enabled : option bool; bb_challenge_suspicious : option bool; bb_known_good_bots : option (list bytes);
  bb_verify_good_bots : option bool; bb_ja3_fingerprint_block_list : option (list bytes) }.
Record CookiesBody := mkCookiesBody {
  kb_enforce_secure_flag : option bool; kb_enforce_httponly_flag : option bool;
  kb_enforce_samesite : option (option bytes); kb_max_cookie_size : option Z }.

Definition put_tls (b : TlsBody) : prog response :=
  CachedConfig (fun c =>
    let t := sec_tls (cfg_security c) in
    apply (update_security_tls (mkSecurityTls
      (default (st_min_version t) (tb_min_version b)) (default (st_cipher_suites t) (tb_cipher_suites b))
      (default (st_ocsp_stapling t) (tb_ocsp_stapling b)) (default (st_hsts_max_age t) (tb_hsts_max_age b))
      (default (st_hsts_include_subdomains t) (tb_hsts_include_subdomains b))
      (default (st_backend_tls_verify t) (tb_backend_tls_verify b))
      (default (st_backend_ca_bundle t) (tb_backend_ca_bundle b))))).

Definition put_geo (b : GeoBody) : prog response :=
  CachedConfig (fun c =>
    let g := sec_geo (cfg_security c) in
    apply (update_security_geo (mkGeoConfig
      (default (geo_enabled g) (gb_enabled b)) (default (geo_database_path g) (gb_database_path b))
      (default (geo_block_countries g) (gb_block_countries b)) (default (geo_allow_countries g) (gb_allow_countries b))))).

Definition put_headers (b : HeadersBody) : prog response :=
  CachedConfig (fun c =>
    let h := sec_headers (cfg_security c) in
    apply (update_security_headers (mkSecurityHeaders
      (default (add_x_content_type_options h) (hb_add_x_content_type_options b))
      (default (add_x_frame_options h) (hb_add_x_frame_options b))
      (default (add_referrer_policy h) (hb_add_referrer_policy b))
      (default (add_content_security_policy h) (hb_add_content_security_policy b))
      (default (remove_server_header h) (hb_remove_server_header b))
      (default (remove_x_powered_by h) (hb_remove_x_powered_by b))
      (default (compress_responses h) (hb_compress_responses b))
      (default (compress_min_size h) (hb_compress_min_size b)) (default (compress_types h) (hb_compress_types b))))).

Definition put_bot (b : BotBody) : prog response :=
  CachedConfig (fun c =>
    let d := sec_bot_detection (cfg_security c) in
    apply (update_security_bot (mkBotDetection
      (default (bot_enabled d) (bb_enabled b))
      (default (ja3_fingerprint_block_list d) (bb_ja3_fingerprint_block_list b))
      (default (challenge_suspicious d) (bb_challenge_suspicious b))
      (default (known_good_bots d) (bb_known_good_bots b)) (default (verify_good_bots d) (bb_verify_good_bots b))))).

Definition put_cookies (b : CookiesBody) : prog response :=
  CachedConfig (fun c =>
    let k := sec_cookies (cfg_security c) in
    apply (update_security_cookies (mkCookieSecurity
      (default (enforce_secure_flag k) (kb_enforce_secure_flag b))
      (default (enforce_httponly_flag k) (kb_enforce_httponly_flag b))
      (default (enforce_samesite k) (kb_enforce_samesite b)) (default (max_cookie_size k) (kb_max_cookie_size b))))).

Definition add_rate_limit (name : bytes) (key : option bytes) (requests window_secs : Z) (burst : option Z)
    (scope : option RateLimitScope) : prog response :=
  apply (add_security_rate_limit (mkRateLimit name (default (bs "ip") key) requests window_secs burst scope)).
Definition remove_rate_limit (name : bytes) : prog response := delete_answer (remove_security_rate_limit name).
Definition put_acl (acl : SecurityAclConfig) : prog response := apply (update_security_acl acl).

(** ** [security_profiles.rs] *)

Definition scanner_json (s : ScannerConfig) : json :=
  JObject [(bs "name", jstr (sn_name s)); (bs "command", jstr (sn_command s));
    (bs "clean_exit_codes", jlist jint (sn_clean_exit_codes s)); (bs "virus_exit_codes", jlist jint (sn_virus_exit_codes s));
    (bs "error_exit_codes", jlist jint (sn_error_exit_codes s)); (bs "timeout", jstr (sn_timeout s));
    (bs "virus_name_pattern", jopt (sn_virus_name_pattern s))].

Definition profile_antispam_json (a : SecurityProfileAntispam) : json :=
  let v := sp_antivirus a in
  JObject [(bs "enabled", jbool (sp_enabled a)); (bs "possible_spam_threshold", joptnum (sp_possible_spam_threshold a));
    (bs "definite_spam_threshold", joptnum (sp_definite_spam_threshold a));
    (bs "antivirus", JObject
      [(bs "enabled", jbool (av_enabled v)); (bs "weight", jfloat (av_cfg_weight v));
       (bs "reject_on_virus", jbool (av_reject_on_virus v)); (bs "on_scanner_error", jstr (av_on_scanner_error v));
       (bs "on_scanner_timeout", jstr (av_on_scanner_timeout v)); (bs "scanners", jlist scanner_json (av_scanners v))])].

Definition profile_json (p : SecurityProfile) : json :=
  let h := sp_headers p in let g := sp_geo p in let b := sp_bot_detection p in
  JObject [(bs "name", jstr (sp_name p)); (bs "description", jstr (sp_description p));
    (bs "profile_type", jstr (sp_profile_type p)); (bs "waf_enabled", jbool (sp_waf_enabled p));
    (bs "waf_ruleset", jopt (sp_waf_ruleset p));
    (bs "headers", JObject
      [(bs "add_x_content_type_options", jbool (add_x_content_type_options h));
       (bs "add_x_frame_options", jopt (add_x_frame_options h)); (bs "add_referrer_policy", jopt (add_referrer_policy h));
       (bs "add_content_security_policy", jopt (add_content_security_policy h));
       (bs "remove_server_header", jbool (remove_server_header h));
       (bs "remove_x_powered_by", jbool (remove_x_powered_by h))]);
    (bs "cookies", cookies_json (sp_cookies p));
    (bs "bot_detection", JObject
      [(bs "enabled", jbool (bot_enabled b)); (bs "challenge_suspicious", jbool (challenge_suspicious b));
       (bs "verify_good_bots", jbool (verify_good_bots b));
       (bs "ja3_fingerprint_block_list", jstrings (ja3_fingerprint_block_list b));
       (bs "known_good_bots", jstrings (known_good_bots b))]);
    (bs "geo", JObject
      [(bs "enabled", jbool (geo_enabled g)); (bs "block_countries", jstrings (geo_block_countries g));
       (bs "allow_countries", jstrings (geo_allow_countries g))]);
    (bs "min_version", jstr (sp_min_version p)); (bs "cipher_suites", jstrings (sp_cipher_suites p));
    (bs "hsts_max_age", joptnum (sp_hsts_max_age p)); (bs "hsts_include_subdomains", jbool (sp_hsts_include_subdomains p));
    (bs "ocsp_stapling", jbool (sp_ocsp_stapling p));
    (bs "antispam", match sp_antispam p with Some a => profile_antispam_json a | None => JNull end)].

Definition profiles_list : prog response :=
  view (fun c => JObject [(bs "profiles", jlist profile_json (cfg_security_profiles c))]).
Definition profiles_get (name : bytes) : prog response :=
  view_entry cfg_security_profiles sp_name name profile_json "profile not found".
Definition profiles_create (p : SecurityProfile) : prog response := create_answer (add_security_profile p).
Definition profiles_update (name : bytes) (p : SecurityProfile) : prog response :=
  update_answer (update_security_profile name (upd_sp_name (fun _ => name) p)).
Definition profiles_delete (name : bytes) : prog response := delete_answer (remove_security_profile name).
