(* ===== verification/WebMail.v ===== *)
(** * The web interface: mail

    The handlers of [routes/relay.rs], [dkim.rs], [dmarc_policy.rs], [spf.rs] and
    [antispam.rs]. *)

From S2P Require Import Prelude RustStr Float64 Net External Toml Schema Fields Fs Config Proto Admin Cli CliMail WebApi.
Open Scope Z_scope.
Open Scope admin_scope.

(** ** [relay.rs] *)

Definition dkim_domain_json (d : DkimDomainConfig) : json :=
  JObject [(bs "domain", jstr (dd_domain d)); (bs "selector", jstr (dd_selector d)); (bs "key_file", jstr (dd_key_file d));
    (bs "algorithm", jstr (dd_algorithm d))].

Definition relay_json (r : RelayConfig) : json :=
  let p := rel_outbound_policy r in
  JObject [(bs "enabled", jbool (rel_enabled r)); (bs "listen", jstrings (rel_listen r));
    (bs "hostname", jopt (rel_hostname r)); (bs "spool_dir", jstr (rel_spool_dir r));
    (bs "max_queue_size", jnum (rel_max_queue_size r)); (bs "delivery_threads", jnum (rel_delivery_threads r));
    (bs "trusted_hosts", JObject
      [(bs "hosts", jstrings (th_hosts (rel_trusted_hosts r)));
       (bs "require_tls", jbool (th_require_tls (rel_trusted_hosts r)))]);
    (bs "retry", JObject
      [(bs "intervals", jstrings (rc_intervals (rel_retry r))); (bs "max_age", jstr (rc_max_age (rel_retry r)));
       (bs "max_attempts", jnum (rc_max_attempts (rel_retry r)))]);
    (bs "tls", JObject
      [(bs "opportunistic", jbool (rt_opportunistic (rel_tls r)));
       (bs "verify_certificates", jbool (rt_verify_certificates (rel_tls r)));
       (bs "min_version", jstr (rt_min_version (rel_tls r)))]);
    (bs "outbound_policy", JObject
      [(bs "enabled", jbool (op_enabled p)); (bs "max_message_size", jnum (op_max_message_size p));
       (bs "max_recipients_per_message", jnum (op_max_recipients_per_message p));
       (bs "allowed_sender_domains", jstrings (op_allowed_sender_domains p));
       (bs "max_messages_per_domain_per_hour", jnum (op_max_messages_per_domain_per_hour p));
       (bs "block_dangerous_attachments", jbool (op_block_dangerous_attachments p));
       (bs "check_urls", jbool (op_check_urls p))]);
    (bs "bounce", JObject
      [(bs "sender", jopt (bo_sender (rel_bounce r)));
       (bs "include_original_headers", jbool (bo_include_original_headers (rel_bounce r)))]);
    (bs "dkim", JObject
      [(bs "enabled", jbool (rd_enabled (rel_dkim r))); (bs "domains", jlist dkim_domain_json (rd_domains (rel_dkim r)))])].

Definition relay_get : prog response := view (fun c => relay_json (cfg_relay c)).
Definition relay_update (relay : RelayConfig) : prog response := apply (set_relay_config relay).
Definition trusted_host_add (body : json) : prog response :=
  with_member "host" body (fun host => create_answer (add_trusted_host host)).
Definition trusted_host_remove (host : bytes) : prog response := delete_answer (remove_trusted_host host).

(** ** [dkim.rs] *)

Section WebDkim.
Context `{OpensslRsa}.

Definition dkim_list : prog response :=
  view (fun c => JObject [(bs "domains", jlist dkim_domain_json (rd_domains (rel_dkim (cfg_relay c))))]).

(** The blocking task: the path of the key and the record.  An error of a call is its text. *)
Definition dkim_task (domain selector key_dir : bytes) : cmd (bytes * bytes) :=
  Syscall Ret ;;
  let key_file := dkim_key_file (Some key_dir) domain selector in
  try rsa <- of_result rsa_generate;
  of_result (from_rsa rsa) ;;
  try pem <- of_result (rsa_to_pem rsa);
  WriteFile key_file pem Ret ;;
  Syscall Ret ;;
  try pub_der <- of_result (public_key_to_der rsa);
  let dns_record := dkim_record selector domain (encode_block pub_der) in
  editor (add_dkim_domain (mkDkimDomain domain selector key_file (bs "rsa-sha256"))) ;;
  ok (key_file, dns_record).

Definition dkim_generate (req : json) : prog response :=
  match body_str "domain" req with
  | None => Ret (BAD_REQUEST, error_json (bs "domain is required"))
  | Some domain =>
      let selector := default (bs "mail") (body_str "selector" req) in
      let key_dir := default (bs "/opt/serverwall/etc/dkim") (body_str "key_dir" req) in
      prog_bind (dkim_task domain selector key_dir) (fun result =>
        match result with
        | Ok (key_file, dns_record) =>
            RefreshCache (SendReload DEFAULT_PID_FILE (fun _ =>
              Ret (CREATED, JObject [(bs "created", JBool true); (bs "key_file", JString key_file);
                                     (bs "dns_record", JString dns_record)])))
        | Err e => Ret (BAD_REQUEST, error_json e)
        end)
  end.

Definition dkim_dns_record (domain : bytes) : prog response :=
  CachedConfig (fun c =>
    match List.find (fun d => bool_decide (dd_domain d = domain)) (rd_domains (rel_dkim (cfg_relay c))) with
    | None => Ret (NOT_FOUND, error_json (bs "DKIM domain not found"))
    | Some entry =>
        ReadBytes (dd_key_file entry) (fun r =>
          match (let? pem := r in let? pkey := private_key_from_pem pem in let? rsa := pkey_rsa pkey in
                 public_key_to_der rsa) with
          | Ok pub_der =>
              Ret (OK, JObject [(bs "dns_record",
                JString (dkim_record (dd_selector entry) (dd_domain entry) (encode_block pub_der)))])
          | Err e => Ret (INTERNAL_SERVER_ERROR, error_json e)
          end)
    end).

Definition dkim_delete (domain : bytes) : prog response := delete_answer (remove_dkim_domain domain).
End WebDkim.

(** ** [dmarc_policy.rs] *)

Definition build_dns_record (d : DmarcPolicyDomain) : bytes :=
  let parts :=
    [bs "v=DMARC1"; bs "p=" ++ dp_policy d] ++
    (match dp_subdomain_policy d with Some sp => [bs "sp=" ++ sp] | None => [] end) ++
    (if bool_decide (dp_adkim d = bs "r") then [] else [bs "adkim=" ++ dp_adkim d]) ++
    (if bool_decide (dp_aspf d = bs "r") then [] else [bs "aspf=" ++ dp_aspf d]) ++
    (if dp_pct d =? 100 then [] else [bs "pct=" ++ show (dp_pct d)]) ++
    ((fun x => bs "rua=" ++ x) <$> dp_rua d) ++ ((fun x => bs "ruf=" ++ x) <$> dp_ruf d) in
  bs "_dmarc." ++ dp_domain d ++ bs "  IN TXT  " ++ in_quotes (join (bs "; ") parts).

Definition dmarc_json (d : DmarcPolicyDomain) : json :=
  JObject [(bs "domain", jstr (dp_domain d)); (bs "policy", jstr (dp_policy d));
    (bs "subdomain_policy", jopt (dp_subdomain_policy d)); (bs "pct", jnum (dp_pct d)); (bs "rua", jstrings (dp_rua d));
    (bs "ruf", jstrings (dp_ruf d)); (bs "adkim", jstr (dp_adkim d)); (bs "aspf", jstr (dp_aspf d));
    (bs "dns_record", jstr (build_dns_record d))].

Definition with_record (what key : string) (record : bytes) : json :=
  JObject [(bs what, JBool true); (bs key, JString record)].

Definition dmarc_list : prog response :=
  view (fun c => JObject [(bs "domains", jlist dmarc_json (rdp_domains (rel_dmarc_publish (cfg_relay c))))]).
Definition dmarc_create (d : DmarcPolicyDomain) : prog response :=
  edit_answer (add_dmarc_policy_domain d) (CREATED, with_record "created" "dns_record" (build_dns_record d)) BAD_REQUEST.
Definition dmarc_update (name : bytes) (d : DmarcPolicyDomain) : prog response :=
  edit_answer (update_dmarc_policy_domain name d) (OK, with_record "updated" "dns_record" (build_dns_record d)) NOT_FOUND.
Definition dmarc_dns_record (name : bytes) : prog response :=
  view_entry (fun c => rdp_domains (rel_dmarc_publish (cfg_relay c))) dp_domain name
    (fun d => JObject [(bs "dns_record", jstr (build_dns_record d))]) "DMARC domain not found".
Definition dmarc_delete (name : bytes) : prog response := delete_answer (remove_dmarc_policy_domain name).

(** ** [spf.rs] *)

Definition build_spf_record (d : SpfDomainConfig) : bytes :=
  let term m :=
    let q := if bool_decide (sm_qualifier m = bs "+") then [] else sm_qualifier m in
    match sm_value m with
    | Some (c :: v) => q ++ sm_mechanism m ++ bs ":" ++ c :: v
    | _ => q ++ sm_mechanism m
    end in
  sd_domain d ++ bs "  IN TXT  " ++
  in_quotes (join (bs " ") ([bs "v=spf1"] ++ (term <$> sd_mechanisms d) ++ [sd_all d])).

Definition spf_json (d : SpfDomainConfig) : json :=
  JObject [(bs "domain", jstr (sd_domain d));
    (bs "mechanisms", jlist (fun m => JObject
      [(bs "qualifier", jstr (sm_qualifier m)); (bs "mechanism", jstr (sm_mechanism m)); (bs "value", jopt (sm_value m))])
      (sd_mechanisms d));
    (bs "all", jstr (sd_all d)); (bs "spf_record", jstr (build_spf_record d))].

Definition spf_list : prog response :=
  view (fun c => JObject [(bs "domains", jlist spf_json (rsp_domains (rel_spf_publish (cfg_relay c))))]).
Definition spf_create (d : SpfDomainConfig) : prog response :=
  edit_answer (add_spf_domain d) (CREATED, with_record "created" "spf_record" (build_spf_record d)) BAD_REQUEST.
Definition spf_update (name : bytes) (d : SpfDomainConfig) : prog response :=
  edit_answer (update_spf_domain name d) (OK, with_record "updated" "spf_record" (build_spf_record d)) NOT_FOUND.
Definition spf_record_get (name : bytes) : prog response :=
  view_entry (fun c => rsp_domains (rel_spf_publish (cfg_relay c))) sd_domain name
    (fun d => JObject [(bs "spf_record", jstr (build_spf_record d))]) "SPF domain not found".
Definition spf_delete (name : bytes) : prog response := delete_answer (remove_spf_domain name).

(** ** [antispam.rs] *)

Definition check_json (enabled : bool) (weight : f64) : json :=
  JObject [(bs "enabled", jbool enabled); (bs "weight", jfloat weight)].

Definition override_json (d : DomainOverride) : json :=
  JObject [(bs "domain", jstr (do_domain d)); (bs "possible_spam_threshold", joptnum (do_possible_spam_threshold d));
    (bs "definite_spam_threshold", joptnum (do_definite_spam_threshold d));
    (bs "disabled_checks", jstrings (do_disabled_checks d))].

Definition checks_json (a : AntispamConfig) : json :=
  let r := fc_residential_spf a in let s := sf_severity (fc_spf a) in let v := fc_antivirus a in
  JObject (
    [(bs "dnsbl", check_json (dn_enabled (fc_dnsbl a)) (dn_weight (fc_dnsbl a)));
     (bs "spf", check_json (sf_enabled (fc_spf a)) (sf_weight (fc_spf a)));
     (bs "dkim", check_json (cw_enabled (fc_dkim a)) (cw_weight (fc_dkim a)));
     (bs "dmarc", check_json (dm_enabled (fc_dmarc a)) (dm_weight (fc_dmarc a)));
     (bs "rdns", check_json (cw_enabled (fc_rdns a)) (cw_weight (fc_rdns a)));
     (bs "helo", check_json (cw_enabled (fc_helo a)) (cw_weight (fc_helo a)));
     (bs "early_talker", check_json (cw_enabled (fc_early_talker a)) (cw_weight (fc_early_talker a)))] ++
    [(bs "residential_spf", JObject
       [(bs "enabled", jbool (rs_enabled r)); (bs "weight", jfloat (rs_weight r)); (bs "reject", jbool (rs_reject r));
        (bs "check_pbl", jbool (rs_check_pbl r)); (bs "pbl_zone", jstr (rs_pbl_zone r));
        (bs "softfail_triggers", jbool (rs_softfail_triggers r)); (bs "neutral_triggers", jbool (rs_neutral_triggers r))]);
     (bs "spf_severity", JObject
       [(bs "fail", jfloat (sv_fail s)); (bs "softfail", jfloat (sv_softfail s)); (bs "neutral", jfloat (sv_neutral s));
        (bs "none", jfloat (sv_none s))])] ++
    [(bs "content", check_json (ct_enabled (fc_content a)) (ct_weight (fc_content a)));
     (bs "url_analysis", check_json (ua_enabled (fc_url_analysis a)) (ua_weight (fc_url_analysis a)));
     (bs "attachment", check_json (ac_enabled (fc_attachment a)) (ac_weight (fc_attachment a)));
     (bs "html", check_json (cw_enabled (fc_html a)) (cw_weight (fc_html a)));
     (bs "header_analysis", check_json (cw_enabled (fc_header_analysis a)) (cw_weight (fc_header_analysis a)));
     (bs "charset", check_json (cw_enabled (fc_charset a)) (cw_weight (fc_charset a)));
     (bs "bulk", check_json (cw_enabled (fc_bulk a)) (cw_weight (fc_bulk a)));
     (bs "ratio", check_json (cw_enabled (fc_ratio a)) (cw_weight (fc_ratio a)))] ++
    [(bs "antivirus", JObject
       [(bs "enabled", jbool (av_enabled v)); (bs "weight", jfloat (av_cfg_weight v));
        (bs "reject_on_virus", jbool (av_reject_on_virus v)); (bs "on_scanner_error", jstr (av_on_scanner_error v));
        (bs "on_scanner_timeout", jstr (av_on_scanner_timeout v));
        (bs "scanners", jlist (fun s => JObject
          [(bs "name", jstr (sn_name s)); (bs "command", jstr (sn_command s)); (bs "timeout", jstr (sn_timeout s))])
          (av_scanners v))])]).

Definition antispam_stats : prog response :=
  view (fun c =>
    let a := cfg_antispam c in
    let size l := jnum (Z.of_nat (length (l : list bytes))) in
    JObject [(bs "enabled", jbool (fc_enabled a)); (bs "possible_spam_threshold", jnum (possible_spam_threshold a));
      (bs "definite_spam_threshold", jnum (definite_spam_threshold a)); (bs "max_check_duration", jstr (max_check_duration a));
      (bs "checks", checks_json a); (bs "dnsbl_lists", jstrings (dl_zone <$> dn_lists (fc_dnsbl a)));
      (bs "allow_ips", size (li_ips (fc_allow a))); (bs "allow_senders", size (li_senders (fc_allow a)));
      (bs "allow_domains", size (li_sender_domains (fc_allow a))); (bs "allow_recipients", size (li_recipients (fc_allow a)));
      (bs "block_ips", size (li_ips (fc_block a))); (bs "block_senders", size (li_senders (fc_block a)));
      (bs "block_domains", size (li_sender_domains (fc_block a))); (bs "block_recipients", size (li_recipients (fc_block a)));
      (bs "domain_overrides", jlist override_json (domain_overrides a))]).

Definition update_checks (body : AntispamChecksUpdate) : prog response := apply (update_antispam_checks body).

Definition address_lists_json (l : AntispamListConfig) : json :=
  JObject [(bs "ips", jstrings (li_ips l)); (bs "senders", jstrings (li_senders l));
    (bs "domains", jstrings (li_sender_domains l)); (bs "recipients", jstrings (li_recipients l))].

Definition antispam_list_entries : prog response :=
  view (fun c =>
    let a := cfg_antispam c in
    JObject [(bs "allow", address_lists_json (fc_allow a)); (bs "block", address_lists_json (fc_block a));
      (bs "dnsbl_zones", jlist (fun z => JObject
        [(bs "zone", jstr (dl_zone z)); (bs "weight_multiplier", jfloat (dl_weight_multiplier z));
         (bs "reject_on_hit", jbool (dl_reject_on_hit z))]) (dn_lists (fc_dnsbl a)));
      (bs "surbl_zones", jstrings (ua_surbl_zones (fc_url_analysis a)))]).

Definition allow_add_ip (body : json) : prog response :=
  with_member "ip" body (fun s => apply (add_antispam_allow_ip s)).
Definition allow_remove_ip (ip : bytes) : prog response := apply (remove_antispam_allow_ip ip).
Definition allow_add_sender (body : json) : prog response :=
  with_member "sender" body (fun s => apply (add_antispam_allow_sender s)).
Definition allow_remove_sender (sender : bytes) : prog response := apply (remove_antispam_allow_sender sender).
Definition allow_add_domain (body : json) : prog response :=
  with_member "domain" body (fun s => apply (add_antispam_allow_domain s)).
Definition allow_remove_domain (domain : bytes) : prog response := apply (remove_antispam_allow_domain domain).
Definition allow_add_recipient (body : json) : prog response :=
  with_member "recipient" body (fun s => apply (add_antispam_allow_recipient s)).
Definition allow_remove_recipient (recipient : bytes) : prog response := apply (remove_antispam_allow_recipient recipient).
Definition block_add_ip (body : json) : prog response :=
  with_member "ip" body (fun s => apply (add_antispam_block_ip s)).
Definition block_remove_ip (ip : bytes) : prog response := apply (remove_antispam_block_ip ip).
Definition block_add_sender (body : json) : prog response :=
  with_member "sender" body (fun s => apply (add_antispam_block_sender s)).
Definition block_remove_sender (sender : bytes) : prog response := apply (remove_antispam_block_sender sender).
Definition block_add_domain (body : json) : prog response :=
  with_member "domain" body (fun s => apply (add_antispam_block_domain s)).
Definition block_remove_domain (domain : bytes) : prog response := apply (remove_antispam_block_domain domain).
Definition block_add_recipient (body : json) : prog response :=
  with_member "recipient" body (fun s => apply (add_antispam_block_recipient s)).
Definition block_remove_recipient (recipient : bytes) : prog response := apply (remove_antispam_block_recipient recipient).

(** [Value::as_f64] and [as_bool] *)
Definition as_f64 (v : json) : option f64 :=
  match v with JNumber n => Some (f_of_Z n) | JFloat x => Some x | _ => None end.
Definition as_bool (v : json) : option bool := match v with JBool b => Some b | _ => None end.

Definition dnsbl_add (body : json) : prog response :=
  with_member "zone" body (fun zone =>
    create_answer (add_antispam_dnsbl_zone (mkDnsblEntry zone
      (default f1 (body_get "weight_multiplier" body ≫= as_f64))
      (default false (body_get "reject_on_hit" body ≫= as_bool))))).
Definition dnsbl_remove (zone : bytes) : prog response := delete_answer (remove_antispam_dnsbl_zone zone).

Definition domain_overrides_list : prog response :=
  view (fun c => JObject [(bs "domain_overrides", jlist override_json (domain_overrides (cfg_antispam c)))]).
Definition domain_overrides_create (entry : DomainOverride) : prog response :=
  create_answer (add_antispam_domain_override entry).
Definition domain_overrides_update (domain : bytes) (entry : DomainOverride) : prog response :=
  apply (update_antispam_domain_override domain entry).
Definition domain_overrides_delete (domain : bytes) : prog response :=
  delete_answer (remove_antispam_domain_override domain).

Definition surbl_add (body : json) : prog response :=
  with_member "zone" body (fun zone => apply (add_antispam_surbl_zone zone)).
Definition surbl_remove (zone : bytes) : prog response := delete_answer (remove_antispam_surbl_zone zone).

Definition scanner_list : prog response :=
  view (fun c => JObject [(bs "scanners", jlist scanner_json (av_scanners (fc_antivirus (cfg_antispam c))))]).
Definition scanner_add (scanner : ScannerConfig) : prog response := create_answer (add_antispam_scanner scanner).
Definition scanner_remove (name : bytes) : prog response := delete_answer (remove_antispam_scanner name).
