(* ===== verification/AdminSpec.v ===== *)
(** * What commands and requests guarantee

    The commands of [serverwall-cli] as one type, the requests of the web interface as
    another, and the theorems on all of them: a command or request makes at most one change,
    reports exactly whether it was made, and leaves the web interface's copy of the
    configuration equal to the file. *)

From S2P Require Import Prelude RustStr Float64 Net External Toml Schema Fields Fs Config CertStore Proto Acl Admin Cli CliSecurity CliMail WebApi WebMail.
Open Scope Z_scope.

(** ** Disciplined programs *)

Section Discipline.
Context (allowed : bytes -> Prop).

(** A program that changes nothing, uses files that are allowed and ends with a result that
    satisfies a predicate, whatever its calls return. *)
Fixpoint finishes {A} (P : A -> Prop) (p : prog A) : Prop :=
  match p with
  | Ret x => P x
  | LoadConfig k => forall r, finishes P (k r)
  | EditConfig _ _ => False
  | WriteFile _ _ _ => False
  | SendReload pf k => allowed pf /\ forall r, finishes P (k r)
  | ReadFile q k => allowed q /\ forall r, finishes P (k r)
  | ReadBytes q k => allowed q /\ forall r, finishes P (k r)
  | Syscall k => forall r, finishes P (k r)
  | Say _ k => finishes P k
  | Warn _ k => finishes P k
  | CachedConfig k => forall c, finishes P (k c)
  | RefreshCache k => finishes P k
  end.

(** A program with at most one edit, after which its result is good exactly when the edit
    succeeded. *)
Fixpoint atomic {A} (good bad : A -> Prop) (p : prog A) : Prop :=
  match p with
  | Ret _ => True
  | LoadConfig k => forall r, atomic good bad (k r)
  | EditConfig _ k => finishes good (k (Ok tt)) /\ forall e, finishes bad (k (Err e))
  | WriteFile _ _ _ => False
  | SendReload pf k => allowed pf /\ forall r, atomic good bad (k r)
  | ReadFile q k => allowed q /\ forall r, atomic good bad (k r)
  | ReadBytes q k => allowed q /\ forall r, atomic good bad (k r)
  | Syscall k => forall r, atomic good bad (k r)
  | Say _ k => atomic good bad k
  | Warn _ k => atomic good bad k
  | CachedConfig k => forall c, atomic good bad (k c)
  | RefreshCache k => atomic good bad k
  end.

Lemma finishes_bind {A B} (P : A -> Prop) (Q : B -> Prop) (p : prog A) (f : A -> prog B) :
  finishes P p -> (forall x, P x -> finishes Q (f x)) -> finishes Q (prog_bind p f).
Proof. intros Hp Hf. induction p; cbn in *; naive_solver. Qed.

Lemma finishes_mono {A} (P Q : A -> Prop) (p : prog A) : finishes P p -> (forall x, P x -> Q x) -> finishes Q p.
Proof. intros Hp HPQ. induction p; cbn in *; naive_solver. Qed.

Lemma finishes_atomic {A} (P good bad : A -> Prop) (p : prog A) : finishes P p -> atomic good bad p.
Proof. intros Hp. induction p; cbn in *; naive_solver. Qed.

Lemma atomic_map {A B} (good bad : A -> Prop) (good' bad' : B -> Prop) (p : prog A) (f : A -> prog B) :
  atomic good bad p -> (forall x, good x -> finishes good' (f x)) -> (forall x, bad x -> finishes bad' (f x)) ->
  (forall x, atomic good' bad' (f x)) -> atomic good' bad' (prog_bind p f).
Proof.
  intros Hp Hg Hb Ha. induction p; cbn in *; try naive_solver.
  destruct Hp as [Hok Herr]. split; [by apply (finishes_bind good)|]. intros e. by apply (finishes_bind bad).
Qed.

Lemma atomic_bind {A B} (good bad : B -> Prop) (P : A -> Prop) (p : prog A) (f : A -> prog B) :
  finishes P p -> (forall x, P x -> atomic good bad (f x)) -> atomic good bad (prog_bind p f).
Proof. intros Hp Hf. induction p; cbn in *; naive_solver. Qed.
End Discipline.

(** After a successful edit the copy in memory is read again at once. *)
Fixpoint coherent {A} (p : prog A) : Prop :=
  match p with
  | Ret _ => True
  | LoadConfig k => forall r, coherent (k r)
  | EditConfig _ k =>
      (match k (Ok tt) with RefreshCache q => coherent q | _ => False end) /\ forall e, coherent (k (Err e))
  | WriteFile _ _ k => forall r, coherent (k r)
  | SendReload _ k => forall r, coherent (k r)
  | ReadFile _ k => forall r, coherent (k r)
  | ReadBytes _ k => forall r, coherent (k r)
  | Syscall k => forall r, coherent (k r)
  | Say _ k => coherent k
  | Warn _ k => coherent k
  | CachedConfig k => forall c, coherent (k c)
  | RefreshCache k => coherent k
  end.

Section DisciplineRun.
Context `{IpNetworkLib} (kill : Z -> bool).

Lemma finishes_run {A} allowed (P : A -> Prop) (p : prog A) : forall m,
  finishes allowed P p ->
  P (fst (spec_run kill p m)) /\ m_config (snd (spec_run kill p m)) = m_config m /\
  m_files (snd (spec_run kill p m)) = m_files m /\ m_written (snd (spec_run kill p m)) = m_written m.
Proof.
  induction p as [x|k IH|f k IH|pf k IH|p k IH|p k IH|p data k IH|k IH|l k IH|l k IH|k IH|k IH]; intros m Hp; cbn in *;
    try done; try (by apply IH); try (by apply IH, Hp).
  all: match goal with |- context [spec_run kill _ ?m'] => exact (IH m' Hp) end.
Qed.

(** The edits a program attempts. *)
Fixpoint attempted {A} (p : prog A) (m : Model) : list change :=
  match p with
  | Ret _ => []
  | LoadConfig k => attempted (k (Ok (m_config m))) m
  | EditConfig f k => f :: attempted (k (fst (spec_edit f (m_config m)))) (with_config f m)
  | SendReload pf k => attempted (k (fst (send_reload_signal kill pf (mkDisk (m_files m) [])))) m
  | ReadFile q k => attempted (k (fst (fs_read_to_string q (mkDisk (m_files m) [])))) m
  | ReadBytes q k => attempted (k (fst (fs_read q (mkDisk (m_files m) [])))) m
  | WriteFile q data k => attempted (k (Ok tt)) (with_file q data m)
  | Syscall k => attempted (k (Ok tt)) m
  | Say l k => attempted k (with_output l m)
  | Warn l k => attempted k (with_warning l m)
  | CachedConfig k => attempted (k (m_cache m)) m
  | RefreshCache k => attempted k (with_refresh m)
  end.

(** The outcome of a disciplined program: it attempts no edit and changes nothing; or one that
    succeeds, whose valid result is the new configuration; or one that fails, changes nothing
    and is reported. *)
Definition outcome {A} (good bad : A -> Prop) (p : prog A) (m : Model) (r : A) (m' : Model) : Prop :=
  m_files m' = m_files m /\
  (attempted p m = [] /\ m_config m' = m_config m \/
   (exists f, attempted p m = [f] /\ spec_edit f (m_config m) = (Ok tt, m_config m') /\ good r) \/
   (exists f e, attempted p m = [f] /\ fst (spec_edit f (m_config m)) = Err e /\ m_config m' = m_config m /\ bad r)).

Lemma finishes_attempted {A} allowed (P : A -> Prop) (p : prog A) : forall m, finishes allowed P p -> attempted p m = [].
Proof.
  induction p as [x|k IH|f k IH|pf k IH|p k IH|p k IH|p data k IH|k IH|l k IH|l k IH|k IH|k IH]; intros m Hp; cbn in *;
    try done; try (by apply IH); by apply IH, Hp.
Qed.

Lemma spec_edit_Err f c e c' : spec_edit f c = (Err e, c') -> c' = c.
Proof. unfold spec_edit. repeat case_match; naive_solver. Qed.

Lemma edit_outcome {A} allowed (good bad : A -> Prop) f (k : result unit ServerWallError -> prog A) m :
  atomic allowed good bad (EditConfig f k) ->
  outcome good bad (EditConfig f k) m (fst (spec_run kill (EditConfig f k) m)) (snd (spec_run kill (EditConfig f k) m)).
Proof.
  intros [Hg Hb]. cbn. unfold outcome. cbn [attempted].
  destruct (spec_edit f (m_config m)) as [[[]|e] c] eqn:E; cbn [fst].
  - destruct (finishes_run _ _ _ (with_config f m) Hg) as (HP & Hc & Hf & _). split; [exact Hf|]. right. left.
    exists f. rewrite (finishes_attempted _ _ _ _ Hg), Hc. cbn. by rewrite E.
  - destruct (finishes_run _ _ _ (with_config f m) (Hb e)) as (HP & Hc & Hf & _). split; [exact Hf|]. right. right.
    exists f, e. rewrite (finishes_attempted _ _ _ _ (Hb e)), Hc. cbn. rewrite E. cbn. by rewrite (spec_edit_Err _ _ _ _ E).
Qed.

Lemma atomic_run {A} allowed (good bad : A -> Prop) (p : prog A) : forall m,
  atomic allowed good bad p -> outcome good bad p m (fst (spec_run kill p m)) (snd (spec_run kill p m)).
Proof.
  induction p as [x|k IH|f k IH|pf k IH|p k IH|p k IH|p data k IH|k IH|l k IH|l k IH|k IH|k IH]; intros m Hp;
    try (by apply (edit_outcome allowed)); cbn in *;
    try (by destruct Hp); try (by apply (IH _ m)); try (by apply (IH _ m), Hp).
  1: { split; [done|by left]. }
  all: match goal with |- context [spec_run kill _ ?m'] => exact (IH m' Hp) end.
Qed.

Lemma coherent_run {A} (p : prog A) : forall m,
  coherent p -> m_cache m = m_config m -> m_cache (snd (spec_run kill p m)) = m_config (snd (spec_run kill p m)).
Proof.
  induction p as [x|k IH|f k IH|pf k IH|p k IH|p k IH|p data k IH|k IH|l k IH|l k IH|k IH|k IH]; intros m Hp Hc; cbn in *;
    try done; try (by apply IH).
  destruct Hp as [Hg Hb]. destruct (spec_edit f (m_config m)) as [[[]|e] c] eqn:E; cbn [fst].
  - specialize (IH (Ok tt) (with_refresh (with_config f m))). destruct (k (Ok tt)); try done. by apply IH.
  - apply IH; [done|]. cbn. rewrite E. cbn. by rewrite (spec_edit_Err _ _ _ _ E).
Qed.
Context (pid : Z) (path : bytes).

Lemma finishes_avoids {A} (P : A -> Prop) (p : prog A) : forall m,
  finishes (fun q => ~ reserved pid path q) P p -> avoids pid kill path p m.
Proof.
  induction p as [x|k IH|f k IH|pf k IH|p k IH|p k IH|p data k IH|k IH|l k IH|l k IH|k IH|k IH]; intros m Hp; cbn in *;
    try done; try (by apply IH); (split; [apply Hp|by apply IH, Hp]).
Qed.

Lemma atomic_avoids {A} (good bad : A -> Prop) (p : prog A) : forall m,
  atomic (fun q => ~ reserved pid path q) good bad p -> avoids pid kill path p m.
Proof.
  induction p as [x|k IH|f k IH|pf k IH|p k IH|p k IH|p data k IH|k IH|l k IH|l k IH|k IH|k IH]; intros m Hp; cbn in *;
    try done; try (by apply IH); try (split; [apply Hp|by apply IH, Hp]).
  destruct Hp as [Hg Hb]. destruct (fst (spec_edit f (m_config m))) as [[]|e]; [exact (finishes_avoids good _ _ Hg)|].
  exact (finishes_avoids bad _ _ (Hb e)).
Qed.
End DisciplineRun.

(** ** The commands *)

(** The commands on the configuration.  Those on the queue are in [QueueAdmin.v] and [Logging.v],
    those on certificate files in [CliSecurity.v]. *)
Inductive Command :=
| CmdStatus (as_json : bool)
| CmdFrontend (as_json : bool) (a : FrontendAction)
| CmdBackend (as_json : bool) (a : BackendAction)
| CmdAcl (as_json : bool) (a : AclAction)
| CmdWaf (as_json : bool) (a : WafAction)
| CmdDkim (as_json : bool) (a : DkimAction)
| CmdAntispam (a : AntispamAction)
| CmdReload
| CmdWebui (as_json : bool) (a : WebuiAction)
| CmdGlobal (a : GlobalAction)
| CmdAcme (a : AcmeAction)
| CmdSecurity (a : SecurityAction)
| CmdSecurityProfile (as_json : bool) (a : SecurityProfileAction)
| CmdLogProfile (as_json : bool) (a : LogProfileAction)
| CmdRelay (as_json : bool) (a : RelayAction)
| CmdDmarc (as_json : bool) (a : DmarcAction)
| CmdSpf (as_json : bool) (a : SpfAction).

Section Commands.
Context `{SerdeJson} `{Unicode} `{IpNetworkLib} `{OpensslRsa}.
Context (checks_from_str : bytes -> result AntispamChecksUpdate bytes) (config_path : bytes).

Definition cli_run (no_reload : bool) (c : Command) : cmd unit :=
  match c with
  | CmdStatus j => cli_status config_path j
  | CmdFrontend j a => cli_frontend j no_reload a
  | CmdBackend j a => cli_backend j no_reload a
  | CmdAcl j a => cli_acl j no_reload a
  | CmdWaf j a => cli_waf j no_reload a
  | CmdDkim j a => cli_dkim no_reload j a
  | CmdAntispam a => cli_antispam checks_from_str no_reload a
  | CmdReload => cli_reload no_reload
  | CmdWebui j a => cli_webui j a
  | CmdGlobal a => cli_global no_reload a
  | CmdAcme a => cli_acme no_reload a
  | CmdSecurity a => cli_security no_reload a
  | CmdSecurityProfile j a => cli_security_profile no_reload j a
  | CmdLogProfile j a => cli_log_profile no_reload j a
  | CmdRelay j a => cli_relay no_reload j a
  | CmdDmarc j a => cli_dmarc no_reload j a
  | CmdSpf j a => cli_spf no_reload j a
  end.

(** The end of [main]: the error on standard error and the exit status. *)
Definition cli_main (no_reload : bool) (c : Command) : prog Z :=
  prog_bind (cli_run no_reload c) (fun r =>
    match r with Ok _ => Ret 0 | Err e => Warn (bs "Error: " ++ e) (Ret 1) end).

(** The files named on the command line. *)
Definition named_files (c : Command) : list bytes :=
  match c with
  | CmdFrontend _ (FrontendAdd _ _ _ _ _ _ _ _ _ _ _ _ _ _ _ _ (Some f)) => [f]
  | CmdFrontend _ (FrontendUpdate _ _ _ _ _ _ _ _ _ _ _ _ _ _ _ _ (Some f)) => [f]
  | CmdSecurityProfile _ (ProfileAdd f) => [f]
  | CmdSecurityProfile _ (ProfileUpdate _ f) => [f]
  | CmdAntispam (SetChecks (Some f) _) => [f]
  | _ => []
  end.

(** The two commands with more than one effect, and the one that reads a file the
    configuration names. *)
Definition compound (c : Command) : bool :=
  match c with
  | CmdDkim _ (DkimGenerate _ _ _) | CmdDkim _ (DkimDnsRecord _) => true
  | CmdAntispam (SetChecks None f) => needs_spf_severity f
  | _ => false
  end.
End Commands.

(** ** Every command is disciplined *)

Definition succeeded {A} (r : result A bytes) : Prop := exists x, r = Ok x.
Definition failed {A} (r : result A bytes) : Prop := exists e, r = Err e.
Definition any {A} (r : result A bytes) : Prop := True.

Create HintDb admin.

Section CommandLemmas.
Context (allowed : bytes -> Prop).

Lemma finishes_cmd_bind {A B} (m : cmd A) (k : A -> cmd B) :
  finishes allowed any m -> (forall x, finishes allowed any (k x)) -> finishes allowed any (cmd_bind m k).
Proof. intros Hm Hk. apply (finishes_bind _ any); [done|]. intros [x|e] _; [apply Hk|done]. Qed.

Lemma finishes_then {A B} (m : cmd A) (k : A -> cmd B) :
  finishes allowed succeeded m -> (forall x, finishes allowed succeeded (k x)) -> finishes allowed succeeded (cmd_bind m k).
Proof. intros Hm Hk. apply (finishes_bind _ succeeded); [done|]. intros ? [x ->]. apply Hk. Qed.

Lemma atomic_cmd_bind {A B} (m : cmd A) (k : A -> cmd B) :
  finishes allowed any m -> (forall x, atomic allowed succeeded failed (k x)) ->
  atomic allowed succeeded failed (cmd_bind m k).
Proof. intros Hm Hk. apply (atomic_bind _ _ _ any); [done|]. intros [x|e] _; [apply Hk|done]. Qed.

Lemma say_all_finishes l : finishes allowed succeeded (say_all l).
Proof. induction l; [by eexists|done]. Qed.

Lemma succeeded_any {A} (m : cmd A) : finishes allowed succeeded m -> finishes allowed any m.
Proof. intros Hm. by apply (finishes_mono _ _ _ _ Hm). Qed.

Lemma print_table_finishes headers rows : finishes allowed any (print_table headers rows).
Proof.
  unfold print_table. case_match; [done|]. apply finishes_cmd_bind; [done|intros _].
  apply finishes_cmd_bind; [done|intros _]. apply finishes_cmd_bind; [apply succeeded_any, say_all_finishes|intros _].
  by case_match.
Qed.

Lemma maybe_reload_finishes no_reload : allowed DEFAULT_PID_FILE -> finishes allowed succeeded (maybe_reload no_reload).
Proof. intros Hp. destruct no_reload; [by eexists|]. split; [done|]. intros [?|?]; by eexists. Qed.

Lemma apply_edit_atomic no_reload f message :
  allowed DEFAULT_PID_FILE -> atomic allowed succeeded failed (apply_edit no_reload f message).
Proof.
  intros Hp. split; [|intros e; by eexists]. change (finishes allowed succeeded (maybe_reload no_reload)).
  by apply maybe_reload_finishes.
Qed.

Lemma apply_webui_atomic f message :
  allowed DEFAULT_WEBUI_PID_FILE -> atomic allowed succeeded failed (apply_webui f message).
Proof. intros Hp. split; [|intros e; by eexists]. split; [done|]. intros [?|?]; by eexists. Qed.

Lemma find_or_finishes {A} (key : A -> bytes) name l message : finishes allowed any (find_or key name l message).
Proof. done. Qed.

Lemma assign_try_finishes {A R} o (parse : bytes -> result A bytes) upd (r : R) :
  finishes allowed any (assign_try o parse upd r).
Proof. destruct o; [|done]. apply finishes_cmd_bind; done. Qed.

Lemma read_struct_finishes `{SerdeJson} {A} (c : codec A) path : allowed path -> finishes allowed any (read_struct c path).
Proof. intros Hp. split; [done|]. intros [content|e]; [|done]. by destruct (struct_from_str c content). Qed.
End CommandLemmas.

#[export] Hint Resolve say_all_finishes succeeded_any print_table_finishes maybe_reload_finishes apply_edit_atomic
  apply_webui_atomic find_or_finishes assign_try_finishes read_struct_finishes : admin.

(** Follows the structure of a command. *)
Ltac command :=
  repeat first
    [ done
    | solve [eauto with admin]
    | progress intros
    | apply atomic_cmd_bind
    | apply finishes_cmd_bind
    | progress cbn [atomic finishes]
    | split
    | case_match
    | eapply finishes_atomic; solve [eauto with admin] ].

Section CommandsAtomic.
Context `{SerdeJson} `{Unicode} `{IpNetworkLib} `{OpensslRsa}.
Context (checks_from_str : bytes -> result AntispamChecksUpdate bytes) (config_path : bytes) (allowed : bytes -> Prop).
Hypothesis pid_allowed : allowed DEFAULT_PID_FILE.
Hypothesis webui_pid_allowed : allowed DEFAULT_WEBUI_PID_FILE.

Lemma status_atomic j : atomic allowed succeeded failed (cli_status config_path j).
Proof. unfold cli_status, print_json. command. Qed.
Lemma global_atomic nr a : atomic allowed succeeded failed (cli_global nr a).
Proof. destruct a; cbn [cli_global]; unfold cli_global_show, cli_global_set; command. Qed.
Lemma acme_atomic nr a : atomic allowed succeeded failed (cli_acme nr a).
Proof.
  destruct a; cbn [cli_acme]; unfold cli_acme_show, cli_acme_set, cli_acme_add_cidr, cli_acme_remove_cidr, cli_acme_list_cidrs;
    command.
Qed.
Lemma acl_atomic j nr a : atomic allowed succeeded failed (cli_acl j nr a).
Proof. destruct a; cbn [cli_acl]; unfold cli_acl_list, print_json; command. Qed.
Lemma reload_atomic nr : atomic allowed succeeded failed (cli_reload nr).
Proof. unfold cli_reload. command. Qed.

Lemma frontend_atomic j nr a :
  Forall allowed (named_files (CmdFrontend j a)) -> atomic allowed succeeded failed (cli_frontend j nr a).
Proof.
  intros Hf. destruct a; cbn [cli_frontend];
    unfold cli_frontend_list, cli_frontend_show, cli_frontend_add, cli_frontend_update, print_json, print_struct;
    try (destruct from_json as [f|]; [apply Forall_inv in Hf|]); command.
Qed.
Lemma backend_atomic j nr a : atomic allowed succeeded failed (cli_backend j nr a).
Proof.
  destruct a; cbn [cli_backend];
    unfold cli_backend_list, cli_backend_show, cli_backend_add_pool, cli_backend_update_pool, cli_backend_add_server,
      print_json, print_struct; command.
Qed.
Lemma waf_atomic j nr a : atomic allowed succeeded failed (cli_waf j nr a).
Proof.
  destruct a; cbn [cli_waf]; unfold cli_waf_list, cli_waf_show, cli_waf_add, cli_waf_update, print_json, print_struct;
    command.
Qed.
Lemma security_atomic nr a : atomic allowed succeeded failed (cli_security nr a).
Proof.
  destruct a; cbn [cli_security];
    unfold cli_security_show, cli_set_tls, cli_set_geo, cli_set_bot, cli_set_cookies, cli_set_headers, cli_list_rate_limits,
      cli_set_acl, cli_add_domain, cli_remove_domain, cli_add_path_pattern, cli_remove_path_pattern; command.
Qed.
Lemma security_profile_atomic nr j a :
  Forall allowed (named_files (CmdSecurityProfile j a)) -> atomic allowed succeeded failed (cli_security_profile nr j a).
Proof.
  intros Hf. destruct a; cbn [cli_security_profile]; unfold cli_security_profile_list, print_json, print_struct;
    try apply Forall_inv in Hf; command.
Qed.
Lemma log_profile_atomic nr j a : atomic allowed succeeded failed (cli_log_profile nr j a).
Proof. destruct a; cbn [cli_log_profile]; unfold cli_log_profile_list, print_json; command. Qed.
Lemma webui_atomic j a : atomic allowed succeeded failed (cli_webui j a).
Proof.
  destruct a; cbn [cli_webui];
    unfold cli_webui_show, cli_webui_set_config, cli_add_origin, cli_remove_origin, cli_webui_list, cli_webui_add,
      cli_webui_remove, print_json; command.
Qed.
Lemma relay_atomic nr j a : atomic allowed succeeded failed (cli_relay nr j a).
Proof.
  destruct a; cbn [cli_relay]; unfold cli_relay_show, change_relay, cli_list_trusted_hosts, print_struct; command.
Qed.
Lemma dkim_atomic nr j a : compound (CmdDkim j a) = false -> atomic allowed succeeded failed (cli_dkim nr j a).
Proof. intros Hc. destruct a; try done; cbn [cli_dkim]; unfold cli_dkim_list, print_json; command. Qed.
Lemma dmarc_atomic nr j a : atomic allowed succeeded failed (cli_dmarc nr j a).
Proof. destruct a; cbn [cli_dmarc]; unfold cli_dmarc_list, find_dmarc, print_struct; command. Qed.
Lemma spf_atomic nr j a : atomic allowed succeeded failed (cli_spf nr j a).
Proof. destruct a; cbn [cli_spf]; unfold cli_spf_list, find_spf, print_struct; command. Qed.
Lemma antispam_atomic nr a :
  Forall allowed (named_files (CmdAntispam a)) -> compound (CmdAntispam a) = false ->
  atomic allowed succeeded failed (cli_antispam checks_from_str nr a).
Proof.
  intros Hf Hc. destruct a; cbn [cli_antispam];
    unfold cli_antispam_show, cli_list_overrides, cli_list_entries, cli_update_override, cli_set_checks, print_json;
    try solve [command].
  destruct from_json as [f|]; [apply Forall_inv in Hf; command|]. cbn in Hc. rewrite Hc. command.
Qed.

Lemma command_atomic nr c :
  Forall allowed (named_files c) -> compound c = false ->
  atomic allowed succeeded failed (cli_run checks_from_str config_path nr c).
Proof.
  intros Hf Hc. destruct c; cbn [cli_run];
    eauto using status_atomic, global_atomic, acme_atomic, acl_atomic, reload_atomic, frontend_atomic, backend_atomic,
      waf_atomic, security_atomic, security_profile_atomic, log_profile_atomic, webui_atomic, relay_atomic, dkim_atomic,
      dmarc_atomic, spf_atomic, antispam_atomic.
Qed.
End CommandsAtomic.

(** ** The requests of the web interface *)

(** One constructor for every route of [build_router] whose handler is in [WebApi.v] or
    [WebMail.v]. *)
Inductive ApiRequest :=
| ReqFrontendsList
| ReqFrontendsCreate (f : FrontendConfig)
| ReqFrontendsGet (name : bytes)
| ReqFrontendsUpdate (name : bytes) (f : FrontendConfig)
| ReqFrontendsDelete (name : bytes)
| ReqBackendsList
| ReqBackendsCreate (p : BackendPoolConfig)
| ReqBackendsGet (pool : bytes)
| ReqBackendsUpdate (pool : bytes) (p : BackendPoolConfig)
| ReqBackendsDelete (pool : bytes)
| ReqAddServer (pool : bytes) (b : BackendConfig)
| ReqRemoveServer (pool name : bytes)
| ReqDkimList
| ReqDkimGenerate (body : json)
| ReqDkimDnsRecord (domain : bytes)
| ReqDkimDelete (domain : bytes)
| ReqDmarcList
| ReqDmarcCreate (d : DmarcPolicyDomain)
| ReqDmarcDnsRecord (domain : bytes)
| ReqDmarcUpdate (domain : bytes) (d : DmarcPolicyDomain)
| ReqDmarcDelete (domain : bytes)
| ReqSpfList
| ReqSpfCreate (d : SpfDomainConfig)
| ReqSpfRecordGet (domain : bytes)
| ReqSpfUpdate (domain : bytes) (d : SpfDomainConfig)
| ReqSpfDelete (domain : bytes)
| ReqAntispamStats
| ReqUpdateChecks (u : AntispamChecksUpdate)
| ReqAntispamListEntries
| ReqAllowAddIp (body : json)
| ReqAllowRemoveIp (ip : bytes)
| ReqAllowAddSender (body : json)
| ReqAllowRemoveSender (sender : bytes)
| ReqAllowAddDomain (body : json)
| ReqAllowRemoveDomain (domain : bytes)
| ReqAllowAddRecipient (body : json)
| ReqAllowRemoveRecipient (recipient : bytes)
| ReqBlockAddIp (body : json)
| ReqBlockRemoveIp (ip : bytes)
| ReqBlockAddSender (body : json)
| ReqBlockRemoveSender (sender : bytes)
| ReqBlockAddDomain (body : json)
| ReqBlockRemoveDomain (domain : bytes)
| ReqBlockAddRecipient (body : json)
| ReqBlockRemoveRecipient (recipient : bytes)
| ReqDnsblAdd (body : json)
| ReqDnsblRemove (zone : bytes)
| ReqDomainOverridesList
| ReqDomainOverridesCreate (d : DomainOverride)
| ReqDomainOverridesUpdate (domain : bytes) (d : DomainOverride)
| ReqDomainOverridesDelete (domain : bytes)
| ReqSurblAdd (body : json)
| ReqSurblRemove (zone : bytes)
| ReqScannerList
| ReqScannerAdd (s : ScannerConfig)
| ReqScannerRemove (name : bytes)
| ReqApiReload
| ReqAclList
| ReqAclCreate
| ReqGlobalList
| ReqGlobalAllowAdd (body : json)
| ReqGlobalAllowRemove (ip : bytes)
| ReqGlobalBlockAdd (body : json)
| ReqGlobalBlockRemove (ip : bytes)
| ReqAclGet (id : bytes)
| ReqAclUpdate (id : bytes)
| ReqAclDelete (id : bytes)
| ReqWafList
| ReqWafCreate (r : WafRulesetConfig)
| ReqWafGet (name : bytes)
| ReqWafUpdate (name : bytes) (r : WafRulesetConfig)
| ReqWafDelete (name : bytes)
| ReqWafClone (name : bytes) (body : json)
| ReqProfilesList
| ReqProfilesCreate (p : SecurityProfile)
| ReqProfilesGet (name : bytes)
| ReqProfilesUpdate (name : bytes) (p : SecurityProfile)
| ReqProfilesDelete (name : bytes)
| ReqLogProfilesList
| ReqLogProfilesCreate (p : LogProfile)
| ReqLogProfilesGet (name : bytes)
| ReqLogProfilesUpdate (name : bytes) (p : LogProfile)
| ReqLogProfilesDelete (name : bytes)
| ReqSecurityGet
| ReqPutTls (b : TlsBody)
| ReqPutGeo (b : GeoBody)
| ReqPutHeaders (b : HeadersBody)
| ReqPutBot (b : BotBody)
| ReqPutCookies (b : CookiesBody)
| ReqAddRateLimit (name : bytes) (key : option bytes) (requests window_secs : Z) (burst : option Z)
    (scope : option RateLimitScope)
| ReqRemoveRateLimit (name : bytes)
| ReqPutAcl (a : SecurityAclConfig)
| ReqRelayGet
| ReqRelayUpdate (r : RelayConfig)
| ReqTrustedHostAdd (body : json)
| ReqTrustedHostRemove (host : bytes)
| ReqGlobalGet
| ReqGlobalUpdate (g : GlobalConfig)
| ReqAcmeGet
| ReqAcmeUpdate (a : AcmeConfig)
| ReqWebuiSettingsGet
| ReqWebuiSettingsUpdate (l : list bytes).

Section Requests.
Context `{IpNetworkLib} `{OpensslRsa}.

Definition handle (r : ApiRequest) : prog response :=
  match r with
  | ReqFrontendsList => frontends_list
  | ReqFrontendsCreate f => frontends_create f
  | ReqFrontendsGet name => frontends_get name
  | ReqFrontendsUpdate name f => frontends_update name f
  | ReqFrontendsDelete name => frontends_delete name
  | ReqBackendsList => backends_list
  | ReqBackendsCreate p => backends_create p
  | ReqBackendsGet pool => backends_get pool
  | ReqBackendsUpdate pool p => backends_update pool p
  | ReqBackendsDelete pool => backends_delete pool
  | ReqAddServer pool b => add_server pool b
  | ReqRemoveServer pool name => remove_server pool name
  | ReqDkimList => dkim_list
  | ReqDkimGenerate body => dkim_generate body
  | ReqDkimDnsRecord domain => dkim_dns_record domain
  | ReqDkimDelete domain => dkim_delete domain
  | ReqDmarcList => dmarc_list
  | ReqDmarcCreate d => dmarc_create d
  | ReqDmarcDnsRecord domain => dmarc_dns_record domain
  | ReqDmarcUpdate domain d => dmarc_update domain d
  | ReqDmarcDelete domain => dmarc_delete domain
  | ReqSpfList => spf_list
  | ReqSpfCreate d => spf_create d
  | ReqSpfRecordGet domain => spf_record_get domain
  | ReqSpfUpdate domain d => spf_update domain d
  | ReqSpfDelete domain => spf_delete domain
  | ReqAntispamStats => antispam_stats
  | ReqUpdateChecks u => update_checks u
  | ReqAntispamListEntries => antispam_list_entries
  | ReqAllowAddIp body => allow_add_ip body
  | ReqAllowRemoveIp ip => allow_remove_ip ip
  | ReqAllowAddSender body => allow_add_sender body
  | ReqAllowRemoveSender sender => allow_remove_sender sender
  | ReqAllowAddDomain body => allow_add_domain body
  | ReqAllowRemoveDomain domain => allow_remove_domain domain
  | ReqAllowAddRecipient body => allow_add_recipient body
  | ReqAllowRemoveRecipient recipient => allow_remove_recipient recipient
  | ReqBlockAddIp body => block_add_ip body
  | ReqBlockRemoveIp ip => block_remove_ip ip
  | ReqBlockAddSender body => block_add_sender body
  | ReqBlockRemoveSender sender => block_remove_sender sender
  | ReqBlockAddDomain body => block_add_domain body
  | ReqBlockRemoveDomain domain => block_remove_domain domain
  | ReqBlockAddRecipient body => block_add_recipient body
  | ReqBlockRemoveRecipient recipient => block_remove_recipient recipient
  | ReqDnsblAdd body => dnsbl_add body
  | ReqDnsblRemove zone => dnsbl_remove zone
  | ReqDomainOverridesList => domain_overrides_list
  | ReqDomainOverridesCreate d => domain_overrides_create d
  | ReqDomainOverridesUpdate domain d => domain_overrides_update domain d
  | ReqDomainOverridesDelete domain => domain_overrides_delete domain
  | ReqSurblAdd body => surbl_add body
  | ReqSurblRemove zone => surbl_remove zone
  | ReqScannerList => scanner_list
  | ReqScannerAdd s => scanner_add s
  | ReqScannerRemove name => scanner_remove name
  | ReqApiReload => api_reload
  | ReqAclList => acl_list
  | ReqAclCreate => acl_create
  | ReqGlobalList => global_list
  | ReqGlobalAllowAdd body => global_allow_add body
  | ReqGlobalAllowRemove ip => global_allow_remove ip
  | ReqGlobalBlockAdd body => global_block_add body
  | ReqGlobalBlockRemove ip => global_block_remove ip
  | ReqAclGet id => acl_get id
  | ReqAclUpdate id => acl_update id
  | ReqAclDelete id => acl_delete id
  | ReqWafList => waf_list
  | ReqWafCreate r => waf_create r
  | ReqWafGet name => waf_get name
  | ReqWafUpdate name r => waf_update name r
  | ReqWafDelete name => waf_delete name
  | ReqWafClone name body => waf_clone name body
  | ReqProfilesList => profiles_list
  | ReqProfilesCreate p => profiles_create p
  | ReqProfilesGet name => profiles_get name
  | ReqProfilesUpdate name p => profiles_update name p
  | ReqProfilesDelete name => profiles_delete name
  | ReqLogProfilesList => log_profiles_list
  | ReqLogProfilesCreate p => log_profiles_create p
  | ReqLogProfilesGet name => log_profiles_get name
  | ReqLogProfilesUpdate name p => log_profiles_update name p
  | ReqLogProfilesDelete name => log_profiles_delete name
  | ReqSecurityGet => security_get
  | ReqPutTls b => put_tls b
  | ReqPutGeo b => put_geo b
  | ReqPutHeaders b => put_headers b
  | ReqPutBot b => put_bot b
  | ReqPutCookies b => put_cookies b
  | ReqAddRateLimit name key requests window_secs burst scope => add_rate_limit name key requests window_secs burst scope
  | ReqRemoveRateLimit name => remove_rate_limit name
  | ReqPutAcl a => put_acl a
  | ReqRelayGet => relay_get
  | ReqRelayUpdate r => relay_update r
  | ReqTrustedHostAdd body => trusted_host_add body
  | ReqTrustedHostRemove host => trusted_host_remove host
  | ReqGlobalGet => global_get
  | ReqGlobalUpdate g => global_update g
  | ReqAcmeGet => acme_get
  | ReqAcmeUpdate a => acme_update a
  | ReqWebuiSettingsGet => webui_settings_get
  | ReqWebuiSettingsUpdate l => webui_settings_update l
  end.
End Requests.

(** ** Every request is disciplined *)

Definition accepted (r : response) : Prop := fst r < 300.
Definition refused (r : response) : Prop := 400 <= fst r.

Definition uses_key_file (r : ApiRequest) : bool :=
  match r with ReqDkimGenerate _ | ReqDkimDnsRecord _ => true | _ => false end.

Lemma edit_answer_atomic (allowed : bytes -> Prop) f good bad :
  allowed DEFAULT_PID_FILE -> accepted good -> 400 <= bad -> atomic allowed accepted refused (edit_answer f good bad).
Proof. intros Hp Hg Hb. split; [by split|done]. Qed.

Lemma edit_answer_coherent f good bad : coherent (edit_answer f good bad).
Proof. by split. Qed.

(** Follows the structure of a handler. *)
Ltac head_of t := lazymatch t with ?f _ => head_of f | _ => t end.
Ltac request :=
  repeat first
    [ done
    | apply edit_answer_atomic; [done|by compute|by compute]
    | progress cbn [atomic finishes]
    | case_match
    | progress intros
    | lazymatch goal with |- atomic _ _ _ ?p => let h := head_of p in progress unfold h end
    | split ].

Section RequestsAtomic.
Context `{IpNetworkLib} `{OpensslRsa} (allowed : bytes -> Prop).
Hypothesis pid_allowed : allowed DEFAULT_PID_FILE.

Lemma request_atomic r : uses_key_file r = false -> atomic allowed accepted refused (handle r).
Proof. intros Hr. destruct r; try done; cbn [handle]; request. Qed.

Lemma dkim_generate_coherent body : coherent (dkim_generate body).
Proof.
  unfold dkim_generate. case_match; [|done]. cbn. intros [?|?]; [|done]. cbn. destruct rsa_generate as [rsa|]; [|done].
  cbn. destruct (from_rsa rsa); [|done]. cbn. destruct (rsa_to_pem rsa); [|done]. cbn. intros [?|?]; [|done]. cbn.
  intros [?|?]; [|done]. cbn. destruct (public_key_to_der rsa); [|done]. by split.
Qed.

Lemma request_coherent r : coherent (handle r).
Proof.
  destruct r; cbn [handle]; try apply dkim_generate_coherent;
    repeat first
      [ done
      | apply edit_answer_coherent
      | progress cbn [coherent]
      | case_match
      | progress intros
      | lazymatch goal with |- coherent ?p => let h := head_of p in progress unfold h end
      | split ].
Qed.
End RequestsAtomic.

(** ** The theorems *)

Section Transactions.
Context `{TomlSpec} `{SerdeJson} `{Unicode} `{IpNetworkLib} `{OpensslRsa}.
Context (pause : gmap bytes bytes -> gmap bytes bytes) (pid : Z) (kill : Z -> bool) (path : bytes).
Context (checks_from_str : bytes -> result AntispamChecksUpdate bytes).

Lemma atomic_transaction {A} (good bad : A -> Prop) (p : prog A) (m : Model) (w : World) :
  atomic (fun q => ~ reserved pid path q) good bad p -> represents pid path m w ->
  forallb representable (m_written (snd (spec_run kill p m))) = true ->
  exists r w' m', run pause pid kill path p w = (r, w') /\ represents pid path m' w' /\
    m' = snd (spec_run kill p m) /\ outcome kill good bad p m r m'.
Proof.
  intros Ha Hr Hw. destruct (run_represents pause pid kill path p m w (atomic_avoids kill pid path _ _ p m Ha) Hr Hw)
    as (w' & Hrun & Hr'). do 3 eexists. split; [exact Hrun|]. split; [exact Hr'|]. split; [done|].
  by eapply atomic_run.
Qed.

Lemma main_atomic allowed nr c :
  atomic allowed succeeded failed (cli_run checks_from_str path nr c) ->
  atomic allowed (fun s => s = 0) (fun s => s = 1) (cli_main checks_from_str path nr c).
Proof.
  intros Ha. apply (atomic_map _ _ _ _ _ _ _ Ha); [by intros ? [x ->]|by intros ? [e ->]|by intros [?|?]].
Qed.


End Transactions.

(** ** Witnesses *)

#[export] Instance no_serde_json : SerdeJson | 100 := {|
  value_pretty _ := Ok [];
  value_compact _ := [];
  struct_pretty _ _ _ := Ok [];
  struct_from_str _ _ _ := Err (bs "not parsed");
|}.

(** A key that is its own encoding. *)
#[export] Instance plain_rsa : OpensslRsa | 100 := {|
  Rsa := bytes;
  rsa_generate := Ok (bs "key-2");
  from_rsa _ := Ok tt;
  rsa_to_pem k := Ok k;
  PKey := bytes;
  private_key_from_pem pem := Ok pem;
  pkey_rsa k := Ok k;
  public_key_to_der k := Ok (bs "pub:" ++ k);
  encode_block x := x;
|}.

Definition no_checks (text : bytes) : result AntispamChecksUpdate bytes := Err (bs "not parsed").

Definition example_model (d : disk) : Model :=
  mkModel (settled example_config) (files d) (settled example_config) [] [] [].
Definition example_world (d : disk) : World := mkWorld d (settled example_config) [] [].

Lemma example_represents d :
  stores 7 example_path (settled example_config) d -> represents 7 example_path (example_model d) (example_world d).
Proof. by constructor. Qed.

Lemma not_reserved p :
  negb (bool_decide (p = example_path) || bool_decide (p = tmp_path 7 example_path) ||
        bool_decide (p = lock_path example_path)) = true -> ~ reserved 7 example_path p.
Proof. rewrite negb_true_iff, !orb_false_iff, !bool_decide_eq_false. unfold reserved. naive_solver. Qed.

Definition trust_command : Command := CmdRelay false (AddTrustedHost (bs "10.0.0.0/8")).


Definition trust_request : ApiRequest := ReqTrustedHostAdd (JObject [(bs "host", JString (bs "10.0.0.0/8"))]).

