(* ===== verification/AdminProps.v ===== *)
(** * Properties of the administration of mail and of the views of the settings

    Key generation for DKIM, the SPF records the command line tool reads and prints, the
    agreement of the two programs on them, and what the answers of the web interface tell of
    the settings. *)

From S2P Require Import Prelude RustStr Float64 Net External Toml Schema Fields Fs Config Proto Admin Cli CliSecurity CliMail WebApi WebMail AdminSpec.
Open Scope Z_scope.

(** ** DKIM keys *)

(** Documented behaviour of OpenSSL: the PEM text of a private key is read back as that key. *)
Class OpensslRsaSpec `{OpensslRsa} := {
  pem_of_key k pem : rsa_to_pem k = Ok pem -> exists pk, private_key_from_pem pem = Ok pk /\ pkey_rsa pk = Ok k;
}.

Section Dkim.
Context `{OpensslRsaSpec} `{IpNetworkLib} (kill : Z -> bool).

Definition dkim_entry_of (key_dir : option bytes) (domain selector : bytes) : DkimDomainConfig :=
  mkDkimDomain domain selector (dkim_key_file key_dir domain selector) (bs "rsa-sha256").

(** The state after the key file is written, and the command as it goes on from there. *)
Lemma generate_steps nr domain selector key_dir m k pem der :
  rsa_generate = Ok k -> from_rsa k = Ok tt -> rsa_to_pem k = Ok pem -> public_key_to_der k = Ok der ->
  let f := add_dkim_domain (dkim_entry_of key_dir domain selector) in
  let m1 := with_config f (with_file (dkim_key_file key_dir domain selector) pem m) in
  spec_run kill (cli_dkim_generate nr domain selector key_dir) m =
  match fst (spec_edit f (m_config m)) with
  | Err e => (Err (show_error e), m1)
  | Ok _ =>
      spec_run kill (maybe_reload nr)
        (foldl (fun m l => with_output l m) m1
           [bs "Generated DKIM key: " ++ dkim_key_file key_dir domain selector; [];
            bs "Add this DNS TXT record:"; bs "  " ++ dkim_record selector domain (encode_block der); []])
  end.
Proof.
  intros Hk Hf Hp Hd. unfold cli_dkim_generate. rewrite Hk. cbn -[bs]. rewrite Hf. cbn -[bs]. rewrite Hp. cbn -[bs].
  rewrite Hd. cbn -[bs spec_edit]. fold (dkim_entry_of key_dir domain selector).
  by destruct (fst (spec_edit (add_dkim_domain (dkim_entry_of key_dir domain selector)) (m_config m))) as [[]|e].
Qed.

Lemma generate_Ok nr domain selector key_dir m :
  fst (spec_run kill (cli_dkim_generate nr domain selector key_dir) m) = Ok tt ->
  exists k pem der, rsa_generate = Ok k /\ from_rsa k = Ok tt /\ rsa_to_pem k = Ok pem /\ public_key_to_der k = Ok der /\
    fst (spec_edit (add_dkim_domain (dkim_entry_of key_dir domain selector)) (m_config m)) = Ok tt.
Proof.
  destruct rsa_generate as [k|e] eqn:Hk; [|unfold cli_dkim_generate; by rewrite Hk].
  destruct (from_rsa k) as [[]|e] eqn:Hf; [|unfold cli_dkim_generate; rewrite Hk; cbn -[bs]; by rewrite Hf].
  destruct (rsa_to_pem k) as [pem|e] eqn:Hp;
    [|unfold cli_dkim_generate; rewrite Hk; cbn -[bs]; rewrite Hf; cbn -[bs]; by rewrite Hp].
  destruct (public_key_to_der k) as [der|e] eqn:Hd;
    [|unfold cli_dkim_generate; rewrite Hk; cbn -[bs]; rewrite Hf; cbn -[bs]; rewrite Hp; cbn -[bs]; by rewrite Hd].
  rewrite (generate_steps nr domain selector key_dir m k pem der) by done. cbv zeta.
  destruct (fst (spec_edit _ _)) as [[]|e]; [|done]. intros _. by exists k, pem, der.
Qed.

(** What a reload adds to the state is output. *)
Lemma maybe_reload_run nr m :
  exists out err, spec_run kill (maybe_reload nr) m =
    (Ok tt, mkModel (m_config m) (m_files m) (m_cache m) (m_out m ++ out) (m_err m ++ err) (m_written m)).
Proof.
  destruct nr; [exists [], []; rewrite !app_nil_r; by destruct m|]. cbn -[bs].
  destruct (fst (send_reload_signal _ _ _)) as [[]|e]; [exists [bs "Reload signal sent to serverwall daemon."], []|];
    [by rewrite app_nil_r|]. eexists [], [_]. by rewrite app_nil_r.
Qed.

Lemma added_found domain selector key_dir c c' :
  spec_edit (add_dkim_domain (dkim_entry_of key_dir domain selector)) c = (Ok tt, c') ->
  List.find (fun d => bool_decide (dd_domain d = domain)) (rd_domains (rel_dkim (cfg_relay c'))) =
  Some (dkim_entry_of key_dir domain selector).
Proof.
  unfold spec_edit, add_dkim_domain, on_list, add_new. destruct (existsb _ _) eqn:E; [done|]. cbn -[validate_config bs].
  destruct (validate_config _); [|done]. intros [= <-]. cbn -[bs]. unfold dkim_domains in *.
  induction (rd_domains (rel_dkim (cfg_relay c))) as [|d l IH]; cbn -[bs] in *; [by rewrite bool_decide_eq_true_2|].
  apply orb_false_iff in E as [-> E]. by apply IH.
Qed.
End Dkim.

Section DkimDisk.
Context `{TomlSpec} `{OpensslRsaSpec} `{IpNetworkLib} (pause : gmap bytes bytes -> gmap bytes bytes) (pid : Z)
  (kill : Z -> bool) (path : bytes).

Lemma maybe_reload_avoids nr m : ~ reserved pid path DEFAULT_PID_FILE -> avoids pid kill path (maybe_reload nr) m.
Proof. intros Hp. destruct nr; [done|]. split; [done|]. by destruct (fst _). Qed.

Lemma generate_avoids nr domain selector key_dir m :
  ~ reserved pid path DEFAULT_PID_FILE -> ~ reserved pid path (dkim_key_file key_dir domain selector) ->
  avoids pid kill path (cli_dkim_generate nr domain selector key_dir) m.
Proof.
  intros Hp Hk. unfold cli_dkim_generate. cbn -[bs reserved].
  destruct rsa_generate as [k|]; [|done]. cbn -[bs reserved]. destruct (from_rsa k); [|done]. cbn -[bs reserved].
  destruct (rsa_to_pem k); [|done]. cbn -[bs reserved]. split; [done|]. destruct (public_key_to_der k); [|done].
  cbn -[bs reserved spec_edit]. destruct (fst (spec_edit _ _)) as [[]|e]; [|done]. by apply maybe_reload_avoids.
Qed.

(** The state after a successful generation. *)
Lemma generated nr domain selector key_dir m k pem der :
  rsa_generate = Ok k -> from_rsa k = Ok tt -> rsa_to_pem k = Ok pem -> public_key_to_der k = Ok der ->
  fst (spec_edit (add_dkim_domain (dkim_entry_of key_dir domain selector)) (m_config m)) = Ok tt ->
  let m1 := snd (spec_run kill (cli_dkim_generate nr domain selector key_dir) m) in
  m_files m1 = <[dkim_key_file key_dir domain selector := pem]> (m_files m) /\
  bs "  " ++ dkim_record selector domain (encode_block der) ∈ m_out m1 /\
  spec_edit (add_dkim_domain (dkim_entry_of key_dir domain selector)) (m_config m) = (Ok tt, m_config m1).
Proof.
  intros Hk Hf Hp Hd He. rewrite (generate_steps kill nr domain selector key_dir m k pem der) by done. cbv zeta. rewrite He.
  match goal with |- context [spec_run kill (maybe_reload nr) ?m'] =>
    destruct (maybe_reload_run kill nr m') as (out & err & ->) end.
  cbn -[bs spec_edit dkim_record dkim_key_file]. split; [done|]. split; [set_solver|].
  by rewrite <- He, <- surjective_pairing.
Qed.

Lemma record_run domain m entry pem k pk der :
  List.find (fun d => bool_decide (dd_domain d = domain)) (rd_domains (rel_dkim (cfg_relay (m_config m)))) = Some entry ->
  m_files m !! dd_key_file entry = Some pem ->
  private_key_from_pem pem = Ok pk -> pkey_rsa pk = Ok k -> public_key_to_der k = Ok der ->
  spec_run kill (cli_dkim_dns_record domain) m =
    (Ok tt, with_output (dkim_record (dd_selector entry) domain (encode_block der)) m).
Proof.
  intros He Hf Hpk Hk Hd. unfold cli_dkim_dns_record. cbn -[bs]. unfold find_or. rewrite He. cbn -[bs].
  unfold fs_read. cbn -[bs]. rewrite Hf. cbn -[bs]. rewrite Hpk. cbn -[bs]. rewrite Hk. cbn -[bs]. by rewrite Hd.
Qed.

Lemma record_avoids domain m entry :
  List.find (fun d => bool_decide (dd_domain d = domain)) (rd_domains (rel_dkim (cfg_relay (m_config m)))) = Some entry ->
  ~ reserved pid path (dd_key_file entry) -> avoids pid kill path (cli_dkim_dns_record domain) m.
Proof.
  intros He Hk. unfold cli_dkim_dns_record. cbn -[bs reserved]. unfold find_or. rewrite He. cbn -[bs reserved fs_read].
  split; [done|]. destruct (fst (fs_read (dd_key_file entry) _)) as [pem|]; [|done]. cbn -[bs]. destruct (private_key_from_pem pem) as [pk|]; [|done].
  cbn -[bs]. destruct (pkey_rsa pk) as [k|]; [|done]. cbn -[bs]. by destruct (public_key_to_der k).
Qed.

(** The record an operator was told to publish, indented, is among the lines printed. *)
Definition told_to_publish (record : bytes) (lines : list bytes) : Prop := bs "  " ++ record ∈ lines.

(** C33: when [dkim generate] succeeds, [dkim dns-record] for the domain, run on the files it left,
    prints the very TXT record that [generate] told the operator to publish: the configuration
    names the key file, and the public key derived from that file is the one that was shown. *)
Theorem generated_record_served (nr : bool) (domain selector : bytes) (key_dir : option bytes) (m : Model) (w w1 : World) :
  represents pid path m w ->
  ~ reserved pid path DEFAULT_PID_FILE -> ~ reserved pid path (dkim_key_file key_dir domain selector) ->
  forallb representable (m_written (snd (spec_run kill (cli_dkim_generate nr domain selector key_dir) m))) = true ->
  run pause pid kill path (cli_dkim_generate nr domain selector key_dir) w = (Ok tt, w1) ->
  exists record w2, told_to_publish record (w_out w1) /\
    run pause pid kill path (cli_dkim_dns_record domain) w1 = (Ok tt, w2) /\ w_out w2 = w_out w1 ++ [record].
Proof.
  intros Hr Hp Hk Hw Hrun.
  destruct (run_represents pause pid kill path _ m w (generate_avoids nr domain selector key_dir m Hp Hk) Hr Hw)
    as (w1' & Hrun' & Hr1).
  rewrite Hrun in Hrun'. injection Hrun' as Hok <-. symmetry in Hok.
  destruct (generate_Ok kill _ _ _ _ _ Hok) as (k & pem & der & Hgen & Hfrom & Hpem & Hder & He).
  destruct (generated nr domain selector key_dir m k pem der Hgen Hfrom Hpem Hder He) as (Hf & Ho & He').
  destruct (pem_of_key k pem Hpem) as (pk & Hpk & Hkey). apply added_found in He'.
  set (m1 := snd (spec_run kill (cli_dkim_generate nr domain selector key_dir) m)) in *.
  assert (Hrec := record_run domain m1 _ pem k pk der He' ltac:(by rewrite Hf, lookup_insert_eq) Hpk Hkey Hder).
  destruct (run_represents pause pid kill path _ m1 w1 (record_avoids domain m1 _ He' Hk) Hr1) as (w2 & Hrun2 & Hr2);
    [by rewrite Hrec|]. rewrite Hrec in Hrun2, Hr2.
  exists (dkim_record selector domain (encode_block der)), w2.
  rewrite (rep_out _ _ _ _ Hr1), (rep_out _ _ _ _ Hr2). by split; [|split].
Qed.

(** [dkim generate] for a domain that is configured already fails and leaves the configuration
    as it was, but it has replaced the contents of the key file: when the selector is the
    configured one, the relay signs from then on with a key that is not the published one. *)
Theorem failed_generate_replaces_key (nr : bool) (domain selector pem der : bytes) (key_dir : option bytes) (m : Model)
    (w : World) (key : Rsa) :
  represents pid path m w ->
  ~ reserved pid path DEFAULT_PID_FILE -> ~ reserved pid path (dkim_key_file key_dir domain selector) ->
  rsa_generate = Ok key -> from_rsa key = Ok tt -> rsa_to_pem key = Ok pem -> public_key_to_der key = Ok der ->
  domain ∈ dd_domain <$> dkim_domains (m_config m) -> forallb representable (m_written m) = true ->
  exists e w', run pause pid kill path (cli_dkim_generate nr domain selector key_dir) w = (Err e, w') /\
    load_config path (w_disk w') = (Ok (m_config m), w_disk w') /\
    files (w_disk w') !! dkim_key_file key_dir domain selector = Some pem.
Proof.
  intros Hr Hp Hk Hgen Hfrom Hpem Hder Hin Hw.
  assert (He : exists e, add_dkim_domain (dkim_entry_of key_dir domain selector) (m_config m) = Err e).
  { unfold add_dkim_domain, on_list, add_new. rewrite (proj2 (existsb_exists _ _)); [by eexists|].
    apply list_elem_of_fmap in Hin as (d & -> & Hd). exists d. split; [by apply list_elem_of_In|].
    by apply bool_decide_eq_true_2. }
  destruct He as [e He].
  assert (Hspec : spec_run kill (cli_dkim_generate nr domain selector key_dir) m =
    (Err (show_error e), with_file (dkim_key_file key_dir domain selector) pem m)).
  { rewrite (generate_steps kill nr domain selector key_dir m key pem der) by done. cbv zeta. unfold with_config.
    cbn [m_config with_file spec_written]. unfold spec_edit. rewrite He. cbn. by rewrite app_nil_r. }
  destruct (run_represents pause pid kill path _ m w (generate_avoids nr domain selector key_dir m Hp Hk) Hr)
    as (w' & Hrun & Hr'); [by rewrite Hspec|]. rewrite Hspec in Hrun, Hr'.
  exists (show_error e), w'. split; [exact Hrun|]. split; [apply (stores_load pid), (rep_stores _ _ _ _ Hr')|].
  rewrite (rep_files _ _ _ _ Hr') by done. cbn. by rewrite lookup_insert_eq.
Qed.
End DkimDisk.

(** ** SPF records *)

(** A mechanism as a record can carry it: a qualifier, a name that is no qualifier and has no
    colon, and a value that is absent or not empty; none has a space. *)
Record mechanism_ok (m : SpfMechanism) : Prop := {
  mo_qualifier : exists c, sm_qualifier m = [c] /\ is_qualifier c = true;
  mo_name : exists c r, sm_mechanism m = c :: r /\ is_qualifier c = false;
  mo_colon : 58 ∉ sm_mechanism m;
  mo_space : 32 ∉ sm_mechanism m;
  mo_value v : sm_value m = Some v -> v <> [] /\ 32 ∉ v;
}.

Lemma not_in_text c s : existsb (Z.eqb c) s = false -> c ∉ s.
Proof.
  intros He Hin%list_elem_of_In. apply not_true_iff_false in He. apply He, existsb_exists. exists c. by rewrite Z.eqb_refl.
Qed.

Lemma parse_show_mechanism m : mechanism_ok m -> parse_mechanism (show_mechanism m) = m.
Proof.
  intros [(q & Hq & Hqual) (c & r & Hn & Hc) Hcol Hsp Hv]. destruct m as [mq mn mv]; cbn in *; subst mq mn.
  unfold show_mechanism, parse_mechanism. cbn [sm_qualifier sm_mechanism sm_value].
  assert (Hrest : forall q0, (match split_once (match mv with Some (x :: v) => (c :: r) ++ bs ":" ++ x :: v | _ => c :: r end) 58 with
    | Some (mechanism, value) => mkSpfMechanism q0 mechanism (Some value)
    | None => mkSpfMechanism q0 (match mv with Some (x :: v) => (c :: r) ++ bs ":" ++ x :: v | _ => c :: r end) None end)
    = mkSpfMechanism q0 (c :: r) mv).
  { intros q0. destruct mv as [[|x v]|]; [by destruct (Hv [] eq_refl)| |].
    - change (bs ":" ++ x :: v) with (58 :: x :: v). by rewrite split_once_app.
    - by rewrite (proj2 (split_once_None (c :: r) 58)). }
  case_bool_decide as Hplus.
  - injection Hplus as ->. specialize (Hrest (bs "+")). destruct mv as [[|x v]|]; cbn [app] in *; by rewrite Hc.
  - specialize (Hrest [q]). destruct mv as [[|x v]|]; cbn [app] in *; by rewrite Hqual.
Qed.

Lemma show_mechanism_plain m : mechanism_ok m -> show_mechanism m <> [] /\ 32 ∉ show_mechanism m.
Proof.
  intros [(q & Hq & Hqual) (c & r & Hn & Hc) Hcol Hsp Hv]. unfold show_mechanism. rewrite Hq, Hn in *.
  assert (Hq32 : 32 ∉ [q]) by (intros E%list_elem_of_singleton; subst q; by vm_compute in Hqual).
  assert (H58 : 32 ∉ bs ":") by by apply not_in_text.
  destruct (sm_value m) as [[|x v]|] eqn:Ev; case_bool_decide; cbn [app]; (split; [done|]);
    try specialize (Hv _ eq_refl); set_solver.
Qed.

(** An SPF record printed for a domain reads back as its configuration: its words are the
    version, the mechanisms in their order and the policy, and the command line tool parses
    the middle ones into the mechanisms it was printed from.  The web interface builds the
    same record. *)
Theorem spf_record_roundtrip (d : SpfDomainConfig) :
  Forall mechanism_ok (sd_mechanisms d) -> 32 ∉ sd_all d ->
  exists words, split (spf_record d) 32 = [bs "v=spf1"] ++ words ++ [sd_all d] /\
    parse_mechanisms words = sd_mechanisms d /\
    build_spf_record d = sd_domain d ++ bs "  IN TXT  " ++ in_quotes (spf_record d).
Proof.
  intros Hm Ha. exists (show_mechanism <$> sd_mechanisms d). split; [|split; [|done]].
  - unfold spf_record. change (bs " ") with [32]. apply split_join; [done|].
    rewrite !Forall_app, !Forall_singleton, Forall_fmap. split; [by apply not_in_text|].
    split; [|done]. eapply Forall_impl; [exact Hm|]. intros m Hok. by apply show_mechanism_plain.
  - unfold parse_mechanisms. induction Hm as [|m l Hok Hl IH]; [done|]. cbn [fmap list_fmap List.filter].
    destruct (show_mechanism m) as [|x s] eqn:E; [by destruct (show_mechanism_plain m Hok)|].
    cbn [is_nil negb fmap list_fmap]. rewrite <- E, (parse_show_mechanism m Hok). by f_equal.
Qed.

Definition example_spf : SpfDomainConfig :=
  mkSpfDomain (bs "example.com")
    [mkSpfMechanism (bs "+") (bs "mx") None; mkSpfMechanism (bs "-") (bs "ip6") (Some (bs "2001:db8::/32"))] (bs "~all").

Lemma spf_record_roundtrip_witness :
  spf_record example_spf = bs "v=spf1 mx -ip6:2001:db8::/32 ~all" /\
  exists words, split (spf_record example_spf) 32 = [bs "v=spf1"] ++ words ++ [sd_all example_spf] /\
    parse_mechanisms words = sd_mechanisms example_spf /\
    build_spf_record example_spf = sd_domain example_spf ++ bs "  IN TXT  " ++ in_quotes (spf_record example_spf).
Proof.
  split; [vm_compute; reflexivity|]. apply (spf_record_roundtrip example_spf); [|by apply not_in_text].
  repeat constructor; cbn; try (by apply not_in_text); try (eexists; by split); try (do 2 eexists; by split);
    try done; injection H as <-; try done; by apply not_in_text.
Defined.

(** ** What the answers tell *)

#[local] Instance jstr_inj : Inj (=) (=) jstr.
Proof. by intros ? ? [=]. Qed.
#[local] Instance jbool_inj : Inj (=) (=) jbool.
Proof. by intros ? ? [=]. Qed.
#[local] Instance jnum_inj : Inj (=) (=) jnum.
Proof. by intros ? ? [=]. Qed.
#[local] Instance jopt_inj : Inj (=) (=) jopt.
Proof. by intros [] [] [=]; subst. Qed.
#[local] Instance joptnum_inj : Inj (=) (=) joptnum.
Proof. by intros [] [] [=]; subst. Qed.
#[local] Instance joptbool_inj : Inj (=) (=) joptbool.
Proof. by intros [] [] [=]; subst. Qed.
#[local] Instance jlist_inj {A} (f : A -> json) : Inj (=) (=) f -> Inj (=) (=) (jlist f).
Proof. intros Hf l l' E. injection E as E. by apply list_fmap_eq_inj in E. Qed.
#[local] Instance jstrings_inj : Inj (=) (=) jstrings.
Proof. apply (jlist_inj JString). by intros ? ? [=]. Qed.

#[local] Instance protocol_name_inj : Inj (=) (=) ProtocolType_name.
Proof. by intros [] []. Qed.
#[local] Instance balancer_name_inj : Inj (=) (=) BalanceMethod_name.
Proof. by intros [] []. Qed.
#[local] Instance log_format_name_inj : Inj (=) (=) LogFormat_name.
Proof. by intros [] []. Qed.
#[local] Instance default_action_name_inj : Inj (=) (=) AclDefaultAction_name.
Proof. by intros [] []. Qed.
#[local] Instance waf_mode_name_inj : Inj (=) (=) ConfigWafMode_name.
Proof. by intros [] []. Qed.
#[local] Instance check_type_name_inj : Inj (=) (=) HealthCheckType_name.
Proof. by intros [] []. Qed.

Lemma first_member k v l k' v' l' :
  JObject ((k, v) :: l) = JObject ((k', v') :: l') -> v = v' /\ JObject l = JObject l'.
Proof. by intros [= _ -> ->]. Qed.

(** An equation between two objects with the same members. *)
Ltac same_members :=
  let E := fresh in intros E;
  repeat match type of E with
  | _ => let H := fresh in apply first_member in E as [H E]
  end; cbn -[bs jopt joptnum joptbool jstrings jlist jbool jstr jnum] in *; simplify_eq; try done.
Ltac same_view := intros [] []; same_members.

#[local] Instance backend_json_inj : Inj (=) (=) backend_json.
Proof. same_view. Qed.
#[local] Instance pool_json_inj : Inj (=) (=) pool_json.
Proof. same_view. Qed.
#[local] Instance custom_rule_json_inj : Inj (=) (=) custom_rule_json.
Proof. same_view. Qed.
#[local] Instance ruleset_json_inj : Inj (=) (=) ruleset_json.
Proof. intros [? ? ? ? ? [] ?] [? ? ? ? ? [] ?]; cbn -[bs jopt jstrings jlist]; same_members. Qed.
#[local] Instance log_profile_json_inj : Inj (=) (=) log_profile_json.
Proof. same_view. Qed.
#[local] Instance global_json_inj : Inj (=) (=) global_json.
Proof. same_view. Qed.
#[local] Instance acme_json_inj : Inj (=) (=) acme_json.
Proof. same_view. Qed.
#[local] Instance tls_json_inj : Inj (=) (=) tls_json.
Proof. same_view. Qed.
#[local] Instance geo_json_inj : Inj (=) (=) geo_json.
Proof. same_view. Qed.
#[local] Instance headers_json_inj : Inj (=) (=) headers_json.
Proof. same_view. Qed.
#[local] Instance bot_json_inj : Inj (=) (=) bot_json.
Proof. same_view. Qed.
#[local] Instance cookies_json_inj : Inj (=) (=) cookies_json.
Proof. same_view. Qed.
#[local] Instance path_pattern_json_inj : Inj (=) (=) path_pattern_json.
Proof. same_view. Qed.
#[local] Instance custom_header_json_inj : Inj (=) (=) custom_header_json.
Proof. same_view. Qed.
#[local] Instance scope_json_inj : Inj (=) (=) scope_json.
Proof. same_view. Qed.
#[local] Instance acl_json_inj : Inj (=) (=) acl_json.
Proof. intros [? ? [] [] ?] [? ? [] [] ?]; cbn -[bs jstrings jlist]; same_members. Qed.
#[local] Instance rate_limit_json_inj : Inj (=) (=) rate_limit_json.
Proof.
  intros [? ? ? ? ? [[]|]] [? ? ? ? ? [[]|]]; cbn -[bs joptnum jopt]; same_members.
Qed.
Lemma security_json_parts s s' : security_json s = security_json s' ->
  sec_tls s = sec_tls s' /\ sec_geo s = sec_geo s' /\ sec_headers s = sec_headers s' /\
  sec_bot_detection s = sec_bot_detection s' /\ sec_cookies s = sec_cookies s' /\ sec_acl s = sec_acl s' /\
  sec_rate_limit s = sec_rate_limit s'.
Proof. unfold security_json. same_members. Qed.
#[local] Instance frontend_headers_json_inj : Inj (=) (=) frontend_headers_json.
Proof. same_view. Qed.
#[local] Instance smtp_headers_json_inj : Inj (=) (=) smtp_headers_json.
Proof. same_view. Qed.
#[local] Instance frontend_acl_json_inj : Inj (=) (=) frontend_acl_json.
Proof. same_view. Qed.
#[local] Instance frontend_json_inj : Inj (=) (=) frontend_json.
Proof. same_view. Qed.

(** An answer determines what it describes. *)
Definition shows_all {A} (view : A -> json) : Prop := forall x x', view x = view x' -> x = x'.

(** The answers of the web interface on a frontend, a backend pool, a rule set, a logging
    profile, the global and the ACME settings determine what they describe, and the one on
    the security settings determines each of its seven sections: no setting that the
    corresponding update replaces is missing from the answer. *)
Theorem views_complete :
  shows_all frontend_json /\ shows_all pool_json /\ shows_all ruleset_json /\ shows_all log_profile_json /\
  shows_all global_json /\ shows_all acme_json /\
  (forall s s', security_json s = security_json s' ->
     sec_tls s = sec_tls s' /\ sec_geo s = sec_geo s' /\ sec_headers s = sec_headers s' /\
     sec_bot_detection s = sec_bot_detection s' /\ sec_cookies s = sec_cookies s' /\ sec_acl s = sec_acl s' /\
     sec_rate_limit s = sec_rate_limit s').
Proof. unfold shows_all. repeat split; try (intros; by eapply inj; [apply _|]); by apply security_json_parts. Qed.

(** The answers on the relay settings and on a security profile do not determine them.
    Whatever a client computes from what [GET /api/relay] answers, writing it back with [PUT]
    loses the published DMARC or SPF domains of some configuration; likewise the compression
    settings or the path of the GeoIP database of a security profile. *)
Theorem views_incomplete :
  (forall client : json -> RelayConfig, exists r, client (relay_json r) <> r) /\
  (forall client : json -> SecurityProfile, exists p, client (profile_json p) <> p).
Proof.
  split; intros client.
  - set (d := mkSpfDomain (bs "example.com") [] (bs "-all")).
    set (r1 := RelayConfig_default). set (r2 := upd_rel_spf_publish (upd_rsp_domains (fun _ => [d])) r1).
    destruct (decide (length (rsp_domains (rel_spf_publish (client (relay_json r1)))) = 0%nat)) as [E|E].
    + exists r2. change (relay_json r2) with (relay_json r1). intros Hc. rewrite Hc in E. done.
    + exists r1. intros Hc. by rewrite Hc in E.
  - set (p1 := mkSecProfile [] [] [] false None SecurityHeadersConfig_default CookieSecurityConfig_default
      BotDetectionConfig_default (mkGeoConfig false None [] []) None [] [] None false false).
    set (p2 := upd_sp_geo (upd_geo_database_path (fun _ => Some [])) p1).
    destruct (geo_database_path (sp_geo (client (profile_json p1)))) as [x|] eqn:E.
    + exists p1. intros Hc. by rewrite Hc in E.
    + exists p2. change (profile_json p2) with (profile_json p1). intros Hc. by rewrite Hc in E.
Qed.

(** ** Witnesses *)

#[export] Instance plain_rsa_spec : @OpensslRsaSpec plain_rsa.
Proof. constructor. intros k pem [= ->]. by exists pem. Qed.

Definition generate_example : cmd unit := cli_dkim_generate true (bs "example.com") (bs "mail") (Some (bs "/keys")).

Lemma key_file_free : ~ reserved 7 example_path (dkim_key_file (Some (bs "/keys")) (bs "example.com") (bs "mail")).
Proof. apply not_reserved. vm_compute. reflexivity. Qed.
Lemma pid_file_free : ~ reserved 7 example_path DEFAULT_PID_FILE.
Proof. apply not_reserved. vm_compute. reflexivity. Qed.

Lemma generate_example_fits d :
  forallb representable (m_written (snd (spec_run (fun _ => true) generate_example (example_model d)))) = true.
Proof. vm_compute. reflexivity. Qed.

Lemma generate_example_runs d :
  stores 7 example_path (settled example_config) d ->
  exists w1, run id 7 (fun _ => true) example_path generate_example (example_world d) = (Ok tt, w1).
Proof.
  intros Hst.
  destruct (run_represents id 7 (fun _ => true) example_path generate_example (example_model d) (example_world d))
    as (w1 & Hrun & _);
    [apply (generate_avoids 7 _ example_path); [exact pid_file_free|exact key_file_free]|by apply example_represents
    |vm_compute; reflexivity|].
  exists w1. rewrite Hrun. f_equal.
Qed.

Lemma generated_record_served_witness :
  exists d w1 record w2,
    run id 7 (fun _ => true) example_path generate_example (example_world d) = (Ok tt, w1) /\
    told_to_publish record (w_out w1) /\
    run id 7 (fun _ => true) example_path (cli_dkim_dns_record (bs "example.com")) w1 = (Ok tt, w2) /\
    w_out w2 = w_out w1 ++ [record].
Proof.
  destruct example_stored as [d Hst]. destruct (generate_example_runs d Hst) as [w1 Hrun].
  destruct (generated_record_served id 7 (fun _ => true) example_path true (bs "example.com") (bs "mail") (Some (bs "/keys"))
    (example_model d) (example_world d) w1 (example_represents d Hst) pid_file_free key_file_free
    (generate_example_fits d) Hrun) as (record & w2 & Ho & Hr & Hw).
  by exists d, w1, record, w2.
Defined.

(** A configuration that signs for the domain already. *)
Definition signing_config : ServerWallConfig :=
  upd_dkim_domains (fun _ => [dkim_entry_of (Some (bs "/keys")) (bs "example.com") (bs "mail")]) example_config.

Lemma signing_stored : exists d, @stores coded_toml host_networks 7 example_path (settled signing_config) d.
Proof.
  destruct (write_stores (H1 := host_networks) id 7 example_path signing_config (mkDisk ∅ []))
    as (d & _ & Hst & _); [vm_compute; reflexivity..|by eexists|vm_compute; discriminate|by exists d].
Qed.

Lemma failed_generate_replaces_key_witness :
  exists d e w', run id 7 (fun _ => true) example_path generate_example (mkWorld d (settled signing_config) [] []) =
      (Err e, w') /\
    load_config example_path (w_disk w') = (Ok (settled signing_config), w_disk w') /\
    files (w_disk w') !! dkim_key_file (Some (bs "/keys")) (bs "example.com") (bs "mail") = Some (bs "key-2").
Proof.
  destruct signing_stored as [d Hst]. exists d.
  apply (failed_generate_replaces_key id 7 (fun _ => true) example_path true (bs "example.com") (bs "mail") (bs "key-2")
    (bs "pub:key-2") (Some (bs "/keys")) (mkModel (settled signing_config) (files d) (settled signing_config) [] [] [])
    _ (bs "key-2" : @Rsa plain_rsa));
    [by constructor|exact pid_file_free|exact key_file_free|reflexivity|reflexivity|reflexivity|reflexivity|by left|reflexivity].
Defined.
