(* ===== verification/WebCerts.v ===== *)
(** * The web interface: certificates

    [routes/certificates.rs] (upload, self-signed certificates, deletion),
    [routes/system.rs] (the certificate of the web interface itself) and [webui/src/tls.rs].
    The handlers work on the files of [Fs.v]; [CertViews.v] has the listing of the certificates
    and of the attributes of one. *)

From S2P Require Import Prelude RustStr Float64 Net External Toml Schema Fields Fs Config CertStore AntispamPost Proto Admin Cli CliSecurity WebApi.
Open Scope Z_scope.

Section Names.
Context `{UnicodeClasses}.

(** [sanitize_cert_name] and [sanitize_name]. *)
Definition sanitize_cert_name (name : bytes) : bytes :=
  encode (List.filter (fun c => is_alphanumeric c || (c =? 45) || (c =? 95)) (chars name)).

Definition cert_file_of (cert_dir name : bytes) : bytes := path_push cert_dir (name ++ bs ".pem").
Definition key_file_of (cert_dir name : bytes) : bytes := path_push cert_dir (name ++ bs "-key.pem").
End Names.

(** ** Upload *)

(** A part of the form: its name and its contents, where they could be read. *)
Record FormField := mkField { ff_name : option bytes; ff_data : option bytes }.

Record ImportForm := mkForm {
  im_name : option bytes; im_cert : option bytes; im_key : option bytes; im_chain : option bytes }.

(** The loop over the parts; a later part of the same name replaces an earlier one. *)
Definition read_field (form : ImportForm) (field : FormField) : ImportForm :=
  match ff_name field with
  | Some n =>
      if bool_decide (n = bs "name") then
        mkForm (d ← ff_data field; if utf8_valid d then Some d else None) (im_cert form) (im_key form) (im_chain form)
      else if bool_decide (n = bs "cert") then mkForm (im_name form) (ff_data field) (im_key form) (im_chain form)
      else if bool_decide (n = bs "key") then mkForm (im_name form) (im_cert form) (ff_data field) (im_chain form)
      else if bool_decide (n = bs "chain") then
        mkForm (im_name form) (im_cert form) (im_key form) (b ← ff_data field; if is_nil b then None else Some b)
      else form
  | None => form
  end.
Definition read_form (fields : list FormField) : ImportForm := fold_left read_field fields (mkForm None None None None).

Definition non_empty (o : option bytes) : option bytes := s ← o; if is_nil s then None else Some s.

(** A chain is appended on a line of its own. *)
Definition full_cert (cert : bytes) (chain : option bytes) : bytes :=
  match chain with
  | Some ch => (if ends_with cert [LF] then cert else cert ++ [LF]) ++ ch
  | None => cert
  end.

Section Handlers.
Context `{UnicodeClasses}.

Definition certs_import (config : ServerWallConfig) (fields : list FormField) (d : disk) : response * disk :=
  let cert_dir := gc_cert_dir (cfg_global config) in
  let form := read_form fields in
  match non_empty (im_name form), non_empty (im_cert form), non_empty (im_key form) with
  | None, _, _ => ((BAD_REQUEST, error_json (bs "missing 'name' field")), d)
  | _, None, _ => ((BAD_REQUEST, error_json (bs "missing 'cert' file")), d)
  | _, _, None => ((BAD_REQUEST, error_json (bs "missing 'key' file")), d)
  | Some n, Some cert, Some key =>
      let name := sanitize_cert_name n in
      let cert_path := cert_file_of cert_dir name in
      let key_path := key_file_of cert_dir name in
      match fs_write cert_path (full_cert cert (im_chain form)) d with
      | (Err e, d) => ((INTERNAL_SERVER_ERROR, error_json (bs "failed to write cert: " ++ e)), d)
      | (Ok _, d) =>
          match fs_write key_path key d with
          | (Err e, d) => ((INTERNAL_SERVER_ERROR, error_json (bs "failed to write key: " ++ e)), d)
          | (Ok _, d) =>
              let (_, d) := fs_set_permissions key_path d in
              ((CREATED, JObject [(bs "imported", JBool true); (bs "cert", JString cert_path); (bs "key", JString key_path)]), d)
          end
      end
  end.

(** ** A self-signed certificate *)

(** The addresses of the interfaces other than loopback, then those of [sans] not among them. *)
Definition add_sans (ips : list IpAddr) (sans : list bytes) : list IpAddr :=
  fold_left (fun l s => match parse_ip s with
                        | Some ip => if bool_decide (ip ∈ l) then l else l ++ [ip]
                        | None => l
                        end) sans ips.

Definition certs_self_signed `{SelfSignedLib} (interface_ips : list IpAddr) (config : ServerWallConfig) (req_name cn : bytes)
    (sans : list bytes) (d : disk) : response * disk :=
  let cert_dir := gc_cert_dir (cfg_global config) in
  let name := sanitize_cert_name req_name in
  if is_nil name then ((BAD_REQUEST, error_json (bs "name is required")), d)
  else
    let cert_path := cert_file_of cert_dir name in
    match generate_self_signed_cert cert_path (key_file_of cert_dir name) cn (add_sans interface_ips sans) d with
    | (Ok _, d) => ((CREATED, JObject [(bs "generated", JBool true); (bs "cert", JString cert_path)]), d)
    | (Err e, d) => ((INTERNAL_SERVER_ERROR, error_json e), d)
    end.

(** ** Deletion *)

(** Whether a configured certificate has a file name. *)
Definition names_file (configured : option bytes) (file : bytes) : bool :=
  bool_decide ((configured ≫= file_name) = Some file).

Definition certs_delete (kill : Z -> bool) (config : ServerWallConfig) (name : bytes) (d : disk) : response * disk :=
  let cert_dir := gc_cert_dir (cfg_global config) in
  let cert_file := name ++ bs ".pem" in
  let in_use := fr_name <$> List.filter (fun f => names_file (fr_tls_cert f) cert_file) (cfg_frontend config) in
  if negb (is_nil in_use) then
    ((BAD_REQUEST, error_json (bs "certificate is in use by: " ++ join (bs ", ") in_use)), d)
  else if names_file (webui_tls_cert (cfg_webui config)) cert_file then
    ((BAD_REQUEST, error_json (bs "certificate is in use by the web UI")), d)
  else
    let cert_path := path_push cert_dir cert_file in
    match fs_exists cert_path d with
    | (Ok true, d) =>
        let (_, d) := fs_remove_file cert_path d in
        let (_, d) := fs_remove_file (key_file_of cert_dir name) d in
        let (_, d) := send_reload_signal kill DEFAULT_PID_FILE d in
        ((OK, done_json "deleted"), d)
    | (_, d) => ((NOT_FOUND, error_json (bs "certificate not found")), d)
    end.
End Handlers.

(** ** The certificate of the web interface *)

(** [rustls]: a server configuration from a chain and its key. *)
Class ServerTls := { ServerConfig : Type; with_single_cert : list bytes -> PrivateKeyDer -> result ServerConfig bytes }.

(** [rustls_pemfile::private_key]: the first key, or the first error before it. *)
Fixpoint pem_private_key (items : list (result PemItem bytes)) : result (option PrivateKeyDer) bytes :=
  match items with
  | [] => Ok None
  | Err e :: _ => Err e
  | Ok (KeyItem key) :: _ => Ok (Some key)
  | Ok _ :: rest => pem_private_key rest
  end.

(** The state the handler changes: the acceptor in use, if the interface serves TLS, and the
    copy of the configuration in memory. *)
Record WebTls `{ServerTls} := mkWebTls { wt_acceptor : option ServerConfig; wt_config : ServerWallConfig }.
Arguments mkWebTls {_}.

Section WebuiCert.
Context `{TlsLib} `{ServerTls} `{TomlLib} `{UnicodeClasses}.

Definition load_tls_config (cert_path key_path : bytes) : io ServerConfig :=
  let! cert := describe (bs "failed to open cert " ++ cert_path ++ bs ": ") (fs_read cert_path) in
  let! key := describe (bs "failed to open key " ++ key_path ++ bs ": ") (fs_read key_path) in
  let! chain := describe (bs "failed to parse cert: ") (io_of (pem_certs (read_all cert))) in
  let! found := describe (bs "failed to parse private key: ") (io_of (pem_private_key (read_all key))) in
  match found with
  | None => io_err (bs "no private key found in " ++ key_path)
  | Some k => describe (bs "TLS config error: ") (io_of (with_single_cert chain k))
  end.

(** [toml::to_string_pretty] and a plain [fs::write] of the copy in memory. *)
Definition persist_webui_cert (config_path cert_path key_path : bytes) (c : ServerWallConfig)
  : io ServerWallConfig :=
  let c := upd_cfg_webui (fun w => upd_webui_tls_key (fun _ => Some key_path) (upd_webui_tls_cert (fun _ => Some cert_path) w)) c in
  match ser ServerWallConfig_codec c with
  | None => io_err (bs "serialize")
  | Some doc => let! _ := fs_write config_path (toml_to_string doc) in io_ret c
  end.

Definition set_webui_cert (config_path req_name : bytes) (st : WebTls) (d : disk) : response * WebTls * disk :=
  let name := sanitize_cert_name req_name in
  if is_nil name then ((BAD_REQUEST, error_json (bs "invalid cert_name")), st, d)
  else
    let cert_dir := gc_cert_dir (cfg_global (wt_config st)) in
    let cert_path := cert_file_of cert_dir name in
    let key_path := key_file_of cert_dir name in
    match files d !! cert_path, files d !! key_path with
    | None, _ => ((NOT_FOUND, error_json (bs "certificate file not found")), st, d)
    | _, None => ((NOT_FOUND, error_json (bs "private key file not found")), st, d)
    | Some _, Some _ =>
        match load_tls_config cert_path key_path d with
        | (Err e, d) => ((INTERNAL_SERVER_ERROR, error_json (bs "failed to load TLS config: " ++ e)), st, d)
        | (Ok new_config, d) =>
            let st := mkWebTls (match wt_acceptor st with Some _ => Some new_config | None => None end) (wt_config st) in
            match persist_webui_cert config_path cert_path key_path (wt_config st) d with
            | (Err e, d) =>
                ((INTERNAL_SERVER_ERROR, error_json (bs "TLS swapped live but failed to persist: " ++ e)), st, d)
            | (Ok c, d) => ((OK, done_json "applied"), mkWebTls (wt_acceptor st) c, d)
            end
        end
    end.
End WebuiCert.

(** ** File names that stay in the directory *)

Section Confined.
Context `{UnicodeClasses}.

Lemma encode_char_ascii c x : 0 <= c -> x ∈ encode_char c -> x < 128 -> x = c.
Proof.
  intros Hc. unfold encode_char.
  repeat case_match; rewrite ?elem_of_cons, elem_of_nil; intros Hx Hr; [naive_solver|..]; exfalso;
    pose proof (Z.mod_pos_bound c 64); pose proof (Z.mod_pos_bound (c / 64) 64); pose proof (Z.mod_pos_bound (c / 4096) 64);
    pose proof (Z.div_pos c 64); pose proof (Z.div_pos c 4096); pose proof (Z.div_pos c 262144); naive_solver lia.
Qed.

Lemma sanitized_plain name x : x ∈ sanitize_cert_name name -> x <> 47 /\ x <> 46.
Proof.
  unfold sanitize_cert_name, encode. rewrite list_elem_of_In, in_flat_map. intros (c & Hc & Hx).
  apply filter_In in Hc as [_ Hc]. apply list_elem_of_In in Hx. unfold is_alphanumeric in Hc.
  destruct (decide (x < 128)) as [Hlt|]; [|lia]. apply encode_char_ascii in Hx; [|lia|done]. subst x. lia.
Qed.

(** Only files of the directory with such names differ. *)
Definition confined (cert_dir : bytes) (d d' : disk) : Prop :=
  forall p, files d' !! p <> files d !! p ->
  exists name, (47 ∉ name) /\ (46 ∉ name) /\
    (p = path_join cert_dir (name ++ bs ".pem") \/ p = path_join cert_dir (name ++ bs "-key.pem")).

Lemma pushed_name cert_dir name suffix : head suffix = Some 46 \/ head suffix = Some 45 ->
  path_push cert_dir (sanitize_cert_name name ++ suffix) = path_join cert_dir (sanitize_cert_name name ++ suffix).
Proof.
  intros Hs. unfold path_push. destruct (starts_with _ _) eqn:E; [|done]. exfalso.
  apply starts_with_true in E as [r E]. change (bs "/" ++ r) with (47 :: r) in E.
  destruct (sanitize_cert_name name) as [|x n] eqn:En.
  - cbn in E. subst suffix. cbn in Hs. by destruct Hs.
  - injection E as -> _. destruct (sanitized_plain name 47) as [Hx _]; [rewrite En; by left|done].
Qed.

(** Whatever else may differ, these two files may. *)
Lemma confined_pair cert_dir name d d' :
  (forall p, p <> cert_file_of cert_dir (sanitize_cert_name name) -> p <> key_file_of cert_dir (sanitize_cert_name name) ->
     files d' !! p = files d !! p) -> confined cert_dir d d'.
Proof.
  intros Hother p Hp. exists (sanitize_cert_name name).
  split; [by intros [??]%sanitized_plain|]. split; [by intros [??]%sanitized_plain|].
  destruct (decide (p = cert_file_of cert_dir (sanitize_cert_name name))) as [->|Hc];
    [left; apply pushed_name; by left|].
  destruct (decide (p = key_file_of cert_dir (sanitize_cert_name name))) as [->|Hk]; [right; apply pushed_name; by right|].
  by destruct (Hp (Hother p Hc Hk)).
Qed.

Lemma confined_refl cert_dir d : confined cert_dir d d.
Proof. by intros p. Qed.

Lemma self_signed_other `{SelfSignedLib} cert_path key_path cn ips d p :
  p <> cert_path -> p <> key_path -> files (generate_self_signed_cert cert_path key_path cn ips d).2 !! p = files d !! p.
Proof.
  intros Hc Hk. unfold generate_self_signed_cert, io_bind, io_of.
  destruct (issue _ _ _) as [c|]; [|done]. destruct (cert_to_pem c) as [pem|]; [|done].
  pose proof (fs_write_other cert_path pem d p Hc) as E1.
  destruct (fs_write cert_path pem d) as [[[]|] d1]; [|done]. destruct (private_key_to_pem_pkcs8 c) as [key|]; [|done].
  pose proof (fs_write_other key_path key d1 p Hk) as E2. destruct (fs_write key_path key d1) as [[[]|] d2]; cbn in *; [|congruence].
  rewrite set_permissions_files. congruence.
Qed.

Lemma import_other cert_path key_path cert key d p :
  p <> cert_path -> p <> key_path ->
  forall ok (r1 r2 : bytes -> response),
  files (match fs_write cert_path cert d with
         | (Err e, d) => (r1 e, d)
         | (Ok _, d) =>
             match fs_write key_path key d with
             | (Err e, d) => (r2 e, d)
             | (Ok _, d) => let (_, d) := fs_set_permissions key_path d in (ok, d)
             end
         end).2 !! p = files d !! p.
Proof.
  intros Hc Hk ok r1 r2. pose proof (fs_write_other cert_path cert d p Hc) as E1.
  destruct (fs_write cert_path cert d) as [[[]|] d1]; [|done]. pose proof (fs_write_other key_path key d1 p Hk) as E2.
  destruct (fs_write key_path key d1) as [[[]|] d2]; cbn in *; [|congruence].
  pose proof (set_permissions_files key_path d2) as E3. destruct (fs_set_permissions key_path d2). cbn in *. congruence.
Qed.

End Confined.

(** ** What is not confined, and not atomic *)

Definition certs_config : ServerWallConfig :=
  upd_cfg_global (fun g => mkGlobal (gc_daemon_name g) None 0 100 [] (bs "/certs") None [] 30) example_config.

(** A name of the path of the request is used as it is: a file outside the directory goes. *)
Example delete_leaves_directory :
  let outside := bs "/certs/../etc/site.pem" in
  let (answer, d) := certs_delete (fun _ => true) certs_config (bs "../etc/site") (mkDisk {[ outside := bs "pem" ]} []) in
  bool_decide (fst answer = OK) && bool_decide (files d !! outside = None) = true.
Proof. vm_compute. reflexivity. Qed.

(** A write that fails on the way leaves no configuration to load. *)
Lemma persist_not_atomic `{TomlLib} config_path cert_path key_path c d rest doc :
  ser ServerWallConfig_codec
    (upd_cfg_webui (fun w => upd_webui_tls_key (fun _ => Some key_path) (upd_webui_tls_cert (fun _ => Some cert_path) w)) c) =
    Some doc ->
  script d = FPartial 0 :: rest ->
  exists e d', persist_webui_cert config_path cert_path key_path c d = (Err e, d') /\ files d' !! config_path = Some [].
Proof.
  intros Hs Hd. unfold persist_webui_cert. cbv zeta. rewrite Hs. unfold io_bind, fs_write, next_fault. rewrite Hd. cbn.
  do 2 eexists. split; [done|]. cbn. by rewrite lookup_insert_eq.
Qed.
