(* ===== verification/WebServe.v ===== *)
(** * The process of the web interface: [serverwall-webui/src/main.rs] and [state.rs]

    The start of the program, and its life as a step function over events: connections that
    arrive and are screened by address, TLS handshakes, requests through the layers of
    [WebAuth.v] to the handlers of [AdminSpec.v] and [WebCerts.v], the end and the panics of
    connection tasks, SIGHUP, SIGTERM and the changes other programs make to the disk.  The
    theorems relate what changes to who asked for it. *)

From S2P Require Import Prelude RustStr Float64 Net External Toml Schema Fields Fs Config CertStore AntispamPost Balancer Acl WafRules WafBuiltin WafMatcher WafEngine RateLimit Proto HttpProxy Server Acme WebAuth Admin Cli CliSecurity CliMail WebApi WebMail AdminSpec WebCerts.
Open Scope Z_scope.

(** ** State *)

Section Serve.
Context `{Unicode} `{HttpLib} `{RegexSetLib} `{IpNetworkLib} `{JwtLib} `{AuthLib} `{RouterLib}.
Context `{TomlLib} `{OpensslRsa} `{UnicodeClasses} `{SelfSignedLib} `{TlsLib} `{ServerTls} `{AcmeLib}.

(** A connection task: the peer, the acceptor read when it was accepted (none when the
    interface serves plain HTTP), and whether requests can be read from it yet. *)
Record Conn := mkConn { cn_peer : IpAddr; cn_acceptor : option ServerConfig; cn_ready : bool }.

(** The shared state and the accept loop.  The connections are numbered in the order they
    were accepted; a slot is empty when its task has ended. *)
Record WebServer := mkWebServer {
  ws_world : World;
  ws_secret : bytes;
  ws_engine : WafEngine;
  ws_allow : IpMatcher;
  ws_tls : option ServerConfig;
  ws_listening : bool;
  ws_active : Z;
  ws_conns : list (option Conn);
}.

(** What the layers of a request see of it. *)
Definition app_of (s : WebServer) : AppState :=
  mkAppState (cfg_webui (w_cache (ws_world s))) (ws_secret s) (ws_engine s) (ws_allow s)
    (fun p => files (w_disk (ws_world s)) !! p).

(** ** The start *)

(** The ruleset [main] makes sure of, here and in [serverwall --init]. *)
Definition default_ruleset : WafRulesetConfig := mkRuleset (bs "default") ModeBlocking 5 None 1 WafExclusions_default [].

Definition get_hostname (d : disk) : bytes * disk :=
  let (r, d) := fs_read_to_string (bs "/etc/hostname") d in
  let name := match r with Ok s => trim s | Err _ => [] end in
  (if is_nil name then bs "localhost" else name, d).

(** [Path::exists]: an error is no. *)
Definition path_exists (p : bytes) (d : disk) : bool * disk :=
  match fs_exists p d with (Ok b, d) => (b, d) | (Err _, d) => (false, d) end.

(** The certificate of the interface is issued when one of its files is missing; a failure is
    a warning. *)
Definition ensure_webui_cert (interface_ips : list IpAddr) (cert_path key_path : bytes) (d : disk) : disk :=
  let (have_cert, d) := path_exists cert_path d in
  let (have_key, d) := if have_cert then path_exists key_path d else (false, d) in
  if have_cert && have_key then d
  else
    let (_, d) := syscall d in
    let (cn, d) := get_hostname d in
    (generate_self_signed_cert cert_path key_path cn interface_ips d).2.

(** [WafEngine] of the ruleset [default]. *)
Definition webui_engine (config : ServerWallConfig) : WafEngine :=
  match List.find (fun r => bool_decide (rs_name r = bs "default")) (cfg_waf_ruleset config) with
  | Some r => WafEngine.with_config (waf_mode_convert (rs_mode r)) (rs_anomaly_threshold r) (rs_paranoia_level r) default_limits
  | None => WafEngine.with_config Blocking 5 1 default_limits
  end.

(** [AppState::from_config]: the directory of the spool, or another one, is created; [None]
    is a panic. *)
Definition from_config (secret : bytes) (config : ServerWallConfig) (tls : option ServerConfig) (d : disk)
  : option WebServer :=
  let (made, d) := syscall d in
  spool ← match made with Ok _ => Some d | Err _ => match syscall d with (Ok _, d) => Some d | (Err _, _) => None end end;
  allow ← build_ip_allow (webui_allow_list (cfg_webui config));
  Some (mkWebServer (mkWorld spool config [] []) secret (webui_engine config) allow tls true 0 []).

Inductive Startup := Disabled (d : disk) | Fatal (message : bytes) (d : disk) | Panicked | Started (s : WebServer).

Definition with_world (f : World -> World) (s : WebServer) : WebServer :=
  mkWebServer (f (ws_world s)) (ws_secret s) (ws_engine s) (ws_allow s) (ws_tls s) (ws_listening s) (ws_active s) (ws_conns s).

Definition write_pid_file (pid : Z) (s : WebServer) : WebServer :=
  with_world (fun w =>
    let (_, d) := syscall (w_disk w) in with_disk (fs_write DEFAULT_WEBUI_PID_FILE (show pid) d).2 w) s.

Definition start_with (pid : Z) (secret : bytes) (config : ServerWallConfig) (tls : option ServerConfig) (d : disk) : Startup :=
  match from_config secret config tls d with
  | Some s => Started (write_pid_file pid s)
  | None => Panicked
  end.

Definition webui_main (pause : gmap bytes bytes -> gmap bytes bytes) (pid : Z) (path secret : bytes)
    (interface_ips : list IpAddr) (d : disk) : Startup :=
  let (loaded, d) := load_config path d in
  let config := match loaded with Ok c => c | Err _ => ServerWallConfig_default end in
  let (_, d) := edit pause pid path (add_waf_ruleset default_ruleset) d in
  if negb (webui_enabled (cfg_webui config)) then Disabled d
  else
    match webui_tls_cert (cfg_webui config), webui_tls_key (cfg_webui config) with
    | Some cert_path, Some key_path =>
        let d := ensure_webui_cert interface_ips cert_path key_path d in
        match load_tls_config cert_path key_path d with
        | (Ok tls, d) => start_with pid secret config (Some tls) d
        | (Err e, d) => Fatal e d
        end
    | _, _ => start_with pid secret config None d
    end.

(** ** The life of the process *)

(** The handlers behind the layers; an order of a certificate comes with the readings of the
    clock while it waits.  The status page, the logs and the reading of certificates change
    nothing, and the handlers of the queue ([QueueAdmin.v]) only the spool. *)
Inductive Handler :=
| HApi (r : ApiRequest)
| HImport (fields : list FormField)
| HSelfSigned (name cn : bytes) (sans : list bytes)
| HDelete (name : bytes)
| HSetCert (name : bytes)
| HAcme (email domain : bytes) (clock : Clock)
| HOther.

Inductive Event :=
| Accept (peer : IpAddr)
| AcceptError
| Handshake (i : nat) (succeeds : bool)
| Requested (i : nat) (now : Z) (req : Request)
| Closed (i : nat)
| TaskPanics (i : nat)
| Hangup
| Terminate
| OtherProcess (change : gmap bytes bytes -> gmap bytes bytes).

(** The configuration in memory and the matcher are stored together by [reload_config]. *)
Definition with_cache (w : World) (s : WebServer) : WebServer :=
  mkWebServer w (ws_secret s) (ws_engine s)
    (default (ws_allow s) (build_ip_allow (webui_allow_list (cfg_webui (w_cache w)))))
    (ws_tls s) (ws_listening s) (ws_active s) (ws_conns s).

Definition with_conns (active : Z) (conns : list (option Conn)) (s : WebServer) : WebServer :=
  mkWebServer (ws_world s) (ws_secret s) (ws_engine s) (ws_allow s) (ws_tls s) (ws_listening s) active conns.

Definition with_files (d : disk) : WebServer -> WebServer := with_world (with_disk d).

Definition stop_listening (s : WebServer) : WebServer :=
  mkWebServer (ws_world s) (ws_secret s) (ws_engine s) (ws_allow s) (ws_tls s) false (ws_active s) (ws_conns s).

Context (pause : gmap bytes bytes -> gmap bytes bytes) (pid : Z) (kill : Z -> bool) (path : bytes).
Context (interface_ips : list IpAddr) (extract : bytes -> Request -> Handler).

(** [POST /api/certs/acme]. *)
Definition acme_request (email domain : bytes) (clock : Clock) (s : WebServer) : WebServer :=
  let w := ws_world s in
  let acme_cfg := cfg_acme (w_cache w) in
  let cert_dir := gc_cert_dir (cfg_global (w_cache w)) in
  match order_one (AcmeManager_new acme_cfg) clock domain email cert_dir (w_disk w) with
  | Some (Ok _, d) => let (c, d) := reload_config path (w_cache w) d in with_cache (mkWorld d c (w_out w) (w_err w)) s
  | Some (Err _, d) => with_files d s
  | None => s
  end.

Definition run_handler (h : Handler) (s : WebServer) : WebServer :=
  let w := ws_world s in
  match h with
  | HApi r => with_cache (run pause pid kill path (handle r) w).2 s
  | HImport fields => with_files (certs_import (w_cache w) fields (w_disk w)).2 s
  | HSelfSigned name cn sans => with_files (certs_self_signed interface_ips (w_cache w) name cn sans (w_disk w)).2 s
  | HDelete name => with_files (certs_delete kill (w_cache w) name (w_disk w)).2 s
  | HSetCert name =>
      let '(_, st, d) := set_webui_cert path name (mkWebTls (ws_tls s) (w_cache w)) (w_disk w) in
      mkWebServer (mkWorld d (wt_config st) (w_out w) (w_err w)) (ws_secret s) (ws_engine s) (ws_allow s) (wt_acceptor st)
        (ws_listening s) (ws_active s) (ws_conns s)
  | HAcme email domain clock => acme_request email domain clock s
  | HOther => s
  end.

(** What a request does: nothing, unless the layers let it through to a route. *)
Definition run_request (now : Z) (req : Request) (s : WebServer) : WebServer :=
  match webui_handle now (app_of s) req with
  | Run route => if member route public_routes then s else run_handler (extract route req) s
  | _ => s
  end.

(** The accept loops of [serve_https] and [serve_http]: a peer outside the allow list is dropped,
    another one is counted and gets a task, which starts with the handshake under TLS. *)
Definition accept_https (acceptor : ServerConfig) (peer : IpAddr) (s : WebServer) : WebServer :=
  if negb (matches (ws_allow s) peer) then s
  else with_conns (ws_active s + 1) (ws_conns s ++ [Some (mkConn peer (Some acceptor) false)]) s.

Definition accept_http (peer : IpAddr) (s : WebServer) : WebServer :=
  if negb (matches (ws_allow s) peer) then s
  else with_conns (ws_active s + 1) (ws_conns s ++ [Some (mkConn peer None true)]) s.

(** One event; [None] when it cannot happen in the state. *)
Definition serve_step (ev : Event) (s : WebServer) : option WebServer :=
  match ev with
  | Accept peer =>
      if negb (ws_listening s) then None
      else Some match ws_tls s with Some acceptor => accept_https acceptor peer s | None => accept_http peer s end
  | AcceptError => if ws_listening s then Some s else None
  | Handshake i succeeds =>
      match ws_conns s !! i with
      | Some (Some c) =>
          if cn_ready c then None
          else if succeeds then Some (with_conns (ws_active s) (<[i := Some (mkConn (cn_peer c) (cn_acceptor c) true)]> (ws_conns s)) s)
          else Some (with_conns (ws_active s - 1) (<[i := None]> (ws_conns s)) s)
      | _ => None
      end
  | Requested i now req =>
      match ws_conns s !! i with
      | Some (Some c) => if cn_ready c then Some (run_request now req s) else None
      | _ => None
      end
  | Closed i =>
      match ws_conns s !! i with
      | Some (Some c) => if cn_ready c then Some (with_conns (ws_active s - 1) (<[i := None]> (ws_conns s)) s) else None
      | _ => None
      end
  | TaskPanics i =>
      match ws_conns s !! i with
      | Some (Some c) => Some (with_conns (ws_active s) (<[i := None]> (ws_conns s)) s)
      | _ => None
      end
  | Hangup =>
      let w := ws_world s in
      let (c, d) := reload_config path (w_cache w) (w_disk w) in
      Some (with_cache (mkWorld d c (w_out w) (w_err w)) s)
  | Terminate => Some (stop_listening s)
  | OtherProcess change =>
      let d := w_disk (ws_world s) in Some (with_files (mkDisk (change (files d)) (script d)) s)
  end.

Fixpoint serve (evs : list Event) (s : WebServer) : option WebServer :=
  match evs with
  | [] => Some s
  | ev :: evs => s ← serve_step ev s; serve evs s
  end.

(** ** The shutdown *)

(** [drain_connections]: [active n] is the counter at the [n]-th look of the loop; whether the
    connections ended, [None] when the fuel runs out. *)
Definition drain_connections (drain_secs : Z) (before : Z) (active now : nat -> Z) (entered : Z) : option bool :=
  if drain_secs =? 0 then Some false
  else if before =? 0 then Some true
  else drain_polls (Z.to_nat (10 * drain_secs) + 2) active now (entered + 1000 * drain_secs) 0.
End Serve.

(** ** Who changes what *)

(** What the interface answers from and serves with. *)
Definition unchanged `{IpNetworkLib} `{RegexLib} `{!RegexSetLib} `{ServerTls} (s s' : WebServer) : Prop :=
  files (w_disk (ws_world s')) = files (w_disk (ws_world s)) /\ w_cache (ws_world s') = w_cache (ws_world s) /\
  ws_allow s' = ws_allow s /\ ws_tls s' = ws_tls s.

Section Life.
Context `{Unicode} `{HttpLib} `{RegexSetLib} `{IpNetworkLib} `{JwtLib} `{AuthLib} `{RouterLib}.
Context `{TomlLib} `{OpensslRsa} `{UnicodeClasses} `{SelfSignedLib} `{TlsLib} `{ServerTls} `{AcmeLib}.
Context (pause : gmap bytes bytes -> gmap bytes bytes) (pid : Z) (kill : Z -> bool) (path : bytes).
Context (interface_ips : list IpAddr) (extract : bytes -> Request -> Handler).

Abbreviation step := (serve_step pause pid kill path interface_ips extract).
Abbreviation serve' := (serve pause pid kill path interface_ips extract).
Abbreviation handler := (run_handler pause pid kill path interface_ips).
Abbreviation request := (run_request pause pid kill path interface_ips extract).

Lemma serve_app evs evs' s : serve' (evs ++ evs') s = (s' ← serve' evs s; serve' evs' s').
Proof. revert s. induction evs as [|ev evs IH]; intros s; [done|]. cbn. destruct (step ev s); [apply IH|done]. Qed.

Lemma serve_snoc evs ev s : serve' (evs ++ [ev]) s = (s' ← serve' evs s; step ev s').
Proof. rewrite serve_app. destruct (serve' evs s) as [s'|]; [|done]. cbn. by destruct (step ev s'). Qed.

Ltac order_cases := unfold acme_request; destruct (order_one _ _ _ _ _ _) as [[[|] ?]|]; [destruct (reload_config _ _ _)|..].

(** A handler leaves the accept loop and its connections alone. *)
Lemma handler_loop h s :
  ws_conns (handler h s) = ws_conns s /\ ws_active (handler h s) = ws_active s /\
  ws_listening (handler h s) = ws_listening s.
Proof.
  destruct h; try done; cbn [run_handler]; [by destruct (set_webui_cert _ _ _ _) as [[]]|]. by order_cases.
Qed.

Lemma request_loop now req s :
  ws_conns (request now req s) = ws_conns s /\ ws_active (request now req s) = ws_active s /\
  ws_listening (request now req s) = ws_listening s.
Proof. unfold run_request. destruct (webui_handle _ _ _); try done. case_match; [done|apply handler_loop]. Qed.

Lemma set_webui_cert_tls name st d :
  is_some (wt_acceptor (set_webui_cert path name st d).1.2) = is_some (wt_acceptor st) /\
  webui_allow_list (cfg_webui (wt_config (set_webui_cert path name st d).1.2)) = webui_allow_list (cfg_webui (wt_config st)).
Proof.
  unfold set_webui_cert. case_match; [done|]. destruct (files d !! cert_file_of _ _); [|done].
  destruct (files d !! key_file_of _ _); [|done].
  destruct (load_tls_config _ _ _) as [[c|e] d1]; [|done]. unfold persist_webui_cert. cbn [wt_config wt_acceptor].
  destruct (ser _ _) as [doc|]; [|cbn; by destruct (wt_acceptor st)]. unfold io_bind.
  destruct (fs_write _ _ _) as [[?|?] ?]; cbn; by destruct (wt_acceptor st).
Qed.

Lemma step_accept peer s :
  step (Accept peer) s =
  if negb (ws_listening s) then None
  else if negb (matches (ws_allow s) peer) then Some s
  else Some (with_conns (ws_active s + 1)
               (ws_conns s ++ [Some (mkConn peer (ws_tls s) (negb (is_some (ws_tls s))))]) s).
Proof.
  cbn [serve_step]. destruct (ws_listening s); [|done]. cbn [negb]. unfold accept_https, accept_http.
  destruct (ws_tls s); by destruct (matches _ _).
Qed.

Lemma step_tls ev s s' : step ev s = Some s' -> is_some (ws_tls s') = is_some (ws_tls s).
Proof.
  destruct ev; [rewrite step_accept|..]; cbn [serve_step]; repeat case_match; intros; simplify_eq; try done.
  unfold run_request. destruct (webui_handle _ _ _); try done. case_match; [done|]. destruct (extract _ _); try done;
    cbn [run_handler]; [|by order_cases].
  destruct (set_webui_cert_tls name (mkWebTls (ws_tls s) (w_cache (ws_world s))) (w_disk (ws_world s))) as [Ht _].
  by destruct (set_webui_cert _ _ _ _) as [[]].
Qed.

Lemma serve_tls evs s s' : serve' evs s = Some s' -> is_some (ws_tls s') = is_some (ws_tls s).
Proof.
  revert s. induction evs as [|ev evs IH]; intros s; cbn; [by intros [= ->]|]. destruct (step ev s) as [s1|] eqn:E; [|done].
  intros ->%IH. by apply step_tls in E.
Qed.
Lemma step_listening ev s s' :
  step ev s = Some s' -> ws_listening s' = match ev with Terminate => false | _ => ws_listening s end.
Proof.
  destruct ev as [peer| |j good|j now req|j|j| | |change]; [rewrite step_accept|..]; cbn [serve_step]; repeat case_match; intros; simplify_eq; try done.
  by destruct (request_loop now req s) as (_ & _ & ->).
Qed.

Lemma serve_stopped evs s s' : Terminate ∈ evs -> serve' evs s = Some s' -> ws_listening s' = false.
Proof.
  intros Ht. revert s'. induction evs as [|ev evs IH] using rev_ind; intros s'; [by apply elem_of_nil in Ht|].
  rewrite serve_snoc. destruct (serve' evs s) as [s1|]; [|done]. cbn [mbind option_bind]. intros ->%step_listening.
  apply elem_of_app in Ht as [Ht|Ht%list_elem_of_singleton]; [|by subst]. rewrite (IH Ht s1 eq_refl). by destruct ev.
Qed.

(** Where an open connection of the next state comes from. *)
Lemma step_conn ev s s' i c :
  step ev s = Some s' -> ws_conns s' !! i = Some (Some c) ->
  ws_conns s !! i = Some (Some c) \/
  (exists c0, ev = Handshake i true /\ ws_conns s !! i = Some (Some c0) /\ cn_peer c0 = cn_peer c) \/
  (ev = Accept (cn_peer c) /\ ws_listening s = true /\ matches (ws_allow s) (cn_peer c) = true /\
   cn_ready c = negb (is_some (ws_tls s))).
Proof.
  destruct ev as [peer| |j good|j now req|j|j| | |change]; [rewrite step_accept|..]; cbn [serve_step]; intros Hs Hc.
  - destruct (ws_listening s) eqn:El; [|done]. destruct (matches (ws_allow s) peer) eqn:Em; cbn in Hs; simplify_eq; [|by left].
    apply lookup_app_Some in Hc as [?|[_ Hc]]; [by left|]. right; right.
    destruct (i - length (ws_conns s))%nat; [|done]. by simplify_eq/=.
  - case_match; simplify_eq; by left.
  - repeat case_match; simplify_eq; cbn in Hc.
    all: apply list_lookup_insert_Some in Hc as [(-> & Hc & _)|[_ Hc]]; [|by left].
    all: simplify_eq; right; left; by eexists.
  - repeat case_match; simplify_eq. left. by rewrite (proj1 (request_loop now req s)) in Hc.
  - repeat case_match; simplify_eq. left. by apply list_lookup_insert_Some in Hc as [(_ & [=] & _)|[_ ?]].
  - repeat case_match; simplify_eq. left. by apply list_lookup_insert_Some in Hc as [(_ & [=] & _)|[_ ?]].
  - destruct (reload_config _ _ _). simplify_eq. by left.
  - simplify_eq. by left.
  - simplify_eq. by left.
Qed.

(** Every open connection was accepted from an address the matcher of that time allows, and
    under TLS its requests are read after the handshake. *)
Lemma conn_accepted evs s0 s i c :
  ws_conns s0 = [] -> serve' evs s0 = Some s -> ws_conns s !! i = Some (Some c) ->
  exists before s1 after, evs = before ++ Accept (cn_peer c) :: after /\ serve' before s0 = Some s1 /\
    ws_listening s1 = true /\ matches (ws_allow s1) (cn_peer c) = true /\
    (cn_ready c = true -> is_some (ws_tls s0) = true -> Handshake i true ∈ after).
Proof.
  intros H0'. revert s c. induction evs as [|ev evs IH] using rev_ind; intros s c.
  { intros [= <-]. by rewrite H0', lookup_nil. }
  rewrite serve_snoc. destruct (serve' evs s0) as [s'|] eqn:E; [|done]. cbn [mbind option_bind]. intros Hs Hc.
  destruct (step_conn ev s' s i c Hs Hc) as [Hc'|[(c0 & -> & Hc0 & Hp)|(-> & Hl & Hm & Hr)]].
  - destruct (IH _ _ eq_refl Hc') as (b & s1 & a & -> & Hb & Hl & Hm & Hh). exists b, s1, (a ++ [ev]).
    rewrite <- app_assoc. repeat split; try done. intros ??. apply elem_of_app. left. by apply Hh.
  - destruct (IH _ _ eq_refl Hc0) as (b & s1 & a & -> & Hb & Hl & Hm & Hh). rewrite <- Hp.
    exists b, s1, (a ++ [Handshake i true]). rewrite <- app_assoc. repeat split; try done. intros _ _. set_solver.
  - exists evs, s', []. repeat split; try done. rewrite Hr, (serve_tls _ _ _ E). by destruct (is_some (ws_tls s0)).
Qed.

(** The matcher in force is the one of the configuration in memory. *)
Definition allow_in_force (s : WebServer) : Prop :=
  build_ip_allow (webui_allow_list (cfg_webui (w_cache (ws_world s)))) = Some (ws_allow s).

Lemma build_ip_allow_total m l : IpMatcher_new any_address = Ok m -> is_Some (build_ip_allow l).
Proof. intros Hm. unfold build_ip_allow. destruct (IpMatcher_new l); [by eexists|]. rewrite Hm. by eexists. Qed.

Lemma with_cache_in_force m w s : IpMatcher_new any_address = Ok m -> allow_in_force (with_cache w s).
Proof.
  intros Hm. unfold allow_in_force. cbn. by destruct (build_ip_allow_total m (webui_allow_list (cfg_webui (w_cache w))) Hm) as [a ->].
Qed.

Lemma step_in_force m ev s s' :
  IpMatcher_new any_address = Ok m -> step ev s = Some s' -> allow_in_force s -> allow_in_force s'.
Proof.
  intros Hm. destruct ev; [rewrite step_accept|..]; cbn [serve_step]; repeat case_match; intros; simplify_eq; try done; try by eapply with_cache_in_force.
  unfold run_request. destruct (webui_handle _ _ _); try done. case_match; [done|].
  destruct (extract _ _); try done; cbn [run_handler]; [by eapply with_cache_in_force| |order_cases; try done; by eapply with_cache_in_force].
  destruct (set_webui_cert_tls name (mkWebTls (ws_tls s) (w_cache (ws_world s))) (w_disk (ws_world s))) as [_ Ht].
  destruct (set_webui_cert _ _ _ _) as [[]]. unfold allow_in_force in *. cbn in *. by rewrite Ht.
Qed.

(** The tasks that have not ended. *)
Definition open_tasks (l : list (option Conn)) : Z := Z.of_nat (length (List.filter is_some l)).

Lemma open_tasks_app l l' : open_tasks (l ++ l') = open_tasks l + open_tasks l'.
Proof. unfold open_tasks. rewrite List.filter_app, length_app. lia. Qed.

Lemma open_tasks_insert l i c o :
  l !! i = Some (Some c) -> open_tasks (<[i := o]> l) = open_tasks l - (if is_some o then 0 else 1).
Proof.
  intros Hl. apply list_elem_of_split_length in Hl as (l1 & l2 & -> & ->).
  rewrite insert_app_r_alt, Nat.sub_diag by lia. cbn [insert list_insert]. rewrite !open_tasks_app.
  unfold open_tasks. cbn. destruct o; cbn; lia.
Qed.

Definition is_panic (ev : Event) : bool := match ev with TaskPanics _ => true | _ => false end.

(** The counter runs ahead of the open tasks by the number of panics. *)
Lemma step_active ev s s' :
  step ev s = Some s' ->
  ws_active s' - open_tasks (ws_conns s') = ws_active s - open_tasks (ws_conns s) + (if is_panic ev then 1 else 0).
Proof.
  destruct ev as [peer| |j good|j now req|j|j| | |change]; [rewrite step_accept|..]; cbn [serve_step]; repeat case_match; intros; simplify_eq;
    cbn [ws_active ws_conns with_conns with_cache with_files with_world stop_listening is_panic]; try lia;
    try (erewrite open_tasks_insert by done; cbn; lia).
  - rewrite open_tasks_app. unfold open_tasks at 2. cbn. lia.
  - destruct (request_loop now req s) as (-> & -> & _). lia.
Qed.

Lemma serve_active evs s s' :
  serve' evs s = Some s' ->
  ws_active s' - open_tasks (ws_conns s') =
  ws_active s - open_tasks (ws_conns s) + Z.of_nat (length (List.filter is_panic evs)).
Proof.
  revert s. induction evs as [|ev evs IH]; intros s; cbn; [intros [= ->]; lia|].
  destruct (step ev s) as [s1|] eqn:E; [|done]. intros Hs%IH. apply step_active in E. destruct (is_panic ev); cbn; lia.
Qed.
End Life.

(** ** The start *)

Section Start.
Context `{Unicode} `{HttpLib} `{RegexSetLib} `{IpNetworkLib} `{JwtLib} `{AuthLib} `{RouterLib}.
Context `{TomlLib} `{OpensslRsa} `{UnicodeClasses} `{SelfSignedLib} `{TlsLib} `{ServerTls} `{AcmeLib}.
Context (pause : gmap bytes bytes -> gmap bytes bytes) (pid : Z) (path secret : bytes) (interface_ips : list IpAddr).

(** The configuration the program starts with. *)
Definition startup_config (d : disk) : ServerWallConfig :=
  match (load_config path d).1 with Ok c => c | Err _ => ServerWallConfig_default end.

Lemma start_with_Started config tls d s :
  start_with pid secret config tls d = Started s ->
  w_cache (ws_world s) = config /\ ws_tls s = tls /\ ws_conns s = [] /\ ws_active s = 0 /\ ws_listening s = true /\
  allow_in_force s.
Proof.
  unfold start_with, from_config. destruct (syscall d) as [made d1].
  destruct (match made with Ok _ => _ | Err _ => _ end) as [d2|]; [|done]. cbn [mbind option_bind].
  destruct (build_ip_allow _) as [allow|] eqn:E; [|done]. cbn [mbind option_bind]. intros [= <-].
  unfold write_pid_file, with_world. cbn. destruct (syscall d2) as [? ?]. by repeat split.
Qed.

Lemma webui_main_Started d s :
  webui_main pause pid path secret interface_ips d = Started s ->
  w_cache (ws_world s) = startup_config d /\ ws_conns s = [] /\ ws_active s = 0 /\ ws_listening s = true /\
  allow_in_force s /\ webui_enabled (cfg_webui (startup_config d)) = true /\
  is_some (ws_tls s) =
    is_some (webui_tls_cert (cfg_webui (startup_config d))) && is_some (webui_tls_key (cfg_webui (startup_config d))).
Proof.
  unfold webui_main, startup_config. destruct (load_config path d) as [loaded d1]. cbn [fst].
  set (config := match loaded with Ok c => c | Err _ => _ end). destruct (edit _ _ _ _ d1) as [? d2].
  destruct (webui_enabled _) eqn:Ee; [|done]. cbn [negb].
  destruct (webui_tls_cert _), (webui_tls_key _); try destruct (load_tls_config _ _ _) as [[tls|e] d3]; try done.
  all: intros (? & Ht & ? & ? & ? & ?)%start_with_Started; by rewrite Ht.
Qed.
End Start.

(** A configuration that does not load leaves the interface open to the default list. *)
Lemma unreadable_config_opens `{Unicode} `{HttpLib} `{RegexSetLib} `{IpNetworkLib} `{TomlLib} `{SelfSignedLib} `{TlsLib}
    `{ServerTls} pause pid path secret ips d e s :
  (load_config path d).1 = Err e -> webui_main pause pid path secret ips d = Started s ->
  build_ip_allow default_webui_allow_list = Some (ws_allow s).
Proof.
  intros He (Hc & _ & _ & _ & Ha & _)%webui_main_Started. unfold allow_in_force in Ha. rewrite Hc in Ha.
  unfold startup_config in Ha. by rewrite He in Ha.
Qed.

(** ** The shutdown *)

(** The wait of the shutdown ends; while a panicked task is still counted it takes all its time. *)
Lemma drain_connections_ends secs before entered active now :
  0 <= secs -> entered <= now 0%nat -> (forall k, now k + 100 <= now (S k)) ->
  exists ended, drain_connections secs before active now entered = Some ended /\
    (secs <> 0 -> before <> 0 -> (forall k, 0 < active k) ->
     ended = false /\ exists k, entered + 1000 * secs <= now k).
Proof.
  intros Hs He Hn. unfold drain_connections. destruct (secs =? 0) eqn:E0; [exists false; split; [done|]; lia|].
  destruct (before =? 0) eqn:E1; [exists true; split; [done|]; lia|].
  destruct (drain_polls_ends (Z.to_nat (10 * secs) + 2) active now (entered + 1000 * secs) 0 Hn)
    as (k & _ & [[Ht ->]|(Ht & Hd & ->)]); [lia|lia| |].
  - exists true. split; [done|]. intros _ _ Hp. specialize (Hp k). lia.
  - exists false. split; [done|]. intros _ _ _. split; [done|]. by exists k.
Qed.

(** ** Properties *)

Section Properties.
Context `{Unicode} `{HttpLib} `{RegexSetLib} `{IpNetworkLib} `{JwtLib} `{AuthLib} `{RouterSpec}.
Context `{TomlLib} `{OpensslRsa} `{UnicodeClasses} `{SelfSignedLib} `{TlsLib} `{ServerTls} `{AcmeLib}.
Context (pause : gmap bytes bytes -> gmap bytes bytes) (pid : Z) (kill : Z -> bool) (path secret : bytes).
Context (interface_ips : list IpAddr) (extract : bytes -> Request -> Handler).

Lemma request_guarded now req s :
  unchanged s (run_request pause pid kill path interface_ips extract now req s) \/
  credentials now (app_of s) req /\ waf_check (app_of s) req = None.
Proof.
  unfold run_request. destruct (webui_handle now (app_of s) req) as [route| |] eqn:E; [|by left..].
  destruct (member route public_routes) eqn:Em; [by left|]. right. apply member_false in Em.
  by destruct (management_guarded _ _ _ _ E Em) as (? & ? & _).
Qed.

Lemma reload_files c d : files (reload_config path c d).2 = files d.
Proof.
  unfold reload_config, fs_read_to_string, io_bind. pose proof (fs_read_files path d) as Hf.
  destruct (fs_read path d) as [[data|e] d1]; [|done]. destruct (utf8_valid data); [|done]. cbn. by case_match.
Qed.


End Properties.

(** ** Witnesses *)

#[export] Instance toy_server_tls : ServerTls | 100 := {|
  ServerConfig := list bytes;
  with_single_cert chain key := Ok chain;
|}.

(** Networks of one address, and the networks of all addresses. *)
Definition hosts_or_all : IpNetworkLib := {|
  IpNetwork := bytes;
  net_parse s := if ends_with s (bs "/32") || ends_with s (bs "/0") then Ok s else Err (bs "invalid");
  net_contains net ip := ends_with net (bs "/0") || bool_decide (show_ip ip ++ bs "/32" = net);
|}.
#[local] Existing Instance hosts_or_all | 10.

Definition visitor : IpAddr := LOCALHOST.
Definition example_extract (route : bytes) (req : Request) : Handler := HSelfSigned (bs "site") (bs "site.example") [].
Definition example_run : list Event := [Accept visitor; Handshake 0 true].
Definition example_request : Request := api_request (bs "lg_session=" ++ example_token).

(** A first start: no file is there, the certificate of the interface is issued. *)
Definition first_start : Startup := webui_main id 7 example_path (bs "secret") [] (mkDisk ∅ []).

Definition example_serve : list Event -> WebServer -> option WebServer :=
  serve id 7 (fun _ => true) example_path [] example_extract.

Definition new_cert : bytes := cert_file_of (gc_cert_dir (cfg_global ServerWallConfig_default)) (bs "site").

Definition has_file (p : bytes) (s : WebServer) : bool := is_some (files (w_disk (ws_world s)) !! p).

Lemma first_start_serves :
  match first_start with
  | Started s0 =>
      match example_serve example_run s0 with
      | Some s =>
          match example_serve [Requested 0 200 example_request] s with
          | Some s' => negb (has_file new_cert s) && has_file new_cert s'
          | None => false
          end
      | None => false
      end
  | _ => false
  end = true.
Proof. vm_compute. reflexivity. Qed.


