(* ===== verification/Logging.v ===== *)
(** * Logs and statistics

    [serverwall-core/src/logging] (the lines of the mail and protocol logs, and the router of
    log lines to a file per frontend), [webui/src/routes/logs.rs] (the choice of a log file and
    the loop that streams its lines) and the queue statistics of [webui/src/state.rs].  Times
    come in as the text they are printed as. *)

From S2P Require Import Prelude RustStr Float64 FloatFmt Net External Toml Schema Fs RelayQueue Proto.
Open Scope Z_scope.

(** ** [postfix.rs] and [protocol_log.rs] *)

Record PostfixLogEntry := mkPostfix {
  pf_timestamp : bytes; pf_hostname : bytes; pf_service_name : bytes; pf_pid : Z; pf_queue_id : bytes;
  pf_sender : bytes; pf_recipient : bytes; pf_relay : bytes; pf_spam_score : f64; pf_status : bytes; pf_detail : bytes }.

Definition postfix_format (e : PostfixLogEntry) : bytes :=
  pf_timestamp e ++ bs " " ++ pf_hostname e ++ bs " " ++ pf_service_name e ++ bs "[" ++ show (pf_pid e) ++ bs "]: " ++
  pf_queue_id e ++ bs ": from=<" ++ pf_sender e ++ bs ">, to=<" ++ pf_recipient e ++ bs ">, relay=" ++ pf_relay e ++
  bs ", spam_score=" ++ show_f64 (pf_spam_score e) ++ bs ", status=" ++ pf_status e ++ bs " (" ++ pf_detail e ++ bs ")".

Definition postfix_line (now service_name queue_id message : bytes) : bytes :=
  now ++ bs " " ++ service_name ++ bs ": " ++ queue_id ++ bs ": " ++ message.

Record ProtocolLogEntry := mkProtocol {
  pr_timestamp : bytes; pr_client : SocketAddr; pr_backend : SocketAddr; pr_bytes_in : Z; pr_bytes_out : Z;
  pr_duration_secs : f64 }.

Definition protocol_format (e : ProtocolLogEntry) : bytes :=
  pr_timestamp e ++ bs " " ++ show_socket_addr (pr_client e) ++ bs " -> " ++ show_socket_addr (pr_backend e) ++ bs " bytes_in=" ++
  show (pr_bytes_in e) ++ bs " bytes_out=" ++ show (pr_bytes_out e) ++ bs " duration=" ++ show_fixed 3 (pr_duration_secs e).

Inductive Direction := ClientToBackend | BackendToClient.

Definition protocol_line (include_payload : bool) (now : bytes) (direction : Direction) (client backend : SocketAddr)
    (protocol summary : bytes) (payload : option bytes) : bytes :=
  let arrow := match direction with ClientToBackend => bs "->" | BackendToClient => bs "<-" end in
  let line := now ++ bs " [" ++ protocol ++ bs "] " ++ show_socket_addr client ++ bs " " ++ arrow ++ bs " " ++ show_socket_addr backend ++
              bs " " ++ summary in
  match payload with
  | Some data => if include_payload then line ++ bs " | " ++ from_utf8_lossy (take 256 data) else line
  | None => line
  end.

(** ** [vhost_router.rs] *)

(** The appender of a frontend is the file it appends to. *)
Record VhostLogRouter := mkRouter { vr_log_dir : bytes; vr_writers : gmap bytes bytes }.

Definition VhostLogRouter_new (log_dir : bytes) : VhostLogRouter := mkRouter log_dir ∅.

Definition add_vhost (name : bytes) (r : VhostLogRouter) : VhostLogRouter :=
  match vr_writers r !! name with
  | Some _ => r
  | None => mkRouter (vr_log_dir r) (<[name := path_join (vr_log_dir r) (name ++ bs ".log")]> (vr_writers r))
  end.

Definition write_line (name line : bytes) (r : VhostLogRouter) (d : disk) : disk :=
  match vr_writers r !! name with
  | Some file => (fs_append file (line ++ [LF]) d).2
  | None => d
  end.

Definition get_log_path (name : bytes) (r : VhostLogRouter) : option bytes :=
  match vr_writers r !! name with
  | Some _ => Some (path_join (vr_log_dir r) (name ++ bs ".log"))
  | None => None
  end.

Definition registered_vhosts (r : VhostLogRouter) : gset bytes := dom (vr_writers r).

(** ** [routes/logs.rs] *)

Record LogQuery := mkLogQuery { lq_frontend : option bytes; lq_source : option bytes }.

Definition log_path (config : ServerWallConfig) (q : LogQuery) : option bytes :=
  match lq_source q with
  | Some src =>
      let dir := gc_log_dir (cfg_global config) in
      if bool_decide (src = bs "daemon") then Some (dir ++ bs "/serverwall.log")
      else if bool_decide (src = bs "webui") then Some (dir ++ bs "/serverwall-webui.log")
      else None
  | None =>
      match (name ← lq_frontend q; f ← List.find (fun f => bool_decide (fr_name f = name)) (cfg_frontend config); fr_log_file f) with
      | Some p => Some p
      | None => head (omap fr_log_file (cfg_frontend config))
      end
  end.

(** What a read of the file gives. *)
Inductive ReadResult := ReadData (chunk : bytes) | ReadEof | ReadFailed (e : bytes).

(** The inner loop: the complete lines of the buffer that are not blank, and what is left; each
    round takes at least a byte. *)
Fixpoint emit_lines (fuel : nat) (buf : bytes) : list bytes * bytes :=
  match fuel with
  | O => ([], buf)
  | S fuel =>
      match split_once buf LF with
      | Some (raw, rest) =>
          let (lines, left) := emit_lines fuel rest in
          let line := trim (from_utf8_lossy raw) in
          (if is_nil line then lines else line :: lines, left)
      | None => ([], buf)
      end
  end.

(** The outer loop over the reads until the client is gone. *)
Fixpoint tail_loop (reads : list ReadResult) (buf : bytes) : list bytes :=
  match reads with
  | [] => []
  | ReadEof :: reads => tail_loop reads buf
  | ReadData chunk :: reads =>
      let buf := buf ++ chunk in
      let (lines, buf) := emit_lines (length buf) buf in lines ++ tail_loop reads buf
  | ReadFailed e :: _ => [bs "{" ++ [34] ++ bs "error" ++ [34; 58; 34] ++ bs "log read error: " ++ e ++ [34] ++ bs "}"]
  end.

Definition tail_file (opened : result unit bytes) (reads : list ReadResult) : list bytes :=
  match opened with
  | Err e => [bs "{" ++ [34] ++ bs "error" ++ [34; 58; 34] ++ bs "cannot open log file: " ++ e ++ [34] ++ bs "}"]
  | Ok _ => tail_loop reads []
  end.

(** [GET /api/logs]; [opened] is the outcome of opening a file. *)
Definition log_stream (config : ServerWallConfig) (q : LogQuery) (opened : bytes -> result unit bytes)
    (reads : list ReadResult) : list bytes :=
  match log_path config q with
  | Some p => tail_file (opened p) reads
  | None => [bs "{" ++ [34] ++ bs "error" ++ [34; 58; 34] ++ bs "no log file configured for this source" ++ [34] ++ bs "}"]
  end.

(** ** [refresh_queue_stats] *)

Record QueueStats := mkStats {
  qs_total : Z; qs_pending : Z; qs_deferred : Z; qs_held : Z; qs_active : Z; qs_oldest_message_age_secs : option Z }.
Definition QueueStats_default : QueueStats := mkStats 0 0 0 0 0 None.

Definition count_message (now : Z) (s : QueueStats) (m : QueuedMessage) : QueueStats :=
  let '(mkStats t p d h a o) := s in
  let age := Z.max ((now - created (metadata m)) ÷ 1000000000) 0 in
  let o := Some (match o with Some prev => Z.max prev age | None => age end) in
  match status (metadata m) with
  | Pending => mkStats t (p + 1) d h a o
  | Deferred => mkStats t p (d + 1) h a o
  | Held => mkStats t p d (h + 1) a o
  | Active => mkStats t p d h (a + 1) o
  end.

(** A spool that cannot be listed counts as empty. *)
Definition refresh_queue_stats (now : Z) (listed : result (list QueuedMessage) bytes) : QueueStats :=
  let messages := match listed with Ok l => l | Err _ => [] end in
  fold_left (count_message now) messages (mkStats (Z.of_nat (length messages)) 0 0 0 0 None).

(** [GET /api/status]; the number of connections is not known to this process. *)
Definition dashboard (config : ServerWallConfig) (uptime : Z) (s : QueueStats) : json :=
  let count n := JNumber (Z.of_nat n) in
  JObject [(bs "status", JString (bs "ok")); (bs "uptime_seconds", JNumber uptime);
           (bs "frontend_count", count (length (cfg_frontend config)));
           (bs "backend_pool_count", count (length (cfg_backend_pool config)));
           (bs "active_connections", JNumber 0); (bs "queue_total", JNumber (qs_total s));
           (bs "queue_pending", JNumber (qs_pending s)); (bs "queue_deferred", JNumber (qs_deferred s));
           (bs "queue_held", JNumber (qs_held s)); (bs "relay_enabled", JBool (rel_enabled (cfg_relay config)));
           (bs "antispam_enabled", JBool (fc_enabled (cfg_antispam config)));
           (bs "waf_rulesets", count (length (cfg_waf_ruleset config)))].

(** ** [serverwall-cli/src/commands/queue.rs]: the listing and the statistics *)

(** [format!("{:?}", status).to_lowercase()]. *)
Definition status_text (st : QueueStatus) : bytes :=
  match st with Pending => bs "pending" | Active => bs "active" | Deferred => bs "deferred" | Held => bs "held" end.

Definition queue_selects `{Unicode} (by_status by_sender : option bytes) (m : QueuedMessage) : bool :=
  match by_status with
  | Some s => bool_decide (status_text (status (metadata m)) = to_lowercase s)
  | None => true
  end &&
  match by_sender with Some from => contains (mail_from (envelope m)) from | None => true end.

Definition cli_queue_list `{Unicode} (by_status by_sender : option bytes) (listed : result (list QueuedMessage) bytes)
  : list QueuedMessage :=
  List.filter (queue_selects by_status by_sender) (match listed with Ok l => l | Err _ => [] end).

Definition has_status (st : QueueStatus) (m : QueuedMessage) : bool := bool_decide (status (metadata m) = st).

Definition cli_queue_stats (listed : result (list QueuedMessage) bytes) : list bytes :=
  let messages := match listed with Ok l => l | Err _ => [] end in
  let count st := show (Z.of_nat (length (List.filter (has_status st) messages))) in
  [bs "Queue Statistics"; bs "================"; bs "Total:    " ++ show (Z.of_nat (length messages));
   bs "Pending:  " ++ count Pending; bs "Deferred: " ++ count Deferred; bs "Held:     " ++ count Held;
   bs "Active:   " ++ count Active].

(** ** The stream of a log *)

(** The bytes a sequence of reads delivers. *)
Definition data_of (reads : list ReadResult) : bytes :=
  concat ((fun r => match r with ReadData c => c | _ => [] end) <$> reads).
Definition is_failure (r : ReadResult) : bool := match r with ReadFailed _ => true | _ => false end.

(** The lines of a text that are complete and not blank, as they are shown. *)
Definition shown_lines (text : bytes) : list bytes :=
  List.filter (fun l => negb (is_nil l)) ((fun raw => trim (from_utf8_lossy raw)) <$> removelast (split text LF)).

Lemma split_ne s c : split s c <> [].
Proof. destruct s; cbn; [done|]. repeat case_match; done. Qed.

Lemma shown_lines_cons raw rest : LF ∉ raw ->
  shown_lines (raw ++ LF :: rest) =
  (let line := trim (from_utf8_lossy raw) in if is_nil line then [] else [line]) ++ shown_lines rest.
Proof.
  intros Hr. unfold shown_lines. rewrite split_app by done.
  destruct (split rest LF) as [|h t] eqn:E; [by apply split_ne in E|]. change (removelast (raw :: h :: t)) with (raw :: removelast (h :: t)).
  cbn [fmap list_fmap List.filter]. by destruct (is_nil _).
Qed.

Lemma shown_lines_none text : LF ∉ text -> shown_lines text = [].
Proof. intros Ht. unfold shown_lines. by rewrite split_none. Qed.

(** The complete lines of a text and what follows them. *)
Lemma shown_lines_app_rest text more : exists rest,
  emit_lines (length text) text = (shown_lines text, rest) /\ (LF ∉ rest) /\
  shown_lines (text ++ more) = shown_lines text ++ shown_lines (rest ++ more).
Proof.
  remember (length text) as n eqn:Hn. assert (Hl : (length text <= n)%nat) by lia. clear Hn.
  revert text Hl. induction n as [|n IH]; intros text Hl.
  - destruct text; [|cbn in Hl; lia]. exists []. split; [done|]. split; [by apply not_elem_of_nil|done].
  - cbn [emit_lines]. destruct (split_once text LF) as [[raw rest]|] eqn:E.
    + apply split_once_Some in E as [-> Hr]. destruct (IH rest) as (left & -> & Hn & Ha); [rewrite length_app in Hl; cbn in Hl; lia|].
      exists left. rewrite <- app_assoc. cbn [app]. rewrite !shown_lines_cons, Ha by done. cbv zeta. rewrite app_assoc.
      split; [|done]. by destruct (is_nil _).
    + apply split_once_None in E. exists text. by rewrite (shown_lines_none text E).
Qed.

Lemma tail_loop_lines reads buf : existsb is_failure reads = false -> LF ∉ buf ->
  tail_loop reads buf = shown_lines (buf ++ data_of reads).
Proof.
  revert buf. induction reads as [|[chunk| |e] reads IH]; intros buf; cbn [tail_loop existsb is_failure orb].
  - intros _ Hb. cbn. by rewrite app_nil_r, shown_lines_none.
  - intros Hf Hb. change (data_of (ReadData chunk :: reads)) with (chunk ++ data_of reads). rewrite app_assoc.
    destruct (shown_lines_app_rest (buf ++ chunk) (data_of reads)) as (rest & -> & Hr & ->). f_equal. by apply IH.
  - apply IH.
  - done.
Qed.

(** ** The statistics *)

Definition age_of (now : Z) (m : QueuedMessage) : Z := Z.max ((now - created (metadata m)) ÷ 1000000000) 0.

Lemma count_messages now l s :
  let s' := fold_left (count_message now) l s in
  let count st := Z.of_nat (length (List.filter (has_status st) l)) in
  qs_total s' = qs_total s /\ qs_pending s' = qs_pending s + count Pending /\ qs_deferred s' = qs_deferred s + count Deferred /\
  qs_held s' = qs_held s + count Held /\ qs_active s' = qs_active s + count Active /\
  qs_oldest_message_age_secs s' =
    fold_left (fun o m => Some (match o with Some prev => Z.max prev (age_of now m) | None => age_of now m end)) l
      (qs_oldest_message_age_secs s).
Proof.
  revert s. induction l as [|m l IH]; intros s; cbv zeta; [cbn; repeat split; lia|]. cbn [fold_left].
  destruct (IH (count_message now s m)) as (-> & -> & -> & -> & -> & ->). destruct s as [t p d h a o].
  cbn [List.filter]. unfold count_message, has_status.
  destruct (status (metadata m)); repeat case_bool_decide; try done; cbn; repeat split; lia.
Qed.

Lemma oldest_is_max now l o :
  match fold_left (fun o m => Some (match o with Some prev => Z.max prev (age_of now m) | None => age_of now m end)) l o with
  | Some age => (forall m, m ∈ l -> age_of now m <= age) /\ (forall prev, o = Some prev -> prev <= age) /\
      (o = Some age \/ exists m, m ∈ l /\ age_of now m = age)
  | None => l = [] /\ o = None
  end.
Proof.
  revert o. induction l as [|m l IH]; intros o; cbn [fold_left].
  - destruct o; [|done]. split; [by intros m ?%elem_of_nil|]. split; [by intros ? [= ->]|by left].
  - specialize (IH (Some (match o with Some prev => Z.max prev (age_of now m) | None => age_of now m end))).
    destruct (fold_left _ l _) as [age|]; [|by destruct IH]. destruct IH as (Hl & Hp & Hw). specialize (Hp _ eq_refl). split_and!.
    + intros m' [->|?]%elem_of_cons; [|by apply Hl]. destruct o; lia.
    + intros prev ->. lia.
    + destruct Hw as [[= <-]|(m' & ? & ?)]; [|right; exists m'; set_solver].
      destruct o as [prev|]; [|right; exists m; set_solver].
      destruct (Z.max_spec prev (age_of now m)) as [[_ ->]|[_ ->]]; [right; exists m; set_solver|by left].
Qed.

(** ** Properties *)

(** The log page shows every line once: whatever the sizes of the reads and the waits at the
    end of the file, the events are the complete lines written since the page was opened, in
    order, trimmed and without the blank ones, also when a line or a character was read in
    pieces. *)
Theorem tail_streams_lines (reads : list ReadResult) :
  existsb is_failure reads = false -> tail_file (Ok tt) reads = shown_lines (data_of reads).
Proof. intros Hf. apply (tail_loop_lines reads []); [done|by apply not_elem_of_nil]. Qed.

Lemma tail_streams_lines_witness :
  tail_file (Ok tt) [ReadData (bs "on"); ReadEof; ReadData (bs "e" ++ [LF] ++ bs "two" ++ [LF; LF] ++ bs "th")] =
  shown_lines (data_of [ReadData (bs "on"); ReadEof; ReadData (bs "e" ++ [LF] ++ bs "two" ++ [LF; LF] ++ bs "th")]).
Proof. apply tail_streams_lines. reflexivity. Defined.

(** The statistics of the queue: the counts by status are those of the messages listed and
    add up to the total, the oldest age is the greatest age of a message, and the command line
    prints the same numbers. *)
Theorem queue_stats_correct (now : Z) (l : list QueuedMessage) :
  let s := refresh_queue_stats now (Ok l) in
  let count st := Z.of_nat (length (List.filter (has_status st) l)) in
  qs_pending s = count Pending /\ qs_deferred s = count Deferred /\ qs_held s = count Held /\ qs_active s = count Active /\
  qs_total s = qs_pending s + qs_deferred s + qs_held s + qs_active s /\
  match qs_oldest_message_age_secs s with
  | Some age => (forall m, m ∈ l -> age_of now m <= age) /\ exists m, m ∈ l /\ age_of now m = age
  | None => l = []
  end /\
  cli_queue_stats (Ok l) =
    [bs "Queue Statistics"; bs "================"; bs "Total:    " ++ show (qs_total s);
     bs "Pending:  " ++ show (qs_pending s); bs "Deferred: " ++ show (qs_deferred s); bs "Held:     " ++ show (qs_held s);
     bs "Active:   " ++ show (qs_active s)].
Proof.
  cbv zeta. unfold refresh_queue_stats.
  destruct (count_messages now l (mkStats (Z.of_nat (length l)) 0 0 0 0 None)) as (-> & -> & -> & -> & -> & ->). cbn -[bs show].
  split_and!; [done..| | |done].
  - induction l as [|m l IH]; [done|]. cbn [List.filter length]. unfold has_status in *.
    destruct (status (metadata m)); repeat case_bool_decide; try done; cbn [length]; lia.
  - pose proof (oldest_is_max now l None) as Ho. destruct (fold_left _ l None) as [age|]; [|by destruct Ho].
    destruct Ho as (Ha & _ & [[=]|Hw]). done.
Qed.
