(* ===== verification/QueueViews.v ===== *)
(** * The queue as it is shown: [webui/src/routes/queue.rs], [cli/src/commands/queue.rs]

    The list of the web interface (filters, order, pages), the page of one message, the answers
    of the commands on the queue, and the command [queue] of the tool with what it prints.  The
    effects on the spool are those of [QueueAdmin].  Reading and printing dates is [chrono]'s. *)

From stdpp Require Import sorting.
From S2P Require Import Prelude RustStr Float64 Net External Toml Schema Fs Config Proto Antispam Admin Cli WebApi.
From S2P Require Import RelayQueue RelayDelivery QueueAdmin Relay Logging.
Open Scope Z_scope.

(** [to_rfc3339]; the midnight [NaiveDate::parse_from_str] with [%Y-%m-%d] finds; the
    difference of an instant and a duration, which panics out of range. *)
Class ChronoText := {
  to_rfc3339 : Z -> bytes;
  parse_date : bytes -> option Z;
  checked_sub : Z -> Z -> option Z;
}.

Class ChronoTextSpec `{ChronoText} := {
  checked_sub_exact a b c : checked_sub a b = Some c -> c = a - b;
}.

(** ** The web interface *)

Record QueueListParams := mkListParams {
  lp_offset : option Z; lp_limit : option Z; lp_status : option bytes; lp_sender : option bytes;
  lp_recipient : option bytes; lp_date_from : option bytes; lp_date_to : option bytes }.

Definition parse_status `{Unicode} (s : bytes) : option QueueStatus :=
  let s := to_lowercase s in
  if bool_decide (s = bs "pending") then Some Pending
  else if bool_decide (s = bs "active") then Some Active
  else if bool_decide (s = bs "deferred") then Some Deferred
  else if bool_decide (s = bs "held") then Some Held
  else None.

(** [if let Some(x) = o { messages.retain(|m| f(x, m)) }]. *)
Definition retain_with {A} (o : option A) (f : A -> QueuedMessage -> bool) (messages : list QueuedMessage)
  : list QueuedMessage :=
  match o with Some x => List.filter (f x) messages | None => messages end.

Definition from_sender `{Unicode} (s : bytes) (m : QueuedMessage) : bool :=
  contains (to_lowercase (mail_from (envelope m))) (to_lowercase s).
Definition to_recipient `{Unicode} (r : bytes) (m : QueuedMessage) : bool :=
  existsb (fun rcpt => contains (to_lowercase rcpt) (to_lowercase r)) (rcpt_to (envelope m)).
(** From midnight, and until 23:59:59. *)
Definition created_from (midnight : Z) (m : QueuedMessage) : bool := midnight <=? created (metadata m).
Definition created_until (midnight : Z) (m : QueuedMessage) : bool :=
  created (metadata m) <=? midnight + 86399000000000.

(** [sort_by(|a, b| b.created.cmp(&a.created))], a stable sort. *)
Fixpoint insert_newest (m : QueuedMessage) (l : list QueuedMessage) : list QueuedMessage :=
  match l with
  | [] => [m]
  | y :: l' => if created (metadata y) <=? created (metadata m) then m :: l else y :: insert_newest m l'
  end.
Definition newest_first (l : list QueuedMessage) : list QueuedMessage := foldr insert_newest [] l.

Section Web.
Context `{Unicode} `{ChronoText} `{Serde}.

Definition matching (params : QueueListParams) (messages : list QueuedMessage) : list QueuedMessage :=
  let messages := retain_with (lp_status params ≫= parse_status) has_status messages in
  let messages := retain_with (lp_sender params) from_sender messages in
  let messages := retain_with (lp_recipient params) to_recipient messages in
  let messages := retain_with (lp_date_from params ≫= parse_date) created_from messages in
  retain_with (lp_date_to params ≫= parse_date) created_until messages.

Definition page_offset (params : QueueListParams) : Z := unwrap_or 0 (lp_offset params).
Definition page_limit (params : QueueListParams) : Z := Z.min (unwrap_or 50 (lp_limit params)) 500.

(** The messages of the page asked for. *)
Definition queue_page (params : QueueListParams) (messages : list QueuedMessage) : list QueuedMessage :=
  take (Z.to_nat (page_limit params)) (drop (Z.to_nat (page_offset params)) (newest_first (matching params messages))).

Definition joptstr (o : option bytes) : json := match o with Some s => JString s | None => JNull end.

Definition message_to_json (m : QueuedMessage) : json :=
  JObject [(bs "id", JString (qid m)); (bs "sender", JString (mail_from (envelope m)));
           (bs "recipients", jlist jstr (rcpt_to (envelope m))); (bs "status", JString (status_text (status (metadata m))));
           (bs "size", jnum (size (metadata m))); (bs "created", JString (to_rfc3339 (created (metadata m))));
           (bs "next_retry", JString (to_rfc3339 (next_retry (metadata m)))); (bs "attempts", jnum (attempts (metadata m)));
           (bs "last_error", joptstr (last_error (metadata m)))].

Definition web_queue_list (params : QueueListParams) : io json :=
  let! messages := list_or_default in
  io_ret (JObject [(bs "messages", jlist message_to_json (queue_page params messages));
                   (bs "total", jnum (Z.of_nat (length (matching params messages))));
                   (bs "offset", jnum (page_offset params)); (bs "limit", jnum (page_limit params))]).

(** The headers of a message: the lines with a colon before the first empty one. *)
Fixpoint header_fields (ls : list bytes) : list (bytes * bytes) :=
  match ls with
  | [] => []
  | line :: ls =>
      if is_nil line then []
      else match split_once line 58 with
           | Some (name, value) => (trim name, trim value) :: header_fields ls
           | None => header_fields ls
           end
  end.
Definition shown_headers (raw : bytes) : list (bytes * bytes) := header_fields (lines (from_utf8_lossy raw)).

Definition web_queue_view (id : bytes) : io response := fun d =>
  match dequeue id d with
  | (Ok (msg, raw_bytes), d) =>
      let md := metadata msg in
      (Ok (OK, JObject [(bs "id", JString (qid msg));
         (bs "envelope", JObject [(bs "mail_from", JString (mail_from (envelope msg)));
                                  (bs "rcpt_to", jlist jstr (rcpt_to (envelope msg)))]);
         (bs "metadata", JObject [(bs "created", JString (to_rfc3339 (created md)));
                                  (bs "next_retry", JString (to_rfc3339 (next_retry md)));
                                  (bs "attempts", jnum (attempts md)); (bs "last_error", joptstr (last_error md));
                                  (bs "status", JString (status_text (status md))); (bs "size", jnum (size md))]);
         (bs "headers", jlist (fun h => JArray [JString h.1; JString h.2]) (shown_headers raw_bytes))]), d)
  | (Err _, d) => (Ok (NOT_FOUND, error_json (bs "message not found")), d)
  end.

Definition web_queue_stats (now : Z) : io json := fun d =>
  let (listed, d) := spool_list d in
  let s := refresh_queue_stats now listed in
  (Ok (JObject [(bs "total", jnum (qs_total s)); (bs "pending", jnum (qs_pending s)); (bs "deferred", jnum (qs_deferred s));
                (bs "held", jnum (qs_held s)); (bs "active", jnum (qs_active s));
                (bs "oldest_message_age_secs", joptnum (qs_oldest_message_age_secs s))]), d).

(** *** Commands *)

Definition queue_delete (id : bytes) : io response := fun d =>
  match remove id d with
  | (Ok _, d) => (Ok (OK, JObject [(bs "deleted", JBool true); (bs "id", JString id)]), d)
  | (Err e, d) => (Ok (NOT_FOUND, error_json (bs "failed to delete message: " ++ e)), d)
  end.

(** [retry], [hold] and [release]. *)
Definition queue_update (f : MessageMetadata -> MessageMetadata) (done failed : string) (id : bytes) : io response := fun d =>
  match dequeue id d with
  | (Err _, d) => (Ok (NOT_FOUND, error_json (bs "message not found")), d)
  | (Ok (msg, _), d) =>
      match update_metadata id (f (metadata msg)) d with
      | (Ok _, d) => (Ok (OK, JObject [(bs done, JBool true); (bs "id", JString id)]), d)
      | (Err e, d) => (Ok (INTERNAL_SERVER_ERROR, error_json (bs failed ++ e)), d)
      end
  end.
Definition queue_retry (now : Z) : bytes -> io response := queue_update (retry_now now) "retrying" "failed to update message: ".
Definition queue_hold : bytes -> io response := queue_update (set_status Held) "held" "failed to hold message: ".
Definition queue_release (now : Z) : bytes -> io response :=
  queue_update (retry_now now) "released" "failed to release message: ".

Definition queue_flush (now : Z) : io json :=
  let! n := web_flush now in io_ret (JObject [(bs "flushed", jnum (Z.of_nat n))]).

(** [None] is the panic of [Duration::days] or of the subtraction. *)
Definition queue_purge `{Chrono} (now : Z) (days : option Z) : option (io json) :=
  delta ← try_days (as_i64 (unwrap_or 7 days));
  cutoff ← checked_sub now delta;
  Some (let! messages := list_or_default in
        let! purged := remove_each (fun md => created md <? cutoff) messages in
        io_ret (JObject [(bs "purged", jnum (Z.of_nat purged)); (bs "days", jnum (unwrap_or 7 days))])).
End Web.

(** ** The command line *)

Definition format_size (n : Z) : bytes :=
  if n <? 1024 then show n ++ bs "B"
  else if n <? 1048576 then show_f1 (f_div (f_of_Z n) (f_of_Z 1024)) ++ bs "KB"
  else show_f1 (f_div (f_of_Z n) (f_of_Z 1048576)) ++ bs "MB".

Inductive QueueAction :=
| QueueList (status sender : option bytes)
| QueueDelete (id : bytes)
| QueueRetry (id : bytes)
| QueueHold (id : bytes)
| QueueRelease (id : bytes)
| QueueFlush
| QueueStatistics.

Section CommandLine.
Context `{Unicode} `{ChronoText} `{Serde} `{SerdeJson}.

Definition queue_json (m : QueuedMessage) : json :=
  JObject [(bs "id", JString (qid m)); (bs "sender", JString (mail_from (envelope m)));
           (bs "recipients", jlist jstr (rcpt_to (envelope m))); (bs "status", JString (status_text (status (metadata m))));
           (bs "size", jnum (size (metadata m))); (bs "attempts", jnum (attempts (metadata m)));
           (bs "created", JString (to_rfc3339 (created (metadata m))))].

Definition queue_row (m : QueuedMessage) : list bytes :=
  [qid m; mail_from (envelope m); join (bs ", ") (rcpt_to (envelope m)); status_text (status (metadata m));
   format_size (size (metadata m)); show (attempts (metadata m))].

Definition print_queue (json : bool) (messages : list QueuedMessage) : cmd unit :=
  if json then print_json (jlist queue_json messages)
  else
    say (bs "Total messages: " ++ show (Z.of_nat (length messages)) ++ [LF]) ;;
    print_table [bs "ID"; bs "SENDER"; bs "RECIPIENTS"; bs "STATUS"; bs "SIZE"; bs "ATTEMPTS"] (queue_row <$> messages).

Definition print_stats (json : bool) (listed : result (list QueuedMessage) bytes) : cmd unit :=
  if json then
    let messages := match listed with Ok l => l | Err _ => [] end in
    let count st := jnum (Z.of_nat (length (List.filter (has_status st) messages))) in
    print_json (JObject [(bs "total", jnum (Z.of_nat (length messages))); (bs "pending", count Pending);
                         (bs "deferred", count Deferred); (bs "held", count Held); (bs "active", count Active)])
  else say_all (cli_queue_stats listed).

(** [run] once the configuration is loaded and the spool is open: the effect on the spool, and
    what is printed or the error the tool ends with. *)
Definition then_say (r : io unit) (failed line : bytes) : io (cmd unit) := fun d =>
  match r d with
  | (Ok _, d) => (Ok (say line), d)
  | (Err e, d) => (Ok (bail (failed ++ e)), d)
  end.

Definition cli_queue (now : Z) (json : bool) (a : QueueAction) : io (cmd unit) :=
  match a with
  | QueueList status sender => fun d =>
      let (listed, d) := spool_list d in (Ok (print_queue json (cli_queue_list status sender listed)), d)
  | QueueDelete id => then_say (cli_delete id) (bs "failed to delete: ") (bs "Message " ++ id ++ bs " deleted.")
  | QueueRetry id => then_say (cli_retry now id) [] (bs "Message " ++ id ++ bs " queued for immediate retry.")
  | QueueHold id => then_say (cli_hold id) [] (bs "Message " ++ id ++ bs " held.")
  | QueueRelease id => then_say (cli_release id) [] (bs "Message " ++ id ++ bs " released to pending.")
  | QueueFlush =>
      let! count := cli_flush now in
      io_ret (say (bs "Flushed " ++ show (Z.of_nat count) ++ bs " deferred messages."))
  | QueueStatistics => fun d => let (listed, d) := spool_list d in (Ok (print_stats json listed), d)
  end.

Definition cli_queue_run (now : Z) (json : bool) (opened : result unit bytes) (a : QueueAction)
    (loaded : result ServerWallConfig ServerWallError) : io (cmd unit) :=
  match loaded, opened with
  | Err e, _ => io_ret (bail (show_error e))
  | _, Err e => io_ret (bail (bs "failed to open spool: " ++ e))
  | _, _ => cli_queue now json a
  end.
End CommandLine.

Example format_size_values :
  format_size 1023 = bs "1023B" /\ format_size 1024 = bs "1.0KB" /\ format_size 1048575 = bs "1024.0KB" /\
  format_size 1572864 = bs "1.5MB".
Proof. vm_compute. done. Qed.

(** ** Lemmas *)

Definition newest_le (a b : QueuedMessage) : Prop := created (metadata b) <= created (metadata a).

Lemma insert_newest_perm m l : insert_newest m l ≡ₚ m :: l.
Proof.
  induction l as [|y l IH]; [done|]. cbn. case_match; [done|]. rewrite IH. apply Permutation_swap.
Qed.

Lemma newest_first_perm l : newest_first l ≡ₚ l.
Proof. induction l as [|m l IH]; [done|]. cbn. by rewrite insert_newest_perm, IH. Qed.

Lemma insert_newest_sorted m l : StronglySorted newest_le l -> StronglySorted newest_le (insert_newest m l).
Proof.
  induction 1 as [|y l Hl IH Hy]; cbn; [repeat constructor|]. destruct (_ <=? _) eqn:E.
  - apply Z.leb_le in E. constructor; [by constructor|]. constructor; [done|].
    eapply Forall_impl; [exact Hy|]. unfold newest_le. cbn. lia.
  - apply Z.leb_gt in E. constructor; [done|]. rewrite insert_newest_perm.
    constructor; [unfold newest_le; lia|done].
Qed.

Lemma newest_first_sorted l : StronglySorted newest_le (newest_first l).
Proof. induction l as [|m l IH]; [constructor|]. by apply insert_newest_sorted. Qed.

(** The order is stable: messages of one instant stay in the order of the listing. *)
Lemma insert_newest_stable t m l :
  List.filter (fun x => created (metadata x) =? t) (insert_newest m l) =
  List.filter (fun x => created (metadata x) =? t) (m :: l).
Proof.
  induction l as [|y l IH]; [done|]. cbn [insert_newest]. destruct (_ <=? _) eqn:E; [done|].
  apply Z.leb_gt in E. cbn [List.filter] in *. rewrite IH.
  destruct (created (metadata m) =? t) eqn:Em, (created (metadata y) =? t) eqn:Ey; try done. lia.
Qed.

Lemma newest_first_stable t l :
  List.filter (fun x => created (metadata x) =? t) (newest_first l) =
  List.filter (fun x => created (metadata x) =? t) l.
Proof.
  induction l as [|m l IH]; [done|]. cbn [newest_first foldr]. rewrite insert_newest_stable. cbn [List.filter].
  unfold newest_first in IH. by rewrite IH.
Qed.

Lemma retain_with_In {A} (o : option A) f messages m :
  m ∈ retain_with o f messages <-> m ∈ messages /\ forall x, o = Some x -> f x m = true.
Proof.
  destruct o as [x|]; cbn; [|naive_solver]. rewrite !list_elem_of_In, List.filter_In.
  split; [intros [? ?]; split; [done|by intros ? [= <-]]|intros [? Hf]; eauto].
Qed.

(** Successive chunks of [n] give the list back. *)
Lemma chunks_concat {A} (n : nat) (l : list A) k :
  (length l <= k * n)%nat -> concat ((fun i => take n (drop (i * n) l)) <$> seq 0 k) = l.
Proof.
  revert l. induction k as [|k IH]; intros l Hl; [by destruct l; [|cbn in Hl; lia]|].
  cbn [seq fmap list_fmap concat]. rewrite drop_0, <- fmap_S_seq, <- list_fmap_compose.
  rewrite <- (take_drop n l) at 2. f_equal. rewrite <- (IH (drop n l)) by (rewrite length_drop; lia).
  f_equal. apply list_fmap_ext. intros i x _. cbn. by rewrite drop_drop.
Qed.

(** The handlers change the spool as the operations of [QueueAdmin] do. *)
Lemma queue_update_effect `{Serde} f done failed id d :
  (queue_update f done failed id d).2 = (edit_metadata f id d).2.
Proof.
  unfold queue_update, edit_metadata, io_bind. destruct (dequeue id d) as [[[msg raw]|e] d1]; [|reflexivity].
  by destruct (update_metadata _ _ d1) as [[]].
Qed.

Section Purge.
Context `{SerdeSpec}.

(** The loop of [purge] on messages of the store: those selected go, the others stay. *)
Definition selected (sel : MessageMetadata -> bool) (l : list QueuedMessage) (id : bytes) : bool :=
  existsb (fun q => bool_decide (qid q = id) && sel (metadata q)) l.

Lemma remove_each_refines sel l : forall d s,
  represents d s -> NoDup (qid <$> l) -> (forall q, q ∈ l -> is_Some (s (qid q))) ->
  exists d' s', remove_each sel l d = (Ok (length (List.filter (sel ∘ metadata) l)), d') /\ represents d' s' /\
    forall id, s' id = if selected sel l id then None else s id.
Proof.
  induction l as [|q l IH]; intros d s Hr Hnd Hs; [by exists d, s|].
  rewrite fmap_cons in Hnd. apply NoDup_cons in Hnd as [Hq Hnd]. cbn [remove_each List.filter].
  change ((sel ∘ metadata) q) with (sel (metadata q)). destruct (sel (metadata q)) eqn:Esel.
  - destruct (Hs q) as [[q0 m] Hg]; [by left|].
    destruct (remove_refines d s (qid q) q0 m Hr Hg) as (d1 & -> & Hr1).
    destruct (IH d1 (upd (qid q) None s) Hr1 Hnd) as (d' & s' & -> & Hr' & Hs').
    { intros q' Hq'. rewrite upd_other; [apply Hs; by right|]. intros E. apply Hq. rewrite <- E.
      by apply list_elem_of_fmap_2. }
    exists d', s'. split; [done|]. split; [done|]. intros id. rewrite Hs'. cbn [selected existsb]. rewrite Esel, andb_true_r.
    fold (selected sel l id). unfold upd. repeat case_bool_decide; subst; cbn; try done. by destruct (selected _ _ _).
  - destruct (IH d s Hr Hnd) as (d' & s' & -> & Hr' & Hs'); [intros q' Hq'; apply Hs; by right|].
    exists d', s'. split; [done|]. split; [done|]. intros id. rewrite Hs'. cbn [selected existsb].
    by rewrite Esel, andb_false_r.
Qed.

Lemma purge_refines `{ChronoText} `{Chrono} now days cutoff delta p d s :
  represents d s -> spool_inv d -> try_days (as_i64 (unwrap_or 7 days)) = Some delta ->
  checked_sub now delta = Some cutoff -> queue_purge now days = Some p ->
  exists answer d' s', p d = (Ok answer, d') /\ represents d' s' /\
    forall id, id <> [] -> s' id = match s id with
                       | Some (q, m) => if created (metadata q) <? cutoff then None else Some (q, m)
                       | None => None
                       end.
Proof.
  intros Hr Hi Hd Hc. unfold queue_purge. rewrite Hd. cbn. rewrite Hc. cbn. intros [= <-].
  pose proof Hr as [Hcalm Hs]. destruct (spool_list_messages d Hcalm Hi) as (l & Hl & Hnd & Hel).
  unfold io_bind at 1, list_or_default. rewrite Hl.
  destruct (remove_each_refines (fun md => created md <? cutoff) l d s Hr Hnd) as (d' & s' & He & Hr' & Hs').
  { intros q (_ & m & Hq)%Hel. rewrite <- Hs, Hq. by eexists. }
  unfold io_bind. rewrite He. eexists _, d', s'. split; [done|]. split; [done|]. intros id Hne. rewrite Hs'.
  unfold selected. destruct (existsb _ l) eqn:Ex.
  - apply existsb_exists in Ex as (q & Hin%list_elem_of_In & [Hq Ht]%andb_true_iff).
    apply bool_decide_eq_true in Hq as <-. apply Hel in Hin as (_ & m & Hg). rewrite <- Hs, Hg. by rewrite Ht.
  - destruct (s id) as [[q m]|] eqn:Es; [|done]. destruct (_ <? _) eqn:Et; [|done]. exfalso.
    apply not_true_iff_false in Ex. apply Ex, existsb_exists. exists q. split.
    + apply list_elem_of_In, Hel. rewrite <- Hs in Es. pose proof Es as [(j & Hj & Hq) _]%spool_get_Some.
      destruct (Hi _ _ _ Hj Hq) as [-> _]. eauto.
    + rewrite <- Hs in Es. pose proof Es as [(j & Hj & Hq) _]%spool_get_Some. destruct (Hi _ _ _ Hj Hq) as [-> _].
      rewrite bool_decide_true by done. by rewrite Et.
Qed.
End Purge.

(** ** Properties *)

(** The parameters of the [i]-th page of [limit] messages. *)
Definition page_params (params : QueueListParams) (limit : Z) (i : nat) : QueueListParams :=
  mkListParams (Some (Z.of_nat i * limit)) (Some limit) (lp_status params) (lp_sender params) (lp_recipient params)
    (lp_date_from params) (lp_date_to params).

(** The pages of the queue show it completely: for any filters and any page size up to 500, the
    pages one after the other show every message that matches all filters once and nothing
    else, newest first, and messages of the same instant in the order of the listing. *)
Theorem queue_pages_complete `{Unicode} `{ChronoText} params limit messages k :
  1 <= limit <= 500 -> (length (matching params messages) <= k * Z.to_nat limit)%nat ->
  let shown := concat ((fun i => queue_page (page_params params limit i) messages) <$> seq 0 k) in
  shown ≡ₚ matching params messages /\ StronglySorted newest_le shown /\
  (forall t, List.filter (fun x => created (metadata x) =? t) shown =
             List.filter (fun x => created (metadata x) =? t) (matching params messages)) /\
  forall m, m ∈ shown <->
    m ∈ messages /\
    (forall st, lp_status params ≫= parse_status = Some st -> has_status st m = true) /\
    (forall s, lp_sender params = Some s -> from_sender s m = true) /\
    (forall r, lp_recipient params = Some r -> to_recipient r m = true) /\
    (forall t, lp_date_from params ≫= parse_date = Some t -> t <= created (metadata m)) /\
    (forall t, lp_date_to params ≫= parse_date = Some t -> created (metadata m) <= t + 86399000000000).
Proof.
  intros Hl Hk shown.
  assert (Hshown : shown = newest_first (matching params messages)).
  { subst shown. rewrite <- (chunks_concat (Z.to_nat limit) (newest_first (matching params messages)) k)
      by (by rewrite newest_first_perm).
    f_equal. apply list_fmap_ext. intros i x _. unfold queue_page, page_limit, page_offset, page_params. cbn.
    rewrite Z.min_l, Z2Nat.inj_mul, Nat2Z.id by lia. done. }
  rewrite Hshown. split; [apply newest_first_perm|]. split; [apply newest_first_sorted|].
  split; [intros t; apply newest_first_stable|]. intros m. rewrite newest_first_perm. unfold matching.
  rewrite !retain_with_In. unfold created_from, created_until. setoid_rewrite Z.leb_le. tauto.
Qed.

(** Dates for the examples. *)
Definition example_chrono : ChronoText := {|
  to_rfc3339 := show;
  parse_date := fun s => if bool_decide (s = bs "2026-11-16") then Some 86400000000000 else None;
  checked_sub := fun a b => Some (a - b);
|}.
#[export] Instance example_chrono_spec : @ChronoTextSpec example_chrono.
Proof. split. by intros a b c [= <-]. Qed.

Lemma queue_pages_complete_witness :
  let params := mkListParams None None (Some (bs "Pending")) None None None None in
  let shown := concat ((fun i => @queue_page caseless example_chrono (page_params params 1 i) [fixture_message]) <$> seq 0 1) in
  shown ≡ₚ @matching caseless example_chrono params [fixture_message] /\ StronglySorted newest_le shown /\
  (forall t, List.filter (fun x => created (metadata x) =? t) shown =
             List.filter (fun x => created (metadata x) =? t) (@matching caseless example_chrono params [fixture_message])) /\
  forall m, m ∈ shown <->
    m ∈ [fixture_message] /\
    (forall st, lp_status params ≫= @parse_status caseless = Some st -> has_status st m = true) /\
    (forall s, lp_sender params = Some s -> @from_sender caseless s m = true) /\
    (forall r, lp_recipient params = Some r -> @to_recipient caseless r m = true) /\
    (forall t, lp_date_from params ≫= @parse_date example_chrono = Some t -> t <= created (metadata m)) /\
    (forall t, lp_date_to params ≫= @parse_date example_chrono = Some t -> created (metadata m) <= t + 86399000000000).
Proof.
  apply (@queue_pages_complete caseless example_chrono (mkListParams None None (Some (bs "Pending")) None None None None)
           1 [fixture_message] 1).
  - lia.
  - vm_compute. lia.
Defined.

(** [purge] removes exactly the messages created more than the given number of days ago, where
    that number is below 2^63. *)
Theorem purge_exact `{SerdeSpec} `{ChronoSpec} `{ChronoTextSpec} now days p d s :
  represents d s -> spool_inv d -> unwrap_or 7 days < 2 ^ 63 -> queue_purge now days = Some p ->
  exists answer d' s', p d = (Ok answer, d') /\ represents d' s' /\
    forall id, id <> [] -> s' id = match s id with
                       | Some (q, m) => if created (metadata q) <? now - ns_days (unwrap_or 7 days) then None else Some (q, m)
                       | None => None
                       end.
Proof.
  intros Hr Hi Hd Hp. pose proof Hp as Hp'. unfold queue_purge in Hp'.
  destruct (try_days _) as [delta|] eqn:Et; [|done]. cbn in Hp'. destruct (checked_sub now delta) as [cutoff|] eqn:Ec; [|done].
  replace (now - ns_days (unwrap_or 7 days)) with cutoff; [by eapply purge_refines|].
  rewrite (checked_sub_exact _ _ _ Ec). rewrite try_days_spec in Et. unfold chrono_unit in Et.
  destruct (_ <=? _); [|done]. injection Et as <-. unfold ns_days, as_i64. apply Z.ltb_lt in Hd as ->. done.
Qed.

(** Larger numbers of days are taken for negative ones: a purge of the messages older than
    2^64 - 1 days removes all messages there are. *)
Theorem purge_wraps `{SerdeSpec} `{ChronoSpec} `{ChronoTextSpec} now p d s :
  represents d s -> spool_inv d -> queue_purge now (Some (2 ^ 64 - 1)) = Some p ->
  exists answer d' s', p d = (Ok answer, d') /\ represents d' s' /\
    forall id q m, id <> [] -> s id = Some (q, m) -> created (metadata q) <= now -> s' id = None.
Proof.
  intros Hr Hi Hp. pose proof Hp as Hp'. unfold queue_purge in Hp'.
  destruct (try_days _) as [delta|] eqn:Et; [|done]. cbn in Hp'. destruct (checked_sub now delta) as [cutoff|] eqn:Ec; [|done].
  destruct (purge_refines now (Some (2 ^ 64 - 1)) cutoff delta p d s Hr Hi Et Ec Hp) as (ans & d' & s' & He & Hr' & Hs').
  exists ans, d', s'. split; [done|]. split; [done|]. intros id q m Hne Hq Hc. rewrite Hs', Hq by done.
  apply checked_sub_exact in Ec. rewrite try_days_spec in Et. vm_compute in Et. injection Et as <-. subst cutoff.
  by replace (_ <? _) with true by (symmetry; apply Z.ltb_lt; lia).
Qed.

(** A status that is none is ignored by the web interface, and matches nothing on the command line. *)
Theorem unknown_status `{Unicode} `{ChronoText} s messages :
  parse_status s = None ->
  matching (mkListParams None None (Some s) None None None None) messages = messages /\
  cli_queue_list (Some s) None (Ok messages) = [].
Proof.
  intros Hs. split; [unfold matching; cbn; by rewrite Hs|]. unfold cli_queue_list.
  induction messages as [|m l IH]; [done|]. cbn [List.filter]. rewrite IH. unfold queue_selects. rewrite andb_true_r.
  rewrite bool_decide_false; [done|]. intros E. unfold parse_status in Hs. rewrite <- E in Hs.
  by destruct (status (metadata m)).
Qed.

(** A message of the last second of a day is not found by that date. *)
Theorem last_second_missed `{Unicode} `{ChronoText} date midnight messages m :
  parse_date date = Some midnight -> midnight + 86399000000000 < created (metadata m) ->
  m ∉ matching (mkListParams None None None None None (Some date) (Some date)) messages.
Proof.
  intros Hd Hc Hm. unfold matching in Hm. cbn in Hm. rewrite Hd in Hm.
  apply retain_with_In in Hm as [_ Hu]. specialize (Hu _ eq_refl). unfold created_until in Hu. lia.
Qed.

(** The continuation of a folded header is shown as a header of its own, or not at all. *)
Example folded_headers :
  shown_headers (bs "Subject: a" ++ CRLF ++ bs " long one: two" ++ CRLF ++ bs " words" ++ CRLF ++ CRLF ++ bs "x: y") =
  [(bs "Subject", bs "a"); (bs "long one", bs "two")].
Proof. vm_compute. done. Qed.
