(* ===== verification/CertViews.v ===== *)
(** * Certificates as they are shown

    [list] and [get] of [webui/src/routes/certificates.rs], with the reading of a PEM file and
    the texts made of a certificate's attributes, and [cert list] of the command line.  OpenSSL
    decodes a certificate and computes digests; dates are [chrono]'s. *)

From stdpp Require Import sorting.
From S2P Require Import Prelude RustStr Float64 Net External Toml Schema Fields Fs Config CertStore AntispamPost Proto Admin Cli.
From S2P Require Import CliSecurity WebApi WebCerts QueueViews.
Open Scope Z_scope.

(** A subject alternative name: what [dnsname] and [ipaddress] tell apart. *)
Inductive GeneralName := DnsName (s : bytes) | IpAddressName (octets : bytes) | OtherName.

Class X509Lib := {
  X509 : Type;
  x509_from_pem : bytes -> option X509;
  not_before : X509 -> bytes; (* [Asn1TimeRef] as it is displayed *)
  not_after : X509 -> bytes;
  subject_cn : X509 -> option bytes; (* the first common name, where it is UTF-8 *)
  issuer_cn : X509 -> option bytes;
  subject_name_hash : X509 -> Z;
  issuer_name_hash : X509 -> Z;
  serial_number : X509 -> option bytes; (* [to_bn] and [to_vec] *)
  to_der : X509 -> option bytes;
  sha1 : bytes -> option bytes;
  sha256 : bytes -> option bytes;
  subject_alt_names : X509 -> option (list GeneralName);
  parse_datetime : bytes -> bytes -> option Z; (* [NaiveDateTime::parse_from_str] of a text, with a format *)
  show_datetime : Z -> bytes; (* with the format [%Y-%m-%dT%H:%M:%S] *)
}.

(** ** Texts *)

Fixpoint trim_gmt (fuel : nat) (s : bytes) : bytes :=
  match fuel with
  | O => s
  | S fuel => match strip_suffix s (bs " GMT") with Some s => trim_gmt fuel s | None => s end
  end.

Section Texts.
Context `{X509Lib}.

Definition format_asn1_time (s : bytes) : bytes :=
  let trimmed := trim_gmt (length s) s in
  match parse_datetime trimmed (bs "%b %e %T %Y") with
  | Some dt => show_datetime dt ++ bs "Z"
  | None => match parse_datetime trimmed (bs "%b %d %T %Y") with
            | Some dt => show_datetime dt ++ bs "Z"
            | None => s
            end
  end.

(** [format!("{:02X}", b)] of each byte, joined. *)
Definition hex_colons (b : bytes) : bytes := join (bs ":") ((fun x => show_hex 2 x []) <$> b).

Definition cert_serial_hex (cert : X509) : bytes := default [] (hex_colons <$> serial_number cert).
Definition cert_fingerprint (digest : bytes -> option bytes) (cert : X509) : bytes :=
  default [] (hex_colons <$> (to_der cert ≫= digest)).
Definition subject_equals_issuer (cert : X509) : bool := subject_name_hash cert =? issuer_name_hash cert.

(** The address of 4 or 16 octets. *)
Definition ip_of_octets (o : bytes) : option IpAddr :=
  let value := fold_left (fun a b => a * 256 + b) o 0 in
  if (length o =? 4)%nat then Some (V4 value) else if (length o =? 16)%nat then Some (V6 value) else None.

Definition san_text (n : GeneralName) : option bytes :=
  match n with
  | DnsName s => Some (bs "DNS:" ++ s)
  | IpAddressName o => ip ← ip_of_octets o; Some (bs "IP:" ++ show_ip ip)
  | OtherName => None
  end.
Definition extract_sans (cert : X509) : list bytes :=
  match subject_alt_names cert with Some names => filter_map san_text names | None => [] end.
End Texts.

(** ** A file of certificates *)

Definition PEM_BEGIN : bytes := bs "-----BEGIN CERTIFICATE-----".
Definition PEM_END : bytes := bs "-----END CERTIFICATE-----".

(** The blocks the loop of [read_pem_chain] cuts out; every round takes at least the end line off. *)
Fixpoint pem_blocks (fuel : nat) (rest : bytes) : list bytes :=
  match fuel with
  | O => []
  | S fuel =>
      match find rest PEM_BEGIN with
      | None => []
      | Some start =>
          let chunk := drop start rest in
          match find chunk PEM_END with
          | None => []
          | Some end_pos =>
              take (end_pos + length PEM_END) chunk :: pem_blocks fuel (drop (end_pos + length PEM_END) chunk)
          end
      end
  end.

Section Chain.
Context `{X509Lib}.

(** A block that is no certificate is left out. *)
Definition read_pem_chain (pem : bytes) : list X509 :=
  if utf8_valid pem then filter_map x509_from_pem (pem_blocks (S (length pem)) pem) else [].

(** ** [get] *)

Definition optional_text (o : option bytes) : json := JString (default [] o).

Definition chain_entry (depth : nat) (c : X509) : json :=
  JObject [(bs "depth", jnum (Z.of_nat depth)); (bs "subject_cn", optional_text (subject_cn c));
           (bs "issuer_cn", optional_text (issuer_cn c)); (bs "self_signed", JBool (subject_equals_issuer c));
           (bs "serial", JString (cert_serial_hex c)); (bs "not_before", JString (format_asn1_time (not_before c)));
           (bs "not_after", JString (format_asn1_time (not_after c))); (bs "sha1", JString (cert_fingerprint sha1 c));
           (bs "sha256", JString (cert_fingerprint sha256 c)); (bs "sans", jlist jstr (extract_sans c))].

Definition parse_cert_details (cert_path key_path name : bytes) (d : disk) : json * disk :=
  match fs_read cert_path d with
  | (Err e, d) => (error_json (bs "failed to read cert: " ++ e), d)
  | (Ok pem, d) =>
      match read_pem_chain pem with
      | [] => (error_json (bs "failed to parse certificate"), d)
      | (cert :: _) as chain =>
          (JObject [(bs "name", JString name); (bs "cert_file", JString cert_path); (bs "key_file", JString key_path);
                    (bs "key_exists", JBool (bool_decide (is_Some (files d !! key_path))));
                    (bs "cn", optional_text (subject_cn cert)); (bs "issuer_cn", optional_text (issuer_cn cert));
                    (bs "self_signed", JBool (subject_equals_issuer cert));
                    (bs "not_before", JString (format_asn1_time (not_before cert)));
                    (bs "not_after", JString (format_asn1_time (not_after cert)));
                    (bs "sans", jlist jstr (extract_sans cert)); (bs "serial", JString (cert_serial_hex cert));
                    (bs "sha1", JString (cert_fingerprint sha1 cert)); (bs "sha256", JString (cert_fingerprint sha256 cert));
                    (bs "chain", JArray (imap chain_entry chain))], d)
      end
  end.

Definition certs_get `{UnicodeClasses} (config : ServerWallConfig) (name : bytes) (d : disk) : response * disk :=
  let cert_dir := gc_cert_dir (cfg_global config) in
  let name := sanitize_cert_name name in
  if is_nil name then ((BAD_REQUEST, error_json (bs "invalid name")), d)
  else
    let cert_path := cert_file_of cert_dir name in
    if bool_decide (is_Some (files d !! cert_path)) then
      let (detail, d) := parse_cert_details cert_path (key_file_of cert_dir name) name d in ((OK, detail), d)
    else ((NOT_FOUND, error_json (bs "certificate not found")), d).

(** ** [list] *)

Record CertEntry := mkCertEntry {
  ce_name : bytes; ce_cert_file : bytes; ce_key_file : bytes; ce_key_exists : bool; ce_expiry : option bytes;
  ce_in_use_by : list bytes }.

(** The name of a certificate file; key files are not listed. *)
Definition listed_name (fname : bytes) : option bytes :=
  if negb (utf8_valid fname) || negb (ends_with fname (bs ".pem")) || ends_with fname (bs "-key.pem") then None
  else strip_suffix fname (bs ".pem").

(** The frontends with a certificate of that file name, and the web interface. *)
Definition cert_uses (config : ServerWallConfig) (fname : bytes) : list bytes :=
  (fr_name <$> List.filter (fun f => names_file (fr_tls_cert f) fname) (cfg_frontend config)) ++
  (if names_file (webui_tls_cert (cfg_webui config)) fname then [bs "(webui)"] else []).

Definition parse_cert_expiry (cert_path : bytes) : io (option bytes) := fun d =>
  match fs_read cert_path d with
  | (Ok pem, d) => (Ok (cert ← x509_from_pem pem; Some (format_asn1_time (not_after cert))), d)
  | (Err _, d) => (Ok None, d)
  end.

Fixpoint cert_entries (config : ServerWallConfig) (names : list bytes) : io (list CertEntry) :=
  match names with
  | [] => io_ret []
  | fname :: names =>
      match listed_name fname with
      | None => cert_entries config names
      | Some name =>
          let cert_dir := gc_cert_dir (cfg_global config) in
          let key_file := name ++ bs "-key.pem" in
          let! expiry := parse_cert_expiry (path_join cert_dir fname) in
          let! key_exists := fs_exists (path_push cert_dir key_file) in
          let! rest := cert_entries config names in
          io_ret (mkCertEntry name fname key_file key_exists expiry (cert_uses config fname) :: rest)
      end
  end.

Fixpoint insert_entry (e : CertEntry) (l : list CertEntry) : list CertEntry :=
  match l with
  | [] => [e]
  | y :: l' => if bytes_le (ce_name e) (ce_name y) then e :: l else y :: insert_entry e l'
  end.
Definition sort_entries (l : list CertEntry) : list CertEntry := foldr insert_entry [] l.

Definition cert_json (e : CertEntry) : json :=
  JObject [(bs "name", JString (ce_name e)); (bs "cert_file", JString (ce_cert_file e)); (bs "key_file", JString (ce_key_file e));
           (bs "key_exists", JBool (ce_key_exists e)); (bs "expiry", joptstr (ce_expiry e));
           (bs "in_use_by", jlist jstr (ce_in_use_by e))].

(** The entries shown; a directory that cannot be read has none. *)
Definition certs_listed (config : ServerWallConfig) : io (list CertEntry) := fun d =>
  match fs_read_dir (gc_cert_dir (cfg_global config)) d with
  | (Err _, d) => (Ok [], d)
  | (Ok names, d) => (let! entries := cert_entries config names in io_ret (sort_entries entries)) d
  end.

Definition certs_list (config : ServerWallConfig) : io json :=
  let! entries := certs_listed config in io_ret (JObject [(bs "certificates", jlist cert_json entries)]).
End Chain.

(** ** [cert list] of the command line *)

Section CommandLine.
Context `{SerdeJson}.
(** [metadata] of a directory entry: its length and the time it was modified, where they are known. *)
Context (len : bytes -> option Z) (modified : bytes -> option bytes).

Definition cert_extension (fname : bytes) : bool :=
  match path_extension fname with
  | Some ext => bool_decide (ext ∈ [bs "pem"; bs "crt"; bs "cer"; bs "pfx"; bs "p12"])
  | None => false
  end.

Definition cert_row (fname : bytes) : list bytes :=
  [if utf8_valid fname then fname else []; format_size (default 0 (len fname)); default (bs "-") (modified fname)].

Definition cell_json (r : list bytes) (i : nat) : json := JString (default [] (r !! i)).

Definition cli_cert_list (json : bool) (cert_dir : bytes) (entries : result (list bytes) bytes) : cmd unit :=
  match entries with
  | Err e => bail (bs "failed to read cert dir " ++ cert_dir ++ bs ": " ++ e)
  | Ok names =>
      let rows := cert_row <$> List.filter cert_extension names in
      if json then
        print_json (jlist (fun r => JObject [(bs "name", cell_json r 0); (bs "size", cell_json r 1);
                                             (bs "modified", cell_json r 2)]) rows)
      else
        say (bs "Cert directory: " ++ cert_dir) ;; say [] ;;
        if is_nil rows then say (bs "No certificates found.")
        else print_table [bs "NAME"; bs "SIZE"; bs "MODIFIED"] rows
  end.
End CommandLine.

(** ** Lemmas *)

(** A PEM block: the lines between the markers have no dash. *)
Definition pem_block (body : bytes) : bytes := PEM_BEGIN ++ [LF] ++ body ++ PEM_END.
Definition pem_text (bodies : list bytes) : bytes := concat ((fun b => pem_block b ++ [LF]) <$> bodies).

Lemma find_skip g s p : (45 ∉ g) -> find (g ++ s) (45 :: p) = Nat.add (length g) <$> find s (45 :: p).
Proof.
  induction g as [|x g IH]; intros Hg; [cbn [app]; by destruct (find s (45 :: p))|].
  apply not_elem_of_cons in Hg as [Hx Hg]. cbn [app find]. rewrite starts_with_cons_ne by done. rewrite IH by done.
  by destruct (find s _).
Qed.

Lemma find_here p s : find (p ++ s) p = Some 0%nat.
Proof. pose proof (starts_with_app p s) as Hs. revert Hs. generalize (p ++ s). by intros [|x l] Hs; cbn; rewrite Hs. Qed.

Lemma find_step x s p : starts_with (x :: s) p = false -> find (x :: s) p = S <$> find s p.
Proof. intros Hs. cbn [find]. by rewrite Hs. Qed.

Lemma find_after_begin t : find (PEM_BEGIN ++ LF :: t) PEM_END = Nat.add (S (length PEM_BEGIN)) <$> find t PEM_END.
Proof.
  let l := eval vm_compute in PEM_BEGIN in change PEM_BEGIN with l. cbn [app].
  repeat (rewrite find_step by (vm_compute; reflexivity)). by destruct (find t PEM_END).
Qed.

Lemma find_end body rest :
  (45 ∉ body) -> find (pem_block body ++ rest) PEM_END = Some (length (PEM_BEGIN ++ [LF] ++ body)).
Proof.
  intros Hb. unfold pem_block. rewrite <- !app_assoc. cbn [app]. rewrite find_after_begin.
  change PEM_END with (45 :: tail PEM_END). rewrite find_skip by done.
  change (45 :: tail PEM_END) with PEM_END. rewrite find_here. cbn [fmap option_fmap option_map]. f_equal.
  rewrite !length_app. cbn [length app]. lia.
Qed.

(** A round of the loop at the beginning of a block, and at other text. *)
Lemma pem_blocks_block fuel body rest :
  (45 ∉ body) -> pem_blocks (S fuel) (pem_block body ++ rest) = pem_block body :: pem_blocks fuel rest.
Proof.
  intros Hb. cbn [pem_blocks].
  assert (find (pem_block body ++ rest) PEM_BEGIN = Some 0%nat) as ->
    by (unfold pem_block; rewrite <- app_assoc; apply find_here).
  rewrite drop_0, find_end by done.
  assert (length (PEM_BEGIN ++ [LF] ++ body) + length PEM_END = length (pem_block body))%nat as ->
    by (unfold pem_block; rewrite !length_app; lia).
  by rewrite take_app_length, drop_app_length.
Qed.

Lemma pem_blocks_skip fuel g rest : (45 ∉ g) -> pem_blocks fuel (g ++ rest) = pem_blocks fuel rest.
Proof.
  intros Hg. destruct fuel as [|fuel]; [done|]. cbn [pem_blocks].
  change PEM_BEGIN with (45 :: tail PEM_BEGIN). rewrite find_skip by done. change (45 :: tail PEM_BEGIN) with PEM_BEGIN.
  destruct (find rest PEM_BEGIN) as [i|]; [|done]. cbn [fmap option_fmap option_map].
  by rewrite <- drop_drop, drop_app_length.
Qed.

Lemma pem_blocks_text bodies : forall fuel,
  (length bodies < fuel)%nat -> Forall (fun b => 45 ∉ b) bodies ->
  pem_blocks fuel (pem_text bodies) = pem_block <$> bodies.
Proof.
  induction bodies as [|b bodies IH]; intros [|fuel] Hf Hb; cbn [length] in *; try lia.
  - done.
  - apply Forall_cons in Hb as [Hb Hbs]. unfold pem_text. rewrite fmap_cons. cbn [concat].
    rewrite <- app_assoc, pem_blocks_block, pem_blocks_skip by (done || set_solver).
    rewrite fmap_cons. f_equal. apply IH; [lia|done].
Qed.

Lemma pem_text_length bodies : (length bodies <= length (pem_text bodies))%nat.
Proof.
  induction bodies as [|b bodies IH]; [done|]. unfold pem_text in *. rewrite fmap_cons. cbn [concat].
  rewrite !length_app. cbn [length] in *. lia.
Qed.

Lemma find_fits s p i : find s p = Some i -> (i + length p <= length s)%nat.
Proof.
  revert i. induction s as [|x s IH]; intros i Hf; cbn [find] in Hf; destruct (starts_with _ p) eqn:E.
  1,3: injection Hf as <-; apply starts_with_true in E as [r ->]; rewrite length_app; lia.
  - done.
  - destruct (find s p) as [k|]; [|done]. injection Hf as <-. specialize (IH k eq_refl). cbn [length]. lia.
Qed.

(** The loop ends: fuel beyond the length of the text makes no difference. *)
Lemma pem_blocks_fuel n : forall m rest,
  (length rest < n)%nat -> (length rest < m)%nat -> pem_blocks n rest = pem_blocks m rest.
Proof.
  induction n as [|n IH]; intros [|m] rest Hn Hm; try lia. cbn [pem_blocks].
  destruct (find rest PEM_BEGIN) as [i|] eqn:E; [|done]. destruct (find (drop i rest) PEM_END) as [j|]; [|done].
  apply find_fits in E. change (length PEM_BEGIN) with 27%nat in E. f_equal. apply IH; rewrite !length_drop; change (length PEM_END) with 25%nat; lia.
Qed.

Lemma filter_map_mapM {A B} (f : A -> option B) l l' : mapM f l = Some l' -> filter_map f l = l'.
Proof.
  revert l'. induction l as [|x l IH]; intros l' Hm; cbn in Hm; [by injection Hm as <-|].
  cbn. destruct (f x) as [y|]; [|done]. cbn in Hm. destruct (mapM f l) as [l2|]; [|done].
  injection Hm as <-. by rewrite (IH l2).
Qed.

(** *** Upload and view *)

Section Upload.
Context `{UnicodeClasses}.

Lemma path_join_length dir name name' :
  (length name < length name')%nat -> path_join dir name <> path_join dir name'.
Proof.
  intros Hl E. apply (f_equal length) in E. unfold path_join in E. destruct (_ || _); rewrite !length_app in E; lia.
Qed.

Lemma cert_key_differ dir n : cert_file_of dir (sanitize_cert_name n) <> key_file_of dir (sanitize_cert_name n).
Proof.
  unfold cert_file_of, key_file_of. rewrite !pushed_name by auto. apply path_join_length. rewrite !length_app.
  change (length (bs ".pem")) with 4%nat. change (length (bs "-key.pem")) with 8%nat. lia.
Qed.

(** The form of an upload. *)
Definition import_fields (n cert key : bytes) (chain : bytes) : list FormField :=
  [mkField (Some (bs "name")) (Some n); mkField (Some (bs "cert")) (Some cert);
   mkField (Some (bs "key")) (Some key); mkField (Some (bs "chain")) (Some chain)].

Lemma import_form n cert key chain :
  utf8_valid n = true -> chain <> [] ->
  read_form (import_fields n cert key chain) = mkForm (Some n) (Some cert) (Some key) (Some chain).
Proof.
  intros Hn Hc. unfold read_form, import_fields, read_field. cbn -[bs utf8_valid]. rewrite Hn. by destruct chain.
Qed.

(** On a spool that does not fail both files are written. *)
Lemma import_calm config n cert key chain d :
  calm d -> utf8_valid n = true -> n <> [] -> cert <> [] -> key <> [] -> chain <> [] ->
  let dir := gc_cert_dir (cfg_global config) in
  exists d', certs_import config (import_fields n cert key chain) d =
    ((CREATED, JObject [(bs "imported", JBool true); (bs "cert", JString (cert_file_of dir (sanitize_cert_name n)));
                        (bs "key", JString (key_file_of dir (sanitize_cert_name n)))]), d') /\ calm d' /\
    files d' = <[key_file_of dir (sanitize_cert_name n) := key]>
                 (<[cert_file_of dir (sanitize_cert_name n) := full_cert cert (Some chain)]> (files d)).
Proof.
  intros Hc Hu Hn Hce Hk Hch dir. unfold certs_import. rewrite import_form by done.
  cbn [im_name im_cert im_key im_chain]. unfold non_empty. cbn [mbind option_bind].
  destruct n as [|x n]; [done|]. destruct cert as [|y cert]; [done|]. destruct key as [|z key]; [done|].
  cbn [is_nil]. rewrite fs_write_calm by done. rewrite fs_write_calm by done. cbn [files].
  eexists. unfold fs_set_permissions, next_fault. cbn [script files]. rewrite lookup_insert_eq. done.
Qed.
End Upload.

(** *** The list *)

Definition entry_le (a b : CertEntry) : Prop := bytes_le (ce_name a) (ce_name b) = true.

Lemma insert_entry_perm e l : insert_entry e l ≡ₚ e :: l.
Proof. induction l as [|y l IH]; [done|]. cbn. case_match; [done|]. rewrite IH. apply Permutation_swap. Qed.

Lemma sort_entries_perm l : sort_entries l ≡ₚ l.
Proof. induction l as [|e l IH]; [done|]. cbn. by rewrite insert_entry_perm, IH. Qed.

Lemma insert_entry_sorted e l : StronglySorted entry_le l -> StronglySorted entry_le (insert_entry e l).
Proof.
  induction 1 as [|y l Hl IH Hy]; cbn; [repeat constructor|]. destruct (bytes_le _ _) eqn:E.
  - constructor; [by constructor|]. constructor; [done|]. eapply Forall_impl; [exact Hy|].
    intros z Hz. by eapply bytes_le_trans.
  - constructor; [done|]. rewrite insert_entry_perm. constructor; [|done].
    unfold entry_le. destruct (bytes_le_total (ce_name e) (ce_name y)); congruence.
Qed.

Lemma sort_entries_sorted l : StronglySorted entry_le (sort_entries l).
Proof. induction l as [|e l IH]; [constructor|]. by apply insert_entry_sorted. Qed.

Section Listing.
Context `{X509Lib}.

(** The entry of a file, on a directory that can be read. *)
Definition entry_of (config : ServerWallConfig) (d : disk) (fname : bytes) : option CertEntry :=
  name ← listed_name fname;
  let cert_dir := gc_cert_dir (cfg_global config) in
  Some (mkCertEntry name fname (name ++ bs "-key.pem")
          (bool_decide (is_Some (files d !! path_push cert_dir (name ++ bs "-key.pem"))))
          (pem ← files d !! path_join cert_dir fname; cert ← x509_from_pem pem; Some (format_asn1_time (not_after cert)))
          (cert_uses config fname)).

Lemma cert_entries_calm config d names :
  calm d -> cert_entries config names d = (Ok (filter_map (entry_of config d) names), d).
Proof.
  intros Hc. induction names as [|fname names IH]; [done|]. cbn [cert_entries filter_map]. unfold entry_of at 1.
  destruct (listed_name fname) as [name|]; [|exact IH]. cbn [mbind option_bind].
  unfold parse_cert_expiry, io_bind, fs_read, next_fault. rewrite Hc.
  assert (Hd : mkDisk (files d) [] = d) by (destruct d as [f sc]; unfold calm in Hc; cbn in *; by subst).
  destruct (files d !! path_join _ fname) as [pem|] eqn:Ep; rewrite Hd; cbn -[bs path_push]; rewrite IH;
    by destruct (files d !! path_push _ _).
Qed.

(** A file name and its name part. *)
Lemma listed_name_Some fname name : listed_name fname = Some name -> fname = name ++ bs ".pem".
Proof.
  unfold listed_name. destruct (_ || _); [done|]. unfold strip_suffix.
  destruct (strip_prefix _ _) as [r|] eqn:E; [|done]. intros [= <-]. apply strip_prefix_Some in E.
  rewrite <- (rev_involutive fname), E, rev_app_distr. done.
Qed.
End Listing.

(** The page of a certificate whose files are there. *)
Lemma certs_get_shows `{UnicodeClasses} `{X509Lib} config n pem certs d :
  let dir := gc_cert_dir (cfg_global config) in
  calm d -> sanitize_cert_name n <> [] -> files d !! cert_file_of dir (sanitize_cert_name n) = Some pem ->
  is_Some (files d !! key_file_of dir (sanitize_cert_name n)) -> read_pem_chain pem = certs -> certs <> [] ->
  exists detail, certs_get config n d = ((OK, detail), d) /\
    body_get "chain" detail = Some (JArray (imap chain_entry certs)) /\ body_get "key_exists" detail = Some (JBool true).
Proof.
  intros dir Hc Hs Hcert Hkey Hread Hne. unfold certs_get. fold dir.
  rewrite (bool_decide_true (is_Some (files d !! _))) by (rewrite Hcert; by eexists).
  destruct (sanitize_cert_name n) as [|x sn]; [done|]. cbn [is_nil]. unfold parse_cert_details.
  rewrite (fs_read_calm _ _ _ Hc Hcert), Hread. destruct certs as [|c certs]; [done|].
  eexists. split; [reflexivity|]. split; [reflexivity|].
  change (Some (JBool (bool_decide (is_Some (files d !! key_file_of dir (x :: sn))))) = Some (JBool true)).
  by rewrite bool_decide_true.
Qed.

(** ** Properties *)


(** Certificates for the examples: the text itself. *)
Definition example_x509 : X509Lib := {|
  X509 := bytes; x509_from_pem := Some; not_before := id; not_after := id; subject_cn := Some; issuer_cn := Some;
  subject_name_hash := fun _ => 0; issuer_name_hash := fun _ => 0; serial_number := Some; to_der := Some; sha1 := Some;
  sha256 := Some; subject_alt_names := fun _ => None; parse_datetime := fun _ _ => None; show_datetime := fun _ => [] |}.


(** The list of certificates: it has the certificate files of the directory, once each and sorted by
    name, and a certificate is shown as used exactly when its deletion is refused. *)
Theorem listed_uses_block_deletion `{X509Lib} kill config d :
  calm d ->
  exists l, certs_listed config d = (Ok l, d) /\ StronglySorted entry_le l /\
    l ≡ₚ filter_map (entry_of config d) (dir_names (gc_cert_dir (cfg_global config)) (files d)) /\
    forall e, e ∈ l ->
      (ce_in_use_by e <> [] <-> (certs_delete kill config (ce_name e) d).1.1 = BAD_REQUEST).
Proof.
  intros Hc. unfold certs_listed, fs_read_dir, next_fault, io_bind. rewrite Hc.
  assert (mkDisk (files d) [] = d) as -> by (destruct d as [f sc]; unfold calm in Hc; cbn in *; by subst).
  rewrite cert_entries_calm by done. eexists. split; [done|]. split; [apply sort_entries_sorted|].
  split; [apply sort_entries_perm|]. intros e. rewrite sort_entries_perm, elem_of_filter_map.
  intros (fname & _ & He). unfold entry_of in He. destruct (listed_name fname) as [name|] eqn:En; [|done].
  injection He as <-. apply listed_name_Some in En as ->. cbn [ce_name ce_in_use_by]. unfold cert_uses, certs_delete.
  destruct (fr_name <$> _) as [|x l] eqn:Eu; cbn [is_nil negb app]; [|done].
  destruct (names_file _ _); [done|]. split; [done|].
  destruct (fs_exists _ d) as [[[]|] d1]; [|done..].
  destruct (fs_remove_file _ d1) as [r1 d2]. destruct (fs_remove_file _ d2) as [r2 d3].
  by destruct (send_reload_signal _ _ d3).
Qed.

(** An upload under the name of another certificate with [-key] after it replaces the private key of
    that certificate by the uploaded certificate, and the list does not show it. *)
Theorem upload_replaces_key `{UnicodeClasses} config n site cert key chain d :
  calm d -> utf8_valid n = true -> n <> [] -> cert <> [] -> key <> [] -> chain <> [] ->
  sanitize_cert_name n = site ++ bs "-key" ->
  exists answer d',
    certs_import config (import_fields n cert key chain) d = ((CREATED, answer), d') /\
    files d' !! key_file_of (gc_cert_dir (cfg_global config)) site = Some (full_cert cert (Some chain)) /\
    listed_name (site ++ bs "-key.pem") = None.
Proof.
  intros Hc Hu Hn Hce Hk Hch Hs. destruct (import_calm config n cert key chain d Hc Hu Hn Hce Hk Hch) as (d' & He & _ & Hf).
  eexists _, d'. split; [exact He|]. split.
  - assert (key_file_of (gc_cert_dir (cfg_global config)) site =
            cert_file_of (gc_cert_dir (cfg_global config)) (sanitize_cert_name n)) as ->
      by (rewrite Hs; unfold key_file_of, cert_file_of; by rewrite <- app_assoc).
    rewrite Hf, lookup_insert_ne by (apply not_eq_sym, cert_key_differ). apply lookup_insert_eq.
  - unfold listed_name. assert (ends_with (site ++ bs "-key.pem") (bs "-key.pem") = true) as ->; [|by rewrite orb_true_r].
    unfold ends_with. rewrite rev_app_distr. apply starts_with_app.
Qed.

Lemma upload_replaces_key_witness :
  exists answer d',
    @certs_import ascii_classes certs_config (import_fields (bs "site-key") (bs "cert") (bs "key") (bs "chain"))
      (mkDisk {[ key_file_of (bs "/certs") (bs "site") := bs "secret" ]} []) = ((CREATED, answer), d') /\
    files d' !! key_file_of (gc_cert_dir (cfg_global certs_config)) (bs "site") = Some (full_cert (bs "cert") (Some (bs "chain"))) /\
    listed_name (bs "site" ++ bs "-key.pem") = None.
Proof.
  apply (@upload_replaces_key ascii_classes certs_config (bs "site-key") (bs "site") (bs "cert") (bs "key") (bs "chain")).
  - reflexivity.
  - reflexivity.
  - discriminate.
  - discriminate.
  - discriminate.
  - discriminate.
  - vm_compute. reflexivity.
Defined.
