(* ===== verification/WebPages.v ===== *)
(** * The pages of the web interface, its listener and the probe of a pool

    [static_files.rs] and [templates.rs] (what is served for a path), [create_listener] of
    [webui/src/main.rs] (a socket passed by the service manager, or a new one) and
    [probe_health] of [routes/backends.rs].  The templates and the embedded files are parameters. *)

From S2P Require Import Prelude RustStr Float64 Net External Toml Schema Fs Config Balancer Acl WafRules WafBuiltin WafMatcher WafEngine RateLimit Proto HttpProxy Admin Cli WebApi WebAuth AcceptLoops.
Open Scope Z_scope.

(** ** Pages *)

(** [Template::render] of the template of a file, and [WebUiAssets::get]. *)
Class EmbeddedFiles := { render : bytes -> option bytes; embedded : bytes -> option bytes }.

Definition page_names : list bytes :=
  [bs "login.html"; bs "index.html"; bs "frontends.html"; bs "frontends-edit.html"; bs "backends.html";
   bs "backends-edit.html"; bs "certificates.html"; bs "certificates-view.html"; bs "certificates-import.html";
   bs "certificates-generate.html"; bs "certificates-acme.html"; bs "waf.html"; bs "security.html";
   bs "security-profiles.html"; bs "acl.html"; bs "log-profiles.html"; bs "relay.html"; bs "dkim.html"; bs "dmarc.html";
   bs "spf.html"; bs "global-settings.html"; bs "acme-settings.html"; bs "webui-settings.html"; bs "logs.html";
   bs "queue.html"; bs "antispam.html"].

Inductive PageAnswer :=
| ServedFile (status : Z) (content_type : bytes) (body : bytes)
| SeeOther (location : bytes).

Definition TEXT_HTML : bytes := bs "text/html; charset=utf-8".
Definition not_found_page : PageAnswer := ServedFile NOT_FOUND TEXT_HTML (bs "Not found").

Definition mime_of (path : bytes) : bytes :=
  if ends_with path (bs ".css") then bs "text/css"
  else if ends_with path (bs ".js") then bs "application/javascript"
  else if ends_with path (bs ".json") then bs "application/json"
  else if ends_with path (bs ".png") then bs "image/png"
  else if ends_with path (bs ".svg") then bs "image/svg+xml"
  else bs "application/octet-stream".

Section Pages.
Context `{EmbeddedFiles}.

Definition render_page (path : bytes) : option bytes := if bool_decide (path ∈ page_names) then render path else None.

Definition serve_embedded_file (path : bytes) : PageAnswer :=
  if ends_with path (bs ".html") then
    match render_page path with
    | Some html => ServedFile OK TEXT_HTML html
    | None => not_found_page
    end
  else match embedded path with
       | Some data => ServedFile OK (mime_of path) data
       | None => not_found_page
       end.

Definition serve_login : PageAnswer := serve_embedded_file (bs "login.html").

(** The whole answer of [WebAuth.serve_asset]. *)
Definition serve_ui `{Unicode} `{HttpLib} `{RegexSetLib} `{IpNetworkLib} `{JwtLib} (now : Z) (st : AppState) (req : Request) (path : bytes) : PageAnswer :=
  if ends_with path (bs ".html") && negb (bool_decide (path = bs "login.html")) && negb (has_valid_session now st req)
  then SeeOther (bs "/ui/login.html")
  else serve_embedded_file path.

Definition answer_of (s : PageAnswer) : Answer :=
  match s with ServedFile status _ _ => Status status | SeeOther location => Redirect location end.
End Pages.

(** ** The listener *)

(** The environment and the calls on the descriptor the service manager passes. *)
Record Activation := mkActivation {
  env_listen_pid : option bytes; env_listen_fds : option bytes; own_pid : Z;
  fd_set_nonblocking : result unit bytes; fd_from_std : result unit bytes }.

Inductive WebListener := InheritedSocket | BoundSocket (addr : SocketAddr).

(** [None] is the end of the program with an error. *)
Definition create_listener (act : Activation) (os : SocketCall -> result unit bytes) (addr : bytes) : option WebListener :=
  let listen_pid := env_listen_pid act ≫= parse_uint 32 10 in
  let listen_fds := default 0 (env_listen_fds act ≫= parse_int 32) in
  let bound := match bind_reuseport os addr with Ok a => Some (BoundSocket a) | Err _ => None end in
  if (1 <=? listen_fds) && bool_decide (listen_pid = Some (own_pid act)) then
    match fd_set_nonblocking act, fd_from_std act with
    | Ok _, Ok _ => Some InheritedSocket
    | _, _ => bound
    end
  else bound.

(** ** The probe *)

(** [serde_json::Map::insert]. *)
Definition insert_member (m : list (bytes * json)) (name : bytes) (v : json) : list (bytes * json) :=
  if existsb (fun e => bool_decide (e.1 = name)) m
  then (fun e => if bool_decide (e.1 = name) then (name, v) else e) <$> m
  else m ++ [(name, v)].

(** [connect]: the milliseconds a connection within three seconds took. *)
Definition probe_health (connect : bytes -> option Z) (pool_name : bytes) : prog response :=
  CachedConfig (fun c =>
    match List.find (fun p => bool_decide (pc_name p = pool_name)) (cfg_backend_pool c) with
    | None => Ret (NOT_FOUND, error_json (bs "pool not found"))
    | Some pool =>
        let results := fold_left (fun m b =>
          let latency := connect (bc_address b) in
          insert_member m (bc_name b)
            (JObject [(bs "reachable", JBool (is_some latency)); (bs "latency_ms", joptnum latency);
                      (bs "enabled", JBool (bc_enabled b))])) (pc_backend pool) [] in
        Ret (OK, JObject [(bs "pool", JString pool_name); (bs "backends", JObject results)])
    end).

(** ** Properties *)

(** The pages: whoever is served the text of a page other than the login page has a valid session; the
    status is that of [serve_asset]. *)
Theorem pages_need_session `{EmbeddedFiles} `{Unicode} `{HttpLib} `{RegexSetLib} `{IpNetworkLib} `{JwtLib} now st req path :
  answer_of (serve_ui now st req path) =
    serve_asset (fun p => is_some (if ends_with p (bs ".html") then render_page p else embedded p)) now st req path /\
  forall ct html, serve_ui now st req path = ServedFile OK ct html -> path ∈ page_names -> path <> bs "login.html" ->
    has_valid_session now st req = true /\ render path = Some html.
Proof.
  split.
  - unfold serve_ui, serve_asset. destruct (_ && _); [done|]. unfold serve_embedded_file.
    destruct (ends_with path (bs ".html")); [by destruct (render_page path)|by destruct (embedded path)].
  - intros ct html Hs Hp Hl. assert (ends_with path (bs ".html") = true) as He.
    { assert (forallb (fun p => ends_with p (bs ".html")) page_names = true) as Hall by (vm_compute; reflexivity).
      rewrite forallb_forall in Hall. by apply Hall, list_elem_of_In. }
    unfold serve_ui in Hs. rewrite He, bool_decide_false in Hs by done. cbn [andb negb] in Hs.
    destruct (has_valid_session now st req); [|done]. split; [done|]. cbn [negb] in Hs.
    unfold serve_embedded_file, render_page in Hs. rewrite He, bool_decide_true in Hs by done.
    destruct (render path); [|done]. by injection Hs as _ ->.
Qed.

(** The listener: without the two variables of the service manager naming this process the
    configured address is bound, and nothing else is. *)
Theorem listener_bound act os addr l :
  create_listener act os addr = Some l ->
  l = InheritedSocket \/ exists a, parse_socket_addr addr = Some a /\ l = BoundSocket a /\ os (BindTo a) = Ok tt.
Proof.
  assert (Hb : forall a, bind_reuseport os addr = Ok a -> parse_socket_addr addr = Some a /\ os (BindTo a) = Ok tt).
  { intros a. unfold bind_reuseport. destruct (parse_socket_addr addr) as [s|]; [|done]. cbn [make_calls].
    do 7 (match goal with |- context [os ?c] => destruct (os c) as [[]|] eqn:?; [|done] end). by intros [= <-]. }
  unfold create_listener. destruct (bind_reuseport os addr) as [a|e] eqn:Eb; repeat case_match; intros [= <-]; eauto;
    right; exists a; by destruct (Hb a eq_refl).
Qed.
