(* ===== verification/Setup.v ===== *)
(** * The first run: [serverwall --init] ([serverwall-proxy/src/main.rs])

    The directories, the certificate of the web interface, the default configuration, the
    account of the administrator with a random password, and the empty list of API tokens.
    Random UUIDs and the password hash are parameters. *)

From S2P Require Import Prelude RustStr Float64 Net External Toml Schema Fields Fs Config CertStore AntispamPost Balancer Acl WafRules WafMatcher WafEngine RateLimit Proto HttpProxy WebAuth Admin Cli CliSecurity WebCerts WebServe.
Open Scope Z_scope.

(** [argon2]: a hash with a fresh salt. *)
Class PasswordHasher := { hash_password : bytes -> result bytes bytes }.

(** [generate_random_password]: the [i]-th character is picked by a byte of the [i]-th UUID. *)
Definition password_chars : bytes := bs "abcdefghijklmnopqrstuvwxyzABCDEFGHIJKLMNOPQRSTUVWXYZ0123456789".

Definition password_char (uuids : nat -> list Z) (i : nat) : Z :=
  let b := nth (i mod 16) (uuids i) 0 in
  nth (Z.to_nat (b mod Z.of_nat (length password_chars))) password_chars 0.

Definition generate_random_password (uuids : nat -> list Z) (len : nat) : bytes := password_char uuids <$> seq 0 len.

(** [collect_local_ips]. *)
Definition ip_is_loopback (ip : IpAddr) : bool := match ip with V4 a => v4_is_loopback a | V6 a => v6_is_loopback a end.
Definition collect_local_ips (interfaces : result (list IpAddr) unit) : list IpAddr :=
  List.filter (fun ip => negb (ip_is_loopback ip)) (match interfaces with Ok l => l | Err _ => [] end).

(** ** The files *)

Definition base_dir : bytes := bs "/opt/serverwall".
Definition init_dirs : list bytes :=
  bs "/opt/serverwall/etc" :: ((fun d => base_dir ++ bs "/" ++ d) <$>
    [bs "etc/certs"; bs "etc/acme"; bs "etc/dkim"; bs "run"; bs "var/spool"; bs "var/log"; bs "var/lib"]).

Definition webui_cert : bytes := bs "/opt/serverwall/etc/certs/webui.pem".
Definition webui_key : bytes := bs "/opt/serverwall/etc/certs/webui-key.pem".
Definition init_config : bytes := bs "/opt/serverwall/etc/serverwall.toml".
Definition users_path : bytes := bs "/opt/serverwall/etc/web-users.toml".
Definition tokens_path : bytes := bs "/opt/serverwall/etc/api-tokens.toml".

Definition users_head : bytes :=
  bs "# ServerWall Web Users" ++ [LF] ++ bs "# Passwords are hashed with argon2id." ++ [LF] ++
  bs "# Use `serverwall --init` to regenerate." ++ [LF; LF] ++ bs "[[user]]" ++ [LF] ++
  bs "username = " ++ [34] ++ bs "admin" ++ [34; LF] ++ bs "password_hash = " ++ [34].
Definition users_content (password_hash : bytes) : bytes := users_head ++ password_hash ++ [34; LF].

Definition tokens_content : bytes :=
  bs "# ServerWall API Tokens" ++ [LF] ++ bs "# Each token is hashed with argon2id." ++ [LF] ++ bs "#" ++ [LF] ++
  bs "# [[token]]" ++ [LF] ++ bs "# name = " ++ [34] ++ bs "my-integration" ++ [34; LF] ++
  bs "# hash = " ++ [34] ++ bs "$argon2id$..." ++ [34; LF].

(** ** The box on the screen *)

Definition rule : bytes := bs "+" ++ repeat 45 62 ++ bs "+".
(** [{:^62}] puts the odd space on the right. *)
Definition centred (s : bytes) : bytes :=
  let free := (62 - length (chars s))%nat in
  bs "|" ++ repeat 32 (free / 2)%nat ++ s ++ repeat 32 (free - free / 2)%nat ++ bs "|".
Definition boxed (s : bytes) : bytes := bs "| " ++ pad_right s 60 ++ bs " |".

Definition credentials_box (admin_password hostname : bytes) : list bytes :=
  [[]; rule; centred []; centred (bs "ServerWall Initial Setup Complete"); centred []; rule; centred [];
   boxed (bs "Web UI Credentials:"); centred []; boxed (bs "  Username: admin");
   boxed (bs "  Password: " ++ admin_password); centred [];
   boxed (bs "Web UI:   https://" ++ hostname ++ bs ":8443 (self-signed TLS)");
   boxed (bs "Config:   " ++ init_config); boxed (bs "Users:    " ++ users_path); boxed (bs "Tokens:   " ++ tokens_path);
   centred []; boxed (bs "Save this password now. It cannot be recovered."); centred []; rule].

Section Init.
Context `{Unicode} `{TomlLib} `{IpNetworkLib} `{SelfSignedLib} `{PasswordHasher}.
Context (pause : gmap bytes bytes -> gmap bytes bytes) (pid : Z) (uuids : nat -> list Z)
  (interfaces : result (list IpAddr) unit).

Fixpoint create_dirs (dirs : list bytes) : io unit :=
  match dirs with
  | [] => io_ret tt
  | dir :: dirs =>
      let! _ := describe (bs "failed to create directory " ++ dir ++ bs ": ") syscall in create_dirs dirs
  end.

(** A computation that cannot fail. *)
Definition sure {A} (f : disk -> A * disk) : io A := fun d => let (x, d) := f d in (Ok x, d).

Definition init_cert (hostname : bytes) : io (list bytes) :=
  let! have_cert := sure (path_exists webui_cert) in
  let! have_key := (if have_cert then sure (path_exists webui_key) else io_ret false) in
  if have_cert && have_key then io_ret [bs "Exists:  " ++ webui_cert ++ bs " (not overwritten)"]
  else
    let! _ := generate_self_signed_cert webui_cert webui_key hostname (collect_local_ips interfaces) in
    io_ret [bs "Created: " ++ webui_cert ++ bs " (self-signed TLS cert)"; bs "Created: " ++ webui_key].

Definition init_configuration : io (list bytes) :=
  let! have := sure (path_exists init_config) in
  if have then io_ret [bs "Exists:  " ++ init_config ++ bs " (not overwritten)"]
  else let! _ := fs_write init_config generate_default_config in io_ret [bs "Created: " ++ init_config].

(** What is printed, or the error. *)
Definition run_init : io (list bytes) :=
  let! _ := create_dirs init_dirs in
  let! hostname := sure get_hostname in
  let! cert_lines := init_cert hostname in
  let! config_lines := init_configuration in
  let! _ := sure (edit pause pid init_config (add_waf_ruleset default_ruleset)) in
  let admin_password := generate_random_password uuids 32 in
  let! password_hash := io_of (map_err (fun e => bs "failed to hash password: " ++ e) (hash_password admin_password)) in
  let! _ := fs_write users_path (users_content password_hash) in
  let! _ := fs_write tokens_path tokens_content in
  io_ret (cert_lines ++ config_lines ++ [bs "Created: " ++ users_path; bs "Created: " ++ tokens_path] ++
          credentials_box admin_password hostname).
End Init.

(** ** The account *)

(** Documented behaviour: a password verifies against its hash; a basic string of TOML is the
    text between the quotes, which a hash does not contain, and comments are no entries. *)
Class AccountSpec `{AuthLib} `{PasswordHasher} := {
  hash_verifies p h : hash_password p = Ok h -> hash_parses h = true /\ verify_password p h = true;
  users_parsed p h : hash_password p = Ok h -> toml_users (users_content h) = Some [(bs "admin", h)];
  no_token_parsed hs : toml_tokens tokens_content = Some hs -> hs = [];
}.

(** The layout of a random UUID (version 4): sixteen bytes, the version in the seventh and the
    variant in the ninth. *)
Definition is_v4 (u : list Z) : Prop :=
  length u = 16%nat /\ Forall (fun b => 0 <= b < 256) u /\ nth 6 u 0 / 16 = 4 /\ nth 8 u 0 / 64 = 2.

Definition is_ascii_alphanumeric (b : Z) : bool :=
  ((48 <=? b) && (b <=? 57)) || ((65 <=? b) && (b <=? 90)) || ((97 <=? b) && (b <=? 122)).

Lemma password_char_in (uuids : nat -> list Z) i : password_char uuids i ∈ password_chars.
Proof.
  unfold password_char. apply list_elem_of_In, nth_In. rewrite <- (Nat2Z.id (length password_chars)) at 2.
  apply Z2Nat.inj_lt; [apply Z.mod_pos_bound|lia|apply Z.mod_pos_bound]; vm_compute; done.
Qed.

(** The characters picked by the version byte are among 16 letters, [c] to [r]. *)
Lemma password_version_char (uuids : nat -> list Z) i :
  (i mod 16 = 6)%nat -> is_v4 (uuids i) -> 99 <= password_char uuids i <= 114.
Proof.
  intros Hi (_ & _ & Hv & _). unfold password_char. rewrite Hi. set (b := nth 6 (uuids i) 0) in *.
  assert (64 <= b < 80) by (pose proof (Z.div_mod b 16); pose proof (Z.mod_pos_bound b 16); lia). change (Z.of_nat (length password_chars)) with 62.
  replace (b mod 62) with (b - 62) by (apply (Zmod_unique b 62 1); lia).
  assert (Hb : b ∈ seqZ 64 16) by (apply elem_of_seqZ; lia). clearbody b. clear Hv H. revert b Hb.
  apply Forall_forall. vm_compute seqZ. repeat constructor; vm_compute; congruence.
Qed.

Lemma password_alphanumeric c : c ∈ password_chars -> is_ascii_alphanumeric c = true.
Proof.
  intros Hc%list_elem_of_In. revert c Hc. apply forallb_forall. vm_compute. reflexivity.
Qed.

(** What a successful run leaves on the disk and prints. *)
Lemma run_init_Ok `{Unicode} `{TomlLib} `{IpNetworkLib} `{SelfSignedLib} `{PasswordHasher} pause pid uuids interfaces
    (d d' : disk) lines :
  run_init pause pid uuids interfaces d = (Ok lines, d') ->
  exists hash hostname before, hash_password (generate_random_password uuids 32) = Ok hash /\
    files d' !! users_path = Some (users_content hash) /\ files d' !! tokens_path = Some tokens_content /\
    lines = before ++ credentials_box (generate_random_password uuids 32) hostname.
Proof.
  unfold run_init, io_bind, sure, io_of. destruct (create_dirs _ d) as [[[]|?] d1]; [|done].
  destruct (get_hostname d1) as [hostname d2]. destruct (init_cert _ _ d2) as [[l1|?] d3]; [|done].
  destruct (init_configuration d3) as [[l2|?] d4]; [|done]. destruct (edit _ _ _ _ d4) as [? d5].
  destruct (hash_password _) as [hash|] eqn:Eh; [|done]. cbn [map_err].
  destruct (fs_write users_path _ d5) as [[[]|?] d6] eqn:E1; [|done]. apply fs_write_files in E1.
  destruct (fs_write tokens_path _ d6) as [[[]|?] d7] eqn:E2; [|done]. apply fs_write_files in E2.
  intros [= <- <-]. exists hash, hostname, (l1 ++ l2 ++ [bs "Created: " ++ users_path; bs "Created: " ++ tokens_path]).
  rewrite E2, E1. split; [done|]. split; [|split].
  - by rewrite lookup_insert_ne, lookup_insert_eq by (vm_compute; congruence).
  - by rewrite lookup_insert_eq.
  - by rewrite <- !app_assoc.
Qed.

(** ** Properties *)

(** C38: a first run that succeeds leaves an administrator who can log in: the password printed
    has 32 letters and digits and is the one the web interface accepts for [admin], and no API
    token is accepted.  Two of its characters are not random over the alphabet: the
    seventh and the twenty-third are picked by the version byte of a UUID and are one of the
    sixteen letters [c] to [r]. *)
Theorem init_creates_administrator `{Unicode} `{HttpLib} `{RegexSetLib} `{IpNetworkLib} `{TomlLib} `{SelfSignedLib}
    `{AccountSpec} pause pid (uuids : nat -> list Z) interfaces (d d' : disk) (lines : list bytes) (st : AppState) :
  (forall i, is_v4 (uuids i)) ->
  run_init pause pid uuids interfaces d = (Ok lines, d') ->
  web_users_file (as_config st) = default_web_users_file -> tokens_file (as_config st) = default_tokens_file ->
  (forall p, as_files st p = files d' !! p) ->
  let password := generate_random_password uuids 32 in
  length password = 32%nat /\ forallb is_ascii_alphanumeric password = true /\
  boxed (bs "  Password: " ++ password) ∈ lines /\
  verify_web_user (bs "admin") password st = Some true /\
  (forall token, validate_api_token token st = false) /\
  (forall i, i = 6%nat \/ i = 22%nat -> 99 <= nth i password 0 <= 114).
Proof.
  intros Hu Hrun Hw Ht Hf password.
  destruct (run_init_Ok _ _ _ _ _ _ _ Hrun) as (hash & hostname & before & Hh & Hus & Hto & ->). fold password in Hh.
  split_and!.
  - unfold password, generate_random_password. by rewrite length_fmap, length_seq.
  - apply forallb_forall. intros c Hc%list_elem_of_In. unfold password, generate_random_password in Hc.
    apply list_elem_of_fmap in Hc as (i & -> & _). apply password_alphanumeric, password_char_in.
  - apply elem_of_app. right. unfold credentials_box. set_solver.
  - clearbody password. unfold verify_web_user. rewrite Hw, Hf. change default_web_users_file with users_path. rewrite Hus. cbn [mbind option_bind].
    rewrite (users_parsed _ _ Hh). cbn -[bs]. rewrite bool_decide_eq_true_2 by done.
    by destruct (hash_verifies _ _ Hh) as [-> ->].
  - intros token. unfold validate_api_token. rewrite Ht, Hf. change default_tokens_file with tokens_path. rewrite Hto.
    destruct (toml_tokens tokens_content) as [hs|] eqn:E; [|done]. by rewrite (no_token_parsed hs E).
  - intros i Hi. unfold password, generate_random_password.
    rewrite (nth_indep _ 0 (password_char uuids 0)) by (rewrite length_fmap, length_seq; lia).
    rewrite (map_nth (password_char uuids)), seq_nth by lia. apply password_version_char; [|apply Hu].
    by destruct Hi as [->| ->].
Qed.

(** ** Witness *)

(** A hash that shows the password, and a reader of exactly the files written here. *)
Definition plain_accounts : AuthLib := {|
  hash_parses h := starts_with h (bs "$");
  verify_password p h := bool_decide (h = bs "$" ++ p);
  sha256_hex s := s;
  toml_users c := r ← strip_prefix c users_head; Some [(bs "admin", take (length r - 2) r)];
  toml_tokens c := if bool_decide (c = tokens_content) then Some [] else None;
|}.
Definition plain_hasher : PasswordHasher := {| hash_password p := Ok (bs "$" ++ p) |}.
#[local] Existing Instance plain_accounts | 10.
#[local] Existing Instance plain_hasher | 10.

#[local] Instance plain_accounts_spec : AccountSpec.
Proof.
  split; cbn -[bs].
  - intros p h [= <-]. split; [done|]. by apply bool_decide_eq_true.
  - intros p h _. unfold users_content. rewrite strip_prefix_app. cbn [mbind option_bind].
    by rewrite length_app, Nat.add_sub, take_app_length.
  - intros hs. case_bool_decide; congruence.
Qed.

Definition some_uuid (i : nat) : list Z := [7; 200; 31; 9; 140; 66; 77; 18; 190; 5; 61; 250; 33; 99; 128; 0].
Definition init_state (d : disk) : AppState :=
  mkAppState WebuiConfig_default [] (example_engine Blocking) (mkIpMatcher []) (fun p => files d !! p).

Lemma example_init :
  match run_init id 7 some_uuid (Ok []) (mkDisk {[ init_config := [] ]} []) with (Ok _, _) => true | _ => false end = true.
Proof. vm_compute. reflexivity. Qed.

Lemma init_creates_administrator_witness :
  exists lines d', run_init id 7 some_uuid (Ok []) (mkDisk {[ init_config := [] ]} []) = (Ok lines, d') /\
    length (generate_random_password some_uuid 32) = 32%nat /\
    forallb is_ascii_alphanumeric (generate_random_password some_uuid 32) = true /\
    boxed (bs "  Password: " ++ generate_random_password some_uuid 32) ∈ lines /\
    verify_web_user (bs "admin") (generate_random_password some_uuid 32) (init_state d') = Some true /\
    (forall token, validate_api_token token (init_state d') = false) /\
    (forall i, i = 6%nat \/ i = 22%nat -> 99 <= nth i (generate_random_password some_uuid 32) 0 <= 114).
Proof.
  pose proof example_init as He. destruct (run_init _ _ _ _ _) as [[lines|] d'] eqn:E; [|done].
  exists lines, d'. split; [done|].
  apply (init_creates_administrator id 7 some_uuid (Ok []) (mkDisk {[ init_config := [] ]} []) d' lines (init_state d')).
  - intros i. split; [done|]. split; [repeat constructor; lia|done].
  - exact E.
  - reflexivity.
  - reflexivity.
  - reflexivity.
Defined.
